(* ===== verification/_CoqProject ===== *)
-Q . S2P
Prelude.v
Mem.v
Bits.v
Dll.v
BlockDev.v
RamDisk.v
DvmCache.v
DvmCacheFacts.v
DvmCacheThms.v
DvmCacheClaims.v
Di.v
Gcode.v
GcodeThms.v
Exi.v
Ata.v
AtaThms.v
Tsd.v
TsdThms.v
Disk.v
DiskThms.v
CStr.v
Fdrv.v
FdrvThms.v
FlippyEmu.v
FlippyEmuThms.v
Arq.v
ArqThms.v
Ar.v
SsAram.v
SsAramThms.v
BnrCache.v
Ini.v
IniThms.v
FileLoad.v
FileLoadThms.v
Pcg.v
Settings.v
SettingsThms.v
GmAssets.v
GmAssetsThms.v
Arith64.v
Arith64Thms.v
Picolibc.v
PicolibcThms.v
Crc.v
Qsort.v
QsortThms.v
Descrambler.v
Ipl.v
IplThms.v
Patcher.v
PatcherThms.v
Cubeboot.v
CubebootThms.v
Texture.v
TextureThms.v
Heap.v
HeapThms.v
HeapCalls.v
Float.v
Grid.v
GridThms.v
Hooks.v
HooksThms.v
GmPaths.v
GmPathsThms.v
Menu.v
MenuThms.v
BnrOffsets.v
DiscInfo.v
DiscInfoThms.v
GmEnum.v
GmEnumAssets.v
GmEnumCard.v
GmEnumSpec.v
GmEnumThms.v
GmEnumClaims.v
Boot.v
BootThms.v
Bs2start.v
