(* ===== verification/Prelude.v ===== *)
(** * Verification of cubiboot

    cubiboot replaces the start of a GameCube.  A loader, [cubeboot]
    (src/cubeboot), reads its settings from a storage device, gets the console's
    own firmware, the IPL, puts routines of its own over parts of it - the
    patches (src/patches) - and starts the result.  In the patched IPL the menu
    lists the games of the device and starts the one that is chosen.  This
    library models both programs, from the storage drivers up, as executable
    definitions, with the theorems that make them correct.

    ** How the model reads

    Integers are [Z] with the reduction of their C type written out ([u8] to
    [u64], [s32]).  Bytes are numbers below 256, buffers and C strings lists of
    them (CStr), main memory a function from addresses to bytes (Mem), floating-point
    numbers counts of their smallest step (Float).  Code with effects is a term of
    [M], the state and error monad of this file: [None] is a run the C program does
    not have (an access outside its buffer, a loop that does not end), so every
    theorem of the form "[wp] ..." says that the run exists and what it leaves.  [wp_bind], [wp_mono] and their kin carry those
    proofs.  Hardware, FatFs and the IPL's own routines are outside the
    repository: they are type classes, and a second class beside each states what
    is relied on (that a drive keeps what was written, that an open file's reads
    are its bytes).  Each theorem under such a class has a witness at a concrete
    instance of it.

    ** Parts, from the hardware up

    - _Buses_.  Di (the disc interface), Exi (the expansion interface), Ar (the
      DMA engine of auxiliary RAM, patches/decomp_ar.c), SsAram (the loader's use
      of it, boot/ssaram.c), Arq (the queue of transfers, decomp_arq.c).
    - _Drivers_ (src/cubeboot/source/emu).  Gcode, Ata, Tsd: sector devices on the
      two buses; Fdrv: a drive with a file interface of its own.
    - _Block devices_.  BlockDev is the class of a sector device, RamDisk one in
      memory; DvmCache is the LRU cache over it (emu/ffs/dvm_cache.c), with its
      lists threaded through a table of nodes (Dll); Disk makes the drivers and
      the cache into what FatFs calls (diskio.c).
    - _Files_.  FlippyEmu chooses the device and serves the file calls either from
      the drive or through FatFs (flippy_emu.c), both of them on the one DI bus,
      where a GC Loader's blocks come from as well; FileLoad loads whole files over
      it at any alignment (flippy_sync.c, uff.c, sd.c).
    - _Settings_.  Ini parses the configuration in place (ini.c), Settings takes
      the known keys (settings.c), Pcg makes the random colour (pcg_basic.c).
    - _The loader_.  Descrambler and Ipl find, unscramble and identify the IPL
      (ipl.c, descrambler.c, tweaks.c); Patcher puts the image of the patches into
      it (main.c, elf.c); Cubeboot is [main] (main.c, sram.c, halt.c).
    - _The hooks_.  Hooks is what the patched IPL calls each frame, Bs2start how it
      ends (patches/main.c); Texture is the texture format of the boot logo and
      the access to its pixels (metaphrasis.c, GRRLIB_pixel.h).
    - _Memory of the patches_.  Heap is the first-fit allocator with its two lists
      of blocks (pmalloc.c); HeapCalls adds the histories of its clients.
    - _The screen_.  Grid is where the lines of icons are and how they move (grid.c,
      over the rounding of Float), Menu what the pad does to the list and to the
      game chosen from it (menu.c).
    - _The game list_ (patches/games.c).  GmPaths: which paths are listed and in
      which order; DiscInfo with the table BnrOffsets: what a game file says of
      itself (dolphin_dvd.c, bnr_offsets.c, iso9660.c); GmAssets: picture buffers
      and their places in auxiliary RAM; BnrCache: the banner cache (tweaks.c);
      GmEnum: the thread that fills the list, over all of these.
    - _Starting a game_.  Boot loads executables and hands Swiss its arguments
      (boot.c, loader.c).
    - _C support_.  Picolibc, Qsort, Arith64, Crc: the routines the patches bring
      with them.

    A part [X] has its definitions in X.v, named as in the source, and its
    theorems in XThms.v (for the largest, also in XFacts.v, XSpec.v, XCalls.v and
    XClaims.v; for the smallest, in X.v itself).  A property of the program that
    the library is about has a number, [C1] and so on, in its comment.  A higher
    part uses a lower one through its definitions or, where the lower part has
    several implementations, through a class: DvmCache is proved against
    [BlockDev], which Disk discharges; FileLoad, Settings, Boot, DiscInfo and
    GmEnum against the file device, which FlippyEmu provides.

    ** What the theorems show

    - _Refinement_: reads and writes through the block cache are those of the
      device over whole histories of calls, including failed ones and drives that
      change; the ARAM queue is a pair of first-in first-out schedules, each
      request served in full and once; the banner cache is a queue of the last
      1024 banners; each file call of the drive is one operation of its protocol;
      the block routines of the C library are the mathematical copies.
    - _Functional behaviour_: a driver delivers the sectors asked for, whatever
      the alignment and however many attempts fail; a file is read as the device
      holds it; the configuration parser computes a grammar's parse of any text;
      the game list holds the valid games of the directory in order, each with its
      own title and picture; the pieces of the image that are meant for an IPL are
      in its memory and nothing else is changed; Swiss is entered with the
      arguments that name the game.
    - _Safety and invariants_: only the backend of the device chosen acts, on
      files and on the bus; a picture shown is the entry's own, in histories of
      loads, frees and finished transfers that keep to the conditions stated there;
      what is started is one of seven known IPLs with the patches in place, and
      each way in which the loader stops instead is named; the boot animation is
      hidden while the splash runs and the IPL's code as it was at any other time;
      the selected slot is one of those on the screen, whatever is pressed and with
      every sum of the animation rounded; blocks of the heap lie apart, as long as
      blocks are cut off the last one only and leave room for a header there.
    - _Equivalence_: the optimised checksums, string routines and divisions are
      the plain definitions.
    - _Termination, liveness, bounds, errors_: parsing always ends; the queue
      drains; the probe of a drive ends with it found and its version known; transfers to any address
      change exactly the bytes they should; a write the drive refuses is reported,
      and still changes the page the cache has of it.

    ** Bounds and fuel

    Loops over data recurse on the data or on a count computed from the source's
    own bound.  Loops with no bound in the source (polling, in-place scans) take a
    number of rounds: polls get the number the device answers with, and [None] if
    it never does; scans get the length of the buffer, which the theorems show to
    be enough (IniThms, QsortThms, the recency list of DvmCacheFacts); walks along
    the heap's lists get one round for each block.  The bound of 600 scrolls in
    MenuThms is what the ten pixels of the code's comparisons leave for rounding.
    Sizes of buffers and tables are the source's.

    ** Not modelled

    Output to the screen, sound, the clock and the log have no state the rest of
    the program reads.  The cache maintenance instructions are no operations on a
    coherent memory.  Interrupts and threads are modelled where they decide the
    order of steps: as the arguments and histories of GmAssets, GmEnum and ArqThms.
    Drawing the menu (the rest of menu.c) and the conversions between colours
    (GRRLIB_pixel.c) are matrices and colours of what is seen.  To the users of the
    heap (GmEnum, GmPaths) an allocation is one that does not run out.  Vendored
    code - FatFs ([ff.c], [ffunicode.c]), [upng.c], [tinf], [tinyprintf],
    [rpl_vsnprintf.c] - is not the program's own; what is used of FatFs is a class.  [sidestep.c] has no callers,
    [dvd_threaded.c] of the patches is empty.  [mcp.c], [memcard.c] and [gameid.c]
    speak to a memory card replacement and keep no state the rest reads.  The
    stage before the loader (src/entry, src/ipl) unpacks it and jumps to it. *)

From Stdlib Require Export ZArith Lia.
From stdpp Require Export base tactics numbers decidable option relations sets list.

#[global] Open Scope Z_scope.

(** ** Machine-width integers

    C's unsigned arithmetic is written as an operation on [Z] followed by the
    reduction of its type; [s32] is the conversion to a signed [int]. *)

Definition u8 (x : Z) : Z := x mod 2 ^ 8.
Definition u16 (x : Z) : Z := x mod 2 ^ 16.
Definition u32 (x : Z) : Z := x mod 2 ^ 32.
Definition u64 (x : Z) : Z := x mod 2 ^ 64.
Definition s32 (x : Z) : Z :=
  let y := u32 x in if y <? 2 ^ 31 then y else y - 2 ^ 32.

Declare Scope word_scope.
Delimit Scope word_scope with w.
Notation "a +32 b" := (u32 (a + b)) (at level 50, left associativity) : word_scope.
Notation "a -32 b" := (u32 (a - b)) (at level 50, left associativity) : word_scope.
Notation "a *32 b" := (u32 (a * b)) (at level 40, left associativity) : word_scope.
#[global] Open Scope word_scope.

Create HintDb word.

Lemma u8_range x : 0 <= u8 x < 2 ^ 8.
Proof. apply Z.mod_pos_bound. lia. Qed.
Lemma u16_range x : 0 <= u16 x < 2 ^ 16.
Proof. apply Z.mod_pos_bound. lia. Qed.
Lemma u32_range x : 0 <= u32 x < 2 ^ 32.
Proof. apply Z.mod_pos_bound. lia. Qed.
Lemma u64_range x : 0 <= u64 x < 2 ^ 64.
Proof. apply Z.mod_pos_bound. lia. Qed.
Lemma u8_small x : 0 <= x < 2 ^ 8 -> u8 x = x.
Proof. apply Z.mod_small. Qed.
Lemma u32_small x : 0 <= x < 2 ^ 32 -> u32 x = x.
Proof. apply Z.mod_small. Qed.
Lemma u64_small x : 0 <= x < 2 ^ 64 -> u64 x = x.
Proof. apply Z.mod_small. Qed.
Lemma u16_small x : 0 <= x < 2 ^ 16 -> u16 x = x.
Proof. apply Z.mod_small. Qed.
#[export] Hint Resolve u8_range u16_range u32_range u64_range : word.
#[export] Hint Resolve u8_small u16_small u32_small u64_small : word.

(** [zdm] closes goals on [/] and [mod] by constants. *)
Ltac zdm := Z.div_mod_to_equations; lia.

(** Case analysis on the boolean comparison that guards the goal or a
    hypothesis, with the fact it decides. *)
Ltac bcase :=
  match goal with
  | |- context [?a =? ?b] => destruct (Z.eqb_spec a b)
  | |- context [?a <? ?b] => destruct (Z.ltb_spec a b)
  | |- context [?a <=? ?b] => destruct (Z.leb_spec a b)
  | |- context [?a >? ?b] => rewrite (Z.gtb_ltb a b); destruct (Z.ltb_spec b a)
  | |- context [?a >=? ?b] => rewrite (Z.geb_leb a b); destruct (Z.leb_spec b a)
  | H : context [?a =? ?b] |- _ => destruct (Z.eqb_spec a b)
  | H : context [?a <? ?b] |- _ => destruct (Z.ltb_spec a b)
  | H : context [?a <=? ?b] |- _ => destruct (Z.leb_spec a b)
  | H : context [?a >? ?b] |- _ => rewrite (Z.gtb_ltb a b) in H; destruct (Z.ltb_spec b a)
  | H : context [?a >=? ?b] |- _ => rewrite (Z.geb_leb a b) in H; destruct (Z.leb_spec b a)
  end.

(** [split_all] opens a conjunction, closing the parts [eauto] knows. *)
Ltac split_all := repeat match goal with |- _ /\ _ => split end; eauto; try lia.

(** ** Memory as lists

    A buffer is the list of its bytes.  [slice o n l] is what a [memcpy] of
    [n] elements from offset [o] reads, [splice o new l] what a [memcpy] of
    [new] to offset [o] leaves behind. *)

Section Memory.
Context {A : Type}.
Implicit Types l new : list A.

Definition slice (o n : nat) l : list A := take n (drop o l).
Definition splice (o : nat) new l : list A :=
  take o l ++ new ++ drop (o + length new) l.

Lemma length_slice o n l : (o + n <= length l)%nat -> length (slice o n l) = n.
Proof. intros. unfold slice. rewrite length_take, length_drop. lia. Qed.

Lemma length_splice o new l :
  (o + length new <= length l)%nat -> length (splice o new l) = length l.
Proof.
  intros. unfold splice. rewrite !length_app, length_take, length_drop. lia.
Qed.

Lemma splice_nil o l : (o <= length l)%nat -> splice o [] l = l.
Proof. intros. unfold splice. cbn. rewrite Nat.add_0_r. apply take_drop. Qed.

Lemma slice_splice_eq o new l :
  (o <= length l)%nat -> slice o (length new) (splice o new l) = new.
Proof.
  intros. unfold slice, splice.
  rewrite drop_app_length' by (rewrite length_take; lia).
  apply take_app_length.
Qed.

Lemma slice_slice a n b m l :
  (a + n <= m)%nat -> slice a n (slice b m l) = slice (b + a) n l.
Proof.
  intros. unfold slice. rewrite skipn_firstn_comm, take_take, drop_drop.
  f_equal. lia.
Qed.

Lemma slice_splice_lt o new k n l :
  (k + n <= o)%nat -> (o <= length l)%nat -> slice k n (splice o new l) = slice k n l.
Proof.
  intros. unfold slice, splice.
  rewrite drop_app_le by (rewrite length_take; lia).
  rewrite take_app_le by (rewrite length_drop, length_take; lia).
  rewrite skipn_firstn_comm, take_take. f_equal. lia.
Qed.

Lemma drop_splice o new k l :
  (o + length new <= k)%nat -> (o <= length l)%nat -> drop k (splice o new l) = drop k l.
Proof.
  intros. unfold splice.
  rewrite drop_app_ge by (rewrite length_take; lia). rewrite length_take.
  rewrite drop_app_ge by lia. rewrite drop_drop. f_equal. lia.
Qed.

Lemma slice_splice_gt o new k n l :
  (o + length new <= k)%nat -> (o <= length l)%nat ->
  slice k n (splice o new l) = slice k n l.
Proof. intros. unfold slice. rewrite drop_splice; auto. Qed.

(** Two writes one after the other at adjacent offsets are one write. *)
Lemma splice_splice_adj o a b l :
  (o + length a + length b <= length l)%nat ->
  splice (o + length a) b (splice o a l) = splice o (a ++ b) l.
Proof.
  intros. unfold splice at 1. rewrite drop_splice by lia.
  unfold splice. rewrite take_app_add' by (rewrite length_take; lia).
  rewrite take_app_length, length_app, <- !app_assoc, Nat.add_assoc. reflexivity.
Qed.

(** A write inside the range a later write covers is lost. *)
Lemma splice_splice_cover o a k b l :
  (k + length b <= o + length a)%nat -> (o <= k)%nat -> (o + length a <= length l)%nat ->
  splice o a (splice k b l) = splice o a l.
Proof.
  intros. unfold splice at 1. rewrite drop_splice by lia. unfold splice at 1.
  rewrite take_app_le by (rewrite length_take; lia).
  rewrite take_take. unfold splice. do 2 f_equal. lia.
Qed.

Lemma slice_all l : slice 0 (length l) l = l.
Proof. unfold slice. rewrite drop_0. apply take_ge. lia. Qed.

Lemma slice_app o n m l : slice o (n + m) l = slice o n l ++ slice (o + n) m l.
Proof.
  unfold slice. rewrite <- drop_drop, <- (take_drop n (take (n + m) (drop o l))).
  rewrite take_take, Nat.min_l by lia. f_equal.
  rewrite skipn_firstn_comm. f_equal. lia.
Qed.

(** A write inside a window is a write to the window. *)
Lemma slice_splice_inside w n o new l :
  (o + length new <= n)%nat -> (w + n <= length l)%nat ->
  slice w n (splice (w + o) new l) = splice o new (slice w n l).
Proof.
  intros. replace n with (o + (length new + (n - o - length new)))%nat at 1 by lia.
  rewrite !slice_app. unfold splice at 4.
  rewrite slice_splice_lt, slice_splice_eq, slice_splice_gt by lia.
  f_equal; [|f_equal].
  - unfold slice. rewrite take_take. f_equal. lia.
  - unfold slice. rewrite skipn_firstn_comm, drop_drop. f_equal; [lia|]. f_equal. lia.
Qed.

Lemma lookup_slice o n l i :
  (i < n)%nat -> slice o n l !! i = l !! (o + i)%nat.
Proof. intros. unfold slice. rewrite lookup_take_lt, lookup_drop by lia. done. Qed.

Lemma lookup_splice_in o new l i :
  (o <= i < o + length new)%nat -> (o <= length l)%nat ->
  splice o new l !! i = new !! (i - o)%nat.
Proof.
  intros. unfold splice. rewrite lookup_app_r by (rewrite length_take; lia).
  rewrite length_take, lookup_app_l by lia. f_equal. lia.
Qed.

Lemma lookup_splice_out o new l i :
  (i < o \/ o + length new <= i)%nat -> (o + length new <= length l)%nat ->
  splice o new l !! i = l !! i.
Proof.
  intros [?|?] ?; unfold splice.
  - rewrite lookup_app_l by (rewrite length_take; lia). apply lookup_take_lt. lia.
  - rewrite lookup_app_r by (rewrite length_take; lia). rewrite length_take.
    rewrite lookup_app_r by lia. rewrite lookup_drop. f_equal. lia.
Qed.
End Memory.

Lemma nth_slice o n i (l : list Z) : (i < n)%nat -> nth i (slice o n l) 0 = nth (o + i) l 0.
Proof. intros Hi. rewrite !nth_lookup. by rewrite lookup_slice. Qed.

(** Functions as memories. *)
Section Upd.
Context {A B : Type} `{EqDecision A}.
Definition upd (f : A -> B) (a : A) (b : B) : A -> B := fun x => if decide (x = a) then b else f x.
Lemma upd_eq f a b : upd f a b a = b.
Proof. unfold upd. by rewrite decide_True. Qed.
Lemma upd_ne f a b x : x <> a -> upd f a b x = f x.
Proof. intros. unfold upd. by rewrite decide_False. Qed.
End Upd.

Create Rewrite HintDb len.
#[export] Hint Rewrite @length_app @length_take @length_drop @length_fmap @length_seq
  @length_insert @length_replicate : len.
Ltac len := autorewrite with len; try lia.

(** Concatenation of [n] equal-sized pieces. *)
Definition pieces {A} (f : nat -> list A) (n : nat) : list A := concat (f <$> seq 0 n).

Section Pieces.
Context {A : Type} (f : nat -> list A) (k : nat).
Hypothesis Hk : forall i, length (f i) = k.

Lemma pieces_S n : pieces f (S n) = pieces f n ++ f n.
Proof.
  unfold pieces. rewrite seq_S, fmap_app, concat_app. cbn. by rewrite app_nil_r.
Qed.

Lemma length_pieces n : length (pieces f n) = (n * k)%nat.
Proof. induction n; [done|]. rewrite pieces_S, length_app, IHn, Hk. lia. Qed.

Lemma pieces_add n m : pieces f (n + m) = pieces f n ++ pieces (fun i => f (n + i)%nat) m.
Proof.
  unfold pieces. rewrite seq_app, fmap_app, concat_app. do 2 f_equal. cbn.
  rewrite <- (Nat.add_0_r n) at 1. rewrite <- fmap_add_seq, <- list_fmap_compose.
  reflexivity.
Qed.
End Pieces.

Lemma slice_pieces {A} (f : nat -> list A) k (Hk : forall i, length (f i) = k) o n m :
  (o + n <= m)%nat -> slice (o * k) (n * k) (pieces f m) = pieces (fun i => f (o + i)%nat) n.
Proof.
  intros. replace m with (o + (n + (m - o - n)))%nat by lia.
  rewrite (pieces_add f), (pieces_add (fun i => f (o + i)%nat)). unfold slice.
  rewrite drop_app_length' by (rewrite (length_pieces f k); auto).
  apply take_app_length'. rewrite (length_pieces _ k); auto.
Qed.

Lemma pieces_ext {A} (f g : nat -> list A) n :
  (forall i, (i < n)%nat -> f i = g i) -> pieces f n = pieces g n.
Proof.
  intros H. unfold pieces. f_equal. apply list_fmap_ext.
  intros i x Hx. apply lookup_seq in Hx as [-> ?]. apply H. lia.
Qed.

(** Big-endian words in a byte buffer (the GameCube is big-endian). *)
Definition be32 (bs : list Z) (o : nat) : Z :=
  (nth o bs 0) * 2 ^ 24 + (nth (o + 1) bs 0) * 2 ^ 16 + (nth (o + 2) bs 0) * 2 ^ 8
  + nth (o + 3) bs 0.
Definition be32_bytes (x : Z) : list Z :=
  [u8 (Z.shiftr x 24); u8 (Z.shiftr x 16); u8 (Z.shiftr x 8); u8 x].

(** ** Programs over a world

    A driver runs against the state of the hardware below it and may wait for
    ever: [M W A] is a state-passing computation in which [None] says that the
    machine never gets past a wait, or that the code has left what C defines (a
    write past the end of a buffer).  A theorem that a program returns excludes
    both. *)
Definition M (W A : Type) : Type := W -> option (A * W).
Definition ret {W A} (a : A) : M W A := fun w => Some (a, w).
Definition bind {W A B} (m : M W A) (k : A -> M W B) : M W B :=
  fun w => match m w with Some (a, w) => k a w | None => None end.
Definition get {W} : M W W := fun w => Some (w, w).
Definition put {W} (w : W) : M W unit := fun _ => Some (tt, w).
Definition modify {W} (f : W -> W) : M W unit := fun w => Some (tt, f w).
Definition spin {W A} : M W A := fun _ => None.
Definition of_option {W A} (o : option A) : M W A :=
  fun w => match o with Some a => Some (a, w) | None => None end.
(** A program over a part of the world. *)
Definition zoom {W V A} (view : W -> V) (update : V -> W -> W) (m : M V A) : M W A :=
  fun w => match m (view w) with Some (a, v) => Some (a, update v w) | None => None end.

Declare Scope prog_scope.
Delimit Scope prog_scope with prog.
Notation "x <- m ;; k" := (bind m (fun x => k))
  (at level 100, m at next level, right associativity) : prog_scope.
Notation "' p <- m ;; k" := (bind m (fun p => k))
  (at level 100, p pattern, m at next level, right associativity) : prog_scope.
Notation "m ;; k" := (bind m (fun _ => k)) (at level 100, right associativity) : prog_scope.

Lemma bind_Some {W A B} (m : M W A) (k : A -> M W B) w b w'' :
  bind m k w = Some (b, w'') <-> exists a w', m w = Some (a, w') /\ k a w' = Some (b, w'').
Proof.
  unfold bind. destruct (m w) as [[a w']|]; naive_solver.
Qed.

(** [wp m Q w]: run from [w], [m] returns and its result satisfies [Q]. *)
Definition wp {W A} (m : M W A) (Q : A -> W -> Prop) (w : W) : Prop :=
  match m w with Some (a, w') => Q a w' | None => False end.

Section Wp.
Context {W A B : Type}.
Implicit Types (m : M W A) (w : W).

Lemma wp_ret (a : A) Q w : Q a w -> wp (ret a) Q w.
Proof. done. Qed.
Lemma wp_bind m (k : A -> M W B) Q w : wp m (fun a w' => wp (k a) Q w') w -> wp (bind m k) Q w.
Proof. unfold wp, bind. destruct (m w) as [[a w']|]; [|done]. done. Qed.
Lemma wp_bind_inv m (k : A -> M W B) Q w :
  wp (bind m k) Q w -> wp m (fun a w' => wp (k a) Q w') w.
Proof. unfold wp, bind. destruct (m w) as [[a w']|]; [|done]. done. Qed.
Lemma wp_mono m (Q Q' : A -> W -> Prop) w :
  wp m Q w -> (forall a w', Q a w' -> Q' a w') -> wp m Q' w.
Proof. unfold wp. destruct (m w) as [[a w']|]; auto. Qed.
Lemma wp_get (Q : W -> W -> Prop) w : Q w w -> wp get Q w.
Proof. done. Qed.
Lemma wp_put w0 (Q : unit -> W -> Prop) w : Q tt w0 -> wp (put w0) Q w.
Proof. done. Qed.
Lemma wp_modify f (Q : unit -> W -> Prop) w : Q tt (f w) -> wp (modify f) Q w.
Proof. done. Qed.
Lemma wp_elim m Q w : wp m Q w -> exists a w', m w = Some (a, w') /\ Q a w'.
Proof. unfold wp. destruct (m w) as [[a w']|]; [|done]. eauto. Qed.
End Wp.

(** Steps can be taken together. *)
Lemma wp_run {W A} (m : M W A) Q w a w' : wp m Q w -> m w = Some (a, w') -> Q a w'.
Proof. unfold wp. intros H E. by rewrite E in H. Qed.
Lemma wp_bind_assoc {W A B C} (m : M W A) (k : A -> M W B) (r : B -> M W C) Q w :
  wp (bind (bind m k) r) Q w -> wp (bind m (fun a => bind (k a) r)) Q w.
Proof. unfold wp, bind. by destruct (m w) as [[a w']|]. Qed.

(** [keeps R m]: wherever [m] returns, the worlds before and after are related
    by [R]. *)
Definition keeps {W A} (R : W -> W -> Prop) (m : M W A) : Prop :=
  forall w a w', m w = Some (a, w') -> R w w'.

Create HintDb keeps.

Section Keeps.
Context {W : Type} (R : W -> W -> Prop) `{PreOrder W R}.

Lemma keeps_ret {A} (a : A) : keeps R (ret a).
Proof. intros w x w' [= _ <-]. reflexivity. Qed.
Lemma keeps_get : keeps R get.
Proof. intros w x w' [= _ <-]. reflexivity. Qed.
Lemma keeps_spin {A} : keeps R (@spin W A).
Proof. done. Qed.
Lemma keeps_of_option {A} (o : option A) : keeps R (of_option o).
Proof. intros w x w'. unfold of_option. destruct o; [|done]. intros [= _ <-]. reflexivity. Qed.
Lemma keeps_bind {A B} (m : M W A) (k : A -> M W B) :
  keeps R m -> (forall a, keeps R (k a)) -> keeps R (bind m k).
Proof.
  intros Hm Hk w b w'' E. apply bind_Some in E as (a & w' & E1 & E2).
  etransitivity; [by eapply Hm|by eapply Hk].
Qed.
Lemma keeps_modify f : (forall w, R w (f w)) -> keeps R (modify f).
Proof. intros Hf w x w' [= _ <-]. apply Hf. Qed.
Lemma keeps_zoom {V A} (S : V -> V -> Prop) view update (m : M V A) :
  keeps S m -> (forall w v, S (view w) v -> R w (update v w)) -> keeps R (zoom view update m).
Proof.
  intros Hm Hu w a w'. unfold zoom. destruct (m (view w)) as [[b v]|] eqn:E; [|done].
  intros [= _ <-]. eapply Hu, Hm, E.
Qed.
Lemma wp_keeps {A} (m : M W A) (Q : A -> W -> Prop) w :
  keeps R m -> wp m Q w -> wp m (fun a w' => Q a w' /\ R w w') w.
Proof.
  intros Hm. unfold wp. destruct (m w) as [[a w']|] eqn:E; [|done]. intros HQ. split; [done|by eapply Hm].
Qed.
End Keeps.
Lemma wp_zoom {W V A} view update (m : M V A) (Q : A -> W -> Prop) w :
  wp m (fun a v => Q a (update v w)) (view w) -> wp (zoom view update m) Q w.
Proof. unfold wp, zoom. by destruct (m (view w)) as [[a v]|]. Qed.
#[export] Hint Resolve keeps_ret keeps_get keeps_spin keeps_of_option keeps_bind : keeps.
