(* ===== verification/Mem.v ===== *)
(** Main memory as a whole: a function from addresses to bytes, with blocks and
    big-endian words stored into it and read from it. *)

From S2P Require Import Prelude.

Definition store_mem (addr : Z) (bs : list Z) (m : Z -> Z) : Z -> Z := fun a =>
  if (addr <=? a) && (a <? addr + Z.of_nat (length bs)) then nth (Z.to_nat (a - addr)) bs 0 else m a.
Definition load_mem (addr : Z) (n : nat) (m : Z -> Z) : list Z :=
  (fun i => m (addr + Z.of_nat i)) <$> seq 0 n.
(** [memset(addr, 0, n)]. *)
Definition zero_mem (addr n : Z) (m : Z -> Z) : Z -> Z := fun a =>
  if (addr <=? a) && (a <? addr + n) then 0 else m a.
Definition store_word (addr v : Z) (m : Z -> Z) : Z -> Z := store_mem addr (be32_bytes v) m.
(** The word at an address. *)
Definition load_word (addr : Z) (m : Z -> Z) : Z := be32 (load_mem addr 4 m) 0.

Lemma store_mem_in a bs m x : a <= x < a + Z.of_nat (length bs) ->
  store_mem a bs m x = nth (Z.to_nat (x - a)) bs 0.
Proof. intros. unfold store_mem. repeat bcase; cbn [andb]; (done || lia). Qed.
Lemma store_mem_out a bs m x : ~ (a <= x < a + Z.of_nat (length bs)) -> store_mem a bs m x = m x.
Proof. intros. unfold store_mem. repeat bcase; cbn [andb]; (done || lia). Qed.

Lemma load_mem_ext a n m m' :
  (forall x, a <= x < a + Z.of_nat n -> m x = m' x) -> load_mem a n m = load_mem a n m'.
Proof.
  intros Hm. apply list_fmap_ext. intros i x Hx. apply lookup_seq in Hx as [-> Hi]. cbn.
  apply Hm. lia.
Qed.
Lemma length_load_mem a n m : length (load_mem a n m) = n.
Proof. unfold load_mem. len. Qed.
Lemma load_mem_out a n b bs m :
  a + Z.of_nat n <= b \/ b + Z.of_nat (length bs) <= a -> load_mem a n (store_mem b bs m) = load_mem a n m.
Proof. intros. apply load_mem_ext. intros x Hx. apply store_mem_out. lia. Qed.
Lemma load_mem_eq a bs m : load_mem a (length bs) (store_mem a bs m) = bs.
Proof.
  apply list_eq_same_length with (length bs); [done|apply length_load_mem|].
  intros i x y Hi. unfold load_mem. rewrite list_lookup_fmap, lookup_seq_lt by done. intros [= <-] Hy.
  cbn. rewrite store_mem_in by lia. replace (Z.to_nat _) with i by lia. by apply nth_lookup_Some.
Qed.
Lemma load_mem_app a n k m : load_mem a (n + k) m = load_mem a n m ++ load_mem (a + Z.of_nat n) k m.
Proof.
  unfold load_mem. rewrite seq_app, fmap_app. f_equal. cbn.
  rewrite <- (Nat.add_0_r n) at 1. rewrite <- fmap_add_seq, <- list_fmap_compose.
  apply list_fmap_ext. intros i x _. cbn. f_equal. lia.
Qed.
Lemma store_mem_app a bs cs m :
  forall x, store_mem (a + Z.of_nat (length bs)) cs (store_mem a bs m) x = store_mem a (bs ++ cs) m x.
Proof.
  intros x. unfold store_mem. rewrite length_app, Nat2Z.inj_add.
  repeat bcase; cbn [andb]; try lia; try done.
  - by rewrite app_nth1 by lia.
  - rewrite app_nth2 by lia. f_equal. lia.
Qed.
Lemma zero_mem_spec a n m x : zero_mem a n m x = if decide (a <= x < a + n) then 0 else m x.
Proof. unfold zero_mem. case_decide; repeat bcase; cbn [andb]; (done || lia). Qed.
Lemma store_mem_ext a bs m m' x : m x = m' x -> store_mem a bs m x = store_mem a bs m' x.
Proof. intros E. unfold store_mem. by destruct (_ && _). Qed.

Lemma load_word_out a b bs m : a + 4 <= b \/ b + Z.of_nat (length bs) <= a -> load_word a (store_mem b bs m) = load_word a m.
Proof. intros. unfold load_word. by rewrite load_mem_out by lia. Qed.
Lemma load_word_ext a m m' : (forall x, m x = m' x) -> load_word a m = load_word a m'.
Proof. intros Hm. unfold load_word. f_equal. apply load_mem_ext. intros. apply Hm. Qed.

(** ** Program files: sections put into memory *)

(** A section: where it goes, how long it is, where it is in the file. *)
Definition section : Type := Z * Z * Z.
Definition live (s : section) : bool := negb (s.1.1 =? 0) && negb (s.1.2 =? 0).
Definition covers (s : section) (a : Z) : Prop := live s = true /\ s.1.1 <= a < s.1.1 + s.1.2.
#[export] Instance covers_dec s a : Decision (covers s a).
Proof. unfold covers. apply _. Defined.

(** The byte the sections put at [a]: where they overlap, the last one's. *)
Fixpoint section_byte (dol : list Z) (ss : list section) (a : Z) : option Z :=
  match ss with
  | [] => None
  | s :: ss =>
      match section_byte dol ss a with
      | Some b => Some b
      | None => if decide (covers s a) then Some (nth (Z.to_nat (s.2 + (a - s.1.1))) dol 0) else None
      end
  end.

(** What loading the sections does to memory. *)
Fixpoint place (dol : list Z) (ss : list section) (m : Z -> Z) : Z -> Z :=
  match ss with
  | [] => m
  | s :: ss =>
      place dol ss (if live s then store_mem s.1.1 (slice (Z.to_nat s.2) (Z.to_nat s.1.2) dol) m else m)
  end.

(** A section that lies in the file. *)
Definition inside (dol : list Z) (s : section) : Prop :=
  live s = true -> 0 <= s.1.2 /\ 0 <= s.2 /\ s.2 + s.1.2 <= Z.of_nat (length dol).

Lemma place_app dol ss ts m : place dol (ss ++ ts) m = place dol ts (place dol ss m).
Proof. revert m. induction ss as [|s ss IH]; intros m; [reflexivity|apply IH]. Qed.

Lemma place_byte dol ss : Forall (inside dol) ss -> forall m a,
  place dol ss m a = match section_byte dol ss a with Some b => b | None => m a end.
Proof.
  induction 1 as [|s ss Hs _ IH]; intros m a; [done|]. cbn [place section_byte].
  rewrite IH. destruct (section_byte dol ss a); [done|].
  destruct (live s) eqn:El.
  2:{ rewrite decide_False; [done|]. intros [? _]. congruence. }
  destruct (Hs El) as (Hl & Ho & Hend).
  assert (Hn : length (slice (Z.to_nat s.2) (Z.to_nat s.1.2) dol) = Z.to_nat s.1.2) by (apply length_slice; lia).
  case_decide as Hc.
  - destruct Hc as [_ Hc]. rewrite store_mem_in by lia. rewrite nth_slice by lia. f_equal. lia.
  - apply store_mem_out. intros Hx. apply Hc. split; [done|]. lia.
Qed.

Lemma live_spec s : live s = true <-> s.1.1 <> 0 /\ s.1.2 <> 0.
Proof. unfold live. rewrite andb_true_iff, !negb_true_iff, !Z.eqb_neq. done. Qed.

Lemma section_byte_covered dol ss a b : section_byte dol ss a = Some b ->
  exists s, s ∈ ss /\ covers s a.
Proof.
  induction ss as [|s ss IH]; cbn; [done|]. destruct (section_byte dol ss a).
  - intros E. destruct (IH E) as (s' & ? & ?). exists s'. set_solver.
  - case_decide; [|done]. intros _. exists s. set_solver.
Qed.

(** ** Blocks written one after the other *)

Definition block : Type := Z * list Z.
Definition store_blocks (l : list block) (m : Z -> Z) : Z -> Z := fold_left (fun m b => store_mem b.1 b.2 m) l m.
Definition in_block (b : block) (x : Z) : Prop := b.1 <= x < b.1 + Z.of_nat (length b.2).
Definition apart (b c : block) : Prop := b.1 + Z.of_nat (length b.2) <= c.1 \/ c.1 + Z.of_nat (length c.2) <= b.1.

Lemma store_blocks_app l k m : store_blocks (l ++ k) m = store_blocks k (store_blocks l m).
Proof. apply fold_left_app. Qed.
Lemma store_blocks_ext l : forall m m', (forall x, m x = m' x) -> forall x, store_blocks l m x = store_blocks l m' x.
Proof.
  induction l as [|b l IH]; intros m m' Hm; [done|]. cbn. apply IH. intros x. by apply store_mem_ext.
Qed.
Lemma store_blocks_out l : forall m x, Forall (fun b => ~ in_block b x) l -> store_blocks l m x = m x.
Proof.
  induction l as [|b l IH]; intros m x Hl; [done|]. inversion Hl; subst. cbn. rewrite IH by done.
  by apply store_mem_out.
Qed.
(** Blocks that do not overlap are all there at the end. *)
Lemma store_blocks_in l : ForallOrdPairs apart l -> forall b m, b ∈ l ->
  load_mem b.1 (length b.2) (store_blocks l m) = b.2.
Proof.
  induction 1 as [|c l Hc Hl IH]; intros b m Hb; [set_solver|]. cbn [store_blocks fold_left].
  apply list_elem_of_In in Hb as [->|Hb]; [|apply IH; by apply list_elem_of_In].
  change (fold_left _ l ?m) with (store_blocks l m).
  rewrite (load_mem_ext _ _ _ (store_mem b.1 b.2 m)); [apply load_mem_eq|].
  intros x Hx. apply store_blocks_out. eapply Forall_impl; [exact Hc|].
  intros d Hd. unfold apart, in_block in *. lia.
Qed.
