(* ===== verification/Bits.v ===== *)
(** Bit fields: how [Z.lor], [Z.land] and shifts by constants act as arithmetic
    on machine words, shared by the drivers' encodings and the bit-level
    routines. *)

From S2P Require Import Prelude.

(** Fields that do not overlap are joined by addition. *)
Lemma land_fields_0 a b k : 0 <= k -> 0 <= a < 2 ^ k -> Z.land (b * 2 ^ k) a = 0.
Proof.
  intros Hk Ha. apply Z.bits_inj'. intros n Hn. rewrite Z.land_spec, Z.bits_0.
  destruct (Z.lt_ge_cases n k).
  - rewrite Z.mul_pow2_bits_low by lia. done.
  - replace (Z.testbit a n) with false; [apply andb_false_r|]. symmetry.
    destruct (Z.eq_dec a 0) as [->|]; [apply Z.bits_0|].
    apply Z.bits_above_log2; [lia|]. apply Z.log2_lt_pow2; [lia|].
    eapply Z.lt_le_trans; [apply Ha|]. apply Z.pow_le_mono_r; lia.
Qed.

Lemma lor_fields a b k : 0 <= k -> 0 <= a < 2 ^ k -> Z.lor (b * 2 ^ k) a = b * 2 ^ k + a.
Proof.
  intros Hk Ha. pose proof (Z.add_lor_land (b * 2 ^ k) a) as E.
  rewrite land_fields_0 in E by done. lia.
Qed.

Lemma lor_fields_r a b k : 0 <= k -> 0 <= a < 2 ^ k -> Z.lor a (b * 2 ^ k) = a + b * 2 ^ k.
Proof. intros. rewrite Z.lor_comm, lor_fields by done. lia. Qed.

Lemma land_mask x k m : 0 <= k -> m = Z.ones k -> Z.land x m = x mod 2 ^ k.
Proof. intros Hk ->. by apply Z.land_ones. Qed.

Lemma land_ff x : Z.land x 0xFF = x mod 256.
Proof. by apply (land_mask x 8). Qed.
Lemma land_ffff x : Z.land x 0xFFFF = x mod 65536.
Proof. by apply (land_mask x 16). Qed.
Lemma land_f x : Z.land x 0x0F = x mod 16.
Proof. by apply (land_mask x 4). Qed.
Lemma land_1 x : Z.land x 1 = x mod 2.
Proof. by apply (land_mask x 1). Qed.

Lemma shr x k : 0 <= k -> Z.shiftr x k = x / 2 ^ k.
Proof. apply Z.shiftr_div_pow2. Qed.
Lemma shl x k : 0 <= k -> Z.shiftl x k = x * 2 ^ k.
Proof. apply Z.shiftl_mul_pow2. Qed.

(** A word is its bytes. *)
Lemma word_bytes x :
  x = x mod 256 + (x / 2 ^ 8) mod 256 * 2 ^ 8 + (x / 2 ^ 16) mod 256 * 2 ^ 16
      + x / 2 ^ 24 * 2 ^ 24.
Proof.
  replace (x / 2 ^ 16) with (x / 2 ^ 8 / 256) by (rewrite Z.div_div by lia; done).
  replace (x / 2 ^ 24) with (x / 2 ^ 8 / 256 / 256) by (rewrite !Z.div_div by lia; done).
  change (2 ^ 8) with 256. pose proof (Z.div_mod x 256 ltac:(lia)).
  pose proof (Z.div_mod (x / 256) 256 ltac:(lia)).
  pose proof (Z.div_mod (x / 256 / 256) 256 ltac:(lia)). lia.
Qed.

Lemma word_top x : 0 <= x < 2 ^ 32 -> 0 <= x / 2 ^ 24 < 256.
Proof. intros. zdm. Qed.

(** The bytes of a word, most significant first. *)
Lemma be32_be32_bytes x : 0 <= x < 2 ^ 32 -> be32 (be32_bytes x) 0 = x.
Proof.
  intros. unfold be32, be32_bytes, u8; cbn [nth Nat.add].
  rewrite !shr by lia. pose proof (word_top x ltac:(assumption)). rewrite (Z.mod_small (x / 2 ^ 24)) by lia.
  pose proof (word_bytes x). change (2 ^ 8) with 256 in *. lia.
Qed.

Lemma be32_bytes_range x : Forall (fun b => 0 <= b < 256) (be32_bytes x).
Proof. repeat constructor; apply u8_range. Qed.

Lemma be32_range bs o : Forall (fun b => 0 <= b < 256) bs -> 0 <= be32 bs o < 2 ^ 32.
Proof.
  intros H. assert (Hn : forall k, 0 <= nth k bs 0 < 256).
  { intros k. destruct (Nat.lt_ge_cases k (length bs)) as [Hk|Hk].
    - rewrite Forall_forall in H. apply H. apply list_elem_of_In. by apply nth_In.
    - rewrite nth_overflow by done. lia. }
  unfold be32. pose proof (Hn o). pose proof (Hn (o + 1)%nat).
  pose proof (Hn (o + 2)%nat). pose proof (Hn (o + 3)%nat). lia.
Qed.

Lemma be32_bytes_be32 a b c d :
  0 <= a < 256 -> 0 <= b < 256 -> 0 <= c < 256 -> 0 <= d < 256 ->
  be32_bytes (be32 [a; b; c; d] 0) = [a; b; c; d].
Proof.
  intros. unfold be32, be32_bytes, u8; cbn [nth Nat.add].
  rewrite !shr by lia. repeat f_equal; zdm.
Qed.

Create Rewrite HintDb bits.
#[export] Hint Rewrite land_ff land_ffff land_f land_1 : bits.
#[export] Hint Rewrite shr shl using lia : bits.

(** One bit, by its mask. *)
Lemma land_bit x k : 0 <= k -> (Z.land x (2 ^ k) =? 0) = negb (Z.testbit x k).
Proof.
  intros Hk. destruct (Z.testbit x k) eqn:E; cbn; [apply Z.eqb_neq|apply Z.eqb_eq].
  - intros H0. apply (f_equal (fun y => Z.testbit y k)) in H0.
    rewrite Z.land_spec, E, Z.pow2_bits_true, Z.bits_0 in H0 by done. done.
  - apply Z.bits_inj'. intros i Hi. rewrite Z.land_spec, Z.bits_0.
    destruct (decide (i = k)) as [->|]; [by rewrite E|].
    rewrite Z.pow2_bits_false by lia. apply andb_false_r.
Qed.
