(* ===== verification/Dll.v ===== *)
(** Doubly linked lists threaded through a node table, the representation the
    block cache ([dvm_cache.c]) and the heap ([pmalloc.c]) share.  The table is
    seen through its two link projections [nx] and [pv]; [dll] says that a list
    of keys is what a walk along [nx] visits and that [pv] is its inverse. *)

From S2P Require Import Prelude.

Section Dll.
Context {K : Type} `{EqDecision K}.
Implicit Types (nx pv : K -> option K) (l : list K) (p q : option K).

Definition upd_opt (f : K -> option K) (k : option K) (v : option K) : K -> option K :=
  match k with Some k => upd f k v | None => f end.

(** What follows the segment [l] when [q] comes after it. *)
Definition hd_or l q : option K := match l with [] => q | i :: _ => Some i end.
(** What precedes the continuation when [p] precedes [l]. *)
Definition last_or l p : option K := match last l with Some i => Some i | None => p end.

(** [dll nx pv p l q]: the nodes of [l] are linked in this order, [p] before
    the first and [q] after the last. *)
Fixpoint dll nx pv p l q : Prop :=
  match l with
  | [] => True
  | i :: l' => pv i = p /\ nx i = hd_or l' q /\ dll nx pv (Some i) l' q
  end.

Lemma last_or_cons i l p : last_or (i :: l) p = last_or l (Some i).
Proof. unfold last_or. rewrite last_cons. by destruct (last l). Qed.

Lemma last_or_app l1 l2 p : last_or (l1 ++ l2) p = last_or l2 (last_or l1 p).
Proof.
  revert p. induction l1 as [|i l1 IH]; intros p; [done|].
  by rewrite <- app_comm_cons, !last_or_cons, IH.
Qed.

Lemma hd_or_app l1 l2 q : hd_or (l1 ++ l2) q = hd_or l1 (hd_or l2 q).
Proof. by destruct l1. Qed.

Lemma dll_app nx pv p l1 l2 q :
  dll nx pv p (l1 ++ l2) q <->
  dll nx pv p l1 (hd_or l2 q) /\ dll nx pv (last_or l1 p) l2 q.
Proof.
  revert p. induction l1 as [|i l1 IH]; intros p; cbn [dll app].
  - unfold last_or; cbn. tauto.
  - rewrite IH, last_or_cons, hd_or_app. tauto.
Qed.

Lemma dll_ext nx pv nx' pv' p l q :
  (forall i, i ∈ l -> nx' i = nx i /\ pv' i = pv i) ->
  dll nx pv p l q -> dll nx' pv' p l q.
Proof.
  revert p. induction l as [|i l IH]; intros p H; cbn [dll]; [done|].
  intros (Hp & Hn & Hl). destruct (H i) as [-> ->]; [by left|].
  split_all. apply IH; [|done]. intros j Hj. apply H. by right.
Qed.

Lemma dll_upd_nx nx pv p l q k v :
  k ∉ l -> dll nx pv p l q -> dll (upd nx k v) pv p l q.
Proof.
  intros Hk. apply dll_ext. intros i Hi. rewrite upd_ne; [done|]. by intros ->.
Qed.

Lemma dll_upd_pv nx pv p l q k v :
  k ∉ l -> dll nx pv p l q -> dll nx (upd pv k v) p l q.
Proof.
  intros Hk. apply dll_ext. intros i Hi. rewrite upd_ne; [done|]. by intros ->.
Qed.

(** Redirecting what follows a segment is one store, to its last node. *)
Lemma dll_set_next nx pv p l q q' :
  NoDup l -> dll nx pv p l q -> dll (upd_opt nx (last l) q') pv p l q'.
Proof.
  intros Hnd. induction l as [|x l _] using rev_ind; [done|].
  rewrite last_snoc. cbn [upd_opt]. rewrite !dll_app. cbn [dll hd_or].
  apply NoDup_app in Hnd as (Hnd & Hx & _).
  intros (H1 & H2 & _ & _). rewrite upd_eq. split_all.
  apply dll_upd_nx; [|done]. intros Hin. apply (Hx x Hin). by left.
Qed.

(** Redirecting what precedes a segment is one store, to its first node. *)
Lemma dll_set_prev nx pv p p' l q :
  NoDup l -> dll nx pv p l q -> dll nx (upd_opt pv (head l) p') p' l q.
Proof.
  intros Hnd. destruct l as [|i l]; [done|]. cbn [head upd_opt dll].
  inversion_clear Hnd as [|? ? Hi Hnd'].
  intros (H1 & H2 & H3). rewrite upd_eq. split_all.
  by apply dll_upd_pv.
Qed.

Lemma dll_head_pv nx pv p i l q : dll nx pv p (i :: l) q -> pv i = p.
Proof. by intros [? _]. Qed.
Lemma dll_head_nx nx pv p i l q : dll nx pv p (i :: l) q -> nx i = hd_or l q.
Proof. by intros (_ & ? & _). Qed.

Lemma dll_lookup nx pv p l1 i l2 q :
  dll nx pv p (l1 ++ i :: l2) q -> pv i = last_or l1 p /\ nx i = hd_or l2 q.
Proof. rewrite dll_app. intros [_ (H1 & H2 & _)]. done. Qed.

(** Taking node [i] out of the middle: its neighbours are joined. *)
Lemma dll_unlink nx pv p l1 i l2 q :
  NoDup (l1 ++ i :: l2) ->
  dll nx pv p (l1 ++ i :: l2) q ->
  dll (upd_opt nx (last l1) (hd_or l2 q)) (upd_opt pv (head l2) (last_or l1 p))
      p (l1 ++ l2) q.
Proof.
  intros Hnd. rewrite !dll_app. cbn [dll].
  apply NoDup_app in Hnd as (Hnd1 & Hdis & Hnd2).
  inversion_clear Hnd2 as [|? ? Hi Hnd2'].
  intros [H1 (_ & _ & H2)]. split.
  - eapply dll_ext; [|by apply (dll_set_next _ _ _ _ _ (hd_or l2 q) Hnd1 H1)].
    intros j Hj. split; [done|].
    destruct l2 as [|k l2]; [done|]. cbn. apply upd_ne. intros ->.
    apply (Hdis k Hj). right. by left.
  - eapply dll_ext; [|by apply (dll_set_prev _ _ _ (last_or l1 p) _ _ Hnd2' H2)].
    intros j Hj. split; [|done].
    destruct (last l1) as [k|] eqn:E; [|done]. cbn. apply upd_ne. intros ->.
    apply (Hdis k); [|by right]. apply last_Some in E as [l' ->].
    apply elem_of_app. right. by left.
Qed.

(** Putting a node in front. *)
Lemma dll_push nx pv i l q p :
  NoDup (i :: l) ->
  dll nx pv p l q ->
  dll (upd nx i (hd_or l q)) (upd (upd_opt pv (head l) (Some i)) i p) p (i :: l) q.
Proof.
  intros Hnd H. inversion_clear Hnd as [|? ? Hi Hnd'].
  cbn [dll]. rewrite !upd_eq. split_all.
  apply dll_upd_nx; [done|]. apply dll_upd_pv; [done|].
  by eapply dll_set_prev.
Qed.
End Dll.
