(* ===== verification/BlockDev.v ===== *)
(** The interface between the block cache and the storage drivers below it:
    the two uncached accessors [disk_read_raw] and [disk_write_raw] of
    [emu/ffs/diskio.c] as a class, and the contract the cache relies on as a
    second class.  [Disk.v] gives the instance the program uses. *)

From S2P Require Import Prelude.

(** [DRESULT] of [emu/ffs/diskio.h]. *)
Inductive DRESULT := RES_OK | RES_ERROR | RES_WRPRT | RES_NOTRDY | RES_PARERR.

#[export] Instance DRESULT_eq_dec : EqDecision DRESULT.
Proof. solve_decision. Defined.

Definition SECTOR_SZ : nat := 512.

(** A state type [D] of block devices.  [disk_read_raw pdrv addr buff sector
    count] is given the part of memory the transfer may write, at address
    [addr], and answers with its result, that memory afterwards and the next
    state; [disk_write_raw pdrv buff sector count] is given the bytes to write. *)
Class BlockDevice (D : Type) := {
  disk_read_raw : Z -> Z -> list Z -> Z -> Z -> D -> DRESULT * list Z * D;
  disk_write_raw : Z -> list Z -> Z -> Z -> D -> DRESULT * D
}.

(** The sectors the 32-bit drivers can address, in a transfer whose bytes fit
    the 32-bit address space. *)
Definition in_range (sector count : Z) : Prop :=
  0 <= sector /\ 0 <= count < 2 ^ 23 /\ sector + count <= 2 ^ 32.

(** The contract: a state has a content per drive and sector; a read that
    reports success stores exactly that content and no read changes it; a
    successful write replaces exactly the sectors it names and a failed one
    touches no other sector. *)
Class BlockDeviceLaws (D : Type) `{BlockDevice D} := {
  content : D -> Z -> Z -> list Z;
  content_len : forall d p s, length (content d p s) = SECTOR_SZ;
  read_pres : forall p a buf s n d r bs d',
    disk_read_raw p a buf s n d = (r, bs, d') -> content d' = content d;
  read_len : forall p a buf s n d r bs d',
    in_range s n -> length buf = (Z.to_nat n * SECTOR_SZ)%nat ->
    disk_read_raw p a buf s n d = (r, bs, d') -> length bs = length buf;
  read_ok : forall p a buf s n d bs d',
    in_range s n -> length buf = (Z.to_nat n * SECTOR_SZ)%nat ->
    disk_read_raw p a buf s n d = (RES_OK, bs, d') ->
    bs = pieces (fun i => content d p (s + Z.of_nat i)) (Z.to_nat n);
  write_ok : forall p bs s n d d',
    in_range s n -> length bs = (Z.to_nat n * SECTOR_SZ)%nat ->
    disk_write_raw p bs s n d = (RES_OK, d') ->
    forall q t, content d' q t =
      if decide (q = p /\ s <= t < s + n)
      then slice (Z.to_nat (t - s) * SECTOR_SZ) SECTOR_SZ bs else content d q t;
  write_frame : forall p bs s n d r d',
    in_range s n ->
    disk_write_raw p bs s n d = (r, d') ->
    forall q t, ~ (q = p /\ s <= t < s + n) -> content d' q t = content d q t
}.

(** The bytes of [n] sectors from [s]. *)
Definition range_bytes {D} `{BlockDeviceLaws D} (d : D) (p s : Z) (n : nat) : list Z :=
  pieces (fun i => content d p (s + Z.of_nat i)) n.

Section Range.
Context {D} `{BlockDeviceLaws D}.
Implicit Types d : D.

Lemma length_range d p s n : length (range_bytes d p s n) = (n * SECTOR_SZ)%nat.
Proof. apply length_pieces. intros. apply content_len. Qed.

Lemma range_ext d d' p s n :
  (forall t, s <= t < s + Z.of_nat n -> content d' p t = content d p t) ->
  range_bytes d' p s n = range_bytes d p s n.
Proof. intros Hc. apply pieces_ext. intros. apply Hc. lia. Qed.

Lemma range_add d p s n m :
  range_bytes d p s (n + m) = range_bytes d p s n ++ range_bytes d p (s + Z.of_nat n) m.
Proof.
  unfold range_bytes. rewrite pieces_add. f_equal. apply pieces_ext.
  intros. f_equal. lia.
Qed.

Lemma slice_range d p s o n m :
  (o + n <= m)%nat ->
  slice (o * SECTOR_SZ) (n * SECTOR_SZ) (range_bytes d p s m)
  = range_bytes d p (s + Z.of_nat o) n.
Proof.
  intros. unfold range_bytes. rewrite slice_pieces; [|by intros; apply content_len|done].
  apply pieces_ext. intros. f_equal. lia.
Qed.
End Range.
