(* ===== verification/RamDisk.v ===== *)
(** A drive held in memory: the concrete device at which theorems about an
    arbitrary block device are evaluated.  It is writable or, like the IPL's
    drivers, refuses every write. *)

From S2P Require Import Prelude BlockDev.

(** The writes it has seen, last first, over a drive whose every byte is the
    number of its sector. *)
Record ramdisk := mk_ramdisk {
  rd_writes : list (Z * Z * Z * list Z);
  rd_readonly : bool
}.

(** A sector is 512 bytes whatever the store holds. *)
Definition sector_norm (l : list Z) : list Z := take SECTOR_SZ (l ++ replicate SECTOR_SZ 0).

Lemma length_sector_norm l : length (sector_norm l) = SECTOR_SZ.
Proof. unfold sector_norm. len. Qed.

Lemma sector_norm_id l : length l = SECTOR_SZ -> sector_norm l = l.
Proof. intros H. unfold sector_norm. by apply take_app_length'. Qed.

Fixpoint rd_lookup (ws : list (Z * Z * Z * list Z)) (q t : Z) : list Z :=
  match ws with
  | [] => replicate SECTOR_SZ (u8 t)
  | (p, s, n, bs) :: ws =>
      if decide (q = p /\ s <= t < s + n)
      then slice (Z.to_nat (t - s) * SECTOR_SZ) SECTOR_SZ bs else rd_lookup ws q t
  end.

Definition rd_content (d : ramdisk) (p s : Z) : list Z :=
  sector_norm (rd_lookup (rd_writes d) p s).

#[export] Instance ramdisk_device : BlockDevice ramdisk := {
  disk_read_raw p _ _ s n d :=
    (RES_OK, pieces (fun i => rd_content d p (s + Z.of_nat i)) (Z.to_nat n), d);
  disk_write_raw p bs s n d :=
    if rd_readonly d then (RES_ERROR, d)
    else (RES_OK, mk_ramdisk ((p, s, n, bs) :: rd_writes d) false)
}.

#[export, refine] Instance ramdisk_laws : BlockDeviceLaws ramdisk := {
  content := rd_content
}.
Proof.
  - intros. apply length_sector_norm.
  - intros p a buf s n d r bs d' E. by injection E as <- <- <-.
  - intros p a buf s n d r bs d' _ Hl E. injection E as <- <- <-. rewrite Hl.
    apply length_pieces. intros. apply length_sector_norm.
  - intros p a buf s n d bs d' _ _ E. by injection E as <- <-.
  - intros p bs s n d d' Hr Hl E q t. cbn in E. destruct (rd_readonly d); [done|].
    injection E as <-. unfold rd_content. cbn [rd_writes rd_lookup]. case_decide; [|done].
    apply sector_norm_id, length_slice. rewrite Hl. unfold in_range in Hr. nia.
  - intros p bs s n d r d' Hr E q t Ho. cbn in E. destruct (rd_readonly d).
    + by injection E as <- <-.
    + injection E as <- <-. unfold rd_content. cbn [rd_writes rd_lookup].
      by rewrite decide_False.
Qed.

(** The drive as it comes. *)
Definition numbered (ro : bool) : ramdisk := mk_ramdisk [] ro.
