(* ===== verification/DvmCache.v ===== *)
(** The LRU block cache between FatFs and the storage drivers,
    [cubeboot/source/emu/ffs/dvm_cache.c].

    The page table is the C array [dvm_entries] with its two link fields (a
    pointer to an entry is its index), the page memory is the flat byte array
    [dvm_cache_data], and every function of the file is a definition over the
    record of the file's static variables. *)

From S2P Require Import Prelude Dll BlockDev.

(** ** Constants *)

Definition DVM_SECTOR_SZ : nat := 512.
Definition DVM_PAGE_SHIFT : Z := 2.
Definition DVM_PAGE_SECTORS : Z := Z.shiftl 1 DVM_PAGE_SHIFT.
Definition DVM_PAGE_SZ : nat := Z.to_nat DVM_PAGE_SECTORS * DVM_SECTOR_SZ.
Definition DVM_BUFFER_ALIGN : Z := 32.
(** [~(LBA_t)0]; FatFs is built with 64-bit LBAs ([FF_LBA64] is 1). *)
Definition DVM_EMPTY_PAGE : Z := 2 ^ 64 - 1.
Definition DVM_MAGIC : Z := 0x44564D31.

(** ** State *)

Record dvm_cache_entry := mk_entry {
  next : option nat;
  prev : option nat;
  base_sector : Z
}.

Record dvm_state := mk_dvm {
  dvm_magic : Z;                       (* in the wiped region, with the pages *)
  dvm_cache_data : list Z;
  dvm_entries : list dvm_cache_entry;
  dvm_list_next : option nat;          (* most recently used *)
  dvm_list_prev : option nat;          (* least recently used *)
  dvm_owner_pdrv : Z;
  dvm_ready : bool;
  dvm_disabled : bool
}.

Definition set_next (v : option nat) (e : dvm_cache_entry) :=
  mk_entry v (prev e) (base_sector e).
Definition set_prev (v : option nat) (e : dvm_cache_entry) :=
  mk_entry (next e) v (base_sector e).
Definition set_base (v : Z) (e : dvm_cache_entry) := mk_entry (next e) (prev e) v.

Definition with_entries (es : list dvm_cache_entry) (c : dvm_state) :=
  mk_dvm (dvm_magic c) (dvm_cache_data c) es (dvm_list_next c) (dvm_list_prev c)
         (dvm_owner_pdrv c) (dvm_ready c) (dvm_disabled c).
Definition with_data (bs : list Z) (c : dvm_state) :=
  mk_dvm (dvm_magic c) bs (dvm_entries c) (dvm_list_next c) (dvm_list_prev c)
         (dvm_owner_pdrv c) (dvm_ready c) (dvm_disabled c).
Definition with_list (n p : option nat) (c : dvm_state) :=
  mk_dvm (dvm_magic c) (dvm_cache_data c) (dvm_entries c) n p
         (dvm_owner_pdrv c) (dvm_ready c) (dvm_disabled c).
Definition with_owner (p : Z) (c : dvm_state) :=
  mk_dvm (dvm_magic c) (dvm_cache_data c) (dvm_entries c) (dvm_list_next c)
         (dvm_list_prev c) p (dvm_ready c) (dvm_disabled c).

(** A store through an entry pointer. *)
Definition at_entry (i : nat) (f : dvm_cache_entry -> dvm_cache_entry) (c : dvm_state) :=
  with_entries (alter f i (dvm_entries c)) c.
Definition at_entry_opt (i : option nat) (f : dvm_cache_entry -> dvm_cache_entry)
    (c : dvm_state) :=
  match i with Some i => at_entry i f c | None => c end.
(** Loads through an entry pointer. *)
Definition base_of (c : dvm_state) (i : nat) : Z :=
  match dvm_entries c !! i with Some e => base_sector e | None => DVM_EMPTY_PAGE end.
Definition next_of (c : dvm_state) (i : nat) : option nat :=
  match dvm_entries c !! i with Some e => next e | None => None end.
Definition prev_of (c : dvm_state) (i : nat) : option nat :=
  match dvm_entries c !! i with Some e => prev e | None => None end.

(** ** Operations *)

(** Everything but the page table is fixed by the page count, a compile-time
    constant of the two builds (192 in the IPL, 32 in cubeboot.dol). *)
Section Ops.
Context (DVM_CACHE_PAGES : nat).

Definition reset_entry (i : nat) : dvm_cache_entry :=
  mk_entry (if decide (i + 1 < DVM_CACHE_PAGES)%nat then Some (i + 1)%nat else None)
           (if decide (i = 0)%nat then None else Some (i - 1)%nat)
           DVM_EMPTY_PAGE.

Definition dvm_cache_reset (c : dvm_state) : dvm_state :=
  mk_dvm DVM_MAGIC (dvm_cache_data c) (reset_entry <$> seq 0 DVM_CACHE_PAGES)
         (Some 0%nat) (Some (DVM_CACHE_PAGES - 1)%nat)
         (dvm_owner_pdrv c) true (dvm_disabled c).

Definition dvm_cache_invalidate (c : dvm_state) : dvm_state := dvm_cache_reset c.

Definition dvm_cache_disable (c : dvm_state) : dvm_state :=
  mk_dvm (dvm_magic c) (dvm_cache_data c) (dvm_entries c) (dvm_list_next c)
         (dvm_list_prev c) (dvm_owner_pdrv c) false true.

Definition dvm_cache_enable (c : dvm_state) : dvm_state :=
  mk_dvm (dvm_magic c) (dvm_cache_data c) (dvm_entries c) (dvm_list_next c)
         (dvm_list_prev c) (dvm_owner_pdrv c) false false.

Definition dvm_cache_claim (pdrv : Z) (c : dvm_state) : dvm_state :=
  if negb (dvm_magic c =? DVM_MAGIC) || negb (dvm_ready c)
     || negb (pdrv =? dvm_owner_pdrv c)
  then with_owner pdrv (dvm_cache_reset c)
  else c.

(** Offset of an entry's page in [dvm_cache_data]; the array is 32-byte aligned,
    so for its alignment it also stands for the page's address. *)
Definition dvm_entry_data (i : nat) : nat := i * DVM_PAGE_SZ.

Definition dvm_is_aligned (ptr : Z) : bool := Z.land ptr (DVM_BUFFER_ALIGN - 1) =? 0.

(** The walk of [dvm_cache_search]; the list has at most as many nodes as the
    table, which is the fuel of the caller. *)
Fixpoint search_loop (fuel : nat) (c : dvm_state) (page_sector : Z)
    (p : option nat) (min_sec : Z) (ret : option nat) : option nat :=
  match fuel, p with
  | S fuel, Some i =>
      let b := base_of c i in
      if b =? DVM_EMPTY_PAGE then ret
      else if b =? page_sector then Some i
      else if (b >? page_sector) && (b <? min_sec)
      then search_loop fuel c page_sector (next_of c i) b (Some i)
      else search_loop fuel c page_sector (next_of c i) min_sec ret
  | _, _ => ret
  end.

Definition dvm_cache_search (page_sector : Z) (c : dvm_state) : option nat :=
  search_loop (length (dvm_entries c)) c page_sector (dvm_list_next c)
              DVM_EMPTY_PAGE None.

Definition dvm_cache_promote (p : nat) (c : dvm_state) : dvm_state :=
  if decide (Some p = dvm_list_next c) then c
  else
    let nx := next_of c p in
    let pv := prev_of c p in
    let c := at_entry_opt pv (set_next nx) c in
    let c := match nx with
             | Some _ => at_entry_opt nx (set_prev pv) c
             | None => with_list (dvm_list_next c) pv c
             end in
    let hd := dvm_list_next c in
    let c := at_entry p (set_next hd) c in
    let c := at_entry_opt hd (set_prev (Some p)) c in
    let c := at_entry p (set_prev None) c in
    with_list (Some p) (dvm_list_prev c) c.

Fixpoint evict_loop (fuel : nat) (c : dvm_state) (p : nat) : nat :=
  match fuel with
  | O => p
  | S fuel =>
      if base_of c p =? DVM_EMPTY_PAGE then
        match prev_of c p with
        | Some q => if base_of c q =? DVM_EMPTY_PAGE then evict_loop fuel c q else p
        | None => p
        end
      else p
  end.

Definition dvm_cache_evict (c : dvm_state) : option nat :=
  match dvm_list_prev c with
  | Some p => Some (evict_loop (length (dvm_entries c)) c p)
  | None => None
  end.

(** [dvm_cache_access].  The caller's buffer is its address and its bytes;
    [done] is how far the [buffer] pointer has advanced.  The loop returns
    [None] only when its fuel runs out. *)
Section Access.
Context {D : Type} `{BlockDevice D}.
Context (pdrv orig_buffer orig_first orig_count : Z) (is_write is_aligned is_partial : bool).

Definition access_result : Type := option (DRESULT * list Z * dvm_state * D).
(** The rest of the loop: cache, device, buffer, [done], [first_sector],
    [num_sectors], [p] and [search_base]. *)
Definition access_rest : Type :=
  dvm_state -> D -> list Z -> nat -> Z -> Z -> option nat -> Z -> access_result.

(** Cache hit on entry [i], which holds the page of [first_sector]. *)
Definition access_hit (rest : access_rest) (i : nat) (cur_page_offset cur_sectors : Z)
    (c : dvm_state) (d : D) (buf : list Z) (done : nat) (first_sector num_sectors : Z)
    (p : option nat) (search_base : Z) : access_result :=
  let is_whole := (cur_page_offset =? 0) && (cur_sectors =? DVM_PAGE_SECTORS) in
  let data := (dvm_entry_data i + Z.to_nat cur_page_offset * DVM_SECTOR_SZ)%nat in
  let len := (Z.to_nat cur_sectors * DVM_SECTOR_SZ)%nat in
  let next c d buf :=
    rest (if negb is_whole then dvm_cache_promote i c else c) d buf (done + len)%nat
      (u64 (first_sector + cur_sectors)) (u32 (num_sectors - cur_sectors))
      p search_base in
  if is_write then
    let src := slice done len buf in
    let c := with_data (splice data src (dvm_cache_data c)) c in
    let '(r, d) := disk_write_raw pdrv src first_sector cur_sectors d in
    if decide (r = RES_OK) then next c d buf else Some (RES_ERROR, buf, c, d)
  else next c d (splice done (slice data len (dvm_cache_data c)) buf).

(** Miss on a read worth caching: fill a page and restart the iteration. *)
Definition access_fill (rest : access_rest) (cur_page_sector : Z)
    (c : dvm_state) (d : D) (buf : list Z) (done : nat) (first_sector num_sectors : Z)
    : access_result :=
  match dvm_cache_evict c with
  | None => None
  | Some i =>
      let c := at_entry i (set_base cur_page_sector) c in
      let page := slice (dvm_entry_data i) DVM_PAGE_SZ (dvm_cache_data c) in
      let '(r, bs, d) := disk_read_raw pdrv (Z.of_nat (dvm_entry_data i)) page
                           cur_page_sector DVM_PAGE_SECTORS d in
      let c := with_data (splice (dvm_entry_data i) bs (dvm_cache_data c)) c in
      if decide (r = RES_OK) then
        rest (dvm_cache_promote i c) d buf done first_sector num_sectors (Some i)
          (u64 (cur_page_sector + 1))
      else
        let c := at_entry i (set_base DVM_EMPTY_PAGE) c in
        let '(r, bs, d) := disk_read_raw pdrv orig_buffer
          (slice 0 (Z.to_nat orig_count * DVM_SECTOR_SZ) buf) orig_first orig_count d in
        Some (r, splice 0 bs buf, c, d)
  end.

(** How far the direct path may go before the next cached page. *)
Definition direct_len (c : dvm_state) (p : option nat) (first_sector num_sectors : Z) : Z :=
  let max_cur_sectors := match p with
                         | Some i => u32 (base_of c i - first_sector)
                         | None => num_sectors
                         end in
  if num_sectors <? max_cur_sectors then num_sectors else max_cur_sectors.

(** Straight through to the device. *)
Definition access_direct (rest : access_rest)
    (c : dvm_state) (d : D) (buf : list Z) (done : nat) (first_sector num_sectors : Z)
    (p : option nat) (search_base : Z) : access_result :=
  let cur_sectors := direct_len c p first_sector num_sectors in
  let len := (Z.to_nat cur_sectors * DVM_SECTOR_SZ)%nat in
  let '(r, buf, d) :=
    if is_write then
      let '(r, d) := disk_write_raw pdrv (slice done len buf) first_sector
                       cur_sectors d in (r, buf, d)
    else
      let '(r, bs, d) := disk_read_raw pdrv (orig_buffer + Z.of_nat done)
                           (slice done len buf) first_sector cur_sectors d in
      (r, splice done bs buf, d) in
  if decide (r = RES_OK) then
    rest c d buf (done + len)%nat (u64 (first_sector + cur_sectors))
      (u32 (num_sectors - cur_sectors)) p search_base
  else Some (r, buf, c, d).

(** The search at the top of an iteration, skipped while the last answer
    still holds. *)
Definition access_search (c : dvm_state) (cur_page_sector : Z) (p : option nat)
    (search_base : Z) : option nat * Z :=
  if cur_page_sector >=? search_base then
    let p := dvm_cache_search cur_page_sector c in
    (p, match p with
        | Some i => u64 (base_of c i + 1)
        | None => DVM_EMPTY_PAGE
        end)
  else (p, search_base).

Definition hit_entry (c : dvm_state) (p : option nat) (cur_page_sector : Z) : option nat :=
  match p with
  | Some i => if base_of c i =? cur_page_sector then Some i else None
  | None => None
  end.

Fixpoint access_loop (fuel : nat) (c : dvm_state) (d : D) (buf : list Z)
    (done : nat) (first_sector num_sectors : Z) (p : option nat) (search_base : Z)
    : access_result :=
  match fuel with
  | O => None
  | S fuel =>
      if num_sectors =? 0 then Some (RES_OK, buf, c, d) else
      let cur_page_sector := Z.land first_sector (u64 (Z.lnot (DVM_PAGE_SECTORS - 1))) in
      let cur_page_offset := Z.land first_sector (DVM_PAGE_SECTORS - 1) in
      let max_cur_sectors := u32 (DVM_PAGE_SECTORS - cur_page_offset) in
      let cur_sectors := if num_sectors <? max_cur_sectors then num_sectors
                         else max_cur_sectors in
      let '(p, search_base) := access_search c cur_page_sector p search_base in
      match hit_entry c p cur_page_sector with
      | Some i =>
          access_hit (access_loop fuel) i cur_page_offset cur_sectors
            c d buf done first_sector num_sectors p search_base
      | None =>
          if negb is_write && (is_partial || negb is_aligned) then
            access_fill (access_loop fuel) cur_page_sector
              c d buf done first_sector num_sectors
          else
            access_direct (access_loop fuel) c d buf done first_sector num_sectors
              p search_base
      end
  end.
End Access.

(** Each page of the request costs at most two iterations (a fill, then the
    hit that serves it), and a page serves at least one sector. *)
Definition access_fuel (num_sectors : Z) : nat := S (2 * Z.to_nat num_sectors).

Definition dvm_cache_access {D} `{BlockDevice D} (pdrv buf_addr : Z) (buf : list Z)
    (first_sector num_sectors : Z) (is_write : bool) (c : dvm_state) (d : D) :=
  access_loop pdrv buf_addr first_sector num_sectors is_write (dvm_is_aligned buf_addr)
    (num_sectors <? DVM_PAGE_SECTORS) (access_fuel num_sectors)
    c d buf 0%nat first_sector num_sectors None 0.

Definition dvm_cache_read {D} `{BlockDevice D} (pdrv buf_addr : Z) (buf : list Z)
    (sector count : Z) (c : dvm_state) (d : D)
    : option (DRESULT * list Z * dvm_state * D) :=
  if count =? 0 then Some (RES_OK, buf, c, d)
  else if dvm_disabled c then
    let '(r, bs, d) := disk_read_raw pdrv buf_addr
                         (slice 0 (Z.to_nat count * DVM_SECTOR_SZ) buf) sector count d in
    Some (r, splice 0 bs buf, c, d)
  else
    dvm_cache_access pdrv buf_addr buf sector count false (dvm_cache_claim pdrv c) d.

Definition dvm_cache_write {D} `{BlockDevice D} (pdrv buf_addr : Z) (buf : list Z)
    (sector count : Z) (c : dvm_state) (d : D)
    : option (DRESULT * list Z * dvm_state * D) :=
  if count =? 0 then Some (RES_OK, buf, c, d)
  else if dvm_disabled c then
    let '(r, d) := disk_write_raw pdrv (slice 0 (Z.to_nat count * DVM_SECTOR_SZ) buf)
                     sector count d in
    Some (r, buf, c, d)
  else
    dvm_cache_access pdrv buf_addr buf sector count true (dvm_cache_claim pdrv c) d.
End Ops.
