(* ===== verification/DvmCacheFacts.v ===== *)
(** Invariants of the block cache and the lemmas that carry its theorems: the
    recency list is a well-formed doubly linked list, the search returns the
    hit or the nearest cached page above, promotion and eviction act on the
    recency order as LRU prescribes. *)

From S2P Require Import Prelude Dll BlockDev DvmCache.

(** ** Stores through entry pointers *)

Lemma lookup_at i f c j :
  dvm_entries (at_entry i f c) !! j =
    if decide (j = i) then f <$> dvm_entries c !! i else dvm_entries c !! j.
Proof.
  cbn. case_decide as E; [subst; apply list_lookup_alter_eq|by apply list_lookup_alter_ne].
Qed.

Lemma length_at i f c : length (dvm_entries (at_entry i f c)) = length (dvm_entries c).
Proof. apply length_alter. Qed.

Ltac at_entry_cases :=
  intros; unfold next_of, prev_of, base_of; rewrite lookup_at; case_decide; subst; [|done];
  match goal with
  | H : (?i < length _)%nat |- _ => apply lookup_lt_is_Some_2 in H as [? ->]; done
  | |- _ => destruct (_ !! _); done
  end.

Lemma next_of_set_prev i v c j : next_of (at_entry i (set_prev v) c) j = next_of c j.
Proof. at_entry_cases. Qed.
Lemma next_of_set_base i v c j : next_of (at_entry i (set_base v) c) j = next_of c j.
Proof. at_entry_cases. Qed.
Lemma prev_of_set_next i v c j : prev_of (at_entry i (set_next v) c) j = prev_of c j.
Proof. at_entry_cases. Qed.
Lemma prev_of_set_base i v c j : prev_of (at_entry i (set_base v) c) j = prev_of c j.
Proof. at_entry_cases. Qed.
Lemma base_of_set_next i v c j : base_of (at_entry i (set_next v) c) j = base_of c j.
Proof. at_entry_cases. Qed.
Lemma base_of_set_prev i v c j : base_of (at_entry i (set_prev v) c) j = base_of c j.
Proof. at_entry_cases. Qed.

Lemma next_of_set i v c j :
  (i < length (dvm_entries c))%nat ->
  next_of (at_entry i (set_next v) c) j = if decide (j = i) then v else next_of c j.
Proof. at_entry_cases. Qed.
Lemma prev_of_set i v c j :
  (i < length (dvm_entries c))%nat ->
  prev_of (at_entry i (set_prev v) c) j = if decide (j = i) then v else prev_of c j.
Proof. at_entry_cases. Qed.
Lemma base_of_set i v c j :
  (i < length (dvm_entries c))%nat ->
  base_of (at_entry i (set_base v) c) j = if decide (j = i) then v else base_of c j.
Proof. at_entry_cases. Qed.

Lemma next_of_with_list n p c j : next_of (with_list n p c) j = next_of c j.
Proof. done. Qed.
Lemma prev_of_with_list n p c j : prev_of (with_list n p c) j = prev_of c j.
Proof. done. Qed.
Lemma base_of_with_list n p c j : base_of (with_list n p c) j = base_of c j.
Proof. done. Qed.
Lemma length_with_list n p c :
  length (dvm_entries (with_list n p c)) = length (dvm_entries c).
Proof. done. Qed.

Lemma list_prev_at_opt i f c : dvm_list_prev (at_entry_opt i f c) = dvm_list_prev c.
Proof. by destruct i. Qed.

Create Rewrite HintDb links.
#[export] Hint Rewrite next_of_set_prev next_of_set_base prev_of_set_next prev_of_set_base
  base_of_set_next base_of_set_prev next_of_with_list prev_of_with_list base_of_with_list
  length_at length_with_list : links.
#[export] Hint Rewrite next_of_set prev_of_set base_of_set
  using (autorewrite with links; lia) : links.

(** ** The recency list *)

Section Facts.
Context (N : nat).
Hypothesis HN : (0 < N)%nat.

(** [l] is the order in which the list visits the whole table. *)
Record order_ok (c : dvm_state) (l : list nat) : Prop := {
  ord_dll : dll (next_of c) (prev_of c) None l None;
  ord_head : dvm_list_next c = hd_or l None;
  ord_tail : dvm_list_prev c = last_or l None;
  ord_perm : l ≡ₚ seq 0 N;
  ord_len : length (dvm_entries c) = N
}.

Lemma order_NoDup c l : order_ok c l -> NoDup l.
Proof. intros H. rewrite (ord_perm _ _ H). apply NoDup_seq. Qed.

Lemma order_length c l : order_ok c l -> length l = N.
Proof. intros H. rewrite (ord_perm _ _ H). apply length_seq. Qed.

Lemma order_in c l i : order_ok c l -> i ∈ l <-> (i < N)%nat.
Proof.
  intros H. rewrite (ord_perm _ _ H), elem_of_seq. lia.
Qed.

Lemma order_lt c l i : order_ok c l -> i ∈ l -> (i < length (dvm_entries c))%nat.
Proof. intros H Hi. rewrite (ord_len _ _ H). by apply (order_in _ _ _ H). Qed.

(** A state with the same links has the same order. *)
Lemma order_ext c c' l :
  (forall i, next_of c' i = next_of c i) -> (forall i, prev_of c' i = prev_of c i) ->
  dvm_list_next c' = dvm_list_next c -> dvm_list_prev c' = dvm_list_prev c ->
  length (dvm_entries c') = length (dvm_entries c) ->
  order_ok c l -> order_ok c' l.
Proof.
  intros Hn Hp Hh Ht Hl [? ? ? ? ?]. split; try congruence.
  eapply dll_ext; [|eassumption]. auto.
Qed.

Lemma order_set_base c l i v : order_ok c l -> order_ok (at_entry i (set_base v) c) l.
Proof.
  apply order_ext; intros; autorewrite with links; done.
Qed.

Lemma order_with_data c l bs : order_ok c l -> order_ok (with_data bs c) l.
Proof. by apply order_ext. Qed.

(** Everything but the links is untouched by a promotion. *)
Lemma promote_frame i c :
  (forall j, base_of (dvm_cache_promote i c) j = base_of c j)
  /\ dvm_cache_data (dvm_cache_promote i c) = dvm_cache_data c
  /\ dvm_magic (dvm_cache_promote i c) = dvm_magic c
  /\ dvm_owner_pdrv (dvm_cache_promote i c) = dvm_owner_pdrv c
  /\ dvm_ready (dvm_cache_promote i c) = dvm_ready c
  /\ dvm_disabled (dvm_cache_promote i c) = dvm_disabled c
  /\ length (dvm_entries (dvm_cache_promote i c)) = length (dvm_entries c).
Proof.
  unfold dvm_cache_promote. case_decide; [done|].
  destruct (next_of c i), (prev_of c i); cbn [at_entry_opt];
    (match goal with |- context [at_entry_opt ?h] => destruct h end); cbn [at_entry_opt];
    autorewrite with links; split_all; intros; autorewrite with links; done.
Qed.

Lemma promote_order i c l1 l2 :
  order_ok c (l1 ++ i :: l2) -> order_ok (dvm_cache_promote i c) (i :: l1 ++ l2).
Proof.
  intros H. pose proof (order_NoDup _ _ H) as Hnd.
  pose proof (promote_frame i c) as (_ & _ & _ & _ & _ & _ & Hlen).
  assert (Hlt : forall k, k ∈ l1 ++ i :: l2 -> (k < length (dvm_entries c))%nat)
    by (intros k; apply (order_lt _ _ _ H)).
  destruct H as [Hd Hh Ht Hp Hl].
  destruct (dll_lookup _ _ _ _ _ _ _ Hd) as [Hpv Hnx].
  assert (Hperm : i :: l1 ++ l2 ≡ₚ seq 0 N) by (rewrite <- Hp; by rewrite Permutation_middle).
  destruct l1 as [|h l1].
  { cbn in *. unfold dvm_cache_promote in *. rewrite Hh in *. cbn in *.
    rewrite decide_True in * by done. by split. }
  assert (Hih : i <> h).
  { intros ->. apply NoDup_app in Hnd as (_ & Hx & _). apply (Hx h); by left. }
  pose proof (dll_unlink _ _ _ _ _ _ _ Hnd Hd) as Hu.
  assert (Hnd' : NoDup (i :: (h :: l1) ++ l2)) by (rewrite Hperm; apply NoDup_seq).
  pose proof (dll_push _ _ i _ _ _ Hnd' Hu) as Hf. clear Hu.
  destruct (last (h :: l1)) as [a|] eqn:Ea; [|by apply last_None in Ea].
  assert (Ha : a ∈ (h :: l1) ++ i :: l2).
  { apply last_Some in Ea as [? ->]. set_solver. }
  assert (Hpva : prev_of c i = Some a) by (rewrite Hpv; unfold last_or; by rewrite Ea).
  assert (Htail : last_or ((h :: l1) ++ i :: l2) None
                  = match hd_or l2 None with Some _ => last_or ((h :: l1) ++ l2) None
                    | None => Some i end).
  { destruct l2; [by unfold last_or; rewrite last_snoc|]. by rewrite !last_or_app. }
  assert (Htl2 : hd_or l2 None = None -> last_or ((h :: l1) ++ l2) None = Some a).
  { intros E. destruct l2; [|done]. rewrite app_nil_r. unfold last_or. by rewrite Ea. }
  unfold dvm_cache_promote in *. rewrite Hh in *. cbn [hd_or app] in *.
  rewrite decide_False in * by congruence.
  rewrite Hpva, Hnx in *.
  split; [| | |by rewrite <- Hperm|congruence].
  - eapply dll_ext; [|exact Hf]. intros k Hk.
    assert (Hhl : (h < length (dvm_entries c))%nat) by (apply Hlt; set_solver).
    assert (Hil : (i < length (dvm_entries c))%nat) by (apply Hlt; set_solver).
    assert (Hal : (a < length (dvm_entries c))%nat) by (by apply Hlt).
    assert (Hbl : forall b, hd_or l2 None = Some b -> (b < length (dvm_entries c))%nat).
    { intros b Hb. apply Hlt. destruct l2; [done|]. injection Hb as ->. set_solver. }
    assert (Hhd : list.head l2 = hd_or l2 None) by (by destruct l2).
    unfold last_or in Hf |- *. rewrite Ea. rewrite Hhd. cbn [at_entry_opt list.head].
    destruct (hd_or l2 None) as [b|]; cbn [at_entry_opt upd_opt dvm_list_next with_list
      at_entry with_entries]; rewrite ?Hh; cbn [hd_or at_entry_opt].
    + specialize (Hbl b eq_refl).
      autorewrite with links. unfold upd. repeat case_decide; simplify_eq; auto.
    + autorewrite with links. unfold upd. repeat case_decide; simplify_eq; auto.
  - done.
  - rewrite Htail in Ht. rewrite last_or_cons.
    assert (E : last_or ((h :: l1) ++ l2) (Some i) = last_or ((h :: l1) ++ l2) None).
    { by rewrite <- app_comm_cons, !last_or_cons. }
    cbn [app] in E, Htl2, Ht |- *. rewrite E. destruct (hd_or l2 None); cbn [at_entry_opt dvm_list_prev with_list];
      change (dvm_list_prev (at_entry ?x ?y ?z)) with (dvm_list_prev z);
      rewrite list_prev_at_opt; [done|]. symmetry. by apply Htl2.
Qed.

(** ** The page table *)

Definition live (c : dvm_state) (i : nat) : Prop := base_of c i <> DVM_EMPTY_PAGE.

(** A page-aligned sector number of the 32-bit drivers. *)
Definition is_page (b : Z) : Prop :=
  0 <= b /\ b + DVM_PAGE_SECTORS <= 2 ^ 32 /\ b mod DVM_PAGE_SECTORS = 0.

(** The used entries come first in the recency order, hold distinct pages,
    and the page memory has its full size. *)
Record table_ok (c : dvm_state) (l1 l2 : list nat) : Prop := {
  tb_order : order_ok c (l1 ++ l2);
  tb_live : Forall (live c) l1;
  tb_dead : Forall (fun i => ~ live c i) l2;
  tb_page : forall i, live c i -> is_page (base_of c i);
  tb_inj : forall i j, live c i -> base_of c i = base_of c j -> i = j;
  tb_data : length (dvm_cache_data c) = (N * DVM_PAGE_SZ)%nat
}.

Lemma live_lt c l1 l2 i : table_ok c l1 l2 -> live c i -> (i < N)%nat.
Proof.
  intros H Hi. rewrite <- (ord_len _ _ (tb_order _ _ _ H)).
  destruct (decide (i < length (dvm_entries c))%nat); [done|].
  exfalso. apply Hi. unfold base_of. by rewrite lookup_ge_None_2 by lia.
Qed.

Lemma live_in c l1 l2 i : table_ok c l1 l2 -> live c i -> i ∈ l1.
Proof.
  intros H Hi. pose proof (live_lt _ _ _ _ H Hi) as Hlt.
  apply (order_in _ _ _ (tb_order _ _ _ H)) in Hlt. apply elem_of_app in Hlt as [?|Hin]; [done|].
  pose proof (tb_dead _ _ _ H) as Hd. rewrite Forall_forall in Hd. by apply Hd in Hin.
Qed.

Lemma live_iff c l1 l2 i : table_ok c l1 l2 -> live c i <-> i ∈ l1.
Proof.
  intros H. split; [by apply (live_in _ _ _ _ H)|].
  pose proof (tb_live _ _ _ H) as Hl. rewrite Forall_forall in Hl. apply Hl.
Qed.

Instance live_dec c i : Decision (live c i).
Proof. unfold live. solve_decision. Defined.

(** ** Search *)

(** What the search promises: a hit, or the nearest cached page above. *)
Definition search_ok (c : dvm_state) (page : Z) (p : option nat) : Prop :=
  match p with
  | Some i => live c i /\ page <= base_of c i
              /\ (forall j, live c j -> page <= base_of c j -> base_of c i <= base_of c j)
  | None => forall j, live c j -> base_of c j < page
  end.

Lemma search_loop_spec c page l1 l2 q fuel min ret :
  dll (next_of c) (prev_of c) q (l1 ++ l2) None ->
  Forall (live c) l1 -> Forall (fun i => ~ live c i) l2 -> (length l1 <= fuel)%nat ->
  let r := search_loop fuel c page (hd_or (l1 ++ l2) None) min ret in
  (exists i, i ∈ l1 /\ base_of c i = page /\ r = Some i)
  \/ ((forall i, i ∈ l1 -> base_of c i <> page)
      /\ exists m, m <= min /\ (forall i, i ∈ l1 -> page < base_of c i -> m <= base_of c i)
          /\ ((r = ret /\ m = min)
              \/ exists i, i ∈ l1 /\ r = Some i /\ base_of c i = m /\ page < m)).
Proof.
  revert q fuel min ret. induction l1 as [|i l1 IH]; intros q fuel min ret Hd Hl1 Hl2 Hf r.
  { right. split; [set_solver|]. exists min. split_all; [set_solver|]. left. split; [|done].
    subst r. destruct fuel, l2 as [|x l2]; cbn; try done.
    inversion_clear Hl2 as [|? ? Hx _]. apply dec_stable in Hx. rewrite Hx.
    by rewrite Z.eqb_refl. }
  destruct fuel as [|fuel]; [cbn in Hf; lia|].
  cbn [length] in Hf. inversion_clear Hl1 as [|? ? Hi Hl1'].
  cbn [dll app] in Hd. destruct Hd as (_ & Hnx & Hd).
  subst r. cbn [search_loop app hd_or]. rewrite Hnx.
  destruct (Z.eqb_spec (base_of c i) DVM_EMPTY_PAGE) as [E|_]; [done|].
  destruct (Z.eqb_spec (base_of c i) page) as [E|Hne].
  { left. exists i. split_all. by left. }
  assert (Hf' : (length l1 <= fuel)%nat) by lia.
  destruct (base_of c i >? page) eqn:E1; [destruct (base_of c i <? min) eqn:E2|];
    cbn [andb].
  1: destruct (IH _ fuel (base_of c i) (Some i) Hd Hl1' Hl2 Hf')
      as [(j & Hj & Hb & Hr)|(Hno & m & Hm & Hall & Hcase)].
  3: destruct (IH _ fuel min ret Hd Hl1' Hl2 Hf')
      as [(j & Hj & Hb & Hr)|(Hno & m & Hm & Hall & Hcase)].
  5: destruct (IH _ fuel min ret Hd Hl1' Hl2 Hf')
      as [(j & Hj & Hb & Hr)|(Hno & m & Hm & Hall & Hcase)].
  1, 3, 5: left; exists j; split_all; by right.
  all: right; split; [intros k Hk; apply elem_of_cons in Hk as [->|Hk]; auto|];
    exists m; split; [lia|];
    split; [intros k Hk Hpk; apply elem_of_cons in Hk as [->|Hk]; [lia|by apply Hall]|].
  - right. destruct Hcase as [(-> & ->)|(j & Hj & -> & Hb & Hlt)].
    + exists i. split_all. by left.
    + exists j. split_all. by right.
  - destruct Hcase as [?|(j & Hj & ? & ? & ?)]; [by left|]. right. exists j. split_all. by right.
  - destruct Hcase as [?|(j & Hj & ? & ? & ?)]; [by left|]. right. exists j. split_all. by right.
Qed.

Lemma search_spec c l1 l2 page :
  table_ok c l1 l2 -> search_ok c page (dvm_cache_search page c).
Proof.
  intros H. unfold dvm_cache_search.
  destruct (tb_order _ _ _ H) as [Hd Hh _ _ Hlen].
  rewrite Hh, Hlen.
  pose proof (order_length _ _ (tb_order _ _ _ H)) as HL. rewrite length_app in HL.
  destruct (search_loop_spec c page l1 l2 None N DVM_EMPTY_PAGE None Hd (tb_live _ _ _ H)
    (tb_dead _ _ _ H) ltac:(lia))
    as [(i & Hi & Hb & ->)|(Hno & m & Hm & Hall & [(-> & ->)|(i & Hi & -> & Hb & Hlt)])];
    cbn [search_ok].
  - apply (live_iff _ _ _ _ H) in Hi. split_all.
  - intros j Hj. pose proof (tb_page _ _ _ H j Hj) as (_ & Hp & _).
    apply (live_iff _ _ _ _ H) in Hj.
    destruct (Z.lt_trichotomy (base_of c j) page) as [?|[E|Hgt]]; [done|by apply Hno in E|].
    apply Hall in Hgt; [|done].
    assert (HE : DVM_EMPTY_PAGE = 2 ^ 64 - 1) by done. assert (HP : DVM_PAGE_SECTORS = 4) by done. lia.
  - apply (live_iff _ _ _ _ H) in Hi. split_all.
    intros j Hj Hpj. apply (live_iff _ _ _ _ H) in Hj. specialize (Hno j Hj).
    specialize (Hall j Hj). lia.
Qed.

(** ** Eviction *)

Lemma evict_loop_spec c l1 m p r fuel :
  dll (next_of c) (prev_of c) None (l1 ++ m ++ p :: r) None ->
  Forall (live c) l1 -> Forall (fun i => ~ live c i) (m ++ [p]) -> (length m <= fuel)%nat ->
  evict_loop fuel c p = match m with [] => p | q :: _ => q end.
Proof.
  revert p r fuel. induction m as [|q m IH] using rev_ind; intros p r fuel Hd Hl1 Hm Hf.
  - destruct fuel; cbn; [done|].
    destruct (dll_lookup _ _ _ _ _ _ _ Hd) as [-> _].
    case_match; [|done]. unfold last_or. destruct (last l1) as [a|] eqn:Ea; [|done].
    apply last_Some in Ea as [l' ->]. apply Forall_app in Hl1 as [_ Ha].
    inversion_clear Ha as [|? ? Ha' _]. unfold live in Ha'.
    by destruct (Z.eqb_spec (base_of c a) DVM_EMPTY_PAGE).
  - rewrite length_app in Hf. cbn in Hf. destruct fuel as [|fuel]; [lia|].
    rewrite <- app_assoc in Hd. cbn in Hd.
    pose proof Hd as Hd'. rewrite app_assoc in Hd'.
    rewrite <- app_assoc in Hm. apply Forall_app in Hm as [Hm Hqp].
    inversion_clear Hqp as [|? ? Hq Hp]. inversion_clear Hp as [|? ? Hp' _].
    apply dec_stable in Hq, Hp'.
    change (q :: p :: r) with ([q] ++ p :: r) in Hd'. rewrite app_assoc in Hd'.
    destruct (dll_lookup _ _ _ _ _ _ _ Hd') as [Hpv _].
    cbn [evict_loop]. rewrite Hp', Z.eqb_refl, Hpv. unfold last_or. rewrite last_snoc, Hq, Z.eqb_refl.
    rewrite (IH q (p :: r) fuel); [by destruct m|done|done| |lia].
    apply Forall_app. split; [done|]. constructor; [|done]. intros Hl. by apply Hl.
Qed.

Lemma evict_spec c l1 l2 :
  table_ok c l1 l2 ->
  exists i k1 k2, dvm_cache_evict c = Some i /\ l1 ++ l2 = k1 ++ i :: k2
    /\ Forall (live c) k1 /\ Forall (fun i => ~ live c i) k2 /\ (live c i -> k2 = [])
    /\ (live c i -> l2 = []) /\ (~ live c i -> k1 = l1).
Proof.
  intros H. destruct (tb_order _ _ _ H) as [Hd _ Ht Hp Hlen].
  pose proof (order_length _ _ (tb_order _ _ _ H)) as HL. rewrite length_app in HL.
  pose proof (tb_live _ _ _ H) as Hl. pose proof (tb_dead _ _ _ H) as Hdd.
  unfold dvm_cache_evict. rewrite Ht, Hlen, last_or_app.
  destruct l2 as [|x l2 _] using rev_ind.
  - destruct l1 as [|i l1 _] using rev_ind; [cbn in HL; lia|].
    unfold last_or. cbn. rewrite last_snoc.
    exists i, l1, []. rewrite app_nil_r. apply Forall_app in Hl as [Hl1 Hi].
    inversion_clear Hi as [|? ? Hi' _].
    split_all; try (by intros). f_equal. destruct N; [done|]. cbn.
    unfold live in Hi'. by destruct (Z.eqb_spec (base_of c i) DVM_EMPTY_PAGE).
  - unfold last_or at 1. rewrite last_snoc.
    rewrite length_app in HL. cbn in HL.
    rewrite (evict_loop_spec c l1 l2 x [] N); [|by rewrite app_assoc in *|done|done|lia].
    destruct l2 as [|q l2].
    + exists x, l1, []. inversion_clear Hdd. split_all; try (by intros).
    + inversion_clear Hdd. exists q, l1, (l2 ++ [x]). split_all; try (by intros).
Qed.

(** ** Reset *)

Lemma reset_base c i : base_of (dvm_cache_reset N c) i = DVM_EMPTY_PAGE.
Proof.
  unfold base_of, dvm_cache_reset; cbn. rewrite list_lookup_fmap.
  destruct (seq 0 N !! i); done.
Qed.

Lemma reset_table c :
  length (dvm_cache_data c) = (N * DVM_PAGE_SZ)%nat ->
  table_ok (dvm_cache_reset N c) [] (seq 0 N).
Proof.
  intros Hdata. split; [split| | | | |]; try done.
  - cbn [app]. unfold dll.
    assert (Hg : forall n a, (a + n = N)%nat ->
      dll (next_of (dvm_cache_reset N c)) (prev_of (dvm_cache_reset N c))
        (if decide (a = 0)%nat then None else Some (a - 1)%nat) (seq a n) None).
    { induction n as [|n IH]; intros a Ha; [done|]. cbn [seq dll].
      assert (Ea : dvm_entries (dvm_cache_reset N c) !! a = Some (reset_entry N a)).
      { cbn. rewrite list_lookup_fmap, lookup_seq_lt by lia. done. }
      unfold next_of at 1, prev_of at 1. rewrite Ea. cbn [prev next reset_entry]. split_all.
      - case_decide; destruct n; cbn; try done; try lia. f_equal. lia.
      - specialize (IH (S a) ltac:(lia)). rewrite decide_False in IH by lia.
        replace (S a - 1)%nat with a in IH by lia. done. }
    apply (Hg N 0%nat). lia.
  - cbn. destruct N; [lia|done].
  - cbn. destruct N as [|n]; [lia|]. rewrite seq_S. unfold last_or. cbn [app].
    rewrite last_snoc. f_equal. lia.
  - cbn. by rewrite length_fmap, length_seq.
  - apply Forall_forall. intros i _ Hi. apply Hi, reset_base.
  - intros i Hi. by rewrite reset_base in Hi || destruct (Hi (reset_base c i)).
  - intros i j Hi. by destruct (Hi (reset_base c i)).
Qed.
End Facts.
