(* ===== verification/DvmCacheThms.v ===== *)
(** The theorems of the block cache: reads through it are reads of the device,
    successful writes are writes of the device that leave every cached page
    coherent, and its replacement policy is LRU. *)

From S2P Require Import Prelude Dll BlockDev DvmCache DvmCacheFacts.

(** ** Page arithmetic *)

Lemma page_sectors_4 : DVM_PAGE_SECTORS = 4.
Proof. done. Qed.
Lemma page_sz_4 : DVM_PAGE_SZ = (4 * SECTOR_SZ)%nat.
Proof. done. Qed.
Lemma empty_page_val : DVM_EMPTY_PAGE = 2 ^ 64 - 1.
Proof. done. Qed.

Definition page_of (s : Z) : Z := s - s mod 4.

Lemma page_mask s :
  0 <= s < 2 ^ 64 -> Z.land s (u64 (Z.lnot (DVM_PAGE_SECTORS - 1))) = page_of s.
Proof.
  intros Hs. rewrite page_sectors_4. unfold u64, page_of.
  rewrite <- (Z.land_ones (Z.lnot (4 - 1)) 64), (Z.land_comm (Z.lnot _)), Z.land_assoc by lia.
  rewrite Z.land_ones, Z.mod_small by lia.
  change (Z.lnot (4 - 1)) with (Z.lnot (Z.ones 2)). rewrite <- Z.ldiff_land, Z.ldiff_ones_r by lia.
  rewrite Z.shiftr_div_pow2, Z.shiftl_mul_pow2 by lia. change (2 ^ 2) with 4. zdm.
Qed.

Lemma page_offset s : Z.land s (DVM_PAGE_SECTORS - 1) = s mod 4.
Proof. rewrite page_sectors_4. change (4 - 1) with (Z.ones 2). by rewrite Z.land_ones by lia. Qed.

(** ** Coherence *)

Section Thms.
Context (N : nat) (HN : (0 < N)%nat).
Context {D : Type} `{BlockDeviceLaws D}.
Implicit Types (c : dvm_state) (d : D).

Definition coherent c d : Prop :=
  forall i, live c i ->
    slice (dvm_entry_data i) DVM_PAGE_SZ (dvm_cache_data c)
    = range_bytes d (dvm_owner_pdrv c) (base_of c i) 4.

(** A table the cache trusts. *)
Definition valid c : Prop := dvm_magic c = DVM_MAGIC /\ dvm_ready c = true.

Definition good c d (pdrv : Z) : Prop :=
  (exists l1 l2, table_ok N c l1 l2) /\ coherent c d /\ valid c
  /\ dvm_owner_pdrv c = pdrv /\ dvm_disabled c = false.

(** The invariant of the static state between two calls. *)
Record cache_inv c d : Prop := {
  ci_data : length (dvm_cache_data c) = (N * DVM_PAGE_SZ)%nat;
  ci_table : valid c -> exists l1 l2, table_ok N c l1 l2;
  ci_coherent : valid c -> coherent c d;
  ci_disabled : dvm_disabled c = true -> dvm_ready c = true -> exists l2, table_ok N c [] l2
}.

Lemma good_inv c d p : good c d p -> cache_inv c d.
Proof.
  intros ((l1 & l2 & Ht) & Hc & Hv & Ho & Hd). split; eauto using tb_data.
  congruence.
Qed.

Lemma coherent_content c d d' : content d' = content d -> coherent c d -> coherent c d'.
Proof.
  intros E Hc i Hi. rewrite (Hc i Hi). apply range_ext. by rewrite E.
Qed.

Lemma good_content c d d' p : content d' = content d -> good c d p -> good c d' p.
Proof. intros E (? & ? & ? & ? & ?). unfold good. split_all. by eapply coherent_content. Qed.

Lemma claim_good c d p :
  cache_inv c d -> dvm_disabled c = false -> good (dvm_cache_claim N p c) d p.
Proof.
  intros Hi Hd. unfold dvm_cache_claim, good.
  destruct (Z.eqb_spec (dvm_magic c) DVM_MAGIC) as [E1|]; cbn [negb orb].
  1: destruct (dvm_ready c) eqn:E2; cbn [negb orb].
  1: destruct (Z.eqb_spec p (dvm_owner_pdrv c)) as [->|]; cbn [negb].
  1: { split_all; [by apply (ci_table _ _ Hi)|by apply (ci_coherent _ _ Hi)|done]. }
  all: split_all; [|intros i Hl; by destruct (Hl (reset_base N c i))|done].
  all: exists [], (seq 0 N);
    destruct (reset_table N HN c (ci_data _ _ Hi)) as [[? ? ? ? ?] ? ? ? ? ?];
    split; [by split|..]; done.
Qed.

(** ** The state changes of one iteration *)

Lemma promote_table c i k1 k2 l2 :
  table_ok N c (k1 ++ i :: k2) l2 ->
  table_ok N (dvm_cache_promote i c) (i :: k1 ++ k2) l2.
Proof.
  intros [Hord Hl Hdd Hp Hinj Hdt].
  destruct (promote_frame i c) as (Eb & Ed & _).
  assert (Hlive : forall j, live (dvm_cache_promote i c) j <-> live c j).
  { intros j. unfold live. by rewrite Eb. }
  split.
  - rewrite <- app_assoc in Hord. cbn in Hord |- *. rewrite <- app_assoc. by apply promote_order.
  - apply (Forall_iff (live c)); [done|].
    apply Forall_app in Hl as [Hl1 Hl2]. inversion_clear Hl2.
    constructor; [done|]. by apply Forall_app.
  - eapply Forall_impl; [done|]. intros j Hj. by rewrite Hlive.
  - intros j Hj. rewrite Eb. by apply Hp, Hlive.
  - intros j k Hj. rewrite !Eb. by apply Hinj, Hlive.
  - by rewrite Ed.
Qed.

Lemma promote_good c d p i : good c d p -> live c i -> good (dvm_cache_promote i c) d p.
Proof.
  intros ((l1 & l2 & Ht) & Hc & Hv & Ho & Hd) Hi.
  destruct (promote_frame i c) as (Eb & Ed & Em & Eo & Er & Edis & _).
  unfold good, valid. rewrite Em, Er, Eo, Edis. repeat (split; [|done]).
  assert (Hin : i ∈ l1) by (by eapply live_in).
  apply list_elem_of_split in Hin as (k1 & k2 & ->). split.
  - exists (i :: k1 ++ k2), l2. by apply promote_table.
  - split; [|done]. intros j Hj. rewrite Ed, Eo, Eb. apply Hc. unfold live. by rewrite <- Eb.
Qed.

Lemma page_disjoint (i j : nat) new (data : list Z) :
  i <> j -> (i < N)%nat -> (j < N)%nat -> (length new <= DVM_PAGE_SZ)%nat ->
  length data = (N * DVM_PAGE_SZ)%nat ->
  slice (dvm_entry_data j) DVM_PAGE_SZ (splice (dvm_entry_data i) new data)
  = slice (dvm_entry_data j) DVM_PAGE_SZ data.
Proof.
  intros Hij Hi Hj Hn Hl. unfold dvm_entry_data.
  destruct (decide (i < j)%nat); [apply slice_splice_gt|apply slice_splice_lt];
    rewrite ?Hl; nia.
Qed.
(** [looked c p sb cur]: the loop's remembered search result [p] still answers
    every page from [cur] up to its bound [sb]. *)
Definition looked c (p : option nat) (sb cur : Z) : Prop :=
  forall pg, cur <= pg < sb -> search_ok c pg p.

Lemma search_ok_ext c c' pg p :
  (forall j, base_of c' j = base_of c j) -> search_ok c pg p -> search_ok c' pg p.
Proof.
  intros E. destruct p as [i|]; cbn; unfold live.
  - rewrite E. intros (? & ? & Hm). split_all. intros j. rewrite E. apply Hm.
  - intros Hm j. rewrite E. apply Hm.
Qed.

Lemma looked_ext c c' p sb cur cur' :
  (forall j, base_of c' j = base_of c j) -> cur <= cur' ->
  looked c p sb cur -> looked c' p sb cur'.
Proof. intros E Hle Hl pg Hpg. eapply search_ok_ext; [done|]. apply Hl. lia. Qed.

(** The re-search at the top of an iteration. *)
Lemma looked_search c l1 l2 p sb cur :
  table_ok N c l1 l2 -> looked c p sb cur ->
  let '(p', sb') := access_search c cur p sb in
  looked c p' sb' cur /\ search_ok c cur p'.
Proof.
  intros Ht Hl. unfold access_search. bcase; [|split; [done|]; apply Hl; lia].
  pose proof (search_spec N HN c l1 l2 cur Ht) as Hs. split; [|done].
  destruct (dvm_cache_search cur c) as [i|]; intros pg Hpg; cbn in Hs |- *.
  - destruct Hs as (Hi & Hle & Hmin).
    destruct (tb_page _ _ _ _ Ht i Hi) as (Hb & Hb' & _). rewrite page_sectors_4 in Hb'.
    rewrite u64_small in Hpg by lia. split_all. intros. apply Hmin; [done|lia].
  - intros j Hj. specialize (Hs j Hj). lia.
Qed.

Lemma search_kept c cur p sb : cur < sb -> access_search c cur p sb = (p, sb).
Proof. intros. unfold access_search. bcase; [lia|done]. Qed.

Lemma hit_entry_Some c p cur i : hit_entry c p cur = Some i -> p = Some i /\ base_of c i = cur.
Proof.
  destruct p as [j|]; cbn; [|done]. destruct (Z.eqb_spec (base_of c j) cur); naive_solver.
Qed.

Lemma hit_entry_None c p cur : hit_entry c p cur = None ->
  forall i, p = Some i -> base_of c i <> cur.
Proof. intros H1 i ->. cbn in H1. by destruct (Z.eqb_spec (base_of c i) cur). Qed.

(** A miss is a miss: no cached page is the one asked for. *)
Lemma miss_new c p cur :
  search_ok c cur p -> (forall i, p = Some i -> base_of c i <> cur) ->
  forall j, live c j -> base_of c j <> cur.
Proof.
  intros Hso Hmiss j Hj E. destruct p as [i|]; cbn in Hso.
  - destruct Hso as (Hi & Hle & Hmin). specialize (Hmin j Hj).
    specialize (Hmiss i eq_refl). lia.
  - specialize (Hso j Hj). lia.
Qed.

(** Filling a page: an entry is renamed, its bytes replaced, and it moves to
    the front; a failed fill leaves the entry unused. *)
Section Fill.
Context c d (pdrv page : Z) (l1 l2 : list nat) (i : nat) (k1 k2 : list nat).
Hypothesis Ht : table_ok N c l1 l2.
Hypothesis Hsplit : l1 ++ l2 = k1 ++ i :: k2.

Lemma fill_order v : order_ok N (at_entry i (set_base v) c) (k1 ++ i :: k2).
Proof. rewrite <- Hsplit. apply order_set_base, (tb_order _ _ _ _ Ht). Qed.

Lemma fill_lt : (i < length (dvm_entries c))%nat.
Proof.
  eapply order_lt; [done|by apply (tb_order _ _ _ _ Ht)|]. rewrite Hsplit. set_solver.
Qed.

Lemma fill_notin : i ∉ k1 /\ i ∉ k2.
Proof.
  pose proof (tb_order _ _ _ _ Ht) as Hnd. apply order_NoDup in Hnd. rewrite Hsplit in Hnd.
  apply NoDup_app in Hnd as (_ & Hd & Hnd2). inversion_clear Hnd2.
  split; [|done]. intros Hin. apply (Hd i Hin). by left.
Qed.

Lemma fill_live v j :
  live (at_entry i (set_base v) c) j <->
  (if decide (j = i) then v <> DVM_EMPTY_PAGE else live c j).
Proof.
  unfold live. rewrite base_of_set by apply fill_lt. by case_decide.
Qed.

Hypothesis Hk1 : Forall (live c) k1.
Hypothesis Hk2 : Forall (fun i => ~ live c i) k2.

Lemma fill_sides v :
  Forall (live (at_entry i (set_base v) c)) k1
  /\ Forall (fun i0 => ~ live (at_entry i (set_base v) c) i0) k2.
Proof.
  destruct fill_notin as [Hn1 Hn2]. rewrite !Forall_forall in *.
  split; intros j Hj; rewrite fill_live; rewrite decide_False by (by intros ->); auto.
Qed.

(** Any change of the page memory that spares the other live pages. *)
Lemma fill_fail data :
  length data = length (dvm_cache_data c) ->
  table_ok N (with_data data (at_entry i (set_base DVM_EMPTY_PAGE) c)) k1 (i :: k2).
Proof.
  intros Hlen. destruct (fill_sides DVM_EMPTY_PAGE) as [H1 H2]. split.
  - apply order_with_data, fill_order.
  - exact H1.
  - constructor; [|exact H2]. intros Hl. apply (fill_live _ i) in Hl.
    by rewrite decide_True in Hl.
  - intros j Hj. apply (fill_live _ j) in Hj. case_decide; [done|].
    change (is_page (base_of (at_entry i (set_base DVM_EMPTY_PAGE) c) j)).
    rewrite base_of_set, decide_False by (done || apply fill_lt). by apply (tb_page _ _ _ _ Ht).
  - intros j k Hj. change (base_of (at_entry i (set_base DVM_EMPTY_PAGE) c) j
      = base_of (at_entry i (set_base DVM_EMPTY_PAGE) c) k -> j = k).
    pose proof Hj as Hj'. apply (fill_live _ j) in Hj. case_decide; [done|].
    rewrite !base_of_set by apply fill_lt. rewrite decide_False by done.
    case_decide; [intros E; by destruct Hj|]. by apply (tb_inj _ _ _ _ Ht).
  - cbn. rewrite Hlen. apply (tb_data _ _ _ _ Ht).
Qed.

Lemma fill_ok data :
  length data = length (dvm_cache_data c) -> is_page page ->
  (forall j, live c j -> base_of c j <> page) ->
  table_ok N (with_data data (at_entry i (set_base page) c)) (k1 ++ [i]) k2.
Proof.
  intros Hlen Hpg Hnew. destruct (fill_sides page) as [H1 H2].
  assert (Hpe : page <> DVM_EMPTY_PAGE).
  { destruct Hpg as (? & Hp & _). rewrite page_sectors_4 in Hp. rewrite empty_page_val. lia. }
  split.
  - rewrite <- app_assoc. apply order_with_data, fill_order.
  - apply Forall_app. split; [exact H1|]. constructor; [|done].
    apply (fill_live _ i). by rewrite decide_True.
  - exact H2.
  - intros j Hj. apply (fill_live _ j) in Hj.
    change (is_page (base_of (at_entry i (set_base page) c) j)).
    rewrite base_of_set by apply fill_lt. case_decide; [done|]. by apply (tb_page _ _ _ _ Ht).
  - intros j k Hj. change (base_of (at_entry i (set_base page) c) j
      = base_of (at_entry i (set_base page) c) k -> j = k).
    apply (fill_live _ j) in Hj. rewrite !base_of_set by apply fill_lt.
    repeat case_decide; subst; try done.
    + intros E. exfalso. apply (Hnew k); [|done]. unfold live. congruence.
    + intros E. by destruct (Hnew j Hj).
    + by apply (tb_inj _ _ _ _ Ht).
  - cbn. rewrite Hlen. apply (tb_data _ _ _ _ Ht).
Qed.
End Fill.
Lemma set_base_twice i v w data c :
  at_entry i (set_base v) (with_data data (at_entry i (set_base w) c))
  = with_data data (at_entry i (set_base v) c).
Proof.
  unfold at_entry, with_data, with_entries; cbn. f_equal.
  by rewrite list_alter_alter_eq.
Qed.

Lemma page_of_bytes c d p i j data :
  good c d p -> live c j -> i <> j -> (i < N)%nat -> (length data <= DVM_PAGE_SZ)%nat ->
  slice (dvm_entry_data j) DVM_PAGE_SZ (splice (dvm_entry_data i) data (dvm_cache_data c))
  = range_bytes d p (base_of c j) 4.
Proof.
  intros ((l1 & l2 & Ht) & Hc & _ & Ho & _) Hj Hij Hi Hlen.
  rewrite page_disjoint; [rewrite <- Ho; by apply Hc|done|done| |done|by eapply tb_data].
  by eapply live_lt.
Qed.

Lemma fill_step c d p page :
  good c d p -> is_page page -> (forall j, live c j -> base_of c j <> page) ->
  exists i, dvm_cache_evict c = Some i /\ (i < N)%nat /\
    forall bs d', content d' = content d -> (length bs <= DVM_PAGE_SZ)%nat ->
      let c2 := with_data (splice (dvm_entry_data i) bs (dvm_cache_data c))
                  (at_entry i (set_base page) c) in
      (bs = range_bytes d p page 4 ->
         good (dvm_cache_promote i c2) d' p /\ base_of (dvm_cache_promote i c2) i = page)
      /\ good (at_entry i (set_base DVM_EMPTY_PAGE) c2) d' p.
Proof.
  intros Hg Hpage Hnew. pose proof Hg as ((l1 & l2 & Ht) & Hc & Hv & Ho & Hdis).
  destruct (evict_spec N HN c l1 l2 Ht) as (i & k1 & k2 & He & Hsp & Hk1 & Hk2 & _).
  exists i. assert (HiN : (i < N)%nat).
  { rewrite <- (ord_len _ _ _ (tb_order _ _ _ _ Ht)). by eapply fill_lt. }
  split; [done|]. split; [done|]. intros bs d' Ed Hlen c2.
  assert (Hfit : (dvm_entry_data i + length bs <= length (dvm_cache_data c))%nat).
  { rewrite (tb_data _ _ _ _ Ht). unfold dvm_entry_data. nia. }
  split.
  - intros ->.
    assert (Hb : forall j, base_of c2 j = if decide (j = i) then page else base_of c j).
    { intros j. apply (base_of_set i page c j). by eapply fill_lt. }
    assert (Hg2 : good c2 d' p).
    { unfold good. split; [|split; [|done]].
      - exists (k1 ++ [i]), k2. eapply fill_ok; eauto. by apply length_splice.
      - apply (coherent_content c2 d d' Ed).
        intros j Hj. unfold live in Hj. rewrite Hb in *.
        change (dvm_owner_pdrv c2) with (dvm_owner_pdrv c). rewrite Ho.
        unfold c2; cbn [dvm_cache_data with_data].
        case_decide; subst.
        + rewrite page_sz_4, <- (length_range d (dvm_owner_pdrv c) page 4).
          apply slice_splice_eq. lia.
        + apply page_of_bytes; done. }
    split.
    + apply promote_good; [done|]. unfold live. rewrite Hb, decide_True by done.
      destruct Hpage as (? & Hp & _). rewrite page_sectors_4 in Hp. rewrite empty_page_val. lia.
    + rewrite (proj1 (promote_frame i c2)), Hb. by rewrite decide_True.
  - unfold c2. rewrite set_base_twice. unfold good. split; [|split; [|done]].
    + exists k1, (i :: k2). eapply fill_fail; eauto. by apply length_splice.
    + intros j Hj. apply (fill_live c l1 l2 i k1 k2 Ht Hsp _ j) in Hj.
      case_decide; [done|].
      change (slice (dvm_entry_data j) DVM_PAGE_SZ
        (splice (dvm_entry_data i) bs (dvm_cache_data c))
        = range_bytes d' (dvm_owner_pdrv c)
            (base_of (at_entry i (set_base DVM_EMPTY_PAGE) c) j) 4).
      rewrite base_of_set, decide_False, Ho by (done || by eapply fill_lt).
      rewrite (page_of_bytes c d p) by done.
      symmetry. apply range_ext. by rewrite Ed.
Qed.
(** The part of a page a hit copies out. *)
Lemma hit_bytes c d p i (o m : nat) :
  good c d p -> live c i -> (o + m <= 4)%nat ->
  slice (dvm_entry_data i + o * SECTOR_SZ) (m * SECTOR_SZ) (dvm_cache_data c)
  = range_bytes d p (base_of c i + Z.of_nat o) m.
Proof.
  intros (_ & Hc & _ & Ho & _) Hi Hm.
  rewrite <- (slice_range d p (base_of c i) o m 4) by lia.
  rewrite <- Ho, <- (Hc i Hi), slice_slice; [done|]. rewrite page_sz_4. nia.
Qed.

Lemma maybe_promote_good (b : bool) c d p i :
  good c d p -> live c i ->
  good (if b then dvm_cache_promote i c else c) d p
  /\ forall j, base_of (if b then dvm_cache_promote i c else c) j = base_of c j.
Proof.
  intros. destruct b; [|done]. split; [by apply promote_good|].
  apply (proj1 (promote_frame i c)).
Qed.

Lemma page_of_spec s : page_of s <= s < page_of s + 4 /\ (page_of s) mod 4 = 0.
Proof. unfold page_of. split; zdm. Qed.

Lemma is_page_of s : 0 <= s < 2 ^ 32 -> is_page (page_of s).
Proof. intros. unfold is_page. rewrite page_sectors_4. unfold page_of. split_all; zdm. Qed.

Lemma page_mono s t : s <= t -> page_of s <= page_of t.
Proof. intros. unfold page_of. zdm. Qed.

(** A page at or above the current one that is not the current one starts
    strictly after every sector of it. *)
Lemma page_above s b : is_page b -> page_of s <= b -> b <> page_of s -> s < b.
Proof.
  intros (_ & _ & Hm) ? ?. rewrite page_sectors_4 in Hm.
  destruct (page_of_spec s) as [? Hs]. zdm.
Qed.

Lemma direct_len_spec c d pdrv p first num :
  good c d pdrv -> 0 <= first -> 0 < num -> first + num <= 2 ^ 32 ->
  search_ok c (page_of first) p ->
  (forall i, p = Some i -> base_of c i <> page_of first) ->
  0 < direct_len c p first num <= num
  /\ forall j, live c j -> base_of c j + 4 <= first
                         \/ first + direct_len c p first num <= base_of c j.
Proof.
  intros ((l1 & l2 & Ht) & _) H0f Hn Hr Hs Hmiss. unfold direct_len.
  destruct (page_of_spec first) as [Hpf Hm4].
  assert (Hbelow : forall j, live c j -> base_of c j < page_of first ->
                             base_of c j + 4 <= first).
  { intros j Hj Hlt. destruct (tb_page _ _ _ _ Ht j Hj) as (_ & _ & Hm).
    rewrite page_sectors_4 in Hm. zdm. }
  destruct p as [i|]; cbn in Hs.
  - destruct Hs as (Hi & Hle & Hmin). specialize (Hmiss i eq_refl).
    destruct (tb_page _ _ _ _ Ht i Hi) as (Hb & Hb' & Hbm). rewrite page_sectors_4 in *.
    assert (first < base_of c i) by (apply page_above; [by apply (tb_page _ _ _ _ Ht)|done|done]).
    rewrite u32_small by lia. bcase; (split; [lia|]); intros j Hj;
      destruct (Z.lt_ge_cases (base_of c j) (page_of first)); auto; right;
      specialize (Hmin j Hj); lia.
  - rewrite Z.ltb_irrefl. split; [lia|]. intros j Hj. left. auto.
Qed.
(** ** The loop on reads *)

(** The windows of memory the loop hands to the driver. *)
Lemma page_window c d p i :
  good c d p -> (i < N)%nat ->
  length (slice (dvm_entry_data i) DVM_PAGE_SZ (dvm_cache_data c))
  = (Z.to_nat 4 * SECTOR_SZ)%nat.
Proof.
  intros ((l1 & l2 & Ht) & _) Hi. rewrite length_slice; [done|].
  rewrite (tb_data _ _ _ _ Ht). unfold dvm_entry_data. nia.
Qed.

Lemma length_head_filled d p s k (buf : list Z) :
  (k * SECTOR_SZ <= length buf)%nat ->
  length (splice 0 (range_bytes d p s k) buf) = length buf.
Proof. intros. apply length_splice. by rewrite length_range. Qed.

Lemma range_head d p s (k m : nat) (buf : list Z) :
  ((k + m) * SECTOR_SZ <= length buf)%nat ->
  splice (k * SECTOR_SZ) (range_bytes d p (s + Z.of_nat k) m)
    (splice 0 (range_bytes d p s k) buf)
  = splice 0 (range_bytes d p s (k + m)) buf.
Proof.
  intros Hl. rewrite range_add.
  rewrite <- splice_splice_adj by (rewrite !length_range; lia).
  by rewrite length_range.
Qed.

(** Fuel left for [num] sectors when the loop stands at [first]: the next
    iteration may still have to fill a page, or the page is known cached. *)
Definition enough (fuel : nat) c (q : option nat) (sb first num : Z) : Prop :=
  2 * num < Z.of_nat fuel
  \/ (0 < num /\ 2 * num <= Z.of_nat fuel /\ page_of first < sb
      /\ exists i, q = Some i /\ base_of c i = page_of first).

(** The sectors an iteration serves from a page. *)
Definition page_part (first num : Z) : Z :=
  if num <? u32 (4 - first mod 4) then num else u32 (4 - first mod 4).

Lemma page_part_spec first num :
  0 < num -> 0 < page_part first num <= num /\ first mod 4 + page_part first num <= 4.
Proof. intros. unfold page_part. rewrite u32_small by zdm. bcase; zdm. Qed.

Lemma live_page page c i : is_page page -> base_of c i = page -> live c i.
Proof.
  intros (? & Hp & _) E. rewrite page_sectors_4 in Hp.
  unfold live. rewrite E, empty_page_val. lia.
Qed.

Definition reads_never_fail : Prop :=
  forall p a buf s m (d : D), fst (fst (disk_read_raw p a buf s m d)) = RES_OK.
Definition writes_never_fail : Prop :=
  forall p bs s m (d : D), fst (disk_write_raw p bs s m d) = RES_OK.

Lemma never_fail_read p a buf s m d r bs d' :
  reads_never_fail -> disk_read_raw p a buf s m d = (r, bs, d') -> r = RES_OK.
Proof. intros Hrel E. specialize (Hrel p a buf s m d). by rewrite E in Hrel. Qed.

Lemma never_fail_write p bs s m d r d' :
  writes_never_fail -> disk_write_raw p bs s m d = (r, d') -> r = RES_OK.
Proof. intros Hrel E. specialize (Hrel p bs s m d). by rewrite E in Hrel. Qed.

Section ReadLoop.
Context (p ob s0 : Z) (n : nat) (al pt : bool) (buf0 : list Z) (d0 : D).
Hypothesis Hr : in_range s0 (Z.of_nat n).
Hypothesis Hbuf : (n * SECTOR_SZ <= length buf0)%nat.

(** A read that ends leaves the device alone and the cache good, and on
    success the buffer holds the device's bytes. *)
Definition read_post (res : option (DRESULT * list Z * dvm_state * D)) : Prop :=
  exists r buf' c' d', res = Some (r, buf', c', d')
    /\ content d' = content d0 /\ good c' d' p
    /\ (r = RES_OK -> buf' = splice 0 (range_bytes d0 p s0 n) buf0)
    /\ (reads_never_fail -> r = RES_OK).

(** The state of the loop after [k] sectors, to be continued by [rest]. *)
Definition reading (rest : access_rest) c d (k : nat) q sb :=
  rest c d (splice 0 (range_bytes d0 p s0 k) buf0) (k * SECTOR_SZ)%nat
    (s0 + Z.of_nat k) (Z.of_nat n - Z.of_nat k) q sb.

Definition read_correct (fuel : nat) (rest : access_rest) : Prop :=
  forall c d k q sb,
    (k <= n)%nat -> content d = content d0 -> good c d p ->
    looked c q sb (page_of (s0 + Z.of_nat k)) ->
    enough fuel c q sb (s0 + Z.of_nat k) (Z.of_nat n - Z.of_nat k) ->
    read_post (reading rest c d k q sb).

Lemma range_now d s m : content d = content d0 -> range_bytes d p s m = range_bytes d0 p s m.
Proof. intros E. apply range_ext. by rewrite E. Qed.

(** Advancing by [m] sectors once their bytes are in the buffer. *)
Lemma read_advance fuel rest c d k q sb (m : Z) :
  read_correct fuel rest -> content d = content d0 -> good c d p ->
  looked c q sb (page_of (s0 + Z.of_nat k)) ->
  2 * (Z.of_nat n - Z.of_nat k) <= Z.of_nat (S fuel) ->
  0 < m <= Z.of_nat n - Z.of_nat k ->
  read_post (rest c d
    (splice (k * SECTOR_SZ) (range_bytes d0 p (s0 + Z.of_nat k) (Z.to_nat m))
      (splice 0 (range_bytes d0 p s0 k) buf0))
    (k * SECTOR_SZ + Z.to_nat m * DVM_SECTOR_SZ)%nat
    (u64 (s0 + Z.of_nat k + m)) (u32 (Z.of_nat n - Z.of_nat k - m)) q sb).
Proof.
  intros IH Ed Hg Hlk Hf Hm. destruct Hr as (Hs0 & Hnb & Hs1).
  rewrite u64_small, u32_small by lia. change DVM_SECTOR_SZ with SECTOR_SZ.
  rewrite range_head by nia. rewrite <- Nat.mul_add_distr_r.
  specialize (IH c d (k + Z.to_nat m)%nat q sb ltac:(lia) Ed Hg).
  unfold reading in IH.
  replace (s0 + Z.of_nat (k + Z.to_nat m)) with (s0 + Z.of_nat k + m) in IH by lia.
  replace (Z.of_nat n - Z.of_nat (k + Z.to_nat m))
    with (Z.of_nat n - Z.of_nat k - m) in IH by lia.
  apply IH; [|unfold enough; lia].
  eapply looked_ext; [done| |exact Hlk]. apply page_mono. lia.
Qed.

Section Step.
Context (fuel : nat) (rest : access_rest) (IH : read_correct fuel rest).
Context (c : dvm_state) (d : D) (k : nat) (q : option nat) (sb : Z).
Hypothesis Hk : (k < n)%nat.
Hypothesis Ed : content d = content d0.
Hypothesis Hg : good c d p.
Let first := s0 + Z.of_nat k.
Let num := Z.of_nat n - Z.of_nat k.
Let buf := splice 0 (range_bytes d0 p s0 k) buf0.
Hypothesis Hlk : looked c q sb (page_of first).
Hypothesis Hso : search_ok c (page_of first) q.

Lemma read_buf_len : length buf = length buf0.
Proof. apply length_head_filled. nia. Qed.

Lemma read_hit_step i :
  q = Some i -> base_of c i = page_of first -> 2 * num <= Z.of_nat (S fuel) ->
  read_post (access_hit p false rest i (first mod 4) (page_part first num)
               c d buf (k * SECTOR_SZ) first num q sb).
Proof.
  intros -> Hb Hf. destruct Hso as (Hli & _ & _).
  destruct (page_part_spec first num ltac:(lia)) as [Hm Hm4].
  assert (H4 : 0 <= first mod 4 < 4) by zdm.
  unfold access_hit. set (w := negb _).
  destruct (maybe_promote_good w c d p i Hg Hli) as [Hg2 Hb2].
  change (Z.to_nat (first mod 4) * DVM_SECTOR_SZ)%nat
    with (Z.to_nat (first mod 4) * SECTOR_SZ)%nat.
  change (slice (dvm_entry_data i + Z.to_nat (first mod 4) * SECTOR_SZ)
            (Z.to_nat (page_part first num) * DVM_SECTOR_SZ) (dvm_cache_data c))
    with (slice (dvm_entry_data i + Z.to_nat (first mod 4) * SECTOR_SZ)
            (Z.to_nat (page_part first num) * SECTOR_SZ) (dvm_cache_data c)).
  rewrite (hit_bytes c d p i) by (done || lia).
  rewrite Hb, Z2Nat.id by lia.
  replace (page_of first + first mod 4) with first by (unfold page_of; lia).
  rewrite range_now by done.
  eapply read_advance; eauto. eapply looked_ext; [exact Hb2| |exact Hlk]. done.
Qed.

Lemma read_fill_step :
  (forall i, q = Some i -> base_of c i <> page_of first) ->
  2 * num < Z.of_nat (S fuel) ->
  read_post (access_fill p ob s0 (Z.of_nat n) rest (page_of first)
               c d buf (k * SECTOR_SZ) first num).
Proof.
  intros Hmiss Hf. destruct Hr as (Hs0 & Hnb & Hs1).
  assert (Hpg : is_page (page_of first)) by (apply is_page_of; lia).
  destruct (fill_step c d p (page_of first) Hg Hpg (miss_new _ _ _ Hso Hmiss))
    as (i & He & HiN & Hfill).
  assert (Hin : in_range (page_of first) 4) by (destruct Hpg as (? & Hp & _);
    rewrite page_sectors_4 in Hp; by unfold in_range).
  unfold access_fill. rewrite He, page_sectors_4.
  destruct (disk_read_raw p _ _ (page_of first) 4 d) as [[r bs] d'] eqn:Erd.
  pose proof (read_pres _ _ _ _ _ _ _ _ _ Erd) as Ed'.
  pose proof (page_window c d p i Hg HiN) as Hpl.
  pose proof (read_len _ _ _ _ _ _ _ _ _ Hin Hpl Erd) as Hlen. rewrite Hpl in Hlen.
  destruct (Hfill bs d' Ed' ltac:(by rewrite Hlen, page_sz_4)) as [Hok Hko]. clear Hfill.
  case_decide as Er.
  - subst r. destruct (Hok (read_ok _ _ _ _ _ _ _ _ Hin Hpl Erd)) as [Hg2 Hb2].
    destruct Hpg as (Hp0 & Hp1 & _). rewrite page_sectors_4 in Hp1.
    rewrite u64_small by lia. apply IH; [lia|congruence|exact Hg2| |].
    + intros pg Hpg'. fold first in Hpg'. assert (pg = page_of first) as -> by lia. cbn. rewrite Hb2.
      split_all. apply (live_page (page_of first)); [apply is_page_of; lia|exact Hb2].
    + right. fold first num. split_all.
  - rewrite Nat2Z.id. destruct (disk_read_raw p ob _ s0 (Z.of_nat n) d') as [[r2 bs2] d2] eqn:Erd2.
    pose proof (read_pres _ _ _ _ _ _ _ _ _ Erd2) as Ed2.
    exists r2. do 2 eexists. exists d2. split; [reflexivity|].
    split; [congruence|]. split; [by eapply good_content|].
    split; [|intros Hrel; by eapply never_fail_read].
    intros ->. apply read_ok in Erd2; [|done|rewrite length_slice, Nat2Z.id; [done|];
      rewrite read_buf_len; exact Hbuf].
    change (bs2 = range_bytes d' p s0 (Z.to_nat (Z.of_nat n))) in Erd2.
    rewrite Nat2Z.id, range_now in Erd2 by congruence. subst bs2.
    apply splice_splice_cover; rewrite ?length_range; nia.
Qed.

Lemma read_direct_step :
  (forall i, q = Some i -> base_of c i <> page_of first) ->
  2 * num <= Z.of_nat (S fuel) ->
  read_post (access_direct p ob false rest c d buf (k * SECTOR_SZ) first num q sb).
Proof.
  intros Hmiss Hf. destruct Hr as (Hs0 & Hnb & Hs1).
  destruct (direct_len_spec c d p q first num Hg ltac:(lia) ltac:(lia) ltac:(lia)
    Hso Hmiss) as [Hdl _].
  unfold access_direct. set (m := direct_len c q first num) in *.
  destruct (disk_read_raw p _ _ first m d) as [[r bs] d'] eqn:Erd.
  pose proof (read_pres _ _ _ _ _ _ _ _ _ Erd) as Ed'.
  assert (Hg' : good c d' p) by (by eapply good_content).
  case_decide as Er.
  - subst r. apply read_ok in Erd; [|unfold in_range; lia|apply length_slice;
      change DVM_SECTOR_SZ with SECTOR_SZ; rewrite read_buf_len; nia].
    change (bs = range_bytes d p first (Z.to_nat m)) in Erd.
    rewrite range_now in Erd by done. rewrite Erd.
    eapply read_advance; eauto. congruence.
  - exists r. do 3 eexists. split; [reflexivity|]. split; [congruence|].
    split; [done|]. split; [by intros ->|].
    intros Hrel. by eapply never_fail_read.
Qed.
End Step.

Lemma read_loop fuel :
  read_correct fuel (access_loop p ob s0 (Z.of_nat n) false al pt fuel).
Proof.
  destruct Hr as (Hs0 & Hnb & Hs1).
  induction fuel as [|fuel IH]; intros c d k q sb Hk Ed Hg Hlk Hf.
  { exfalso. unfold enough in Hf. lia. }
  unfold reading. cbn [access_loop].
  destruct (Z.eqb_spec (Z.of_nat n - Z.of_nat k) 0) as [E0|Hn0].
  { assert (k = n) as -> by lia. exists RES_OK. eauto 9. }
  rewrite page_mask, !page_offset, !page_sectors_4 by lia.
  change (if Z.of_nat n - Z.of_nat k <? _ then _ else _)
    with (page_part (s0 + Z.of_nat k) (Z.of_nat n - Z.of_nat k)).
  pose proof Hg as ((l1 & l2 & Ht) & _).
  pose proof (looked_search c l1 l2 q sb _ Ht Hlk) as Hls.
  pose proof (search_kept c (page_of (s0 + Z.of_nat k)) q sb) as Hkept.
  destruct (access_search c (page_of (s0 + Z.of_nat k)) q sb) as [q' sb'].
  destruct Hls as [Hlk' Hso].
  destruct (hit_entry c q' (page_of (s0 + Z.of_nat k))) as [i|] eqn:Hhit.
  - apply hit_entry_Some in Hhit as [-> Hb]. apply read_hit_step with fuel; auto; [lia|].
    unfold enough in Hf; lia.
  - pose proof (hit_entry_None _ _ _ Hhit) as Hmiss.
    destruct Hf as [Hf|(_ & _ & Hlt & i & -> & E)];
      [|specialize (Hkept Hlt); simplify_eq; by destruct (Hmiss i eq_refl)].
    case_match; [apply read_fill_step with fuel q'|apply read_direct_step with fuel]; auto; lia.
Qed.
End ReadLoop.
(** ** The loop on writes *)

(** [d'] is [d] with the [n] sectors from [s] of drive [p] replaced by [src]. *)
Definition written d d' (p s : Z) (n : nat) (src : list Z) : Prop :=
  forall q t, content d' q t =
    if decide (q = p /\ s <= t < s + Z.of_nat n)
    then slice (Z.to_nat (t - s) * SECTOR_SZ) SECTOR_SZ src else content d q t.

Lemma pieces_slices (src : list Z) k n :
  pieces (fun i => slice (i * k) k src) n = slice 0 (n * k) src.
Proof.
  induction n as [|n IHn]; [done|]. rewrite pieces_S, IHn, Nat.mul_succ_l, slice_app. done.
Qed.

(** A write inside a run of sectors is a splice of their bytes. *)
Lemma range_written d d' p (s b : Z) (m n : nat) src :
  written d d' p s m src -> length src = (m * SECTOR_SZ)%nat ->
  b <= s -> s + Z.of_nat m <= b + Z.of_nat n ->
  range_bytes d' p b n = splice (Z.to_nat (s - b) * SECTOR_SZ) src (range_bytes d p b n).
Proof.
  intros Hw Hl Hb Hn. set (o := Z.to_nat (s - b)).
  replace n with (o + (m + (n - o - m)))%nat by lia.
  rewrite !range_add.
  assert (E1 : range_bytes d' p b o = range_bytes d p b o).
  { apply range_ext. intros t Ht. rewrite Hw. rewrite decide_False by lia. done. }
  assert (E2 : range_bytes d' p (b + Z.of_nat o) m = src).
  { rewrite <- (slice_all src) at 1. rewrite Hl, <- pieces_slices. apply pieces_ext.
    intros j Hj. rewrite Hw, decide_True by lia. f_equal. nia. }
  match goal with |- context [range_bytes d' p ?x (n - o - m)] => assert (E3 :
    range_bytes d' p x (n - o - m) = range_bytes d p x (n - o - m)) end.
  { apply range_ext. intros t Ht. rewrite Hw. rewrite decide_False by lia. done. }
  rewrite E1, E2, E3. unfold splice.
  rewrite take_app_length' by (rewrite length_range; done).
  rewrite drop_app_ge by (rewrite length_range; lia). rewrite length_range.
  rewrite drop_app_length' by (rewrite length_range; lia). done.
Qed.

Lemma range_unwritten d d' p (s b : Z) (m n : nat) src :
  written d d' p s m src -> b + Z.of_nat n <= s \/ s + Z.of_nat m <= b ->
  range_bytes d' p b n = range_bytes d p b n.
Proof.
  intros Hw Ho. apply range_ext. intros t Ht. rewrite Hw, decide_False by lia. done.
Qed.

(** The table without the promise on the page bytes. *)
Definition formed c (pdrv : Z) : Prop :=
  (exists l1 l2, table_ok N c l1 l2) /\ valid c
  /\ dvm_owner_pdrv c = pdrv /\ dvm_disabled c = false.

Lemma good_formed c d p : good c d p -> formed c p.
Proof. unfold good, formed. tauto. Qed.

Lemma with_data_table c data l1 l2 :
  length data = length (dvm_cache_data c) -> table_ok N c l1 l2 ->
  table_ok N (with_data data c) l1 l2.
Proof.
  intros Hl [? ? ? ? ? Hd]. split; try done; [by apply order_with_data|].
  cbn. by rewrite Hl.
Qed.

(** Writing through a cached page keeps the whole cache coherent. *)
Lemma write_page_good c d d' p i (o m : nat) src :
  good c d p -> live c i -> (o + m <= 4)%nat -> length src = (m * SECTOR_SZ)%nat ->
  written d d' p (base_of c i + Z.of_nat o) m src ->
  good (with_data (splice (dvm_entry_data i + o * SECTOR_SZ) src (dvm_cache_data c)) c) d' p.
Proof.
  intros Hg Hi Hom Hsrc Hw. pose proof Hg as ((l1 & l2 & Ht) & Hc & Hv & Ho & Hdis).
  assert (HiN : (i < N)%nat) by (by eapply live_lt).
  pose proof (tb_data _ _ _ _ Ht) as Hdl. rewrite page_sz_4 in Hdl.
  assert (Hfit : (dvm_entry_data i + 4 * SECTOR_SZ <= length (dvm_cache_data c))%nat).
  { rewrite Hdl. unfold dvm_entry_data. rewrite page_sz_4. nia. }
  unfold good. split; [|split; [|done]].
  { exists l1, l2. apply with_data_table; [|done]. apply length_splice. nia. }
  intros j Hj. change (live c j) in Hj. cbn [dvm_cache_data with_data dvm_owner_pdrv].
  change (base_of (with_data _ c) j) with (base_of c j). rewrite Ho.
  destruct (decide (i = j)) as [<-|Hij].
  - rewrite (range_written d d' p (base_of c i + Z.of_nat o) (base_of c i) m 4 src) by (done || lia).
    rewrite <- Ho, <- (Hc i Hi), page_sz_4.
    replace (Z.to_nat (base_of c i + Z.of_nat o - base_of c i)) with o by lia.
    apply slice_splice_inside; rewrite ?Hsrc; nia.
  - assert (Hdisj : base_of c i + 4 <= base_of c j \/ base_of c j + 4 <= base_of c i).
    { destruct (tb_page _ _ _ _ Ht i Hi) as (_ & _ & Mi).
      destruct (tb_page _ _ _ _ Ht j Hj) as (_ & _ & Mj). rewrite page_sectors_4 in *.
      assert (base_of c i <> base_of c j) by (intros E; apply Hij; by apply (tb_inj _ _ _ _ Ht)).
      zdm. }
    rewrite (range_unwritten d d' p _ _ _ _ _ Hw) by lia.
    rewrite <- Ho, <- (Hc j Hj). unfold dvm_entry_data in *. rewrite page_sz_4 in *.
    destruct (decide (i < j)%nat); [apply slice_splice_gt|apply slice_splice_lt]; nia.
Qed.
Section WriteLoop.
Context (p ob s0 : Z) (n : nat) (al pt : bool) (buf : list Z) (d0 : D).
Hypothesis Hr : in_range s0 (Z.of_nat n).
Hypothesis Hbuf : (n * SECTOR_SZ <= length buf)%nat.

(** A write that ends keeps the table well formed, leaves every sector
    outside the request alone, and on success has replaced the request's
    sectors and kept every cached page coherent. *)
Definition write_post (res : option (DRESULT * list Z * dvm_state * D)) : Prop :=
  exists r c' d', res = Some (r, buf, c', d')
    /\ formed c' p
    /\ (forall q t, ~ (q = p /\ s0 <= t < s0 + Z.of_nat n) -> content d' q t = content d0 q t)
    /\ (r = RES_OK -> written d0 d' p s0 n buf /\ good c' d' p)
    /\ (writes_never_fail -> r = RES_OK).

Definition write_correct (fuel : nat) (rest : access_rest) : Prop :=
  forall c d k q sb,
    (k <= n)%nat -> written d0 d p s0 k buf -> good c d p ->
    looked c q sb (page_of (s0 + Z.of_nat k)) -> (n - k < fuel)%nat ->
    write_post (rest c d buf (k * SECTOR_SZ)%nat (s0 + Z.of_nat k)
                  (Z.of_nat n - Z.of_nat k) q sb).

Lemma written_frame d k :
  (k <= n)%nat -> written d0 d p s0 k buf ->
  forall q t, ~ (q = p /\ s0 <= t < s0 + Z.of_nat n) -> content d q t = content d0 q t.
Proof. intros Hk Hw q t Ho. rewrite Hw, decide_False by lia. done. Qed.

Lemma written_more d d' (k m : nat) :
  (k + m <= n)%nat -> written d0 d p s0 k buf ->
  written d d' p (s0 + Z.of_nat k) m (slice (k * SECTOR_SZ) (m * SECTOR_SZ) buf) ->
  written d0 d' p s0 (k + m) buf.
Proof.
  intros Hk Hw Hw' q t. rewrite Hw', Hw.
  repeat case_decide; try lia; try done.
  rewrite slice_slice by nia. f_equal. nia.
Qed.

(** A device write of [m] sectors from the loop's position. *)
Lemma write_device d k (m : Z) r d' :
  (k < n)%nat -> written d0 d p s0 k buf -> 0 < m <= Z.of_nat n - Z.of_nat k ->
  let src := slice (k * SECTOR_SZ) (Z.to_nat m * SECTOR_SZ) buf in
  disk_write_raw p src (s0 + Z.of_nat k) m d = (r, d') ->
  (forall q t, ~ (q = p /\ s0 + Z.of_nat k <= t < s0 + Z.of_nat k + m) ->
               content d' q t = content d q t)
  /\ (r = RES_OK -> written d d' p (s0 + Z.of_nat k) (Z.to_nat m) src).
Proof.
  intros Hk Hw Hm src Ewr. destruct Hr as (Hs0 & Hnb & Hs1).
  assert (Hin : in_range (s0 + Z.of_nat k) m) by (unfold in_range; lia).
  split; [by apply (write_frame _ _ _ _ _ _ _ Hin Ewr)|]. intros ->.
  assert (Hl : length src = (Z.to_nat m * SECTOR_SZ)%nat)
    by (apply length_slice; nia).
  intros q t. rewrite (write_ok _ _ _ _ _ _ Hin Hl Ewr).
  rewrite Z2Nat.id by lia. done.
Qed.

Lemma write_advance fuel rest c d k q sb (m : Z) :
  write_correct fuel rest -> (k < n)%nat -> (n - k < S fuel)%nat ->
  0 < m <= Z.of_nat n - Z.of_nat k ->
  written d0 d p s0 (k + Z.to_nat m) buf -> good c d p ->
  looked c q sb (page_of (s0 + Z.of_nat k)) ->
  write_post (rest c d buf (k * SECTOR_SZ + Z.to_nat m * DVM_SECTOR_SZ)%nat
    (u64 (s0 + Z.of_nat k + m)) (u32 (Z.of_nat n - Z.of_nat k - m)) q sb).
Proof.
  intros IH Hk Hf Hm Hw Hg Hlk. destruct Hr as (Hs0 & Hnb & Hs1).
  rewrite u64_small, u32_small by lia. change DVM_SECTOR_SZ with SECTOR_SZ.
  rewrite <- Nat.mul_add_distr_r.
  specialize (IH c d (k + Z.to_nat m)%nat q sb ltac:(lia) Hw Hg).
  replace (s0 + Z.of_nat (k + Z.to_nat m)) with (s0 + Z.of_nat k + m) in IH by lia.
  replace (Z.of_nat n - Z.of_nat (k + Z.to_nat m))
    with (Z.of_nat n - Z.of_nat k - m) in IH by lia.
  apply IH; [|lia].
  eapply looked_ext; [done| |exact Hlk]. apply page_mono. lia.
Qed.

Section Step.
Context (fuel : nat) (rest : access_rest) (IH : write_correct fuel rest).
Context (c : dvm_state) (d : D) (k : nat) (q : option nat) (sb : Z).
Hypothesis Hk : (k < n)%nat.
Hypothesis Hw : written d0 d p s0 k buf.
Hypothesis Hg : good c d p.
Let first := s0 + Z.of_nat k.
Let num := Z.of_nat n - Z.of_nat k.
Hypothesis Hlk : looked c q sb (page_of first).
Hypothesis Hso : search_ok c (page_of first) q.
Hypothesis Hf : (n - k < S fuel)%nat.

Lemma write_hit_step i :
  q = Some i -> base_of c i = page_of first ->
  write_post (access_hit p true rest i (first mod 4) (page_part first num)
               c d buf (k * SECTOR_SZ) first num q sb).
Proof.
  intros -> Hb. destruct Hso as (Hli & _ & _).
  destruct (page_part_spec first num ltac:(lia)) as [Hm Hm4].
  assert (H4 : 0 <= first mod 4 < 4) by zdm.
  unfold access_hit. set (w := negb _). set (m := page_part first num) in *.
  change (Z.to_nat m * DVM_SECTOR_SZ)%nat with (Z.to_nat m * SECTOR_SZ)%nat.
  set (src := slice (k * SECTOR_SZ) (Z.to_nat m * SECTOR_SZ) buf).
  destruct (disk_write_raw p src first m d) as [r d'] eqn:Ewr.
  destruct (write_device d k m r d' Hk Hw Hm Ewr) as [Hfr Hok]. fold first in Hok, Hfr.
  case_decide as Er.
  - specialize (Hok Er).
    assert (Hl : length src = (Z.to_nat m * SECTOR_SZ)%nat) by (apply length_slice; nia).
    replace first with (base_of c i + Z.of_nat (Z.to_nat (first mod 4))) in Hok
      by (rewrite Hb; unfold page_of; lia).
    pose proof (write_page_good c d d' p i (Z.to_nat (first mod 4)) (Z.to_nat m) src
      Hg Hli ltac:(lia) Hl Hok) as Hg1.
    destruct (maybe_promote_good w _ d' p i Hg1 Hli) as [Hg2 Hb2].
    change (Z.to_nat (first mod 4) * DVM_SECTOR_SZ)%nat
      with (Z.to_nat (first mod 4) * SECTOR_SZ)%nat.
    eapply write_advance; eauto.
    + apply (written_more d); [lia|done|].
      replace (base_of c i + Z.of_nat (Z.to_nat (first mod 4))) with first in Hok
        by (rewrite Hb; unfold page_of; lia). exact Hok.
    + eapply looked_ext; [exact Hb2| |exact Hlk]. done.
  - do 3 eexists. split; [reflexivity|]. split; [|split; [|split; [done|]]].
    + destruct Hg as ((l1 & l2 & Ht) & _ & Hv & Ho & Hdis). split; [|done].
      exists l1, l2. apply with_data_table; [|done]. apply length_splice.
      rewrite (tb_data _ _ _ _ Ht).
      assert (i < N)%nat by (by eapply live_lt).
      unfold src, slice. rewrite length_take. unfold dvm_entry_data.
      change DVM_SECTOR_SZ with SECTOR_SZ. rewrite page_sz_4. nia.
    + intros q' t Hq. rewrite Hfr by lia. apply (written_frame d k); [lia|exact Hw|exact Hq].
    + intros Hrel. pose proof (never_fail_write _ _ _ _ _ _ _ Hrel Ewr). done.
Qed.

(** The direct path stops short of every cached page, so neither a
    success nor a failure can make one stale. *)
Lemma write_direct_step :
  (forall i, q = Some i -> base_of c i <> page_of first) ->
  write_post (access_direct p ob true rest c d buf (k * SECTOR_SZ) first num q sb).
Proof.
  intros Hmiss. destruct Hr as (Hs0 & Hnb & Hs1).
  destruct (direct_len_spec c d p q first num Hg ltac:(lia) ltac:(lia) ltac:(lia)
    Hso Hmiss) as [Hdl Hov].
  unfold access_direct. set (m := direct_len c q first num) in *.
  change (Z.to_nat m * DVM_SECTOR_SZ)%nat with (Z.to_nat m * SECTOR_SZ)%nat.
  set (src := slice (k * SECTOR_SZ) (Z.to_nat m * SECTOR_SZ) buf).
  destruct (disk_write_raw p src first m d) as [r d'] eqn:Ewr.
  destruct (write_device d k m r d' Hk Hw Hdl Ewr) as [Hfr Hok].
  assert (Hg' : good c d' p).
  { destruct Hg as (Ht & Hc & Hv & Ho & Hdis). unfold good. split_all.
    intros j Hj. rewrite (Hc j Hj). symmetry. apply range_ext. intros t Htt.
    apply Hfr. specialize (Hov j Hj). subst first. lia. }
  case_decide as Er.
  - eapply write_advance; eauto. apply (written_more d); [lia|done|auto].
  - do 3 eexists. split; [reflexivity|]. split; [by eapply good_formed|].
    split; [|split; [done|]].
    + intros q' t Hq. rewrite Hfr by lia. apply (written_frame d k); [lia|exact Hw|exact Hq].
    + intros Hrel. pose proof (never_fail_write _ _ _ _ _ _ _ Hrel Ewr). done.
Qed.
End Step.

Lemma write_loop fuel :
  write_correct fuel (access_loop p ob s0 (Z.of_nat n) true al pt fuel).
Proof.
  destruct Hr as (Hs0 & Hnb & Hs1).
  induction fuel as [|fuel IH]; intros c d k q sb Hk Hw Hg Hlk Hf; [lia|].
  cbn [access_loop].
  destruct (Z.eqb_spec (Z.of_nat n - Z.of_nat k) 0) as [E0|Hn0].
  { assert (k = n) as -> by lia. exists RES_OK, c, d. split_all.
    - by eapply good_formed.
    - eapply written_frame; eauto. }
  rewrite page_mask, !page_offset, !page_sectors_4 by lia.
  change (if Z.of_nat n - Z.of_nat k <? _ then _ else _)
    with (page_part (s0 + Z.of_nat k) (Z.of_nat n - Z.of_nat k)).
  pose proof Hg as ((l1 & l2 & Ht) & _).
  pose proof (looked_search c l1 l2 q sb _ Ht Hlk) as Hls.
  destruct (access_search c (page_of (s0 + Z.of_nat k)) q sb) as [q' sb'].
  destruct Hls as [Hlk' Hso].
  destruct (hit_entry c q' (page_of (s0 + Z.of_nat k))) as [i|] eqn:Hhit.
  - apply hit_entry_Some in Hhit as [-> Hb]. apply write_hit_step with fuel; auto; lia.
  - cbn [negb andb]. apply write_direct_step with fuel; auto; [lia|].
    by apply hit_entry_None.
Qed.
End WriteLoop.
(** ** One partial read and the recency order *)

(** Promoting the front entry again changes nothing. *)
Lemma promote_head c i l1 l2 : table_ok N c (i :: l1) l2 -> dvm_cache_promote i c = c.
Proof.
  intros Ht. unfold dvm_cache_promote.
  rewrite (ord_head _ _ _ (tb_order _ _ _ _ Ht)). by rewrite decide_True.
Qed.

(** The pages the cache holds, most recently used first. *)
Definition recency c (l1 : list nat) : list Z := base_of c <$> l1.

Lemma filter_other (pg : Z) (l : list Z) : pg ∉ l -> filter (fun b => b <> pg) l = l.
Proof.
  intros H1. induction l as [|b l IH]; [done|]. rewrite filter_cons_True by set_solver.
  f_equal. apply IH. set_solver.
Qed.

Lemma recency_length c l1 l2 : table_ok N c l1 l2 -> length (l1 ++ l2) = N.
Proof. intros Ht. by eapply order_length, tb_order. Qed.

(** A hit moves its page to the front. *)
Lemma recency_hit c i l1 l2 :
  table_ok N c l1 l2 -> live c i ->
  exists k, table_ok N (dvm_cache_promote i c) (i :: k) l2
    /\ recency (dvm_cache_promote i c) (i :: k)
       = take N (base_of c i :: filter (fun b => b <> base_of c i) (recency c l1)).
Proof.
  intros Ht Hi. assert (Hin : i ∈ l1) by (by eapply live_in).
  apply list_elem_of_split in Hin as (k1 & k2 & ->).
  exists (k1 ++ k2). split; [by apply promote_table|].
  pose proof (recency_length _ _ _ Ht) as HL. rewrite !length_app in HL. cbn in HL.
  assert (Hne : forall j, j ∈ k1 ++ k2 -> base_of c j <> base_of c i).
  { intros j Hj E. pose proof (tb_order _ _ _ _ Ht) as Ho. apply order_NoDup in Ho.
    rewrite <- app_assoc in Ho. cbn in Ho. rewrite <- Permutation_middle in Ho.
    apply NoDup_cons in Ho as [Hni _]. apply Hni.
    rewrite <- (tb_inj _ _ _ _ Ht i j Hi (eq_sym E)) in Hj. set_solver. }
  assert (Hf : forall k : list nat, (forall j, j ∈ k -> base_of c j <> base_of c i) ->
    filter (fun b => b <> base_of c i) (base_of c <$> k) = base_of c <$> k).
  { intros k Hk. apply filter_other. rewrite list_elem_of_fmap. intros (j & E & Hj).
    by apply (Hk j Hj). }
  unfold recency. cbn [fmap list_fmap]. rewrite (proj1 (promote_frame i c)).
  rewrite (list_fmap_ext _ (base_of c)) by (intros; apply (proj1 (promote_frame i c))).
  rewrite !fmap_app, filter_app. cbn [fmap list_fmap]. rewrite filter_cons_False by tauto.
  rewrite !Hf by (intros; apply Hne; set_solver).
  rewrite take_ge; [done|]. cbn. rewrite length_app, !length_fmap. lia.
Qed.

(** A fill puts the new page in front and, when the table was full, drops the
    least recently used one. *)
Lemma recency_fill c l1 l2 pg :
  table_ok N c l1 l2 -> is_page pg -> (forall j, live c j -> base_of c j <> pg) ->
  exists i, dvm_cache_evict c = Some i /\ forall bs, (length bs <= DVM_PAGE_SZ)%nat ->
    let c2 := with_data (splice (dvm_entry_data i) bs (dvm_cache_data c))
                (at_entry i (set_base pg) c) in
    exists k k2, table_ok N (dvm_cache_promote i c2) (i :: k) k2
      /\ recency (dvm_cache_promote i c2) (i :: k)
         = take N (pg :: filter (fun b => b <> pg) (recency c l1)).
Proof.
  intros Ht Hpg Hnew.
  destruct (evict_spec N HN c l1 l2 Ht) as (i & k1 & k2 & He & Hsp & Hk1 & Hk2 & Hend & Hfull & Hfree).
  exists i. split; [done|]. intros bs Hbs c2.
  assert (HiN : (i < N)%nat).
  { rewrite <- (ord_len _ _ _ (tb_order _ _ _ _ Ht)). by eapply fill_lt. }
  assert (Ht2 : table_ok N c2 (k1 ++ [i]) k2).
  { eapply fill_ok; eauto. apply length_splice. rewrite (tb_data _ _ _ _ Ht).
    unfold dvm_entry_data. nia. }
  exists k1, k2. split.
  { rewrite <- (app_nil_r k1). apply promote_table. exact Ht2. }
  destruct (fill_notin c l1 l2 i k1 k2 Ht Hsp) as [Hn1 _].
  assert (Hb : forall j, base_of c2 j = if decide (j = i) then pg else base_of c j).
  { intros j. apply (base_of_set i pg c j). by eapply fill_lt. }
  assert (Hfil : filter (fun b => b <> pg) (recency c l1) = recency c l1).
  { apply filter_other. unfold recency. rewrite list_elem_of_fmap. intros (j & E & Hj).
    apply (Hnew j); [|done]. by apply (live_iff N HN _ _ _ _ Ht). }
  rewrite Hfil. unfold recency. cbn [fmap list_fmap].
  rewrite (proj1 (promote_frame i c2)), Hb, decide_True by done.
  rewrite (list_fmap_ext _ (base_of c) k1).
  2: { intros j x Hx. rewrite (proj1 (promote_frame i c2)), Hb, decide_False; [done|].
       intros ->. apply Hn1. by eapply list_elem_of_lookup_2. }
  pose proof (recency_length _ _ _ Ht) as HL.
  destruct (decide (base_of c i = DVM_EMPTY_PAGE)) as [Ei|Hli].
  - assert (k1 = l1) as -> by (apply Hfree; unfold live; tauto). rewrite Hsp in HL.
    rewrite take_ge; [done|]. rewrite length_app in HL. cbn in HL |- *.
    rewrite length_fmap. lia.
  - specialize (Hend Hli). specialize (Hfull Hli). subst k2 l2. rewrite app_nil_r in *.
    subst l1. rewrite length_app in HL. cbn in HL. rewrite fmap_app.
    replace N with (S (length k1)) by lia. cbn [take]. f_equal.
    by rewrite take_app_length' by (by rewrite length_fmap).
Qed.

(** ** The entry points *)

Lemma looked_start c first : 0 <= first -> looked c None 0 (page_of first).
Proof. intros H1 pg Hpg. destruct (page_of_spec first). unfold page_of in *. zdm. Qed.

Lemma access_read_spec c d p addr buf s (n : nat) :
  good c d p -> in_range s (Z.of_nat n) -> (n * SECTOR_SZ <= length buf)%nat ->
  read_post p s n buf d (dvm_cache_access p addr buf s (Z.of_nat n) false c d).
Proof.
  intros Hg Hr Hbuf. pose proof Hr as (Hs & _ & _). unfold dvm_cache_access.
  pose proof (read_loop p addr s n (dvm_is_aligned addr) (Z.of_nat n <? DVM_PAGE_SECTORS) buf d
    Hr Hbuf (access_fuel (Z.of_nat n)) c d 0%nat None 0 ltac:(lia) eq_refl Hg) as Hl.
  unfold reading in Hl. rewrite Nat.mul_0_l in Hl.
  change (range_bytes d p s 0%nat) with (@nil Z) in Hl. rewrite splice_nil in Hl by lia.
  rewrite Z.add_0_r, Z.sub_0_r in Hl. apply Hl; [by apply looked_start|].
  unfold enough, access_fuel. lia.
Qed.

Lemma dvm_read_spec c d p addr buf s (n : nat) :
  cache_inv c d -> in_range s (Z.of_nat n) -> (n * SECTOR_SZ <= length buf)%nat ->
  exists r buf' c' d', dvm_cache_read N p addr buf s (Z.of_nat n) c d = Some (r, buf', c', d')
    /\ content d' = content d /\ cache_inv c' d'
    /\ (r = RES_OK -> buf' = splice 0 (range_bytes d p s n) buf)
    /\ (reads_never_fail -> r = RES_OK).
Proof.
  intros Hinv Hr Hbuf. unfold dvm_cache_read.
  destruct (Z.eqb_spec (Z.of_nat n) 0) as [E0|Hn0].
  { exists RES_OK, buf, c, d. split_all. intros _. replace n with 0%nat by lia.
    symmetry. apply splice_nil. lia. }
  destruct (dvm_disabled c) eqn:Edis.
  - destruct (disk_read_raw p addr _ s (Z.of_nat n) d) as [[r bs] d'] eqn:Erd.
    pose proof (read_pres _ _ _ _ _ _ _ _ _ Erd) as Ed.
    do 4 eexists. split; [reflexivity|]. split_all.
    + destruct Hinv as [? ? Hco ?]. split; auto. intros Hv.
      by apply (coherent_content c d d' Ed), Hco.
    + intros ->. apply read_ok in Erd; [|done|by rewrite length_slice; rewrite Nat2Z.id].
      change (bs = range_bytes d p s (Z.to_nat (Z.of_nat n))) in Erd.
      by rewrite Erd, Nat2Z.id.
    + intros Hrel. by eapply never_fail_read.
  - pose proof (claim_good c d p Hinv Edis) as Hg.
    destruct (access_read_spec _ d p addr buf s n Hg Hr Hbuf)
      as (r & buf' & c' & d' & E & Ed & Hg' & Hok & Hrel).
    exists r, buf', c', d'. split_all. by eapply good_inv.
Qed.

Lemma access_write_spec c d p addr buf s (n : nat) :
  good c d p -> in_range s (Z.of_nat n) -> (n * SECTOR_SZ <= length buf)%nat ->
  write_post p s n buf d (dvm_cache_access p addr buf s (Z.of_nat n) true c d).
Proof.
  intros Hg Hr Hbuf. pose proof Hr as (Hs & _ & _). unfold dvm_cache_access.
  assert (Hw : written d d p s 0 buf)
    by (intros q t; rewrite decide_False by lia; done).
  pose proof (write_loop p addr s n (dvm_is_aligned addr) (Z.of_nat n <? DVM_PAGE_SECTORS) buf d
    Hr Hbuf (access_fuel (Z.of_nat n)) c d 0%nat None 0 ltac:(lia) Hw Hg) as Hl.
  rewrite Nat.mul_0_l, Z.add_0_r, Z.sub_0_r in Hl. apply Hl; [by apply looked_start|].
  unfold access_fuel. lia.
Qed.

(** Writes: success replaces the sectors and keeps the invariant; failure
    touches no other sector. *)
Lemma dvm_write_spec c d p addr buf s (n : nat) :
  cache_inv c d -> in_range s (Z.of_nat n) -> (n * SECTOR_SZ <= length buf)%nat ->
  exists r c' d', dvm_cache_write N p addr buf s (Z.of_nat n) c d = Some (r, buf, c', d')
    /\ (forall q t, ~ (q = p /\ s <= t < s + Z.of_nat n) -> content d' q t = content d q t)
    /\ (r = RES_OK -> written d d' p s n buf /\ cache_inv c' d')
    /\ (writes_never_fail -> r = RES_OK).
Proof.
  intros Hinv Hr Hbuf. unfold dvm_cache_write.
  destruct (Z.eqb_spec (Z.of_nat n) 0) as [E0|Hn0].
  { exists RES_OK, c, d. split_all. intros _. split; [|done].
    intros q t. rewrite decide_False by lia. done. }
  destruct (dvm_disabled c) eqn:Edis.
  - rewrite Nat2Z.id. change (n * DVM_SECTOR_SZ)%nat with (n * SECTOR_SZ)%nat.
    destruct (disk_write_raw p _ s (Z.of_nat n) d) as [r d'] eqn:Ewr.
    do 3 eexists. split; [reflexivity|].
    split; [exact (write_frame _ _ _ _ _ _ _ Hr Ewr)|]. split.
    + intros ->.
      assert (Hl : length (slice 0 (n * SECTOR_SZ) buf) = (Z.to_nat (Z.of_nat n) * SECTOR_SZ)%nat)
        by (rewrite length_slice; lia).
      pose proof (write_ok _ _ _ _ _ _ Hr Hl Ewr) as Hw. split.
      * intros q t. rewrite Hw. case_decide; [|done]. rewrite slice_slice by nia. done.
      * destruct Hinv as [? ? ? Hdis]. split; auto.
        intros [_ Hrdy] i Hi. destruct (Hdis Edis Hrdy) as [l2 Ht].
        eapply live_in in Hi; [|exact HN|exact Ht]. by apply not_elem_of_nil in Hi.
    + intros Hrel. pose proof (never_fail_write _ _ _ _ _ _ _ Hrel Ewr). done.
  - pose proof (claim_good c d p Hinv Edis) as Hg.
    destruct (access_write_spec _ d p addr buf s n Hg Hr Hbuf)
      as (r & c' & d' & E & Hf & Hfr & Hok & Hrel).
    exists r, c', d'. split_all. intros Er. destruct (Hok Er) as [? ?].
    split; [done|]. by eapply good_inv.
Qed.
End Thms.

Arguments reads_never_fail D {_}.
Arguments writes_never_fail D {_}.
