(* ===== verification/DvmCacheClaims.v ===== *)
(** What the block cache promises its client, over whole histories of calls
    and of the outside events the source provides for, and where it does not
    keep the promise. *)

From S2P Require Import Prelude Dll BlockDev RamDisk DvmCache DvmCacheFacts DvmCacheThms.

(** ** Histories *)

Section History.
Context (N : nat) {D : Type} `{BlockDeviceLaws D}.

(** The statics at start-up: zeroed [.bss], garbage in the NOLOAD region. *)
Definition dvm_bss (m : Z) (data : list Z) : dvm_state :=
  mk_dvm m data (replicate N (mk_entry None None 0)) None None 0 false false.

(** Foreign stores to the region that holds the pages and the sentinel. *)
Definition scribble (m : Z) (data : list Z) (c : dvm_state) : dvm_state :=
  mk_dvm m data (dvm_entries c) (dvm_list_next c) (dvm_list_prev c)
         (dvm_owner_pdrv c) (dvm_ready c) (dvm_disabled c).

(** One event: a call of the client, or the region being overwritten, either
    whole (which takes the sentinel) or in any way once the cache is
    disabled, as [bs2start] and [load_dol] do. *)
Inductive cache_step : dvm_state * D -> dvm_state * D -> Prop :=
| st_read p addr buf s (n : nat) c d r buf' c' d' :
    in_range s (Z.of_nat n) -> (n * SECTOR_SZ <= length buf)%nat ->
    dvm_cache_read N p addr buf s (Z.of_nat n) c d = Some (r, buf', c', d') ->
    cache_step (c, d) (c', d')
| st_write p addr buf s (n : nat) c d buf' c' d' :
    in_range s (Z.of_nat n) -> (n * SECTOR_SZ <= length buf)%nat ->
    dvm_cache_write N p addr buf s (Z.of_nat n) c d = Some (RES_OK, buf', c', d') ->
    cache_step (c, d) (c', d')
| st_invalidate c d : cache_step (c, d) (dvm_cache_invalidate N c, d)
| st_disable c d : cache_step (c, d) (dvm_cache_disable c, d)
| st_enable c d : cache_step (c, d) (dvm_cache_enable c, d)
| st_wiped m data c d :
    m <> DVM_MAGIC \/ dvm_disabled c = true -> length data = (N * DVM_PAGE_SZ)%nat ->
    cache_step (c, d) (scribble m data c, d).

Hypothesis HN : (0 < N)%nat.

Lemma inv_empty c d l2 : table_ok N c [] l2 -> cache_inv N c d.
Proof.
  intros Ht. split; eauto using tb_data. intros _ i Hi.
  eapply live_in in Hi; [|exact HN|exact Ht]. by apply not_elem_of_nil in Hi.
Qed.

Lemma inv_scribble m data c d :
  m <> DVM_MAGIC \/ dvm_disabled c = true -> length data = (N * DVM_PAGE_SZ)%nat ->
  cache_inv N c d -> cache_inv N (scribble m data c) d.
Proof.
  intros Hm Hl Hi.
  assert (Htab : forall l2, table_ok N c [] l2 -> table_ok N (scribble m data c) [] l2).
  { intros l2 [[? ? ? ? ?] ? ? ? ? ?]. by split. }
  destruct (dvm_disabled c) eqn:Edis.
  - destruct (dvm_ready c) eqn:Er.
    + destruct (ci_disabled _ _ _ Hi Edis Er) as [l2 Ht]. eapply inv_empty, Htab, Ht.
    + split; [done|intros [_ ?]..|]; cbn in *; congruence.
  - destruct Hm as [Hm|?]; [|done].
    split; [done|by intros [? _]..|]. cbn. congruence.
Qed.

Lemma inv_step st st' :
  cache_step st st' -> cache_inv N st.1 st.2 -> cache_inv N st'.1 st'.2.
Proof.
  destruct 1 as [p a buf s n c d r buf' c' d' Hr Hb E|p a buf s n c d buf' c' d' Hr Hb E
    |c d|c d|c d|m data c d Hm Hl]; cbn [fst snd]; intros Hi.
  - destruct (dvm_read_spec N HN c d p a buf s n Hi Hr Hb) as (? & ? & ? & ? & E' & _ & Hi' & _).
    by simplify_eq.
  - destruct (dvm_write_spec N HN c d p a buf s n Hi Hr Hb) as (? & ? & ? & E' & _ & Hok & _).
    simplify_eq. by apply Hok.
  - eapply inv_empty, reset_table; [done|]. apply (ci_data _ _ _ Hi).
  - split; [apply (ci_data _ _ _ Hi)|intros [_ ?]..|]; done.
  - split; [apply (ci_data _ _ _ Hi)|intros [_ ?]..|]; done.
  - by apply inv_scribble.
Qed.

Lemma inv_reachable m data d st :
  length data = (N * DVM_PAGE_SZ)%nat ->
  rtc cache_step (dvm_bss m data, d) st -> cache_inv N st.1 st.2.
Proof.
  intros Hl Hrtc. assert (Hi : cache_inv N (dvm_bss m data, d).1 (dvm_bss m data, d).2).
  { split; [done|intros [_ ?]..|]; done. }
  induction Hrtc; eauto using inv_step.
Qed.

(** C1. Whatever sequence of reads, successful writes, resets, disables and
    memory wipes came before, a read through the cache terminates, leaves the
    device alone, and when it reports success the caller's buffer holds
    exactly the device's current sectors; it succeeds whenever the driver
    does. *)
Theorem dvm_reads_are_device_reads m data d0 c d p addr buf s (n : nat) :
  length data = (N * DVM_PAGE_SZ)%nat ->
  rtc cache_step (dvm_bss m data, d0) (c, d) ->
  in_range s (Z.of_nat n) -> (n * SECTOR_SZ <= length buf)%nat ->
  exists r buf' c' d', dvm_cache_read N p addr buf s (Z.of_nat n) c d = Some (r, buf', c', d')
    /\ content d' = content d
    /\ (r = RES_OK -> buf' = splice 0 (range_bytes d p s n) buf)
    /\ (reads_never_fail D -> r = RES_OK).
Proof.
  intros Hl Hrtc Hr Hb. apply inv_reachable in Hrtc; [|done].
  destruct (dvm_read_spec N HN c d p addr buf s n Hrtc Hr Hb)
    as (r & buf' & c' & d' & ? & ? & _ & ? & ?).
  by exists r, buf', c', d'.
Qed.

(** C2. Under the same histories a write through the cache terminates, never
    touches a sector outside its request, and when it reports success the
    device holds exactly the written bytes and the cache stays coherent, so
    that the history may continue. *)
Theorem dvm_writes_are_device_writes m data d0 c d p addr buf s (n : nat) :
  length data = (N * DVM_PAGE_SZ)%nat ->
  rtc cache_step (dvm_bss m data, d0) (c, d) ->
  in_range s (Z.of_nat n) -> (n * SECTOR_SZ <= length buf)%nat ->
  exists r c' d', dvm_cache_write N p addr buf s (Z.of_nat n) c d = Some (r, buf, c', d')
    /\ (forall q t, ~ (q = p /\ s <= t < s + Z.of_nat n) -> content d' q t = content d q t)
    /\ (r = RES_OK -> written d d' p s n buf /\ cache_inv N c' d'
                     /\ rtc cache_step (dvm_bss m data, d0) (c', d'))
    /\ (writes_never_fail D -> r = RES_OK).
Proof.
  intros Hl Hrtc Hr Hb. pose proof (inv_reachable _ _ _ _ Hl Hrtc) as Hi.
  destruct (dvm_write_spec N HN c d p addr buf s n Hi Hr Hb)
    as (r & c' & d' & E & ? & Hok & ?).
  exists r, c', d'. split_all. intros ->. destruct Hok as [? ?]; [done|]. split_all.
  eapply rtc_r; [exact Hrtc|]. subst. by eapply st_write.
Qed.
End History.

(** ** Concrete histories *)

(** A two-page cache over a writable drive. *)
Definition small_data : list Z := replicate (2 * DVM_PAGE_SZ) 0xA5.
Definition one_sector (x : Z) : list Z := replicate SECTOR_SZ x.

(** Reading and writing sector 5, dropping the whole region, reading again. *)
Lemma small_history : exists c d,
  rtc (cache_step 2) (dvm_bss 2 7 small_data, numbered false) (c, d).
Proof.
  do 2 eexists.
  eapply rtc_l; [eapply (st_read 2 0 64 (one_sector 0) 5 1); [done|done|vm_compute; reflexivity]|].
  eapply rtc_l; [eapply (st_write 2 0 64 (one_sector 0xEE) 5 1); [done|done|vm_compute; reflexivity]|].
  eapply rtc_l; [eapply (st_wiped 2 0 small_data); [by left|done]|].
  eapply rtc_l; [eapply st_disable|].
  eapply rtc_l; [eapply st_enable|]. apply rtc_refl.
Defined.

Lemma dvm_reads_are_device_reads_witness : exists c d r buf' c' d',
  dvm_cache_read 2 0 64 (one_sector 0) 5 (Z.of_nat 1) c d = Some (r, buf', c', d')
  /\ content d' = content d /\ r = RES_OK.
Proof.
  destruct small_history as (c & d & Hh).
  destruct (dvm_reads_are_device_reads 2 ltac:(lia) 7 small_data (numbered false) c d
    0 64 (one_sector 0) 5 1 eq_refl Hh ltac:(done) ltac:(done))
    as (r & buf' & c' & d' & ? & ? & _ & Hr).
  exists c, d, r, buf', c', d'. split_all. by apply Hr.
Defined.

Lemma dvm_writes_are_device_writes_witness : exists c d r c' d',
  dvm_cache_write 2 0 64 (one_sector 1) 5 (Z.of_nat 1) c d = Some (r, one_sector 1, c', d')
  /\ (r = RES_OK -> written d d' 0 5 1 (one_sector 1)).
Proof.
  destruct small_history as (c & d & Hh).
  destruct (dvm_writes_are_device_writes 2 ltac:(lia) 7 small_data (numbered false) c d
    0 64 (one_sector 1) 5 1 eq_refl Hh ltac:(done) ltac:(done))
    as (r & c' & d' & ? & _ & Hw & _).
  exists c, d, r, c', d'. split_all. intros Er. by apply Hw.
Defined.

(** ** Replacement policy *)

Section Lru.
Context (N : nat) (HN : (0 < N)%nat) {D : Type} `{BlockDeviceLaws D}.

(** Serving the tail of an iteration from the entry at the front. *)
Lemma front_hit_finish p ob s (n : nat) al pt f c d buf i k l2 sb :
  good N c d p -> table_ok N c (i :: k) l2 -> base_of c i = page_of s ->
  in_range s (Z.of_nat n) -> (0 < n)%nat -> s mod 4 + Z.of_nat n <= 4 ->
  page_of s < sb ->
  exists buf', access_loop (D := D) p ob s (Z.of_nat n) false al pt (S (S f)) c d buf 0 s (Z.of_nat n)
    (Some i) sb = Some (RES_OK, buf', c, d).
Proof.
  intros Hg Ht Hb (Hs & _ & Hs1) Hn Hpage Hsb. cbn [access_loop].
  destruct (Z.eqb_spec (Z.of_nat n) 0) as [?|_]; [lia|].
  rewrite page_mask, !page_offset, !page_sectors_4 by lia. rewrite (search_kept N HN) by done.
  unfold hit_entry. rewrite Hb, Z.eqb_refl.
  change (if Z.of_nat n <? _ then _ else _) with (page_part s (Z.of_nat n)).
  assert (Hpp : page_part s (Z.of_nat n) = Z.of_nat n).
  { unfold page_part. rewrite u32_small by zdm. bcase; lia. }
  rewrite Hpp. unfold access_hit. rewrite (promote_head N c i k l2 Ht).
  rewrite Z.sub_diag. destruct (negb _); eexists; reflexivity.
Qed.

(** The table after serving [page], given the table before. *)
Definition lru_step (page : Z) (pages : list Z) (c' : dvm_state) : Prop :=
  exists l1 l2, table_ok N c' l1 l2
    /\ recency c' l1 = take N (page :: filter (fun b => b <> page) pages).

(** C3. Replacement is LRU: a read of part of one page puts that page in front
    of the cached pages, keeps the order of the others, and when the page was
    new and the cache full drops exactly the least recently used one. *)
Theorem dvm_partial_read_is_lru c d p addr buf s (n : nat) l1 l2 :
  table_ok N c l1 l2 -> coherent c d -> valid c -> dvm_disabled c = false ->
  dvm_owner_pdrv c = p -> in_range s (Z.of_nat n) -> (n * SECTOR_SZ <= length buf)%nat ->
  0 < Z.of_nat n < 4 -> s mod 4 + Z.of_nat n <= 4 -> reads_never_fail D ->
  exists buf' c' d', dvm_cache_read N p addr buf s (Z.of_nat n) c d
                     = Some (RES_OK, buf', c', d')
    /\ lru_step (page_of s) (recency c l1) c'.
Proof.
  intros Ht Hco Hv Hdis Ho Hr Hb Hn Hpage Hrel. pose proof Hr as (Hs & _ & Hs1).
  assert (Hg : good N c d p) by (unfold good; eauto 10).
  assert (Hpg : is_page (page_of s)) by (apply (is_page_of N HN); lia).
  pose proof (page_of_spec N HN s) as [Hps _].
  unfold dvm_cache_read, dvm_cache_claim. destruct (Z.eqb_spec (Z.of_nat n) 0) as [?|_]; [lia|].
  rewrite Hdis. destruct Hv as [Em Er]. rewrite Em, Er, Ho, !Z.eqb_refl. cbn [negb orb].
  unfold dvm_cache_access, access_fuel.
  destruct (Z.to_nat (Z.of_nat n)) as [|m] eqn:Em'; [lia|].
  replace (S (2 * S m)) with (S (S (S (2 * m)))) by lia.
  set (f := S (S (2 * m))). cbn [access_loop]. subst f.
  destruct (Z.eqb_spec (Z.of_nat n) 0) as [?|_]; [lia|].
  rewrite page_mask, !page_offset, !page_sectors_4 by lia.
  change (if Z.of_nat n <? u32 _ then _ else _) with (page_part s (Z.of_nat n)).
  assert (Hpp : page_part s (Z.of_nat n) = Z.of_nat n).
  { unfold page_part. rewrite u32_small by zdm. bcase; lia. }
  rewrite Hpp.
  pose proof (looked_search N HN c l1 l2 None 0 (page_of s) Ht
    (looked_start N HN c s ltac:(lia))) as Hls.
  destruct (access_search c (page_of s) None 0) as [q sb]. destruct Hls as [_ Hso].
  destruct (hit_entry c q (page_of s)) as [i|] eqn:Hh.
  - apply hit_entry_Some in Hh as [-> E]. destruct Hso as (Hli & _).
    destruct (recency_hit N HN c i l1 l2 Ht Hli) as (k & Hk & Hrec).
    assert (Hw : negb ((s mod 4 =? 0) && (Z.of_nat n =? 4)) = true).
    { repeat bcase; cbn; lia || done. }
    unfold access_hit. rewrite page_sectors_4, Hw, Z.sub_diag. cbn [access_loop].
    do 3 eexists. split; [reflexivity|]. exists (i :: k), l2. rewrite <- E. done.
  - pose proof (hit_entry_None _ _ _ Hh) as Hmiss.
    pose proof (miss_new N HN c q (page_of s) Hso Hmiss) as Hnew.
    replace (Z.of_nat n <? 4) with true by (symmetry; bcase; lia).
    cbn [negb andb orb]. unfold access_fill.
    destruct (fill_step N HN c d p (page_of s) Hg Hpg Hnew) as (i & He & HiN & Hfill).
    destruct (recency_fill N HN c l1 l2 (page_of s) Ht Hpg Hnew) as (i' & He' & Hrec).
    rewrite He in He' |- *. injection He' as <-. rewrite page_sectors_4.
    destruct (disk_read_raw p _ _ (page_of s) 4 d) as [[r bs] d'] eqn:Erd.
    pose proof (never_fail_read _ _ _ _ _ _ _ _ _ Hrel Erd) as ->.
    pose proof (page_window N HN c d p i Hg HiN) as Hpl.
    assert (Hin : in_range (page_of s) 4) by (destruct Hpg as (? & Hp & _);
      rewrite page_sectors_4 in Hp; by unfold in_range).
    pose proof (read_len _ _ _ _ _ _ _ _ _ Hin Hpl Erd) as Hlen. rewrite Hpl in Hlen.
    destruct (Hfill bs d' (read_pres _ _ _ _ _ _ _ _ _ Erd) ltac:(by rewrite Hlen, page_sz_4)) as [Hok _].
    destruct (Hok (read_ok _ _ _ _ _ _ _ _ Hin Hpl Erd)) as [Hg2 Hb2].
    destruct (Hrec bs ltac:(by rewrite Hlen, page_sz_4)) as (k & k2 & Hk & Hpages).
    destruct Hpg as (Hp0 & Hp1 & _). rewrite page_sectors_4 in Hp1.
    rewrite decide_True by done. rewrite u64_small by lia.
    edestruct (front_hit_finish p addr s n) as (buf' & Hfin); [exact Hg2|exact Hk|exact Hb2|done|lia|done| |].
    2: { do 3 eexists. split; [exact Hfin|]. by exists (i :: k), k2. }
    lia.
Qed.
End Lru.

Lemma dvm_partial_read_is_lru_witness : exists buf' c' d',
  dvm_cache_read 2 0 64 (one_sector 0) 5 (Z.of_nat 1)
    (dvm_cache_reset 2 (dvm_bss 2 7 small_data)) (numbered false)
  = Some (RES_OK, buf', c', d')
  /\ lru_step 2 (page_of 5) [] c'.
Proof.
  apply (dvm_partial_read_is_lru 2 ltac:(lia) (D := ramdisk)
    (dvm_cache_reset 2 (dvm_bss 2 7 small_data)) (numbered false) 0 64 (one_sector 0) 5 1
    [] (seq 0 2)); try done.
  - by apply reset_table; [lia|].
  - intros i Hi. by destruct (Hi (reset_base 2 _ i)).
Defined.

(** ** A failed write-through *)

Section Poison.
Context (N : nat) (HN : (0 < N)%nat) {D : Type} `{BlockDeviceLaws D}.

(** The page of sector [s] of drive [p] is in the cache, and the cache in use. *)
Definition cached (c : dvm_state) (p s : Z) : Prop :=
  valid c /\ dvm_disabled c = false /\ dvm_owner_pdrv c = p /\ exists i, base_of c i = page_of s.

(** A request inside one cached page finds it at once. *)
Lemma cached_found c p s l1 l2 : table_ok N c l1 l2 -> cached c p s -> 0 <= s < 2 ^ 32 ->
  exists i sb, access_search c (page_of s) None 0 = (Some i, sb) /\ hit_entry c (Some i) (page_of s) = Some i
    /\ base_of c i = page_of s /\ live c i.
Proof.
  intros Ht (_ & _ & _ & j & Hj) Hs. pose proof (is_page_of N HN s Hs) as Hpg.
  pose proof (live_page N HN _ _ _ Hpg Hj) as Hlj.
  pose proof (looked_search N HN c l1 l2 None 0 (page_of s) Ht (looked_start N HN c s ltac:(lia))) as Hls.
  destruct (access_search c (page_of s) None 0) as [q sb]. destruct Hls as [_ Hso].
  destruct (hit_entry c q (page_of s)) as [i|] eqn:Hh.
  - pose proof (hit_entry_Some _ _ _ _ Hh) as [-> E]. exists i, sb. split_all. by destruct Hso.
  - by destruct (miss_new N HN c q (page_of s) Hso (hit_entry_None _ _ _ Hh) j Hlj).
Qed.
Lemma cached_claim c p s : cached c p s -> dvm_cache_claim N p c = c.
Proof. intros ([Em Er] & _ & Ho & _). unfold dvm_cache_claim. by rewrite Em, Er, Ho, !Z.eqb_refl. Qed.
Lemma part_whole s (n : nat) : 0 < Z.of_nat n -> s mod 4 + Z.of_nat n <= 4 ->
  (if Z.of_nat n <? u32 (4 - s mod 4) then Z.of_nat n else u32 (4 - s mod 4)) = Z.of_nat n.
Proof. intros. rewrite u32_small by zdm. bcase; lia. Qed.

(** What such a read delivers: the bytes of the page, whatever the drive is. *)
Lemma cached_read c p addr buf s (n : nat) l1 l2 d : table_ok N c l1 l2 -> cached c p s -> 0 <= s < 2 ^ 32 ->
  (0 < n)%nat -> s mod 4 + Z.of_nat n <= 4 -> (n * SECTOR_SZ <= length buf)%nat ->
  exists i c', base_of c i = page_of s /\ live c i /\ dvm_cache_read N p addr buf s (Z.of_nat n) c d = Some (RES_OK,
    splice 0 (slice (dvm_entry_data i + Z.to_nat (s mod 4) * SECTOR_SZ) (n * SECTOR_SZ) (dvm_cache_data c)) buf, c', d).
Proof.
  intros Ht Hc Hs Hn Hpage Hb. destruct (cached_found c p s l1 l2 Ht Hc Hs) as (i & sb & Es & Eh & Ei & Hi).
  unfold dvm_cache_read. rewrite (cached_claim c p s Hc). destruct Hc as (_ & Hd & _). rewrite Hd.
  rewrite (proj2 (Z.eqb_neq _ 0)) by lia. unfold dvm_cache_access, access_fuel. rewrite Nat2Z.id. destruct n as [|m] eqn:Em; [lia|]. rewrite <- Em in *.
  replace (S (2 * n)) with (S (S (2 * m + 1))) by lia. cbn [access_loop]. rewrite (proj2 (Z.eqb_neq _ 0)) by lia.
  rewrite page_mask, !page_offset, !page_sectors_4, part_whole by lia. rewrite Es, Eh.
  unfold access_hit. rewrite Z.sub_diag. cbn [access_loop Z.eqb u32 Z.modulo Z.div_eucl]. rewrite Nat2Z.id. do 2 eexists. split; [exact Ei|]. by split.
Qed.

(** C4. A write the drive refuses still changes the cache. After any history of
    reads, successful writes, resets, disables and memory wipes, a write of sectors
    of one cached page that the driver fails - as every driver of the IPL build
    fails every write - reports an error, and from then on a read of these sectors
    reports success and delivers the refused bytes, whatever the drive holds and
    without asking it. *)
Theorem dvm_failed_write_poisons_page m data d0 c d p addr buf s (n : nat) :
  length data = (N * DVM_PAGE_SZ)%nat ->
  rtc (cache_step N) (dvm_bss N m data, d0) (c, d) ->
  in_range s (Z.of_nat n) -> (n * SECTOR_SZ <= length buf)%nat ->
  cached c p s -> (0 < n)%nat -> s mod 4 + Z.of_nat n <= 4 ->
  fst (disk_write_raw p (slice 0 (n * SECTOR_SZ) buf) s (Z.of_nat n) d) <> RES_OK ->
  exists c' d', dvm_cache_write N p addr buf s (Z.of_nat n) c d = Some (RES_ERROR, buf, c', d') /\
    forall addr2 buf2 d2, (n * SECTOR_SZ <= length buf2)%nat -> exists c'',
      dvm_cache_read N p addr2 buf2 s (Z.of_nat n) c' d2 = Some (RES_OK, splice 0 (slice 0 (n * SECTOR_SZ) buf) buf2, c'', d2).
Proof.
  intros Hl Hrtc Hr Hb Hc Hn Hpage Hfail. pose proof (inv_reachable N HN _ _ _ _ Hl Hrtc) as Hi. cbn [fst snd] in Hi.
  pose proof Hc as (Hv & Hdis & _). destruct (ci_table _ _ _ Hi Hv) as (l1 & l2 & Ht).
  assert (Hs : 0 <= s < 2 ^ 32) by (unfold in_range in Hr; lia).
  destruct (cached_found c p s l1 l2 Ht Hc Hs) as (i & sb & Es & Eh & Ei & Hli).
  unfold dvm_cache_write. rewrite (cached_claim c p s Hc), Hdis. rewrite (proj2 (Z.eqb_neq _ 0)) by lia.
  unfold dvm_cache_access, access_fuel. cbn [access_loop]. rewrite (proj2 (Z.eqb_neq _ 0)) by lia.
  rewrite page_mask, !page_offset, !page_sectors_4, part_whole by lia. rewrite Es, Eh. unfold access_hit. rewrite Nat2Z.id.
  change DVM_SECTOR_SZ with SECTOR_SZ. destruct (disk_write_raw p _ s _ d) as [r d']. cbn [fst] in Hfail. rewrite decide_False by done.
  do 2 eexists. split; [reflexivity|]. intros addr2 buf2 d2 Hb2. set (off := (dvm_entry_data i + Z.to_nat (s mod 4) * SECTOR_SZ)%nat).
  set (src := slice 0 (n * SECTOR_SZ) buf). assert (Hsrc : length src = (n * SECTOR_SZ)%nat) by (apply length_slice; lia).
  assert (Hfit : (off + n * SECTOR_SZ <= length (dvm_cache_data c))%nat).
  { pose proof (live_lt N HN _ _ _ _ Ht Hli). rewrite (tb_data _ _ _ _ Ht). unfold off, dvm_entry_data. rewrite page_sz_4. assert (0 <= s mod 4) by zdm. nia. }
  set (c1 := with_data (splice off src (dvm_cache_data c)) c).
  assert (Ht1 : table_ok N c1 l1 l2) by (apply with_data_table; [apply length_splice; lia|done]).
  destruct (cached_read c1 p addr2 buf2 s n l1 l2 d2 Ht1 Hc Hs Hn Hpage Hb2) as (j & c'' & Ej & Hj & E). exists c''.
  rewrite E. do 3 f_equal. assert (j = i) as ->.
  { apply (tb_inj _ _ _ _ Ht1 j i Hj). rewrite Ej. symmetry. exact Ei. }
  f_equal. cbn [dvm_cache_data with_data c1]. fold off. f_equal. rewrite <- Hsrc. apply slice_splice_eq. lia.
Qed.
End Poison.

(** Sector 5 of a drive that refuses writes is read, and then written to. *)
Lemma read_only_history : exists c d, rtc (cache_step 2) (dvm_bss 2 7 small_data, numbered true) (c, d) /\ cached c 0 5 /\
  fst (disk_write_raw 0 (one_sector 0xEE) 5 1 d) <> RES_OK.
Proof.
  do 2 eexists. split; [|split].
  - eapply rtc_l; [eapply (st_read 2 0 64 (one_sector 0) 5 1); [done|done|vm_compute; reflexivity]|apply rtc_refl].
  - unfold cached. split; [vm_compute; done|]. split; [vm_compute; done|]. split; [vm_compute; done|].
    exists 0%nat. vm_compute. done.
  - vm_compute. done.
Qed.
Lemma dvm_failed_write_poisons_page_witness : exists c d c' d' c'',
  dvm_cache_write 2 0 64 (one_sector 0xEE) 5 1 c d = Some (RES_ERROR, one_sector 0xEE, c', d') /\
  dvm_cache_read 2 0 64 (one_sector 0) 5 1 c' d' = Some (RES_OK, one_sector 0xEE, c'', d').
Proof.
  destruct read_only_history as (c & d & Hh & Hc & Hf).
  destruct (dvm_failed_write_poisons_page 2 ltac:(lia) 7 small_data (numbered true) c d 0 64 (one_sector 0xEE) 5 1
    eq_refl Hh ltac:(done) ltac:(done) Hc ltac:(lia) ltac:(done) Hf) as (c' & d' & E & Hread).
  destruct (Hread 64 (one_sector 0) d' ltac:(done)) as (c'' & E'). exists c, d, c', d', c''. exact (conj E E').
Defined.
