(* ===== verification/Di.v ===== *)
(** The disc-interface (DI) bus as the two drivers that use it see it
    ([emu/gcode.c], [emu/fdrv.c]): a command is started by storing the command
    buffer, the transfer length and the control register, and completes when
    the start bit reads back clear.

    The bus itself is hardware, hence a class.  A command's reply says after how
    many polls the start bit clears (or that it never does), whether the error
    bit is then set, and what a DMA-in transfer left in the buffer.  CPU cache
    maintenance has no counterpart: memory is coherent here. *)

From S2P Require Import Prelude.

(** ** Registers *)

Definition DI_SR_BRKINTMASK : Z := Z.shiftl 1 5.
Definition DI_SR_TCINT : Z := Z.shiftl 1 4.
Definition DI_SR_TCINTMASK : Z := Z.shiftl 1 3.
Definition DI_SR_DEINT : Z := Z.shiftl 1 2.
Definition DI_SR_DEINTMASK : Z := Z.shiftl 1 1.
Definition DI_CR_RW : Z := Z.shiftl 1 2.
Definition DI_CR_DMA : Z := Z.shiftl 1 1.
Definition DI_CR_TSTART : Z := Z.shiftl 1 0.

(** What the driver stores before it starts a command: [DI_SR] and [DI_CVR] as
    written by [*_di_prepare], the three command words, the length, the control
    register and, for a transfer to the drive, the bytes sent. *)
Record di_request := mk_request {
  rq_sr : Z;
  rq_cmdbuf0 : Z;
  rq_cmdbuf1 : Z;
  rq_cmdbuf2 : Z;
  rq_length : Z;
  rq_cr : Z;
  rq_out : list Z
}.

Record di_reply := mk_reply {
  rp_busy : option N;       (* polls that still see the start bit; [None]: all *)
  rp_deint : bool;          (* the error bit once the command has completed *)
  rp_in : list Z            (* what a DMA-in transfer stored *)
}.

(** The state of the bus and the drive on it. *)
Class DiBus (B : Type) := di_start : di_request -> B -> di_reply * B.

(** The value [*_di_prepare] stores in [DI_SR]. *)
Definition di_prepare : Z :=
  Z.lor (Z.lor (Z.lor DI_SR_BRKINTMASK DI_SR_TCINTMASK) DI_SR_DEINT) DI_SR_DEINTMASK.

(** [while ((CR & TSTART) && --timeout);]: whether the loop leaves with a
    non-zero timeout. *)
Fixpoint di_poll (timeout : nat) (busy : option N) : bool :=
  match busy with
  | Some 0%N => true
  | _ => match timeout with
         | S ((S _) as t) => di_poll t (N.pred <$> busy)
         | _ => false
         end
  end.

Definition DI_TIMEOUT : nat := N.to_nat 1000000.

Definition di_completes (r : di_reply) : bool := di_poll DI_TIMEOUT (rp_busy r).

(** The bounded wait succeeds exactly when the start bit clears within the
    timeout. *)
Lemma di_poll_spec timeout busy :
  (0 < timeout)%nat ->
  di_poll timeout busy = match busy with
                         | Some k => bool_decide (N.to_nat k < timeout)%nat
                         | None => false
                         end.
Proof.
  revert busy. induction timeout as [|t IH]; intros busy Ht; [lia|]. cbn [di_poll].
  destruct busy as [[|k]|].
  - by rewrite bool_decide_true by lia.
  - destruct t as [|t].
    + by rewrite bool_decide_false by lia.
    + rewrite IH by lia. cbn. apply bool_decide_ext. lia.
  - destruct t as [|t]; [done|]. by rewrite IH by lia.
Qed.

Lemma di_completes_spec r :
  di_completes r = match rp_busy r with
                   | Some k => bool_decide (k < 1000000)%N
                   | None => false
                   end.
Proof.
  unfold di_completes, DI_TIMEOUT. rewrite di_poll_spec by lia.
  destruct (rp_busy r); [|done]. apply bool_decide_ext. lia.
Qed.

#[global] Opaque DI_TIMEOUT.
