(* ===== verification/Gcode.v ===== *)
(** The GC Loader backend, [emu/gcode.c]: detection over the DI bus with a
    cached answer, and sector reads by DMA, in bounded chunks when the
    destination is aligned and through a one-sector bounce buffer otherwise. *)

From S2P Require Import Prelude BlockDev Di.

Definition DVD_OEM_INQUIRY : Z := 0x12000000.
Definition DVD_GCODE_READ : Z := 0xB2000000.
Definition GCODE_REL_DATE : Z := 0x20196c64.
Definition GCODE_SECTOR_SIZE : Z := 512.
Definition GCODE_MAX_XFER : Z := 64 * 1024.
Definition GCODE_INIT_ATTEMPTS : nat := 40.

(** [sizeof(gcode_drvinfo)] and the offset of [rel_date] in it. *)
Definition gcode_drvinfo_size : nat := 32.
Definition gcode_drvinfo_rel_date (info : list Z) : Z := be32 info 4.

Section Gcode.
Context {B : Type} `{DiBus B}.

(** The module's statics and the bus below it. *)
Record gcode_state := mk_gcode {
  has_gcode : Z;                 (* -1 unknown, 0 absent, 1 present *)
  gc_bounce : list Z;            (* the bounce buffer of [gcode_sd_read] *)
  gc_bus : B
}.

Definition set_has_gcode (v : Z) (w : gcode_state) := mk_gcode v (gc_bounce w) (gc_bus w).
Definition set_gc_bus (b : B) (w : gcode_state) := mk_gcode (has_gcode w) (gc_bounce w) b.
Definition set_gc_bounce (bs : list Z) (w : gcode_state) :=
  mk_gcode (has_gcode w) bs (gc_bus w).

Definition gcode_inquiry : di_request :=
  mk_request di_prepare DVD_OEM_INQUIRY 0 0 (Z.of_nat gcode_drvinfo_size)
    (Z.lor DI_CR_DMA DI_CR_TSTART) [].

(** The retry loop of [gcode_sd_init]; running out of attempts is its last
    branch. *)
Fixpoint gcode_init_loop (attempts : nat) (w : gcode_state) : bool * gcode_state :=
  match attempts with
  | O => (false, set_has_gcode 0 w)
  | S attempts =>
      let '(r, b) := di_start gcode_inquiry (gc_bus w) in
      let w := set_gc_bus b w in
      let info := splice 0 (rp_in r) (replicate gcode_drvinfo_size 0) in
      if negb (di_completes r) then (false, set_has_gcode 0 w)
      else if negb (rp_deint r) && (gcode_drvinfo_rel_date info =? GCODE_REL_DATE)
      then (true, set_has_gcode 1 w)
      else gcode_init_loop attempts w
  end.

Definition gcode_sd_init (w : gcode_state) : bool * gcode_state :=
  if has_gcode w >=? 0 then (has_gcode w =? 1, w)
  else gcode_init_loop GCODE_INIT_ATTEMPTS w.

Definition gcode_read_request (sector bytes : Z) : di_request :=
  mk_request di_prepare DVD_GCODE_READ sector bytes bytes (Z.lor DI_CR_DMA DI_CR_TSTART) [].

(** [gcode_read_aligned]: success, what the DMA stored, the next state. *)
Definition gcode_read_aligned (sector bytes : Z) (w : gcode_state)
    : bool * list Z * gcode_state :=
  let '(r, b) := di_start (gcode_read_request sector bytes) (gc_bus w) in
  (di_completes r && negb (rp_deint r), rp_in r, set_gc_bus b w).

(** The chunk of one DMA; the product is a 32-bit one. *)
Definition gcode_chunk (count : Z) : Z :=
  if u32 (count * GCODE_SECTOR_SIZE) >? GCODE_MAX_XFER
  then GCODE_MAX_XFER / GCODE_SECTOR_SIZE else count.

(** The aligned loop; every iteration transfers at least one sector, so [count]
    iterations suffice.  [done] is how far [data] has advanced. *)
Fixpoint gcode_aligned_loop (fuel : nat) (sector count : Z) (buf : list Z) (done : nat)
    (w : gcode_state) : option (bool * list Z * gcode_state) :=
  if count >? 0 then
    match fuel with
    | O => None
    | S fuel =>
        let chunk := gcode_chunk count in
        let '(ok, bs, w) := gcode_read_aligned sector (u32 (chunk * GCODE_SECTOR_SIZE)) w in
        let buf := splice done bs buf in
        if negb ok then Some (false, buf, w)
        else gcode_aligned_loop fuel (u32 (sector + chunk)) (u32 (count - chunk)) buf
               (done + Z.to_nat (u32 (chunk * GCODE_SECTOR_SIZE)))%nat w
    end
  else Some (true, buf, w).

(** The bounce loop, [n] sectors from the [i]-th. *)
Fixpoint gcode_bounce_loop (n : nat) (sector : Z) (i : nat) (buf : list Z)
    (w : gcode_state) : bool * list Z * gcode_state :=
  match n with
  | O => (true, buf, w)
  | S n =>
      let '(ok, bs, w) := gcode_read_aligned (u32 (sector + Z.of_nat i)) GCODE_SECTOR_SIZE w in
      let w := set_gc_bounce (splice 0 bs (gc_bounce w)) w in
      if negb ok then (false, buf, w)
      else gcode_bounce_loop n sector (i + 1) (splice (i * 512) (gc_bounce w) buf) w
  end.

(** [data] is an address, for the alignment test, and the memory at it. *)
Definition gcode_sd_read (sector data : Z) (buf : list Z) (count : Z) (w : gcode_state)
    : option (bool * list Z * gcode_state) :=
  let '(ready, w) := if has_gcode w =? 1 then (true, w) else gcode_sd_init w in
  if negb ready then Some (false, buf, w)
  else if Z.land data 0x1F =? 0
  then gcode_aligned_loop (Z.to_nat count) sector count buf 0 w
  else Some (gcode_bounce_loop (Z.to_nat count) sector 0 buf w).

Definition gcode_sd_write (sector : Z) (data : list Z) (count : Z) (w : gcode_state)
    : bool * gcode_state := (false, w).
End Gcode.

Arguments gcode_state B : clear implicits.
