(* ===== verification/GcodeThms.v ===== *)
(** The GC Loader backend delivers the card's sectors: whatever the alignment
    of the destination, the transfer is cut into bounded DMA commands whose
    pieces are exactly the requested run; detection is decided once. *)

From S2P Require Import Prelude BlockDev Di Gcode.

(** What a GC Loader answers to the two commands this driver issues. *)
Class GcLoader (B : Type) `{DiBus B} := {
  card : B -> Z -> list Z;
  card_len : forall b s, length (card b s) = SECTOR_SZ;
  card_pres : forall rq b r b', di_start rq b = (r, b') -> card b' = card b;
  dma_len : forall rq b r b', di_start rq b = (r, b') ->
    (length (rp_in r) <= Z.to_nat (rq_length rq))%nat;
  gcode_read_law : forall b s (n : nat) r b',
    0 <= s -> s + Z.of_nat n <= 2 ^ 32 -> Z.of_nat n <= 128 ->
    di_start (gcode_read_request s (Z.of_nat n * 512)) b = (r, b') ->
    rp_busy r <> None -> rp_deint r = false ->
    rp_in r = pieces (fun i => card b (s + Z.of_nat i)) n
}.

(** ** Reads *)

Section Reads.
Context {B : Type} `{GcLoader B}.
Implicit Types (w : gcode_state B) (buf : list Z).

Definition run (b : B) (s : Z) (n : nat) : list Z :=
  pieces (fun i => card b (s + Z.of_nat i)) n.

Lemma length_run b s n : length (run b s n) = (n * 512)%nat.
Proof. apply (length_pieces _ 512). intros. apply card_len. Qed.

Lemma run_add b s n m : run b s (n + m) = run b s n ++ run b (s + Z.of_nat n) m.
Proof.
  unfold run. rewrite pieces_add. f_equal. apply pieces_ext. intros. f_equal. lia.
Qed.

Lemma run_card b b' s n : card b' = card b -> run b' s n = run b s n.
Proof. unfold run. by intros ->. Qed.

Lemma aligned_spec s (n : nat) w ok bs w' :
  0 <= s -> s + Z.of_nat n <= 2 ^ 32 -> Z.of_nat n <= 128 ->
  gcode_read_aligned s (Z.of_nat n * 512) w = (ok, bs, w') ->
  card (gc_bus w') = card (gc_bus w) /\ (length bs <= n * 512)%nat
  /\ gc_bounce w' = gc_bounce w /\ has_gcode w' = has_gcode w
  /\ (ok = true -> bs = run (gc_bus w) s n).
Proof.
  intros Hs Hr Hn. unfold gcode_read_aligned.
  destruct (di_start _ _) as [r b] eqn:E. intros [= <- <- <-]. split_all.
  - by apply (card_pres _ _ _ _ E).
  - apply dma_len in E. cbn in E. lia.
  - intros [Hc He]%andb_prop. apply (gcode_read_law _ _ _ _ _ Hs Hr Hn E).
    + rewrite di_completes_spec in Hc. by destruct (rp_busy r).
    + by destruct (rp_deint r).
Qed.

(** The state of either loop after [k] of [n] sectors. *)
Definition after_sectors (b : B) s (k : nat) buf : list Z := splice 0 (run b s k) buf.

Lemma after_more b s k m buf :
  ((k + m) * 512 <= length buf)%nat ->
  splice (k * 512) (run b (s + Z.of_nat k) m) (after_sectors b s k buf)
  = after_sectors b s (k + m) buf.
Proof.
  intros. unfold after_sectors. rewrite run_add, <- splice_splice_adj
    by (rewrite !length_run; lia). by rewrite length_run.
Qed.

Lemma length_after b s k buf :
  (k * 512 <= length buf)%nat -> length (after_sectors b s k buf) = length buf.
Proof. intros. apply length_splice. by rewrite length_run. Qed.

Lemma chunk_spec (n : Z) : 0 < n < 2 ^ 23 -> 0 < gcode_chunk n <= Z.min n 128.
Proof.
  intros. unfold gcode_chunk, GCODE_SECTOR_SIZE, GCODE_MAX_XFER.
  rewrite u32_small by lia. change (64 * 1024 / 512) with 128. bcase; lia.
Qed.

(** What a finished transfer means. *)
Definition gcode_post (b0 : B) s (n : nat) buf (res : bool * list Z * gcode_state B) : Prop :=
  let '(ok, buf', w) := res in
  card (gc_bus w) = card b0 /\ length buf' = length buf
  /\ (ok = true -> buf' = splice 0 (run b0 s n) buf).

Lemma aligned_loop_spec b0 s (n : nat) buf fuel : forall w k,
  0 <= s -> s + Z.of_nat n <= 2 ^ 32 -> Z.of_nat n < 2 ^ 23 -> (n * 512 <= length buf)%nat ->
  (k <= n)%nat -> (n - k <= fuel)%nat -> card (gc_bus w) = card b0 ->
  exists res, gcode_aligned_loop fuel (u32 (s + Z.of_nat k)) (Z.of_nat n - Z.of_nat k)
                (after_sectors b0 s k buf) (k * 512) w = Some res
              /\ gcode_post b0 s n buf res.
Proof.
  induction fuel as [|fuel IH]; intros w k Hs Hr Hn Hbuf Hk Hf Hc; cbn [gcode_aligned_loop];
    destruct (Z.gtb_spec (Z.of_nat n - Z.of_nat k) 0) as [Hgt|Hle]; try lia.
  1, 3: assert (k = n) as -> by lia; eexists; split; [reflexivity|]; cbn; split_all;
    by apply length_after.
  pose proof (chunk_spec (Z.of_nat n - Z.of_nat k) ltac:(lia)) as Hch.
  set (m := gcode_chunk _) in *.
  assert (exists q, m = Z.of_nat q) as [q Eq] by (exists (Z.to_nat m); lia).
  assert (Em : u32 (m * GCODE_SECTOR_SIZE) = Z.of_nat q * 512)
    by (unfold GCODE_SECTOR_SIZE; rewrite u32_small; lia).
  rewrite Em, (u32_small (s + Z.of_nat k)) by lia.
  destruct (gcode_read_aligned (s + Z.of_nat k) (Z.of_nat q * 512) w) as [[ok bs] w'] eqn:E.
  apply aligned_spec in E as (Hc' & Hlen & _ & _ & Hok); [|lia..].
  destruct ok; cbn [negb].
  - specialize (Hok eq_refl). rewrite (run_card b0 (gc_bus w)) in Hok by done. rewrite Hok.
    rewrite after_more by nia.
    replace (k * 512 + Z.to_nat (Z.of_nat q * 512))%nat with ((k + q) * 512)%nat by lia.
    rewrite (u32_small (_ - m)) by lia.
    replace (Z.of_nat n - Z.of_nat k - m) with (Z.of_nat n - Z.of_nat (k + q)) by lia.
    replace (s + Z.of_nat k + m) with (s + Z.of_nat (k + q)) by lia.
    apply IH; try done; try lia. congruence.
  - eexists. split; [reflexivity|]. cbn. split; [congruence|]. split; [|done].
    rewrite length_splice; [by apply length_after; lia|]. rewrite length_after by lia. nia.
Qed.

Lemma bounce_loop_spec b0 s (n : nat) buf : forall m w k,
  0 <= s -> s + Z.of_nat n <= 2 ^ 32 -> (n * 512 <= length buf)%nat ->
  (k + m = n)%nat -> card (gc_bus w) = card b0 -> length (gc_bounce w) = 512%nat ->
  gcode_post b0 s n buf (gcode_bounce_loop m s k (after_sectors b0 s k buf) w).
Proof.
  induction m as [|m IH]; intros w k Hs Hr Hbuf Hk Hc Hbl; cbn [gcode_bounce_loop].
  { replace k with n by lia. cbn. split_all. by apply length_after. }
  rewrite u32_small by lia.
  change GCODE_SECTOR_SIZE with (Z.of_nat 1 * 512).
  destruct (gcode_read_aligned (s + Z.of_nat k) (Z.of_nat 1 * 512) w) as [[ok bs] w'] eqn:E.
  apply aligned_spec in E as (Hc' & Hlen & Hbo & _ & Hok); [|lia..].
  destruct ok; cbn [negb].
  - specialize (Hok eq_refl). rewrite (run_card b0 (gc_bus w)) in Hok by done.
    assert (Eb : splice 0 bs (gc_bounce w') = run b0 (s + Z.of_nat k) 1).
    { assert (El : length bs = 512%nat) by (rewrite Hok; apply length_run).
      unfold splice. rewrite Hbo, drop_ge by lia. cbn. by rewrite app_nil_r. }
    cbn [gc_bounce set_gc_bounce]. rewrite Eb, after_more by lia.
    apply IH; try done; try lia.
    + change (card (gc_bus w') = card b0). congruence.
    + apply (length_run b0 (s + Z.of_nat k) 1).
  - cbn. split; [congruence|]. split; [|done]. by apply length_after; lia.
Qed.

(** Detection touches the bus only by inquiries. *)
Lemma init_loop_frame n w ok w' :
  gcode_init_loop n w = (ok, w') ->
  card (gc_bus w') = card (gc_bus w) /\ gc_bounce w' = gc_bounce w
  /\ has_gcode w' = if ok then 1 else 0.
Proof.
  revert w. induction n as [|n IH]; intros w; cbn [gcode_init_loop].
  { by intros [= <- <-]. }
  destruct (di_start _ _) as [r b] eqn:E. apply card_pres in E.
  destruct (negb (di_completes r)); [intros [= <- <-]; by cbn|].
  destruct (_ && _); [intros [= <- <-]; by cbn|].
  intros Hl. apply IH in Hl as (Hc & Hb & Hh). cbn in *. split_all. congruence.
Qed.

Lemma init_frame w ok w' :
  gcode_sd_init w = (ok, w') ->
  card (gc_bus w') = card (gc_bus w) /\ gc_bounce w' = gc_bounce w.
Proof.
  unfold gcode_sd_init. destruct (_ >=? _); [by intros [= <- <-]|].
  intros Hl. apply init_loop_frame in Hl. tauto.
Qed.

(** A read terminates, keeps the size of the memory it was given, does not
    change the card, and on success has delivered its sectors. *)
Lemma gcode_sd_read_spec s addr buf (n : nat) w :
  0 <= s -> s + Z.of_nat n <= 2 ^ 32 -> Z.of_nat n < 2 ^ 23 -> (n * 512 <= length buf)%nat ->
  length (gc_bounce w) = 512%nat ->
  exists res, gcode_sd_read s addr buf (Z.of_nat n) w = Some res
    /\ gcode_post (gc_bus w) s n buf res.
Proof.
  intros Hs Hr Hn Hbuf Hbl. unfold gcode_sd_read.
  assert (Hin : exists ok w1, (if has_gcode w =? 1 then (true, w) else gcode_sd_init w) = (ok, w1)
    /\ card (gc_bus w1) = card (gc_bus w) /\ gc_bounce w1 = gc_bounce w).
  { destruct (has_gcode w =? 1); [by exists true, w|].
    destruct (gcode_sd_init w) as [ok w1] eqn:E. exists ok, w1. split; [done|].
    by apply init_frame in E. }
  destruct Hin as (ok & w1 & -> & Hc & Hb). destruct ok; cbn [negb].
  2: { eexists. split; [reflexivity|]. by cbn. }
  assert (E0 : after_sectors (gc_bus w) s 0 buf = buf) by (apply splice_nil; lia).
  rewrite Nat2Z.id. case_match.
  - pose proof (aligned_loop_spec (gc_bus w) s n buf n w1 0 Hs Hr Hn Hbuf ltac:(lia) ltac:(lia) Hc)
      as Hl. rewrite E0, Z.add_0_r, Z.sub_0_r in Hl.
    destruct (decide (n = 0)%nat) as [->|]; [exact Hl|]. by rewrite u32_small in Hl by lia.
  - eexists. split; [reflexivity|]. rewrite <- E0 at 2.
    apply bounce_loop_spec; try done. congruence.
Qed.
End Reads.

(** ** Detection *)

Section Detection.
Context {B : Type} `{DiBus B}.
Implicit Types w : gcode_state B.

Lemma init_loop_decides n w : 
  has_gcode (gcode_init_loop n w).2 = if (gcode_init_loop n w).1 then 1 else 0.
Proof.
  revert w. induction n as [|n IH]; intros w; cbn [gcode_init_loop]; [done|].
  destruct (di_start _ _) as [r b].
  destruct (negb (di_completes r)); [done|]. destruct (_ && _); [done|]. apply IH.
Qed.

(** The reply of a loader that is up. *)
Definition is_loader (r : di_reply) : bool :=
  negb (rp_deint r)
  && (gcode_drvinfo_rel_date (splice 0 (rp_in r) (replicate gcode_drvinfo_size 0))
      =? GCODE_REL_DATE).

(** [answers n b]: the first [n] inquiries complete without identifying a
    loader, the next one identifies it. *)
Fixpoint answers (n : nat) (b : B) : Prop :=
  let '(r, b') := di_start gcode_inquiry b in
  di_completes r = true /\
  match n with
  | O => is_loader r = true
  | S n => is_loader r = false /\ answers n b'
  end.

Lemma init_loop_finds m n w :
  (n < m)%nat -> answers n (gc_bus w) -> (gcode_init_loop m w).1 = true.
Proof.
  revert n w. induction m as [|m IH]; intros n w Hn Ha; [lia|]. cbn [gcode_init_loop].
  destruct n as [|n]; cbn [answers] in Ha; destruct (di_start _ _) as [r b];
    destruct Ha as [-> Ha]; cbn [negb]; unfold is_loader in Ha.
  - by rewrite Ha.
  - destruct Ha as [Ha1 Ha]. rewrite Ha1. apply (IH n); [lia|done].
Qed.

(** Detection is decided by the first call and final: a loader that comes up
    within the forty attempts is found; whatever the outcome, every later call
    gives the same answer and issues no command. *)
Theorem gcode_detection_final w n :
  has_gcode w = -1 ->
  let '(ok, w1) := gcode_sd_init w in
  gcode_sd_init w1 = (ok, w1)
  /\ ((n < GCODE_INIT_ATTEMPTS)%nat -> answers n (gc_bus w) -> ok = true).
Proof.
  intros Hh. unfold gcode_sd_init at 1. rewrite Hh. change (-1 >=? 0) with false. cbv iota.
  pose proof (init_loop_decides GCODE_INIT_ATTEMPTS w) as Hd.
  pose proof (init_loop_finds GCODE_INIT_ATTEMPTS n w) as Hf.
  destruct (gcode_init_loop GCODE_INIT_ATTEMPTS w) as [ok w1]. cbn [fst snd] in Hd, Hf. cbv beta iota. split; [|done].
  unfold gcode_sd_init. rewrite Hd. by destruct ok.
Qed.
End Detection.

(** C5. A read from the loader terminates for every request that fits the
    address space and lies on the card, does not change the card, and when it
    reports success the memory holds exactly the requested sectors, whatever
    the alignment of the destination and however the transfer was cut. *)
Theorem gcode_reads_the_card {B} `{GcLoader B} (w : gcode_state B) s addr buf (n : nat) :
  in_range s (Z.of_nat n) -> (n * 512 <= length buf)%nat -> length (gc_bounce w) = 512%nat ->
  exists ok buf' w', gcode_sd_read s addr buf (Z.of_nat n) w = Some (ok, buf', w')
    /\ card (gc_bus w') = card (gc_bus w)
    /\ length buf' = length buf
    /\ (ok = true -> buf' = splice 0 (run (gc_bus w) s n) buf).
Proof.
  intros (Hs & [_ Hn] & Hr) Hbuf Hbl.
  destruct (gcode_sd_read_spec s addr buf n w Hs Hr Hn Hbuf Hbl) as ([[ok buf'] w'] & E & Hp).
  exists ok, buf', w'. done.
Qed.

(** ** A simulated loader *)

(** It fails the inquiry a number of times, then answers; its sectors hold their
    own number. *)
Definition sim_reply (rq : di_request) (delay : nat) : di_reply :=
  if rq_cmdbuf0 rq =? DVD_GCODE_READ
  then mk_reply (Some 3%N) false
         (pieces (fun i => replicate 512 (u8 (rq_cmdbuf1 rq + Z.of_nat i)))
                 (Z.to_nat (rq_length rq / 512)))
  else match delay with
       | O => mk_reply (Some 3%N) false ([0; 0; 0; 0] ++ be32_bytes GCODE_REL_DATE)
       | S _ => mk_reply (Some 3%N) true []
       end.

Definition sim_loader : Type := nat.
#[export] Instance sim_bus : DiBus sim_loader :=
  fun rq b => if (length (rp_in (sim_reply rq b)) <=? Z.to_nat (rq_length rq))%nat
              then (sim_reply rq b, pred b) else (mk_reply None false [], b).

#[export, refine] Instance sim_gcloader : GcLoader sim_loader := {
  card _ s := replicate SECTOR_SZ (u8 s)
}.
Proof.
  - intros. apply length_replicate.
  - done.
  - intros rq b r b'. unfold di_start, sim_bus.
    destruct (Nat.leb_spec (length (rp_in (sim_reply rq b))) (Z.to_nat (rq_length rq)));
      intros [= <- <-]; [done|cbn; lia].
  - intros b s n r b' Hs Hr Hn. unfold di_start, sim_bus.
    destruct (_ <=? _)%nat; intros [= <- <-]; [|done]. intros _ _.
    cbn. rewrite Z.div_mul, Nat2Z.id by lia. done.
Defined.

Lemma gcode_detection_final_witness :
  let w := mk_gcode (-1) [] (2%nat : sim_loader) in
  let '(ok, w1) := gcode_sd_init w in gcode_sd_init w1 = (ok, w1) /\ ok = true.
Proof.
  pose proof (gcode_detection_final (mk_gcode (-1) [] (2%nat : sim_loader)) 2 eq_refl) as Hd.
  cbv zeta. destruct (gcode_sd_init _) as [ok w1]. destruct Hd as [? Hd]. split; [done|].
  apply Hd; [unfold GCODE_INIT_ATTEMPTS; lia|]. cbn -[di_completes is_loader].
  rewrite !di_completes_spec. vm_compute. tauto.
Defined.

Lemma gcode_reads_the_card_witness :
  let w := mk_gcode 1 (replicate 512 0) (0%nat : sim_loader) in
  exists ok buf' w', gcode_sd_read 5 33 (replicate 1024 0) (Z.of_nat 2) w = Some (ok, buf', w')
    /\ (ok = true -> buf' = splice 0 (run (gc_bus w) 5 2) (replicate 1024 0)).
Proof.
  intros w.
  destruct (gcode_reads_the_card w 5 33 (replicate 1024 0) 2) as (ok & buf' & w' & ? & _ & _ & ?);
    [done|vm_compute; lia|done|]. by exists ok, buf', w'.
Defined.
