(* ===== verification/Exi.v ===== *)
(** The EXI bus as the storage drivers use it ([emu/ata.c], [emu/tsd.c], IPL
    build).  A channel is driven either through the retail IPL's driver
    ([EXILock], [EXISelect], [EXIImmEx], ... reached by function pointers) or,
    once the memory holding that driver has been wiped, through the raw
    registers [EXI[chn][0..4]].  Both are outside the repository, hence a
    class; an operation that waits for the hardware may never return. *)

From S2P Require Import Prelude.
#[local] Open Scope prog_scope.

Definition EXI_READ : Z := 0.
Definition EXI_WRITE : Z := 1.
Definition EXI_READ_WRITE : Z := 2.

Record exi_port := mk_port { chn : Z; dev : Z }.

Class ExiBus (X : Type) := {
  (* the retail driver *)
  EXILock : Z -> Z -> M X bool;
  EXIUnlock : Z -> M X unit;
  EXISelect : Z -> Z -> Z -> M X bool;
  EXIDeselect : Z -> M X unit;
  EXIImmEx : Z -> list Z -> Z -> M X (bool * list Z);
  (* the registers: [EXI[chn][0]], and one transfer started by a store to
     [EXI[chn][3]] with the data of [EXI[chn][4]], or the DMA registers *)
  exi_csr : Z -> X -> Z;
  exi_set_csr : Z -> Z -> X -> X;
  exi_start_imm : Z -> Z -> Z -> M X Z;
  exi_start_dma : Z -> Z -> Z -> X -> option N * list Z * X
}.

(** [while ((EXI[chn][3] & 1) && --timeout);] after a DMA start. *)
Fixpoint exi_poll (timeout : nat) (busy : option N) : bool :=
  match busy with
  | Some 0%N => true
  | _ => match timeout with
         | S ((S _) as t) => exi_poll t (N.pred <$> busy)
         | _ => false
         end
  end.

Lemma exi_poll_None t : exi_poll t None = false.
Proof. induction t as [|[|t] IH]; done. Qed.
