(* ===== verification/Ata.v ===== *)
(** The IDE-EXI backend, [emu/ata.c] (IPL build): ATA task-file access over
    EXI transactions, detection, and sector reads with retries. *)

From S2P Require Import Prelude Exi.
#[local] Open Scope prog_scope.

Definition ATA_REG_DATA : Z := 0x10.
Definition ATA_REG_ERROR : Z := 0x11.
Definition ATA_REG_SECCOUNT : Z := 0x12.
Definition ATA_REG_LBALO : Z := 0x13.
Definition ATA_REG_LBAMID : Z := 0x14.
Definition ATA_REG_LBAHI : Z := 0x15.
Definition ATA_REG_DEVICE : Z := 0x16.
Definition ATA_REG_COMMAND : Z := 0x17.
Definition ATA_REG_STATUS : Z := 0x17.
Definition ATA_REG_DEVCTRL : Z := 0x0E.
Definition ATA_DCR_SRST : Z := 0x04.
Definition ATA_DCR_NIEN : Z := 0x02.
Definition ATA_CMD_IDENTIFY : Z := 0xEC.
Definition ATA_CMD_READSECT : Z := 0x21.
Definition ATA_CMD_READSECTEXT : Z := 0x24.
Definition ATA_SR_BSY : Z := 0x80.
Definition ATA_SR_DRDY : Z := 0x40.
Definition ATA_SR_DRQ : Z := 0x08.
Definition ATA_SR_ERR : Z := 0x01.
Definition ATA_HEAD_USE_LBA : Z := 0x40.
Definition ATA_EXI_FREQ : Z := 5.
Definition ATA_READ_RETRIES : nat := 4.
Definition ATA_NUM_CHN : Z := 3.
(** The poll cap of [ata_wait] and the DMA timeout. *)
Definition ata_wait_polls : nat := N.to_nat 100000.
Definition ata_dma_timeout : nat := N.to_nat 1000000.

Section Ata.
Context {X : Type} `{ExiBus X}.

Record ata_state := mk_ata {
  ata_lba48 : list bool;      (* one per channel *)
  ata_native : bool;
  ata_buf : list Z;           (* the bounce buffer of [ata_rd_buffer] *)
  ata_bus : X
}.

Definition on_bus {A} (m : M X A) : M ata_state A := fun w =>
  match m (ata_bus w) with
  | Some (a, x) => Some (a, mk_ata (ata_lba48 w) (ata_native w) (ata_buf w) x)
  | None => None
  end.
Definition bus_csr (c : Z) (f : Z -> Z) : M ata_state unit := fun w =>
  Some (tt, mk_ata (ata_lba48 w) (ata_native w) (ata_buf w)
              (exi_set_csr c (f (exi_csr c (ata_bus w))) (ata_bus w))).

Definition ata_set_native (native : bool) : M ata_state unit := fun w =>
  Some (tt, mk_ata (ata_lba48 w) native (ata_buf w) (ata_bus w)).

Definition ata_select (port : exi_port) : M ata_state bool :=
  w <- get ;;
  if ata_native w then
    bus_csr (chn port) (fun v =>
      Z.lor (Z.lor (Z.land v 0x405) (Z.shiftl (Z.shiftl 1 (dev port)) 7))
            (Z.shiftl ATA_EXI_FREQ 4)) ;;
    ret true
  else
    l <- on_bus (EXILock (chn port) (dev port)) ;;
    if negb l then ret false else
    s <- on_bus (EXISelect (chn port) (dev port) ATA_EXI_FREQ) ;;
    if negb s then on_bus (EXIUnlock (chn port)) ;; ret false
    else ret true.

Definition ata_deselect (port : exi_port) : M ata_state unit :=
  w <- get ;;
  if ata_native w then bus_csr (chn port) (fun v => Z.land v 0x405)
  else on_bus (EXIDeselect (chn port)) ;; on_bus (EXIUnlock (chn port)).

(** [val] is a big-endian word in memory, of which [EXIImmEx] transfers the
    first [len] bytes. *)
Definition ata_imm (port : exi_port) (val len mode : Z) : M ata_state Z :=
  w <- get ;;
  if ata_native w then
    on_bus (exi_start_imm (chn port) val
              (Z.lor (Z.lor (Z.shiftl (len - 1) 4) (Z.shiftl mode 2)) 1))
  else
    '(_, bs) <- on_bus (EXIImmEx (chn port) (take (Z.to_nat len) (be32_bytes val)) mode) ;;
    ret (be32 (splice 0 bs (be32_bytes val)) 0).

Definition ata_rd8 (port : exi_port) (reg : Z) : M ata_state Z :=
  s <- ata_select port ;;
  if negb s then ret 0xFF else
  ata_imm port (u32 (Z.shiftl reg 24)) 2 EXI_WRITE ;;
  r <- ata_imm port 0 1 EXI_READ ;;
  ata_deselect port ;;
  ret (u8 (Z.shiftr r 24)).

Definition ata_wr8 (port : exi_port) (reg val : Z) : M ata_state unit :=
  s <- ata_select port ;;
  if negb s then ret tt else
  ata_imm port (Z.lor (Z.lor 0x80000000 (u32 (Z.shiftl reg 24))) (u32 (Z.shiftl val 16)))
    3 EXI_WRITE ;;
  ata_deselect port.

(** [ata_rd_buffer]: the 512 bytes, or [None] on failure. *)
Definition ata_rd_buffer (port : exi_port) : M ata_state (option (list Z)) :=
  s <- ata_select port ;;
  if negb s then ret None else
  let dwords := 128 in
  let cmd := Z.lor (Z.lor 0x70000000 (Z.shiftl (Z.land dwords 0xff) 16))
                   (Z.shiftl (Z.land (Z.shiftr dwords 8) 0xff) 8) in
  ata_imm port cmd 4 EXI_WRITE ;;
  w <- get ;;
  let '(busy, bs, x) := exi_start_dma (chn port) 512 (Z.lor (Z.shiftl 1 1) 1) (ata_bus w) in
  put (mk_ata (ata_lba48 w) (ata_native w) (splice 0 bs (ata_buf w)) x) ;;
  ata_deselect port ;;
  w <- get ;;
  ret (if exi_poll ata_dma_timeout busy then Some (ata_buf w) else None).

Fixpoint ata_wait_loop (polls : nat) (port : exi_port) (mask want : Z) : M ata_state bool :=
  match polls with
  | O => ret false
  | S polls =>
      st <- ata_rd8 port ATA_REG_STATUS ;;
      if st =? 0xFF then ret false
      else if Z.land st mask =? want then ret true
      else ata_wait_loop polls port mask want
  end.

Definition ata_wait (port : exi_port) (mask want : Z) : M ata_state bool :=
  ata_wait_loop ata_wait_polls port mask want.

Definition ata_soft_reset (port : exi_port) : M ata_state unit :=
  ata_wr8 port ATA_REG_DEVCTRL (Z.lor ATA_DCR_SRST ATA_DCR_NIEN) ;;
  ata_wr8 port ATA_REG_DEVCTRL ATA_DCR_NIEN ;;
  ata_wait port ATA_SR_BSY 0 ;; ret tt.

(** 16-bit word [k] of the IDENTIFY block. *)
Definition id_word (id : list Z) (k : nat) : Z := nth (2 * k) id 0 * 256 + nth (2 * k + 1) id 0.

Definition ata_init (port : exi_port) : M ata_state bool :=
  if chn port >=? ATA_NUM_CHN then ret false else
  ata_wr8 port ATA_REG_DEVICE ATA_HEAD_USE_LBA ;;
  ok <- ata_wait port ATA_SR_BSY 0 ;;
  if negb ok then ret false else
  ata_wr8 port ATA_REG_COMMAND ATA_CMD_IDENTIFY ;;
  ok <- ata_wait port (Z.lor ATA_SR_BSY ATA_SR_DRQ) ATA_SR_DRQ ;;
  if negb ok then ret false else
  st <- ata_rd8 port ATA_REG_STATUS ;;
  if negb (Z.land st ATA_SR_ERR =? 0) then ret false else
  r <- ata_rd_buffer port ;;
  match r with
  | None => ret false
  | Some id =>
      modify (fun w => mk_ata
        (<[Z.to_nat (chn port) :=
            negb (Z.land (id_word id 83) (Z.shiftl 1 10) =? 0) || (id_word id 0 =? 0)]>
           (ata_lba48 w)) (ata_native w) (ata_buf w) (ata_bus w)) ;;
      ret true
  end.

(** The register writes that start a one-sector read. *)
Definition ata_taskfile (lba48 : bool) (lba : Z) : list (Z * Z) :=
  if lba48 then
    [(ATA_REG_DEVICE, ATA_HEAD_USE_LBA);
     (ATA_REG_SECCOUNT, 0);
     (ATA_REG_LBALO, Z.land (Z.shiftr lba 24) 0xFF);
     (ATA_REG_LBAMID, 0);
     (ATA_REG_LBAHI, 0);
     (ATA_REG_SECCOUNT, 1);
     (ATA_REG_LBALO, Z.land lba 0xFF);
     (ATA_REG_LBAMID, Z.land (Z.shiftr lba 8) 0xFF);
     (ATA_REG_LBAHI, Z.land (Z.shiftr lba 16) 0xFF);
     (ATA_REG_COMMAND, ATA_CMD_READSECTEXT)]
  else
    [(ATA_REG_DEVICE, Z.lor ATA_HEAD_USE_LBA (Z.land (Z.shiftr lba 24) 0x0F));
     (ATA_REG_SECCOUNT, 1);
     (ATA_REG_LBALO, Z.land lba 0xFF);
     (ATA_REG_LBAMID, Z.land (Z.shiftr lba 8) 0xFF);
     (ATA_REG_LBAHI, Z.land (Z.shiftr lba 16) 0xFF);
     (ATA_REG_COMMAND, ATA_CMD_READSECT)].

Fixpoint ata_wr_all (port : exi_port) (l : list (Z * Z)) : M ata_state unit :=
  match l with
  | [] => ret tt
  | (reg, val) :: l => ata_wr8 port reg val ;; ata_wr_all port l
  end.

(** The sector read, or [None] on failure. *)
Definition ata_read_one (port : exi_port) (lba : Z) : M ata_state (option (list Z)) :=
  ok <- ata_wait port ATA_SR_BSY 0 ;;
  if negb ok then ret None else
  w <- get ;;
  ata_wr_all port (ata_taskfile (nth (Z.to_nat (chn port)) (ata_lba48 w) false) lba) ;;
  ok <- ata_wait port (Z.lor ATA_SR_BSY ATA_SR_DRQ) ATA_SR_DRQ ;;
  if negb ok then ret None else
  st <- ata_rd8 port ATA_REG_STATUS ;;
  if negb (Z.land st ATA_SR_ERR =? 0) then ret None else
  ata_rd_buffer port.

(** The attempts at one sector; [first] is [t == 0]. *)
Fixpoint ata_attempts (n : nat) (first : bool) (port : exi_port) (lba : Z)
    : M ata_state (option (list Z)) :=
  match n with
  | O => ret None
  | S n =>
      (if first then ret tt else ata_soft_reset port) ;;
      r <- ata_read_one port lba ;;
      match r with
      | Some bs => ret (Some bs)
      | None => ata_attempts n false port lba
      end
  end.

(** [ata_read] from the [i]-th of the sectors; [data] is the memory it fills. *)
Fixpoint ata_read_loop (n : nat) (port : exi_port) (sector : Z) (i : nat) (data : list Z)
    : M ata_state (bool * list Z) :=
  match n with
  | O => ret (true, data)
  | S n =>
      r <- ata_attempts ATA_READ_RETRIES true port (u32 (sector + Z.of_nat i)) ;;
      match r with
      | None => ret (false, data)
      | Some bs => ata_read_loop n port sector (i + 1) (splice (i * 512) bs data)
      end
  end.

Definition ata_read (port : exi_port) (sector : Z) (data : list Z) (count : Z)
    : M ata_state (bool * list Z) :=
  ata_read_loop (Z.to_nat count) port sector 0 data.

Definition ata_write (port : exi_port) (sector : Z) (data : list Z) (count : Z)
    : M ata_state bool := ret false.
End Ata.

Arguments ata_state X : clear implicits.

#[global] Opaque ata_wait_polls ata_dma_timeout.
