(* ===== verification/AtaThms.v ===== *)
(** The IDE-EXI backend reads the drive: the task-file writes it issues encode
    the requested sector in both addressing modes, and a read that succeeds has
    delivered the drive's sectors, through either EXI path and whatever
    attempts failed on the way. *)

From S2P Require Import Prelude Bits BlockDev Exi Ata.
#[local] Open Scope prog_scope.

(** ** The task file as a drive decodes it *)

(** The values written to [reg], latest first. *)
Definition writes_to (reg : Z) (log : list (Z * Z)) : list Z :=
  snd <$> List.filter (fun rv => fst rv =? reg) log.

(** The sector a drive whose latest register writes are [log] (latest first)
    reads on its last command: the LBA registers hold two values each, of which
    the 28-bit command uses the latest. *)
Definition decode_read (log : list (Z * Z)) : option Z :=
  let w reg k := nth k (writes_to reg log) 0 in
  match log with
  | (reg, cmd) :: _ =>
      if negb (reg =? 0x17) then None
      else if negb (Z.land (w 0x16 0%nat) 0x40 =? 0x40) then None
      else if cmd =? 0x24 then
        if w 0x12 0%nat + w 0x12 1%nat * 2 ^ 8 =? 1
        then Some (w 0x13 0%nat + w 0x14 0%nat * 2 ^ 8 + w 0x15 0%nat * 2 ^ 16
                   + w 0x13 1%nat * 2 ^ 24 + w 0x14 1%nat * 2 ^ 32 + w 0x15 1%nat * 2 ^ 40)
        else None
      else if cmd =? 0x21 then
        if w 0x12 0%nat =? 1
        then Some (w 0x13 0%nat + w 0x14 0%nat * 2 ^ 8 + w 0x15 0%nat * 2 ^ 16
                   + Z.land (w 0x16 0%nat) 0x0F * 2 ^ 24)
        else None
      else None
  | [] => None
  end.

(** The sectors each addressing mode reaches. *)
Definition lba_ok (lba48 : bool) (lba : Z) : Prop :=
  0 <= lba < if lba48 then 2 ^ 32 else 2 ^ 28.

Lemma device_bits d :
  0 <= d < 16 -> Z.land (Z.lor 64 d) 64 = 64 /\ Z.lor 64 d mod 16 = d.
Proof.
  intros Hd. assert (Hall : forallb (fun k => (Z.land (Z.lor 64 k) 64 =? 64)
    && (Z.lor 64 k mod 16 =? k)) (Z.of_nat <$> seq 0 16) = true) by done.
  rewrite forallb_forall in Hall. specialize (Hall d).
  rewrite andb_true_iff, !Z.eqb_eq in Hall. apply Hall.
  apply list_elem_of_In, list_elem_of_fmap. exists (Z.to_nat d).
  rewrite elem_of_seq. lia.
Qed.

Lemma decode_taskfile lba48 lba log :
  lba_ok lba48 lba -> decode_read (reverse (ata_taskfile lba48 lba) ++ log) = Some lba.
Proof.
  unfold lba_ok. intros Hl. pose proof (word_bytes lba) as Hw.
  unfold decode_read, writes_to, ata_taskfile, ATA_REG_DEVICE, ATA_REG_SECCOUNT, ATA_REG_LBALO,
    ATA_REG_LBAMID, ATA_REG_LBAHI, ATA_REG_COMMAND, ATA_CMD_READSECT, ATA_CMD_READSECTEXT,
    ATA_HEAD_USE_LBA.
  destruct lba48; cbn.
  - f_equal. autorewrite with bits. pose proof (word_top lba Hl).
    rewrite (Z.mod_small (lba / 2 ^ 24)) by lia. lia.
  - assert (Ht : lba / 2 ^ 24 < 16) by (apply Z.div_lt_upper_bound; lia).
    assert (H0 : 0 <= lba / 2 ^ 24) by (apply Z.div_pos; lia).
    autorewrite with bits. rewrite (Z.mod_small (lba / 2 ^ 24)) by lia.
    destruct (device_bits (lba / 2 ^ 24)) as [-> ->]; [lia|]. cbn. f_equal. lia.
Qed.

(** ** The drive behind the bus *)

Definition imm_ctrl (len mode : Z) : Z := (len - 1) * 16 + mode * 4 + 1.

(** An IDE-EXI adapter with a drive.  [tf] is the history of its register
    writes, [drq] says that data for the latest command is available and [rdy]
    that, in addition, no error is flagged.  Bus bookkeeping leaves all of it
    alone (the channel is not contended: locking and selecting it succeed); the
    three transactions of the adapter's protocol act as documented, whichever
    way the bytes reach the bus. *)
Class IdeDrive (X : Type) `{ExiBus X} := {
  tf : X -> list (Z * Z);
  ide_sector : X -> Z -> list Z;
  drq : X -> Prop;
  rdy : X -> Prop;
  keeps x x' :=
    tf x' = tf x /\ ide_sector x' = ide_sector x /\ (drq x -> drq x') /\ (rdy x -> rdy x');
  wrote reg val x x' := tf x' = (reg, val) :: tf x /\ ide_sector x' = ide_sector x;
  status_read st x x' :=
    keeps x x' /\ (Z.land st 0x88 = 0x08 -> drq x')
    /\ (drq x -> Z.land st 0x01 = 0 -> rdy x');
  ide_sector_len : forall x lba, length (ide_sector x lba) = 512%nat;
  lock_law : forall c d x, wp (EXILock c d) (fun b x' => b = true /\ keeps x x') x;
  unlock_law : forall c x, wp (EXIUnlock c) (fun _ x' => keeps x x') x;
  select_law : forall c d f x, wp (EXISelect c d f) (fun b x' => b = true /\ keeps x x') x;
  deselect_law : forall c x, wp (EXIDeselect c) (fun _ x' => keeps x x') x;
  csr_law : forall c v x, keeps x (exi_set_csr c v x);
  (* register write: {0x80|reg, val, 0} *)
  write_raw_law : forall c reg val x, 0 <= reg < 0x80 -> 0 <= val < 0x100 ->
    wp (exi_start_imm c (0x80000000 + reg * 2 ^ 24 + val * 2 ^ 16) (imm_ctrl 3 EXI_WRITE))
       (fun _ x' => wrote reg val x x') x;
  write_lib_law : forall c reg val x, 0 <= reg < 0x80 -> 0 <= val < 0x100 ->
    wp (EXIImmEx c [0x80 + reg; val; 0] EXI_WRITE) (fun _ x' => wrote reg val x x') x;
  (* status read: {0x17, 0}, then one byte *)
  status_raw_law : forall c x,
    wp (exi_start_imm c (0x17 * 2 ^ 24) (imm_ctrl 2 EXI_WRITE) ;;
        exi_start_imm c 0 (imm_ctrl 1 EXI_READ))
       (fun r x' => status_read (u8 (r / 2 ^ 24)) x x') x;
  status_lib_law : forall c x,
    wp (EXIImmEx c [0x17; 0] EXI_WRITE ;; EXIImmEx c [0] EXI_READ)
       (fun r x' => exists st, r.2 = [st] /\ 0 <= st < 256 /\ status_read st x x') x;
  (* burst read: {0x70, 0x80, 0, 0}, then a 512-byte DMA *)
  burst_raw_law : forall c x,
    wp (exi_start_imm c 0x70800000 (imm_ctrl 4 EXI_WRITE)) (fun _ x' => keeps x x') x;
  burst_lib_law : forall c x,
    wp (EXIImmEx c [0x70; 0x80; 0; 0] EXI_WRITE) (fun _ x' => keeps x x') x;
  dma_law : forall c x busy bs x', exi_start_dma c 512 3 x = (busy, bs, x') ->
    keeps x x' /\ (length bs <= 512)%nat
    /\ forall lba, rdy x -> busy <> None -> decode_read (tf x) = Some lba ->
         bs = ide_sector x lba
}.

(** ** The driver over the drive *)

Section Drive.
Context {X : Type} `{IdeDrive X}.
Implicit Types (w : ata_state X) (x : X).

Lemma keeps_refl x : keeps x x.
Proof. by split_all. Qed.

Lemma keeps_trans x y z : keeps x y -> keeps y z -> keeps x z.
Proof. intros (? & ? & ? & ?) (? & ? & ? & ?). repeat split; try congruence; auto. Qed.

(** Everything of the driver's own state that a transaction leaves alone. *)
Definition own w w' : Prop :=
  ata_lba48 w' = ata_lba48 w /\ length (ata_buf w') = length (ata_buf w).

Lemma own_refl w : own w w.
Proof. done. Qed.
Lemma own_trans w1 w2 w3 : own w1 w2 -> own w2 w3 -> own w1 w3.
Proof. unfold own. intros [? ?] [? ?]. split; congruence. Qed.

Definition quiet w w' : Prop := keeps (ata_bus w) (ata_bus w') /\ own w w'.

Lemma quiet_refl w : quiet w w.
Proof. split; [apply keeps_refl|apply own_refl]. Qed.
Lemma quiet_trans w1 w2 w3 : quiet w1 w2 -> quiet w2 w3 -> quiet w1 w3.
Proof. intros [? ?] [? ?]. split; [by eapply keeps_trans|by eapply own_trans]. Qed.

Lemma wp_on_bus {A} (m : M X A) (Q : A -> ata_state X -> Prop) w :
  wp m (fun a x' => Q a (mk_ata (ata_lba48 w) (ata_native w) (ata_buf w) x')) (ata_bus w) ->
  wp (on_bus m) Q w.
Proof. unfold wp, on_bus. by destruct (m (ata_bus w)) as [[a x']|]. Qed.

Lemma on_bus_quiet {A} (m : M X A) w :
  wp m (fun _ x' => keeps (ata_bus w) x') (ata_bus w) ->
  wp (on_bus m) (fun _ w' => quiet w w' /\ ata_native w' = ata_native w
                             /\ ata_buf w' = ata_buf w) w.
Proof.
  intros Hm. apply wp_on_bus. eapply wp_mono; [exact Hm|]. intros a x' Hk.
  split; [|done]. split; [exact Hk|done].
Qed.

Lemma on_bus_true (m : M X bool) w :
  wp m (fun b x' => b = true /\ keeps (ata_bus w) x') (ata_bus w) ->
  wp (on_bus m) (fun b w' => b = true /\ quiet w w' /\ ata_native w' = ata_native w) w.
Proof.
  intros Hm. apply wp_on_bus. eapply wp_mono; [exact Hm|]. intros b x' [-> Hk].
  split; [done|]. split; [|done]. split; [exact Hk|done].
Qed.

(** Selecting and deselecting, on either path. *)
Lemma select_quiet port w :
  wp (ata_select port)
     (fun b w' => b = true /\ quiet w w' /\ ata_native w' = ata_native w) w.
Proof.
  unfold ata_select. apply wp_bind, wp_get. destruct (ata_native w) eqn:En.
  - apply wp_bind. unfold wp, bus_csr, ret; cbn. split; [done|].
    split; [|done]. split; [apply csr_law|done].
  - apply wp_bind. eapply wp_mono; [apply on_bus_true, lock_law|]. intros b w1 (-> & Hq1 & Hn1).
    rewrite En in Hn1. cbn [negb].
    apply wp_bind. eapply wp_mono; [apply on_bus_true, select_law|]. intros b w2 (-> & Hq2 & Hn2).
    apply wp_ret. split; [done|]. split; [by eapply quiet_trans|congruence].
Qed.

Lemma deselect_quiet port w :
  wp (ata_deselect port) (fun _ w' => quiet w w' /\ ata_buf w' = ata_buf w) w.
Proof.
  unfold ata_deselect. apply wp_bind, wp_get. destruct (ata_native w).
  - unfold wp, bus_csr; cbn. split; [|done]. split; [apply csr_law|done].
  - apply wp_bind. eapply wp_mono; [apply on_bus_quiet, deselect_law|]. intros _ w1 (Hq1 & _ & E1).
    eapply wp_mono; [apply on_bus_quiet, unlock_law|]. intros _ w2 (Hq2 & _ & E2).
    split; [by eapply quiet_trans|congruence].
Qed.

(** ** Transactions *)

Lemma imm_ctrl_eq len mode :
  (len, mode) ∈ [(1, 0); (2, 1); (3, 1); (4, 1)] ->
  Z.lor (Z.lor (Z.shiftl (len - 1) 4) (Z.shiftl mode 2)) 1 = imm_ctrl len mode.
Proof. intros Hin. repeat (apply elem_of_cons in Hin as [[= -> ->]|Hin]; [done|]). by apply not_elem_of_nil in Hin. Qed.

(** A transfer by either path, given what the bus does with the bytes. *)
Lemma imm_wp port val len mode (Q : Z -> ata_state X -> Prop) w :
  (len, mode) ∈ [(1, 0); (2, 1); (3, 1); (4, 1)] ->
  (ata_native w = true ->
   wp (exi_start_imm (chn port) val (imm_ctrl len mode))
      (fun r x' => Q r (mk_ata (ata_lba48 w) true (ata_buf w) x')) (ata_bus w)) ->
  (ata_native w = false ->
   wp (EXIImmEx (chn port) (take (Z.to_nat len) (be32_bytes val)) mode)
      (fun r x' => Q (be32 (splice 0 r.2 (be32_bytes val)) 0)
                     (mk_ata (ata_lba48 w) false (ata_buf w) x')) (ata_bus w)) ->
  wp (ata_imm port val len mode) Q w.
Proof.
  intros Hlm Hraw Hlib. unfold ata_imm. apply wp_bind, wp_get. destruct (ata_native w) eqn:En.
  - rewrite imm_ctrl_eq by done. apply wp_on_bus. rewrite En. by apply Hraw.
  - apply wp_bind, wp_on_bus. rewrite En. eapply wp_mono; [by apply Hlib|].
    intros [b bs] x'. by apply wp_ret.
Qed.

(** The first word of a transaction. *)
Lemma write_word reg val :
  0 <= reg < 0x80 -> 0 <= val < 0x100 ->
  Z.lor (Z.lor 0x80000000 (u32 (Z.shiftl reg 24))) (u32 (Z.shiftl val 16))
  = 0x80000000 + reg * 2 ^ 24 + val * 2 ^ 16.
Proof.
  intros. rewrite !shl, !u32_small by lia.
  change 0x80000000 with (1 * 2 ^ 31). rewrite lor_fields by lia.
  replace (1 * 2 ^ 31 + reg * 2 ^ 24) with ((128 + reg) * 2 ^ 24) by lia.
  rewrite lor_fields by lia. lia.
Qed.

Lemma write_word_bytes reg val :
  0 <= reg < 0x80 -> 0 <= val < 0x100 ->
  take 3 (be32_bytes (0x80000000 + reg * 2 ^ 24 + val * 2 ^ 16)) = [0x80 + reg; val; 0].
Proof.
  intros. unfold be32_bytes, u8; cbn [take]. rewrite !shr by lia. repeat f_equal; zdm.
Qed.

(** A register write reaches the drive. *)
Lemma wr8_wp port reg val w :
  0 <= reg < 0x80 -> 0 <= val < 0x100 ->
  wp (ata_wr8 port reg val)
     (fun _ w' => own w w' /\ wrote reg val (ata_bus w) (ata_bus w')) w.
Proof.
  intros Hr Hv. unfold ata_wr8. apply wp_bind.
  eapply wp_mono; [apply select_quiet|]. intros b w1 (-> & [Hk1 Ho1] & Hn1). cbn [negb].
  rewrite write_word by done. apply wp_bind.
  assert (Hfin : forall x, wrote reg val (ata_bus w1) x ->
    forall n, wp (ata_deselect port) (fun _ w' => own w w' /\ wrote reg val (ata_bus w) (ata_bus w'))
       (mk_ata (ata_lba48 w1) n (ata_buf w1) x)).
  { intros x [Ht Hs] n. eapply wp_mono; [apply deselect_quiet|]. intros _ w2 [[Hk2 Ho2] _].
    destruct Hk1 as (Et & Es & _), Hk2 as (Et2 & Es2 & _), Ho1, Ho2. cbn in *.
    split; [split; congruence|]. split; congruence. }
  apply imm_wp; [set_solver|intros _|intros _].
  - eapply wp_mono; [by apply write_raw_law|]. intros r x' Hw. by apply Hfin.
  - change (Z.to_nat 3) with 3%nat. rewrite write_word_bytes by done.
    eapply wp_mono; [by apply write_lib_law|]. intros r x' Hw. by apply Hfin.
Qed.

Lemma status_byte st :
  0 <= st < 256 -> u8 (Z.shiftr (be32 (splice 0 [st] (be32_bytes 0)) 0) 24) = st.
Proof.
  intros. unfold be32, splice; cbn. unfold u8. rewrite shr by lia. zdm.
Qed.

(** A status read. *)
Lemma rd8_status_wp port w :
  wp (ata_rd8 port ATA_REG_STATUS)
     (fun st w' => own w w' /\ status_read st (ata_bus w) (ata_bus w')) w.
Proof.
  unfold ata_rd8. apply wp_bind.
  eapply wp_mono; [apply select_quiet|]. intros b w1 (-> & [Hk1 Ho1] & Hn1). cbn [negb].
  change (u32 (Z.shiftl ATA_REG_STATUS 24)) with (0x17 * 2 ^ 24).
  assert (Hfin : forall st x, status_read st (ata_bus w1) x -> forall n,
    wp (ata_deselect port) (fun _ w' => own w w' /\ status_read st (ata_bus w) (ata_bus w'))
       (mk_ata (ata_lba48 w1) n (ata_buf w1) x)).
  { intros st x (Hk & Hd & He) n. eapply wp_mono; [apply deselect_quiet|]. intros _ w2 [[Hk2 Ho2] _].
    split; [eapply own_trans; [exact Ho1|exact Ho2]|]. cbn in Hk2.
    destruct Hk1 as (? & ? & Hd1 & Hr1), Hk as (? & ? & Hdk & Hrk), Hk2 as (? & ? & Hd2 & Hr2).
    split; [|split; auto]. repeat split; try congruence; auto. }
  apply wp_bind. destruct (ata_native w1) eqn:En.
  - apply imm_wp; [set_solver|intros _|congruence].
    pose proof (wp_bind_inv _ _ _ _ (status_raw_law (chn port) (ata_bus w1))) as Hl.
    eapply wp_mono; [exact Hl|]. clear Hl. intros r x1 Hl. apply wp_bind.
    apply imm_wp; [set_solver|intros _|done]. eapply wp_mono; [exact Hl|].
    intros r2 x2 Hst. apply wp_bind. eapply wp_mono; [apply (Hfin _ _ Hst)|].
    intros [] w2 Hw2. apply wp_ret. by rewrite shr.
  - apply imm_wp; [set_solver|congruence|intros _].
    pose proof (wp_bind_inv _ _ _ _ (status_lib_law (chn port) (ata_bus w1))) as Hl.
    eapply wp_mono; [exact Hl|]. clear Hl. intros r x1 Hl. apply wp_bind.
    apply imm_wp; [set_solver|done|intros _]. eapply wp_mono; [exact Hl|].
    intros [b bs] x2 (st & Hbs & Hst & Hsr). cbn in Hbs. subst bs. apply wp_bind.
    eapply wp_mono; [apply (Hfin _ _ Hsr)|]. intros [] w2 Hw2. apply wp_ret.
    cbn [snd]. by rewrite status_byte.
Qed.

(** The burst read. *)
Lemma rd_buffer_wp port w :
  length (ata_buf w) = 512%nat ->
  wp (ata_rd_buffer port)
     (fun r w' => own w w' /\ ide_sector (ata_bus w') = ide_sector (ata_bus w)
        /\ forall bs lba, r = Some bs -> rdy (ata_bus w) ->
             decode_read (tf (ata_bus w)) = Some lba -> bs = ide_sector (ata_bus w) lba) w.
Proof.
  intros Hbuf. unfold ata_rd_buffer. apply wp_bind.
  eapply wp_mono; [apply select_quiet|]. intros b w1 (-> & [Hk1 Ho1] & Hn1). cbn [negb].
  set (Q := fun (r : option (list Z)) w' => _).
  change (Z.lor (Z.lor 0x70000000 (Z.shiftl (Z.land 128 0xff) 16))
    (Z.shiftl (Z.land (Z.shiftr 128 8) 0xff) 8)) with 0x70800000.
  assert (Hfin : forall x n, keeps (ata_bus w1) x ->
    wp (w0 <- get ;;
        let '(busy, bs, x) := exi_start_dma (chn port) 512 3 (ata_bus w0) in
        put (mk_ata (ata_lba48 w0) (ata_native w0) (splice 0 bs (ata_buf w0)) x) ;;
        ata_deselect port ;;
        w2 <- get ;;
        ret (if exi_poll ata_dma_timeout busy then Some (ata_buf w2) else None)) Q
       (mk_ata (ata_lba48 w1) n (ata_buf w1) x)).
  { intros x n Hk. apply wp_bind, wp_get. cbn [ata_bus].
    destruct (exi_start_dma (chn port) 512 3 x) as [[busy bs] x2] eqn:Ed.
    apply dma_law in Ed as (Hk2 & Hlen & Hdata). apply wp_bind, wp_put, wp_bind.
    eapply wp_mono; [apply deselect_quiet|]. intros _ w3 [[Hk3 Ho3] Eb]. apply wp_bind, wp_get, wp_ret.
    pose proof (keeps_trans _ _ _ Hk1 Hk) as Hkx.
    pose proof (keeps_trans _ _ _ (keeps_trans _ _ _ Hkx Hk2) Hk3) as (_ & Es & _).
    unfold Q. split; [|split; [exact Es|]].
    { destruct Ho1 as [? Hl1], Ho3 as [? Hl3]. cbn [ata_lba48 ata_buf] in *. split; [congruence|].
      rewrite Hl3, length_splice; [congruence|]. rewrite Hl1, Hbuf. lia. }
    intros bs' lba Hr Hrdy Hdec. destruct Hkx as (Et & Esx & _ & Hrx).
    destruct (exi_poll ata_dma_timeout busy) eqn:Ep; [|discriminate]. injection Hr as <-.
    rewrite Eb, (Hdata lba); [|by apply Hrx|intros ->; by rewrite exi_poll_None in Ep|by rewrite Et].
    cbn. rewrite Esx. destruct Ho1 as [_ Hl1]. unfold splice. cbn [take].
    rewrite drop_ge by (rewrite ide_sector_len, Hl1, Hbuf; lia). by rewrite app_nil_r. }
  apply wp_bind, imm_wp; [set_solver|intros _|intros _].
  - eapply wp_mono; [apply burst_raw_law|]. intros r x Hk. by apply Hfin.
  - eapply wp_mono; [apply burst_lib_law|]. intros r x Hk. by apply Hfin.
Qed.

(** ** Sector reads *)

Definition same_drive w w' : Prop :=
  own w w' /\ ide_sector (ata_bus w') = ide_sector (ata_bus w).

Lemma same_drive_refl w : same_drive w w.
Proof. done. Qed.
Lemma same_drive_trans w1 w2 w3 : same_drive w1 w2 -> same_drive w2 w3 -> same_drive w1 w3.
Proof. intros [? ?] [? ?]. split; [by eapply own_trans|congruence]. Qed.

(** Waiting leaves the task file alone; a wait that saw data leaves the drive
    with data available. *)
Lemma wait_loop_wp n port mask want w :
  wp (ata_wait_loop n port mask want)
     (fun ok w' => same_drive w w' /\ tf (ata_bus w') = tf (ata_bus w)
        /\ (ok = true -> mask = 0x88 -> want = 0x08 -> drq (ata_bus w'))) w.
Proof.
  revert w. induction n as [|n IH]; intros w; cbn [ata_wait_loop].
  { apply wp_ret. by split_all. }
  apply wp_bind. eapply wp_mono; [apply rd8_status_wp|].
  intros st w1 (Ho & (Et & Es & Hd & Hr) & Hdrq & _).
  destruct (st =? 0xFF); [apply wp_ret; by split_all|].
  destruct (Z.eqb_spec (Z.land st mask) want) as [E|].
  - apply wp_ret. split; [by split|]. split; [done|]. intros _ -> ->. auto.
  - eapply wp_mono; [apply IH|]. intros ok w2 ([Ho2 Es2] & Et2 & Hok).
    split; [split; [by eapply own_trans|congruence]|]. split; [congruence|done].
Qed.

Lemma wait_wp port mask want w :
  wp (ata_wait port mask want)
     (fun ok w' => same_drive w w' /\ tf (ata_bus w') = tf (ata_bus w)
        /\ (ok = true -> mask = 0x88 -> want = 0x08 -> drq (ata_bus w'))) w.
Proof. apply wait_loop_wp. Qed.

Definition reg_ok (rv : Z * Z) : Prop := 0 <= rv.1 < 0x80 /\ 0 <= rv.2 < 0x100.

Lemma wr_all_wp port l w :
  Forall reg_ok l ->
  wp (ata_wr_all port l)
     (fun _ w' => same_drive w w' /\ tf (ata_bus w') = reverse l ++ tf (ata_bus w)) w.
Proof.
  intros Hl. revert w. induction Hl as [|[reg val] l [Hr Hv] Hl IH]; intros w; cbn [ata_wr_all].
  { apply wp_ret. by split_all. }
  apply wp_bind. eapply wp_mono; [by apply wr8_wp|]. intros [] w1 (Ho & Et & Es).
  eapply wp_mono; [apply IH|]. intros [] w2 ([Ho2 Es2] & Et2).
  split; [split; [by eapply own_trans|congruence]|].
  rewrite Et2, Et, reverse_cons, <- app_assoc. done.
Qed.

Lemma taskfile_ok lba48 lba : lba_ok lba48 lba -> Forall reg_ok (ata_taskfile lba48 lba).
Proof.
  intros Hl. assert (Hb : forall v, 0 <= Z.land v 255 < 256)
    by (intros; rewrite land_ff; apply Z.mod_pos_bound; lia).
  unfold ata_taskfile. destruct lba48; repeat constructor; cbn [fst snd];
    try apply Hb; try done.
  - apply Z.lor_nonneg. split; [done|]. apply Z.land_nonneg. by right.
  - assert (Hd : 0 <= Z.land (Z.shiftr lba 24) 15 < 16)
      by (rewrite land_f; apply Z.mod_pos_bound; lia).
    pose proof (lor_fields (Z.land (Z.shiftr lba 24) 15) 4 4 ltac:(lia) Hd) as E.
    change (4 * 2 ^ 4) with 64 in E. change ATA_HEAD_USE_LBA with 64. rewrite E. lia.
Qed.

(** The state between two sectors of a read. *)
Definition steady lba48 port w0 w : Prop :=
  same_drive w0 w /\ length (ata_buf w) = 512%nat
  /\ nth (Z.to_nat (chn port)) (ata_lba48 w) false = lba48.

Lemma steady_step lba48 port w0 w w' :
  steady lba48 port w0 w -> same_drive w w' -> steady lba48 port w0 w'.
Proof.
  intros (Hs & Hl & Hn) Hw. split; [by eapply same_drive_trans|].
  destruct Hw as [[E1 E2] _]. split; congruence.
Qed.

(** One attempt: what it delivers is the sector asked for. *)
Lemma read_one_wp port lba lba48 w0 w :
  steady lba48 port w0 w -> lba_ok lba48 lba ->
  wp (ata_read_one port lba)
     (fun r w' => steady lba48 port w0 w'
        /\ forall bs, r = Some bs -> bs = ide_sector (ata_bus w0) lba) w.
Proof.
  intros Hst Hlba. unfold ata_read_one.
  apply wp_bind. eapply wp_mono; [apply wait_wp|]. intros ok w1 (Hs1 & _ & _).
  pose proof (steady_step _ _ _ _ _ Hst Hs1) as Hst1.
  destruct ok; cbn [negb]; [|by apply wp_ret].
  apply wp_bind, wp_get, wp_bind. destruct Hst1 as (Hs & Hl & ->).
  eapply wp_mono; [apply wr_all_wp; by apply taskfile_ok|]. intros [] w2 (Hs2 & Et2).
  apply wp_bind. eapply wp_mono; [apply wait_wp|]. intros ok w3 (Hs3 & Et3 & Hdrq).
  assert (Hst3 : steady lba48 port w0 w3).
  { eapply steady_step; [|exact Hs3]. eapply steady_step; [|exact Hs2].
    by eapply steady_step. }
  destruct ok; cbn [negb]; [|by apply wp_ret].
  specialize (Hdrq eq_refl eq_refl eq_refl).
  apply wp_bind. eapply wp_mono; [apply rd8_status_wp|].
  intros st w4 (Ho4 & (Et4 & Es4 & Hd4 & Hr4) & _ & Hrdy).
  assert (Hst4 : steady lba48 port w0 w4) by (eapply steady_step; [exact Hst3|by split]).
  destruct (Z.eqb_spec (Z.land st ATA_SR_ERR) 0) as [E|]; cbn [negb]; [|by apply wp_ret].
  eapply wp_mono; [apply rd_buffer_wp; apply Hst4|]. intros r w5 (Ho5 & Es5 & Hr).
  split; [eapply steady_step; [exact Hst4|by split]|]. intros bs ->.
  destruct Hst4 as ([_ E0] & _). rewrite <- E0. apply (Hr bs lba eq_refl).
  - by apply Hrdy.
  - rewrite Et4, Et3, Et2. by apply decode_taskfile.
Qed.

Lemma soft_reset_wp port w : wp (ata_soft_reset port) (fun _ w' => same_drive w w') w.
Proof.
  unfold ata_soft_reset. apply wp_bind. eapply wp_mono; [by apply wr8_wp|].
  intros [] w1 (Ho1 & _ & Es1). apply wp_bind. eapply wp_mono; [by apply wr8_wp|].
  intros [] w2 (Ho2 & _ & Es2). apply wp_bind. eapply wp_mono; [apply wait_wp|].
  intros ok w3 (Hs3 & _). apply wp_ret. eapply same_drive_trans; [|exact Hs3].
  split; [by eapply own_trans|congruence].
Qed.

Lemma attempts_wp n : forall first port lba lba48 w0 w,
  steady lba48 port w0 w -> lba_ok lba48 lba ->
  wp (ata_attempts n first port lba)
     (fun r w' => steady lba48 port w0 w'
        /\ forall bs, r = Some bs -> bs = ide_sector (ata_bus w0) lba) w.
Proof.
  induction n as [|n IH]; intros first port lba lba48 w0 w Hst Hlba; cbn [ata_attempts].
  { by apply wp_ret. }
  apply wp_bind. apply (wp_mono _ (fun _ w' => same_drive w w')).
  { destruct first; [by apply wp_ret|apply soft_reset_wp]. }
  intros [] w1 Hs1. pose proof (steady_step _ _ _ _ _ Hst Hs1) as Hst1.
  apply wp_bind. eapply wp_mono; [by apply (read_one_wp port lba lba48 w0)|].
  intros r w2 [Hst2 Hr]. destruct r as [bs|].
  - apply wp_ret. split; [done|]. by intros bs' [= <-]; apply Hr.
  - by apply IH.
Qed.

(** The bytes of [n] sectors of the drive. *)
Definition ide_run (x : X) (s : Z) (n : nat) : list Z :=
  pieces (fun i => ide_sector x (s + Z.of_nat i)) n.

Lemma length_ide_run x s n : length (ide_run x s n) = (n * 512)%nat.
Proof. apply (length_pieces _ 512). intros. apply ide_sector_len. Qed.

Lemma ata_read_loop_wp lba48 port w0 s (n : nat) buf : forall m k w,
  steady lba48 port w0 w -> (k + m = n)%nat -> (n * 512 <= length buf)%nat ->
  0 <= s -> s + Z.of_nat n <= (if lba48 then 2 ^ 32 else 2 ^ 28) ->
  wp (ata_read_loop m port s k (splice 0 (ide_run (ata_bus w0) s k) buf))
     (fun r w' => steady lba48 port w0 w' /\ length r.2 = length buf
        /\ (r.1 = true -> r.2 = splice 0 (ide_run (ata_bus w0) s n) buf)) w.
Proof.
  induction m as [|m IH]; intros k w Hst Hk Hbuf Hs Hr; cbn [ata_read_loop].
  { apply wp_ret. replace k with n by lia. split_all. cbn.
    apply length_splice. rewrite length_ide_run. lia. }
  assert (Hlba : lba_ok lba48 (s + Z.of_nat k)) by (unfold lba_ok; destruct lba48; lia).
  rewrite u32_small by (destruct lba48; lia).
  apply wp_bind. eapply wp_mono; [by apply (attempts_wp _ _ _ _ lba48 w0)|].
  intros r w1 [Hst1 Hd]. destruct r as [bs|].
  - rewrite (Hd bs eq_refl).
    replace (splice (k * 512) (ide_sector (ata_bus w0) (s + Z.of_nat k)) _)
      with (splice 0 (ide_run (ata_bus w0) s (k + 1)) buf).
    { apply IH; try done. lia. }
    unfold ide_run. rewrite Nat.add_1_r, pieces_S. fold (ide_run (ata_bus w0) s k).
    rewrite <- (splice_splice_adj 0); rewrite length_ide_run; [done|].
    rewrite ide_sector_len. lia.
  - apply wp_ret. split_all; [|done]. cbn. apply length_splice. rewrite length_ide_run. lia.
Qed.

(** C6. Over an IDE-EXI drive whose protocol is the documented one, a read
    always returns and, when it reports success, has delivered exactly the
    requested sectors, in the 48-bit mode for every 32-bit sector number and in
    the 28-bit mode below 2^28: the ten (or six) register writes of each
    attempt decode to the sector asked for, and neither failed attempts nor
    soft resets, nor the switch between the two EXI paths, disturb it. *)
Theorem ata_reads_the_drive w port s buf (n : nat) lba48 :
  length (ata_buf w) = 512%nat ->
  nth (Z.to_nat (chn port)) (ata_lba48 w) false = lba48 ->
  0 <= s -> s + Z.of_nat n <= (if lba48 then 2 ^ 32 else 2 ^ 28) ->
  (n * 512 <= length buf)%nat ->
  exists ok buf' w', ata_read port s buf (Z.of_nat n) w = Some (ok, buf', w')
    /\ ide_sector (ata_bus w') = ide_sector (ata_bus w)
    /\ length buf' = length buf
    /\ (ok = true -> buf' = splice 0 (ide_run (ata_bus w) s n) buf).
Proof.
  intros Hb Hn Hs Hr Hbuf. unfold ata_read. rewrite Nat2Z.id.
  pose proof (ata_read_loop_wp lba48 port w s n buf n 0 w) as Hl.
  assert (E0 : splice 0 (ide_run (ata_bus w) s 0) buf = buf) by (apply splice_nil; lia).
  rewrite E0 in Hl.
  destruct (wp_elim _ _ _ (Hl ltac:(by split_all) ltac:(lia) Hbuf Hs Hr))
    as ([ok buf'] & w' & E & ([_ Es] & _) & Hlen & Hok).
  by exists ok, buf', w'.
Qed.
End Drive.

(** ** A simulated drive *)

(** It is always ready; its sectors hold their own number. *)
Record sim_ide := mk_sim_ide { sim_tf : list (Z * Z) }.
Definition sim_sector (lba : Z) : list Z := replicate 512 (u8 lba).

#[export] Instance sim_exi : ExiBus sim_ide := {
  EXILock _ _ := ret true;
  EXIUnlock _ := ret tt;
  EXISelect _ _ _ := ret true;
  EXIDeselect _ := ret tt;
  EXIImmEx _ bs mode := fun x =>
    if mode =? EXI_WRITE then
      match bs with
      | [b; v; _] => Some (true, bs, mk_sim_ide ((b - 0x80, v) :: sim_tf x))
      | _ => Some (true, bs, x)
      end
    else Some (true, [0x08], x);
  exi_csr _ _ := 0;
  exi_set_csr _ _ x := x;
  exi_start_imm _ val ctrl := fun x =>
    if ctrl =? imm_ctrl 3 EXI_WRITE
    then Some (0, mk_sim_ide ((val / 2 ^ 24 - 0x80, val / 2 ^ 16 mod 256) :: sim_tf x))
    else Some (0x08000000, x);
  exi_start_dma _ _ _ x :=
    (Some 5%N, match decode_read (sim_tf x) with Some lba => sim_sector lba | None => [] end, x)
}.

#[export, refine] Instance sim_ide_drive : IdeDrive sim_ide := {
  tf := sim_tf;
  ide_sector _ := sim_sector;
  drq _ := True;
  rdy _ := True
}.
Proof.
  all: try (intros; by split_all).
  - intros c reg val x Hr Hv. cbn. split; [|done]. cbn. do 2 f_equal; zdm.
  - intros c reg val x Hr Hv. unfold wp, EXIImmEx; cbn -[Z.sub].
    split; [|done]. do 2 f_equal. by replace (128 + reg - 128) with reg by lia.
  - intros c x. cbn. exists 8. by split_all.
  - intros c x busy bs x' [= <- <- <-]. split_all.
    + case_match; [by unfold sim_sector; rewrite length_replicate|cbn; lia].
    + by intros lba _ _ ->.
Defined.

Lemma ata_reads_the_drive_witness : exists ok buf' w',
  ata_read (mk_port 1 0) 0x12345678 (replicate 1024 0) (Z.of_nat 2)
    (mk_ata [false; true; false] false (replicate 512 0) (mk_sim_ide []))
  = Some (ok, buf', w')
  /\ (ok = true -> buf' = splice 0 (ide_run (mk_sim_ide []) 0x12345678 2) (replicate 1024 0)).
Proof.
  destruct (ata_reads_the_drive (mk_ata [false; true; false] false (replicate 512 0) (mk_sim_ide []))
    (mk_port 1 0) 0x12345678 (replicate 1024 0) 2 true) as (ok & buf' & w' & E & _ & _ & Hok);
    [done|done|lia|lia|done|].
  exists ok, buf', w'. split; [exact E|exact Hok].
Defined.
