(* ===== verification/Tsd.v ===== *)
(** The SD card backend, [emu/tsd.c] (IPL build): SPI command frames with their
    CRC, responses, data blocks, and sector reads over an EXI channel. *)

From S2P Require Import Prelude Exi.
#[local] Open Scope prog_scope.

Definition EXI_SPEED_16MHZ : Z := 4.

(** ** The frame checksum *)

(** One pass of the inner loop: [res], then [bcnt] counting the byte's bits;
    [mask] is [0x80 >> bcnt]. *)
Definition crc7_bit (byte res bcnt : Z) : Z :=
  let res := u32 (Z.shiftl res 1) in
  let val := Z.lxor byte (Z.land (Z.shiftr res bcnt) 0xff) in
  if negb (Z.land (Z.shiftr 0x80 bcnt) val =? 0) then
    let res := Z.lor res 0x01 in
    if Z.land res 0x0008 =? 0 then Z.lor res 0x0008 else Z.land res (Z.lnot 0x0008)
  else if negb (Z.land res 0x0008 =? 0) then Z.lor res 0x0008
  else Z.land res (Z.lnot 0x0008).

Definition crc7_byte (res byte : Z) : Z :=
  foldl (fun res bcnt => crc7_bit byte res (Z.of_nat bcnt)) res (seq 0 8).

Definition tsd_crc7 (buffer : list Z) : Z :=
  Z.land (u32 (Z.shiftl (foldl crc7_byte 0 buffer) 1)) 0xff.

Section Tsd.
Context {X : Type} `{ExiBus X}.
(** How many reads of the data-token loop the model performs; the loop of the
    code has no bound, and a run that outlasts this one has no result. *)
Context (patience : nat).

Record tsd_state := mk_tsd {
  tsd_native : bool;
  addressing_block : bool;
  tsd_bus : X
}.

Definition tsd_on_bus {A} (m : M X A) : M tsd_state A := fun w =>
  match m (tsd_bus w) with
  | Some (a, x) => Some (a, mk_tsd (tsd_native w) (addressing_block w) x)
  | None => None
  end.
Definition tsd_csr (c : Z) (f : Z -> Z) : M tsd_state unit := fun w =>
  Some (tt, mk_tsd (tsd_native w) (addressing_block w)
              (exi_set_csr c (f (exi_csr c (tsd_bus w))) (tsd_bus w))).

Definition tsd_set_native (native : bool) : M tsd_state unit :=
  modify (fun w => mk_tsd native (addressing_block w) (tsd_bus w)).

Definition tsd_select (port : exi_port) : M tsd_state bool :=
  w <- get ;;
  if tsd_native w then
    tsd_csr (chn port) (fun v =>
      Z.lor (Z.lor (Z.land v 0x405) (Z.shiftl (Z.shiftl 1 (dev port)) 7))
            (Z.shiftl EXI_SPEED_16MHZ 4)) ;;
    ret true
  else
    l <- tsd_on_bus (EXILock (chn port) (dev port)) ;;
    if negb l then ret false else
    s <- tsd_on_bus (EXISelect (chn port) (dev port) EXI_SPEED_16MHZ) ;;
    if negb s then tsd_on_bus (EXIUnlock (chn port)) ;; ret false
    else ret true.

Definition tsd_deselect (port : exi_port) : M tsd_state bool :=
  w <- get ;;
  if tsd_native w then
    tsd_csr (chn port) (fun v => Z.land v 0x405) ;; ret true
  else
    tsd_on_bus (EXIDeselect (chn port)) ;;
    tsd_on_bus (EXIUnlock (chn port)) ;; ret true.

Definition native_exi_imm_rw (port : exi_port) (data : Z) : M tsd_state Z :=
  r <- tsd_on_bus (exi_start_imm (chn port) (u32 (Z.shiftl data 24))
         (Z.lor (Z.lor (Z.shiftl (1 - 1) 4) (Z.shiftl EXI_READ_WRITE 2)) 1)) ;;
  ret (u8 (Z.shiftr r ((4 - 1) * 8))).

Fixpoint native_read (port : exi_port) (len : nat) : M tsd_state (list Z) :=
  match len with
  | O => ret []
  | S len =>
      b <- native_exi_imm_rw port 0xFF ;;
      bs <- native_read port len ;;
      ret (b :: bs)
  end.

Fixpoint native_write (port : exi_port) (data : list Z) : M tsd_state unit :=
  match data with
  | [] => ret tt
  | b :: data => native_exi_imm_rw port b ;; native_write port data
  end.

(** [tsd_read]: success and the [len] bytes of the buffer. *)
Definition tsd_read (port : exi_port) (len : nat) : M tsd_state (bool * list Z) :=
  w <- get ;;
  if tsd_native w then bs <- native_read port len ;; ret (true, bs)
  else tsd_on_bus (EXIImmEx (chn port) (replicate len 0xFF) EXI_READ_WRITE).

Definition tsd_write (port : exi_port) (data : list Z) : M tsd_state bool :=
  w <- get ;;
  if tsd_native w then native_write port data ;; ret true
  else r <- tsd_on_bus (EXIImmEx (chn port) data EXI_WRITE) ;; ret r.1.

(** The wait for the data token. *)
Fixpoint token_loop (fuel : nat) (port : exi_port) : M tsd_state bool :=
  match fuel with
  | O => spin
  | S fuel =>
      r <- tsd_read port 1 ;;
      if negb r.1 then ret false
      else if nth 0 r.2 0 =? 0xFE then ret true
      else token_loop fuel port
  end.

Definition tsd_recv_data (port : exi_port) (len : nat) : M tsd_state (bool * list Z) :=
  t <- token_loop patience port ;;
  if negb t then ret (false, []) else
  r <- tsd_read port len ;;
  if negb r.1 then ret (false, r.2) else
  c <- tsd_read port 2 ;;
  ret (c.1, r.2).

Definition tsd_send_data (port : exi_port) (data : list Z) : M tsd_state bool :=
  ok <- tsd_write port [0xFE] ;;
  if negb ok then ret false else
  ok <- tsd_write port data ;;
  if negb ok then ret false else
  tsd_write port [0xFF; 0xFF].

Definition tsd_frame (cmd arg : Z) : list Z :=
  let head := [Z.lor 0x40 cmd; Z.land (Z.shiftr arg 24) 0xFF; Z.land (Z.shiftr arg 16) 0xFF;
               Z.land (Z.shiftr arg 8) 0xFF; Z.land (Z.shiftr arg 0) 0xFF] in
  head ++ [Z.lor (tsd_crc7 head) 1].

(** The poll for the response byte: [n] is what is left of the seventeen
    reads. *)
Fixpoint response_loop (n : nat) (port : exi_port) : M tsd_state (option Z) :=
  match n with
  | O => ret None
  | S n =>
      r <- tsd_read port 1 ;;
      if negb r.1 then ret None
      else let b := nth 0 r.2 0 in
           if negb (Z.land b 0x80 =? 0) then response_loop n port else ret (Some b)
  end.

(** [tsd_send_cmd]: success and the response bytes received. *)
Definition tsd_send_cmd (port : exi_port) (cmd arg : Z) (resp_len : nat)
    : M tsd_state (bool * list Z) :=
  tsd_read port 100 ;;
  ok <- tsd_write port (tsd_frame cmd arg) ;;
  if negb ok then ret (false, []) else
  r <- response_loop 17 port ;;
  match r with
  | None => ret (false, [])
  | Some b =>
      if (1 <? resp_len)%nat then
        r <- tsd_read port (resp_len - 1) ;; ret (r.1, b :: r.2)
      else ret (true, [b])
  end.

Definition tsd_send_app_cmd (port : exi_port) (cmd arg : Z) (resp_len : nat)
    : M tsd_state (bool * list Z) :=
  r <- tsd_send_cmd port 55 0 1 ;;
  if negb r.1 then ret (false, r.2)
  else if negb (Z.land (nth 0 r.2 0) 0xFE =? 0) then ret (false, r.2)
  else tsd_send_cmd port cmd arg resp_len.

Definition tsd_sd_init (port : exi_port) : M tsd_state bool :=
  s <- tsd_select port ;;
  if negb s then ret false else
  r <- tsd_send_cmd port 58 0 3 ;;
  if negb r.1 || negb (nth 0 r.2 0 =? 0) then tsd_deselect port ;; ret false
  else
    modify (fun w => mk_tsd (tsd_native w) (negb (Z.land (nth 1 r.2 0) 0x40 =? 0)) (tsd_bus w)) ;;
    tsd_deselect port ;; ret true.

(** The loop of [tsd_sd_read], [n] sectors from the [i]-th; [data] is the memory
    being filled. *)
Fixpoint tsd_read_loop (n : nat) (port : exi_port) (addr : Z) (i : nat) (data : list Z)
    : M tsd_state (bool * list Z) :=
  match n with
  | O => tsd_deselect port ;; ret (true, data)
  | S n =>
      r <- tsd_send_cmd port 17 addr 1 ;;
      if negb r.1 || negb (nth 0 r.2 0 =? 0) then tsd_deselect port ;; ret (false, data) else
      r <- tsd_recv_data port 512 ;;
      let data := splice (i * 512) r.2 data in
      if negb r.1 then tsd_deselect port ;; ret (false, data) else
      w <- get ;;
      tsd_read_loop n port (u32 (addr + if addressing_block w then 1 else 512)) (i + 1) data
  end.

Definition tsd_sd_read (port : exi_port) (addr : Z) (data : list Z) (len : Z)
    : M tsd_state (bool * list Z) :=
  s <- tsd_select port ;;
  if negb s then ret (false, data) else
  w <- get ;;
  let addr := if addressing_block w then addr else u32 (addr * 512) in
  tsd_read_loop (Z.to_nat len) port addr 0 data.

Definition tsd_sd_write (port : exi_port) (addr : Z) (data : list Z) (len : Z)
    : M tsd_state bool := ret false.
End Tsd.

Arguments tsd_state X : clear implicits.

Example cmd0_frame : tsd_frame 0 0 = [0x40; 0; 0; 0; 0; 0x95].
Proof. reflexivity. Qed.
Example cmd8_frame : tsd_frame 8 0x1AA = [0x48; 0; 0; 1; 0xAA; 0x87].
Proof. reflexivity. Qed.
