(* ===== verification/TsdThms.v ===== *)
(** The SD backend: its frame checksum is the CRC-7 of the SD specification for
    every buffer, and sector reads deliver the card's sectors in both
    addressing modes. *)

From S2P Require Import Prelude Bits BlockDev Exi Tsd.
#[local] Open Scope prog_scope.

(** ** CRC-7 *)

(** The specification's shift register: generator [x^7 + x^3 + 1], one bit at a
    time, most significant first. *)
Definition crc7_ref_bit (r : Z) (b : bool) : Z :=
  let fb := xorb (Z.testbit r 6) b in
  Z.lxor ((r * 2) mod 2 ^ 7) (if fb then 0x09 else 0).

Definition byte_bits (byte : Z) : list bool :=
  (fun i => Z.testbit byte (7 - Z.of_nat i)) <$> seq 0 8.

Definition crc7_ref (buffer : list Z) : Z :=
  foldl crc7_ref_bit 0 (mjoin (byte_bits <$> buffer)).

Lemma crc7_feedback byte res (k : nat) :
  (k < 8)%nat ->
  (Z.land (Z.shiftr 0x80 (Z.of_nat k))
     (Z.lxor byte (Z.land (Z.shiftr (u32 (Z.shiftl res 1)) (Z.of_nat k)) 0xff)) =? 0)
  = negb (xorb (Z.testbit res 6) (Z.testbit byte (7 - Z.of_nat k))).
Proof.
  intros Hk. set (v := Z.lxor _ _).
  assert (Hv : Z.testbit v (7 - Z.of_nat k) = xorb (Z.testbit res 6) (Z.testbit byte (7 - Z.of_nat k))).
  { unfold v. rewrite Z.lxor_spec, Z.land_spec, Z.shiftr_spec by lia.
    replace (7 - Z.of_nat k + Z.of_nat k) with 7 by lia.
    unfold u32. rewrite Z.mod_pow2_bits_low, Z.shiftl_spec by lia.
    replace (Z.testbit 255 (7 - Z.of_nat k)) with true.
    - rewrite andb_true_r, xorb_comm. done.
    - do 8 (destruct k as [|k]; [done|]). lia. }
  rewrite <- Hv. clearbody v. clear Hv.
  assert (E : Z.land (Z.shiftr 128 (Z.of_nat k)) v
              = if Z.testbit v (7 - Z.of_nat k) then 2 ^ (7 - Z.of_nat k) else 0).
  { replace (Z.shiftr 128 (Z.of_nat k)) with (2 ^ (7 - Z.of_nat k))
      by (do 8 (destruct k as [|k]; [done|]); lia).
    apply Z.bits_inj'. intros n Hn. rewrite Z.land_spec, Z.pow2_bits_eqb by lia.
    destruct (Z.eqb_spec (7 - Z.of_nat k) n) as [<-|Hne]; cbn.
    - destruct (Z.testbit v _); [by rewrite Z.pow2_bits_true by lia|by rewrite Z.bits_0].
    - destruct (Z.testbit v _); [by rewrite Z.pow2_bits_false by lia|by rewrite Z.bits_0]. }
  rewrite E. destruct (Z.testbit v _); [|done].
  do 8 (destruct k as [|k]; [done|]). lia.
Qed.

Lemma land_8 x : Z.land x 8 = if Z.testbit x 3 then 8 else 0.
Proof.
  change 8 with (2 ^ 3). apply Z.bits_inj'. intros n Hn.
  rewrite Z.land_spec, Z.pow2_bits_eqb by lia.
  destruct (Z.eqb_spec 3 n) as [<-|Hne].
  - by destruct (Z.testbit x 3).
  - rewrite andb_false_r. destruct (Z.testbit x 3); [|by rewrite Z.bits_0].
    by rewrite Z.pow2_bits_false by lia.
Qed.

(** Bit-by-bit equality of terms over [x] and the constant 8, knowing bit 3. *)
Ltac bit3 Ex :=
  apply Z.bits_inj'; intros n Hn;
  rewrite ?Z.land_spec, ?Z.lor_spec, ?Z.lxor_spec, ?Z.lnot_spec by lia;
  change 8 with (2 ^ 3); rewrite Z.pow2_bits_eqb by lia;
  destruct (Z.eqb_spec 3 n) as [<-|Hne]; rewrite ?Ex; cbn;
  rewrite ?andb_true_r, ?orb_false_r, ?xorb_false_r; done.

Lemma toggle_bit3 x :
  (if Z.land x 8 =? 0 then Z.lor x 8 else Z.land x (Z.lnot 8)) = Z.lxor x 8.
Proof. rewrite land_8. destruct (Z.testbit x 3) eqn:Ex; cbn; bit3 Ex. Qed.

Lemma keep_bit3 x :
  (if negb (Z.land x 8 =? 0) then Z.lor x 8 else Z.land x (Z.lnot 8)) = x.
Proof. rewrite land_8. destruct (Z.testbit x 3) eqn:Ex; cbn; bit3 Ex. Qed.

(** The code's register carries the specification's in its low seven bits. *)
Lemma crc7_bit_ref byte res (k : nat) :
  (k < 8)%nat ->
  crc7_bit byte res (Z.of_nat k) mod 2 ^ 7
  = crc7_ref_bit (res mod 2 ^ 7) (Z.testbit byte (7 - Z.of_nat k)).
Proof.
  intros Hk. unfold crc7_bit, crc7_ref_bit. rewrite (crc7_feedback byte res k Hk).
  rewrite negb_involutive, Z.mod_pow2_bits_low by lia.
  rewrite toggle_bit3, keep_bit3. set (fb := xorb _ _). clearbody fb.
  assert (Hlow : forall n, 0 <= n < 7 ->
    Z.testbit (u32 (Z.shiftl res 1)) n = Z.testbit ((res mod 2 ^ 7 * 2) mod 2 ^ 7) n).
  { intros n Hn. unfold u32. rewrite !Z.mod_pow2_bits_low by lia.
    rewrite Z.shiftl_spec by lia. change (res mod 2 ^ 7 * 2) with (res mod 2 ^ 7 * 2 ^ 1).
    destruct (Z.eq_dec n 0) as [->|].
    - rewrite Z.testbit_neg_r by lia. by rewrite Z.mul_pow2_bits_low by lia.
    - rewrite Z.mul_pow2_bits by lia. by rewrite Z.mod_pow2_bits_low by lia. }
  apply Z.bits_inj'. intros n Hn. destruct (Z.lt_ge_cases n 7).
  - rewrite Z.mod_pow2_bits_low by lia. destruct fb.
    + rewrite !Z.lxor_spec, Z.lor_spec, Hlow by lia.
      change 9 with (Z.lxor 1 8). rewrite Z.lxor_spec. rewrite <- xorb_assoc. f_equal.
      change 1 with (2 ^ 0). rewrite Z.pow2_bits_eqb by lia.
      destruct (Z.eqb_spec 0 n) as [<-|].
      * rewrite orb_true_r, <- Hlow by lia. unfold u32. rewrite Z.mod_pow2_bits_low by lia.
        rewrite Z.shiftl_spec by lia. by rewrite Z.testbit_neg_r by lia.
      * by rewrite orb_false_r, xorb_false_r.
    + by rewrite Z.lxor_0_r, Hlow by lia.
  - rewrite Z.mod_pow2_bits_high by lia. destruct fb; rewrite Z.lxor_spec;
      rewrite Z.mod_pow2_bits_high by lia; [|by rewrite Z.bits_0].
    rewrite Z.bits_above_log2 by (cbn; lia). done.
Qed.

Lemma crc7_byte_ref res byte :
  crc7_byte res byte mod 2 ^ 7 = foldl crc7_ref_bit (res mod 2 ^ 7) (byte_bits byte).
Proof.
  unfold crc7_byte, byte_bits. cbn [seq foldl fmap list_fmap].
  by rewrite !crc7_bit_ref by lia.
Qed.

Lemma crc7_correct buffer : tsd_crc7 buffer = 2 * crc7_ref buffer.
Proof.
  unfold tsd_crc7, crc7_ref.
  assert (Hg : forall r, foldl crc7_byte r buffer mod 2 ^ 7
    = foldl crc7_ref_bit (r mod 2 ^ 7) (mjoin (byte_bits <$> buffer))).
  { induction buffer as [|b bs IH]; intros r; [done|].
    cbn [foldl fmap list_fmap mjoin list_join]. rewrite IH, crc7_byte_ref. by rewrite foldl_app. }
  specialize (Hg 0). change (0 mod 2 ^ 7) with 0 in Hg. rewrite <- Hg.
  rewrite land_ff, shl by lia. unfold u32. set (v := foldl _ _ _). zdm.
Qed.

(** The checksum routine of the SD frames, with its shared 32-bit register
    and shifting masks, computes the CRC-7 of the SD specification (generator
    x^7 + x^3 + 1, shifted left into the frame's last byte) for every buffer. *)
Theorem tsd_crc7_is_crc7 buffer : tsd_crc7 buffer = 2 * crc7_ref buffer.
Proof. apply crc7_correct. Qed.

(** ** Frames *)

(** A command frame as the specification lays it out. *)
Definition sd_frame (cmd arg : Z) : list Z :=
  let head := [64 + cmd; arg / 2 ^ 24; arg / 2 ^ 16 mod 256; arg / 2 ^ 8 mod 256; arg mod 256] in
  head ++ [2 * crc7_ref head + 1].

Lemma frame_spec cmd arg :
  0 <= cmd < 64 -> 0 <= arg < 2 ^ 32 -> tsd_frame cmd arg = sd_frame cmd arg.
Proof.
  intros Hc Ha. unfold tsd_frame, sd_frame. rewrite crc7_correct.
  rewrite Z.shiftr_0_r, !land_ff, !shr by lia.
  pose proof (word_top arg Ha). rewrite (Z.mod_small (arg / 2 ^ 24)) by lia.
  pose proof (lor_fields cmd 1 6 ltac:(lia) ltac:(lia)) as E. change (1 * 2 ^ 6) with 64 in E.
  rewrite E. do 2 f_equal. set (c := crc7_ref _). rewrite (Z.mul_comm 2 c).
  pose proof (lor_fields 1 c 1 ltac:(lia) ltac:(lia)) as E2. change (2 ^ 1) with 2 in E2.
  by rewrite E2.
Qed.

(** ** The card behind the bus *)

Fixpoint raw_send {X} `{ExiBus X} (c : Z) (bs : list Z) : M X unit :=
  match bs with
  | [] => ret tt
  | b :: bs => exi_start_imm c (b * 2 ^ 24) 9 ;; raw_send c bs
  end.

(** What a card sends after a single-block read command: bytes with the top bit
    set while it prepares its response, then either an error response, or the
    response 0, idle bytes, the token, the block and its CRC. *)
Definition read_reply (sector : list Z) (max_idle : nat) (q : list Z) : Prop :=
  exists pre, Forall (fun b => Z.land b 0x80 <> 0) pre /\
    ((exists e, Z.land e 0x80 = 0 /\ e <> 0 /\ q = pre ++ [e])
     \/ exists idle c1 c2, Forall (fun b => b <> 0xFE) idle /\ (length idle <= max_idle)%nat
        /\ q = pre ++ 0 :: idle ++ 0xFE :: sector ++ [c1; c2]).

(** A card in SPI mode on a channel, seen through the bytes it has queued to
    send; an empty queue reads as 0xFF. *)
Class SdCard (X : Type) `{ExiBus X} := {
  outq : X -> list Z;
  sd_sector : X -> Z -> list Z;
  sd_block : bool;                  (* addressed by blocks, or by bytes *)
  max_idle : nat;
  between : X -> Prop;              (* no command frame is half sent *)
  calm x x' := outq x' = outq x /\ sd_sector x' = sd_sector x /\ (between x -> between x');
  popped n bs x x' := bs = take n (outq x ++ replicate n 0xFF)
    /\ outq x' = drop n (outq x) /\ sd_sector x' = sd_sector x /\ between x';
  asked (arg : Z) x x' := sd_sector x' = sd_sector x /\ between x' /\
    forall blk, arg = (if sd_block then blk else blk * 512) ->
      read_reply (sd_sector x blk) max_idle (outq x');
  sd_sector_len : forall x b, length (sd_sector x b) = 512%nat;
  sd_lock_law : forall c d x, wp (EXILock c d) (fun b x' => b = true /\ calm x x') x;
  sd_unlock_law : forall c x, wp (EXIUnlock c) (fun _ x' => calm x x') x;
  sd_select_law : forall c d f x, wp (EXISelect c d f) (fun b x' => b = true /\ calm x x') x;
  sd_deselect_law : forall c x, wp (EXIDeselect c) (fun _ x' => calm x x') x;
  sd_csr_law : forall c v x, calm x (exi_set_csr c v x);
  sd_recv_lib : forall c n x, between x ->
    wp (EXIImmEx c (replicate n 0xFF) EXI_READ_WRITE)
       (fun r x' => r.1 = true /\ popped n r.2 x x') x;
  sd_recv_raw : forall c x, between x ->
    wp (exi_start_imm c (0xFF * 2 ^ 24) 9)
       (fun r x' => popped 1 [u8 (r / 2 ^ 24)] x x') x;
  sd_read_lib : forall c arg x, between x -> outq x = [] -> 0 <= arg < 2 ^ 32 ->
    wp (EXIImmEx c (sd_frame 17 arg) EXI_WRITE) (fun r x' => r.1 = true /\ asked arg x x') x;
  sd_read_raw : forall c arg x, between x -> outq x = [] -> 0 <= arg < 2 ^ 32 ->
    wp (raw_send c (sd_frame 17 arg)) (fun _ x' => asked arg x x') x
}.

Section Card.
Context {X : Type} `{SdCard X} (patience : nat) (Hpat : (max_idle < patience)%nat).
Implicit Types (w : tsd_state X) (x : X) (q : list Z).

Lemma calm_trans x y z : calm x y -> calm y z -> calm x z.
Proof. intros (? & ? & ?) (? & ? & ?). split; [congruence|]. split; [congruence|auto]. Qed.

Definition flags w w' : Prop :=
  tsd_native w' = tsd_native w /\ addressing_block w' = addressing_block w.

Lemma flags_trans w1 w2 w3 : flags w1 w2 -> flags w2 w3 -> flags w1 w3.
Proof. intros [? ?] [? ?]. split; congruence. Qed.

Definition calm_w w w' : Prop := flags w w' /\ calm (tsd_bus w) (tsd_bus w').

Lemma calm_w_trans w1 w2 w3 : calm_w w1 w2 -> calm_w w2 w3 -> calm_w w1 w3.
Proof. intros [? ?] [? ?]. split; [by eapply flags_trans|by eapply calm_trans]. Qed.

Lemma wp_tsd_bus {A} (m : M X A) (Q : A -> tsd_state X -> Prop) w :
  wp m (fun a x' => Q a (mk_tsd (tsd_native w) (addressing_block w) x')) (tsd_bus w) ->
  wp (tsd_on_bus m) Q w.
Proof. unfold wp, tsd_on_bus. by destruct (m (tsd_bus w)) as [[a x']|]. Qed.

Lemma tsd_select_wp port w : wp (tsd_select port) (fun b w' => b = true /\ calm_w w w') w.
Proof.
  unfold tsd_select. apply wp_bind, wp_get. destruct (tsd_native w) eqn:En.
  - apply wp_bind. unfold wp, tsd_csr, ret; cbn. split; [done|]. split; [done|apply sd_csr_law].
  - apply wp_bind, wp_tsd_bus. eapply wp_mono; [apply sd_lock_law|]. intros b x1 [-> Hc1].
    cbn [negb]. apply wp_bind, wp_tsd_bus. eapply wp_mono; [apply sd_select_law|].
    intros b x2 [-> Hc2]. apply wp_ret. split; [done|]. split; [done|by eapply calm_trans].
Qed.

Lemma tsd_deselect_wp port w : wp (tsd_deselect port) (fun _ w' => calm_w w w') w.
Proof.
  unfold tsd_deselect. apply wp_bind, wp_get. destruct (tsd_native w) eqn:En.
  - apply wp_bind. unfold wp, tsd_csr, ret; cbn. split; [done|apply sd_csr_law].
  - apply wp_bind, wp_tsd_bus. eapply wp_mono; [apply sd_deselect_law|]. intros [] x1 Hc1.
    apply wp_bind, wp_tsd_bus. eapply wp_mono; [apply sd_unlock_law|]. intros [] x2 Hc2.
    apply wp_ret. split; [done|by eapply calm_trans].
Qed.

(** ** Receiving *)

Lemma popped_S n b bs x x1 x2 :
  popped 1 [b] x x1 -> popped n bs x1 x2 -> popped (S n) (b :: bs) x x2.
Proof.
  intros (Eb & Eq & Es & _) (Ebs & Eq' & Es' & Hb). split; [|split; [|split; [congruence|done]]].
  - rewrite Ebs, Eq. destruct (outq x) as [|a q]; cbn in Eb |- *; injection Eb as ->; [done|].
    rewrite drop_0. f_equal. rewrite <- (app_nil_r (q ++ replicate n 0xFF)) at 1.
    change (0xFF :: replicate n 0xFF) with (replicate (S n) 0xFF).
    rewrite replicate_S_end, app_assoc.
    rewrite !(take_app_le (q ++ replicate n 0xFF)) by len. done.
  - rewrite Eq', Eq, drop_drop. done.
Qed.

Lemma native_read_wp port n w :
  between (tsd_bus w) ->
  wp (native_read port n)
     (fun bs w' => flags w w' /\ popped n bs (tsd_bus w) (tsd_bus w')) w.
Proof.
  revert w. induction n as [|n IH]; intros w Hw; cbn [native_read].
  { apply wp_ret. split; [done|]. split; [done|]. split; [by rewrite drop_0|done]. }
  apply wp_bind. unfold native_exi_imm_rw.
  apply wp_bind, wp_tsd_bus.
  change (u32 (Z.shiftl 255 24)) with (0xFF * 2 ^ 24).
  change (Z.lor (Z.lor (Z.shiftl (1 - 1) 4) (Z.shiftl EXI_READ_WRITE 2)) 1) with 9.
  eapply wp_mono; [by apply sd_recv_raw|]. intros r x1 Hp1. apply wp_ret, wp_bind.
  eapply wp_mono; [apply IH, Hp1|]. intros bs w2 [Hf Hp2]. apply wp_ret. split; [exact Hf|].
  change ((4 - 1) * 8) with 24. rewrite shr by lia. eapply popped_S; [exact Hp1|exact Hp2].
Qed.

Lemma tsd_read_wp port n w :
  between (tsd_bus w) ->
  wp (tsd_read port n)
     (fun r w' => r.1 = true /\ flags w w' /\ popped n r.2 (tsd_bus w) (tsd_bus w')) w.
Proof.
  intros Hw. unfold tsd_read. apply wp_bind, wp_get. destruct (tsd_native w).
  - apply wp_bind. eapply wp_mono; [by apply native_read_wp|]. intros bs w1 [Hf Hp].
    by apply wp_ret.
  - apply wp_tsd_bus. eapply wp_mono; [by apply sd_recv_lib|]. intros [b bs] x1 [Eb Hp].
    by split_all.
Qed.

(** What one byte read from a known queue gives. *)
Lemma popped_one b q bs x x' :
  outq x = b :: q -> popped 1 bs x x' -> bs = [b] /\ outq x' = q.
Proof. intros E (-> & -> & _). rewrite E. cbn. by rewrite drop_0. Qed.

Lemma popped_nil n bs x x' : outq x = [] -> popped n bs x x' -> outq x' = [].
Proof. intros E (_ & -> & _). rewrite E. by destruct n. Qed.

Lemma popped_app bs q x x' n got :
  outq x = bs ++ q -> length bs = n -> popped n got x x' -> got = bs /\ outq x' = q.
Proof.
  intros E <- (-> & -> & _). rewrite E, drop_app_length, <- app_assoc.
  by rewrite take_app_length.
Qed.

(** ** The command *)

Lemma native_write_wp port bs w (Q : X -> Prop) :
  wp (raw_send (chn port) bs) (fun _ x' => Q x') (tsd_bus w) ->
  Forall (fun b => 0 <= b < 256) bs ->
  wp (native_write port bs) (fun _ w' => flags w w' /\ Q (tsd_bus w')) w.
Proof.
  intros Hr Hb. revert w Hr. induction Hb as [|b bs Hb0 Hb IH]; intros w Hr.
  { apply wp_ret. by split. }
  cbn [native_write]. apply wp_bind. unfold native_exi_imm_rw. apply wp_bind, wp_tsd_bus.
  apply wp_bind_inv in Hr. rewrite shl, u32_small by lia.
  change (Z.lor (Z.lor (Z.shiftl (1 - 1) 4) (Z.shiftl EXI_READ_WRITE 2)) 1) with 9.
  eapply wp_mono; [exact Hr|]. intros r x1 Hr1. apply wp_ret.
  eapply wp_mono; [by apply IH|]. done.
Qed.

Lemma crc7_ref_bit_range r b : 0 <= r < 128 -> 0 <= crc7_ref_bit r b < 128.
Proof.
  intros Hr. assert (Hall : forallb (fun r => forallb (fun b =>
    (0 <=? crc7_ref_bit r b) && (crc7_ref_bit r b <? 128)) [true; false])
    (Z.of_nat <$> seq 0 128) = true) by (vm_compute; done).
  rewrite forallb_forall in Hall. specialize (Hall r).
  rewrite forallb_forall in Hall. cut ((0 <=? crc7_ref_bit r b) && (crc7_ref_bit r b <? 128) = true).
  { rewrite andb_true_iff, Z.leb_le, Z.ltb_lt. done. }
  apply Hall; [|destruct b; cbn; tauto].
  apply list_elem_of_In, list_elem_of_fmap. exists (Z.to_nat r). rewrite elem_of_seq. lia.
Qed.

Lemma crc7_ref_range bs : 0 <= crc7_ref bs < 128.
Proof.
  unfold crc7_ref. assert (Hg : forall l r, 0 <= r < 128 -> 0 <= foldl crc7_ref_bit r l < 128).
  { induction l as [|b l IH]; intros r Hr; [done|]. by apply IH, crc7_ref_bit_range. }
  apply Hg. lia.
Qed.

Lemma sd_frame_bytes arg : 0 <= arg < 2 ^ 32 -> Forall (fun b => 0 <= b < 256) (sd_frame 17 arg).
Proof.
  intros Ha. pose proof (word_top arg Ha). unfold sd_frame.
  assert (Hm : forall v, 0 <= v mod 256 < 256) by (intros; apply Z.mod_pos_bound; lia).
  set (head := [_; _; _; _; _]). pose proof (crc7_ref_range head).
  apply Forall_app. split; [|apply Forall_cons; split; [lia|done]].
  unfold head. repeat (apply Forall_cons; split); auto; lia.
Qed.

(** Sending the block-read command after the queue has been drained. *)
Lemma send_read_wp port arg w :
  between (tsd_bus w) -> outq (tsd_bus w) = [] -> 0 <= arg < 2 ^ 32 ->
  wp (tsd_write port (tsd_frame 17 arg))
     (fun ok w' => ok = true /\ flags w w' /\ asked arg (tsd_bus w) (tsd_bus w')) w.
Proof.
  intros Hw Hq Ha. rewrite frame_spec by lia. unfold tsd_write. apply wp_bind, wp_get.
  destruct (tsd_native w).
  - apply wp_bind. eapply wp_mono.
    + apply (native_write_wp port _ w (asked arg (tsd_bus w)));
        [by apply sd_read_raw|by apply sd_frame_bytes].
    + intros [] w1 [Hf Has]. by apply wp_ret.
  - apply wp_bind, wp_tsd_bus. eapply wp_mono; [by apply sd_read_lib|].
    intros [b bs] x1 [Eb Has]. by apply wp_ret.
Qed.

(** ** The replies *)

Definition kept w w' : Prop :=
  flags w w' /\ sd_sector (tsd_bus w') = sd_sector (tsd_bus w) /\ between (tsd_bus w').

Lemma kept_trans w1 w2 w3 : kept w1 w2 -> kept w2 w3 -> kept w1 w3.
Proof.
  intros (? & ? & ?) (? & ? & ?). split; [by eapply flags_trans|]. split; [congruence|done].
Qed.

Lemma kept_between w1 w2 : kept w1 w2 -> between (tsd_bus w2).
Proof. by intros (_ & _ & ?). Qed.
Hint Resolve kept_between : core.

Lemma read_one_byte port b q w :
  between (tsd_bus w) -> outq (tsd_bus w) = b :: q ->
  wp (tsd_read port 1)
     (fun r w' => r = (true, [b]) /\ kept w w' /\ outq (tsd_bus w') = q) w.
Proof.
  intros Hw Hq. eapply wp_mono; [by apply tsd_read_wp|]. intros [ok bs] w1 (Hok & Hf & Hp).
  cbn in Hok, Hp. destruct (popped_one _ _ _ _ _ Hq Hp) as [-> Hq1]. subst ok.
  split; [done|]. split; [|done]. destruct Hp as (_ & _ & ? & ?). by split.
Qed.

Lemma response_wp port n w pre r0 tl :
  Forall (fun b => Z.land b 0x80 <> 0) pre -> Z.land r0 0x80 = 0 ->
  between (tsd_bus w) -> outq (tsd_bus w) = pre ++ r0 :: tl ->
  wp (response_loop n port)
     (fun r w' => kept w w' /\ (r = None \/ r = Some r0 /\ outq (tsd_bus w') = tl)) w.
Proof.
  intros Hpre Hr0. revert pre Hpre w. induction n as [|n IH]; intros pre Hpre w Hw Hq;
    cbn [response_loop]. { apply wp_ret. by split; [|left]. }
  apply wp_bind. destruct pre as [|b pre]; cbn in Hq.
  - eapply wp_mono; [by apply read_one_byte|]. intros r w1 (-> & Hk & Hq1). cbn.
    rewrite Hr0. cbn. apply wp_ret. split; [done|]. by right.
  - inversion_clear Hpre as [|? ? Hb Hpre'].
    eapply wp_mono; [by apply read_one_byte|]. intros r w1 (-> & Hk & Hq1). cbn.
    destruct (Z.eqb_spec (Z.land b 128) 0) as [?|_]; [done|]. cbn.
    eapply wp_mono; [eapply IH; eauto|]. intros r w2 [Hk2 Hr].
    split; [by eapply kept_trans|done].
Qed.

Lemma token_wp port fuel w idle tl :
  Forall (fun b => b <> 0xFE) idle -> (length idle < fuel)%nat ->
  between (tsd_bus w) -> outq (tsd_bus w) = idle ++ 0xFE :: tl ->
  wp (token_loop fuel port)
     (fun ok w' => ok = true /\ kept w w' /\ outq (tsd_bus w') = tl) w.
Proof.
  revert idle w. induction fuel as [|fuel IH]; intros idle w Hi Hl Hw Hq; [lia|].
  cbn [token_loop]. apply wp_bind. destruct idle as [|b idle]; cbn in Hq, Hl.
  - eapply wp_mono; [by apply read_one_byte|]. intros r w1 (-> & Hk & Hq1). cbn.
    by apply wp_ret.
  - inversion_clear Hi as [|? ? Hb Hi'].
    eapply wp_mono; [by apply read_one_byte|]. intros r w1 (-> & Hk & Hq1). cbn.
    destruct (Z.eqb_spec b 0xFE) as [?|_]; [done|].
    eapply wp_mono; [eapply IH; [exact Hi'|lia|eauto|exact Hq1]|]. intros ok w2 (Hok & Hk2 & Hq2).
    split_all. by eapply kept_trans.
Qed.

(** A block on its way. *)
Definition coming (sector : list Z) (q : list Z) : Prop :=
  exists idle c1 c2, Forall (fun b => b <> 0xFE) idle /\ (length idle <= max_idle)%nat
    /\ q = idle ++ 0xFE :: sector ++ [c1; c2].

Lemma recv_data_wp port w sector :
  between (tsd_bus w) -> coming sector (outq (tsd_bus w)) -> length sector = 512%nat ->
  wp (tsd_recv_data patience port 512)
     (fun r w' => r = (true, sector) /\ kept w w' /\ outq (tsd_bus w') = []) w.
Proof.
  intros Hw (idle & c1 & c2 & Hi & Hl & Hq) Hs. unfold tsd_recv_data.
  apply wp_bind. eapply wp_mono; [eapply token_wp; [exact Hi|lia|exact Hw|exact Hq]|].
  intros ok w1 (-> & Hk1 & Hq1). cbn [negb].
  apply wp_bind. eapply wp_mono; [apply tsd_read_wp; eauto|]. intros [ok bs] w2 (Hok & Hf2 & Hp2).
  cbn [fst snd] in *. subst ok.
  destruct (popped_app _ _ _ _ _ _ Hq1 Hs Hp2) as [-> Hq2]. cbn [negb].
  apply wp_bind. eapply wp_mono; [apply tsd_read_wp, Hp2|]. intros [ok bs] w3 (Hok & Hf3 & Hp3).
  cbn [fst snd] in *. subst ok. apply wp_ret. split; [done|].
  assert (Hn : [c1; c2] = [c1; c2] ++ []) by done. rewrite Hn in Hq2.
  destruct (popped_app _ _ _ _ _ _ Hq2 eq_refl Hp3) as [_ Hq3]. split; [|done].
  eapply kept_trans; [exact Hk1|]. eapply (kept_trans _ w2).
  - split; [done|apply Hp2].
  - split; [done|apply Hp3].
Qed.

(** Asking for a block, from a card with little left to say. *)
Lemma send_cmd_wp port blk arg w :
  between (tsd_bus w) -> (length (outq (tsd_bus w)) <= 100)%nat -> 0 <= arg < 2 ^ 32 ->
  arg = (if sd_block then blk else blk * 512) ->
  wp (tsd_send_cmd port 17 arg 1)
     (fun r w' => kept w w' /\
        (r.1 = false \/ nth 0 r.2 0 <> 0
         \/ coming (sd_sector (tsd_bus w) blk) (outq (tsd_bus w')))) w.
Proof.
  intros Hw Hq Ha Harg. unfold tsd_send_cmd.
  apply wp_bind. eapply wp_mono; [by apply tsd_read_wp|]. intros r0 w1 (_ & Hf1 & Hp1).
  assert (Hq1 : outq (tsd_bus w1) = []) by (destruct Hp1 as (_ & -> & _); apply drop_ge; lia).
  assert (Hk1 : kept w w1) by (split; [done|apply Hp1]).
  apply wp_bind. eapply wp_mono; [apply send_read_wp; eauto|].
  intros ok w2 (-> & Hf2 & Hs2 & Hb2 & Hrep). cbn [negb]. specialize (Hrep blk Harg).
  assert (Hk2 : kept w w2) by (eapply kept_trans; [exact Hk1|by split]).
  assert (Es : sd_sector (tsd_bus w1) = sd_sector (tsd_bus w)) by apply Hk1.
  rewrite Es in Hrep. destruct Hrep as (pre & Hpre & Hcase).
  assert (Hsplit : exists b tl, outq (tsd_bus w2) = pre ++ b :: tl /\ Z.land b 0x80 = 0 /\
    (b <> 0 \/ coming (sd_sector (tsd_bus w) blk) tl)).
  { destruct Hcase as [(e & He & Hne & E)|(idle & c1 & c2 & Hi & Hl & E)].
    - exists e, []. split_all.
    - exists 0, (idle ++ 0xFE :: sd_sector (tsd_bus w) blk ++ [c1; c2]). split_all.
      right. by exists idle, c1, c2. }
  destruct Hsplit as (b & tl & E & Hb & Hres).
  apply wp_bind. eapply wp_mono; [eapply response_wp; [exact Hpre|exact Hb|exact Hb2|exact E]|].
  intros r w3 [Hk3 Hr]. pose proof (kept_trans _ _ _ Hk2 Hk3) as Hk.
  destruct Hr as [->|[-> Hq3]]; [apply wp_ret; by split; [|left]|].
  cbn. apply wp_ret. split; [done|]. right. cbn. rewrite Hq3. tauto.
Qed.

(** ** Sector reads *)

Definition sd_run (x : X) (s : Z) (n : nat) : list Z :=
  pieces (fun i => sd_sector x (s + Z.of_nat i)) n.

Lemma length_sd_run x s n : length (sd_run x s n) = (n * 512)%nat.
Proof. apply (length_pieces _ 512). intros. apply sd_sector_len. Qed.

Definition sd_addr (blk : Z) : Z := if sd_block then blk else blk * 512.
Definition sd_limit : Z := if sd_block then 2 ^ 32 else 2 ^ 23.

Lemma sd_loop_wp port w0 s (n : nat) buf : forall m k w,
  (k + m = n)%nat -> (n * 512 <= length buf)%nat ->
  0 <= s -> s + Z.of_nat n <= sd_limit ->
  kept w0 w -> (length (outq (tsd_bus w)) <= 100)%nat ->
  addressing_block w = sd_block ->
  wp (tsd_read_loop patience m port (u32 (sd_addr (s + Z.of_nat k))) k
        (splice 0 (sd_run (tsd_bus w0) s k) buf))
     (fun r w' => kept w0 w' /\ length r.2 = length buf
        /\ (r.1 = true -> r.2 = splice 0 (sd_run (tsd_bus w0) s n) buf)) w.
Proof.
  induction m as [|m IH]; intros k w Hk Hbuf Hs Hlim Hkept Hq Hab; cbn [tsd_read_loop];
    pose proof (kept_between _ _ Hkept) as Hw.
  { apply wp_bind. eapply wp_mono; [apply tsd_deselect_wp|]. intros ok w1 (Hf & _ & Hse & Hbe).
    apply wp_ret. replace k with n by lia. cbn. split; [|split; [|done]].
    - eapply kept_trans; [exact Hkept|]. split; [done|]. split; [done|auto].
    - apply length_splice. rewrite length_sd_run. lia. }
  assert (Hfail : forall w1, kept w0 w1 ->
    wp (tsd_deselect port ;; ret (false, splice 0 (sd_run (tsd_bus w0) s k) buf))
     (fun r w' => kept w0 w' /\ length r.2 = length buf
        /\ (r.1 = true -> r.2 = splice 0 (sd_run (tsd_bus w0) s n) buf)) w1).
  { intros w1 Hk1. pose proof (kept_between _ _ Hk1). apply wp_bind. eapply wp_mono; [apply tsd_deselect_wp|].
    intros ok w2 (Hf & _ & Hse & Hbe). apply wp_ret.
    split; [eapply kept_trans; [exact Hk1|]; split; [done|]; split; [done|auto]|].
    split; [|done]. cbn. apply length_splice. rewrite length_sd_run. lia. }
  assert (Hadr : 0 <= sd_addr (s + Z.of_nat k) < 2 ^ 32)
    by (unfold sd_addr, sd_limit in *; destruct sd_block; lia).
  rewrite u32_small by done.
  apply wp_bind. eapply wp_mono; [apply (send_cmd_wp port (s + Z.of_nat k)); eauto|].
  intros r w1 [Hk1 Hr]. pose proof (kept_trans _ _ _ Hkept Hk1) as Hk01.
  destruct (negb r.1 || negb (nth 0 r.2 0 =? 0)) eqn:Ebad; [by apply Hfail|].
  apply orb_false_iff in Ebad as [E1 E2]. apply negb_false_iff in E1, E2.
  apply Z.eqb_eq in E2. destruct Hr as [?|[?|Hcome]]; [congruence|done|].
  pose proof Hkept as (_ & Es0 & _). rewrite Es0 in Hcome.
  apply wp_bind. eapply wp_mono; [apply (recv_data_wp port w1 _ (kept_between _ _ Hk1) Hcome), sd_sector_len|].
  intros r2 w2 (-> & Hk2 & Hq2). cbn [fst snd negb].
  apply wp_bind, wp_get.
  assert (Hab2 : addressing_block w2 = sd_block).
  { destruct Hk2 as [[_ E3] _], Hk1 as [[_ E4] _]. congruence. }
  replace (splice (k * 512) (sd_sector (tsd_bus w0) (s + Z.of_nat k)) _)
    with (splice 0 (sd_run (tsd_bus w0) s (k + 1)) buf).
  2: { unfold sd_run. rewrite Nat.add_1_r, pieces_S. fold (sd_run (tsd_bus w0) s k).
       rewrite <- (splice_splice_adj 0); rewrite length_sd_run; [done|].
       rewrite sd_sector_len. lia. }
  replace (u32 (sd_addr (s + Z.of_nat k) + (if addressing_block w2 then 1 else 512)))
    with (u32 (sd_addr (s + Z.of_nat (k + 1)))).
  2: { rewrite Hab2. f_equal. unfold sd_addr. destruct sd_block; lia. }
  apply IH; try done; try lia.
  - by eapply kept_trans.
  - rewrite Hq2. cbn. lia.
Qed.

(** C7. With a card whose addressing mode was learned at initialisation, a
    sector read always returns (given enough patience for the card's data
    token) and, when it reports success, has delivered exactly the requested
    blocks, whatever the card put on the line while preparing its responses,
    through the retail EXI driver and through the raw registers alike. *)
Theorem tsd_reads_the_card port w s buf (n : nat) :
  addressing_block w = sd_block -> between (tsd_bus w) ->
  (length (outq (tsd_bus w)) <= 100)%nat ->
  0 <= s < 2 ^ 32 -> s + Z.of_nat n <= sd_limit -> (n * 512 <= length buf)%nat ->
  exists ok buf' w', tsd_sd_read patience port s buf (Z.of_nat n) w = Some (ok, buf', w')
    /\ sd_sector (tsd_bus w') = sd_sector (tsd_bus w)
    /\ length buf' = length buf
    /\ (ok = true -> buf' = splice 0 (sd_run (tsd_bus w) s n) buf).
Proof.
  intros Hab Hbe Hq Hs Hlim Hbuf.
  assert (Hwp : wp (tsd_sd_read patience port s buf (Z.of_nat n))
    (fun r w' => kept w w' /\ length r.2 = length buf
        /\ (r.1 = true -> r.2 = splice 0 (sd_run (tsd_bus w) s n) buf)) w).
  { unfold tsd_sd_read. apply wp_bind. eapply wp_mono; [apply tsd_select_wp|].
    intros b w1 (-> & Hf1 & Hq1 & Hs1 & Hb1). cbn [negb]. apply wp_bind, wp_get.
    pose proof (sd_loop_wp port w s n buf n 0 w1) as Hl.
    assert (E0 : splice 0 (sd_run (tsd_bus w) s 0) buf = buf) by (apply splice_nil; lia).
    rewrite E0, Z.add_0_r in Hl. rewrite Nat2Z.id.
    assert (Hab1 : addressing_block w1 = sd_block) by (destruct Hf1; congruence).
    replace (if addressing_block w1 then s else u32 (s * 512)) with (u32 (sd_addr s)).
    2: { rewrite Hab1. unfold sd_addr, sd_limit in *. destruct sd_block; [|done].
         apply u32_small. lia. }
    apply Hl; try done; try lia; [split; [done|]; split; [done|auto]|by rewrite Hq1]. }
  destruct (wp_elim _ _ _ Hwp) as ([ok buf'] & w' & E & (_ & Es & _) & Hlen & Hok).
  by exists ok, buf', w'.
Qed.
End Card.

(** ** A simulated card *)

(** It answers every block read after two busy bytes and one idle byte; its
    blocks hold their own number. *)
Record sim_sd := mk_sim_sd { sim_out : list Z; sim_in : list Z }.
Definition sim_block (b : Z) : list Z := replicate 512 (u8 b).
Definition sim_answer (frame : list Z) : list Z :=
  [0xFF; 0xFF; 0] ++ [0xFF; 0xFE] ++ sim_block (be32 frame 1) ++ [0; 0].
Definition sim_frame_in (bs : list Z) (x : sim_sd) : sim_sd :=
  mk_sim_sd (sim_answer bs) [].
Definition sim_pop (n : nat) (x : sim_sd) : list Z * sim_sd :=
  (take n (sim_out x ++ replicate n 0xFF), mk_sim_sd (drop n (sim_out x)) (sim_in x)).

#[export] Instance sim_sd_exi : ExiBus sim_sd := {
  EXILock _ _ := ret true;
  EXIUnlock _ := ret tt;
  EXISelect _ _ _ := ret true;
  EXIDeselect _ := ret tt;
  EXIImmEx _ bs mode := fun x =>
    if mode =? EXI_WRITE then Some (true, bs, sim_frame_in bs x)
    else let '(got, x) := sim_pop (length bs) x in Some (true, got, x);
  exi_csr _ _ := 0;
  exi_set_csr _ _ x := x;
  exi_start_imm _ val _ := fun x =>
    if (val =? 0xFF * 2 ^ 24) && (length (sim_in x) =? 0)%nat
    then let '(got, x) := sim_pop 1 x in Some (nth 0 got 0 * 2 ^ 24, x)
    else let l := sim_in x ++ [val / 2 ^ 24] in
         if (length l =? 6)%nat then Some (0, sim_frame_in l x)
         else Some (0, mk_sim_sd (sim_out x) l);
  exi_start_dma _ _ _ x := (None, [], x)
}.

Definition sim_between (x : sim_sd) : Prop :=
  sim_in x = [] /\ Forall (fun b => 0 <= b < 256) (sim_out x).

Lemma sim_answer_bytes f : Forall (fun b => 0 <= b < 256) (sim_answer f).
Proof.
  unfold sim_answer, sim_block. rewrite !Forall_app, !Forall_cons. split_and!; try done.
  apply Forall_replicate, u8_range.
Qed.

Lemma sim_answer_reply arg :
  0 <= arg < 2 ^ 32 -> read_reply (sim_block arg) 1 (sim_answer (sd_frame 17 arg)).
Proof.
  intros Ha. exists [0xFF; 0xFF]. split; [by repeat constructor|]. right.
  exists [0xFF], 0, 0. split; [by repeat constructor|]. split; [done|].
  unfold sim_answer. replace (be32 (sd_frame 17 arg) 1) with arg; [done|].
  unfold be32, sd_frame; cbn [nth Nat.add app]. pose proof (word_bytes arg).
  change (2 ^ 8) with 256 in *. lia.
Qed.

Lemma byte_back b : 0 <= b < 256 -> u8 (b * 2 ^ 24 / 2 ^ 24) = b.
Proof. intros. rewrite Z.div_mul by lia. by apply u8_small. Qed.

Lemma sim_first c :
  exi_start_imm c ((64 + 17) * 2 ^ 24) 9 (mk_sim_sd [] []) = Some (0, mk_sim_sd [] [81]).
Proof. reflexivity. Qed.

Lemma sim_step c b l out :
  (length l < 6)%nat -> l <> [] ->
  exi_start_imm c (b * 2 ^ 24) 9 (mk_sim_sd out l)
  = if (length l =? 5)%nat then Some (0, sim_frame_in (l ++ [b]) (mk_sim_sd out l))
    else Some (0, mk_sim_sd out (l ++ [b])).
Proof.
  intros Hl Hne. unfold exi_start_imm, sim_sd_exi. cbn [sim_in sim_out].
  destruct l as [|a l]; [done|]. cbn [length Nat.eqb]. rewrite andb_false_r, Z.div_mul by lia.
  rewrite length_app. cbn [length]. by rewrite Nat.add_1_r.
Qed.

#[export, refine] Instance sim_sd_card : SdCard sim_sd := {
  outq := sim_out;
  sd_sector _ := sim_block;
  sd_block := true;
  max_idle := 1;
  between := sim_between
}.
Proof.
  all: try (intros; by split_all).
  - intros c n x [Hi Ho]. cbn. rewrite length_replicate. split_all. split; [done|].
    by apply Forall_drop.
  - intros c [out inn] [Hi Ho]. cbn in Hi, Ho. subst inn.
    unfold wp, exi_start_imm; cbn -[Z.mul Z.div u8 Z.pow Z.eqb]. rewrite Z.eqb_refl.
    cbn -[Z.mul Z.div u8 Z.pow]. destruct Ho as [|b q Hb Ho];
      cbn -[Z.mul Z.div u8 Z.pow]; rewrite ?byte_back by done; by split_and!.
  - intros c arg x [Hi Ho] Hq Ha. unfold wp.
    change (EXIImmEx c (sd_frame 17 arg) EXI_WRITE x)
      with (Some (true, sd_frame 17 arg, sim_frame_in (sd_frame 17 arg) x)).
    split; [done|]. split; [done|]. split; [split; [done|apply sim_answer_bytes]|].
    intros blk ->. exact (sim_answer_reply blk Ha).
  - intros c arg [out inn] [Hi Ho] Hq Ha. cbn in Hi, Hq. subst inn out.
    assert (Hsend : raw_send c (sd_frame 17 arg) (mk_sim_sd [] [])
                    = Some (tt, sim_frame_in (sd_frame 17 arg) (mk_sim_sd [] []))).
    { unfold sd_frame. cbn [app]. set (crc := 2 * _ + 1).
      cbn [raw_send]. unfold bind, ret. rewrite sim_first.
      repeat (rewrite sim_step by (done || cbn; lia); cbn [length Nat.eqb app]). done. }
    unfold wp. rewrite Hsend. split; [done|].
    split; [split; [done|apply sim_answer_bytes]|].
    intros blk ->. exact (sim_answer_reply blk Ha).
Defined.

Lemma tsd_reads_the_card_witness : exists ok buf' w',
  tsd_sd_read 2 (mk_port 2 0) 7 (replicate 1024 0) (Z.of_nat 2)
    (mk_tsd true true (mk_sim_sd [0xFF] [])) = Some (ok, buf', w')
  /\ (ok = true -> buf' = splice 0 (sd_run (mk_sim_sd [0xFF] []) 7 2) (replicate 1024 0)).
Proof.
  assert (Hb : between (mk_sim_sd [0xFF] [])) by (split; [done|by repeat constructor]).
  assert (Hp : (max_idle (X := sim_sd) < 2)%nat) by (cbn; lia).
  destruct (tsd_reads_the_card 2 Hp (mk_port 2 0)
    (mk_tsd true true (mk_sim_sd [0xFF] [])) 7 (replicate 1024 0) 2)
    as (ok & buf' & w' & E & _ & _ & Hok);
    [done|exact Hb|cbn; lia|lia|unfold sd_limit; cbn; lia|vm_compute; lia|].
  exists ok, buf', w'. split; [exact E|exact Hok].
Defined.
