(* ===== verification/Disk.v ===== *)
(** The FatFs glue, [emu/ffs/diskio.c]: which driver and port a drive number
    means, and the entry points FatFs calls, which reach the drivers through
    the block cache. *)

From S2P Require Import Prelude BlockDev Exi DvmCache.

Definition DEV_SDA : Z := 0.
Definition DEV_SDB : Z := 1.
Definition DEV_SDC : Z := 2.
Definition DEV_ATAA : Z := 3.
Definition DEV_ATAB : Z := 4.
Definition DEV_ATAC : Z := 5.
Definition DEV_WKF : Z := 6.
Definition DEV_GCLDR : Z := 7.
Definition DEV_ARAM : Z := 8.

Definition STA_NOINIT : Z := 1.
Definition CTRL_SYNC : Z := 0.
Definition GET_SECTOR_COUNT : Z := 1.
Definition GET_SECTOR_SIZE : Z := 2.
Definition GET_BLOCK_SIZE : Z := 3.

Definition disk_is_sd (pdrv : Z) : bool :=
  (pdrv =? DEV_SDA) || (pdrv =? DEV_SDB) || (pdrv =? DEV_SDC).
Definition disk_is_ata (pdrv : Z) : bool :=
  (pdrv =? DEV_ATAA) || (pdrv =? DEV_ATAB) || (pdrv =? DEV_ATAC).
Definition disk_is_gcldr (pdrv : Z) : bool := pdrv =? DEV_GCLDR.

(** The table has an entry per FatFs volume, zero beyond the three listed; it is
    only read for the SD drives. *)
Definition exi_port_map (pdrv : Z) : exi_port :=
  nth (Z.to_nat pdrv) [mk_port 0 0; mk_port 1 0; mk_port 2 0] (mk_port 0 0).

Definition ata_port (pdrv : Z) : exi_port :=
  if pdrv =? DEV_ATAC then mk_port 0 2 else mk_port (u8 (pdrv - DEV_ATAA)) 0.

(** What a driver offers the glue ([tsd_sd_*], [ata_*], [gcode_sd_*], whose
    definitions are in [Tsd.v], [Ata.v] and [Gcode.v]): initialisation, and
    transfers that answer with success and, for a read, the memory at the
    destination afterwards. *)
Class StorageDrivers (W : Type) := {
  sd_init : exi_port -> W -> bool * W;
  sd_read : exi_port -> Z -> Z -> list Z -> Z -> W -> bool * list Z * W;
  sd_write : exi_port -> Z -> list Z -> Z -> W -> bool * W;
  ata_drv_init : exi_port -> W -> bool * W;
  ata_drv_read : exi_port -> Z -> Z -> list Z -> Z -> W -> bool * list Z * W;
  ata_drv_write : exi_port -> Z -> list Z -> Z -> W -> bool * W;
  gc_init : W -> bool * W;
  gc_read : Z -> Z -> list Z -> Z -> W -> bool * list Z * W;
  gc_write : Z -> list Z -> Z -> W -> bool * W
}.

Section Disk.
Context {W : Type} `{StorageDrivers W}.

Definition read_result (r : bool * list Z * W) : DRESULT * list Z * W :=
  let '(ok, bs, w) := r in (if ok then RES_OK else RES_ERROR, bs, w).
Definition write_result (r : bool * W) : DRESULT * W :=
  let '(ok, w) := r in (if ok then RES_OK else RES_WRPRT, w).

(** The drivers take 32-bit sector numbers. *)
#[export] Instance disk_raw : BlockDevice W := {
  disk_read_raw pdrv addr buff sector count w :=
    if disk_is_sd pdrv then
      read_result (sd_read (exi_port_map pdrv) (u32 sector) addr buff count w)
    else if disk_is_ata pdrv then
      read_result (ata_drv_read (ata_port pdrv) (u32 sector) addr buff count w)
    else if disk_is_gcldr pdrv then
      read_result (gc_read (u32 sector) addr buff count w)
    else (RES_PARERR, buff, w);
  disk_write_raw pdrv buff sector count w :=
    if disk_is_sd pdrv then
      write_result (sd_write (exi_port_map pdrv) (u32 sector) buff count w)
    else if disk_is_ata pdrv then
      write_result (ata_drv_write (ata_port pdrv) (u32 sector) buff count w)
    else if disk_is_gcldr pdrv then
      write_result (gc_write (u32 sector) buff count w)
    else (RES_PARERR, w)
}.

Definition disk_status (pdrv : Z) : Z :=
  if disk_is_sd pdrv then 0
  else if disk_is_ata pdrv then 0
  else if disk_is_gcldr pdrv then 0
  else STA_NOINIT.

Definition sta (r : bool * W) : Z * W := let '(ok, w) := r in (if ok then 0 else STA_NOINIT, w).

Section Entry.
Context (DVM_CACHE_PAGES : nat).

Definition disk_initialize (pdrv : Z) (c : dvm_state) (w : W) : Z * dvm_state * W :=
  let c := dvm_cache_invalidate DVM_CACHE_PAGES c in
  let '(r, w) :=
    if disk_is_sd pdrv then sta (sd_init (exi_port_map pdrv) w)
    else if disk_is_ata pdrv then sta (ata_drv_init (ata_port pdrv) w)
    else if disk_is_gcldr pdrv then sta (gc_init w)
    else (STA_NOINIT, w) in
  (r, c, w).

Definition disk_known (pdrv : Z) : bool :=
  disk_is_sd pdrv || disk_is_ata pdrv || disk_is_gcldr pdrv.

Definition disk_read (pdrv addr : Z) (buff : list Z) (sector count : Z) (c : dvm_state) (w : W)
    : option (DRESULT * list Z * dvm_state * W) :=
  if negb (disk_is_sd pdrv) && negb (disk_is_ata pdrv) && negb (disk_is_gcldr pdrv)
  then Some (RES_PARERR, buff, c, w)
  else dvm_cache_read DVM_CACHE_PAGES pdrv addr buff sector count c w.

Definition disk_write (pdrv addr : Z) (buff : list Z) (sector count : Z) (c : dvm_state) (w : W)
    : option (DRESULT * list Z * dvm_state * W) :=
  if negb (disk_is_sd pdrv) && negb (disk_is_ata pdrv) && negb (disk_is_gcldr pdrv)
  then Some (RES_PARERR, buff, c, w)
  else dvm_cache_write DVM_CACHE_PAGES pdrv addr buff sector count c w.
End Entry.

(** [disk_ioctl]: the result and the value stored through [buff], if any. *)
Definition disk_ioctl (pdrv cmd : Z) : DRESULT * option Z :=
  if disk_is_sd pdrv || disk_is_ata pdrv || disk_is_gcldr pdrv then
    if cmd =? CTRL_SYNC then (RES_OK, None)
    else if cmd =? GET_SECTOR_COUNT then (RES_OK, Some 0xFFFFFFFF)
    else if cmd =? GET_SECTOR_SIZE then (RES_OK, Some 512)
    else if cmd =? GET_BLOCK_SIZE then (RES_OK, Some 1)
    else (RES_PARERR, None)
  else (RES_PARERR, None).

Definition disk_shutdown (pdrv : Z) : DRESULT :=
  if disk_is_sd pdrv then RES_OK
  else if disk_is_ata pdrv then RES_OK
  else if disk_is_gcldr pdrv then RES_OK
  else RES_PARERR.
End Disk.
