(* ===== verification/DiskThms.v ===== *)
(** The FatFs glue: a drive number means one driver and one port, unknown
    numbers are refused everywhere, and (re)initialising a drive makes the
    cache forget the medium that was there before. *)

From S2P Require Import Prelude Exi BlockDev DvmCache DvmCacheFacts DvmCacheThms Disk.

(** The driver and port behind a drive number. *)
Inductive target := SdTarget (p : exi_port) | AtaTarget (p : exi_port) | GcTarget.

Definition target_of (pdrv : Z) : option target :=
  if disk_is_sd pdrv then Some (SdTarget (exi_port_map pdrv))
  else if disk_is_ata pdrv then Some (AtaTarget (ata_port pdrv))
  else if disk_is_gcldr pdrv then Some GcTarget
  else None.

Lemma known_cases pdrv : disk_known pdrv = true -> pdrv ∈ [0; 1; 2; 3; 4; 5; 7].
Proof.
  unfold disk_known, disk_is_sd, disk_is_ata, disk_is_gcldr.
  rewrite !orb_true_iff, !Z.eqb_eq. intros Hk.
  repeat rewrite elem_of_cons. unfold DEV_SDA, DEV_SDB, DEV_SDC, DEV_ATAA, DEV_ATAB, DEV_ATAC,
    DEV_GCLDR in Hk. intuition.
Qed.

Lemma target_inj p q :
  disk_known p = true -> disk_known q = true -> target_of p = target_of q -> p = q.
Proof.
  intros Hp Hq. apply known_cases in Hp, Hq.
  rewrite !elem_of_cons, elem_of_nil in Hp, Hq.
  destruct_or!; subst; intros E; first [reflexivity|done|discriminate].
Qed.

(** The drive numbers of the seven supported devices reach seven different
    (driver, port) pairs, and the status, shutdown, control and transfer entry
    points agree on which numbers are drives: every other number is refused by
    all of them, without touching a driver or the cache. *)
Theorem disk_dispatch {W} `{StorageDrivers W} (N : nat) p q (w : W) (c : dvm_state) a buf s n cmd :
  (disk_known p = true -> disk_known q = true -> target_of p = target_of q -> p = q)
  /\ (disk_status p = 0 <-> disk_known p = true)
  /\ (disk_shutdown p = RES_OK <-> disk_known p = true)
  /\ (disk_known p = false ->
      disk_read N p a buf s n c w = Some (RES_PARERR, buf, c, w)
      /\ disk_write N p a buf s n c w = Some (RES_PARERR, buf, c, w)
      /\ disk_read_raw p a buf s n w = (RES_PARERR, buf, w)
      /\ disk_ioctl p cmd = (RES_PARERR, None)).
Proof.
  split; [apply target_inj|].
  unfold disk_read, disk_write, disk_ioctl, disk_status, disk_shutdown, disk_known; cbn.
  destruct (disk_is_sd p), (disk_is_ata p), (disk_is_gcldr p); cbn; by split_and!.
Qed.

(** C8. Initialising a drive makes the cache forget everything: whatever state
    the page table was in, corrupt links included, and whatever medium is in
    the drives afterwards, a read that follows delivers the sectors of that
    medium when it succeeds. *)
Theorem disk_initialize_forgets_medium {W} `{StorageDrivers W} `{!BlockDeviceLaws W}
    (N : nat) pinit (c : dvm_state) (w w2 : W) r c1 w1 p addr buf s (n : nat) :
  (0 < N)%nat -> length (dvm_cache_data c) = (N * DVM_PAGE_SZ)%nat ->
  disk_initialize N pinit c w = (r, c1, w1) ->
  disk_known p = true -> in_range s (Z.of_nat n) -> (n * SECTOR_SZ <= length buf)%nat ->
  exists res buf' c2 w3, disk_read N p addr buf s (Z.of_nat n) c1 w2 = Some (res, buf', c2, w3)
    /\ (res = RES_OK -> buf' = splice 0 (range_bytes w2 p s n) buf).
Proof.
  intros HN Hl Hinit Hp Hr Hb.
  assert (Ec : c1 = dvm_cache_invalidate N c).
  { unfold disk_initialize in Hinit. by destruct (if disk_is_sd pinit then _ else _); simplify_eq. }
  assert (Hi : cache_inv N c1 w2).
  { subst c1. split; [done|..]; intros.
    - exists [], (seq 0 N). by apply reset_table.
    - intros i Hi. by destruct (Hi (reset_base N c i)).
    - exists (seq 0 N). by apply reset_table. }
  destruct (dvm_read_spec N HN c1 w2 p addr buf s n Hi Hr Hb)
    as (res & buf' & c2 & w3 & E & _ & _ & Hok & _).
  exists res, buf', c2, w3. split; [|done]. rewrite <- E. unfold disk_read.
  unfold disk_known in Hp. by destruct (disk_is_sd p), (disk_is_ata p), (disk_is_gcldr p).
Qed.

(** Three drivers over sectors that hold their number, from an origin that
    changes with the medium. *)
Definition sim_read (s : Z) (n : Z) (w : Z) : bool * list Z * Z :=
  (true, pieces (fun i => replicate SECTOR_SZ (u8 (w + s + Z.of_nat i))) (Z.to_nat n), w).

#[export] Instance sim_drivers : StorageDrivers Z := {
  sd_init _ w := (true, w);
  sd_read _ s _ _ n w := sim_read s n w;
  sd_write _ _ _ _ w := (false, w);
  ata_drv_init _ w := (true, w);
  ata_drv_read _ s _ _ n w := sim_read s n w;
  ata_drv_write _ _ _ _ w := (false, w);
  gc_init w := (true, w);
  gc_read s _ _ n w := sim_read s n w;
  gc_write _ _ _ w := (false, w)
}.

#[export, refine] Instance sim_drivers_laws : BlockDeviceLaws Z := {
  content w p s := replicate SECTOR_SZ (u8 (w + s))
}.
Proof.
  - intros. apply length_replicate.
  - intros p a buf s n d r bs d'. cbn. unfold read_result, sim_read.
    repeat case_match; intros; by simplify_eq.
  - intros p a buf s n d r bs d' _ Hl. cbn. unfold read_result, sim_read.
    assert (Hp : forall v, length (pieces (fun i => replicate SECTOR_SZ (u8 (d + v + Z.of_nat i)))
      (Z.to_nat n)) = length buf).
    { intros v. rewrite Hl. apply length_pieces. intros. apply length_replicate. }
    repeat case_match; intros E; injection E as <- <- <-; first [done|apply Hp].
  - intros p a buf s n d bs d' (Hs & Hn & Hr) _. cbn. unfold read_result, sim_read.
    assert (Hp : pieces (fun i => replicate SECTOR_SZ (u8 (d + u32 s + Z.of_nat i))) (Z.to_nat n)
      = pieces (fun i => replicate SECTOR_SZ (u8 (d + (s + Z.of_nat i)))) (Z.to_nat n)).
    { apply pieces_ext. intros i Hi. rewrite u32_small by lia. do 2 f_equal. lia. }
    repeat case_match; intros E; first [discriminate|injection E as <- <-; exact Hp].
  - intros p bs s n d d' _ _. cbn. unfold write_result.
    repeat case_match; intros; by simplify_eq.
  - intros p bs s n d r d' _. cbn. unfold write_result.
    repeat case_match; intros; by simplify_eq.
Qed.

Lemma disk_initialize_forgets_medium_witness : exists res buf' c2 w3,
  disk_read 2 4 64 (replicate 512 0) 9 (Z.of_nat 1)
    (dvm_cache_invalidate 2 (mk_dvm 0 (replicate (2 * DVM_PAGE_SZ) 7) [] None (Some 9%nat) 4 true false))
    (100 : Z) = Some (res, buf', c2, w3)
  /\ (res = RES_OK -> buf' = splice 0 (range_bytes (100 : Z) 4 9 1) (replicate 512 0)).
Proof.
  eapply (disk_initialize_forgets_medium 2 0
    (mk_dvm 0 (replicate (2 * DVM_PAGE_SZ) 7) [] None (Some 9%nat) 4 true false) (5 : Z)
    (100 : Z)); [lia|done|reflexivity|done|done|done].
Defined.
