(* ===== verification/CStr.v ===== *)
(** C strings in memory.  A buffer is the list of its bytes; the string a
    buffer holds is what precedes its first NUL.  The library's copying
    routines write into a buffer of known size, and are [None] where the C call
    would write past its end. *)

From Stdlib Require Import String Ascii.
From S2P Require Import Prelude.

(** The bytes of a literal. *)
Definition str (s : string) : list Z :=
  (fun a => Z.of_N (N_of_ascii a)) <$> list_ascii_of_string s.
Arguments str _%_string : simpl never.

(** The string a buffer holds. *)
Fixpoint cstr (m : list Z) : list Z :=
  match m with
  | [] => []
  | c :: m => if c =? 0 then [] else c :: cstr m
  end.

(** A value of type [const char *]: the bytes before the terminator. *)
Definition is_cstr (s : list Z) : Prop := Forall (fun c => 0 < c < 256) s.
#[global] Instance is_cstr_dec s : Decision (is_cstr s).
Proof. unfold is_cstr. apply _. Defined.

(** A literal is a string. *)
Ltac cstr_lit := apply (bool_decide_unpack _); vm_compute; exact I.

(** [strcpy(dst, s)] and [strcat(dst, s)]. *)
Definition strcpy (dst s : list Z) : option (list Z) :=
  if decide (length s < length dst)%nat then Some (splice 0 (s ++ [0]) dst) else None.
Definition strcat (dst s : list Z) : option (list Z) :=
  let n := length (cstr dst) in
  if decide (n + length s < length dst)%nat then Some (splice n (s ++ [0]) dst) else None.
(** [strncpy(dst, s, n)]: pads with NULs, and leaves no terminator when [s] has
    [n] bytes or more. *)
Definition strncpy (dst s : list Z) (n : nat) : list Z :=
  splice 0 (take n s ++ replicate (n - length s) 0) dst.

Lemma cstr_app_nul s m : is_cstr s -> cstr (s ++ 0 :: m) = s.
Proof.
  induction 1 as [|c s Hc _ IH]; cbn; [done|]. destruct (Z.eqb_spec c 0); [lia|]. by rewrite IH.
Qed.

Lemma cstr_is_cstr m : Forall (fun c => 0 <= c < 256) m -> is_cstr (cstr m).
Proof.
  induction 1 as [|c m Hc _ IH]; cbn; [constructor|].
  destruct (Z.eqb_spec c 0); [constructor|]. constructor; [lia|done].
Qed.

Lemma length_cstr m : (length (cstr m) <= length m)%nat.
Proof. induction m as [|c m IH]; cbn; [lia|]. destruct (c =? 0); cbn; lia. Qed.

Lemma cstr_take s n : is_cstr s -> is_cstr (take n s).
Proof. apply Forall_take. Qed.

Lemma is_cstr_app s t : is_cstr (s ++ t) <-> is_cstr s /\ is_cstr t.
Proof. apply Forall_app. Qed.

Lemma cstr_splice_0 s m : is_cstr s -> cstr (splice 0 (s ++ [0]) m) = s.
Proof.
  intros. unfold splice. cbn [take app]. rewrite <- app_assoc. by apply cstr_app_nul.
Qed.

(** A buffer that holds a string: the string, its terminator, the rest. *)
Lemma cstr_decompose m :
  (length (cstr m) < length m)%nat -> exists t, m = cstr m ++ 0 :: t.
Proof.
  induction m as [|c m IH]; cbn; [lia|]. destruct (Z.eqb_spec c 0) as [->|].
  - intros _. by exists m.
  - cbn. intros H. destruct IH as [t Ht]; [lia|]. exists t. by rewrite <- Ht.
Qed.

Lemma strcpy_spec dst s d' :
  is_cstr s -> strcpy dst s = Some d' -> cstr d' = s /\ length d' = length dst.
Proof.
  intros Hs. unfold strcpy. case_decide; [|done]. intros [= <-]. split.
  - by apply cstr_splice_0.
  - apply length_splice. rewrite length_app. cbn. lia.
Qed.

Lemma take_length_cstr m : take (length (cstr m)) m = cstr m.
Proof. induction m as [|c m IH]; cbn; [done|]. destruct (c =? 0); cbn; [done|]. by rewrite IH. Qed.

Lemma strcat_spec dst s d' :
  is_cstr (cstr dst) -> is_cstr s -> strcat dst s = Some d' ->
  cstr d' = cstr dst ++ s /\ length d' = length dst.
Proof.
  intros Hd Hs. unfold strcat. case_decide; [|done]. intros [= <-]. split.
  - unfold splice. rewrite take_length_cstr, <- app_assoc, app_assoc. cbn.
    apply cstr_app_nul. by apply is_cstr_app.
  - apply length_splice. rewrite length_app. cbn. lia.
Qed.

Lemma strcat_Some dst s :
  (length (cstr dst) + length s < length dst)%nat -> is_Some (strcat dst s).
Proof. intros. unfold strcat. rewrite decide_True by done. eauto. Qed.

Lemma strcat_None dst s :
  (length dst <= length (cstr dst) + length s)%nat -> strcat dst s = None.
Proof. intros. unfold strcat. by rewrite decide_False by lia. Qed.

Lemma length_strncpy dst s n :
  (n <= length dst)%nat -> length (strncpy dst s n) = length dst.
Proof. intros. apply length_splice. len. Qed.

(** A [strncpy] into a zeroed buffer leaves the last byte zero, hence a string. *)
Lemma strncpy_zeroed s n :
  strncpy (replicate (S n) 0) s n = take n s ++ replicate (S n - length (take n s)) 0.
Proof.
  unfold strncpy, splice. rewrite take_0. cbn [app].
  assert (El : length (take n s ++ replicate (n - length s) 0) = n) by len.
  rewrite El, drop_replicate, <- app_assoc, <- replicate_add.
  do 2 f_equal. len.
Qed.

Lemma cstr_strncpy_zeroed s n :
  is_cstr s -> cstr (strncpy (replicate (S n) 0) s n) = take n s.
Proof.
  intros Hs. rewrite strncpy_zeroed.
  assert (exists k, (S n - length (take n s) = S k)%nat) as [k ->].
  { exists (n - length (take n s))%nat. pose proof (firstn_le_length n s). lia. }
  cbn. apply cstr_app_nul. by apply cstr_take.
Qed.
