(* ===== verification/Fdrv.v ===== *)
(** The FlippyDrive backend, [emu/fdrv.c]: detection of a drive that may be
    impersonating a stock one or sitting in its bootloader, and the drive's file
    API, one DI command per call.  The probe waits a bounded time; everything
    after it waits for as long as the drive takes. *)

From S2P Require Import Prelude Di Gcode CStr.
#[local] Open Scope prog_scope.

Definition DVD_OEM_READ : Z := 0xA8000000.
Definition DVD_FLIPPY_FILEAPI_BASE : Z := 0xB5000000.
Definition DVD_FLIPPY_BYPASS : Z := 0xDC000000.
Definition FLIPPY_BOOT_MAGIC0 : Z := 0xabadbeef.
Definition FLIPPY_BOOT_MAGIC1 : Z := 0xcafe6969.
Definition FLIPPY_NOUPDATE_MAGIC1 : Z := 0xdecaf420.
Definition FLIPPY_REL_DATE_BOOTLOADER : Z := 0x20220420.
Definition FLIPPY_REL_DATE_FIRMWARE : Z := 0x20220426.
Definition stock_rel_dates : list Z := [0x20010608; 0x20010831; 0x20020402; 0x20020823].
Definition FDRV_BOOT_ATTEMPTS : nat := 60.

Definition MAX_FILE_NAME : nat := 256.
Definition FD_BYPASS_EXIT_MAGIC0 : Z := 0xE3F72BAB.
Definition FD_BYPASS_EXIT_MAGIC1 : Z := 0x72648977.

(** [ipc_command_type_t], the commands this driver sends. *)
Definition IPC_READ_STATUS : Z := 0x00.
Definition IPC_SET_DEFAULT_FD : Z := 0x01.
Definition IPC_FS_INFO : Z := 0x06.
Definition IPC_FILE_MKDIR : Z := 0x07.
Definition IPC_FILE_WRITE : Z := 0x09.
Definition IPC_FILE_OPEN : Z := 0x0A.
Definition IPC_FILE_CLOSE : Z := 0x0B.
Definition IPC_FILE_UNLINK : Z := 0x0E.
Definition IPC_FILE_READDIR : Z := 0x0F.
Definition IPC_FILE_OPEN_FLASH : Z := 0x11.
Definition IPC_FILE_UNLINK_FLASH : Z := 0x12.
Definition IPC_NET_PRESENCE : Z := 0x14.

(** Sizes and layouts of the packed structs: [dvd_info_t], [file_status_t],
    [fs_info_t], [file_entry_t], [flippydrive_net_presence_t]. *)
Definition dvd_info_size : nat := 32.
Definition info_rel_date (info : list Z) : Z := be32 info 4.
Definition info_fw_ver (info : list Z) : list Z := slice 12 4 info.
Definition file_status_size : nat := 32.
Definition fs_info_size : nat := 32.
Definition file_entry_size : nat := 288.
Definition file_entry (path : list Z) (type flags : Z) : list Z :=
  strncpy (replicate MAX_FILE_NAME 0) path (MAX_FILE_NAME - 1)
    ++ [type; flags] ++ replicate 30 0.
Definition net_presence (playing : bool) (status sub_status : list Z) : list Z :=
  [if playing then 1 else 0] ++ strncpy (replicate 40 0) status 39
    ++ strncpy (replicate 40 0) sub_status 39 ++ replicate 40 0 ++ replicate 135 0.

Section Fdrv.
Context {B : Type} `{DiBus B}.

(** The module's statics and the bus below it. *)
Record fdrv_state := mk_fdrv {
  has_fdrv : Z;                  (* -1 = not probed yet, 0 = absent, 1 = present *)
  fdrv_fw_ver : list Z;
  probe_info : list Z;
  fd_bus : B
}.

Definition set_has_fdrv (v : Z) (w : fdrv_state) :=
  mk_fdrv v (fdrv_fw_ver w) (probe_info w) (fd_bus w).
Definition set_fw_ver (v : list Z) (w : fdrv_state) :=
  mk_fdrv (has_fdrv w) v (probe_info w) (fd_bus w).
Definition set_probe_info (i : list Z) (w : fdrv_state) :=
  mk_fdrv (has_fdrv w) (fdrv_fw_ver w) i (fd_bus w).
Definition set_fd_bus (b : B) (w : fdrv_state) :=
  mk_fdrv (has_fdrv w) (fdrv_fw_ver w) (probe_info w) b.

Definition deint (r : di_reply) : Z := if rp_deint r then 1 else 0.

(** Start a command. *)
Definition fdrv_start (rq : di_request) : M fdrv_state di_reply := fun w =>
  let '(r, b) := di_start rq (fd_bus w) in Some (r, set_fd_bus b w).

Definition fdrv_wait (r : di_reply) : M fdrv_state Z :=
  match rp_busy r with Some _ => ret (deint r) | None => spin end.

Definition fdrv_wait_bounded (r : di_reply) : M fdrv_state Z :=
  ret (if negb (di_completes r) then 1 else deint r).

Definition fdrv_cmd (cmd arg0 arg1 : Z) (bounded : bool) : M fdrv_state Z :=
  r <- fdrv_start (mk_request di_prepare cmd arg0 arg1 0 DI_CR_TSTART []) ;;
  if bounded then fdrv_wait_bounded r else fdrv_wait r.

(** [buf] is the memory at the buffer; the memory afterwards is returned. *)
Definition fdrv_dma (cmd arg0 arg1 : Z) (buf : list Z) (len : Z) (to_drive : bool)
    : M fdrv_state (Z * list Z) :=
  r <- fdrv_start
         (mk_request di_prepare cmd arg0 arg1 len
            (if to_drive then Z.lor (Z.lor DI_CR_RW DI_CR_DMA) DI_CR_TSTART
             else Z.lor DI_CR_DMA DI_CR_TSTART)
            (if to_drive then slice 0 (Z.to_nat len) buf else [])) ;;
  e <- fdrv_wait r ;;
  ret (e, if to_drive then buf else splice 0 (rp_in r) buf).

(** ** Detection *)

Definition inquiry_request : di_request :=
  mk_request di_prepare DVD_OEM_INQUIRY 0 0 (Z.of_nat dvd_info_size)
    (Z.lor DI_CR_DMA DI_CR_TSTART) [].

Definition fdrv_inquiry : M fdrv_state Z :=
  modify (set_probe_info (replicate dvd_info_size 0)) ;;
  r <- fdrv_start inquiry_request ;;
  modify (fun w => set_probe_info (splice 0 (rp_in r) (probe_info w)) w) ;;
  fdrv_wait_bounded r.

Definition is_stock_rel_date (rel_date : Z) : bool :=
  existsb (fun d => rel_date =? d) stock_rel_dates.

Definition probe_date : M fdrv_state Z := w <- get ;; ret (info_rel_date (probe_info w)).

(** The wait for the firmware: whether it came up within the attempts. *)
Fixpoint fdrv_boot_loop (attempts : nat) : M fdrv_state bool :=
  match attempts with
  | O => ret false
  | S attempts =>
      e <- fdrv_inquiry ;;
      d <- probe_date ;;
      if (e =? 0) && (d =? FLIPPY_REL_DATE_FIRMWARE) then ret true
      else fdrv_boot_loop attempts
  end.

(** The part of [fdrv_probe] that leaves bypass: whether to go on. *)
Definition fdrv_leave_bypass : M fdrv_state bool :=
  d <- probe_date ;;
  if is_stock_rel_date d then
    fdrv_cmd DVD_FLIPPY_BYPASS FD_BYPASS_EXIT_MAGIC0 FD_BYPASS_EXIT_MAGIC1 true ;;
    e <- fdrv_inquiry ;;
    ret (e =? 0)
  else ret true.

(** The part that leaves the bootloader: whether to go on. *)
Definition fdrv_leave_bootloader : M fdrv_state bool :=
  d <- probe_date ;;
  if d =? FLIPPY_REL_DATE_BOOTLOADER then
    fdrv_cmd DVD_OEM_INQUIRY FLIPPY_BOOT_MAGIC0 FLIPPY_BOOT_MAGIC1 true ;;
    fdrv_cmd DVD_OEM_INQUIRY FLIPPY_BOOT_MAGIC0 FLIPPY_NOUPDATE_MAGIC1 true ;;
    fdrv_boot_loop FDRV_BOOT_ATTEMPTS
  else ret true.

(** The verdict on the last inquiry. *)
Definition fdrv_classify : M fdrv_state bool :=
  d <- probe_date ;;
  if d =? FLIPPY_REL_DATE_FIRMWARE then
    modify (fun w => set_fw_ver (info_fw_ver (probe_info w)) w) ;;
    modify (set_has_fdrv 1) ;;
    ret true
  else if is_stock_rel_date d then modify (set_has_fdrv 0) ;; ret false
  else ret false.

Definition fdrv_probe : M fdrv_state bool :=
  w <- get ;;
  if has_fdrv w >=? 0 then ret (has_fdrv w =? 1)
  else
    e <- fdrv_inquiry ;;
    if negb (e =? 0) then ret false
    else
      d <- probe_date ;;
      if d =? GCODE_REL_DATE then modify (set_has_fdrv 0) ;; ret false
      else
        ok <- fdrv_leave_bypass ;;
        if negb ok then ret false
        else
          up <- fdrv_leave_bootloader ;;
          if negb up then ret false else fdrv_classify.

Definition fdrv_present (w : fdrv_state) : bool := has_fdrv w =? 1.
Definition fdrv_version (w : fdrv_state) : option (list Z) :=
  if has_fdrv w =? 1 then Some (fdrv_fw_ver w) else None.

(** ** File API *)

Definition fdrv_open_common (ipc_cmd : Z) (path : list Z) (type flags : Z) : M fdrv_state Z :=
  '(e, _) <- fdrv_dma (Z.lor DVD_FLIPPY_FILEAPI_BASE ipc_cmd) 0 0
               (file_entry path type flags) (Z.of_nat file_entry_size) true ;;
  ret e.
Definition fdrv_open := fdrv_open_common IPC_FILE_OPEN.
Definition fdrv_open_flash := fdrv_open_common IPC_FILE_OPEN_FLASH.

(** [dst->result = 1]: the first word of the blob. *)
Definition set_result (blob : list Z) : list Z := splice 0 (be32_bytes 1) blob.

Definition fdrv_blob (ipc_cmd : Z) (dst : list Z) (size : nat) : M fdrv_state (Z * list Z) :=
  '(e, dst) <- fdrv_dma (Z.lor DVD_FLIPPY_FILEAPI_BASE ipc_cmd) 0 0 dst (Z.of_nat size) false ;;
  ret (e, if negb (e =? 0) then set_result dst else dst).
Definition fdrv_status (dst : list Z) := fdrv_blob IPC_READ_STATUS dst file_status_size.
Definition fdrv_fs_info (dst : list Z) := fdrv_blob IPC_FS_INFO dst fs_info_size.

(** [(fd & 0xFF) << 16] and [(fd & 0xFF) << 8]. *)
Definition fd_field (fd : Z) : Z := Z.shiftl (Z.land fd 0xFF) 16.
Definition fd2_field (fd : Z) : Z := Z.shiftl (Z.land fd 0xFF) 8.
Definition fapi_fd (ipc_cmd fd : Z) : Z :=
  Z.lor (Z.lor DVD_FLIPPY_FILEAPI_BASE ipc_cmd) (fd_field fd).

Definition fdrv_close (fd : Z) : M fdrv_state unit :=
  fdrv_cmd (fapi_fd IPC_FILE_CLOSE fd) 0 0 false ;; ret tt.
Definition fdrv_set_default_fd (current_fd second_fd : Z) : M fdrv_state unit :=
  fdrv_cmd (Z.lor (fapi_fd IPC_SET_DEFAULT_FD current_fd) (fd2_field second_fd)) 0 0 false ;;
  ret tt.

(** [offset] is 64-bit; the drive takes it in words. *)
Definition fdrv_read (dst : list Z) (len offset fd : Z) : M fdrv_state (Z * list Z) :=
  if Z.shiftr offset 2 >? 0xFFFFFFFF then ret (-1, dst)
  else fdrv_dma (Z.lor DVD_OEM_READ (fd_field fd)) (u32 (Z.shiftr offset 2)) len dst len false.

(** IPL build: the wait yields to other threads, the transfer is the same. *)
Definition fdrv_threaded_read (dst : list Z) (len offset fd : Z) : M fdrv_state (Z * list Z) :=
  if Z.shiftr offset 2 >? 0xFFFFFFFF then ret (-1, dst)
  else
    r <- fdrv_start (mk_request di_prepare (Z.lor DVD_OEM_READ (fd_field fd))
           (u32 (Z.shiftr offset 2)) len len (Z.lor DI_CR_DMA DI_CR_TSTART) []) ;;
    match rp_busy r with Some _ => ret (deint r, splice 0 (rp_in r) dst) | None => spin end.

Definition fdrv_readdir (dst : list Z) (fd : Z) : M fdrv_state (Z * list Z) :=
  fdrv_dma (fapi_fd IPC_FILE_READDIR fd) 0 0 dst (Z.of_nat file_entry_size) false.

Definition fdrv_path_cmd (ipc_cmd : Z) (path : list Z) : M fdrv_state Z :=
  '(e, _) <- fdrv_dma (Z.lor DVD_FLIPPY_FILEAPI_BASE ipc_cmd) 0 0
               (file_entry path 0 0) (Z.of_nat file_entry_size) true ;;
  ret e.
Definition fdrv_mkdir := fdrv_path_cmd IPC_FILE_MKDIR.
Definition fdrv_unlink := fdrv_path_cmd IPC_FILE_UNLINK.
Definition fdrv_unlink_flash := fdrv_path_cmd IPC_FILE_UNLINK_FLASH.

(** [(length + 31) & 0xFFFFFFE0], a 32-bit sum. *)
Definition write_len (length : Z) : Z := Z.land (u32 (length + 31)) 0xFFFFFFE0.
Definition fdrv_write (buf : list Z) (offset length fd : Z) : M fdrv_state Z :=
  '(e, _) <- fdrv_dma (fapi_fd IPC_FILE_WRITE fd) offset length buf (write_len length) true ;;
  ret e.

Definition fdrv_presence (playing : bool) (status sub_status : list Z) : M fdrv_state Z :=
  '(e, _) <- fdrv_dma (Z.lor DVD_FLIPPY_FILEAPI_BASE IPC_NET_PRESENCE) 0 0
               (net_presence playing status sub_status) 256 true ;;
  ret e.

Definition fdrv_bypass_enter : M fdrv_state unit := fdrv_cmd DVD_FLIPPY_BYPASS 0 0 false ;; ret tt.
Definition fdrv_bypass_exit : M fdrv_state unit :=
  fdrv_cmd DVD_FLIPPY_BYPASS FD_BYPASS_EXIT_MAGIC0 FD_BYPASS_EXIT_MAGIC1 false ;; ret tt.
End Fdrv.

Arguments fdrv_state B : clear implicits.
