(* ===== verification/FdrvThms.v ===== *)
(** The FlippyDrive backend against the drive's own protocol: every entry point
    is exactly one operation of the drive's file API ([drive_decode] is the
    drive's reading of a DI command), and the probe identifies a drive in
    whichever mode it was left. *)

From S2P Require Import Prelude Bits Di Gcode CStr Fdrv.
#[local] Open Scope prog_scope.

(** ** The drive's file API *)

Inductive drive_op :=
  | OpInquiry
  | OpBoot
  | OpNoUpdate
  | OpRead (fd offset len : Z)
  | OpOpen (flash : bool) (path : list Z) (type flags : Z)
  | OpMkdir (path : list Z)
  | OpUnlink (flash : bool) (path : list Z)
  | OpClose (fd : Z)
  | OpSetDefault (fd second : Z)
  | OpReaddir (fd : Z)
  | OpWrite (fd offset : Z) (data : list Z)
  | OpStatus
  | OpFsInfo
  | OpPresence (playing : bool) (status sub_status : list Z)
  | OpBypassEnter
  | OpBypassExit.

(** How the drive reads a command: opcode, descriptors and IPC command are the
    bytes of the first word, the operands follow by DMA. *)
Definition decode_fileapi (fd second cmd : Z) (rq : di_request) : option drive_op :=
  let out := rq_out rq in
  let path := cstr (slice 0 256 out) in
  let put := (rq_cr rq =? 7) && (rq_length rq =? 288) in
  let fetch n := (rq_cr rq =? 3) && (rq_length rq =? n) in
  if (cmd =? 0x0A) && put then Some (OpOpen false path (nth 256 out 0) (nth 257 out 0))
  else if (cmd =? 0x11) && put then Some (OpOpen true path (nth 256 out 0) (nth 257 out 0))
  else if (cmd =? 0x07) && put then Some (OpMkdir path)
  else if (cmd =? 0x0E) && put then Some (OpUnlink false path)
  else if (cmd =? 0x12) && put then Some (OpUnlink true path)
  else if (cmd =? 0x0B) && (rq_cr rq =? 1) then Some (OpClose fd)
  else if (cmd =? 0x01) && (rq_cr rq =? 1) then Some (OpSetDefault fd second)
  else if (cmd =? 0x0F) && fetch 288 then Some (OpReaddir fd)
  else if (cmd =? 0x09) && (rq_cr rq =? 7)
  then Some (OpWrite fd (rq_cmdbuf1 rq) (slice 0 (Z.to_nat (rq_cmdbuf2 rq)) out))
  else if (cmd =? 0x00) && fetch 32 then Some OpStatus
  else if (cmd =? 0x06) && fetch 32 then Some OpFsInfo
  else if (cmd =? 0x14) && (rq_cr rq =? 7) && (rq_length rq =? 256)
  then Some (OpPresence (nth 0 out 0 =? 1) (cstr (slice 1 40 out)) (cstr (slice 41 40 out)))
  else None.

Definition drive_decode (rq : di_request) : option drive_op :=
  let c := rq_cmdbuf0 rq in
  let op := c / 2 ^ 24 in
  let fd := (c / 2 ^ 16) mod 256 in
  let second := (c / 2 ^ 8) mod 256 in
  let cmd := c mod 256 in
  if op =? 0xA8 then
    if (rq_cr rq =? 3) && (rq_length rq =? rq_cmdbuf2 rq)
    then Some (OpRead fd (4 * rq_cmdbuf1 rq) (rq_cmdbuf2 rq)) else None
  else if op =? 0xB5 then decode_fileapi fd second cmd rq
  else if op =? 0xDC then
    if (rq_cmdbuf1 rq =? FD_BYPASS_EXIT_MAGIC0) && (rq_cmdbuf2 rq =? FD_BYPASS_EXIT_MAGIC1)
    then Some OpBypassExit else Some OpBypassEnter
  else if op =? 0x12 then
    if rq_cmdbuf1 rq =? FLIPPY_BOOT_MAGIC0 then
      if rq_cmdbuf2 rq =? FLIPPY_BOOT_MAGIC1 then Some OpBoot else Some OpNoUpdate
    else Some OpInquiry
  else None.

(** A drive performs operations; seen from the bus it decodes commands. *)
Class FileDrive (D : Type) := drive_exec : drive_op -> D -> di_reply * D.

#[export] Instance drive_bus {D} `{FileDrive D} : DiBus D := fun rq d =>
  match drive_decode rq with
  | Some op => drive_exec op d
  | None => (mk_reply (Some 0%N) true [], d)
  end.

(** ** Encoding *)

Lemma word_fields a b c d :
  0 <= b < 256 -> 0 <= c < 256 -> 0 <= d < 256 ->
  let w := a * 2 ^ 24 + (b * 2 ^ 16 + (c * 2 ^ 8 + d)) in
  w / 2 ^ 24 = a /\ (w / 2 ^ 16) mod 256 = b /\ (w / 2 ^ 8) mod 256 = c /\ w mod 256 = d.
Proof. intros. unfold w. repeat split; zdm. Qed.

Lemma command_word op c fd second :
  0 <= c < 256 ->
  Z.lor (Z.lor (Z.lor (op * 2 ^ 24) c) (fd_field fd)) (fd2_field second)
  = op * 2 ^ 24 + (fd mod 256 * 2 ^ 16 + (second mod 256 * 2 ^ 8 + c)).
Proof.
  intros Hc. unfold fd_field, fd2_field. autorewrite with bits.
  pose proof (Z.mod_pos_bound fd 256 ltac:(lia)). pose proof (Z.mod_pos_bound second 256 ltac:(lia)).
  rewrite <- !Z.lor_assoc.
  rewrite (Z.lor_comm c), <- Z.lor_assoc, (lor_fields c _ 8), (lor_fields _ _ 16), (lor_fields _ _ 24)
    by lia. done.
Qed.

Lemma fd2_field_0 : fd2_field 0 = 0.
Proof. done. Qed.

Lemma fapi_fd_word c fd :
  0 <= c < 256 -> fapi_fd c fd = 0xB5 * 2 ^ 24 + (fd mod 256 * 2 ^ 16 + (0 * 2 ^ 8 + c)).
Proof.
  intros Hc. pose proof (command_word 0xB5 c fd 0 Hc) as E.
  rewrite fd2_field_0, Z.lor_0_r in E. exact E.
Qed.

Lemma read_word fd :
  Z.lor DVD_OEM_READ (fd_field fd) = 0xA8 * 2 ^ 24 + (fd mod 256 * 2 ^ 16 + (0 * 2 ^ 8 + 0)).
Proof.
  pose proof (command_word 0xA8 0 fd 0 ltac:(lia)) as E.
  rewrite fd2_field_0, !Z.lor_0_r in E. exact E.
Qed.

Section Decode.
Variables (fd second : Z).
Notation request c a0 a1 len cr out := (mk_request di_prepare c a0 a1 len cr out).

Lemma decode_fields op b c d a0 a1 len cr out :
  0 <= b < 256 -> 0 <= c < 256 -> 0 <= d < 256 ->
  op = 0xB5 ->
  drive_decode (request (op * 2 ^ 24 + (b * 2 ^ 16 + (c * 2 ^ 8 + d))) a0 a1 len cr out)
  = decode_fileapi b c d (request (op * 2 ^ 24 + (b * 2 ^ 16 + (c * 2 ^ 8 + d))) a0 a1 len cr out).
Proof.
  intros Hb Hc Hd ->. unfold drive_decode. cbn [rq_cmdbuf0].
  pose proof (word_fields 0xB5 b c d Hb Hc Hd) as (E1 & E2 & E3 & E4). cbv zeta in *.
  by rewrite E1, E2, E3, E4.
Qed.

Lemma decode_fapi c a0 a1 len cr out :
  0 <= c < 256 ->
  drive_decode (request (fapi_fd c fd) a0 a1 len cr out)
  = decode_fileapi (fd mod 256) 0 c (request (fapi_fd c fd) a0 a1 len cr out).
Proof.
  intros. rewrite fapi_fd_word by done. apply decode_fields; try lia.
  apply Z.mod_pos_bound. lia.
Qed.

Lemma decode_read a0 len :
  drive_decode (request (Z.lor DVD_OEM_READ (fd_field fd)) a0 len len 3 [])
  = Some (OpRead (fd mod 256) (4 * a0) len).
Proof.
  rewrite read_word. unfold drive_decode. cbn [rq_cmdbuf0].
  pose proof (word_fields 0xA8 (fd mod 256) 0 0 (Z.mod_pos_bound fd 256 ltac:(lia))
                ltac:(lia) ltac:(lia)) as (E1 & E2 & _). cbv zeta in *.
  rewrite E1, E2. cbn. by rewrite Z.eqb_refl.
Qed.

Lemma decode_set_default :
  drive_decode (request (Z.lor (fapi_fd IPC_SET_DEFAULT_FD fd) (fd2_field second)) 0 0 0 1 [])
  = Some (OpSetDefault (fd mod 256) (second mod 256)).
Proof.
  pose proof (Z.mod_pos_bound fd 256 ltac:(lia)). pose proof (Z.mod_pos_bound second 256 ltac:(lia)).
  change (fapi_fd IPC_SET_DEFAULT_FD fd)
    with (Z.lor (Z.lor (0xB5 * 2 ^ 24) IPC_SET_DEFAULT_FD) (fd_field fd)).
  rewrite command_word by done. by rewrite decode_fields.
Qed.
End Decode.

(** The name field of a file entry is the path, cut to what fits. *)
Lemma length_name path : length (strncpy (replicate MAX_FILE_NAME 0) path 255) = 256%nat.
Proof. apply length_strncpy. rewrite length_replicate. unfold MAX_FILE_NAME. lia. Qed.

Lemma file_entry_fields path type flags :
  is_cstr path ->
  length (file_entry path type flags) = file_entry_size
  /\ cstr (slice 0 256 (file_entry path type flags)) = take 255 path
  /\ nth 256 (file_entry path type flags) 0 = type
  /\ nth 257 (file_entry path type flags) 0 = flags.
Proof.
  intros Hp. unfold file_entry. change (MAX_FILE_NAME - 1)%nat with 255%nat.
  pose proof (length_name path) as Hn. split_all.
  - rewrite length_app, Hn. done.
  - unfold slice. rewrite drop_0, <- Hn, take_app_length. by apply cstr_strncpy_zeroed.
  - rewrite app_nth2, Hn by lia. done.
  - rewrite app_nth2, Hn by lia. done.
Qed.

Lemma entry_out path type flags :
  is_cstr path ->
  slice 0 (Z.to_nat (Z.of_nat file_entry_size)) (file_entry path type flags)
  = file_entry path type flags.
Proof.
  intros Hp. rewrite Nat2Z.id. destruct (file_entry_fields path type flags Hp) as (<- & _).
  apply slice_all.
Qed.

(** ** Entry points are operations *)

Section Refinement.
Context {D : Type} `{FileDrive D}.
Implicit Types w : fdrv_state D.

(** Perform an operation and wait for it. *)
Definition perform (op : drive_op) : M (fdrv_state D) di_reply := fun w =>
  let '(r, d) := drive_exec op (fd_bus w) in Some (r, set_fd_bus d w).
Definition call (op : drive_op) : M (fdrv_state D) Z := r <- perform op ;; fdrv_wait r.
(** ... and leave its answer in [dst]. *)
Definition fetch (op : drive_op) (dst : list Z) : M (fdrv_state D) (Z * list Z) :=
  r <- perform op ;; e <- fdrv_wait r ;; ret (e, splice 0 (rp_in r) dst).
(** A status blob whose transfer failed is marked as failed. *)
Definition fetch_blob (op : drive_op) (dst : list Z) : M (fdrv_state D) (Z * list Z) :=
  '(e, dst) <- fetch op dst ;; ret (e, if negb (e =? 0) then set_result dst else dst).

Lemma start_op rq op w : drive_decode rq = Some op -> fdrv_start rq w = perform op w.
Proof. intros E. unfold fdrv_start, perform, di_start, drive_bus. by rewrite E. Qed.

Lemma bind_eq_l {A C} (m m' : M (fdrv_state D) A) (k : A -> M (fdrv_state D) C) w :
  m w = m' w -> bind m k w = bind m' k w.
Proof. unfold bind. by intros ->. Qed.

Lemma cmd_op c a0 a1 op w :
  drive_decode (mk_request di_prepare c a0 a1 0 1 []) = Some op ->
  fdrv_cmd c a0 a1 false w = call op w.
Proof. intros E. apply bind_eq_l. by apply start_op. Qed.

Lemma cmd_op_unit c a0 a1 op w :
  drive_decode (mk_request di_prepare c a0 a1 0 1 []) = Some op ->
  (fdrv_cmd c a0 a1 false ;; ret tt)%prog w = (call op ;; ret tt)%prog w.
Proof. intros E. apply bind_eq_l. by apply cmd_op. Qed.

Lemma dma_in_op c a0 a1 buf len op w :
  drive_decode (mk_request di_prepare c a0 a1 len 3 []) = Some op ->
  fdrv_dma c a0 a1 buf len false w = fetch op buf w.
Proof. intros E. apply bind_eq_l. by apply start_op. Qed.

Lemma blob_op c dst size op w :
  drive_decode (mk_request di_prepare (Z.lor DVD_FLIPPY_FILEAPI_BASE c) 0 0 (Z.of_nat size) 3 [])
  = Some op ->
  fdrv_blob c dst size w = fetch_blob op dst w.
Proof. intros E. apply bind_eq_l. by apply dma_in_op. Qed.

Lemma dma_out_op c a0 a1 buf len op w :
  drive_decode (mk_request di_prepare c a0 a1 len 7 (slice 0 (Z.to_nat len) buf)) = Some op ->
  ('(e, _) <- fdrv_dma c a0 a1 buf len true ;; ret e)%prog w = call op w.
Proof.
  intros E. unfold fdrv_dma, call, bind. cbv iota.
  change (Z.lor (Z.lor DI_CR_RW DI_CR_DMA) DI_CR_TSTART) with 7.
  rewrite (start_op _ op) by done. destruct (perform op w) as [[r w']|]; [|done].
  by destruct (fdrv_wait r w') as [[e w'']|].
Qed.

(** A command that sends a file entry, as the drive decodes it. *)
Lemma entry_op c path type flags op w :
  is_cstr path -> 0 <= c < 256 ->
  decode_fileapi 0 0 c
    (mk_request di_prepare (fapi_fd c 0) 0 0 288 7 (file_entry path type flags)) = Some op ->
  fdrv_open_common c path type flags w = call op w.
Proof.
  intros Hp Hc E. apply dma_out_op. rewrite entry_out by done.
  replace (Z.lor DVD_FLIPPY_FILEAPI_BASE c) with (fapi_fd c 0)
    by (unfold fapi_fd; by rewrite Z.lor_0_r).
  by rewrite decode_fapi.
Qed.

Lemma path_op c path op w :
  is_cstr path -> 0 <= c < 256 ->
  decode_fileapi 0 0 c
    (mk_request di_prepare (fapi_fd c 0) 0 0 288 7 (file_entry path 0 0)) = Some op ->
  fdrv_path_cmd c path w = call op w.
Proof. apply entry_op. Qed.

(** The sent path is what the entry's name field holds. *)
Ltac entry :=
  first [apply entry_op | apply path_op]; [done|done|];
  match goal with
  | Hp : is_cstr ?p |- context [file_entry ?p ?t ?f] =>
      destruct (file_entry_fields p t f Hp) as (_ & E1 & E2 & E3);
      unfold decode_fileapi; cbn [rq_out]; rewrite ?E1, ?E2, ?E3; done
  end.

Lemma write_len_spec length :
  0 <= length -> length + 31 < 2 ^ 32 ->
  length <= write_len length < length + 32 /\ write_len length mod 32 = 0.
Proof.
  intros. unfold write_len. rewrite u32_small by lia.
  assert (E : Z.land (length + 31) 0xFFFFFFE0 = (length + 31) / 2 ^ 5 * 2 ^ 5).
  { rewrite <- Z.shiftl_mul_pow2, <- Z.shiftr_div_pow2 by lia.
    apply Z.bits_inj'. intros n Hn. rewrite Z.land_spec, Z.shiftl_spec by lia.
    destruct (Z.lt_ge_cases n 5) as [?|Hn5].
    - rewrite (Z.testbit_neg_r (Z.shiftr _ _)) by lia.
      replace (Z.testbit 0xFFFFFFE0 n) with false; [apply andb_false_r|].
      assert (n = 0 \/ n = 1 \/ n = 2 \/ n = 3 \/ n = 4) as Hn' by lia.
      by destruct Hn' as [->|[->|[->|[->| ->]]]].
    - rewrite Z.shiftr_spec by lia. replace (n - 5 + 5) with n by lia.
      destruct (Z.lt_ge_cases n 32).
      + change 0xFFFFFFE0 with (Z.shiftl (Z.ones 27) 5). rewrite Z.shiftl_spec by lia.
        rewrite Z.ones_spec_low by lia. apply andb_true_r.
      + replace (Z.testbit (length + 31) n) with false; [done|]. symmetry.
        destruct (Z.eq_dec (length + 31) 0) as [->|]; [apply Z.bits_0|].
        apply Z.bits_above_log2; [lia|]. apply Z.log2_lt_pow2; [lia|].
        eapply Z.lt_le_trans; [|apply (Z.pow_le_mono_r 2 32)]; lia. }
  rewrite E. change (2 ^ 5) with 32. split; [zdm|]. apply Z.mod_mul. lia.
Qed.

Lemma write_op buf offset length fd w :
  0 <= length -> length + 31 < 2 ^ 32 -> (Z.to_nat (write_len length) <= List.length buf)%nat ->
  fdrv_write buf offset length fd w
  = call (OpWrite (fd mod 256) offset (slice 0 (Z.to_nat length) buf)) w.
Proof.
  intros Hl Ho Hb. destruct (write_len_spec length Hl Ho) as [Hw _].
  apply dma_out_op. rewrite decode_fapi by done. unfold decode_fileapi.
  cbn [rq_out rq_cr rq_length rq_cmdbuf1 rq_cmdbuf2]. cbn.
  rewrite slice_slice by lia. done.
Qed.

Lemma presence_fields playing status sub_status :
  is_cstr status -> is_cstr sub_status ->
  let out := net_presence playing status sub_status in
  length out = 256%nat /\ nth 0 out 0 = (if playing then 1 else 0)
  /\ cstr (slice 1 40 out) = take 39 status /\ cstr (slice 41 40 out) = take 39 sub_status.
Proof.
  intros Hs Hss out. unfold out, net_presence.
  set (a := strncpy _ status _). set (b := strncpy _ sub_status _).
  assert (Ha : length a = 40%nat) by (apply length_strncpy; len).
  assert (Hb : length b = 40%nat) by (apply length_strncpy; len).
  split_all.
  - rewrite !length_app, Ha, Hb, !length_replicate. done.
  - unfold slice. cbn [app skipn]. rewrite drop_0, take_app_length' by done.
    by apply (cstr_strncpy_zeroed _ 39).
  - unfold slice. cbn [app skipn]. rewrite drop_app_length', take_app_length' by done.
    by apply (cstr_strncpy_zeroed _ 39).
Qed.

Lemma presence_op playing status sub_status w :
  is_cstr status -> is_cstr sub_status ->
  fdrv_presence playing status sub_status w
  = call (OpPresence playing (take 39 status) (take 39 sub_status)) w.
Proof.
  intros Hs Hss. apply dma_out_op.
  destruct (presence_fields playing status sub_status Hs Hss) as (El & E0 & E1 & E2).
  replace (slice 0 (Z.to_nat 256) (net_presence playing status sub_status))
    with (net_presence playing status sub_status)
    by (rewrite <- slice_all at 1; by rewrite El).
  change (Z.lor DVD_FLIPPY_FILEAPI_BASE IPC_NET_PRESENCE) with (fapi_fd IPC_NET_PRESENCE 0).
  rewrite decode_fapi by done. unfold decode_fileapi. cbn [rq_out].
  rewrite E0, E1, E2. by destruct playing.
Qed.

(** [fdrv_read] is the drive's read at the word that holds the offset. *)
Lemma read_op dst len offset fd w :
  0 <= offset < 2 ^ 34 ->
  fdrv_read dst len offset fd w = fetch (OpRead (fd mod 256) (4 * (offset / 4)) len) dst w
  /\ fdrv_threaded_read dst len offset fd w
     = fetch (OpRead (fd mod 256) (4 * (offset / 4)) len) dst w.
Proof.
  intros Ho. unfold fdrv_read, fdrv_threaded_read.
  autorewrite with bits. change (2 ^ 2) with 4.
  assert (offset / 4 < 2 ^ 32) by (apply Z.div_lt_upper_bound; lia).
  destruct (Z.gtb_spec (offset / 4) 0xFFFFFFFF); [lia|].
  rewrite u32_small by (split; [apply Z.div_pos; lia|done]).
  pose proof (decode_read fd (offset / 4) len) as Ed. split.
  - by apply dma_in_op.
  - unfold fetch, bind. rewrite (start_op _ _ _ Ed).
    destruct (perform _ w) as [[r w']|]; [|done]. unfold fdrv_wait.
    by destruct (rp_busy r).
Qed.

(** Every entry point of the FlippyDrive backend is exactly one operation of
    the drive's file API on the arguments it was given, as the drive itself
    decodes the command (descriptors modulo 256, paths cut to 255 bytes, reads
    at the word that holds the offset), waited for to the end; a status query
    whose transfer failed comes back marked as failed, and an offset beyond the
    drive's 34-bit range is refused without touching the drive. *)
Theorem fdrv_calls_are_drive_operations w path status sub_status (type flags fd second len : Z)
    offset (playing : bool) (dst buf : list Z) :
  is_cstr path -> is_cstr status -> is_cstr sub_status -> 0 <= offset < 2 ^ 64 ->
  0 <= len -> len + 31 < 2 ^ 32 -> (Z.to_nat (write_len len) <= length buf)%nat ->
  fdrv_open path type flags w = call (OpOpen false (take 255 path) type flags) w
  /\ fdrv_open_flash path type flags w = call (OpOpen true (take 255 path) type flags) w
  /\ fdrv_mkdir path w = call (OpMkdir (take 255 path)) w
  /\ fdrv_unlink path w = call (OpUnlink false (take 255 path)) w
  /\ fdrv_unlink_flash path w = call (OpUnlink true (take 255 path)) w
  /\ fdrv_close fd w = (call (OpClose (fd mod 256)) ;; ret tt)%prog w
  /\ fdrv_set_default_fd fd second w
     = (call (OpSetDefault (fd mod 256) (second mod 256)) ;; ret tt)%prog w
  /\ fdrv_readdir dst fd w = fetch (OpReaddir (fd mod 256)) dst w
  /\ fdrv_status dst w = fetch_blob OpStatus dst w
  /\ fdrv_fs_info dst w = fetch_blob OpFsInfo dst w
  /\ fdrv_read dst len offset fd w
     = (if offset <? 2 ^ 34 then fetch (OpRead (fd mod 256) (4 * (offset / 4)) len) dst w
        else Some ((-1, dst), w))
  /\ fdrv_threaded_read dst len offset fd w = fdrv_read dst len offset fd w
  /\ fdrv_write buf offset len fd w
     = call (OpWrite (fd mod 256) offset (slice 0 (Z.to_nat len) buf)) w
  /\ fdrv_presence playing status sub_status w
     = call (OpPresence playing (take 39 status) (take 39 sub_status)) w
  /\ fdrv_bypass_enter w = (call OpBypassEnter ;; ret tt)%prog w
  /\ fdrv_bypass_exit w = (call OpBypassExit ;; ret tt)%prog w.
Proof.
  intros Hp Hs Hss Ho Hl Hl2 Hb.
  assert (Hread : fdrv_read dst len offset fd w
     = (if offset <? 2 ^ 34 then fetch (OpRead (fd mod 256) (4 * (offset / 4)) len) dst w
        else Some ((-1, dst), w))
     /\ fdrv_threaded_read dst len offset fd w = fdrv_read dst len offset fd w).
  { destruct (Z.ltb_spec offset (2 ^ 34)).
    - destruct (read_op dst len offset fd w ltac:(lia)) as [E1 E2]. by rewrite E1, E2.
    - unfold fdrv_read, fdrv_threaded_read. autorewrite with bits.
      assert (2 ^ 32 <= offset / 2 ^ 2) by (apply Z.div_le_lower_bound; lia).
      by destruct (Z.gtb_spec (offset / 2 ^ 2) 0xFFFFFFFF); [|lia]. }
  destruct Hread as [Hr Ht]. repeat split; try done.
  all: try (entry); try (by apply cmd_op_unit); try (by apply blob_op).
  - apply cmd_op_unit. by rewrite decode_fapi.
  - apply cmd_op_unit. apply decode_set_default.
  - apply dma_in_op. by rewrite decode_fapi.
  - by apply write_op.
  - by apply presence_op.
Qed.
End Refinement.

(** ** The probe *)

Section Probe.
Context {B : Type} `{DiBus B}.
Implicit Types (w : fdrv_state B) (Q : bool -> fdrv_state B -> Prop).

(** What the probe sees of an inquiry's reply. *)
Definition inquiry_info (r : di_reply) : list Z := splice 0 (rp_in r) (replicate dvd_info_size 0).
Definition answered (r : di_reply) : bool := di_completes r && negb (rp_deint r).

Definition after_inquiry w : fdrv_state B :=
  let '(r, b) := di_start inquiry_request (fd_bus w) in
  set_probe_info (inquiry_info r) (set_fd_bus b w).

Lemma inquiry_eq w :
  exists e, fdrv_inquiry w = Some (e, after_inquiry w)
    /\ (e =? 0) = answered (di_start inquiry_request (fd_bus w)).1.
Proof.
  unfold fdrv_inquiry, fdrv_start, after_inquiry, fdrv_wait_bounded, modify, bind, ret, answered, deint.
  cbn [fd_bus set_probe_info]. destruct (di_start _ _) as [r b]. eexists. split; [reflexivity|].
  cbn [fst]. by destruct (di_completes r), (rp_deint r).
Qed.

Lemma wp_inquiry (Q : Z -> fdrv_state B -> Prop) w :
  (forall e, (e =? 0) = answered (di_start inquiry_request (fd_bus w)).1 -> Q e (after_inquiry w)) ->
  wp fdrv_inquiry Q w.
Proof. intros HQ. destruct (inquiry_eq w) as (e & E & He). unfold wp. rewrite E. auto. Qed.

Lemma wp_date (Q : Z -> fdrv_state B -> Prop) w :
  Q (info_rel_date (probe_info w)) w -> wp probe_date Q w.
Proof. done. Qed.

Lemma wp_bounded_cmd c a0 a1 (Q : Z -> fdrv_state B -> Prop) w :
  (forall e, Q e (set_fd_bus (di_start (mk_request di_prepare c a0 a1 0 1 []) (fd_bus w)).2 w)) ->
  wp (fdrv_cmd c a0 a1 true) Q w.
Proof.
  intros HQ. unfold fdrv_cmd, fdrv_start, fdrv_wait_bounded, bind, ret, wp.
  change DI_CR_TSTART with 1.
  specialize (HQ). destruct (di_start _ _) as [r b]. apply HQ.
Qed.

Lemma after_inquiry_frame w :
  has_fdrv (after_inquiry w) = has_fdrv w /\ fdrv_fw_ver (after_inquiry w) = fdrv_fw_ver w.
Proof. unfold after_inquiry. by destruct (di_start _ _). Qed.

(** The wait for the firmware ends, and leaves the probe's statics alone. *)
Lemma boot_loop_frame n w :
  wp (fdrv_boot_loop n) (fun up w' => has_fdrv w' = has_fdrv w
    /\ (up = true -> info_rel_date (probe_info w') = FLIPPY_REL_DATE_FIRMWARE)) w.
Proof.
  revert w. induction n as [|n IH]; intros w; cbn [fdrv_boot_loop]; [by apply wp_ret|].
  apply wp_bind, wp_inquiry. intros e _. apply wp_bind, wp_date.
  destruct (after_inquiry_frame w) as [Hh _].
  case_match eqn:E.
  - apply wp_ret. split; [done|]. intros _. apply andb_prop in E as [_ E]. by apply Z.eqb_eq in E.
  - eapply wp_mono; [apply IH|]. cbn beta. intros up w' [H1 H2]. split; [congruence|done].
Qed.

(** The bus as the probe leaves it when it has asked a stock-looking drive to
    leave bypass and has inquired again. *)
Definition bypass_request : di_request :=
  mk_request di_prepare DVD_FLIPPY_BYPASS FD_BYPASS_EXIT_MAGIC0 FD_BYPASS_EXIT_MAGIC1 0 1 [].
Definition asked_to_leave (b : B) : B :=
  (di_start inquiry_request (di_start bypass_request (di_start inquiry_request b).2).2).2.

(** What a verdict rests on. *)
Definition probe_post w (found : bool) w' : Prop :=
  let d := info_rel_date (probe_info w') in
  (found = true -> has_fdrv w' = 1 /\ d = FLIPPY_REL_DATE_FIRMWARE
                   /\ fdrv_version w' = Some (info_fw_ver (probe_info w')))
  /\ (found = false -> has_fdrv w' = -1 \/ has_fdrv w' = 0)
  /\ (has_fdrv w' = 0 -> d = GCODE_REL_DATE
        \/ is_stock_rel_date d = true /\ fd_bus w' = asked_to_leave (fd_bus w)).

Lemma classify_post w w0 :
  has_fdrv w0 = -1 ->
  (is_stock_rel_date (info_rel_date (probe_info w0)) = true -> fd_bus w0 = asked_to_leave (fd_bus w)) ->
  wp fdrv_classify (probe_post w) w0.
Proof.
  intros Hh Hs. unfold fdrv_classify. apply wp_bind, wp_date.
  destruct (Z.eqb_spec (info_rel_date (probe_info w0)) FLIPPY_REL_DATE_FIRMWARE) as [E|E];
    [|case_match eqn:Es].
  - apply wp_bind, wp_modify, wp_bind, wp_modify, wp_ret. unfold probe_post.
    cbn [probe_info has_fdrv set_has_fdrv set_fw_ver]. by split_all.
  - apply wp_bind, wp_modify, wp_ret. unfold probe_post.
    cbn [probe_info has_fdrv set_has_fdrv fd_bus]. split_all; done.
  - apply wp_ret. unfold probe_post. rewrite Hh. split_all; done.
Qed.

Lemma stock_not_bootloader d :
  is_stock_rel_date d = true -> (d =? FLIPPY_REL_DATE_BOOTLOADER) = false.
Proof.
  unfold is_stock_rel_date. intros (x & Hx & E)%existsb_exists. apply Z.eqb_eq in E as ->.
  cbn in Hx. destruct Hx as [<-|[<-|[<-|[<-|[]]]]]; done.
Qed.

(** From the bootloader check on: [w1] is the state after bypass was dealt
    with. *)
Lemma bootloader_post w w1 :
  has_fdrv w1 = -1 ->
  (is_stock_rel_date (info_rel_date (probe_info w1)) = true -> fd_bus w1 = asked_to_leave (fd_bus w)) ->
  wp (up <- fdrv_leave_bootloader ;; if negb up then ret false else fdrv_classify)%prog
    (probe_post w) w1.
Proof.
  intros Hh Hs. apply wp_bind. unfold fdrv_leave_bootloader.
  apply wp_bind, wp_date. destruct (_ =? FLIPPY_REL_DATE_BOOTLOADER).
  - apply wp_bind, wp_bounded_cmd. intros _. apply wp_bind, wp_bounded_cmd. intros _.
    eapply wp_mono; [apply boot_loop_frame|]. cbn. rewrite Hh. intros [] w2 [Hh2 Hd]; cbn [negb].
    + apply classify_post; [done|]. rewrite Hd by done. done.
    + apply wp_ret. unfold probe_post. rewrite Hh2. split_all; done.
  - apply wp_ret. cbn [negb]. by apply classify_post.
Qed.

Lemma probe_spec w : has_fdrv w = -1 -> wp fdrv_probe (probe_post w) w.
Proof.
  intros Hh. unfold fdrv_probe. apply wp_bind, wp_get. rewrite Hh. cbv iota beta.
  change (-1 >=? 0) with false. cbv iota.
  assert (Hgive : forall w0, has_fdrv w0 = -1 -> probe_post w false w0).
  { intros w0 H0. unfold probe_post. rewrite H0. split_all; done. }
  apply wp_bind, wp_inquiry. intros e _. destruct (after_inquiry_frame w) as [Hh1 _].
  destruct (e =? 0); cbn [negb]; [|apply wp_ret, Hgive; congruence].
  apply wp_bind, wp_date.
  destruct (Z.eqb_spec (info_rel_date (probe_info (after_inquiry w))) GCODE_REL_DATE) as [Eg|_].
  { apply wp_bind, wp_modify, wp_ret. unfold probe_post. cbn. split_all. }
  apply wp_bind. unfold fdrv_leave_bypass.
  apply wp_bind, wp_date. destruct (is_stock_rel_date _) eqn:Es.
  - apply wp_bind, wp_bounded_cmd. intros _. set (w1 := set_fd_bus _ _).
    apply wp_bind, wp_inquiry. intros e2 _. apply wp_ret.
    destruct (after_inquiry_frame w1) as [Hh2 _]. assert (has_fdrv w1 = -1) by (unfold w1; cbn; congruence).
    destruct (e2 =? 0); cbn [negb]; [|apply wp_ret, Hgive; congruence].
    apply bootloader_post; [congruence|]. intros _.
    unfold after_inquiry, w1, asked_to_leave. cbn [fd_bus set_fd_bus].
    unfold after_inquiry. fold bypass_request. destruct (di_start inquiry_request (fd_bus w)) as [r b].
    cbn [fd_bus set_fd_bus set_probe_info snd].
    by destruct (di_start inquiry_request (di_start _ b).2) as [r2 b2].
  - apply wp_ret. cbn [negb]. apply bootloader_post; [congruence|]. by rewrite Es.
Qed.

(** On any hardware the probe returns.  It reports a FlippyDrive only if the
    last inquiry carried the firmware's date, and then remembers its version; it
    remembers an absence only on a GC Loader's date, or on a stock date from a
    drive that has just been asked to leave bypass; everything else stays
    unknown.  A remembered answer is final and costs no command. *)
Theorem fdrv_probe_verdict w :
  has_fdrv w = -1 ->
  exists found w', fdrv_probe w = Some (found, w')
    /\ probe_post w found w'
    /\ (has_fdrv w' <> -1 -> fdrv_probe w' = Some (found, w')).
Proof.
  intros Hh. destruct (wp_elim _ _ _ (probe_spec w Hh)) as (found & w' & E & Hp).
  exists found, w'. split_all. intros Hn. unfold fdrv_probe, bind, get, ret.
  destruct Hp as (Ht & Hf & _). destruct found.
  - destruct (Ht eq_refl) as [-> _]. done.
  - destruct (Hf eq_refl) as [?| ->]; [done|]. done.
Qed.
End Probe.

(** ** Finding the drive *)

(** What a FlippyDrive may be doing when the console starts: running its
    firmware, sitting in its bootloader (and needing some inquiries' time to
    boot once told to), booting, or impersonating a stock drive. *)
Inductive drive_mode :=
  | Firmware
  | Bootloader (delay : nat)
  | Booting (delay : nat)
  | Impersonating (next : drive_mode).

Definition shows (r : di_reply) (date : Z) : Prop :=
  answered r = true /\ info_rel_date (inquiry_info r) = date.

(** An answer of the firmware carries the version it was built with. *)
Definition shows_version (v : list Z) (r : di_reply) : Prop :=
  answered r = true -> info_rel_date (inquiry_info r) = FLIPPY_REL_DATE_FIRMWARE ->
  info_fw_ver (inquiry_info r) = v.

Class FlippyDrive (D : Type) `{FileDrive D} := {
  mode : D -> drive_mode;
  firmware_version : list Z;
  drive_version : forall d, shows_version firmware_version (drive_exec OpInquiry d).1;
  drive_inquiry : forall d r d', drive_exec OpInquiry d = (r, d') ->
    match mode d with
    | Firmware => shows r FLIPPY_REL_DATE_FIRMWARE /\ mode d' = Firmware
    | Bootloader n => shows r FLIPPY_REL_DATE_BOOTLOADER /\ mode d' = Bootloader n
    | Booting O => shows r FLIPPY_REL_DATE_FIRMWARE /\ mode d' = Firmware
    | Booting (S n) => mode d' = Booting n
    | Impersonating m => (exists date, is_stock_rel_date date = true /\ shows r date)
                         /\ mode d' = Impersonating m
    end;
  drive_bypass_exit : forall d r d', drive_exec OpBypassExit d = (r, d') ->
    mode d' = match mode d with Impersonating m => m | m => m end;
  drive_boot : forall d r d' n, drive_exec OpBoot d = (r, d') ->
    mode d = Bootloader n -> mode d' = Booting n;
  drive_noupdate : forall d r d' n, drive_exec OpNoUpdate d = (r, d') ->
    mode d = Booting n -> mode d' = Booting n
}.

Section Finding.
Context {D : Type} `{FlippyDrive D}.
Implicit Types w : fdrv_state D.

(** The modes the probe is meant to handle. *)
Definition ready (m : drive_mode) : Prop :=
  match m with Firmware => True | Bootloader n => (n < FDRV_BOOT_ATTEMPTS)%nat | _ => False end.
Definition reachable_drive (m : drive_mode) : Prop :=
  ready m \/ exists m', m = Impersonating m' /\ ready m'.

Lemma inquiry_op d : di_start inquiry_request d = drive_exec OpInquiry d.
Proof. done. Qed.

(** What the last inquiry left is the version, if it is the firmware's answer. *)
Definition versioned w : Prop :=
  info_rel_date (probe_info w) = FLIPPY_REL_DATE_FIRMWARE -> info_fw_ver (probe_info w) = firmware_version.
Definition firmware_seen w : Prop :=
  info_rel_date (probe_info w) = FLIPPY_REL_DATE_FIRMWARE /\ info_fw_ver (probe_info w) = firmware_version.

Lemma inquiry_versioned w :
  answered (drive_exec OpInquiry (fd_bus w)).1 = true -> versioned (after_inquiry w).
Proof.
  intros Ha. pose proof (drive_version (fd_bus w)) as Hv. unfold versioned, after_inquiry. rewrite inquiry_op.
  destruct (drive_exec OpInquiry (fd_bus w)) as [r b]. exact (Hv Ha).
Qed.

(** The state after an inquiry that was answered with a date. *)
Lemma wp_answered (Q : Z -> fdrv_state D -> Prop) w date :
  shows (drive_exec OpInquiry (fd_bus w)).1 date ->
  (forall w', info_rel_date (probe_info w') = date /\ versioned w' -> has_fdrv w' = has_fdrv w ->
     fd_bus w' = (drive_exec OpInquiry (fd_bus w)).2 -> Q 0 w') ->
  wp fdrv_inquiry Q w.
Proof.
  intros [Ha Hd] HQ. apply wp_inquiry. rewrite inquiry_op. intros e He.
  pose proof (inquiry_versioned w Ha) as Hv.
  rewrite Ha in He. apply Z.eqb_eq in He as ->. unfold after_inquiry in *. rewrite inquiry_op in *.
  destruct (drive_exec OpInquiry (fd_bus w)) as [r b]. apply HQ; done.
Qed.

(** The drive is remembered, with its version. *)
Definition adopted w : Prop := has_fdrv w = 1 /\ fdrv_fw_ver w = firmware_version.

Lemma boot_loop_comes_up n m w :
  (n < m)%nat -> mode (fd_bus w) = Booting n ->
  wp (fdrv_boot_loop m) (fun up w' => up = true /\ firmware_seen w') w.
Proof.
  revert n w. induction m as [|m IH]; intros n w Hn Hm; [lia|]. cbn [fdrv_boot_loop].
  pose proof (drive_inquiry (fd_bus w)) as Hi. rewrite Hm in Hi.
  destruct (drive_exec OpInquiry (fd_bus w)) as [r b] eqn:E. specialize (Hi r b eq_refl).
  destruct n as [|n].
  - destruct Hi as [Hs Hb]. apply wp_bind. eapply wp_answered; [by rewrite E|].
    intros w' [Hd Hv] _ Hbus. apply wp_bind, wp_date. rewrite Hd. apply wp_ret.
    split; [done|]. split; [done|]. by apply Hv.
  - apply wp_bind, wp_inquiry. intros e He. apply wp_bind, wp_date.
    assert (Hb : mode (fd_bus (after_inquiry w)) = Booting n).
    { unfold after_inquiry. by rewrite inquiry_op, E. }
    case_match eqn:Ec.
    + apply wp_ret. apply andb_prop in Ec as [Ee Ec%Z.eqb_eq]. split; [done|]. split; [done|].
      apply inquiry_versioned; [|done]. rewrite inquiry_op in He. congruence.
    + apply (IH n); [lia|done].
Qed.

Lemma classify_firmware w :
  firmware_seen w -> wp fdrv_classify (fun found w' => found = true /\ adopted w') w.
Proof.
  intros [Hd Hv]. unfold fdrv_classify. apply wp_bind, wp_date. rewrite Hd.
  apply wp_bind, wp_modify, wp_bind, wp_modify, wp_ret. split; [done|]. by split.
Qed.

(** The probe from the first answer that is not an impersonation. *)
Lemma rest_of_probe w m :
  ready m -> mode (fd_bus w) = m -> versioned w ->
  info_rel_date (probe_info w)
  = match m with Firmware => FLIPPY_REL_DATE_FIRMWARE | _ => FLIPPY_REL_DATE_BOOTLOADER end ->
  wp (up <- fdrv_leave_bootloader ;; if negb up then ret false else fdrv_classify)%prog
    (fun found w' => found = true /\ adopted w') w.
Proof.
  intros Hr Hm Hv Hd. apply wp_bind. unfold fdrv_leave_bootloader. apply wp_bind, wp_date. rewrite Hd.
  destruct m as [|n|n|m']; try done.
  - apply wp_ret. apply classify_firmware. split; [done|]. by apply Hv.
  - cbn [ready] in Hr. rewrite Z.eqb_refl.
    apply wp_bind, wp_bounded_cmd. intros _.
    change (di_start _ (fd_bus w)) with (drive_exec OpBoot (fd_bus w)).
    destruct (drive_exec OpBoot (fd_bus w)) as [r1 b1] eqn:E1.
    pose proof (drive_boot _ _ _ n E1 Hm) as Hb1. set (w1 := set_fd_bus _ _).
    apply wp_bind, wp_bounded_cmd. intros _.
    change (di_start _ (fd_bus w1)) with (drive_exec OpNoUpdate b1).
    destruct (drive_exec OpNoUpdate b1) as [r2 b2] eqn:E2.
    pose proof (drive_noupdate _ _ _ n E2 Hb1) as Hb2.
    eapply wp_mono; [by apply (boot_loop_comes_up n)|]. cbn beta.
    intros up w' (-> & Hs). cbn [negb]. by apply classify_firmware.
Qed.

Lemma ready_date w m :
  ready m -> mode (fd_bus w) = m ->
  exists date, shows (drive_exec OpInquiry (fd_bus w)).1 date
    /\ mode (drive_exec OpInquiry (fd_bus w)).2 = m
    /\ date = match m with Firmware => FLIPPY_REL_DATE_FIRMWARE | _ => FLIPPY_REL_DATE_BOOTLOADER end.
Proof.
  intros Hr Hm. pose proof (drive_inquiry (fd_bus w)) as Hi. rewrite Hm in Hi.
  destruct (drive_exec OpInquiry (fd_bus w)) as [r b]. specialize (Hi r b eq_refl).
  destruct m as [|n|n|m']; try done; destruct Hi; eauto.
Qed.

Lemma probe_finds w :
  has_fdrv w = -1 -> reachable_drive (mode (fd_bus w)) ->
  wp fdrv_probe (fun found w' => found = true /\ adopted w') w.
Proof.
  intros Hh Hr. unfold fdrv_probe. apply wp_bind, wp_get. rewrite Hh.
  change (-1 >=? 0) with false. cbv iota. apply wp_bind.
  destruct Hr as [Hr|(m' & Hm & Hr)].
  - destruct (ready_date w _ Hr eq_refl) as (date & Hs & Hm & Hd).
    eapply wp_answered; [exact Hs|]. intros w1 [Hd1 Hv1] _ Hb1. cbn [Z.eqb negb].
    rewrite <- Hb1 in Hm. apply wp_bind, wp_date.
    assert (date = FLIPPY_REL_DATE_FIRMWARE \/ date = FLIPPY_REL_DATE_BOOTLOADER) as Hcase
      by (destruct (mode (fd_bus w)); auto).
    assert (Hfacts : (date =? GCODE_REL_DATE) = false /\ is_stock_rel_date date = false)
      by (by destruct Hcase as [-> | ->]).
    rewrite Hd1. destruct Hfacts as [-> Hst]. apply wp_bind. unfold fdrv_leave_bypass.
    apply wp_bind, wp_date. rewrite Hd1, Hst. apply wp_ret. cbn [negb].
    eapply rest_of_probe; [exact Hr|exact Hm|exact Hv1|]. congruence.
  - pose proof (drive_inquiry (fd_bus w)) as Hi. rewrite Hm in Hi.
    destruct (drive_exec OpInquiry (fd_bus w)) as [r b] eqn:E. specialize (Hi r b eq_refl).
    destruct Hi as [(date & Hst & Hs) Hb].
    eapply wp_answered; [by rewrite E|]. intros w1 [Hd1 _] _ Hb1. rewrite E in Hb1. cbn [Z.eqb negb snd] in *.
    apply wp_bind, wp_date. rewrite Hd1.
    assert ((date =? GCODE_REL_DATE) = false) as ->.
    { clear -Hst. unfold is_stock_rel_date in Hst. apply existsb_exists in Hst as (x & Hx & E).
      apply Z.eqb_eq in E as ->. cbn in Hx. by destruct Hx as [<-|[<-|[<-|[<-|[]]]]]. }
    apply wp_bind. unfold fdrv_leave_bypass. apply wp_bind, wp_date. rewrite Hd1, Hst.
    apply wp_bind, wp_bounded_cmd. intros _.
    change (di_start _ (fd_bus w1)) with (drive_exec OpBypassExit (fd_bus w1)).
    destruct (drive_exec OpBypassExit (fd_bus w1)) as [r2 b2] eqn:E2.
    pose proof (drive_bypass_exit _ _ _ E2) as Hm2. rewrite Hb1, Hb in Hm2.
    set (w2 := set_fd_bus _ _).
    destruct (ready_date w2 m' Hr Hm2) as (d2 & Hs2 & Hm3 & Hd2).
    apply wp_bind. eapply wp_answered; [exact Hs2|]. intros w3 [Hd3 Hv3] _ Hb3.
    apply wp_ret. cbn [Z.eqb negb]. apply (rest_of_probe w3 m'); try done; congruence.
Qed.

(** C9. A FlippyDrive that runs its firmware, sits in its bootloader and boots
    within sixty inquiries, or impersonates a stock drive while in one of these
    modes, is found by the first probe and remembered, and the version kept for
    [fdrv_version] is the one its firmware reports. *)
Theorem fdrv_probe_finds_drive w :
  has_fdrv w = -1 -> reachable_drive (mode (fd_bus w)) ->
  exists w', fdrv_probe w = Some (true, w') /\ fdrv_present w' = true
    /\ fdrv_version w' = Some firmware_version.
Proof.
  intros Hh Hr. destruct (wp_elim _ _ _ (probe_finds w Hh Hr)) as (found & w' & E & -> & Hp & Hv).
  exists w'. split; [done|]. unfold fdrv_present, fdrv_version. by rewrite Hp, Hv.
Qed.
End Finding.

(** ** A simulated drive *)

Definition sim_answer (date : Z) : di_reply :=
  mk_reply (Some 2%N) false ([0; 0; 0; 0] ++ be32_bytes date ++ [0; 0; 0; 0; 1; 4; 0; 2]).
Definition sim_ok : di_reply := mk_reply (Some 0%N) false [].

Definition sim_drive : Type := drive_mode.
#[export] Instance sim_drive_exec : FileDrive sim_drive := fun op d =>
  match op with
  | OpInquiry =>
      match d with
      | Firmware | Booting O => (sim_answer FLIPPY_REL_DATE_FIRMWARE, Firmware)
      | Bootloader n => (sim_answer FLIPPY_REL_DATE_BOOTLOADER, Bootloader n)
      | Booting (S n) => (mk_reply None false [], Booting n)
      | Impersonating m => (sim_answer 0x20020402, Impersonating m)
      end
  | OpBypassExit => (sim_ok, match d with Impersonating m => m | m => m end)
  | OpBoot => (sim_ok, match d with Bootloader n => Booting n | m => m end)
  | _ => (sim_ok, d)
  end.

Lemma sim_shows date : 0 <= date < 2 ^ 32 -> shows (sim_answer date) date.
Proof.
  intros Hd. split.
  - unfold answered. by rewrite di_completes_spec.
  - exact (be32_be32_bytes date Hd).
Qed.

#[export, refine] Instance sim_flippy : FlippyDrive sim_drive := { mode := fun d => d; firmware_version := [1; 4; 0; 2] }.
Proof.
  - intros [|n|[|n]|m]; intros _ E; vm_compute in E; try discriminate E; reflexivity.
  - intros d r d' E. destruct d as [|n|[|n]|m]; cbn in E; injection E as <- <-;
      try (split; [apply sim_shows; split; done|done]); [done|].
    split; [|done]. exists 0x20020402. split; [done|]. apply sim_shows. split; done.
  - intros d r d' E. injection E as <- <-. by destruct d.
  - intros d r d' n E ->. cbn in E. by injection E as <- <-.
  - intros d r d' n E ->. cbn in E. by injection E as <- <-.
Defined.

Definition unprobed (d : sim_drive) : fdrv_state sim_drive := mk_fdrv (-1) [] [] d.

Lemma fdrv_probe_finds_drive_witness :
  exists w', fdrv_probe (unprobed (Impersonating (Bootloader 40))) = Some (true, w')
    /\ fdrv_present w' = true /\ fdrv_version w' = Some [1; 4; 0; 2].
Proof.
  change [1; 4; 0; 2] with (firmware_version (D := sim_drive)).
  apply (fdrv_probe_finds_drive (unprobed (Impersonating (Bootloader 40)))); [reflexivity|].
  right. exists (Bootloader 40). split; [reflexivity|]. cbn. unfold FDRV_BOOT_ATTEMPTS. lia.
Defined.

Lemma fdrv_probe_verdict_witness :
  exists found w', fdrv_probe (unprobed (Booting 3)) = Some (found, w')
    /\ (has_fdrv w' <> -1 -> fdrv_probe w' = Some (found, w')).
Proof.
  destruct (fdrv_probe_verdict (unprobed (Booting 3)) eq_refl) as (found & w' & E & _ & Hf).
  exists found, w'. split; [exact E|exact Hf].
Defined.

Lemma fdrv_calls_are_drive_operations_witness :
  fdrv_write (replicate 64 7) 0 40 3 (unprobed Firmware)
  = call (OpWrite 3 0 (replicate 40 7)) (unprobed Firmware).
Proof.
  destruct (fdrv_calls_are_drive_operations (unprobed Firmware) [97] [] [] 0 0 3 0 40 0 false
              (replicate 32 0) (replicate 64 7))
    as (_ & _ & _ & _ & _ & _ & _ & _ & _ & _ & _ & _ & E & _);
    [by repeat constructor|constructor|constructor|lia|lia|lia|vm_compute; lia|exact E].
Defined.
