(* ===== verification/FlippyEmu.v ===== *)
(** The storage dispatch, [emu/flippy_emu.c]: which device holds the files, and
    the file API everything above it calls, served by the FlippyDrive itself or
    emulated over FatFs.  Also the part of [emu/tweaks.c] that runs on mounting.

    FatFs (vendored third-party code) and the raw disc commands are classes; the
    two builds of the file ([IPL_CODE] or not) differ by the parameter [ipl].
    The drive's registers are one bus: the FlippyDrive backend, the raw disc
    commands and the block drivers below FatFs (on a GC Loader every block is a
    command on it) all work on the same [B]. *)

From Stdlib Require Import String.
From S2P Require Import Prelude Di CStr Fdrv.
#[local] Open Scope prog_scope.

Definition FR_OK : Z := 0.
Definition FA_READ : Z := 0x01.
Definition FA_WRITE : Z := 0x02.
Definition FA_OPEN_ALWAYS : Z := 0x10.
Definition AM_DIR : Z := 0x10.
Definition FILE_ENTRY_TYPE_FILE : Z := 0.
Definition FILE_ENTRY_TYPE_DIR : Z := 1.
Definition IPC_FILE_FLAG_WRITE : Z := 0x08.

Record FILINFO := mk_filinfo { fname : list Z; fsize : Z; fattrib : Z }.

(** FatFs with this file's [fs], [file] and [dir] objects: its entry points, the
    size of the open file and whether the objects are open.  [F] holds its
    objects and the block devices that are not on the DI bus [B], which its calls
    may use as well. *)
Class FatFs (F B : Type) := {
  f_mount : list Z -> M (F * B) Z;
  f_open : list Z -> Z -> M (F * B) Z;
  f_opendir : list Z -> M (F * B) Z;
  f_close : M (F * B) unit;
  f_closedir : M (F * B) unit;
  f_lseek : Z -> M (F * B) Z;
  f_read : Z -> M (F * B) (Z * list Z);
  f_readdir : M (F * B) (Z * FILINFO);
  f_mkdir : list Z -> M (F * B) Z;
  f_size : F -> Z;
  file_is_open : F -> bool;
  dir_is_open : F -> bool
}.

(** The physical disc behind the bus ([normal_dvd_read], [dvd_reset] or
    [DI_Reset], [dvd_stop_motor] or [DI_StopMotor]). *)
Class DiscDrive (B : Type) := {
  normal_dvd_read : list Z -> Z -> Z -> Z -> M B (Z * list Z);
  dvd_reset : M B unit;
  dvd_stop_motor : M B unit
}.

Definition DEVICE_FLIPPY : Z := 0.
Definition device_prio : list (list Z) :=
  str <$> ["fldrv"; "gcldr"; "sdc"; "sdb"; "sda"; "ataa"; "atab"; "atac"]%string.
Definition num_devices : Z := 8.

(** A local [char path[256]] before it is written. *)
Definition path_buf : list Z := replicate 256 0.

(** The bytes of [__builtin_bswap64(x)] stored by a big-endian CPU. *)
Definition le64_bytes (x : Z) : list Z :=
  (fun i => u8 (Z.shiftr x (8 * Z.of_nat i))) <$> seq 0 8.

Section Emu.
Variable ipl : bool.
Context {B F : Type} `{DiBus B, DiscDrive B, FatFs F B}.

Record emu_state := mk_emu {
  emu_sd_device : Z;
  passthrough : bool;
  mounted : bool;                (* IPL build *)
  found_swiss : bool;            (* IPL build *)
  emu_fdrv : fdrv_state B;
  emu_fat : F
}.
Notation P := (M emu_state).

Definition set_device (i : Z) (w : emu_state) :=
  mk_emu i (passthrough w) (mounted w) (found_swiss w) (emu_fdrv w) (emu_fat w).
Definition set_passthrough (b : bool) (w : emu_state) :=
  mk_emu (emu_sd_device w) b (mounted w) (found_swiss w) (emu_fdrv w) (emu_fat w).
Definition set_mounted (b : bool) (w : emu_state) :=
  mk_emu (emu_sd_device w) (passthrough w) b (found_swiss w) (emu_fdrv w) (emu_fat w).
Definition set_found_swiss (b : bool) (w : emu_state) :=
  mk_emu (emu_sd_device w) (passthrough w) (mounted w) b (emu_fdrv w) (emu_fat w).
Definition set_fdrv (d : fdrv_state B) (w : emu_state) :=
  mk_emu (emu_sd_device w) (passthrough w) (mounted w) (found_swiss w) d (emu_fat w).
Definition set_fat (f : F) (w : emu_state) :=
  mk_emu (emu_sd_device w) (passthrough w) (mounted w) (found_swiss w) (emu_fdrv w) f.

Definition on_fdrv {A} (m : M (fdrv_state B) A) : P A := zoom emu_fdrv set_fdrv m.
(** What FatFs works on: its own objects and the bus its drivers may use. *)
Definition fat_side (w : emu_state) : F * B := (emu_fat w, fd_bus (emu_fdrv w)).
Definition set_fat_side (x : F * B) (w : emu_state) :=
  set_fdrv (set_fd_bus x.2 (emu_fdrv w)) (set_fat x.1 w).
Definition on_fat {A} (m : M (F * B) A) : P A := zoom fat_side set_fat_side m.
Definition on_disc {A} (m : M B A) : P A := on_fdrv (zoom fd_bus set_fd_bus m).

(** [device_prio[i]]; reading past the table is undefined. *)
Definition device_name (i : Z) : option (list Z) :=
  if i <? 0 then None else device_prio !! Z.to_nat i.
Definition emu_get_device (w : emu_state) : option (list Z) :=
  if emu_sd_device w <? 0 then None else device_name (emu_sd_device w).
Definition emu_is_native (w : emu_state) : bool := emu_sd_device w =? DEVICE_FLIPPY.

(** "<device>:" followed by a path, in a 256-byte buffer. *)
Definition device_path (dev path : list Z) : option (list Z) :=
  b ← strcpy path_buf dev; b ← strcat b (str ":"); strcat b path.

(** ** Mounting *)

Definition device_bring_up (i : Z) : P bool :=
  if i =? DEVICE_FLIPPY then on_fdrv fdrv_probe
  else
    dev <- of_option (device_name i) ;;
    mount_path <- of_option (device_path dev []) ;;
    r <- on_fat (f_mount (cstr mount_path)) ;;
    ret (r =? FR_OK).

(** The retry loop on the device the first stage found. *)
Fixpoint retry_bring_up (attempts : nat) (i : Z) : P bool :=
  match attempts with
  | O => ret false
  | S attempts =>
      up <- device_bring_up i ;;
      if up then ret true else retry_bring_up attempts i
  end.
Definition MOUNT_ATTEMPTS : nat := 30.

(** The probe of the chain from device [i]: the device that came up. *)
Fixpoint probe_chain (n : nat) (i : Z) : P (option Z) :=
  match n with
  | O => ret None
  | S n =>
      up <- device_bring_up i ;;
      if up then ret (Some i) else probe_chain n (i + 1)
  end.

(** [update] is [emu_update_boot], which calls back into this file. *)
Definition mount_ipl (update : P unit) : P bool :=
  w <- get ;;
  if mounted w then ret true
  else if (emu_sd_device w >=? 0) && (emu_sd_device w <? num_devices) then
    up <- retry_bring_up MOUNT_ATTEMPTS (emu_sd_device w) ;;
    if up then modify (set_mounted true) ;; update ;; ret true
    else ret false
  else
    found <- probe_chain (Z.to_nat num_devices) 0 ;;
    match found with
    | Some i => modify (set_device i) ;; modify (set_mounted true) ;; update ;; ret true
    | None => ret false
    end.

Definition mount_dol : P bool :=
  w <- get ;;
  if emu_sd_device w <? 0 then
    found <- probe_chain (Z.to_nat num_devices) 0 ;;
    match found with
    | Some i => modify (set_device i) ;; ret true
    | None => ret false
    end
  else ret true.

(** ** Files *)

Definition dvd_custom_close (fd : Z) : P unit :=
  w <- get ;;
  if emu_is_native w then on_fdrv (fdrv_close fd)
  else on_fat f_close ;; on_fat f_closedir.

(** [mount] is [flippy_emu_mount]. *)
Definition dvd_custom_open (mount : P bool) (path : list Z) (type flags : Z) : P Z :=
  up <- mount ;;
  if negb up then ret 1
  else
    w <- get ;;
    if emu_is_native w then on_fdrv (fdrv_open path type flags)
    else
      dvd_custom_close 1 ;;
      dev <- of_option (emu_get_device w) ;;
      dev_path <- of_option (device_path dev path) ;;
      if type =? FILE_ENTRY_TYPE_DIR then
        r <- on_fat (f_opendir (cstr dev_path)) ;; ret (if r =? FR_OK then 0 else 1)
      else if type =? FILE_ENTRY_TYPE_FILE then
        let ffs_flags := if negb (Z.land flags IPC_FILE_FLAG_WRITE =? 0)
                         then Z.lor FA_READ (Z.lor FA_WRITE FA_OPEN_ALWAYS) else FA_READ in
        r <- on_fat (f_open (cstr dev_path) ffs_flags) ;; ret (if r =? FR_OK then 0 else 1)
      else ret 1.

(** Result word and byte of the blob. *)
Definition blob_result (blob : list Z) : Z := be32 blob 0.
Definition blob_fd (blob : list Z) : Z := nth 12 blob 0.

(** The status blob: return value and memory afterwards. *)
Definition emu_status (status : list Z) : P (Z * list Z) :=
  w <- get ;;
  if emu_is_native w then on_fdrv (fdrv_status status)
  else
    let zeroed := replicate file_status_size 0 in
    let with_fd := splice 12 [1] zeroed in
    if negb (file_is_open (emu_fat w)) && negb (dir_is_open (emu_fat w))
    then ret (0, splice 4 (replicate 8 0) (splice 0 (be32_bytes 1) with_fd))
    else ret (0, splice 4 (le64_bytes (f_size (emu_fat w))) (splice 0 (be32_bytes 0) with_fd)).

(** [dvd_custom_status]: the IPL build returns its static blob, or NULL. *)
Definition dvd_custom_status_ipl (blob : list Z) : P (option (list Z)) :=
  '(e, blob) <- emu_status blob ;; ret (if e =? 0 then Some blob else None).
Definition dvd_custom_status (status : list Z) : P (Z * list Z) := emu_status status.

Definition dvd_custom_open_flash (mount : P bool) (path : list Z) (type flags : Z) : P Z :=
  if negb (type =? FILE_ENTRY_TYPE_FILE) then ret 1
  else
    up <- mount ;;
    w <- get ;;
    if up && emu_is_native w then
      e <- on_fdrv (fdrv_open_flash path type flags) ;;
      ok <- (if e =? 0 then
               '(e, st) <- on_fdrv (fdrv_status (replicate file_status_size 0)) ;;
               ret ((e =? 0) && (blob_result st =? 0))
             else ret false) ;;
      if ok : bool then ret 0 else on_fdrv (fdrv_open path type flags)
    else
      flash_path <- of_option (b ← strcpy path_buf (str "/cubiboot"); strcat b path) ;;
      r <- dvd_custom_open mount (cstr flash_path) type flags ;;
      if r =? 0 then ret 0 else dvd_custom_open mount path type flags.

(** [emu_update_boot]: looks for Swiss. *)
Definition emu_update_boot (mount : P bool) : P unit :=
  dvd_custom_open_flash mount (str "/swiss-gc.dol") FILE_ENTRY_TYPE_FILE 0 ;;
  status <- dvd_custom_status_ipl (replicate file_status_size 0) ;;
  match status with
  | Some blob =>
      modify (set_found_swiss (blob_result blob =? 0)) ;; dvd_custom_close (blob_fd blob)
  | None => modify (set_found_swiss false)
  end.

(** [flippy_emu_mount]; mounting looks for Swiss, which asks for the mount
    again, so the recursion is bounded by the depth of such calls. *)
Fixpoint flippy_emu_mount (depth : nat) : P bool :=
  match depth with
  | O => spin
  | S depth =>
      if ipl then mount_ipl (emu_update_boot (flippy_emu_mount depth)) else mount_dol
  end.
Definition MOUNT_DEPTH : nat := 2.

Definition dvd_read (dst : list Z) (len offset fd : Z) : P (Z * list Z) :=
  w <- get ;;
  if passthrough w then on_disc (normal_dvd_read dst len offset fd)
  else if emu_is_native w then on_fdrv (fdrv_read dst len offset fd)
  else
    r <- on_fat (f_lseek offset) ;;
    if negb (r =? FR_OK) then ret (1, dst)
    else
      '(r, data) <- on_fat (f_read len) ;;
      let dst := splice 0 data dst in
      if negb (r =? FR_OK) then ret (1, dst) else ret (0, dst).

Definition dvd_threaded_read (dst : list Z) (len offset fd : Z) : P (Z * list Z) :=
  w <- get ;;
  if negb (passthrough w) && emu_is_native w
  then on_fdrv (if ipl then fdrv_threaded_read dst len offset fd else fdrv_read dst len offset fd)
  else dvd_read dst len offset fd.

(** The entry's fields in memory: name, type, size (big-endian), attributes. *)
Definition store_entry (fno : FILINFO) (dst : list Z) : option (list Z) :=
  name ← strcpy (slice 0 MAX_FILE_NAME dst) (fname fno);
  let dst := splice 0 name dst in
  let dst := splice 256 [if negb (Z.land (fattrib fno) AM_DIR =? 0)
                         then FILE_ENTRY_TYPE_DIR else FILE_ENTRY_TYPE_FILE] dst in
  let dst := splice 258 (rev (le64_bytes (fsize fno))) dst in
  Some (splice 278 [fattrib fno] dst).

Definition dvd_custom_readdir (dst : list Z) (fd : Z) : P (Z * list Z) :=
  w <- get ;;
  if emu_is_native w then on_fdrv (fdrv_readdir dst fd)
  else
    '(r, fno) <- on_fat f_readdir ;;
    if negb (r =? FR_OK) then ret (1, dst)
    else match fname fno with
         | [] => ret (0, splice 0 [0] dst)
         | _ => dst <- of_option (store_entry fno dst) ;; ret (0, dst)
         end.

Definition dvd_custom_mkdir (mount : P bool) (path : list Z) : P Z :=
  up <- mount ;;
  if negb up then ret 1
  else
    w <- get ;;
    if emu_is_native w then on_fdrv (fdrv_mkdir path)
    else r <- on_fat (f_mkdir path) ;; ret (if r =? FR_OK then 0 else 1).

Definition dvd_custom_bypass_enter : P unit :=
  modify (set_passthrough true) ;;
  w <- get ;;
  if emu_is_native w then on_fdrv fdrv_bypass_enter else on_disc dvd_reset.

Definition dvd_custom_bypass : P unit := dvd_custom_bypass_enter.

Definition dvd_custom_bypass_exit : P unit :=
  w <- get ;;
  if emu_is_native w then on_fdrv fdrv_bypass_exit ;; modify (set_passthrough false)
  else on_disc dvd_stop_motor ;; modify (set_passthrough false).

(** ** Native-only calls *)

Definition native_only (m : M (fdrv_state B) Z) : P Z :=
  w <- get ;; if emu_is_native w then on_fdrv m else ret 1.
Definition dvd_custom_write (buf : list Z) (offset length fd : Z) : P Z :=
  native_only (fdrv_write buf offset length fd).
Definition dvd_set_default_fd (current_fd second_fd : Z) : P unit :=
  w <- get ;; if emu_is_native w then on_fdrv (fdrv_set_default_fd current_fd second_fd) else ret tt.
Definition dvd_custom_unlink (path : list Z) : P Z := native_only (fdrv_unlink path).
Definition dvd_custom_unlink_flash (path : list Z) : P Z := native_only (fdrv_unlink_flash path).
Definition dvd_custom_presence (playing : bool) (status sub_status : list Z) : P Z :=
  native_only (fdrv_presence playing status sub_status).
Definition dvd_custom_fs_info (status : list Z) : P (Z * list Z) :=
  w <- get ;; if emu_is_native w then on_fdrv (fdrv_fs_info status) else ret (1, status).
End Emu.

Arguments emu_state B F : clear implicits.
