(* ===== verification/FlippyEmuThms.v ===== *)
(** The storage dispatch: what one device may touch of another, which device is
    adopted, and what opening and reading a file mean on either backend. *)

From Stdlib Require Import String.
From S2P Require Import Prelude Di CStr Fdrv FlippyEmu.
#[local] Open Scope prog_scope.

(** ** Preservation

    [pres I m]: every run of [m] from a state in [I] that returns ends in [I].
    [agree I m m']: the two programs are the same from the states in [I]. *)

Section Pres.
Context {W : Type} (I : W -> Prop).

Definition pres {A} (m : M W A) : Prop := forall w a w', I w -> m w = Some (a, w') -> I w'.
Definition agree {A} (m m' : M W A) : Prop := forall w, I w -> m w = m' w.

Lemma pres_ret {A} (a : A) : pres (ret a).
Proof. by intros w a' w' Hw [= <- <-]. Qed.
Lemma pres_spin {A} : pres (spin : M W A).
Proof. done. Qed.
Lemma pres_of_option {A} (o : option A) : pres (of_option o).
Proof. intros w a w' Hw E. unfold of_option in E. destruct o; [|done]. by injection E as <- <-. Qed.
(** A value that is known. *)
Lemma pres_known {A C} (o : option A) x (k : A -> M W C) :
  o = Some x -> pres (k x) -> pres (bind (of_option o) k).
Proof. intros -> Hk. exact Hk. Qed.
Lemma pres_bind {A C} (m : M W A) (k : A -> M W C) :
  pres m -> (forall a, pres (k a)) -> pres (bind m k).
Proof.
  intros Hm Hk w c w'' Hw. rewrite bind_Some. intros (a & w' & E & E').
  exact (Hk a _ _ _ (Hm _ _ _ Hw E) E').
Qed.
Lemma pres_get {C} (k : W -> M W C) : (forall w, I w -> pres (k w)) -> pres (bind get k).
Proof. intros Hk w c w' Hw E. exact (Hk w Hw _ _ _ Hw E). Qed.
Lemma pres_modify f : (forall w, I w -> I (f w)) -> pres (modify f).
Proof. intros Hf w a w' Hw [= <- <-]. auto. Qed.
Lemma pres_if {A} (b : bool) (m m' : M W A) : pres m -> pres m' -> pres (if b then m else m').
Proof. by destruct b. Qed.

Lemma agree_bind {A C} (m m' : M W A) (k k' : A -> M W C) :
  agree m m' -> pres m' -> (forall a, agree (k a) (k' a)) -> agree (bind m k) (bind m' k').
Proof.
  intros Hm Hp Hk w Hw. unfold bind. rewrite Hm by done.
  destruct (m' w) as [[a w']|] eqn:E; [|done]. apply Hk. by eapply Hp.
Qed.
Lemma agree_refl {A} (m : M W A) : agree m m.
Proof. done. Qed.
End Pres.

(** A program over a part of the state, when the rest decides the invariant. *)
Lemma pres_zoom {W V A} (I : W -> Prop) view update (m : M V A) :
  (forall v w, I w -> I (update v w)) -> pres I (zoom view update m).
Proof.
  intros Hu w a w' Hw. unfold zoom. destruct (m (view w)) as [[a' v]|]; [|done].
  intros [= <- <-]. auto.
Qed.
Lemma pres_zoom_part {W V A} (I : W -> Prop) (J : V -> Prop) view update (m : M V A) :
  (forall w, I w -> J (view w)) -> (forall v w, I w -> J v -> I (update v w)) ->
  pres J m -> pres I (zoom view update m).
Proof.
  intros Hv Hu Hm w a w' Hw. unfold zoom. destruct (m (view w)) as [[a' v]|] eqn:E; [|done].
  intros [= <- <-]. apply Hu; [done|]. eapply Hm; [|exact E]. auto.
Qed.

Create HintDb pres.
#[export] Hint Resolve pres_ret pres_spin pres_of_option : pres.

(** ** The backend's commands *)

Section Commands.
Context {B : Type} `{DiBus B}.

(** One command given to the drive. *)
Definition bus_step (b b' : B) : Prop := exists rq, (di_start rq b).2 = b'.
(** A program of the backend changes the bus by giving commands. *)
Definition commands {A} (m : M (fdrv_state B) A) : Prop :=
  forall b0, pres (fun d => rtc bus_step b0 (fd_bus d)) m.

Lemma commands_start rq : commands (fdrv_start rq).
Proof.
  intros b0 d a d' Hd. unfold fdrv_start. destruct (di_start rq (fd_bus d)) as [r b] eqn:E.
  intros [= <- <-]. eapply rtc_r; [exact Hd|]. exists rq. by rewrite E.
Qed.
Lemma commands_bind {A C} (m : M (fdrv_state B) A) (k : A -> M (fdrv_state B) C) :
  commands m -> (forall a, commands (k a)) -> commands (bind m k).
Proof. intros Hm Hk b0. apply pres_bind; [apply Hm|]. intros a. apply Hk. Qed.
Lemma commands_ret {A} (a : A) : commands (ret a).
Proof. intros b0. apply pres_ret. Qed.
Lemma commands_spin {A} : commands (spin : M (fdrv_state B) A).
Proof. intros b0. apply pres_spin. Qed.
Lemma commands_get : commands get.
Proof. by intros b0 d a d' Hd [= <- <-]. Qed.
Lemma commands_modify f : (forall d : fdrv_state B, fd_bus (f d) = fd_bus d) -> commands (modify f).
Proof. intros Hf b0. apply pres_modify. intros d. by rewrite Hf. Qed.

Ltac commands1 :=
  first [ apply commands_start | apply commands_ret | apply commands_spin | apply commands_get
        | by apply commands_modify | apply commands_bind; [|intros ?]
        | match goal with
          | |- commands (if ?b then _ else _) => destruct b
          | |- commands (match ?x with _ => _ end) => destruct x
          end ].
Ltac solve_commands := repeat commands1.

Lemma commands_wait r : commands (fdrv_wait r).
Proof. unfold fdrv_wait. solve_commands. Qed.
Lemma commands_cmd c a0 a1 b : commands (fdrv_cmd c a0 a1 b).
Proof. unfold fdrv_cmd, fdrv_wait_bounded, fdrv_wait. solve_commands. Qed.
Lemma commands_dma c a0 a1 buf len b : commands (fdrv_dma c a0 a1 buf len b).
Proof. unfold fdrv_dma, fdrv_wait. solve_commands. Qed.
Lemma commands_inquiry : commands fdrv_inquiry.
Proof. unfold fdrv_inquiry, fdrv_wait_bounded. solve_commands. Qed.
Lemma commands_boot_loop n : commands (fdrv_boot_loop n).
Proof.
  induction n as [|n IH]; cbn [fdrv_boot_loop]; [apply commands_ret|].
  apply commands_bind; [apply commands_inquiry|]. intros e. unfold probe_date. solve_commands. exact IH.
Qed.
Ltac backend :=
  repeat first [ apply commands_cmd | apply commands_dma | apply commands_inquiry
               | apply commands_boot_loop | commands1 ].

Lemma commands_probe : commands fdrv_probe.
Proof.
  unfold fdrv_probe, fdrv_leave_bypass, fdrv_leave_bootloader, fdrv_classify, probe_date. backend.
Qed.
Lemma commands_close fd : commands (fdrv_close fd).
Proof. unfold fdrv_close. backend. Qed.
Lemma commands_set_default a b : commands (fdrv_set_default_fd a b).
Proof. unfold fdrv_set_default_fd. backend. Qed.
Lemma commands_open c p t f : commands (fdrv_open_common c p t f).
Proof. unfold fdrv_open_common. backend. Qed.
Lemma commands_blob c dst n : commands (fdrv_blob c dst n).
Proof. unfold fdrv_blob. backend. Qed.
Lemma commands_read dst len o fd : commands (fdrv_read dst len o fd).
Proof. unfold fdrv_read. backend. Qed.
Lemma commands_threaded dst len o fd : commands (fdrv_threaded_read dst len o fd).
Proof. unfold fdrv_threaded_read. backend. Qed.
Lemma commands_readdir dst fd : commands (fdrv_readdir dst fd).
Proof. unfold fdrv_readdir. backend. Qed.
Lemma commands_path c p : commands (fdrv_path_cmd c p).
Proof. unfold fdrv_path_cmd. backend. Qed.
Lemma commands_write buf o n fd : commands (fdrv_write buf o n fd).
Proof. unfold fdrv_write. backend. Qed.
Lemma commands_presence p a b : commands (fdrv_presence p a b).
Proof. unfold fdrv_presence. backend. Qed.
End Commands.

Create HintDb commands.
#[export] Hint Resolve commands_probe commands_close commands_set_default commands_open commands_blob
  commands_read commands_threaded commands_readdir commands_path commands_write commands_presence : commands.
(** The entry points are these programs for one of the IPC commands. *)
#[export] Hint Extern 1 (commands (_ _)) =>
  first [apply commands_open | apply commands_blob | apply commands_path] : commands.

Section Routing.
Variable ipl : bool.
Context {B F : Type} `{DiBus B, DiscDrive B, FatFs F B}.
Notation state := (emu_state B F).
Implicit Types w : state.

(** ** Calls *)

Inductive file_call :=
  | CMount
  | COpen (path : list Z) (type flags : Z)
  | COpenFlash (path : list Z) (type flags : Z)
  | CStatus (status : list Z)
  | CRead (dst : list Z) (len offset fd : Z)
  | CThreadedRead (dst : list Z) (len offset fd : Z)
  | CReaddir (dst : list Z) (fd : Z)
  | CMkdir (path : list Z)
  | CClose (fd : Z)
  | CWrite (buf : list Z) (offset length fd : Z)
  | CSetDefault (fd second : Z)
  | CUnlink (path : list Z)
  | CUnlinkFlash (path : list Z)
  | CPresence (playing : bool) (status sub_status : list Z)
  | CFsInfo (status : list Z).

Definition mount : M state bool := flippy_emu_mount ipl MOUNT_DEPTH.

(** The call, its result dropped. *)
Definition exec_call (c : file_call) : M state unit :=
  match c with
  | CMount => mount ;; ret tt
  | COpen p t f => dvd_custom_open mount p t f ;; ret tt
  | COpenFlash p t f => dvd_custom_open_flash mount p t f ;; ret tt
  | CStatus s => dvd_custom_status s ;; ret tt
  | CRead d l o fd => dvd_read d l o fd ;; ret tt
  | CThreadedRead d l o fd => dvd_threaded_read ipl d l o fd ;; ret tt
  | CReaddir d fd => dvd_custom_readdir d fd ;; ret tt
  | CMkdir p => dvd_custom_mkdir mount p ;; ret tt
  | CClose fd => dvd_custom_close fd
  | CWrite b o l fd => dvd_custom_write b o l fd ;; ret tt
  | CSetDefault a b => dvd_set_default_fd a b
  | CUnlink p => dvd_custom_unlink p ;; ret tt
  | CUnlinkFlash p => dvd_custom_unlink_flash p ;; ret tt
  | CPresence p s ss => dvd_custom_presence p s ss ;; ret tt
  | CFsInfo s => dvd_custom_fs_info s ;; ret tt
  end%prog.

Fixpoint run_calls (cs : list file_call) : M state unit :=
  match cs with
  | [] => ret tt
  | c :: cs => exec_call c ;; run_calls cs
  end%prog.

Lemma pres_run_calls (I : state -> Prop) cs :
  (forall c, pres I (exec_call c)) -> pres I (run_calls cs).
Proof. intros Hc. induction cs; cbn [run_calls]; auto using pres_ret, pres_bind. Qed.

(** The calls this file makes to FatFs, and one of them at work. *)
Inductive fat_call : forall A, M (F * B) A -> Prop :=
  | fc_mount p : fat_call _ (f_mount p)
  | fc_open p mode : fat_call _ (f_open p mode)
  | fc_opendir p : fat_call _ (f_opendir p)
  | fc_close : fat_call _ f_close
  | fc_closedir : fat_call _ f_closedir
  | fc_lseek o : fat_call _ (f_lseek o)
  | fc_read n : fat_call _ (f_read n)
  | fc_readdir : fat_call _ f_readdir
  | fc_mkdir p : fat_call _ (f_mkdir p).
Inductive fat_step (calls : forall A, M (F * B) A -> Prop) (x y : F * B) : Prop :=
  | fat_stepped A (m : M (F * B) A) a : calls A m -> m x = Some (a, y) -> fat_step calls x y.

(** The probe's own statics stay what they are when only the bus changes. *)
Definition same_probe w w' : Prop := emu_fdrv w' = set_fd_bus (fd_bus (emu_fdrv w')) (emu_fdrv w).

(** A call to FatFs is a step on its side, and leaves the rest alone. *)
Lemma on_fat_step (calls : forall A, M (F * B) A -> Prop) A (m : M (F * B) A) w0 w a w' :
  calls A m -> rtc (fat_step calls) (fat_side w0) (fat_side w) -> same_probe w0 w ->
  on_fat m w = Some (a, w') ->
  rtc (fat_step calls) (fat_side w0) (fat_side w') /\ same_probe w0 w'.
Proof.
  intros Hc Hr Hs. unfold on_fat, zoom. destruct (m (fat_side w)) as [[a' y]|] eqn:E; [|done].
  intros [= <- <-]. split.
  - eapply rtc_r; [exact Hr|]. destruct y. by econstructor.
  - unfold same_probe in *. cbn. rewrite Hs. reflexivity.
Qed.

(** One proof of preservation for every operation: an invariant on the chosen
    device that holds of whichever side of the dispatch runs. *)
Section Invariant.
Variable I : state -> Prop.
Hypothesis I_flags : forall w b, I w ->
  I (set_mounted b w) /\ I (set_found_swiss b w).
Hypothesis I_device : forall w, I w -> 0 <= emu_sd_device w < num_devices.
Hypothesis I_fdrv : forall w, I w -> emu_is_native w = true ->
  forall A (m : M (fdrv_state B) A), commands m -> pres I (on_fdrv m).
Hypothesis I_fat : forall w, I w -> emu_is_native w = false ->
  forall A (m : M (F * B) A), fat_call A m -> pres I (on_fat m).
Hypothesis I_same : forall w w', I w -> I w' -> emu_sd_device w = emu_sd_device w'.
Hypothesis I_pass : forall w, I w -> passthrough w = false.

(** [w0] fixes the side. *)
Variable w0 : state.
Hypothesis Hw0 : I w0.

Ltac pres1 :=
  match goal with
  | |- pres _ (ret _) => apply pres_ret
  | |- pres _ spin => apply pres_spin
  | |- pres _ (of_option _) => apply pres_of_option
  | |- pres _ (bind get _) => apply pres_get; intros ? ?
  | |- pres _ (bind _ _) => apply pres_bind; [|intros ?]
  | Hw : I ?w, E : emu_is_native ?w = true |- pres I (on_fdrv _) => by apply (I_fdrv w); auto with commands
  | Hw : I ?w, E : emu_is_native ?w = false |- pres I (on_fat _) => apply (I_fat w); [exact Hw|exact E|constructor]
  | |- pres _ (if ?x then _ else _) => destruct x eqn:?
  | |- pres _ (match ?x with _ => _ end) => destruct x eqn:?
  end.
Ltac press := repeat pres1.

Lemma pres_bring_up i : i = emu_sd_device w0 -> pres I (device_bring_up i).
Proof.
  intros ->. unfold device_bring_up. change (emu_sd_device w0 =? DEVICE_FLIPPY) with (emu_is_native w0).
  press.
Qed.

Lemma pres_retry n i : i = emu_sd_device w0 -> pres I (retry_bring_up n i).
Proof.
  intros Hi. induction n as [|n IH]; cbn [retry_bring_up]; [apply pres_ret|].
  apply pres_bind; [by apply pres_bring_up|]. intros []; [apply pres_ret|done].
Qed.

Lemma pres_close fd : pres I (dvd_custom_close fd).
Proof. unfold dvd_custom_close. press. Qed.

Lemma pres_open m p t f : pres I m -> pres I (dvd_custom_open m p t f).
Proof.
  intros Hm. unfold dvd_custom_open. apply pres_bind; [done|]. intros up.
  destruct (negb up); [apply pres_ret|]. apply pres_get. intros w Hw.
  destruct (emu_is_native w) eqn:En; [by apply (I_fdrv w); auto with commands|].
  apply pres_bind; [apply pres_close|]. intros _. press.
Qed.

Lemma pres_status s : pres I (emu_status s).
Proof. unfold emu_status. press. Qed.

Lemma pres_open_flash m p t f : pres I m -> pres I (dvd_custom_open_flash m p t f).
Proof.
  intros Hm. unfold dvd_custom_open_flash. destruct (negb _); [apply pres_ret|].
  apply pres_bind; [done|]. intros up. apply pres_get. intros w Hw.
  destruct (up && emu_is_native w) eqn:E.
  - apply andb_prop in E as [_ E]. press.
  - apply pres_bind; [apply pres_of_option|]. intros q.
    apply pres_bind; [by apply pres_open|]. intros r. destruct (r =? 0); [apply pres_ret|].
    by apply pres_open.
Qed.

Lemma pres_update m : pres I m -> pres I (emu_update_boot m).
Proof.
  intros Hm. unfold emu_update_boot. apply pres_bind; [by apply pres_open_flash|]. intros _.
  apply pres_bind.
  - unfold dvd_custom_status_ipl. apply pres_bind; [apply pres_status|]. intros [e s]. apply pres_ret.
  - intros [s|]; [|apply pres_modify; intros; by apply I_flags].
    apply pres_bind; [apply pres_modify; intros; by apply I_flags|]. intros _. apply pres_close.
Qed.

Lemma pres_mount n : pres I (flippy_emu_mount ipl n).
Proof.
  induction n as [|n IH]; cbn [flippy_emu_mount]; [apply pres_spin|].
  destruct ipl; [|unfold mount_dol]; unfold mount_ipl; apply pres_get; intros w Hw;
    pose proof (I_device w Hw) as Hd.
  - destruct (mounted w); [apply pres_ret|].
    rewrite (proj2 (Z.geb_le _ _)), (proj2 (Z.ltb_lt _ _)) by lia. cbn [andb].
    apply pres_bind; [apply pres_retry; by apply I_same|]. intros []; [|apply pres_ret].
    apply pres_bind; [apply pres_modify; intros; by apply I_flags|]. intros _.
    apply pres_bind; [by apply pres_update|]. intros _. apply pres_ret.
  - rewrite (proj2 (Z.ltb_ge _ _)) by lia. apply pres_ret.
Qed.

Lemma pres_read d l o fd : pres I (dvd_read d l o fd).
Proof.
  unfold dvd_read. apply pres_get. intros w Hw. rewrite (I_pass w Hw).
  destruct (emu_is_native w) eqn:En; [by apply (I_fdrv w); auto with commands|]. press.
Qed.

Lemma pres_exec c : pres I (exec_call c).
Proof.
  assert (Hm : pres I mount) by apply pres_mount.
  assert (Hu : forall A (m : M state A), pres I m -> pres I (m ;; ret tt)%prog)
    by (intros; apply pres_bind; [done|intros; apply pres_ret]).
  destruct c; cbn [exec_call]; try apply Hu; auto using pres_open, pres_open_flash, pres_close,
    pres_read, pres_status.
  - unfold dvd_threaded_read. apply pres_get. intros w Hw.
    destruct (negb (passthrough w) && emu_is_native w) eqn:E; [|apply pres_read].
    apply andb_prop in E as [_ E]. apply (I_fdrv w); [done|done|]. destruct ipl; auto with commands.
  - unfold dvd_custom_readdir. press.
  - unfold dvd_custom_mkdir. apply pres_bind; [done|]. intros []; cbn [negb]; [|apply pres_ret]. press.
  - unfold dvd_custom_write, native_only. press.
  - unfold dvd_set_default_fd. press.
  - unfold dvd_custom_unlink, native_only. press.
  - unfold dvd_custom_unlink_flash, native_only. press.
  - unfold dvd_custom_presence, native_only. press.
  - unfold dvd_custom_fs_info. press.
Qed.
End Invariant.
End Routing.

Section Exclusive.
Variable ipl : bool.
Context {B F : Type} `{DiBus B, DiscDrive B, FatFs F B}.
Implicit Types w : emu_state B F.

(** C10. Once a device is chosen, a history of file calls never changes the
    choice, and is served by one side only.  On a FlippyDrive FatFs's state stays
    what it is, and the bus sees commands of the backend only.  On any other device the FlippyDrive backend sends nothing and its
    statics stay what they are: all that happens on the DI bus is what the calls
    to FatFs do there (the blocks of a GC Loader; nothing, for drivers that leave
    the bus alone). *)
Theorem emu_dispatch_is_exclusive w cs w' :
  passthrough w = false -> 0 <= emu_sd_device w < num_devices ->
  run_calls ipl cs w = Some (tt, w') ->
  emu_sd_device w' = emu_sd_device w /\ passthrough w' = false
  /\ (if emu_is_native w
      then emu_fat w' = emu_fat w /\ rtc bus_step (fd_bus (emu_fdrv w)) (fd_bus (emu_fdrv w'))
      else rtc (fat_step fat_call) (fat_side w) (fat_side w') /\ same_probe w w').
Proof.
  intros Hp Hd Hrun.
  set (I := fun w' => emu_sd_device w' = emu_sd_device w /\ passthrough w' = false
    /\ (if emu_is_native w
        then emu_fat w' = emu_fat w /\ rtc bus_step (fd_bus (emu_fdrv w)) (fd_bus (emu_fdrv w'))
        else rtc (fat_step fat_call) (fat_side w) (fat_side w') /\ same_probe w w')).
  assert (Hnat : forall v, I v -> emu_is_native v = emu_is_native w)
    by (intros v (E & _); unfold emu_is_native; by rewrite E).
  assert (HI : I w).
  { unfold I. destruct (emu_is_native w); split_all; try apply rtc_refl. unfold same_probe.
    by destruct (emu_fdrv w). }
  refine (pres_run_calls ipl I cs _ w tt w' HI Hrun). intros c.
  apply (pres_exec ipl I) with (w0 := w); try done.
  - intros v (E & _). by rewrite E.
  - intros v Hv En A m Hm. rewrite (Hnat v Hv) in En. unfold I. rewrite En.
    apply (pres_zoom_part _ (fun d => rtc bus_step (fd_bus (emu_fdrv w)) (fd_bus d))); [| |apply Hm].
    + by intros v' (_ & _ & _ & ?).
    + intros d v' (E1 & E2 & E3 & _) Hd'. exact (conj E1 (conj E2 (conj E3 Hd'))).
  - intros v Hv En A m Hm v' a v'' (E1 & E2 & E3) E. unfold I.
    rewrite (Hnat v Hv) in En. rewrite En in *. destruct E3 as [E3 E4].
    pose proof (on_fat_step fat_call A m w v' a v'' Hm E3 E4 E) as Hs.
    unfold on_fat, zoom in E. destruct (m (fat_side v')) as [[a' y]|]; [|done]. injection E as <- <-.
    exact (conj E1 (conj E2 Hs)).
  - intros v v' (E & _) (E' & _). congruence.
  - by intros v (_ & E & _).
Qed.
End Exclusive.

(** ** Mounting *)

Section Mounting.
Context {B F : Type} `{DiBus B, DiscDrive B, FatFs F B}.
Implicit Types w : emu_state B F.

Definition is_mounted w : Prop := mounted w = true.

Lemma keeps_mounted_fdrv {A} (m : M (fdrv_state B) A) : pres is_mounted (on_fdrv m).
Proof. by apply pres_zoom. Qed.
Lemma keeps_mounted_fat {A} (m : M (F * B) A) : pres is_mounted (on_fat m).
Proof. by apply pres_zoom. Qed.

Section Recursion.
Variables m m' : M (emu_state B F) bool.
Hypothesis Hagree : agree is_mounted m m'.
Hypothesis Hpres : pres is_mounted m'.
(** Some mounted state, for the lemmas above. *)
Variable w0 : emu_state B F.
Hypothesis Hw0 : is_mounted w0.

Lemma open_agree p t f : agree is_mounted (dvd_custom_open m p t f) (dvd_custom_open m' p t f).
Proof. apply agree_bind; auto using agree_refl. Qed.

Lemma open_flash_agree p t f :
  agree is_mounted (dvd_custom_open_flash m p t f) (dvd_custom_open_flash m' p t f).
Proof.
  unfold dvd_custom_open_flash. destruct (negb _); [apply agree_refl|].
  apply agree_bind; [done|done|]. intros up. apply agree_bind; [apply agree_refl|..].
  { intros w a w' Hw [= <- <-]. done. }
  intros w. destruct (up && emu_is_native w); [apply agree_refl|].
  apply agree_bind; [apply agree_refl|apply pres_of_option|]. intros q.
  apply agree_bind; [apply open_agree| |].
  - apply (pres_open is_mounted); auto using keeps_mounted_fdrv, keeps_mounted_fat.
  - intros r. destruct (r =? 0); [apply agree_refl|apply open_agree].
Qed.

Lemma update_agree : agree is_mounted (emu_update_boot m) (emu_update_boot m').
Proof.
  apply agree_bind; [apply open_flash_agree| |intros; apply agree_refl].
  apply (pres_open_flash is_mounted); auto using keeps_mounted_fdrv, keeps_mounted_fat.
Qed.
End Recursion.

Lemma mount_mounted n w : mounted w = true -> flippy_emu_mount true (S n) w = Some (true, w).
Proof. intros Hm. cbn [flippy_emu_mount]. unfold mount_ipl, bind, get. by rewrite Hm. Qed.

Lemma mount_depth_agree n :
  agree is_mounted (flippy_emu_mount (B:=B) (F:=F) true (S n)) (flippy_emu_mount true 1).
Proof. intros w Hw. by rewrite !mount_mounted. Qed.

Lemma mount_ipl_update (u u' : M (emu_state B F) unit) :
  agree is_mounted u u' -> forall w, mount_ipl u w = mount_ipl u' w.
Proof.
  intros Hu w. unfold mount_ipl, bind, get. destruct (mounted w); [done|].
  destruct ((emu_sd_device w >=? 0) && _).
  - destruct (retry_bring_up _ _ w) as [[[] w1]|]; [|done..].
    unfold modify. by rewrite Hu.
  - destruct (probe_chain _ _ w) as [[[i|] w1]|]; [|done..].
    unfold modify. by rewrite Hu.
Qed.

(** Looking for Swiss asks for the mount again, but only once it is done: the
    recursion is never deeper than two. *)
Lemma mount_depth n w :
  flippy_emu_mount true (S (S n)) w = flippy_emu_mount true MOUNT_DEPTH w.
Proof.
  change (mount_ipl (emu_update_boot (flippy_emu_mount true (S n))) w
          = mount_ipl (emu_update_boot (flippy_emu_mount true 1)) w).
  apply mount_ipl_update, update_agree.
  - apply mount_depth_agree.
  - intros v a v' Hv. rewrite mount_mounted by done. by intros [= <- <-].
Qed.
End Mounting.

(** ** Paths *)

Definition path_of (dev path : list Z) : list Z := dev ++ str ":" ++ path.

Lemma length_colon : length (str ":") = 1%nat.
Proof. done. Qed.

Lemma device_path_spec dev path :
  is_cstr dev -> is_cstr path -> (length dev + 1 + length path < 256)%nat ->
  exists b, device_path dev path = Some b /\ cstr b = path_of dev path.
Proof.
  intros Hd Hp Hl. unfold device_path.
  assert (E1 : exists b1, strcpy path_buf dev = Some b1).
  { unfold strcpy, path_buf. rewrite length_replicate, decide_True by lia. eauto. }
  destruct E1 as [b1 E1]. destruct (strcpy_spec _ _ _ Hd E1) as [C1 L1].
  assert (Hc : is_cstr (str ":")) by cstr_lit.
  destruct (strcat_Some b1 (str ":")) as [b2 E2].
  { rewrite C1, L1. unfold path_buf. rewrite length_replicate, ?length_colon. lia. }
  destruct (strcat_spec b1 (str ":") b2) as [C2 L2]; [by rewrite C1|done|done|].
  destruct (strcat_Some b2 path) as [b3 E3].
  { rewrite C2, C1, L2, L1, length_app. unfold path_buf. rewrite length_replicate, ?length_colon. lia. }
  destruct (strcat_spec b2 path b3) as [C3 _]; [rewrite C2, C1; by apply is_cstr_app|done|done|].
  exists b3. rewrite E1. cbn. rewrite E2. cbn. split; [done|].
  unfold path_of. by rewrite C3, C2, C1, app_assoc.
Qed.

(** ... and a path that does not fit is written past the buffer. *)
Lemma device_path_overflow dev path :
  is_cstr dev -> (256 <= length dev + 1 + length path)%nat -> device_path dev path = None.
Proof.
  intros Hd Hl. unfold device_path. destruct (strcpy path_buf dev) as [b1|] eqn:E1; [|done].
  destruct (strcpy_spec _ _ _ Hd E1) as [C1 L1]. cbn.
  destruct (strcat b1 (str ":")) as [b2|] eqn:E2; [|done]. cbn.
  destruct (strcat_spec b1 (str ":") b2) as [C2 L2]; [by rewrite C1|cstr_lit|done|].
  apply strcat_None. rewrite L2, L1, C2, C1, length_app. unfold path_buf.
  rewrite length_replicate, length_colon. lia.
Qed.

Lemma device_name_spec i :
  0 <= i < num_devices ->
  exists dev, device_name i = Some dev /\ is_cstr dev /\ (3 <= length dev <= 5)%nat.
Proof.
  intros Hi. unfold num_devices in Hi.
  assert (i = 0 \/ i = 1 \/ i = 2 \/ i = 3 \/ i = 4 \/ i = 5 \/ i = 6 \/ i = 7) as Hc by lia.
  destruct Hc as [->|[->|[->|[->|[->|[->|[->| ->]]]]]]]; eexists;
    (split; [reflexivity|split; [cstr_lit|vm_compute; lia]]).
Qed.

(** ** Mounting in order *)

Section FirstDevice.
Context {B F : Type} `{DiBus B, DiscDrive B, FatFs F B}.
Implicit Types w : emu_state B F.

(** [tried i w w']: devices 0 to [i - 1] were asked in that order and failed. *)
Inductive tried : Z -> emu_state B F -> emu_state B F -> Prop :=
  | tried_none w : tried 0 w w
  | tried_flippy w d :
      fdrv_probe (emu_fdrv w) = Some (false, d) -> tried 1 w (set_fdrv d w)
  | tried_volume i dev w w1 r f :
      0 < i -> tried i w w1 -> device_name i = Some dev ->
      f_mount (path_of dev []) (fat_side w1) = Some (r, f) -> r <> FR_OK ->
      tried (i + 1) w (set_fat_side f w1).

Lemma bring_up_fat i w up w' :
  0 < i < num_devices -> device_bring_up i w = Some (up, w') ->
  exists dev r f, device_name i = Some dev
    /\ f_mount (path_of dev []) (fat_side w) = Some (r, f)
    /\ w' = set_fat_side f w /\ up = (r =? FR_OK).
Proof.
  intros Hi. unfold device_bring_up. destruct (Z.eqb_spec i DEVICE_FLIPPY) as [->|_];
    [unfold DEVICE_FLIPPY in *; lia|].
  destruct (device_name_spec i ltac:(lia)) as (dev & E & Hd & Hl). rewrite E.
  destruct (device_path_spec dev []) as (b & Eb & Cb); [done|constructor|cbn; lia|].
  unfold bind, of_option, on_fat, zoom, ret. rewrite Eb, Cb.
  destruct (f_mount _ _) as [[r f]|] eqn:Ef; [|done]. intros [= <- <-].
  exists dev, r, f. done.
Qed.

Lemma bring_up_step i w0 w w' :
  0 <= i < num_devices -> tried i w0 w -> device_bring_up i w = Some (false, w') ->
  tried (i + 1) w0 w'.
Proof.
  intros Hi Ht E. destruct (Z.eq_dec i 0) as [->|].
  - inversion Ht; subst; [|lia]. unfold device_bring_up in E. cbn in E.
    unfold on_fdrv, zoom in E. destruct (fdrv_probe _) as [[up d]|] eqn:Ep; [|done].
    injection E as -> <-. by apply tried_flippy.
  - destruct (bring_up_fat i w false w' ltac:(lia) E) as (dev & r & f & En & Em & -> & Er).
    apply (tried_volume i dev _ _ r); try done; [lia|]. symmetry in Er. by apply Z.eqb_neq in Er.
Qed.

Lemma probe_chain_spec n i w0 w found w' :
  i + Z.of_nat n = num_devices -> 0 <= i -> tried i w0 w ->
  probe_chain n i w = Some (found, w') ->
  match found with
  | Some k => exists w1, i <= k < num_devices /\ tried k w0 w1 /\ device_bring_up k w1 = Some (true, w')
  | None => tried num_devices w0 w'
  end.
Proof.
  revert i w. induction n as [|n IH]; intros i w Hn Hi Ht; cbn [probe_chain].
  - intros [= <- <-]. by replace num_devices with i by lia.
  - rewrite bind_Some. intros (up & w1 & E & E'). destruct up.
    + injection E' as <- <-. exists w. split_all.
    + pose proof (bring_up_step i w0 w w1 ltac:(lia) Ht E) as Ht1.
      pose proof (IH (i + 1) w1 ltac:(lia) ltac:(lia) Ht1 E') as Hr.
      destruct found as [k|]; [|done]. destruct Hr as (w2 & ? & ?). exists w2. split; [lia|done].
Qed.

(** C11. The first stage's mount adopts the first device, in the order of the
    table, that comes up: every device before it was asked, in order, and
    failed, none after it was touched; when all fail no device is adopted.  A
    second call keeps the choice without touching the hardware. *)
Theorem emu_mount_adopts_first w ok w' :
  emu_sd_device w = -1 -> flippy_emu_mount false MOUNT_DEPTH w = Some (ok, w') ->
  if ok then
    exists k w1 w2, 0 <= k < num_devices /\ tried k w w1
      /\ device_bring_up k w1 = Some (true, w2) /\ w' = set_device k w2
      /\ flippy_emu_mount false MOUNT_DEPTH w' = Some (true, w')
  else tried num_devices w w'.
Proof.
  intros Hd. change (flippy_emu_mount false MOUNT_DEPTH) with (mount_dol (B:=B) (F:=F)).
  unfold mount_dol at 1, bind at 1, get. rewrite Hd. change (-1 <? 0) with true. cbv iota.
  rewrite bind_Some. intros (found & w1 & E & E').
  pose proof (probe_chain_spec (Z.to_nat num_devices) 0 w w found w1 eq_refl ltac:(lia)
    (tried_none w) E) as Hs.
  destruct found as [k|]; injection E' as <- <-; [|done].
  destruct Hs as (w2 & Hk & Ht & Hu). exists k, w2, w1. split_all.
  unfold mount_dol, bind, get, set_device. cbn [emu_sd_device].
  by rewrite (proj2 (Z.ltb_ge k 0)) by lia.
Qed.
End FirstDevice.

(** ** The second stage's mount *)

Section ChosenDevice.
Context {B F : Type} `{DiBus B, DiscDrive B, FatFs F B}.
Implicit Types w : emu_state B F.

Variables (dev : list Z) (k : Z).
Hypothesis Hdev : device_name k = Some dev.
Hypothesis Hk : 0 < k < num_devices.

(** The calls that concern one volume: mounting it, opening its files, closing. *)
Inductive volume_call : forall A, M (F * B) A -> Prop :=
  | vc_mount : volume_call _ (f_mount (path_of dev []))
  | vc_open p mode : volume_call _ (f_open (path_of dev p) mode)
  | vc_close : volume_call _ f_close
  | vc_closedir : volume_call _ f_closedir.

Variable w0 : emu_state B F.
Definition chosen w : Prop :=
  emu_sd_device w = k /\ rtc (fat_step volume_call) (fat_side w0) (fat_side w) /\ same_probe w0 w.

Lemma chosen_fat {A} (m : M (F * B) A) : volume_call A m -> pres chosen (on_fat m).
Proof.
  intros Hm w a w' (E1 & E2 & E3) E. split; [|exact (on_fat_step _ A m w0 w a w' Hm E2 E3 E)].
  unfold on_fat, zoom in E. destruct (m (fat_side w)) as [[a' y]|]; [|done]. by injection E as <- <-.
Qed.

Lemma chosen_native w : chosen w -> emu_is_native w = false.
Proof. intros (E & _). unfold emu_is_native, DEVICE_FLIPPY. rewrite E. apply Z.eqb_neq. lia. Qed.

Lemma chosen_device w : chosen w -> emu_get_device w = Some dev.
Proof. intros (E & _). unfold emu_get_device. rewrite E, (proj2 (Z.ltb_ge k 0)) by lia. done. Qed.

Lemma chosen_close fd : pres chosen (dvd_custom_close fd).
Proof.
  apply pres_get. intros w Hw. rewrite (chosen_native w Hw).
  apply pres_bind; [apply chosen_fat; constructor|]. intros _. apply chosen_fat. constructor.
Qed.

(** A path of the length the look for Swiss uses. *)
Definition fits (p : list Z) : Prop := is_cstr p /\ (length p < 250)%nat.

Lemma chosen_open m p f : fits p -> pres chosen m -> pres chosen (dvd_custom_open m p FILE_ENTRY_TYPE_FILE f).
Proof.
  intros [Hc Hl] Hm. apply pres_bind; [done|]. intros []; cbn [negb]; [|apply pres_ret].
  apply pres_get. intros w Hw. rewrite (chosen_native w Hw), (chosen_device w Hw).
  destruct (device_name_spec k ltac:(lia)) as (dv & En & Hcd & Hld).
  assert (dv = dev) as -> by congruence.
  destruct (device_path_spec dev p Hcd Hc ltac:(lia)) as (b & Eb & Cb).
  apply pres_bind; [apply chosen_close|]. intros _. apply (pres_known _ _ dev); [done|].
  apply (pres_known _ _ b); [done|]. rewrite Cb.
  change (FILE_ENTRY_TYPE_FILE =? FILE_ENTRY_TYPE_DIR) with false.
  change (FILE_ENTRY_TYPE_FILE =? FILE_ENTRY_TYPE_FILE) with true. cbv iota.
  apply pres_bind; [apply chosen_fat; constructor|]. intros; apply pres_ret.
Qed.

Lemma chosen_open_flash m f : pres chosen m ->
  pres chosen (dvd_custom_open_flash m (str "/swiss-gc.dol") FILE_ENTRY_TYPE_FILE f).
Proof.
  intros Hm. unfold dvd_custom_open_flash. change (FILE_ENTRY_TYPE_FILE =? FILE_ENTRY_TYPE_FILE) with true.
  apply pres_bind; [done|]. intros up. apply pres_get. intros w Hw.
  rewrite (chosen_native w Hw), andb_false_r.
  eapply pres_known; [vm_compute; reflexivity|].
  apply pres_bind; [apply chosen_open; [split; [cstr_lit|vm_compute; lia]|done]|]. intros r.
  destruct (r =? 0); [apply pres_ret|]. apply chosen_open; [split; [cstr_lit|vm_compute; lia]|done].
Qed.

Lemma chosen_update m : pres chosen m -> pres chosen (emu_update_boot m).
Proof.
  intros Hm. apply pres_bind; [by apply chosen_open_flash|]. intros _. apply pres_bind.
  - apply pres_bind; [|intros [e s]; apply pres_ret]. apply pres_get. intros w Hw.
    rewrite (chosen_native w Hw). destruct (negb _ && _); apply pres_ret.
  - intros [s|]; [apply pres_bind; [by apply pres_modify|intros _; apply chosen_close]|].
    by apply pres_modify.
Qed.

Lemma chosen_bring_up : pres chosen (device_bring_up k).
Proof.
  unfold device_bring_up. rewrite (proj2 (Z.eqb_neq k DEVICE_FLIPPY)) by (unfold DEVICE_FLIPPY; lia).
  destruct (device_name_spec k ltac:(lia)) as (dv & En & Hcd & Hld).
  assert (dv = dev) as -> by congruence.
  destruct (device_path_spec dev []) as (b & Eb & Cb); [done|constructor|cbn; lia|].
  apply (pres_known _ _ dev); [done|]. apply (pres_known _ _ b); [done|]. rewrite Cb.
  apply pres_bind; [apply chosen_fat; constructor|]. intros; apply pres_ret.
Qed.

Lemma chosen_mount n : pres chosen (flippy_emu_mount true n).
Proof.
  induction n as [|n IH]; cbn [flippy_emu_mount]; [apply pres_spin|].
  apply pres_get. intros w Hw. destruct (mounted w); [apply pres_ret|].
  destruct (Hw) as (E & _). rewrite E, (proj2 (Z.geb_le _ _)), (proj2 (Z.ltb_lt _ _)) by lia.
  cbn [andb]. apply pres_bind.
  - generalize MOUNT_ATTEMPTS. intros a. induction a as [|a IHa]; [apply pres_ret|].
    apply pres_bind; [apply chosen_bring_up|]. intros []; [apply pres_ret|done].
  - intros []; [|apply pres_ret]. apply pres_bind; [by apply pres_modify|]. intros _.
    apply pres_bind; [by apply chosen_update|]. intros _. apply pres_ret.
Qed.
End ChosenDevice.

(** The FlippyDrive chosen: FatFs is left alone. *)
Section ChosenFlippy.
Context {B F : Type} `{DiBus B, DiscDrive B, FatFs F B}.

Lemma flippy_mount n (w : emu_state B F) ok w' :
  emu_sd_device w = DEVICE_FLIPPY -> flippy_emu_mount true n w = Some (ok, w') ->
  emu_sd_device w' = DEVICE_FLIPPY /\ emu_fat w' = emu_fat w.
Proof.
  intros Hd. set (I := fun w' : emu_state B F => emu_sd_device w' = DEVICE_FLIPPY /\ emu_fat w' = emu_fat w).
  assert (HI : I w) by done.
  apply (pres_mount true I) with (w0 := w); try done.
  - intros v (E & _). by rewrite E.
  - intros v _ _ A m _. by apply pres_zoom.
  - intros v (E & _) En. unfold emu_is_native in En. by rewrite E in En.
  - intros v v' (E & _) (E' & _). congruence.
Qed.
End ChosenFlippy.

(** C12. The second stage's mount works on the device the first stage chose and
    on no other, and the choice stands.  With the FlippyDrive chosen FatFs is not
    called at all.  With a volume chosen the FlippyDrive backend sends nothing,
    and what happens to FatFs and on the DI bus is what a series of calls does
    that mount this volume, open files of this volume or close files: no other
    volume is ever mounted.  The recursion through the look for Swiss is never
    deeper than two. *)
Theorem emu_ipl_mount_only_chosen {B F} `{DiBus B, DiscDrive B, FatFs F B} (w : emu_state B F)
    (dev : list Z) depth ok w' :
  device_name (emu_sd_device w) = Some dev ->
  flippy_emu_mount true (S (S depth)) w = Some (ok, w') ->
  emu_sd_device w' = emu_sd_device w /\
  (if emu_is_native w then emu_fat w' = emu_fat w
   else rtc (fat_step (volume_call dev)) (fat_side w) (fat_side w') /\ same_probe w w') /\
  flippy_emu_mount true MOUNT_DEPTH w = Some (ok, w').
Proof.
  intros Hd. rewrite mount_depth. intros E.
  assert (Hk : 0 <= emu_sd_device w < num_devices).
  { revert Hd. unfold device_name. destruct (Z.ltb_spec (emu_sd_device w) 0); [done|].
    intros Hl%lookup_lt_Some. cbn in Hl. unfold num_devices. lia. }
  unfold emu_is_native. destruct (Z.eqb_spec (emu_sd_device w) DEVICE_FLIPPY) as [E0|E0].
  - destruct (flippy_mount _ _ _ _ E0 E) as [E1 E2]. split; [congruence|]. by split.
  - unfold DEVICE_FLIPPY in E0.
    destruct (chosen_mount dev _ Hd ltac:(lia) w MOUNT_DEPTH w ok w') as (E1 & E2 & E3); [|done|done].
    split; [done|]. split; [apply rtc_refl|]. unfold same_probe. by destruct (emu_fdrv w).
Qed.

(** ** Opening *)

Section Opening.
Context {B F : Type} `{DiBus B, DiscDrive B, FatFs F B}.
Implicit Types (w : emu_state B F) (m : M (emu_state B F) bool).

(** Opening a file of a volume, the emulation's single file and directory having
    been closed. *)
Definition fat_open (mode : Z) (p : list Z) : M (F * B) Z :=
  f_close ;; f_closedir ;; r <- f_open p mode ;; ret (if r =? FR_OK then 0 else 1).

Definition open_mode (flags : Z) : Z :=
  if Z.land flags IPC_FILE_FLAG_WRITE =? 0 then 0x01 else 0x13.

Lemma side_set x w : fat_side (set_fat_side x w) = x.
Proof. by destruct x. Qed.
Lemma set_side_twice x y w : set_fat_side x (set_fat_side y w) = set_fat_side x w.
Proof. done. Qed.
Lemma set_side_same w : set_fat_side (fat_side w) w = w.
Proof. by destruct w as [? ? ? ? []]. Qed.

Lemma open_fat m w dev path flags :
  emu_get_device w = Some dev -> emu_is_native w = false -> is_cstr dev -> is_cstr path ->
  (length dev + 1 + length path < 256)%nat -> m w = Some (true, w) ->
  dvd_custom_open m path FILE_ENTRY_TYPE_FILE flags w
  = on_fat (fat_open (open_mode flags) (path_of dev path)) w.
Proof.
  intros Hd Hn Hcd Hcp Hl Hm.
  destruct (device_path_spec dev path Hcd Hcp Hl) as (b & Eb & Cb).
  unfold dvd_custom_open, dvd_custom_close, bind, get. rewrite Hm. cbn [negb]. rewrite Hn, Hd.
  unfold of_option. rewrite Eb, Cb.
  change (FILE_ENTRY_TYPE_FILE =? FILE_ENTRY_TYPE_DIR) with false.
  change (FILE_ENTRY_TYPE_FILE =? FILE_ENTRY_TYPE_FILE) with true. cbv iota.
  unfold on_fat, fat_open, zoom, bind, ret. rewrite ?Hn. cbv beta iota.
  destruct (f_close (fat_side w)) as [[u f1]|]; [|done]. rewrite side_set.
  destruct (f_closedir f1) as [[u' f2]|]; [|done]. rewrite side_set.
  replace (if negb (Z.land flags IPC_FILE_FLAG_WRITE =? 0)
           then Z.lor FA_READ (Z.lor FA_WRITE FA_OPEN_ALWAYS) else FA_READ)
    with (open_mode flags) by (unfold open_mode; by destruct (_ =? 0)).
  destruct (f_open _ _ f2) as [[r f3]|]; [|done]. by rewrite !set_side_twice.
Qed.

(** A mount that has happened. *)
Definition up ipl w : Prop := if ipl : bool then mounted w = true else 0 <= emu_sd_device w.

Lemma up_mounts ipl w :
  up ipl w -> flippy_emu_mount ipl MOUNT_DEPTH w = Some (true, w).
Proof.
  destruct ipl; cbn [up]; intros Hu.
  - by apply mount_mounted.
  - change (mount_dol w = Some (true, w)). unfold mount_dol, bind, get.
    by rewrite (proj2 (Z.ltb_ge _ _)).
Qed.

Lemma flash_path_spec path :
  is_cstr path -> (length path < 240)%nat ->
  exists b, (b ← strcpy path_buf (str "/cubiboot"); strcat b path) = Some b
    /\ cstr b = str "/cubiboot" ++ path.
Proof.
  intros Hp Hl. destruct (strcpy path_buf (str "/cubiboot")) as [b1|] eqn:E1; [|done]. cbn.
  assert (Hc : is_cstr (str "/cubiboot")) by cstr_lit.
  destruct (strcpy_spec _ _ _ Hc E1) as [C1 L1].
  assert (Hlen : length (str "/cubiboot") = 9%nat) by done.
  destruct (strcat_Some b1 path) as [b2 E2].
  { rewrite C1, L1, Hlen. unfold path_buf. rewrite length_replicate. lia. }
  destruct (strcat_spec b1 path b2) as [C2 _]; [by rewrite C1|done|done|].
  exists b2. by rewrite E2, C2, C1.
Qed.

(** On a FatFs device a file is opened under its device's name, every path
    of the lengths the callers use fits the buffers on the stack, the file or
    directory open before is closed first, and a file "in flash" is looked for
    under /cubiboot and then at its plain path. *)
Theorem emu_open_on_volume ipl w path flags :
  up ipl w -> 0 < emu_sd_device w < num_devices -> is_cstr path -> (length path < 240)%nat ->
  exists dev, emu_get_device w = Some dev
    /\ dvd_custom_open (mount ipl) path FILE_ENTRY_TYPE_FILE flags w
       = on_fat (fat_open (open_mode flags) (path_of dev path)) w
    /\ dvd_custom_open_flash (mount ipl) path FILE_ENTRY_TYPE_FILE flags w
       = on_fat (r <- fat_open (open_mode flags) (path_of dev (str "/cubiboot" ++ path)) ;;
                 if r =? 0 then ret 0 else fat_open (open_mode flags) (path_of dev path))%prog w.
Proof.
  intros Hu Hd Hp Hl. destruct (device_name_spec (emu_sd_device w) ltac:(lia)) as (dev & En & Hc & Hld).
  assert (Hg : forall f, emu_get_device (set_fat_side f w) = Some dev).
  { intros f. unfold emu_get_device. cbn [emu_sd_device set_fat_side set_fat set_fdrv].
    by rewrite (proj2 (Z.ltb_ge _ 0)) by lia. }
  assert (Hw : set_fat_side (fat_side w) w = w) by (apply set_side_same).
  assert (Hn : forall f, emu_is_native (set_fat_side f w) = false).
  { intros f. unfold emu_is_native, DEVICE_FLIPPY. cbn [emu_sd_device set_fat_side set_fat set_fdrv]. apply Z.eqb_neq. lia. }
  assert (Hm : forall f, mount ipl (set_fat_side f w) = Some (true, set_fat_side f w)).
  { intros f. apply up_mounts. by destruct ipl. }
  pose proof (Hg (fat_side w)) as Hg0. pose proof (Hn (fat_side w)) as Hn0.
  pose proof (Hm (fat_side w)) as Hm0. rewrite Hw in Hg0, Hn0, Hm0.
  exists dev. split; [done|]. split; [apply open_fat; try done; lia|].
  destruct (flash_path_spec path Hp Hl) as (b & Eb & Cb).
  assert (Hcf : is_cstr (str "/cubiboot" ++ path)) by (apply is_cstr_app; split; [cstr_lit|done]).
  assert (Hlen : length (str "/cubiboot" ++ path) = (9 + length path)%nat) by (by rewrite length_app).
  unfold dvd_custom_open_flash. change (FILE_ENTRY_TYPE_FILE =? FILE_ENTRY_TYPE_FILE) with true.
  cbn [negb]. unfold bind at 1. rewrite Hm0. unfold bind at 1, get. rewrite Hn0, andb_false_r.
  unfold bind at 1, of_option. rewrite Eb, Cb. unfold bind at 1.
  rewrite (open_fat _ _ dev) by (try done; rewrite ?Hlen; lia).
  unfold on_fat, zoom, bind. destruct (fat_open _ _ (fat_side w)) as [[r f]|]; [|done].
  destruct (r =? 0); [done|]. rewrite (open_fat _ _ dev) by (try done; lia).
  unfold on_fat, zoom. rewrite side_set. destruct (fat_open _ _ f) as [[r2 f2]|]; [|done].
  by rewrite set_side_twice.
Qed.
End Opening.

(** ** Reading *)

(** What an open file on either side promises.  A DMA read of the drive takes
    lengths that are multiples of 32 (and destinations aligned to 32, which the
    buffers of this model do not show); no read stores more than was asked. *)
Class FatFsFile (F B : Type) `{FatFs F B} := {
  fat_content : F * B -> list Z;
  fat_pos : F * B -> Z;
  f_lseek_law : forall o f r f', f_lseek o f = Some (r, f') -> r = FR_OK ->
    fat_content f' = fat_content f /\ fat_pos f' = Z.min o (Z.of_nat (length (fat_content f)));
  f_read_law : forall len f r data f', f_read len f = Some (r, data, f') -> r = FR_OK ->
    fat_content f' = fat_content f
    /\ data = slice (Z.to_nat (fat_pos f)) (Z.to_nat len) (fat_content f);
  f_read_length : forall len f r data f', f_read len f = Some (r, data, f') ->
    (length data <= Z.to_nat len)%nat
}.
Definition read_request (fd wo len : Z) : di_request :=
  mk_request di_prepare (Z.lor DVD_OEM_READ (fd_field fd)) wo len len 3 [].
Class DriveFile (B : Type) `{DiBus B} := {
  drive_content : B -> Z -> list Z;
  drive_read_law : forall fd wo len b r b', 0 <= len -> len mod 32 = 0 ->
    di_start (read_request fd wo len) b = (r, b') ->
    (length (rp_in r) <= Z.to_nat len)%nat /\
    (rp_busy r <> None -> rp_deint r = false ->
     rp_in r = slice (Z.to_nat (4 * wo)) (Z.to_nat len) (drive_content b (fd mod 256)))
}.

Section Reading.
Context {B F : Type} `{DriveFile B, DiscDrive B, FatFsFile F B}.
Implicit Types w : emu_state B F.

Definition open_content w (fd : Z) : list Z :=
  if emu_is_native w then drive_content (fd_bus (emu_fdrv w)) (fd mod 256)
  else fat_content (fat_side w).

Lemma slice_beyond {A} o n (l : list A) : (length l <= o)%nat -> slice o n l = [].
Proof. intros. unfold slice. rewrite drop_ge by done. by destruct n. Qed.

Lemma fat_read_spec w dst len offset fd dst' w' :
  emu_is_native w = false -> passthrough w = false -> 0 <= offset ->
  dvd_read dst len offset fd w = Some (0, dst', w') ->
  dst' = splice 0 (slice (Z.to_nat offset) (Z.to_nat len) (fat_content (fat_side w))) dst.
Proof.
  intros Hn Hp Ho. unfold dvd_read, bind, get. rewrite Hp, Hn. unfold on_fat, zoom, ret.
  destruct (f_lseek offset (fat_side w)) as [[r f]|] eqn:El; [|done].
  destruct (Z.eqb_spec r FR_OK) as [->|]; cbn [negb]; [|done]. rewrite side_set.
  destruct (f_lseek_law _ _ _ _ El eq_refl) as [Hc Hpos].
  destruct (f_read len f) as [[[r data] f2]|] eqn:Er; [|done].
  destruct (Z.eqb_spec r FR_OK) as [->|]; cbn [negb]; [|done]. intros [= <- <-].
  destruct (f_read_law _ _ _ _ _ Er eq_refl) as [_ ->]. rewrite Hc, Hpos. f_equal.
  destruct (Z.le_gt_cases offset (Z.of_nat (length (fat_content (fat_side w))))).
  - by rewrite Z.min_l.
  - rewrite !slice_beyond; [done|lia|]. rewrite Z.min_r by lia. lia.
Qed.

Lemma native_read_spec (d : fdrv_state B) dst len offset fd dst' d' :
  0 <= offset -> offset mod 4 = 0 -> 0 <= len -> len mod 32 = 0 ->
  fdrv_read dst len offset fd d = Some (0, dst', d') ->
  dst' = splice 0 (slice (Z.to_nat offset) (Z.to_nat len)
                     (drive_content (fd_bus d) (fd mod 256))) dst.
Proof.
  intros Ho Ha Hl Hm. unfold fdrv_read. rewrite Z.shiftr_div_pow2 by lia. change (2 ^ 2) with 4.
  destruct (Z.gtb_spec (offset / 4) 0xFFFFFFFF); [done|].
  rewrite u32_small by (split; [apply Z.div_pos|]; lia).
  unfold fdrv_dma, fdrv_start, bind, ret. change (Z.lor DI_CR_DMA DI_CR_TSTART) with 3.
  destruct (di_start _ _) as [r b] eqn:E. unfold fdrv_wait.
  destruct (rp_busy r) as [k|] eqn:Ek; [|done].
  unfold ret, deint. destruct (rp_deint r) eqn:Ed; [done|]. intros [= <- <-].
  destruct (drive_read_law _ _ _ _ _ _ Hl Hm E) as [_ Hd]. rewrite Hd by congruence.
  replace (4 * (offset / 4)) with offset by zdm. done.
Qed.

Lemma threaded_read_eq dst len offset fd (d : fdrv_state B) :
  fdrv_threaded_read dst len offset fd d = fdrv_read dst len offset fd d.
Proof.
  unfold fdrv_threaded_read, fdrv_read, fdrv_dma. destruct (_ >? _); [done|].
  unfold bind. destruct (fdrv_start _ d) as [[r d']|]; [|done].
  unfold fdrv_wait. by destruct (rp_busy r).
Qed.

(** C13. A read that reports success has stored the file's bytes from the offset
    on, on either backend: at any offset and for any length through FatFs; through
    the drive, whose reads are DMA transfers, at word offsets and for lengths that
    are multiples of 32 (the destination being aligned as well).  The same holds
    past the end of the file, where success with nothing stored is what the
    emulation reports. *)
Theorem emu_read_delivers ipl w dst len offset fd dst' w' :
  passthrough w = false -> 0 <= offset ->
  (emu_is_native w = true -> offset mod 4 = 0 /\ 0 <= len /\ len mod 32 = 0) ->
  dvd_read dst len offset fd w = Some (0, dst', w')
  \/ dvd_threaded_read ipl dst len offset fd w = Some (0, dst', w') ->
  dst' = splice 0 (slice (Z.to_nat offset) (Z.to_nat len) (open_content w fd)) dst.
Proof.
  intros Hp Ho Ha Hr. assert (Hr' : dvd_read dst len offset fd w = Some (0, dst', w')).
  { destruct Hr as [?|Hr]; [done|]. unfold dvd_threaded_read, bind, get in Hr.
    unfold dvd_read, bind, get. rewrite Hp in *. cbn [negb andb] in Hr.
    destruct (emu_is_native w) eqn:En.
    - unfold on_fdrv, zoom in *. destruct ipl; [by rewrite threaded_read_eq in Hr|done].
    - unfold dvd_read, bind, get in Hr. by rewrite Hp, En in Hr. }
  clear Hr. unfold open_content. destruct (emu_is_native w) eqn:En; [|by eapply fat_read_spec].
  unfold dvd_read, bind, get, on_fdrv, zoom in Hr'. rewrite Hp, En in Hr'.
  destruct (fdrv_read dst len offset fd (emu_fdrv w)) as [[[e d] f]|] eqn:E; [|done].
  injection Hr' as -> -> _. destruct (Ha eq_refl) as (? & ? & ?). by eapply native_read_spec.
Qed.
End Reading.

(** ** Simulated devices *)

(** A FatFs that logs the volumes it is asked to mount, has one volume that
    mounts and some files, and serves the open one. *)
Record sim_fat := mk_sim_fat {
  sf_log : list (list Z);
  sf_present : list Z;
  sf_files : list (list Z * list Z);
  sf_open : option (list Z);
  sf_pos : Z
}.
Definition sf_find (p : list Z) (f : sim_fat) : option (list Z) :=
  snd <$> list_find (fun e => e.1 = p) (sf_files f) ≫= fun r => Some r.2.

(** Its drivers are not on the bus. *)
Definition off_bus {B A} (m : M sim_fat A) : M (sim_fat * B) A := zoom fst (fun f x => (f, x.2)) m.

#[export] Instance sim_fatfs {B} : FatFs sim_fat B := {
  f_mount p := off_bus (fun f =>
    Some (if decide (p = sf_present f) then 0 else 3,
          mk_sim_fat (sf_log f ++ [p]) (sf_present f) (sf_files f) (sf_open f) (sf_pos f)));
  f_open p _ := off_bus (fun f =>
    match sf_find p f with
    | Some c => Some (0, mk_sim_fat (sf_log f) (sf_present f) (sf_files f) (Some c) 0)
    | None => Some (4, f)
    end);
  f_opendir _ := ret 4;
  f_close := off_bus (fun f => Some (tt, mk_sim_fat (sf_log f) (sf_present f) (sf_files f) None 0));
  f_closedir := ret tt;
  f_lseek o := off_bus (fun f =>
    match sf_open f with
    | Some c => Some (0, mk_sim_fat (sf_log f) (sf_present f) (sf_files f) (sf_open f)
                           (Z.min o (Z.of_nat (length c))))
    | None => Some (9, f)
    end);
  f_read len := off_bus (fun f =>
    match sf_open f with
    | Some c => Some (0, slice (Z.to_nat (sf_pos f)) (Z.to_nat len) c, f)
    | None => Some (9, [], f)
    end);
  f_readdir := ret (9, mk_filinfo [] 0 0);
  f_mkdir _ := ret 1;
  f_size f := match sf_open f with Some c => Z.of_nat (length c) | None => 0 end;
  file_is_open f := if sf_open f then true else false;
  dir_is_open _ := false
}.

#[export, refine] Instance sim_fat_file {B} : FatFsFile sim_fat B := {
  fat_content f := default [] (sf_open f.1);
  fat_pos f := sf_pos f.1
}.
Proof.
  - intros o [f b] r f'. unfold f_lseek, sim_fatfs, off_bus, zoom. cbn [fst snd].
    destruct (sf_open f) as [c|] eqn:E; intros [= <- <-]; done.
  - intros len [f b] r data f'. unfold f_read, sim_fatfs, off_bus, zoom. cbn [fst snd].
    destruct (sf_open f) as [c|] eqn:E; intros [= <- <- <-]; [|done]. intros _. cbn. by rewrite E.
  - intros len [f b] r data f'. unfold f_read, sim_fatfs, off_bus, zoom. cbn [fst snd].
    destruct (sf_open f) as [c|] eqn:E; intros [= <- <- <-]; [|cbn; lia]. unfold slice. len.
Defined.

(** A bus whose drive serves one content for every descriptor. *)
Definition sim_disc : Type := list Z.
#[export] Instance sim_disc_bus : DiBus sim_disc := fun rq b =>
  (mk_reply (Some 0%N) false (slice (Z.to_nat (4 * rq_cmdbuf1 rq)) (Z.to_nat (rq_cmdbuf2 rq)) b), b).
#[export, refine] Instance sim_disc_file : DriveFile sim_disc := { drive_content b _ := b }.
Proof.
  intros fd wo len b r b' _ _ E. injection E as <- <-. split; [|done]. cbn. unfold slice. len.
Defined.
#[export] Instance sim_disc_drive : DiscDrive sim_disc := {
  normal_dvd_read dst _ _ _ := ret (1, dst); dvd_reset := ret tt; dvd_stop_motor := ret tt
}.

Definition sim_emu (device : Z) (is_mounted : bool) (files : list (list Z * list Z))
    : emu_state sim_disc sim_fat :=
  mk_emu device false is_mounted false (mk_fdrv 0 [] [] [])
    (mk_sim_fat [] (str "sdc:") files None 0).

Lemma emu_dispatch_is_exclusive_witness :
  let w := sim_emu 2 true [(str "sdc:/a", [1; 2; 3])] in
  let cs := [COpen (str "/a") 0 0; CRead [0; 0] 2 1 1; CStatus (replicate 32 0); CClose 1] in
  exists w', run_calls true cs w = Some (tt, w') /\ rtc (fat_step fat_call) (fat_side w) (fat_side w')
    /\ same_probe w w'.
Proof.
  intros w cs. destruct (run_calls true cs w) as [[[] w']|] eqn:E; [|vm_compute in E; discriminate].
  exists w'. split; [reflexivity|].
  destruct (emu_dispatch_is_exclusive true w cs w') as (_ & _ & Hr);
    [reflexivity|split; vm_compute; congruence|exact E|exact Hr].
Defined.

Lemma emu_mount_adopts_first_witness :
  exists w', flippy_emu_mount false MOUNT_DEPTH (sim_emu (-1) false []) = Some (true, w')
    /\ exists k w1 w2, tried k (sim_emu (-1) false []) w1 /\ w' = set_device k w2.
Proof.
  destruct (flippy_emu_mount false MOUNT_DEPTH (sim_emu (-1) false [])) as [[[] w']|] eqn:E;
    [|vm_compute in E; discriminate..].
  exists w'. split; [reflexivity|].
  destruct (emu_mount_adopts_first (sim_emu (-1) false []) true w' eq_refl E) as (k & w1 & w2 & _ & Ht & _ & Ew & _).
  exists k, w1, w2. split; [exact Ht|exact Ew].
Defined.

Lemma emu_ipl_mount_only_chosen_witness :
  let w := sim_emu 2 false [] in
  exists w', flippy_emu_mount true 5 w = Some (true, w')
    /\ rtc (fat_step (volume_call (str "sdc"))) (fat_side w) (fat_side w') /\ sf_log (emu_fat w') = [str "sdc:"].
Proof.
  intros w. destruct (flippy_emu_mount true 5 w) as [[[] w']|] eqn:E; [|vm_compute in E; discriminate..].
  exists w'. split; [reflexivity|].
  destruct (emu_ipl_mount_only_chosen w (str "sdc") 3 true w' eq_refl E) as (_ & Hr & _).
  split; [exact (proj1 Hr)|]. vm_compute in E. injection E as <-. reflexivity.
Defined.

Lemma emu_open_on_volume_witness :
  exists dev, emu_get_device (sim_emu 2 true []) = Some dev
    /\ dvd_custom_open (mount true) (str "/a") FILE_ENTRY_TYPE_FILE 8 (sim_emu 2 true [])
       = on_fat (fat_open 0x13 (path_of dev (str "/a"))) (sim_emu 2 true []).
Proof.
  destruct (emu_open_on_volume true (sim_emu 2 true []) (str "/a") 8) as (dev & Ed & Eo & _);
    [reflexivity|split; vm_compute; congruence|cstr_lit|vm_compute; lia|].
  exists dev. split; [exact Ed|exact Eo].
Defined.

Lemma emu_read_delivers_witness :
  let w := set_fat (mk_sim_fat [] [] [] (Some [5; 6; 7; 8]) 0) (sim_emu 2 true []) in
  exists dst' w', dvd_read [0; 0; 0] 2 1 1 w = Some (0, dst', w') /\ dst' = [6; 7; 0].
Proof.
  intros w. destruct (dvd_read [0; 0; 0] 2 1 1 w) as [[[e dst'] w']|] eqn:E;
    [|vm_compute in E; discriminate].
  assert (e = 0) as -> by (vm_compute in E; congruence).
  exists dst', w'. split; [reflexivity|].
  exact (emu_read_delivers true w [0; 0; 0] 2 1 1 dst' w' eq_refl ltac:(lia)
           (fun H => match diff_false_true H with end) (or_introl E)).
Defined.
