(* ===== verification/Arq.v ===== *)
(** The ARAM request queue, [decomp_arq.c]: two FIFO queues linked through the
    request blocks, one DMA at a time, high priority in one piece and low
    priority in chunks that high priority may come between.

    A request block is known by its address; [None] is the null pointer.  The
    DMA engine is a log of the transfers started and the callbacks made, and a
    busy flag that its interrupt clears. *)

From S2P Require Import Prelude.

Definition ARQ_TYPE_MRAM_TO_ARAM : Z := 0x00.
Definition ARQ_TYPE_ARAM_TO_MRAM : Z := 0x01.
Definition ARQ_PRIORITY_LOW : Z := 0.
Definition ARQ_PRIORITY_HIGH : Z := 1.
Definition ARQ_CHUNK_SIZE_DEFAULT : Z := 4096.

(** The address of [__ARQCallbackHack], the callback of requests without one. *)
Definition ARQCallbackHack : Z := 0x81700000.

Record ARQRequest := mk_task {
  next : option Z;
  owner : Z;
  type : Z;
  source : Z;
  dest : Z;
  length : Z;
  callback : Z
}.

(** [EvDma task clash type mram aram length]: a transfer was started for a
    request, while another was under way if [clash]; [EvCall task fn]: a
    callback was called. *)
Inductive event :=
  | EvDma (task : Z) (clash : bool) (type mram aram length : Z)
  | EvCall (task fn : Z).

(** The module's statics, the request blocks, and the DMA engine. *)
Record arq := mk_arq {
  tasks : Z -> ARQRequest;
  queue_hi : option Z;
  tail_hi : option Z;
  queue_lo : option Z;
  tail_lo : option Z;
  pending_hi : option Z;
  pending_lo : option Z;
  callback_hi : option Z;
  callback_lo : option Z;
  chunk_size : Z;
  init_flag : bool;
  dma_busy : bool;
  log : list event
}.

Definition set_task (k : Z) (t : ARQRequest) (f : Z -> ARQRequest) : Z -> ARQRequest :=
  fun j => if j =? k then t else f j.
Definition set_next (n : option Z) (t : ARQRequest) : ARQRequest :=
  mk_task n (owner t) (type t) (source t) (dest t) (length t) (callback t).
Definition advance (c : Z) (t : ARQRequest) : ARQRequest :=
  mk_task (next t) (owner t) (type t) (source t +32 c) (dest t +32 c) (length t -32 c) (callback t).

Definition upd_tasks f w := mk_arq f (queue_hi w) (tail_hi w) (queue_lo w) (tail_lo w)
  (pending_hi w) (pending_lo w) (callback_hi w) (callback_lo w) (chunk_size w) (init_flag w)
  (dma_busy w) (log w).
Definition upd_hi q t w := mk_arq (tasks w) q t (queue_lo w) (tail_lo w)
  (pending_hi w) (pending_lo w) (callback_hi w) (callback_lo w) (chunk_size w) (init_flag w)
  (dma_busy w) (log w).
Definition upd_lo q t w := mk_arq (tasks w) (queue_hi w) (tail_hi w) q t
  (pending_hi w) (pending_lo w) (callback_hi w) (callback_lo w) (chunk_size w) (init_flag w)
  (dma_busy w) (log w).
Definition upd_pending_hi p c w := mk_arq (tasks w) (queue_hi w) (tail_hi w) (queue_lo w) (tail_lo w)
  p (pending_lo w) c (callback_lo w) (chunk_size w) (init_flag w) (dma_busy w) (log w).
Definition upd_pending_lo p c w := mk_arq (tasks w) (queue_hi w) (tail_hi w) (queue_lo w) (tail_lo w)
  (pending_hi w) p (callback_hi w) c (chunk_size w) (init_flag w) (dma_busy w) (log w).
Definition upd_dma busy ev w := mk_arq (tasks w) (queue_hi w) (tail_hi w) (queue_lo w) (tail_lo w)
  (pending_hi w) (pending_lo w) (callback_hi w) (callback_lo w) (chunk_size w) (init_flag w)
  busy (log w ++ ev).

(** [ARStartDMA] as the queue sees it; [k] says in the log whose transfer it is. *)
Definition ARStartDMA (k type mram aram len : Z) (w : arq) : arq :=
  upd_dma true [EvDma k (dma_busy w) type mram aram len] w.

(** The transfer of [len] bytes of request [k], at its current position. *)
Definition start_task (k len : Z) (w : arq) : arq :=
  let t := tasks w k in
  if type t =? ARQ_TYPE_MRAM_TO_ARAM then ARStartDMA k (type t) (source t) (dest t) len w
  else ARStartDMA k (type t) (dest t) (source t) len w.

Definition ARQPopTaskQueueHi (w : arq) : arq :=
  match queue_hi w with
  | Some k =>
      let t := tasks w k in
      let w := start_task k (length t) w in
      let w := upd_pending_hi (Some k) (Some (callback t)) w in
      upd_hi (next t) (tail_hi w) w
  | None => w
  end.

(** Taking the next low-priority request, when none is under way. *)
Definition take_lo (w : arq) : arq :=
  match pending_lo w, queue_lo w with
  | None, Some k =>
      upd_lo (next (tasks w k)) (tail_lo w) (upd_pending_lo (Some k) (callback_lo w) w)
  | _, _ => w
  end.

Definition ARQServiceQueueLo (w : arq) : arq :=
  let w := take_lo w in
  match pending_lo w with
  | Some k =>
      let t := tasks w k in
      let w := if length t <=? chunk_size w
               then upd_pending_lo (pending_lo w) (Some (callback t)) (start_task k (length t) w)
               else start_task k (chunk_size w) w in
      upd_tasks (set_task k (advance (chunk_size w) (tasks w k)) (tasks w)) w
  | None => w
  end.

Definition ARQInit (w : arq) : arq :=
  if init_flag w then w
  else mk_arq (tasks w) None (tail_hi w) None (tail_lo w) None None None None
         ARQ_CHUNK_SIZE_DEFAULT true (dma_busy w) (log w).

(** The arguments of a post; [0] is the null callback. *)
Record post := mk_post {
  p_task : Z; p_owner : Z; p_type : Z; p_priority : Z;
  p_source : Z; p_dest : Z; p_length : Z; p_callback : Z
}.

Definition post_task (p : post) : ARQRequest :=
  mk_task None (p_owner p) (p_type p) (p_source p) (p_dest p) (p_length p)
    (if p_callback p =? 0 then ARQCallbackHack else p_callback p).

(** Appending to a queue: its head, through the tail's [next] if there is one. *)
Definition enqueue (k : Z) (q tail : option Z) (f : Z -> ARQRequest) : (Z -> ARQRequest) * option Z :=
  match q with
  | Some _ =>
      (match tail with Some j => set_task j (set_next (Some k) (f j)) f | None => f end, q)
  | None => (f, Some k)
  end.

Definition enqueue_post (p : post) (w : arq) : arq :=
  let k := p_task p in
  if p_priority p =? ARQ_PRIORITY_LOW then
    let '(f, q) := enqueue k (queue_lo w) (tail_lo w) (tasks w) in
    upd_lo q (Some k) (upd_tasks f w)
  else if p_priority p =? ARQ_PRIORITY_HIGH then
    let '(f, q) := enqueue k (queue_hi w) (tail_hi w) (tasks w) in
    upd_hi q (Some k) (upd_tasks f w)
  else w.

Definition decomp_ARQPostRequest (p : post) (w : arq) : arq :=
  let w := upd_tasks (set_task (p_task p) (post_task p) (tasks w)) w in
  let w := enqueue_post p w in
  match pending_hi w, pending_lo w with
  | None, None =>
      let w := ARQPopTaskQueueHi w in
      match pending_hi w with None => ARQServiceQueueLo w | Some _ => w end
  | _, _ => w
  end.

(** A callback is called with its request; [during] are the requests it posts. *)
Definition call_back (fn : Z) (k : option Z) (during : list post) (w : arq) : arq :=
  let w := upd_dma (dma_busy w) [EvCall (default 0 k) fn] w in
  foldl (fun w p => decomp_ARQPostRequest p w) w during.

Definition ARQInterruptServiceRoutine (during : list post) (w : arq) : arq :=
  let w :=
    match callback_hi w, callback_lo w with
    | Some fn, _ => upd_pending_hi None None (call_back fn (pending_hi w) during w)
    | None, Some fn => upd_pending_lo None None (call_back fn (pending_lo w) during w)
    | None, None => w
    end in
  let w := ARQPopTaskQueueHi w in
  match pending_hi w with None => ARQServiceQueueLo w | Some _ => w end.

(** The interrupt: the engine is idle again when the handler runs. *)
Definition dma_interrupt (during : list post) (w : arq) : arq :=
  ARQInterruptServiceRoutine during (upd_dma false [] w).
