(* ===== verification/ArqThms.v ===== *)
(** The ARAM request queue keeps its promise: every request is transferred
    completely, in order and exactly once, then its callback is called; within a
    priority requests are served in the order they were posted; the engine is
    never given a transfer while one is under way; and the queue drains. *)

From S2P Require Import Prelude Arq.

(** ** The schedule a queue is meant to follow *)

Definition prio_hi (p : post) : bool := p_priority p =? ARQ_PRIORITY_HIGH.
Definition prio_lo (p : post) : bool := p_priority p =? ARQ_PRIORITY_LOW.

(** One transfer of a request: [len] bytes, [off] into it. *)
Definition dma_at (p : post) (off len : Z) : event :=
  let s := u32 (p_source p + off) in
  let d := u32 (p_dest p + off) in
  if p_type p =? ARQ_TYPE_MRAM_TO_ARAM then EvDma (p_task p) false (p_type p) s d len
  else EvDma (p_task p) false (p_type p) d s len.

Definition nchunks (p : post) : nat :=
  if p_length p <=? 4096 then 1 else Z.to_nat ((p_length p + 4095) / 4096).
Definition chunk (p : post) (i : nat) : event :=
  dma_at p (Z.of_nat i * 4096) (Z.min 4096 (p_length p - Z.of_nat i * 4096)).

(** All transfers of a request, in order. *)
Definition transfers (p : post) : list event :=
  if prio_hi p then [dma_at p 0 (p_length p)] else chunk p <$> seq 0 (nchunks p).

(** The callback of a request, and everything that is seen of a finished one. *)
Definition p_fn (p : post) : Z := callback (post_task p).
Definition finished (p : post) : list event := transfers p ++ [EvCall (p_task p) (p_fn p)].

Definition ev_task (e : event) : Z :=
  match e with EvDma k _ _ _ _ _ => k | EvCall k _ => k end.
Definition of_task (k : Z) (l : list event) : list event := filter (fun e => ev_task e = k) l.

Definition is_call (e : event) : Prop := match e with EvCall _ _ => True | _ => False end.
#[global] Instance is_call_dec e : Decision (is_call e).
Proof. destruct e; apply _. Defined.
Definition clashes (e : event) : bool := match e with EvDma _ c _ _ _ _ => c | _ => false end.
Definition call_of (p : post) : event := EvCall (p_task p) (p_fn p).

(** What is waiting, what is under way (for low priority with the number of its
    chunks already started), what is done, and what was posted. *)
Record sched := mk_sched {
  s_qh : list post;
  s_ql : list post;
  s_ph : option post;
  s_pl : option (post * nat);
  s_done : list post;
  s_posted : list post
}.

Definition opt_list {A} (o : option A) : list A := match o with Some a => [a] | None => [] end.
Definition s_active (s : sched) : list post :=
  opt_list (s_ph s) ++ opt_list (fst <$> s_pl s) ++ s_qh s ++ s_ql s.

(** The transfers of the requests under way that have been started. *)
Definition progress (s : sched) (k : Z) : list event :=
  match s_ph s with
  | Some p => if decide (p_task p = k) then transfers p else []
  | None => []
  end ++
  match s_pl s with
  | Some (p, n) => if decide (p_task p = k) then take n (transfers p) else []
  | None => []
  end.

Definition done_of (k : Z) (ps : list post) : list event :=
  concat (finished <$> filter (fun p => p_task p = k) ps).

#[local] Arguments of_task : simpl never.
#[local] Arguments dma_at : simpl never.
#[local] Arguments chunk : simpl never.
#[local] Arguments transfers : simpl never.
#[local] Arguments progress : simpl never.
#[local] Arguments done_of : simpl never.
#[local] Arguments s_active : simpl never.

(** ** The queues in memory *)

(** The requests of [l] are linked in this order, [e] after the last. *)
Fixpoint chain (f : Z -> ARQRequest) (l : list post) (e : option Z) : Prop :=
  match l with
  | [] => True
  | p :: l' =>
      next (f (p_task p)) = match l' with [] => e | q :: _ => Some (p_task q) end /\ chain f l' e
  end.

(** A block that holds a posted request, at offset [off] of its transfer. *)
Definition holds (f : Z -> ARQRequest) (off : Z) (p : post) : Prop :=
  let t := f (p_task p) in
  type t = p_type p /\ source t = u32 (p_source p + off) /\ dest t = u32 (p_dest p + off)
  /\ length t = p_length p - off /\ callback t = p_fn p.

Definition queue_ok (f : Z -> ARQRequest) (l : list post) (q tail : option Z) : Prop :=
  chain f l None /\ Forall (holds f 0) l /\ q = (p_task <$> head l)
  /\ (l <> [] -> tail = (p_task <$> last l)).

Definition well_posted (p : post) : Prop :=
  0 <= p_source p < 2 ^ 32 /\ 0 <= p_dest p < 2 ^ 32 /\ 0 <= p_length p < 2 ^ 32
  /\ (prio_hi p = true \/ prio_lo p = true).

Record repr (w : arq) (s : sched) : Prop := {
  r_chunk : chunk_size w = 4096;
  r_qh : queue_ok (tasks w) (s_qh s) (queue_hi w) (tail_hi w);
  r_ql : queue_ok (tasks w) (s_ql s) (queue_lo w) (tail_lo w);
  r_ph : pending_hi w = (p_task <$> s_ph s) /\ callback_hi w = (p_fn <$> s_ph s);
  r_pl : match s_pl s with
         | None => pending_lo w = None /\ callback_lo w = None
         | Some (p, n) =>
             pending_lo w = Some (p_task p) /\ prio_hi p = false /\ (n <= nchunks p)%nat
             /\ if decide (n = nchunks p) then callback_lo w = Some (p_fn p)
                else callback_lo w = None /\ holds (tasks w) (Z.of_nat n * 4096) p
         end;
  r_nodup : NoDup (p_task <$> s_active s);
  r_posts : Forall well_posted (s_posted s);
  r_prio : Forall (fun p => prio_hi p = true) (s_qh s) /\ Forall (fun p => prio_hi p = false) (s_ql s);
  r_ph_prio : forall p, s_ph s = Some p -> prio_hi p = true;
  r_hi : filter (fun p => prio_hi p = true) (s_posted s)
         = filter (fun p => prio_hi p = true) (s_done s) ++ opt_list (s_ph s) ++ s_qh s;
  r_lo : filter (fun p => prio_hi p = false) (s_posted s)
         = filter (fun p => prio_hi p = false) (s_done s) ++ opt_list (fst <$> s_pl s) ++ s_ql s;
  r_task : forall k, exists l,
    filter (fun p => p_task p = k) (s_posted s) = filter (fun p => p_task p = k) (s_done s) ++ l
    /\ l ≡ₚ filter (fun p => p_task p = k) (s_active s);
  r_calls : filter is_call (log w) = call_of <$> s_done s;
  r_clash : Forall (fun e => clashes e = false) (log w);
  r_log : forall k, of_task k (log w) = done_of k (s_done s) ++ progress s k
}.

(** ** Chunks *)

Lemma u32_add x y : u32 (u32 x + y) = u32 (x + y).
Proof. unfold u32. apply Zplus_mod_idemp_l. Qed.

Lemma nchunks_pos p : (0 < nchunks p)%nat.
Proof.
  unfold nchunks. destruct (Z.leb_spec (p_length p) 4096); [lia|].
  assert (1 <= (p_length p + 4095) / 4096) by (apply Z.div_le_lower_bound; lia). lia.
Qed.

(** A chunk is the last one exactly when what is left fits. *)
Lemma nchunks_last p n :
  0 <= p_length p -> (n < nchunks p)%nat ->
  (p_length p - Z.of_nat n * 4096 <=? 4096) = bool_decide (S n = nchunks p).
Proof.
  unfold nchunks. intros Hl. destruct (Z.leb_spec (p_length p) 4096); intros Hn.
  - assert (n = 0%nat) as -> by lia. rewrite bool_decide_true by done. apply Z.leb_le. lia.
  - case_bool_decide; [apply Z.leb_le|apply Z.leb_gt]; zdm.
Qed.

Lemma transfers_lo p :
  prio_hi p = false -> transfers p = chunk p <$> seq 0 (nchunks p).
Proof. unfold transfers. by intros ->. Qed.

Lemma transfers_take p n :
  prio_hi p = false -> (n < nchunks p)%nat ->
  take (S n) (transfers p) = take n (transfers p) ++ [chunk p n].
Proof.
  intros Hp Hn. rewrite transfers_lo by done. apply take_S_r.
  rewrite list_lookup_fmap, lookup_seq_lt by done. done.
Qed.

Lemma transfers_all p n :
  prio_hi p = false -> n = nchunks p -> take n (transfers p) = transfers p.
Proof.
  intros Hp ->. apply take_ge. rewrite transfers_lo by done.
  by rewrite length_fmap, length_seq.
Qed.

(** ** Memory *)

Lemma set_task_eq k t f : set_task k t f k = t.
Proof. unfold set_task. by rewrite Z.eqb_refl. Qed.
Lemma set_task_ne k t f j : j <> k -> set_task k t f j = f j.
Proof. intros. unfold set_task. by destruct (Z.eqb_spec j k). Qed.

Lemma chain_ext f g l e :
  (forall p, p ∈ l -> next (g (p_task p)) = next (f (p_task p))) -> chain f l e -> chain g l e.
Proof.
  induction l as [|p l IH]; intros Hx; cbn; [done|]. intros [Hn Hc].
  rewrite Hx by (by left). split; [done|]. apply IH; [|done]. intros q Hq. apply Hx. by right.
Qed.

Lemma chain_snoc f l p e :
  chain f l (Some (p_task p)) -> next (f (p_task p)) = e -> chain f (l ++ [p]) e.
Proof.
  induction l as [|q l IH]; cbn; [done|]. intros [Hn Hc] He. split; [|auto].
  by destruct l.
Qed.

(** Linking something after the last request. *)
Lemma chain_relink f l j e e' :
  NoDup (p_task <$> l ++ [j]) -> chain f (l ++ [j]) e ->
  chain (set_task (p_task j) (set_next e' (f (p_task j))) f) (l ++ [j]) e'.
Proof.
  induction l as [|q l IH]; cbn [app fmap list_fmap chain].
  - intros _ [_ _]. by rewrite set_task_eq.
  - intros [Hq Hnd]%NoDup_cons [Hn Hc]. split; [|by apply IH].
    rewrite set_task_ne; [by destruct l|]. intros E. apply Hq. rewrite E, fmap_app.
    apply elem_of_app. right. by left.
Qed.

(** A link is not part of what a block holds. *)
Lemma holds_link f j n off p : holds (set_task j (set_next n (f j)) f) off p <-> holds f off p.
Proof. unfold holds, set_task. by destruct (Z.eqb_spec (p_task p) j) as [->|]. Qed.

Lemma queue_frame f g l q t :
  (forall p, p ∈ l -> g (p_task p) = f (p_task p)) -> queue_ok f l q t -> queue_ok g l q t.
Proof.
  intros E (Hc & Hh & Hq & Ht). split; [|split; [|done]].
  - eapply chain_ext; [|exact Hc]. intros p Hp. by rewrite E.
  - rewrite Forall_forall in *. intros p Hp. unfold holds. rewrite E by done. by apply Hh.
Qed.

(** Appending a request: only the last block's link changes. *)
Lemma enqueue_spec f l q t p g q' :
  enqueue (p_task p) q t f = (g, q') ->
  queue_ok f l q t -> NoDup (p_task <$> l ++ [p]) -> holds f 0 p -> next (f (p_task p)) = None ->
  queue_ok g (l ++ [p]) q' (Some (p_task p))
  /\ forall k, k ∉ (p_task <$> l) -> g k = f k.
Proof.
  intros E (Hc & Hh & Hq & Ht) Hnd Hp Hn.
  destruct l as [|j l _] using rev_ind.
  { cbn in Hq. subst q. cbn in E. injection E as <- <-. split; [|done].
    split; [done|]. split; [by constructor|]. done. }
  rewrite Ht, last_snoc in E by (by destruct l). cbn [fmap option_fmap option_map] in E.
  destruct q as [k0|]; [|by destruct l; discriminate Hq]. cbn in E. injection E as <- <-.
  rewrite fmap_app in Hnd. apply NoDup_app in Hnd as (Hnd & Hdis & _).
  assert (Hpl : p_task p ∉ (p_task <$> l ++ [j])).
  { intros Hin. apply (Hdis _ Hin). by left. }
  assert (Hpj : p_task p <> p_task j).
  { intros E. apply Hpl. rewrite E, fmap_app. apply elem_of_app. right. by left. }
  split.
  - split; [|split; [|split]].
    + apply chain_snoc; [by eapply chain_relink|by rewrite set_task_ne].
    + apply Forall_app. split; [|constructor; [by apply holds_link|constructor]].
      eapply Forall_impl; [exact Hh|]. intros i. apply holds_link.
    + rewrite Hq. by destruct l.
    + intros _. by rewrite last_snoc.
  - intros k Hk. apply set_task_ne. intros ->. apply Hk. rewrite fmap_app.
    apply elem_of_app. right. by left.
Qed.

(** ** Posting *)

Definition enq (p : post) (w : arq) : arq :=
  enqueue_post p (upd_tasks (set_task (p_task p) (post_task p) (tasks w)) w).

Definition s_post (p : post) (s : sched) : sched :=
  if prio_hi p then mk_sched (s_qh s ++ [p]) (s_ql s) (s_ph s) (s_pl s) (s_done s) (s_posted s ++ [p])
  else mk_sched (s_qh s) (s_ql s ++ [p]) (s_ph s) (s_pl s) (s_done s) (s_posted s ++ [p]).

Lemma active_post p s : s_active (s_post p s) ≡ₚ p :: s_active s.
Proof. unfold s_active, s_post. destruct (prio_hi p); cbn; solve_Permutation. Qed.

Lemma in_active_qh s p : p ∈ s_qh s -> p ∈ s_active s.
Proof. unfold s_active. set_solver. Qed.
Lemma in_active_ql s p : p ∈ s_ql s -> p ∈ s_active s.
Proof. unfold s_active. set_solver. Qed.
Lemma in_active_pl s p n : s_pl s = Some (p, n) -> p ∈ s_active s.
Proof. unfold s_active. intros ->. set_solver. Qed.
Lemma in_active_ph s p : s_ph s = Some p -> p ∈ s_active s.
Proof. unfold s_active. intros ->. set_solver. Qed.

Lemma task_in s p : p ∈ s_active s -> p_task p ∈ (p_task <$> s_active s).
Proof. apply list_elem_of_fmap_2. Qed.

(** Two active requests with the same block are the same place of the schedule. *)
Lemma qh_ql_disjoint s p q :
  NoDup (p_task <$> s_active s) -> p ∈ s_qh s -> q ∈ s_ql s -> p_task p <> p_task q.
Proof.
  unfold s_active. rewrite !fmap_app, !NoDup_app. intros (_ & _ & _ & _ & _ & Hd & _) Hp Hq E.
  apply (Hd (p_task p)); [by apply list_elem_of_fmap_2|]. rewrite E. by apply list_elem_of_fmap_2.
Qed.
Lemma pl_queues_disjoint s p n q :
  NoDup (p_task <$> s_active s) -> s_pl s = Some (p, n) -> q ∈ s_qh s ++ s_ql s ->
  p_task p <> p_task q.
Proof.
  unfold s_active. rewrite !fmap_app. intros Hnd E Hq. rewrite E in Hnd.
  apply NoDup_app in Hnd as (_ & _ & Hnd). apply NoDup_app in Hnd as (_ & Hd & _).
  intros Et. apply (Hd (p_task p)); [cbn; by left|]. rewrite Et, <- fmap_app.
  by apply list_elem_of_fmap_2.
Qed.
Lemma ph_pl_disjoint s p q n :
  NoDup (p_task <$> s_active s) -> s_ph s = Some p -> s_pl s = Some (q, n) -> p_task p <> p_task q.
Proof.
  unfold s_active. intros Hnd E1 E2. rewrite E1, E2 in Hnd. cbn in Hnd.
  apply NoDup_cons in Hnd as [Hp _]. intros E. apply Hp. rewrite E. by left.
Qed.

(** What of the memory the schedule is about. *)
Definition mem_ok (f : Z -> ARQRequest) (s : sched) (qh th ql tl : option Z) : Prop :=
  queue_ok f (s_qh s) qh th /\ queue_ok f (s_ql s) ql tl
  /\ match s_pl s with
     | Some (p, n) => n <> nchunks p -> holds f (Z.of_nat n * 4096) p
     | None => True
     end.

Lemma mem_frame f g s qh th ql tl :
  (forall k, k ∈ (p_task <$> s_active s) -> g k = f k) ->
  mem_ok f s qh th ql tl -> mem_ok g s qh th ql tl.
Proof.
  intros E (Hh & Hl & Hp). split; [|split].
  - eapply queue_frame; [|exact Hh]. intros p Hi. by apply E, task_in, in_active_qh.
  - eapply queue_frame; [|exact Hl]. intros p Hi. by apply E, task_in, in_active_ql.
  - destruct (s_pl s) as [[p n]|] eqn:Ep; [|done]. intros Hn. unfold holds.
    rewrite (E (p_task p)) by (by eapply task_in, in_active_pl). by apply Hp.
Qed.

Lemma repr_mem w s : repr w s -> mem_ok (tasks w) s (queue_hi w) (tail_hi w) (queue_lo w) (tail_lo w).
Proof.
  intros R. split; [apply R|]. split; [apply R|]. pose proof (r_pl _ _ R) as Hp.
  destruct (s_pl s) as [[p n]|]; [|done]. destruct Hp as (_ & _ & _ & Hc). case_decide; [done|].
  intros _. apply Hc.
Qed.

Lemma post_holds p f : well_posted p -> f (p_task p) = post_task p -> holds f 0 p.
Proof.
  intros (Hs & Hd & Hl & _) E. unfold holds. rewrite E. cbn.
  rewrite !Z.add_0_r, Z.sub_0_r, !u32_small by done. done.
Qed.

(** Appending at one end of the memory part. *)
Lemma enq_mem p w s :
  mem_ok (tasks w) s (queue_hi w) (tail_hi w) (queue_lo w) (tail_lo w) ->
  NoDup (p_task <$> s_active s) -> well_posted p -> p_task p ∉ (p_task <$> s_active s) ->
  mem_ok (tasks (enq p w)) (s_post p s) (queue_hi (enq p w)) (tail_hi (enq p w))
    (queue_lo (enq p w)) (tail_lo (enq p w)).
Proof.
  intros Hm Hnd Hw Hfree. set (f := set_task (p_task p) (post_task p) (tasks w)).
  assert (Hm' : mem_ok f s (queue_hi w) (tail_hi w) (queue_lo w) (tail_lo w)).
  { eapply mem_frame; [|exact Hm]. intros k Hk. apply set_task_ne. intros ->. done. }
  assert (Hp : holds f 0 p) by (apply post_holds; [done|apply set_task_eq]).
  assert (Hn : next (f (p_task p)) = None) by (unfold f; by rewrite set_task_eq).
  destruct Hm' as (Hh & Hl & Hpl).
  assert (Hndh : NoDup (p_task <$> s_qh s ++ [p]) /\ NoDup (p_task <$> s_ql s ++ [p])).
  { unfold s_active in Hnd, Hfree. rewrite !fmap_app in *.
    apply NoDup_app in Hnd as (_ & _ & Hnd). apply NoDup_app in Hnd as (_ & _ & Hnd).
    apply NoDup_app in Hnd as (H1 & _ & H2).
    split; apply NoDup_app; (split; [done|]); (split; [|apply NoDup_singleton]);
      intros x Hx Hx'; apply list_elem_of_singleton in Hx' as ->; set_solver. }
  destruct Hndh as [Hnh Hnl].
  unfold enq, enqueue_post, s_post. cbn [tasks upd_tasks queue_hi queue_lo tail_hi tail_lo].
  destruct Hw as (_ & _ & _ & Hpr). unfold prio_hi, prio_lo in *. fold f.
  destruct (Z.eqb_spec (p_priority p) ARQ_PRIORITY_LOW) as [El|El].
  - rewrite El. change (ARQ_PRIORITY_LOW =? ARQ_PRIORITY_HIGH) with false. cbv iota.
    destruct (enqueue _ _ _ f) as [g q'] eqn:E.
    destruct (enqueue_spec _ _ _ _ _ _ _ E Hl Hnl Hp Hn) as [Hq Hg].
    cbn [tasks upd_tasks queue_hi queue_lo tail_hi tail_lo upd_lo s_qh s_ql s_pl].
    split; [|split; [exact Hq|]].
    + eapply queue_frame; [|exact Hh]. intros r Hr. apply Hg. intros Hin.
      apply list_elem_of_fmap in Hin as (r' & Er & Hr').
      by apply (qh_ql_disjoint s r r' Hnd Hr Hr').
    + destruct (s_pl s) as [[r n]|] eqn:Ep; [|done]. intros Hne. unfold holds.
      cbn [s_pl]. rewrite Hg; [by apply Hpl|]. intros Hin. apply list_elem_of_fmap in Hin as (r' & Er & Hr').
      apply (pl_queues_disjoint s r n r' Hnd Ep); [set_solver|done].
  - destruct Hpr as [Hpr|Hpr]; [|discriminate]. rewrite Hpr.
    destruct (enqueue _ _ _ f) as [g q'] eqn:E.
    destruct (enqueue_spec _ _ _ _ _ _ _ E Hh Hnh Hp Hn) as [Hq Hg].
    cbn [tasks upd_tasks queue_hi queue_lo tail_hi tail_lo upd_hi s_qh s_ql s_pl].
    split; [exact Hq|split].
    + eapply queue_frame; [|exact Hl]. intros r Hr. apply Hg. intros Hin.
      apply list_elem_of_fmap in Hin as (r' & Er & Hr').
      by apply (qh_ql_disjoint s r' r Hnd Hr' Hr).
    + destruct (s_pl s) as [[r n]|] eqn:Ep; [|done]. intros Hne. unfold holds.
      cbn [s_pl]. rewrite Hg; [by apply Hpl|]. intros Hin. apply list_elem_of_fmap in Hin as (r' & Er & Hr').
      apply (pl_queues_disjoint s r n r' Hnd Ep); [set_solver|done].
Qed.

(** Everything but the queues is left alone. *)
Lemma enq_frame p w :
  let w' := enq p w in
  pending_hi w' = pending_hi w /\ pending_lo w' = pending_lo w
  /\ callback_hi w' = callback_hi w /\ callback_lo w' = callback_lo w
  /\ chunk_size w' = chunk_size w /\ dma_busy w' = dma_busy w /\ log w' = log w.
Proof.
  unfold enq, enqueue_post. destruct (_ =? _); [by destruct (enqueue _ _ _ _)|].
  destruct (_ =? _); [by destruct (enqueue _ _ _ _)|]. done.
Qed.

Lemma enq_repr p w s :
  repr w s -> well_posted p -> p_task p ∉ (p_task <$> s_active s) -> repr (enq p w) (s_post p s).
Proof.
  intros R Hw Hfree.
  pose proof (enq_mem p w s (repr_mem _ _ R) (r_nodup _ _ R) Hw Hfree) as (Hqh & Hql & Hpm).
  destruct (enq_frame p w) as (E1 & E2 & E3 & E4 & E5 & E6 & E7). cbv zeta in *.
  destruct R. constructor.
  - congruence.
  - done.
  - done.
  - rewrite E1, E3. unfold s_post. by destruct (prio_hi p).
  - rewrite E2, E4. assert (Es : s_pl (s_post p s) = s_pl s) by (unfold s_post; by destruct (prio_hi p)).
    rewrite Es in *. destruct (s_pl s) as [[q n]|]; [|done].
    destruct r_pl0 as (? & ? & ? & Hd). split_all. case_decide; [done|]. destruct Hd. split; [done|]. by apply Hpm.
  - rewrite active_post. cbn. apply NoDup_cons. done.
  - unfold s_post. destruct (prio_hi p); cbn; apply Forall_app; split; auto.
  - destruct r_prio0. unfold s_post. destruct (prio_hi p) eqn:E; cbn; rewrite Forall_app; auto.
  - unfold s_post. by destruct (prio_hi p).
  - unfold s_post. destruct (prio_hi p) eqn:E; cbn; rewrite filter_app, r_hi0.
    + rewrite filter_cons_True by done. cbn. by rewrite <- !app_assoc.
    + rewrite filter_cons_False by (by rewrite E). cbn. by rewrite app_nil_r.
  - unfold s_post. destruct (prio_hi p) eqn:E; cbn; rewrite filter_app, r_lo0.
    + rewrite filter_cons_False by (by rewrite E). cbn. by rewrite app_nil_r.
    + rewrite filter_cons_True by done. cbn. by rewrite <- !app_assoc.
  - intros k. destruct (r_task0 k) as (l & El & Hl).
    assert (Es : s_done (s_post p s) = s_done s /\ s_posted (s_post p s) = s_posted s ++ [p])
      by (unfold s_post; by destruct (prio_hi p)).
    destruct Es as [-> ->]. rewrite filter_app, El. eexists. split; [by rewrite <- app_assoc|].
    rewrite active_post, Hl. rewrite (filter_app _ [p] (s_active s)) at 1. apply Permutation_app_comm.
  - rewrite E7, r_calls0. unfold s_post. by destruct (prio_hi p).
  - by rewrite E7.
  - intros k. rewrite E7, r_log0. unfold s_post, progress. by destruct (prio_hi p).
Qed.

(** ** Starting transfers *)

Lemma task_perm w s l :
  repr w s -> l ≡ₚ s_active s -> forall k, exists l',
    filter (fun p => p_task p = k) (s_posted s) = filter (fun p => p_task p = k) (s_done s) ++ l'
    /\ l' ≡ₚ filter (fun p => p_task p = k) l.
Proof.
  intros R El k. destruct (r_task _ _ R k) as (l' & E & Hl). exists l'. split; [done|]. by rewrite El.
Qed.

Lemma of_task_app k l1 l2 : of_task k (l1 ++ l2) = of_task k l1 ++ of_task k l2.
Proof. apply filter_app. Qed.

Lemma ev_task_dma p off len : ev_task (dma_at p off len) = p_task p.
Proof. unfold dma_at. by destruct (_ =? _). Qed.

(** A transfer of a request whose block stands at [off], on an idle engine. *)
Lemma start_task_spec w p off len :
  holds (tasks w) off p -> dma_busy w = false ->
  start_task (p_task p) len w = upd_dma true [dma_at p off len] w.
Proof.
  intros (Ht & Hs & Hd & _) Hb. unfold start_task, ARStartDMA, dma_at. rewrite Ht, Hs, Hd, Hb.
  by destruct (_ =? _).
Qed.

Lemma done_of_snoc k ps p :
  done_of k (ps ++ [p]) = done_of k ps ++ if decide (p_task p = k) then finished p else [].
Proof.
  unfold done_of. rewrite filter_app, fmap_app, concat_app. f_equal.
  destruct (decide (p_task p = k)).
  - rewrite filter_cons_True by done. cbn. apply app_nil_r.
  - by rewrite filter_cons_False.
Qed.

Lemma of_task_one k p off len :
  of_task k [dma_at p off len] = if decide (p_task p = k) then [dma_at p off len] else [].
Proof.
  unfold of_task. destruct (decide (p_task p = k)).
  - rewrite filter_cons_True by (by rewrite ev_task_dma). done.
  - rewrite filter_cons_False by (by rewrite ev_task_dma). done.
Qed.

Lemma not_call_dma p off len l : filter is_call (l ++ [dma_at p off len]) = filter is_call l.
Proof.
  rewrite filter_app, filter_cons_False; [apply app_nil_r|]. unfold dma_at. destruct (_ =? _); intros [].
Qed.

Lemma no_clash_dma p off len l :
  Forall (fun e => clashes e = false) l -> Forall (fun e => clashes e = false) (l ++ [dma_at p off len]).
Proof.
  intros. apply Forall_app. split; [done|]. constructor; [|constructor].
  unfold dma_at. by destruct (_ =? _).
Qed.

Definition s_pop (s : sched) : sched :=
  match s_ph s, s_qh s with
  | None, p :: qh => mk_sched qh (s_ql s) (Some p) (s_pl s) (s_done s) (s_posted s)
  | _, _ => s
  end.

Lemma active_pop s : s_active (s_pop s) ≡ₚ s_active s.
Proof.
  unfold s_active, s_pop. destruct (s_ph s) eqn:E0; [by rewrite E0|].
  destruct (s_qh s) as [|p qh] eqn:E; [by rewrite E0, E|].
  cbn. solve_Permutation.
Qed.

Lemma pop_repr w s :
  repr w s -> s_ph s = None -> dma_busy w = false ->
  repr (ARQPopTaskQueueHi w) (s_pop s)
  /\ dma_busy (ARQPopTaskQueueHi w) = bool_decide (s_qh s <> [])
  /\ callback_lo (ARQPopTaskQueueHi w) = callback_lo w
  /\ pending_lo (ARQPopTaskQueueHi w) = pending_lo w.
Proof.
  intros R Hph Hb. pose proof (active_pop s) as Hact. unfold ARQPopTaskQueueHi, s_pop in *.
  rewrite Hph in *. destruct (r_qh _ _ R) as (Hc & Hh & Hq & Ht).
  destruct (s_qh s) as [|p qh] eqn:Eq; rewrite Hq; cbn; [by rewrite Hb|].
  apply Forall_cons in Hh as [Hhp Hh]. cbn in Hc. destruct Hc as [Hn Hc].
  assert (El : length (tasks w (p_task p)) = p_length p - 0) by apply Hhp. rewrite Z.sub_0_r in El.
  destruct (r_prio _ _ R) as [Hprh Hprl]. rewrite Eq in Hprh. apply Forall_cons in Hprh as [Hprp Hprh].
  assert (Hhi : transfers p = [dma_at p 0 (p_length p)]) by (unfold transfers; by rewrite Hprp).
  rewrite (start_task_spec _ _ 0) by done. rewrite El. split_all.
  pose proof (r_nodup _ _ R) as Hnd. rewrite <- Hact in Hnd.
  pose proof (task_perm _ _ _ R Hact) as Htask.
  destruct R. constructor; cbn; try done.
  - split; [done|]. split; [done|]. split; [by rewrite Hn; destruct qh|].
    intros Hne. rewrite Ht by done. destruct qh; done.
  - split; [done|]. f_equal. by destruct Hhp as (_ & _ & _ & _ & ->).
  - by intros q [= <-].
  - by rewrite r_hi0, Hph, Eq.
  - by rewrite not_call_dma.
  - by apply no_clash_dma.
  - intros k. rewrite of_task_app, r_log0, of_task_one. unfold progress. rewrite Hph. cbn.
    rewrite <- app_assoc. f_equal. rewrite Hhi. case_decide as Ek; [|by rewrite app_nil_r].
    destruct (s_pl s) as [[q n]|] eqn:Ep; [|done].
    rewrite decide_False; [done|]. subst k. 
    eapply (pl_queues_disjoint s q n p); [done|done|]. rewrite Eq. set_solver.
Qed.

Definition s_take (s : sched) : sched :=
  match s_pl s, s_ql s with
  | None, p :: ql => mk_sched (s_qh s) ql (s_ph s) (Some (p, 0%nat)) (s_done s) (s_posted s)
  | _, _ => s
  end.

Lemma active_take s : s_active (s_take s) ≡ₚ s_active s.
Proof.
  unfold s_active, s_take. destruct (s_pl s) as [[q n]|] eqn:E; [by rewrite E|].
  destruct (s_ql s) as [|p ql] eqn:E2; [by rewrite E, E2|]. cbn. solve_Permutation.
Qed.

Lemma take_repr w s : repr w s -> repr (take_lo w) (s_take s).
Proof.
  intros R. pose proof (active_take s) as Hact. unfold take_lo, s_take in *.
  pose proof (r_pl _ _ R) as Hp. destruct (r_ql _ _ R) as (Hc & Hh & Hq & Ht).
  destruct (s_pl s) as [[q n]|] eqn:Ep; [destruct Hp as [-> _]; done|]. destruct Hp as [-> Hcb].
  destruct (s_ql s) as [|p ql] eqn:Eq; rewrite Hq; cbn; [done|].
  apply Forall_cons in Hh as [Hhp Hh]. cbn in Hc. destruct Hc as [Hn Hc].
  destruct (r_prio _ _ R) as [Hprh Hprl]. rewrite Eq in Hprl. apply Forall_cons in Hprl as [Hprp Hprl].
  pose proof (r_nodup _ _ R) as Hnd. rewrite <- Hact in Hnd.
  pose proof (task_perm _ _ _ R Hact) as Htask.
  destruct R. constructor; cbn; try done.
  - split; [done|]. split; [done|]. split; [by rewrite Hn; destruct ql|].
    intros Hne. rewrite Ht by done. destruct ql; done.
  - pose proof (nchunks_pos p). split_all. rewrite decide_False by lia. done.
  - by rewrite r_lo0, Ep, Eq.
  - intros k. rewrite r_log0. unfold progress. cbn. rewrite Ep. do 2 f_equal.
    by case_decide; rewrite ?take_0.
Qed.

Definition s_advance (s : sched) : sched :=
  match s_pl s with
  | Some (p, n) => mk_sched (s_qh s) (s_ql s) (s_ph s) (Some (p, S n)) (s_done s) (s_posted s)
  | None => s
  end.

Lemma active_advance s : s_active (s_advance s) ≡ₚ s_active s.
Proof. unfold s_active, s_advance. destruct (s_pl s) as [[q n]|] eqn:E; cbn; by rewrite ?E. Qed.

Lemma posted_hi s w p : repr w s -> p ∈ s_active s -> well_posted p.
Proof.
  intros R Hp. pose proof (r_posts _ _ R) as Hw. rewrite Forall_forall in Hw. apply Hw.
  destruct (decide (prio_hi p = true)) as [E|E].
  - assert (Hin : p ∈ filter (fun p => prio_hi p = true) (s_posted s)).
    { rewrite (r_hi _ _ R). unfold s_active in Hp. rewrite !elem_of_app in *.
      destruct Hp as [?|[Hp|[?|Hp]]]; auto.
      - destruct (s_pl s) as [[q n]|] eqn:Ep; [|by apply elem_of_nil in Hp].
        apply list_elem_of_singleton in Hp as ->. pose proof (r_pl _ _ R) as Hq. rewrite Ep in Hq.
        destruct Hq as (_ & Hq & _). cbn in E. congruence.
      - destruct (r_prio _ _ R) as [_ Hl]. rewrite Forall_forall in Hl. by rewrite Hl in E. }
    by apply list_elem_of_filter in Hin as [_ ?].
  - apply not_true_is_false in E.
    assert (Hin : p ∈ filter (fun p => prio_hi p = false) (s_posted s)).
    { rewrite (r_lo _ _ R). unfold s_active in Hp. rewrite !elem_of_app in *.
      destruct Hp as [Hp|[Hp|[Hp|?]]]; auto.
      - destruct (s_ph s) as [q|] eqn:Ep; [|by apply elem_of_nil in Hp].
        apply list_elem_of_singleton in Hp as ->. pose proof (r_ph_prio _ _ R q Ep). congruence.
      - destruct (r_prio _ _ R) as [Hl _]. rewrite Forall_forall in Hl. by rewrite Hl in E. }
    by apply list_elem_of_filter in Hin as [_ ?].
Qed.

(** The next chunk of the request under way. *)
Definition service_chunk (w : arq) : arq :=
  match pending_lo w with
  | Some k =>
      let t := tasks w k in
      let w := if length t <=? chunk_size w
               then upd_pending_lo (pending_lo w) (Some (callback t)) (start_task k (length t) w)
               else start_task k (chunk_size w) w in
      upd_tasks (set_task k (advance (chunk_size w) (tasks w k)) (tasks w)) w
  | None => w
  end.

Lemma service_split w : ARQServiceQueueLo w = service_chunk (take_lo w).
Proof. done. Qed.

Lemma advance_holds f p n :
  well_posted p -> holds f (Z.of_nat n * 4096) p -> 4096 < p_length p - Z.of_nat n * 4096 ->
  holds (set_task (p_task p) (advance 4096 (f (p_task p))) f) (Z.of_nat (S n) * 4096) p.
Proof.
  intros (_ & _ & Hl & _) (Ht & Hs & Hd & Hlen & Hcb) Hgt. unfold holds. rewrite set_task_eq. cbn.
  rewrite Ht, Hs, Hd, Hlen, Hcb, !u32_add. split_all; try (f_equal; lia).
  rewrite u32_small by lia. lia.
Qed.

Lemma chunk_repr w s p n :
  repr w s -> s_ph s = None -> dma_busy w = false -> s_pl s = Some (p, n) -> n <> nchunks p ->
  repr (service_chunk w) (s_advance s) /\ dma_busy (service_chunk w) = true.
Proof.
  intros R Hph Hb Ep Hn. pose proof (active_advance s) as Hact. unfold s_advance in *. rewrite Ep in *.
  pose proof (posted_hi s w p R ltac:(by eapply in_active_pl)) as Hw.
  pose proof (r_pl _ _ R) as Hp. rewrite Ep in Hp. destruct Hp as (Hpk & Hprio & Hle & Hc).
  rewrite decide_False in Hc by done. destruct Hc as [Hcb Hhold].
  assert (Hlt : (n < nchunks p)%nat) by lia.
  destruct (Hhold) as (_ & _ & _ & Hlen & Hcall).
  unfold service_chunk. rewrite Hpk, Hlen, (r_chunk _ _ R).
  pose proof (nchunks_last p n ltac:(apply Hw) Hlt) as Hlast. rewrite Hlast.
  set (f := set_task _ _ _).
  assert (Hm : mem_ok (tasks w) s (queue_hi w) (tail_hi w) (queue_lo w) (tail_lo w)) by by apply repr_mem.
  assert (Hfr : forall q, q ∈ s_qh s ++ s_ql s ->
    set_task (p_task p) (advance 4096 (tasks w (p_task p))) (tasks w) (p_task q) = tasks w (p_task q)).
  { intros q Hq. apply set_task_ne. intros E. by eapply (pl_queues_disjoint s p n q); [apply R|..]. }
  assert (Hev : (if bool_decide (S n = nchunks p)
                 then upd_pending_lo (Some (p_task p)) (Some (callback (tasks w (p_task p))))
                        (start_task (p_task p) (p_length p - Z.of_nat n * 4096) w)
                 else start_task (p_task p) 4096 w)
    = upd_dma true [chunk p n]
        (if bool_decide (S n = nchunks p) then upd_pending_lo (Some (p_task p)) (Some (p_fn p)) w else w)).
  { unfold chunk. case_bool_decide; rewrite (start_task_spec _ _ (Z.of_nat n * 4096)) by done.
    - rewrite Hcall. apply Z.leb_le in Hlast. by rewrite Z.min_r by lia.
    - apply Z.leb_gt in Hlast. by rewrite Z.min_l by lia. }
  unfold f. clear f. cbv zeta. rewrite Hev. clear Hev.
  assert (Hlog : forall k, of_task k (log w ++ [chunk p n])
    = done_of k (s_done s) ++ progress (mk_sched (s_qh s) (s_ql s) (s_ph s) (Some (p, S n)) (s_done s) (s_posted s)) k).
  { intros k. rewrite of_task_app, (r_log _ _ R). unfold progress. cbn. rewrite Hph, Ep. cbn.
    rewrite <- app_assoc. f_equal. unfold chunk at 1. rewrite of_task_one.
    destruct (decide (p_task p = k)); [|done].
    by rewrite transfers_take. }
  destruct Hm as (Hqh & Hql & _).
  pose proof (r_nodup _ _ R) as Hnd. rewrite <- Hact in Hnd.
  pose proof (task_perm _ _ _ R Hact) as Htask.
  destruct R. split; [|by case_bool_decide].
  case_bool_decide as Hb'; cbn; constructor; cbn; try done;
    rewrite ?r_chunk0.
  all: match goal with
       | |- queue_ok _ _ _ _ => eapply queue_frame; [|done]; intros q Hq; apply Hfr; set_solver
       | _ => idtac
       end.
  all: try exact Hnd.
  all: try (by rewrite r_lo0, Ep).
  all: try (by apply not_call_dma).
  all: try (by apply no_clash_dma).
  all: try (by unfold chunk; rewrite not_call_dma).
  - split_all. by rewrite decide_True.
  - split_all. rewrite decide_False by done. split; [done|]. apply advance_holds; [done..|].
    apply Z.leb_gt in Hlast. lia.
Qed.

(** ** Dispatching *)

Definition dispatch (w : arq) : arq :=
  let w := ARQPopTaskQueueHi w in
  match pending_hi w with None => ARQServiceQueueLo w | Some _ => w end.

Definition s_dispatch (s : sched) : sched :=
  let s := s_pop s in
  match s_ph s with None => s_advance (s_take s) | Some _ => s end.

(** Between two events the engine runs exactly when something is under way, a
    high-priority transfer never overtakes the last chunk of a low one, and
    nothing waits for an idle engine. *)
Definition at_rest (w : arq) (s : sched) : Prop :=
  dma_busy w = match s_ph s, s_pl s with None, None => false | _, _ => true end
  /\ (s_ph s <> None -> callback_lo w = None)
  /\ (s_ph s = None -> s_pl s = None -> s_qh s = [] /\ s_ql s = []).

Lemma dispatch_repr w s :
  repr w s -> s_ph s = None -> dma_busy w = false -> callback_lo w = None ->
  repr (dispatch w) (s_dispatch s) /\ at_rest (dispatch w) (s_dispatch s).
Proof.
  intros R Hph Hb Hcb. unfold dispatch, s_dispatch.
  destruct (pop_repr w s R Hph Hb) as (R1 & Hb1 & Hc1 & _).
  set (w1 := ARQPopTaskQueueHi w) in *. rewrite (proj1 (r_ph _ _ R1)).
  destruct (s_ph (s_pop s)) as [p|] eqn:E1; cbn [fmap option_fmap option_map].
  { split; [done|]. unfold at_rest. rewrite E1, Hb1, Hc1. split_all; try done.
    unfold s_pop in E1. rewrite Hph in E1. destruct (s_qh s); [congruence|]. by rewrite bool_decide_true. }
  assert (Es : s_pop s = s /\ s_qh s = []).
  { unfold s_pop in *. rewrite Hph in *. by destruct (s_qh s) eqn:Eq; rewrite ?Eq. }
  destruct Es as [Es Eq]. rewrite Es in *. rewrite Eq in Hb1. cbn in Hb1.
  rewrite service_split. pose proof (take_repr w1 s R1) as R2.
  assert (Hb2 : dma_busy (take_lo w1) = false /\ callback_lo (take_lo w1) = None).
  { unfold take_lo. rewrite Hcb in Hc1. by destruct (pending_lo w1), (queue_lo w1). }
  destruct Hb2 as [Hb2 Hc2].
  assert (Hph2 : s_ph (s_take s) = None /\ s_qh (s_take s) = []).
  { unfold s_take. destruct (s_pl s) as [[? ?]|]; [done|]. by destruct (s_ql s). }
  destruct Hph2 as [Hph2 Hqh2].
  destruct (s_pl (s_take s)) as [[p n]|] eqn:Ep.
  - assert (Hn : n <> nchunks p).
    { intros ->. pose proof (r_pl _ _ R2) as Hp. rewrite Ep in Hp. rewrite decide_True in Hp by done.
      destruct Hp as (_ & _ & _ & Hp). congruence. }
    destruct (chunk_repr _ _ p n R2 Hph2 Hb2 Ep Hn) as [R3 Hb3]. split; [done|].
    unfold at_rest, s_advance. rewrite Ep. cbn. rewrite Hph2, Hb3. done.
  - assert (Eql : s_ql (s_take s) = []).
    { unfold s_take in *. destruct (s_pl s) as [[q m]|] eqn:Ep'; [congruence|].
      by destruct (s_ql s) eqn:Eql. }
    pose proof (r_pl _ _ R2) as Hp. rewrite Ep in Hp. unfold service_chunk, s_advance.
    destruct Hp as [-> _]. rewrite Ep. split; [done|]. unfold at_rest. by rewrite Hph2, Ep.
Qed.

(** ** Events *)

Lemma post_enq p w :
  decomp_ARQPostRequest p w
  = match pending_hi w, pending_lo w with None, None => dispatch (enq p w) | _, _ => enq p w end.
Proof.
  destruct (enq_frame p w) as (E1 & E2 & _). cbv zeta in *.
  unfold decomp_ARQPostRequest. fold (enq p w). rewrite E1, E2. done.
Qed.

Lemma post_repr p w s :
  repr w s -> at_rest w s -> well_posted p -> p_task p ∉ (p_task <$> s_active s) ->
  exists s', repr (decomp_ARQPostRequest p w) s' /\ at_rest (decomp_ARQPostRequest p w) s'
    /\ s_posted s' = s_posted s ++ [p].
Proof.
  intros R (Hb & Hcb & Hidle) Hw Hf. rewrite post_enq.
  pose proof (enq_repr p w s R Hw Hf) as R1.
  destruct (enq_frame p w) as (_ & _ & _ & E4 & _ & E6 & _). cbv zeta in *.
  assert (Es : s_ph (s_post p s) = s_ph s /\ s_pl (s_post p s) = s_pl s
               /\ s_posted (s_post p s) = s_posted s ++ [p])
    by (unfold s_post; by destruct (prio_hi p)).
  destruct Es as (Es1 & Es2 & Es3).
  pose proof (r_pl _ _ R) as Hpl. rewrite (proj1 (r_ph _ _ R)).
  destruct (s_ph s) as [q|] eqn:Eph; cbn [fmap option_fmap option_map].
  - exists (s_post p s). split_all. unfold at_rest. rewrite Es1, E4, E6. done.
  - destruct (s_pl s) as [[q n]|] eqn:Epl.
    + destruct Hpl as [-> _]. exists (s_post p s). split_all. unfold at_rest.
      rewrite Es1, Es2, E4, E6. done.
    + destruct Hpl as [-> Hc]. exists (s_dispatch (s_post p s)).
      destruct (dispatch_repr (enq p w) (s_post p s) R1 Es1) as [R2 Hr]; [congruence..|].
      split_all. rewrite <- Es3. unfold s_dispatch, s_pop. rewrite Es1.
      destruct (s_qh (s_post p s)); cbn; [|done]. rewrite Es1. unfold s_advance, s_take. rewrite Es2.
      destruct (s_ql (s_post p s)); cbn; rewrite ?Es2; done.
Qed.

(** The callback the interrupt makes, if any. *)
Definition completes (w : arq) : list event :=
  match callback_hi w, callback_lo w with
  | Some fn, _ => [EvCall (default 0 (pending_hi w)) fn]
  | None, Some fn => [EvCall (default 0 (pending_lo w)) fn]
  | None, None => []
  end.

(** A block may be posted when it has been called back as often as posted. *)
Definition released (posted : list post) (l : list event) (k : Z) : Prop :=
  List.length (filter (fun p => p_task p = k) posted)
  = List.length (filter is_call (of_task k l)).
Fixpoint legal (posted : list post) (l : list event) (ps : list post) : Prop :=
  match ps with
  | [] => True
  | p :: ps => well_posted p /\ released posted l (p_task p) /\ legal (posted ++ [p]) l ps
  end.

Lemma calls_of_task k ps :
  filter is_call (of_task k (call_of <$> ps)) = call_of <$> filter (fun p => p_task p = k) ps.
Proof.
  induction ps as [|p ps IH]; [done|]. unfold of_task in *. cbn [fmap list_fmap].
  destruct (decide (p_task p = k)).
  - rewrite !filter_cons_True by done. cbn. by rewrite IH.
  - rewrite !filter_cons_False by done. done.
Qed.

Lemma call_filters k l : filter is_call (of_task k l) = of_task k (filter is_call l).
Proof.
  unfold of_task. induction l as [|e l IH]; [done|].
  destruct (decide (ev_task e = k)), (decide (is_call e));
    repeat first [rewrite (filter_cons_True _ e) by done | rewrite (filter_cons_False _ e) by done];
    by rewrite ?IH.
Qed.

Lemma calls_count w s k :
  repr w s -> List.length (filter is_call (of_task k (log w)))
              = List.length (filter (fun p => p_task p = k) (s_done s)).
Proof.
  intros R. rewrite call_filters, (r_calls _ _ R).
  assert (E : filter is_call (call_of <$> s_done s) = call_of <$> s_done s).
  { rewrite <- (r_calls _ _ R) at 1. rewrite list_filter_filter_l; [apply R|done]. }
  pose proof (calls_of_task k (s_done s)) as Ec. rewrite call_filters, E in Ec.
  by rewrite Ec, length_fmap.
Qed.

Lemma released_free w s k :
  repr w s -> released (s_posted s) (log w) k -> k ∉ (p_task <$> s_active s).
Proof.
  intros R Hr Hin. destruct (r_task _ _ R k) as (l & El & Hl).
  unfold released in Hr. rewrite (calls_count w s k R), El, length_app in Hr.
  apply list_elem_of_fmap in Hin as (p & -> & Hp).
  assert (Hpl : p ∈ l) by (rewrite Hl; by apply list_elem_of_filter).
  destruct l; [by apply elem_of_nil in Hpl|]. cbn in Hr. lia.
Qed.

Lemma no_task k (l : list post) :
  k ∉ (p_task <$> l) -> filter (fun q => p_task q = k) l = [].
Proof.
  intros Hk. destruct (filter _ l) as [|q l'] eqn:E; [done|].
  assert (Hq : q ∈ filter (fun q => p_task q = k) l) by (rewrite E; by left).
  apply list_elem_of_filter in Hq as [<- Hq]. destruct Hk. by apply list_elem_of_fmap_2.
Qed.

(** A call that ends the high-priority transfer. *)
Lemma finish_hi w s p ev :
  repr w s -> s_ph s = Some p -> ev = [call_of p] ->
  repr (upd_pending_hi None None (upd_dma false ev w))
    (mk_sched (s_qh s) (s_ql s) None (s_pl s) (s_done s ++ [p]) (s_posted s)).
Proof.
  intros R Ep ->. pose proof (r_ph_prio _ _ R p Ep) as Hprio.
  assert (Hact : s_active s
    = p :: s_active (mk_sched (s_qh s) (s_ql s) None (s_pl s) (s_done s ++ [p]) (s_posted s)))
    by (unfold s_active; by rewrite Ep).
  pose proof (r_nodup _ _ R) as Hnd. rewrite Hact in Hnd. apply NoDup_cons in Hnd as [Hp Hnd].
  pose proof (r_task _ _ R) as Htask. rewrite Hact in Htask.
  destruct R. constructor; cbn; try done.
  - rewrite r_hi0, Ep, filter_app, filter_cons_True, <- app_assoc by done. done.
  - rewrite r_lo0, filter_app, filter_cons_False, app_nil_r by (by rewrite Hprio). done.
  - intros k. destruct (Htask k) as (l & El & Hl). rewrite filter_app.
    destruct (decide (p_task p = k)) as [Ek|Ek].
    + rewrite filter_cons_True in Hl |- * by done.
      assert (Hnil : filter (fun q => p_task q = k)
        (s_active (mk_sched (s_qh s) (s_ql s) None (s_pl s) (s_done s ++ [p]) (s_posted s))) = []).
      { apply no_task. by rewrite <- Ek. }
      rewrite Hnil in Hl. apply Permutation_singleton_r in Hl as ->.
      exists []. rewrite app_nil_r. split; [done|]. by rewrite Hnil.
    + rewrite filter_cons_False in Hl |- * by done. exists l. by rewrite app_nil_r.
  - by rewrite filter_app, r_calls0, fmap_app.
  - apply Forall_app. split; [done|]. by repeat constructor.
  - intros k. rewrite of_task_app, r_log0, done_of_snoc. unfold progress, finished. cbn.
    rewrite Ep, <- !app_assoc. f_equal. unfold of_task.
    destruct (decide (p_task p = k)) as [Ek|Ek].
    + rewrite filter_cons_True by done. rewrite <- !app_assoc. f_equal.
      destruct (s_pl s) as [[q n]|] eqn:Epl; [|done]. rewrite decide_False; [done|].
      intros E. apply Hp. rewrite Ek, <- E. unfold s_active. cbn. by left.
    + rewrite filter_cons_False by done. by rewrite app_nil_r.
Qed.

(** A call that ends the low-priority transfer. *)
Lemma finish_lo w s p ev :
  repr w s -> s_pl s = Some (p, nchunks p) -> ev = [call_of p] ->
  repr (upd_pending_lo None None (upd_dma false ev w))
    (mk_sched (s_qh s) (s_ql s) (s_ph s) None (s_done s ++ [p]) (s_posted s)).
Proof.
  intros R Ep ->. pose proof (r_pl _ _ R) as Hpl. rewrite Ep in Hpl.
  destruct Hpl as (_ & Hprio & _).
  assert (Hact : s_active s
    ≡ₚ p :: s_active (mk_sched (s_qh s) (s_ql s) (s_ph s) None (s_done s ++ [p]) (s_posted s)))
    by (unfold s_active; rewrite Ep; cbn; solve_Permutation).
  pose proof (r_nodup _ _ R) as Hnd. rewrite Hact in Hnd. apply NoDup_cons in Hnd as [Hp Hnd].
  pose proof (r_task _ _ R) as Htask.
  destruct R. constructor; cbn; try done.
  - rewrite r_hi0, filter_app, (filter_cons_False _ p), app_nil_r by (by rewrite Hprio). done.
  - rewrite r_lo0, Ep, filter_app, filter_cons_True, <- app_assoc by done. done.
  - intros k. destruct (Htask k) as (l & El & Hl). rewrite filter_app. rewrite Hact in Hl.
    destruct (decide (p_task p = k)) as [Ek|Ek].
    + rewrite filter_cons_True in Hl |- * by done.
      assert (Hnil : filter (fun q => p_task q = k)
        (s_active (mk_sched (s_qh s) (s_ql s) (s_ph s) None (s_done s ++ [p]) (s_posted s))) = []).
      { apply no_task. by rewrite <- Ek. }
      rewrite Hnil in Hl. apply Permutation_singleton_r in Hl as ->.
      exists []. rewrite app_nil_r. split; [done|]. by rewrite Hnil.
    + rewrite filter_cons_False in Hl |- * by done. exists l. by rewrite app_nil_r.
  - by rewrite filter_app, r_calls0, fmap_app.
  - apply Forall_app. split; [done|]. by repeat constructor.
  - intros k. rewrite of_task_app, r_log0, done_of_snoc. unfold progress, finished. cbn.
    rewrite Ep, <- !app_assoc. f_equal. unfold of_task.
    destruct (decide (p_task p = k)) as [Ek|Ek].
    + rewrite filter_cons_True by done. rewrite (transfers_all p) by done.
      destruct (s_ph s) as [q|] eqn:Eph; [|by rewrite app_nil_r]. rewrite decide_False; [by rewrite !app_nil_r|].
      intros E. apply Hp. rewrite Ek, <- E. unfold s_active. cbn. by left.
    + rewrite filter_cons_False by done. by rewrite !app_nil_r.
Qed.

(** ** The interrupt *)

Lemma posts_enq ps w :
  (pending_hi w <> None \/ pending_lo w <> None) ->
  foldl (fun w p => decomp_ARQPostRequest p w) w ps = foldl (fun w p => enq p w) w ps.
Proof.
  revert w. induction ps as [|p ps IH]; intros w Hw; cbn [foldl]; [done|].
  destruct (enq_frame p w) as (E1 & E2 & _). cbv zeta in *.
  assert (E : decomp_ARQPostRequest p w = enq p w).
  { rewrite post_enq. destruct (pending_hi w), (pending_lo w); try done. by destruct Hw. }
  rewrite E. apply IH. by rewrite E1, E2.
Qed.

Lemma enq_pending_hi a b p w : upd_pending_hi a b (enq p w) = enq p (upd_pending_hi a b w).
Proof.
  unfold enq, enqueue_post. cbn. destruct (_ =? _); [by destruct (enqueue _ _ _ _)|].
  destruct (_ =? _); [by destruct (enqueue _ _ _ _)|]. done.
Qed.
Lemma enq_pending_lo a b p w : upd_pending_lo a b (enq p w) = enq p (upd_pending_lo a b w).
Proof.
  unfold enq, enqueue_post. cbn. destruct (_ =? _); [by destruct (enqueue _ _ _ _)|].
  destruct (_ =? _); [by destruct (enqueue _ _ _ _)|]. done.
Qed.
Lemma foldl_enq_comm (g : arq -> arq) ps w :
  (forall p w, g (enq p w) = enq p (g w)) ->
  g (foldl (fun w p => enq p w) w ps) = foldl (fun w p => enq p w) (g w) ps.
Proof. intros Hg. revert w. induction ps as [|p ps IH]; intros w; cbn; [done|]. by rewrite IH, Hg. Qed.

Lemma enq_all ps w s :
  repr w s -> legal (s_posted s) (log w) ps ->
  let w' := foldl (fun w p => enq p w) w ps in
  let s' := foldl (fun s p => s_post p s) s ps in
  repr w' s' /\ s_posted s' = s_posted s ++ ps /\ s_ph s' = s_ph s
  /\ callback_lo w' = callback_lo w /\ dma_busy w' = dma_busy w.
Proof.
  revert w s. induction ps as [|p ps IH]; intros w s R Hl; cbn [foldl].
  { by rewrite app_nil_r. }
  destruct Hl as (Hw & Hr & Hl).
  pose proof (enq_repr p w s R Hw (released_free w s _ R Hr)) as R1.
  destruct (enq_frame p w) as (_ & _ & _ & E4 & _ & E6 & E7). cbv zeta in *.
  assert (Es : s_posted (s_post p s) = s_posted s ++ [p] /\ s_ph (s_post p s) = s_ph s)
    by (unfold s_post; by destruct (prio_hi p)).
  destruct Es as [Es1 Es2].
  destruct (IH _ _ R1) as (R2 & Hp & Hph & Hcb & Hb); [by rewrite Es1, E7|].
  split_all; [by rewrite Hp, Es1, <- app_assoc|congruence..].
Qed.

Lemma upd_dma_nil b ev w : upd_dma b ev (upd_dma false [] w) = upd_dma b ev w.
Proof. unfold upd_dma. cbn. by rewrite app_nil_r. Qed.

Lemma interrupt_dispatch during w :
  dma_interrupt during w
  = dispatch (match callback_hi w, callback_lo w with
              | Some fn, _ => upd_pending_hi None None (call_back fn (pending_hi w) during (upd_dma false [] w))
              | None, Some fn => upd_pending_lo None None (call_back fn (pending_lo w) during (upd_dma false [] w))
              | None, None => upd_dma false [] w
              end).
Proof. done. Qed.

(** The schedule before the dispatch: what was under way and is finished has
    left it, what its callback posted has joined it. *)
Definition s_complete (s : sched) : sched :=
  match s_ph s, s_pl s with
  | Some p, _ => mk_sched (s_qh s) (s_ql s) None (s_pl s) (s_done s ++ [p]) (s_posted s)
  | None, Some (p, n) =>
      if decide (n = nchunks p)
      then mk_sched (s_qh s) (s_ql s) None None (s_done s ++ [p]) (s_posted s) else s
  | None, None => s
  end.

Lemma interrupt_before w s during :
  repr w s -> at_rest w s -> dma_busy w = true ->
  legal (s_posted s) (log w ++ completes w) during ->
  (completes w = [] -> during = []) ->
  let s' := foldl (fun s p => s_post p s) (s_complete s) during in
  exists w', dma_interrupt during w = dispatch w' /\ repr w' s'
    /\ s_ph s' = None /\ dma_busy w' = false /\ callback_lo w' = None
    /\ s_posted s' = s_posted s ++ during.
Proof.
  intros R (Hb & Hcb & _) Hbusy Hl Hnil. rewrite interrupt_dispatch.
  unfold completes, s_complete in *. rewrite (proj1 (r_ph _ _ R)), (proj2 (r_ph _ _ R)) in *.
  pose proof (r_pl _ _ R) as Hpl. eexists. split; [reflexivity|].
  destruct (s_ph s) as [p|] eqn:Eph; cbn [fmap option_fmap option_map default] in *.
  - specialize (Hcb ltac:(done)).
    destruct (enq_all during _ _ (finish_hi w s p _ R Eph eq_refl) Hl) as (R2 & Hp & Hph & Hc & Hb').
    unfold call_back. rewrite posts_enq by (left; cbn; by rewrite (proj1 (r_ph _ _ R)), Eph).
    rewrite (foldl_enq_comm (upd_pending_hi None None)) by (intros; apply enq_pending_hi).
    rewrite upd_dma_nil. split_all. exact (eq_trans Hc Hcb).
  - destruct (s_pl s) as [[p n]|] eqn:Epl; [|congruence].
    destruct Hpl as (Hpend & Hprio & Hle & Hc). destruct (decide (n = nchunks p)) as [->|Hn].
    + rewrite Hc, Hpend in *. cbn [default] in *.
      pose proof (finish_lo w s p _ R Epl eq_refl) as R1. rewrite Eph in R1.
      destruct (enq_all during _ _ R1 Hl) as (R2 & Hp & Hph & Hc' & Hb').
      unfold call_back. rewrite posts_enq by (right; cbn; by rewrite Hpend).
      rewrite (foldl_enq_comm (upd_pending_lo None None)) by (intros; apply enq_pending_lo).
      rewrite upd_dma_nil. split_all.
    + destruct Hc as [Hc _]. rewrite Hc in *. rewrite Hnil by done. cbn [foldl].
      rewrite app_nil_r. split_all.
      pose proof (r_log _ _ R). destruct R. constructor; cbn; rewrite ?app_nil_r; try done;
        try (by rewrite Eph).
Qed.

Lemma dispatch_posted s : s_posted (s_dispatch s) = s_posted s.
Proof.
  assert (Hpop : s_posted (s_pop s) = s_posted s)
    by (unfold s_pop; destruct (s_ph s); [done|]; by destruct (s_qh s)).
  assert (Htake : forall s, s_posted (s_take s) = s_posted s)
    by (intros s'; unfold s_take; destruct (s_pl s') as [[? ?]|]; [done|]; by destruct (s_ql s')).
  unfold s_dispatch. destruct (s_ph (s_pop s)); [done|]. rewrite <- Hpop, <- (Htake (s_pop s)).
  unfold s_advance. by destruct (s_pl (s_take (s_pop s))) as [[? ?]|].
Qed.

Lemma interrupt_repr w s during :
  repr w s -> at_rest w s -> dma_busy w = true ->
  legal (s_posted s) (log w ++ completes w) during ->
  (completes w = [] -> during = []) ->
  let s' := s_dispatch (foldl (fun s p => s_post p s) (s_complete s) during) in
  repr (dma_interrupt during w) s' /\ at_rest (dma_interrupt during w) s'
  /\ s_posted s' = s_posted s ++ during.
Proof.
  intros R Hr Hb Hl Hnil s'.
  destruct (interrupt_before w s during R Hr Hb Hl Hnil) as (w' & -> & R' & Hph & Hb' & Hc & Hp).
  cbv zeta in *. destruct (dispatch_repr _ _ R' Hph Hb' Hc). split_all.
  unfold s'. by rewrite dispatch_posted.
Qed.

(** ** Executions *)

(** The queue after [ARQInit], whatever the statics and blocks held before. *)
Definition started (f : Z -> ARQRequest) (th tl : option Z) : arq :=
  ARQInit (mk_arq f None th None tl None None None None 0 false false []).

(** A thread posts a request; the engine's interrupt comes, [during] being what
    the callback it makes posts.  The second component records the posts. *)
Inductive arq_exec : arq * list post -> arq * list post -> Prop :=
  | exec_post p w ps :
      well_posted p -> released ps (log w) (p_task p) ->
      arq_exec (w, ps) (decomp_ARQPostRequest p w, ps ++ [p])
  | exec_interrupt during w ps :
      dma_busy w = true -> legal ps (log w ++ completes w) during ->
      (completes w = [] -> during = []) ->
      arq_exec (w, ps) (dma_interrupt during w, ps ++ during).

Lemma started_repr f th tl :
  let s := mk_sched [] [] None None [] [] in
  repr (started f th tl) s /\ at_rest (started f th tl) s.
Proof.
  split; [|done]. constructor; cbn; try done; try (by repeat constructor).
  intros k. by exists [].
Qed.

(** The steps keep a schedule at rest. *)
Definition scheduled (x : arq * list post) : Prop :=
  exists s, repr x.1 s /\ at_rest x.1 s /\ s_posted s = x.2.

Lemma exec_step x y : arq_exec x y -> scheduled x -> scheduled y.
Proof.
  intros Hx (s & R & Hr & Hp). destruct Hx as [p w ps Hw Hrel|during w ps Hb Hl Hnil]; cbn in *; subst ps.
  - destruct (post_repr p w s R Hr Hw (released_free _ _ _ R Hrel)) as (s' & ? & ? & ?). by exists s'.
  - destruct (interrupt_repr w s during R Hr Hb Hl Hnil) as (? & ? & ?). eexists. eauto.
Qed.

Lemma exec_scheduled f th tl x : rtc arq_exec (started f th tl, []) x -> scheduled x.
Proof.
  revert x. apply rtc_ind_r.
  - destruct (started_repr f th tl). eexists. eauto.
  - intros y z _ Hyz. by apply exec_step.
Qed.

(** ** What the log shows *)

Lemma active_task s p :
  NoDup (p_task <$> s_active s) -> p ∈ s_active s ->
  filter (fun q => p_task q = p_task p) (s_active s) ≡ₚ [p].
Proof.
  intros Hnd Hp. apply elem_of_Permutation in Hp as [l El]. rewrite El in Hnd |- *.
  apply NoDup_cons in Hnd as [Hn _]. rewrite filter_cons_True by done.
  by rewrite (no_task (p_task p) l).
Qed.

(** A block that is not active shows no progress, an active one that of its
    request. *)
Lemma progress_active w s k :
  repr w s ->
  progress s k = []
  \/ exists p, p ∈ s_active s /\ p_task p = k /\ progress s k `prefix_of` finished p.
Proof.
  intros R. unfold progress, finished. destruct (s_ph s) as [p|] eqn:Eph.
  - destruct (decide (p_task p = k)) as [<-|Hk].
    + right. exists p. split; [by apply in_active_ph|]. split; [done|].
      destruct (s_pl s) as [[q n]|] eqn:Epl.
      * rewrite decide_False; [rewrite app_nil_r; by eexists|].
        intros E. by apply (ph_pl_disjoint s p q n (r_nodup _ _ R) Eph Epl).
      * rewrite app_nil_r. by eexists.
    + destruct (s_pl s) as [[q n]|] eqn:Epl; [|by left].
      destruct (decide (p_task q = k)) as [<-|]; [|by left].
      right. exists q. split; [by eapply in_active_pl|]. split; [done|]. cbn.
      apply prefix_app_r, prefix_take.
  - destruct (s_pl s) as [[q n]|] eqn:Epl; [|by left].
    destruct (decide (p_task q = k)) as [<-|]; [|by left].
    right. exists q. split; [by eapply in_active_pl|]. split; [done|]. cbn.
    apply prefix_app_r, prefix_take.
Qed.

Lemma log_prefix w s k :
  repr w s ->
  of_task k (log w) `prefix_of` concat (finished <$> filter (fun p => p_task p = k) (s_posted s)).
Proof.
  intros R. rewrite (r_log _ _ R). destruct (r_task _ _ R k) as (l & -> & Hl).
  rewrite fmap_app, concat_app. unfold done_of. apply prefix_app.
  destruct (progress_active w s k R) as [->|(p & Hp & <- & Hpr)]; [apply prefix_nil|].
  rewrite (active_task s p (r_nodup _ _ R) Hp) in Hl. apply Permutation_singleton_r in Hl as ->.
  cbn. by rewrite app_nil_r.
Qed.

(** C14. Whatever requests are posted and however the interrupts and the callbacks'
    own posts come between: the engine is never given a transfer while another
    is under way; what the engine is seen to do for a request block is, request
    by request in the order they were posted, every chunk of the transfer in
    order and then the callback, with nothing lost, repeated or mixed up; and
    within each priority callbacks are made in the order of the posts. *)
Theorem arq_serves_requests f th tl w ps :
  rtc arq_exec (started f th tl, []) (w, ps) ->
  Forall (fun e => clashes e = false) (log w)
  /\ (forall k, of_task k (log w)
        `prefix_of` concat (finished <$> filter (fun p => p_task p = k) ps))
  /\ exists served, filter is_call (log w) = call_of <$> served
     /\ filter (fun p => prio_hi p = true) served `prefix_of` filter (fun p => prio_hi p = true) ps
     /\ filter (fun p => prio_hi p = false) served `prefix_of` filter (fun p => prio_hi p = false) ps.
Proof.
  intros Hx. destruct (exec_scheduled _ _ _ _ Hx) as (s & R & _ & Hp). cbn in *. subst ps.
  split; [apply R|]. split; [intros k; by apply log_prefix|].
  exists (s_done s). split; [apply R|]. split.
  - rewrite (r_hi _ _ R). by eexists.
  - rewrite (r_lo _ _ R). by eexists.
Qed.

(** ** Draining *)

(** Events still to come. *)
Definition work_lo (p : post) : nat := S (nchunks p).
Definition todo (s : sched) : nat :=
  (2 * List.length (s_qh s) + sum_list (work_lo <$> s_ql s)
   + (if s_ph s then 1 else 0)
   + match s_pl s with Some (p, n) => S (nchunks p - n) | None => 0 end)%nat.

Lemma todo_dispatch s :
  s_ph s = None ->
  (todo (s_dispatch s) <= todo s)%nat
  /\ (forall p n, s_pl s = Some (p, n) -> (n < nchunks p)%nat -> (todo (s_dispatch s) < todo s)%nat).
Proof.
  intros Hph. unfold s_dispatch, s_pop. rewrite Hph.
  destruct (s_qh s) as [|q qh] eqn:Eq; cbn [s_ph].
  - rewrite Hph. unfold s_take. destruct (s_pl s) as [[p n]|] eqn:Ep.
    + unfold s_advance. rewrite Ep. unfold todo. cbn. rewrite Hph, Ep, Eq.
      split; [lia|]. intros p' n' [= <- <-] Hn. lia.
    + destruct (s_ql s) as [|p ql] eqn:El.
      * unfold s_advance. rewrite Ep. split; [lia|done].
      * unfold todo. cbn. rewrite Hph, Ep, Eq, El. cbn. unfold work_lo. split; [lia|done].
  - unfold todo. cbn. rewrite Hph, Eq. cbn. split; [lia|]. intros. lia.
Qed.

Lemma todo_interrupt w s :
  repr w s -> at_rest w s -> dma_busy w = true -> (todo (s_dispatch (s_complete s)) < todo s)%nat.
Proof.
  intros R (Hb & _) Hbusy. rewrite Hb in Hbusy. pose proof (r_pl _ _ R) as Hpl. unfold s_complete.
  destruct (s_ph s) as [p|] eqn:Eph.
  - eapply Nat.le_lt_trans; [apply todo_dispatch; done|]. unfold todo. cbn. rewrite Eph. lia.
  - destruct (s_pl s) as [[p n]|] eqn:Epl; [|done]. destruct Hpl as (_ & _ & Hn & _).
    case_decide.
    + eapply Nat.le_lt_trans; [apply todo_dispatch; done|]. unfold todo. cbn. rewrite Eph, Epl. lia.
    + apply (todo_dispatch s Eph) with (p := p) (n := n); [done|lia].
Qed.

(** Interrupts alone, as long as the engine runs. *)
Fixpoint interrupts (n : nat) (w : arq) : arq :=
  match n with
  | O => w
  | S n => if dma_busy w then interrupts n (dma_interrupt [] w) else w
  end.

Lemma drain n w s :
  repr w s -> at_rest w s -> (todo s <= n)%nat ->
  exists s', repr (interrupts n w) s' /\ at_rest (interrupts n w) s'
    /\ s_posted s' = s_posted s /\ dma_busy (interrupts n w) = false.
Proof.
  revert w s. induction n as [|n IH]; intros w s R Hr Hn; cbn [interrupts].
  - exists s. split_all. destruct Hr as (Hb & _). unfold todo in Hn.
    destruct (s_ph s); [lia|]. destruct (s_pl s) as [[? ?]|]; [lia|done].
  - destruct (dma_busy w) eqn:Hb; [|exists s; split_all].
    destruct (interrupt_repr w s [] R Hr Hb I ltac:(done)) as (R' & Hr' & Hp). cbn [foldl] in *.
    pose proof (todo_interrupt w s R Hr Hb).
    destruct (IH _ _ R' Hr' ltac:(lia)) as (s' & ? & ? & ? & ?). exists s'. split_all.
    rewrite app_nil_r in Hp. congruence.
Qed.

(** C15. From every state the queue can reach, finitely many interrupts leave the
    engine idle, and then every request ever posted has been transferred
    completely and called back. *)
Theorem arq_drains f th tl w ps :
  rtc arq_exec (started f th tl, []) (w, ps) ->
  exists n, let w' := interrupts n w in
    dma_busy w' = false
    /\ forall k, of_task k (log w') = concat (finished <$> filter (fun p => p_task p = k) ps).
Proof.
  intros Hx. destruct (exec_scheduled _ _ _ _ Hx) as (s & R & Hr & Hp). cbn in *. subst ps.
  exists (todo s). destruct (drain (todo s) w s R Hr ltac:(lia)) as (s' & R' & Hr' & Hp & Hb).
  split; [done|]. intros k. rewrite <- Hp, (r_log _ _ R').
  destruct Hr' as (Hb' & _ & Hidle). rewrite Hb in Hb'.
  destruct (s_ph s') as [?|] eqn:Eph; [done|]. destruct (s_pl s') as [?|] eqn:Epl; [done|].
  destruct (Hidle eq_refl eq_refl) as [Eq El].
  destruct (r_task _ _ R' k) as (l & -> & Hl).
  assert (Hact : s_active s' = []) by (unfold s_active; by rewrite Eph, Epl, Eq, El).
  rewrite Hact in Hl. apply Permutation_nil_r in Hl as ->.
  unfold progress. rewrite Eph, Epl, app_nil_r. unfold done_of. by rewrite !app_nil_r.
Qed.

(** ** A run *)

Definition garbage : Z -> ARQRequest := fun _ => mk_task (Some 77) 1 2 3 4 5 6.
Definition low_post : post := mk_post 0x1000 0 0 0 0x80300000 0x4000 10000 0.
Definition high_post : post := mk_post 0x2000 0 1 1 0x8000 0x80500000 64 0x8170.

Lemma arq_run_exec :
  rtc arq_exec (started garbage None (Some 3), [])
    (dma_interrupt [] (decomp_ARQPostRequest high_post
       (decomp_ARQPostRequest low_post (started garbage None (Some 3)))), [low_post; high_post]).
Proof.
  eapply rtc_l; [apply (exec_post low_post); [vm_compute; intuition congruence|reflexivity]|].
  eapply rtc_l; [apply (exec_post high_post); [vm_compute; intuition congruence|reflexivity]|].
  eapply rtc_l; [apply (exec_interrupt []); [reflexivity|exact I|reflexivity]|]. apply rtc_refl.
Qed.

Lemma arq_serves_requests_witness :
  exists w ps, rtc arq_exec (started garbage None (Some 3), []) (w, ps) /\ ps <> []
    /\ Forall (fun e => clashes e = false) (log w).
Proof.
  eexists _, _. split; [exact arq_run_exec|]. split; [discriminate|].
  exact (proj1 (arq_serves_requests _ _ _ _ _ arq_run_exec)).
Defined.

Lemma arq_drains_witness :
  exists w n, dma_busy w = true /\ dma_busy (interrupts n w) = false.
Proof.
  destruct (arq_drains _ _ _ _ _ arq_run_exec) as (n & Hb & _). eexists _, n.
  split; [|exact Hb]. reflexivity.
Defined.
