(* ===== verification/Ar.v ===== *)
(** The ARAM driver, [decomp_ar.c]: programming the DSP's ARAM DMA registers, and
    the interrupt acknowledgement.

    The register block is hardware: a store to the low half of the length starts
    a transfer with what the registers then hold, read the way the engine reads
    them (26-bit addresses, multiples of 32 bytes, direction in the top bit). *)

From S2P Require Import Prelude Bits.

Definition DSP_CONTROL_STATUS : Z := 5.
Definition DSP_ARAM_REFRESH : Z := 13.
Definition DSP_ARAM_DMA_MM_HI : Z := 16.
Definition DSP_ARAM_DMA_MM_LO : Z := 17.
Definition DSP_ARAM_DMA_ARAM_HI : Z := 18.
Definition DSP_ARAM_DMA_ARAM_LO : Z := 19.
Definition DSP_ARAM_DMA_SIZE_HI : Z := 20.
Definition DSP_ARAM_DMA_SIZE_LO : Z := 21.
Definition AR_ARAM_USR_BASE_ADDR : Z := 0x4000.

(** A transfer the engine was told to make. *)
Record transfer := mk_transfer {
  tr_to_mram : bool; tr_mram : Z; tr_aram : Z; tr_length : Z
}.

Record dsp := mk_dsp { regs : Z -> Z; transfers : list transfer }.

(** The engine's reading of a register pair. *)
Definition pair_value (hi lo : Z) : Z := Z.land hi 0x3ff * 2 ^ 16 + Z.land lo 0xffe0.
Definition engine_reads (r : Z -> Z) : transfer :=
  mk_transfer (Z.testbit (r DSP_ARAM_DMA_SIZE_HI) 15)
    (pair_value (r DSP_ARAM_DMA_MM_HI) (r DSP_ARAM_DMA_MM_LO))
    (pair_value (r DSP_ARAM_DMA_ARAM_HI) (r DSP_ARAM_DMA_ARAM_LO))
    (pair_value (r DSP_ARAM_DMA_SIZE_HI) (r DSP_ARAM_DMA_SIZE_LO)).

(** A store to a 16-bit register. *)
Definition store (i v : Z) (d : dsp) : dsp :=
  let r := fun j => if j =? i then u16 v else regs d j in
  mk_dsp r (if i =? DSP_ARAM_DMA_SIZE_LO then transfers d ++ [engine_reads r] else transfers d).

(** [(u16)(reg & ~mask) | (u16)x]. *)
Definition merge (reg mask x : Z) : Z := Z.lor (u16 (Z.land reg (Z.lnot mask))) (u16 x).

Definition store_pair (hi lo x : Z) (d : dsp) : dsp :=
  let d := store hi (merge (regs d hi) 0x3ff (Z.shiftr x 16)) d in
  store lo (merge (regs d lo) 0xffe0 (Z.land x 0xffff)) d.

Definition ARStartDMA (type mainmem_addr aram_addr length : Z) (d : dsp) : dsp :=
  let d := store_pair DSP_ARAM_DMA_MM_HI DSP_ARAM_DMA_MM_LO mainmem_addr d in
  let d := store_pair DSP_ARAM_DMA_ARAM_HI DSP_ARAM_DMA_ARAM_LO aram_addr d in
  let d := store DSP_ARAM_DMA_SIZE_HI
             (Z.lor (Z.land (regs d DSP_ARAM_DMA_SIZE_HI) (Z.lnot 0x8000)) (u32 (Z.shiftl type 15))) d in
  store_pair DSP_ARAM_DMA_SIZE_HI DSP_ARAM_DMA_SIZE_LO length d.

(** The DMA busy bit. *)
Definition ARGetDMAStatus (d : dsp) : Z := Z.land (regs d DSP_CONTROL_STATUS) 0x0200.

(** [(tmp & ~(0x80 | 0x8)) | 0x20]. *)
Definition ARClearInterrupt (d : dsp) : dsp :=
  store DSP_CONTROL_STATUS
    (Z.lor (Z.land (regs d DSP_CONTROL_STATUS) (Z.lnot (Z.lor 0x80 0x8))) 0x20) d.
Definition ARGetInterruptStatus (d : dsp) : Z := Z.land (regs d DSP_CONTROL_STATUS) 0x20.

(** [__ARWaitForDMA]: the status register is read until the busy bit is clear;
    [status] are the values the reads return. *)
Fixpoint ARWaitForDMA (status : list Z) : option (list Z) :=
  match status with
  | [] => None
  | s :: status => if Z.land s 0x0200 =? 0 then Some status else ARWaitForDMA status
  end.

Definition ARWriteDMA (mmem_addr aram_addr length : Z) (status : list Z) (d : dsp) : option dsp :=
  let d := store_pair DSP_ARAM_DMA_MM_HI DSP_ARAM_DMA_MM_LO mmem_addr d in
  let d := store_pair DSP_ARAM_DMA_ARAM_HI DSP_ARAM_DMA_ARAM_LO aram_addr d in
  let d := store DSP_ARAM_DMA_SIZE_HI
             (Z.land (regs d DSP_ARAM_DMA_SIZE_HI) (Z.lnot 0x8000)) d in
  let d := store_pair DSP_ARAM_DMA_SIZE_HI DSP_ARAM_DMA_SIZE_LO length d in
  _ ← ARWaitForDMA status; Some (ARClearInterrupt d).

Definition ARReadDMA (mmem_addr aram_addr length : Z) (status : list Z) (d : dsp) : option dsp :=
  let d := store_pair DSP_ARAM_DMA_MM_HI DSP_ARAM_DMA_MM_LO mmem_addr d in
  let d := store_pair DSP_ARAM_DMA_ARAM_HI DSP_ARAM_DMA_ARAM_LO aram_addr d in
  let d := store DSP_ARAM_DMA_SIZE_HI (Z.lor (regs d DSP_ARAM_DMA_SIZE_HI) 0x8000) d in
  let d := store_pair DSP_ARAM_DMA_SIZE_HI DSP_ARAM_DMA_SIZE_LO length d in
  _ ← ARWaitForDMA status; Some (ARClearInterrupt d).

(** The statics of the driver; the callback is the address registered. *)
Record ar_state := mk_ar {
  AR_Callback : option Z; AR_Size : Z; AR_StackPointer : Z; AR_FreeBlocks : Z;
  AR_BlockLength : Z; AR_init_flag : bool
}.

Definition ARRegisterDMACallback (cb : option Z) (a : ar_state) : option Z * ar_state :=
  (AR_Callback a, mk_ar cb (AR_Size a) (AR_StackPointer a) (AR_FreeBlocks a) (AR_BlockLength a)
                    (AR_init_flag a)).

(** Returns the stack pointer; a second call changes nothing. *)
Definition ARInit (stack_index_addr num_entries : Z) (ad : ar_state * dsp) : Z * (ar_state * dsp) :=
  let '(a, d) := ad in
  if AR_init_flag a then (AR_ARAM_USR_BASE_ADDR, (a, d))
  else
    let refresh := u16 (Z.land (regs d DSP_ARAM_REFRESH) 0xFF) in
    let d := store DSP_ARAM_REFRESH
               (Z.lor (Z.land (regs d DSP_ARAM_REFRESH) (Z.lnot 0xFF)) (Z.land refresh 0xFF)) d in
    (AR_ARAM_USR_BASE_ADDR,
     (mk_ar None 0x1000000 AR_ARAM_USR_BASE_ADDR num_entries stack_index_addr true, d)).

(** [__ARHandler]: acknowledge, then the registered callback, if any. *)
Definition ARHandler {A} (a : ar_state) (call : Z -> A -> A) (x : dsp * A) : dsp * A :=
  let '(d, y) := x in
  let d := ARClearInterrupt d in
  match AR_Callback a with Some cb => (d, call cb y) | None => (d, y) end.

(** ** Register contents *)

Lemma merge_range reg mask x : 0 <= merge reg mask x < 2 ^ 16.
Proof.
  unfold merge. pose proof (u16_range (Z.land reg (Z.lnot mask))). pose proof (u16_range x).
  split; [apply Z.lor_nonneg; lia|].
  destruct (Z.eq_dec (Z.lor (u16 (Z.land reg (Z.lnot mask))) (u16 x)) 0) as [->|Hn]; [lia|].
  apply Z.log2_lt_pow2; [pose proof (proj2 (Z.lor_nonneg (u16 (Z.land reg (Z.lnot mask))) (u16 x))); lia|].
  rewrite Z.log2_lor by lia. apply Z.max_lub_lt.
  - destruct (Z.eq_dec (u16 (Z.land reg (Z.lnot mask))) 0) as [->|]; [cbn; lia|].
    apply Z.log2_lt_pow2; lia.
  - destruct (Z.eq_dec (u16 x) 0) as [->|]; [cbn; lia|]. apply Z.log2_lt_pow2; lia.
Qed.

Lemma merge_bit reg mask x n :
  0 <= n < 16 -> Z.testbit (merge reg mask x) n
  = (Z.testbit reg n && negb (Z.testbit mask n)) || Z.testbit x n.
Proof.
  intros Hn. unfold merge, u16. rewrite Z.lor_spec, !Z.mod_pow2_bits_low by lia.
  by rewrite Z.land_spec, Z.lnot_spec by lia.
Qed.

(** The bits the engine takes from a merged register are the ones put in. *)
Lemma merge_land reg mask x :
  0 <= mask < 2 ^ 16 -> Z.land (merge reg mask x) mask = Z.land x mask.
Proof.
  intros Hm. apply Z.bits_inj'. intros n Hn. rewrite !Z.land_spec.
  destruct (Z.lt_ge_cases n 16).
  - rewrite merge_bit by lia. destruct (Z.testbit mask n); [|by rewrite !andb_false_r].
    cbn. by rewrite andb_false_r.
  - assert (E : Z.testbit mask n = false).
    { destruct (Z.eq_dec mask 0) as [->|]; [apply Z.bits_0|].
      apply Z.bits_above_log2; [lia|]. apply Z.log2_lt_pow2; [lia|].
      eapply Z.lt_le_trans; [apply Hm|]. apply Z.pow_le_mono_r; lia. }
    by rewrite E, !andb_false_r.
Qed.

Lemma store_same i v d : 0 <= v < 2 ^ 16 -> regs (store i v d) i = v.
Proof. intros. cbn. rewrite Z.eqb_refl. by apply u16_small. Qed.
Lemma store_other i v d j : j <> i -> regs (store i v d) j = regs d j.
Proof. intros. cbn. by destruct (Z.eqb_spec j i). Qed.

(** What an address or length must look like for the engine to see it whole. *)
Definition engine_word (x : Z) : Prop := 0 <= x < 2 ^ 32 /\ x mod 32 = 0.

Lemma pair_spec a b reg1 reg2 x :
  engine_word x -> a = merge reg1 0x3ff (Z.shiftr x 16) -> b = merge reg2 0xffe0 (Z.land x 0xffff) ->
  pair_value a b = x mod 2 ^ 26.
Proof.
  intros [Hx Ha] -> ->. unfold pair_value. rewrite !merge_land by lia.
  change 0x3ff with (Z.ones 10). rewrite Z.land_ones, shr, land_ffff by lia.
  assert (E : Z.land (x mod 65536) 0xffe0 = x mod 65536).
  { assert (Em : x mod 65536 = (x mod 65536) / 2 ^ 5 * 2 ^ 5) by zdm.
    rewrite Em, <- Z.shiftl_mul_pow2 by lia. change 0xffe0 with (Z.shiftl (Z.ones 11) 5).
    rewrite <- Z.shiftl_land, Z.land_ones by lia. f_equal. apply Z.mod_small. zdm. }
  rewrite E. zdm.
Qed.

Lemma merge_top reg x :
  0 <= x < 2 ^ 31 -> Z.testbit (merge reg 0x3ff (Z.shiftr x 16)) 15 = Z.testbit reg 15.
Proof.
  intros Hx. rewrite merge_bit by lia. rewrite Z.shiftr_spec by lia.
  change (Z.testbit 0x3ff 15) with false. rewrite andb_true_r.
  replace (Z.testbit x (15 + 16)) with false; [apply orb_false_r|]. symmetry.
  destruct (Z.eq_dec x 0) as [->|]; [apply Z.bits_0|].
  apply Z.bits_above_log2; [lia|]. apply Z.log2_lt_pow2; lia.
Qed.

(** Storing both halves of a word: the halves, and everything else. *)
Lemma store_pair_regs hi lo x d j :
  hi <> lo ->
  regs (store_pair hi lo x d) j
  = if j =? lo then merge (regs d lo) 0xffe0 (Z.land x 0xffff)
    else if j =? hi then merge (regs d hi) 0x3ff (Z.shiftr x 16) else regs d j.
Proof.
  intros Hne. unfold store_pair. destruct (Z.eqb_spec j lo) as [->|Hl].
  - rewrite store_same by apply merge_range. by rewrite store_other.
  - rewrite store_other by done. destruct (Z.eqb_spec j hi) as [->|Hh].
    + by rewrite store_same by apply merge_range.
    + by rewrite store_other.
Qed.

Lemma store_pair_hi hi lo x d :
  hi <> lo -> regs (store_pair hi lo x d) hi = merge (regs d hi) 0x3ff (Z.shiftr x 16).
Proof.
  intros H. rewrite store_pair_regs by done. by rewrite (proj2 (Z.eqb_neq hi lo)), Z.eqb_refl.
Qed.
Lemma store_pair_lo hi lo x d :
  hi <> lo -> regs (store_pair hi lo x d) lo = merge (regs d lo) 0xffe0 (Z.land x 0xffff).
Proof. intros H. rewrite store_pair_regs by done. by rewrite Z.eqb_refl. Qed.
Lemma store_pair_ne hi lo x d j :
  hi <> lo -> j <> hi -> j <> lo -> regs (store_pair hi lo x d) j = regs d j.
Proof.
  intros H Hh Hl. rewrite store_pair_regs by done.
  by rewrite (proj2 (Z.eqb_neq j lo)), (proj2 (Z.eqb_neq j hi)).
Qed.

Lemma store_pair_quiet hi lo x d :
  hi <> DSP_ARAM_DMA_SIZE_LO -> lo <> DSP_ARAM_DMA_SIZE_LO ->
  transfers (store_pair hi lo x d) = transfers d.
Proof.
  intros Hh Hl. unfold store_pair, store. cbn [transfers].
  by rewrite (proj2 (Z.eqb_neq lo _)), (proj2 (Z.eqb_neq hi _)).
Qed.

(** The whole programming sequence, [dir] being what is put in the direction
    bit's register. *)
Definition program (dir : Z -> Z) (mm ar len : Z) (d : dsp) : dsp :=
  let d := store_pair DSP_ARAM_DMA_MM_HI DSP_ARAM_DMA_MM_LO mm d in
  let d := store_pair DSP_ARAM_DMA_ARAM_HI DSP_ARAM_DMA_ARAM_LO ar d in
  let d := store DSP_ARAM_DMA_SIZE_HI (dir (regs d DSP_ARAM_DMA_SIZE_HI)) d in
  store_pair DSP_ARAM_DMA_SIZE_HI DSP_ARAM_DMA_SIZE_LO len d.

Lemma program_spec dir mm ar len to_mram d :
  engine_word mm -> engine_word ar -> engine_word len -> len < 2 ^ 31 ->
  (forall r, Z.testbit (dir r) 15 = to_mram) ->
  transfers (program dir mm ar len d)
  = transfers d ++ [mk_transfer to_mram (mm mod 2 ^ 26) (ar mod 2 ^ 26) (len mod 2 ^ 26)].
Proof.
  intros Hm Ha Hl Hl31 Hdir. unfold program.
  set (d1 := store_pair _ _ mm d). set (d2 := store_pair _ _ ar d1).
  set (d3 := store _ (dir _) d2). set (d4 := store DSP_ARAM_DMA_SIZE_HI
    (merge (regs d3 DSP_ARAM_DMA_SIZE_HI) 0x3ff (Z.shiftr len 16)) d3).
  assert (Et : transfers d4 = transfers d).
  { change (transfers d4) with (transfers d2). unfold d2, d1. by rewrite !store_pair_quiet. }
  change (transfers (store_pair DSP_ARAM_DMA_SIZE_HI DSP_ARAM_DMA_SIZE_LO len d3))
    with (transfers d4 ++ [engine_reads (regs (store_pair DSP_ARAM_DMA_SIZE_HI DSP_ARAM_DMA_SIZE_LO len d3))]).
  rewrite Et. do 2 f_equal. unfold engine_reads.
  assert (Hd3 : forall j, j <> DSP_ARAM_DMA_SIZE_HI -> regs d3 j = regs d2 j)
    by (intros j Hj; by apply store_other).
  assert (Hs3 : Z.testbit (regs d3 DSP_ARAM_DMA_SIZE_HI) 15 = to_mram).
  { change (Z.testbit (u16 (dir (regs d2 DSP_ARAM_DMA_SIZE_HI))) 15 = to_mram). unfold u16.
    rewrite Z.mod_pow2_bits_low by lia. apply Hdir. }
  f_equal.
  - rewrite store_pair_hi, merge_top by (done || (split; [apply Hl|done])). done.
  - rewrite !store_pair_ne, !Hd3 by done. unfold d2. rewrite !store_pair_ne by done.
    unfold d1. rewrite store_pair_hi, store_pair_lo by done. by eapply pair_spec.
  - rewrite !store_pair_ne, !Hd3 by done. unfold d2.
    rewrite store_pair_hi, store_pair_lo by done. by eapply pair_spec.
  - rewrite store_pair_hi, store_pair_lo by done. by eapply pair_spec.
Qed.

(** Whatever the registers held before, each of the three programming
    routines starts exactly one transfer, with the direction, the two addresses
    (their 26 address bits) and the length it was given, provided they are the
    multiples of 32 bytes the engine works in. *)
Theorem ar_programs_engine mm ar len type status rest d :
  engine_word mm -> engine_word ar -> engine_word len -> len < 2 ^ 31 -> type = 0 \/ type = 1 ->
  ARWaitForDMA status = Some rest ->
  let one to_mram := transfers d
    ++ [mk_transfer to_mram (mm mod 2 ^ 26) (ar mod 2 ^ 26) (len mod 2 ^ 26)] in
  transfers (ARStartDMA type mm ar len d) = one (type =? 1)
  /\ (exists d', ARWriteDMA mm ar len status d = Some d' /\ transfers d' = one false)
  /\ (exists d', ARReadDMA mm ar len status d = Some d' /\ transfers d' = one true).
Proof.
  intros Hm Ha Hl Hl31 Ht Hs one. unfold ARWriteDMA, ARReadDMA. rewrite Hs. cbn [mbind option_bind].
  split; [|split; eexists; (split; [reflexivity|])].
  - apply (program_spec (fun r => Z.lor (Z.land r (Z.lnot 0x8000)) (u32 (Z.shiftl type 15)))); try done.
    intros r. rewrite Z.lor_spec, Z.land_spec, Z.lnot_spec by lia.
    change (Z.testbit 0x8000 15) with true. rewrite andb_false_r. by destruct Ht as [-> | ->].
  - apply (program_spec (fun r => Z.land r (Z.lnot 0x8000))); try done.
    intros r. rewrite Z.land_spec, Z.lnot_spec by lia. apply andb_false_r.
  - apply (program_spec (fun r => Z.lor r 0x8000)); try done.
    intros r. rewrite Z.lor_spec. apply orb_true_r.
Qed.

Lemma ar_programs_engine_witness :
  transfers (ARStartDMA 0 0x80300000 0x4000 4096 (mk_dsp (fun _ => 0xFFFF) []))
  = [mk_transfer false 0x300000 0x4000 4096].
Proof.
  destruct (ar_programs_engine 0x80300000 0x4000 4096 0 [0] [] (mk_dsp (fun _ => 0xFFFF) []))
    as [E _]; try (split; [split; vm_compute; congruence|reflexivity]);
    [reflexivity|left; reflexivity|reflexivity|exact E].
Defined.
