(* ===== verification/SsAram.v ===== *)
(** Main memory to auxiliary RAM and back (src/cubeboot/source/boot/ssaram.c).

    The DMA engine moves whole 32-byte lines between line addresses; [ARAMPut]
    takes any address and length, through a buffer of 2 KiB.  The routines that
    program the engine store the same words into the same registers in the same
    order as those of the ARAM driver (Ar.v). *)

From S2P Require Import Prelude Mem Bits Ar.
#[local] Open Scope prog_scope.

(** The low 26 bits of a cached address are what the engine sees. *)
Definition virtual (p : Z) : Z := 0x80000000 + p.

Record ss_state := mk_ss { ss_mem : Z -> Z; ss_aram : Z -> Z; ss_dsp : dsp }.
Notation P := (M ss_state).
Definition set_ss_mem (m : Z -> Z) (s : ss_state) := mk_ss m (ss_aram s) (ss_dsp s).
Definition copy_mem (dst src : Z) (n : nat) (s : ss_state) : ss_state :=
  set_ss_mem (store_mem dst (load_mem src n (ss_mem s)) (ss_mem s)) s.

(** What the engine does when it is told to. *)
Definition do_transfer (s : ss_state) (t : transfer) : ss_state :=
  let n := Z.to_nat (tr_length t) in
  if tr_to_mram t
  then mk_ss (store_mem (virtual (tr_mram t)) (load_mem (tr_aram t) n (ss_aram s)) (ss_mem s)) (ss_aram s) (ss_dsp s)
  else mk_ss (ss_mem s) (store_mem (tr_aram t) (load_mem (virtual (tr_mram t)) n (ss_mem s)) (ss_aram s)) (ss_dsp s).
Definition run_engine (d : dsp) (s : ss_state) : ss_state :=
  fold_left do_transfer (drop (length (transfers (ss_dsp s))) (transfers d)) (mk_ss (ss_mem s) (ss_aram s) d).

Section SsAram.
(** What reading the status register gives after a start; the address of the
    2 KiB buffer. *)
Context (polls : dsp -> list Z) (aramfix : Z).

Definition ss_ARReadDMA (memaddr aramaddr len : Z) : P unit :=
  s <- get ;;
  d <- of_option (ARReadDMA memaddr aramaddr len (polls (ss_dsp s)) (ss_dsp s)) ;;
  put (run_engine d s).
Definition ss_ARWriteDMA (memaddr aramaddr len : Z) : P unit :=
  s <- get ;;
  d <- of_option (ARWriteDMA memaddr aramaddr len (polls (ss_dsp s)) (ss_dsp s)) ;;
  put (run_engine d s).

Definition ARAMFetch (dst src len : Z) : P unit := ss_ARReadDMA dst src len.

(** [memcpy(aramfix + to, src, n)]. *)
Definition fill_fix (to src : Z) (n : Z) : P unit := modify (copy_mem (aramfix + to) src (Z.to_nat n)).

Definition line (a : Z) : Z := Z.land a (Z.lnot 0x1f).

(** The blocks of 2 KiB; the offset after them. *)
Fixpoint put_blocks (rounds : nat) (src dst offset : Z) : P Z :=
  match rounds with
  | O => ret offset
  | S rounds =>
      fill_fix 0 (src + offset) 2048 ;;
      ss_ARWriteDMA aramfix (dst + offset) 2048 ;;
      put_blocks rounds src dst (offset + 2048)
  end.
(** What is left: whole lines, then a part of one. *)
Definition put_rest (src dst offset len : Z) : P unit :=
  let len := Z.land len 0x7ff in
  if len =? 0 then ret tt
  else
    let block := Z.land len 0x1f in
    fill_fix 0 (src + offset) (line len) ;;
    ss_ARWriteDMA aramfix (dst + offset) (line len) ;;
    if block =? 0 then ret tt
    else
      let offset := offset + line len in
      ARAMFetch aramfix (dst + offset) 32 ;;
      fill_fix 0 (src + offset) block ;;
      ss_ARWriteDMA aramfix (dst + offset) 32.
Definition put_aligned (src dst len : Z) : P unit :=
  offset <- put_blocks (Z.to_nat (Z.shiftr len 11)) src dst 0 ;;
  put_rest src dst offset len.
Definition ARAMPut (src dst len : Z) : P unit :=
  let misalignedbytes := Z.land dst 0x1f in
  if negb (misalignedbytes =? 0) then
    let todo := 32 - misalignedbytes in
    ARAMFetch aramfix (line dst) 32 ;;
    fill_fix misalignedbytes src todo ;;
    ss_ARWriteDMA aramfix (line dst) 32 ;;
    put_aligned (src + todo) (line dst + 32) (len - todo)
  else put_aligned src dst len.

(** [ARAMClear] with its zeroed buffer at [buffer]. *)
Fixpoint clear_rounds (fuel : nat) (buffer i stop : Z) : P unit :=
  if i >=? stop then ret tt
  else match fuel with
       | O => spin
       | S fuel => ARAMPut buffer i 2048 ;; clear_rounds fuel buffer (i + 2048) stop
       end.
Definition ARAMClear (buffer start length : Z) : P unit :=
  modify (fun s => set_ss_mem (zero_mem buffer 2048 (ss_mem s)) s) ;;
  let stop := u32 (0x1000000 - length) in
  clear_rounds (Z.to_nat ((stop - start) / 2048 + 1)) buffer start stop.
End SsAram.
