(* ===== verification/SsAramThms.v ===== *)
(** [ARAMPut] puts exactly the bytes it is given exactly where it is told. *)

From S2P Require Import Prelude Mem Bits Ar SsAram.
#[local] Open Scope prog_scope.

Lemma wp_bind_assoc_2 {W A B C D} (m : M W A) (k : A -> M W B) (l : B -> M W C) (r : C -> M W D) Q w :
  wp (bind (bind m (fun a => bind (k a) l)) r) Q w ->
  wp (bind m (fun a => bind (k a) (fun b => bind (l b) r))) Q w.
Proof.
  unfold wp, bind. destruct (m w) as [[a w1]|]; [|done]. by destruct (k a w1) as [[b w2]|].
Qed.

Section Engine.
Context (polls : dsp -> list Z).
Hypothesis polls_end : forall d, is_Some (ARWaitForDMA (polls d)).

(** Where RAM and the engine's addresses meet. *)
Lemma virtual_mod x : 0x80000000 <= x < 0x80000000 + 2 ^ 26 -> virtual (x mod 2 ^ 26) = x.
Proof. unfold virtual. intros. zdm. Qed.

Lemma write_dma_ok mm ar n s : 0x80000000 <= mm < 0x80000000 + 2 ^ 26 -> mm mod 32 = 0 ->
  0 <= ar < 2 ^ 26 -> ar mod 32 = 0 -> 0 <= n < 2 ^ 26 -> n mod 32 = 0 ->
  wp (ss_ARWriteDMA polls mm ar n) (fun _ s' => ss_mem s' = ss_mem s /\
    ss_aram s' = store_mem ar (load_mem mm (Z.to_nat n) (ss_mem s)) (ss_aram s)) s.
Proof.
  intros Hm Hm4 Ha Ha4 Hn Hn4. unfold ss_ARWriteDMA. apply wp_bind, wp_get, wp_bind.
  destruct (polls_end (ss_dsp s)) as [rest Hs].
  unfold wp at 1, of_option, ARWriteDMA. rewrite Hs. cbn [mbind option_bind].
  apply wp_put. unfold run_engine.
  pose proof (program_spec (fun r => Z.land r (Z.lnot 0x8000)) mm ar n false (ss_dsp s)) as E.
  unfold program in E.
  match goal with |- context [transfers (ARClearInterrupt ?d)] =>
    change (transfers (ARClearInterrupt d)) with (transfers d); rewrite E end.
  - rewrite drop_app_length. cbn [fold_left do_transfer tr_to_mram tr_mram tr_aram tr_length ss_mem ss_aram].
    rewrite virtual_mod, (Z.mod_small ar), (Z.mod_small n) by lia. done.
  - split; lia.
  - split; lia.
  - split; lia.
  - lia.
  - intros r. rewrite Z.land_spec, Z.lnot_spec by lia. apply andb_false_r.
Qed.

Lemma fetch_ok mm ar n s : 0x80000000 <= mm < 0x80000000 + 2 ^ 26 -> mm mod 32 = 0 ->
  0 <= ar < 2 ^ 26 -> ar mod 32 = 0 -> 0 <= n < 2 ^ 26 -> n mod 32 = 0 ->
  wp (ARAMFetch polls mm ar n) (fun _ s' => ss_aram s' = ss_aram s /\
    ss_mem s' = store_mem mm (load_mem ar (Z.to_nat n) (ss_aram s)) (ss_mem s)) s.
Proof.
  intros Hm Hm4 Ha Ha4 Hn Hn4. unfold ARAMFetch, ss_ARReadDMA. apply wp_bind, wp_get, wp_bind.
  destruct (polls_end (ss_dsp s)) as [rest Hs].
  unfold wp at 1, of_option, ARReadDMA. rewrite Hs. cbn [mbind option_bind].
  apply wp_put. unfold run_engine.
  pose proof (program_spec (fun r => Z.lor r 0x8000) mm ar n true (ss_dsp s)) as E.
  unfold program in E.
  match goal with |- context [transfers (ARClearInterrupt ?d)] =>
    change (transfers (ARClearInterrupt d)) with (transfers d); rewrite E end.
  - rewrite drop_app_length. cbn [fold_left do_transfer tr_to_mram tr_mram tr_aram tr_length ss_mem ss_aram].
    rewrite virtual_mod, (Z.mod_small ar), (Z.mod_small n) by lia. done.
  - split; lia.
  - split; lia.
  - split; lia.
  - lia.
  - intros r. rewrite Z.lor_spec. apply orb_true_r.
Qed.

End Engine.

Section Put.
Context (polls : dsp -> list Z) (fix_ : Z).
Hypothesis polls_end : forall d, is_Some (ARWaitForDMA (polls d)).
Hypothesis fix_line : fix_ mod 32 = 0.
Hypothesis fix_ram : 0x80000000 <= fix_ /\ fix_ + 2048 <= 0x80000000 + 2 ^ 26.

Definition in_fix (x : Z) : Prop := fix_ <= x < fix_ + 2048.
(** [n] bytes from [src] have got to [dst], and only the buffer has changed. *)
Definition put_to (src dst n : Z) (s s' : ss_state) : Prop :=
  (forall a, ss_aram s' a = if decide (dst <= a < dst + n) then ss_mem s (src + (a - dst)) else ss_aram s a) /\
  (forall x, ~ in_fix x -> ss_mem s' x = ss_mem s x).
(** The source is not in the buffer. *)
Definition source_ok (src n : Z) : Prop := src + n <= fix_ \/ fix_ + 2048 <= src.

Lemma put_to_0 src dst s s' : (forall a, ss_aram s' a = ss_aram s a) ->
  (forall x, ~ in_fix x -> ss_mem s' x = ss_mem s x) -> put_to src dst 0 s s'.
Proof. intros Ha Hm. split; [|done]. intros a. rewrite Ha. case_decide; [lia|done]. Qed.

Lemma put_to_app src dst n k s1 s2 s3 : 0 <= n -> 0 <= k -> source_ok src (n + k) ->
  put_to src dst n s1 s2 -> put_to (src + n) (dst + n) k s2 s3 -> put_to src dst (n + k) s1 s3.
Proof.
  intros Hn Hk Hs [A1 M1] [A2 M2]. split.
  - intros a. rewrite A2. repeat case_decide; try lia.
    + rewrite M1; [f_equal; lia|]. unfold in_fix, source_ok in *. lia.
    + rewrite A1. rewrite decide_True by lia. done.
    + rewrite A1. by rewrite decide_False by lia.
  - intros x Hx. by rewrite M2, M1.
Qed.

Lemma load_mem_nth a n m i : (i < n)%nat -> nth i (load_mem a n m) 0 = m (a + Z.of_nat i).
Proof.
  intros Hi. apply nth_lookup_Some. unfold load_mem. rewrite list_lookup_fmap, lookup_seq_lt by done. done.
Qed.
Lemma copied_byte dst src n m m' x : 0 <= n ->
  store_mem dst (load_mem src (Z.to_nat n) m) m' x = if decide (dst <= x < dst + n) then m (src + (x - dst)) else m' x.
Proof.
  intros Hn. case_decide.
  - rewrite store_mem_in by (rewrite length_load_mem; lia). rewrite load_mem_nth by lia. f_equal. lia.
  - apply store_mem_out. rewrite length_load_mem. lia.
Qed.

(** Whole lines. *)
Lemma put_lines src dst n s : 0 <= n <= 2048 -> n mod 32 = 0 -> 0 <= dst < 2 ^ 26 -> dst mod 32 = 0 ->
  source_ok src n ->
  wp (bind (fill_fix fix_ 0 src n) (fun _ => ss_ARWriteDMA polls fix_ dst n)) (fun _ s' => put_to src dst n s s') s.
Proof.
  intros Hn Hn4 Hd Hd4 Hs. unfold fill_fix. apply wp_bind, wp_modify.
  eapply wp_mono; [apply (write_dma_ok _ polls_end); (done || lia)|]. intros _ s' [Em Ea]. split.
  - intros a. rewrite Ea, copied_byte by lia. case_decide; [|done].
    unfold copy_mem, set_ss_mem. cbn [ss_mem]. rewrite copied_byte by lia. rewrite decide_True by lia.
    f_equal. lia.
  - intros x Hx. rewrite Em. unfold copy_mem, set_ss_mem. cbn [ss_mem]. rewrite copied_byte by lia.
    rewrite decide_False; [done|]. unfold in_fix in Hx. lia.
Qed.

(** A part of a line: fetched, changed, put back. *)
Lemma put_part src dst k n s : 0 <= k -> 0 <= n -> k + n <= 32 -> 0 <= dst < 2 ^ 26 -> dst mod 32 = 0 ->
  source_ok src n ->
  wp (bind (ARAMFetch polls fix_ dst 32) (fun _ => bind (fill_fix fix_ k src n) (fun _ => ss_ARWriteDMA polls fix_ dst 32)))
    (fun _ s' => put_to src (dst + k) n s s') s.
Proof.
  intros Hk Hn Hkn Hd Hd4 Hs. apply wp_bind.
  eapply wp_mono; [apply (fetch_ok _ polls_end); (done || lia)|]. intros _ s1 [Ea1 Em1].
  unfold fill_fix. apply wp_bind, wp_modify.
  eapply wp_mono; [apply (write_dma_ok _ polls_end); (done || lia)|]. intros _ s' [Em Ea].
  assert (Hm : forall x, ss_mem s' x = if decide (fix_ + k <= x < fix_ + k + n) then ss_mem s (src + (x - (fix_ + k)))
    else if decide (fix_ <= x < fix_ + 32) then ss_aram s (dst + (x - fix_)) else ss_mem s x).
  { intros x. rewrite Em. unfold copy_mem, set_ss_mem. cbn [ss_mem]. rewrite copied_byte, Em1, !copied_byte by lia.
    case_decide; [|done]. rewrite decide_False; [done|]. unfold source_ok in Hs. lia. }
  split.
  - intros a. rewrite Ea, copied_byte by lia. rewrite <- Em, Hm.
    unfold copy_mem, set_ss_mem. cbn [ss_aram]. rewrite Ea1.
    repeat case_decide; try lia; try done; f_equal; lia.
  - intros x Hx. rewrite Hm. unfold in_fix in Hx. rewrite !decide_False by lia. done.
Qed.

Lemma put_blocks_ok n : forall src dst offset s, 0 <= offset -> offset mod 32 = 0 ->
  0 <= dst -> dst mod 32 = 0 -> dst + offset + 2048 * Z.of_nat n < 2 ^ 26 ->
  source_ok (src + offset) (2048 * Z.of_nat n) ->
  wp (put_blocks polls fix_ n src dst offset)
    (fun o s' => o = offset + 2048 * Z.of_nat n /\ put_to (src + offset) (dst + offset) (2048 * Z.of_nat n) s s') s.
Proof.
  induction n as [|n IH]; intros src dst offset s Ho Ho4 Hd Hd4 Hr Hs; cbn [put_blocks].
  { apply wp_ret. split; [lia|]. change (2048 * Z.of_nat 0) with 0. by apply put_to_0. }
  apply wp_bind_assoc, wp_bind.
  eapply wp_mono; [apply (put_lines (src + offset) (dst + offset) 2048)|].
  1-4: unfold source_ok in *; zdm.
  { unfold source_ok in *. lia. }
  intros ? s1 H1. eapply wp_mono; [apply IH|].
  1-5: zdm.
  { unfold source_ok in *. lia. }
  intros o s2 [-> H2]. split; [lia|].
  replace (2048 * Z.of_nat (S n)) with (2048 + 2048 * Z.of_nat n) by lia.
  apply (put_to_app _ _ _ _ s s1); [lia|lia| |done|].
  { unfold source_ok in *. lia. }
  by rewrite <- !Z.add_assoc.
Qed.

Lemma line_eq x : 0 <= x -> line x = x - x mod 32.
Proof.
  intros Hx. unfold line. change 0x1f with (Z.ones 5). rewrite <- Z.ldiff_land, Z.ldiff_ones_r by lia.
  rewrite Z.shiftl_mul_pow2, Z.shiftr_div_pow2 by lia. change (2 ^ 5) with 32. zdm.
Qed.
Lemma low_5 x : 0 <= x -> Z.land x 0x1f = x mod 32.
Proof. intros. exact (Z.land_ones x 5 ltac:(lia)). Qed.
Lemma low_11 x : 0 <= x -> Z.land x 0x7ff = x mod 2048.
Proof. intros. exact (Z.land_ones x 11 ltac:(lia)). Qed.

Lemma put_rest_ok src dst offset len s : 0 <= len -> 0 <= offset -> offset mod 32 = 0 ->
  0 <= dst -> dst mod 32 = 0 -> dst + offset + 2048 < 2 ^ 26 -> source_ok (src + offset) (len mod 2048) ->
  wp (put_rest polls fix_ src dst offset len)
    (fun _ s' => put_to (src + offset) (dst + offset) (len mod 2048) s s') s.
Proof.
  intros Hl Ho Ho4 Hd Hd4 Hr Hs. unfold put_rest. rewrite low_11 by lia. set (n := len mod 2048) in *.
  assert (0 <= n < 2048) by (unfold n; zdm). destruct (Z.eqb_spec n 0) as [->|Hn0].
  { apply wp_ret. by apply put_to_0. }
  rewrite low_5, line_eq by lia. set (k := n mod 32).
  assert (0 <= k < 32 /\ k <= n) by (unfold k; zdm).
  apply wp_bind_assoc, wp_bind.
  eapply wp_mono; [apply (put_lines (src + offset) (dst + offset) (n - k))|].
  1-4: unfold k; zdm.
  { unfold source_ok in *. lia. }
  intros ? s1 H1. destruct (Z.eqb_spec k 0) as [E|Hk].
  { apply wp_ret. by rewrite E, Z.sub_0_r in H1. }
  replace (src + (offset + (n - k))) with (src + offset + (n - k)) by lia.
  replace (dst + (offset + (n - k))) with (dst + offset + (n - k)) by lia.
  eapply wp_mono; [apply (put_part (src + offset + (n - k)) (dst + offset + (n - k)) 0 k)|].
  1-5: try (unfold k; zdm).
  { unfold source_ok in *. lia. }
  intros ? s2 H2. rewrite Z.add_0_r in H2. replace n with ((n - k) + k) by lia.
  by apply (put_to_app _ _ _ _ s s1); [lia|lia|replace (n - k + k) with n by lia| |].
Qed.

Lemma put_aligned_ok src dst len s : 0 <= len -> 0 <= dst -> dst mod 32 = 0 -> dst + len + 2048 < 2 ^ 26 ->
  source_ok src len -> wp (put_aligned polls fix_ src dst len) (fun _ s' => put_to src dst len s s') s.
Proof.
  intros Hl Hd Hd4 Hr Hs. unfold put_aligned. rewrite Z.shiftr_div_pow2 by lia. change (2 ^ 11) with 2048.
  set (b := Z.to_nat (len / 2048)). assert (Hb : len = 2048 * Z.of_nat b + len mod 2048) by (unfold b; rewrite Z2Nat.id; zdm).
  assert (0 <= len mod 2048 < 2048) by zdm.
  apply wp_bind. eapply wp_mono; [apply put_blocks_ok|].
  1-5: try lia; done.
  { unfold source_ok in *. lia. }
  rewrite !Z.add_0_r. intros o s1 [-> H1]. rewrite Z.add_0_l.
  eapply wp_mono; [apply put_rest_ok|].
  1-6: try lia; zdm.
  { unfold source_ok in *. lia. }
  intros ? s2 H2. rewrite Hb. apply (put_to_app _ _ _ _ s s1); try lia; try done.
  unfold source_ok in *. lia.
Qed.

(** Aligned or not; a first part that does not fill its line is excluded. *)
Lemma ARAMPut_ok src dst len s : 0 <= len -> 0 <= dst -> dst + len + 2048 < 2 ^ 26 ->
  dst mod 32 = 0 \/ 32 - dst mod 32 <= len -> source_ok src len ->
  wp (ARAMPut polls fix_ src dst len) (fun _ s' => put_to src dst len s s') s.
Proof.
  intros Hl Hd Hr Hfirst Hs. unfold ARAMPut. rewrite low_5, line_eq by lia. set (k := dst mod 32) in *.
  assert (0 <= k < 32 /\ k <= dst) by (unfold k; zdm). destruct (Z.eqb_spec k 0) as [E|Hk]; cbn [negb].
  { by apply put_aligned_ok. }
  assert (Hle : 32 - k <= len) by lia.
  apply wp_bind_assoc_2, wp_bind.
  eapply wp_mono; [apply (put_part src (dst - k) k (32 - k))|].
  1-5: try (unfold k; zdm).
  { unfold source_ok in *. lia. }
  intros ? s1 H1. eapply wp_mono; [apply put_aligned_ok|].
  1-4: try (unfold k; zdm).
  { unfold source_ok in *. lia. }
  intros ? s2 H2. replace (dst - k + k) with dst in H1 by lia.
  replace len with ((32 - k) + (len - (32 - k))) by lia.
  apply (put_to_app _ _ _ _ s s1); try lia; try done.
  { by replace (32 - k + (len - (32 - k))) with len by lia. }
  by replace (dst + (32 - k)) with (dst - k + 32) by lia.
Qed.
End Put.

(** C33. Unaligned blocks reach auxiliary RAM whole: although the engine only
    moves whole lines between line addresses, [ARAMPut] returns with exactly the
    [len] bytes of the source at [dst], every other byte of auxiliary RAM as it
    was, and main memory unchanged outside the 2 KiB buffer; at any address and
    length, provided the first line is filled when [dst] is inside one. *)
Theorem aram_put_exact (polls : dsp -> list Z) aramfix src dst len (s : ss_state)
    (Hpolls : forall d, is_Some (ARWaitForDMA (polls d)))
    (Hline : aramfix mod 32 = 0)
    (Hram : 0x80000000 <= aramfix /\ aramfix + 2048 <= 0x80000000 + 2 ^ 26)
    (Hlen : 0 <= len) (Hdst : 0 <= dst) (Hrange : dst + len + 2048 < 2 ^ 26)
    (Hfirst : dst mod 32 = 0 \/ 32 - dst mod 32 <= len)
    (Hsrc : src + len <= aramfix \/ aramfix + 2048 <= src) :
  exists s', ARAMPut polls aramfix src dst len s = Some (tt, s') /\
    (forall a, ss_aram s' a = if decide (dst <= a < dst + len) then ss_mem s (src + (a - dst)) else ss_aram s a) /\
    (forall x, ~ (aramfix <= x < aramfix + 2048) -> ss_mem s' x = ss_mem s x).
Proof.
  destruct (wp_elim _ _ _ (ARAMPut_ok polls aramfix Hpolls Hline Hram src dst len s Hlen Hdst Hrange Hfirst Hsrc))
    as ([] & s' & E & H). by exists s'.
Qed.

(** A block of 40 bytes put across three lines. *)
Lemma aram_put_exact_witness : exists s',
  ARAMPut (fun _ => [0x200; 0]) 0x80400000 0x80500000 0x1010 40
    (mk_ss (fun x => x mod 256) (fun _ => 9) (mk_dsp (fun _ => 0) [])) = Some (tt, s') /\
  load_mem 0x100f 42 (ss_aram s') = 9 :: (Z.of_nat <$> seq 0 40) ++ [9].
Proof.
  destruct (aram_put_exact (fun _ => [0x200; 0]) 0x80400000 0x80500000 0x1010 40
    (mk_ss (fun x => x mod 256) (fun _ => 9) (mk_dsp (fun _ => 0) []))) as (s' & E & Ha & _).
  - intros d. by eexists.
  - reflexivity.
  - lia.
  - lia.
  - lia.
  - lia.
  - right. apply Z.leb_le. reflexivity.
  - right. lia.
  - exists s'. split; [exact E|].
    rewrite (load_mem_ext _ _ _ _ (fun x _ => Ha x)). vm_compute. reflexivity.
Defined.

(** A block that does not fill its first line reaches far beyond its end: with
    4 bytes, the whole rest of the line and the 2028 bytes after it. *)
Example aram_put_overrun :
  match ARAMPut (fun _ => [0]) 0x80400000 0x80500000 0x1008 4
          (mk_ss (fun _ => 1) (fun _ => 9) (mk_dsp (fun _ => 0) [])) with
  | Some (_, s) => load_mem 0x1006 4 (ss_aram s) = [9; 9; 1; 1] /\
                   load_mem 0x100c 4 (ss_aram s) = [1; 1; 1; 1] /\
                   load_mem 0x180a 4 (ss_aram s) = [1; 1; 9; 9]
  | None => False
  end.
Proof. vm_compute. auto. Qed.
