(* ===== verification/BnrCache.v ===== *)
(** The banner cache of [emu/tweaks.c] (IPL build): 1024 slots reused in turn,
    each owning a fixed place in ARAM, looked up by a hash of the file's path.

    Storing and loading go through the ARAM queue and wait for its callback;
    here they are the copies that the queue's theorems say they are. *)

From S2P Require Import Prelude.

Definition BNR_CACHE_SIZE : nat := 1024.
(** [sizeof(BNR)]. *)
Definition BNR_SIZE : nat := Z.to_nat (4 + 0x1C + 96 * 32 * 2 + 6 * 0x140).
Definition ARAM_SIZE : Z := 16 * 1024 * 1024.

Record bnr_cache_entry := mk_entry { e_key : Z; aram_offset : Z; valid : bool }.

Record bnr_state := mk_bnr {
  bnr_cache : list bnr_cache_entry;
  bnr_cache_next_index : nat;
  aram : Z -> Z
}.

(** [bnr_cache_store] and [bnr_cache_load]. *)
Definition bnr_cache_store (bnr : list Z) (off : Z) (m : Z -> Z) : Z -> Z := fun a =>
  if (off <=? a) && (a <? off + Z.of_nat BNR_SIZE) then nth (Z.to_nat (a - off)) bnr 0 else m a.
Definition bnr_cache_load (off : Z) (m : Z -> Z) : list Z :=
  (fun i => m (off + Z.of_nat i)) <$> seq 0 BNR_SIZE.

(** The scan of both entry points: the first valid entry with the key. *)
Fixpoint bnr_find (key : Z) (es : list bnr_cache_entry) : option bnr_cache_entry :=
  match es with
  | [] => None
  | e :: es => if valid e && (e_key e =? key) then Some e else bnr_find key es
  end.

(** The banner a hit loads. *)
Definition bnr_cache_get (key : Z) (w : bnr_state) : option (list Z) :=
  match bnr_find key (bnr_cache w) with
  | Some e => Some (bnr_cache_load (aram_offset e) (aram w))
  | None => None
  end.

Definition slot_offset (i : nat) : Z := ARAM_SIZE - Z.of_nat BNR_SIZE * (Z.of_nat i + 1).

Definition bnr_cache_put (key : Z) (bnr : list Z) (w : bnr_state) : bnr_state :=
  match bnr_find key (bnr_cache w) with
  | Some _ => w
  | None =>
      let i := bnr_cache_next_index w in
      mk_bnr (<[i := mk_entry key (slot_offset i) true]> (bnr_cache w))
        ((i + 1) mod BNR_CACHE_SIZE)
        (bnr_cache_store bnr (slot_offset i) (aram w))
  end.

(** The statics at start. *)
Definition bnr_start (m : Z -> Z) : bnr_state :=
  mk_bnr (replicate BNR_CACHE_SIZE (mk_entry 0 0 false)) 0 m.

(** ** The cache as a queue

    What the cache promises: the banners put, oldest first, at most 1024 of
    them, a key never twice. *)

Definition queue_find (key : Z) (q : list (Z * list Z)) : option (list Z) :=
  snd <$> find (fun e => e.1 =? key) q.

Definition queue_put (key : Z) (bnr : list Z) (q : list (Z * list Z)) : list (Z * list Z) :=
  match queue_find key q with
  | Some _ => q
  | None => (if decide (length q < BNR_CACHE_SIZE)%nat then q else drop 1 q) ++ [(key, bnr)]
  end.

Lemma bnr_size : Z.of_nat BNR_SIZE = 8096.
Proof. done. Qed.
#[local] Opaque BNR_SIZE.

(** ** Slots *)

Lemma load_store bnr off m :
  length bnr = BNR_SIZE -> bnr_cache_load off (bnr_cache_store bnr off m) = bnr.
Proof.
  intros Hl. unfold bnr_cache_load. apply list_eq. intros i. rewrite list_lookup_fmap.
  destruct (decide (i < BNR_SIZE)%nat) as [Hi|Hi].
  - rewrite lookup_seq_lt by done. cbn. unfold bnr_cache_store.
    rewrite (proj2 (Z.leb_le _ _)), (proj2 (Z.ltb_lt _ _)) by lia. cbn [andb].
    replace (Z.to_nat (off + Z.of_nat i - off)) with i by lia.
    destruct (lookup_lt_is_Some_2 bnr i) as [x Hx]; [lia|]. rewrite Hx.
    f_equal. by apply nth_lookup_Some.
  - rewrite lookup_seq_ge by lia. rewrite lookup_ge_None_2 by lia. done.
Qed.

Lemma load_store_other bnr i j m :
  i <> j -> bnr_cache_load (slot_offset i) (bnr_cache_store bnr (slot_offset j) m)
            = bnr_cache_load (slot_offset i) m.
Proof.
  intros Hij. unfold bnr_cache_load. apply list_fmap_ext. intros k x Hk.
  apply lookup_seq in Hk as [-> Hk]. unfold bnr_cache_store, slot_offset in *.
  destruct (_ && _) eqn:E; [|done]. apply andb_prop in E as [E1%Z.leb_le E2%Z.ltb_lt].
  rewrite bnr_size in *. pose proof bnr_size. nia.
Qed.

(** The slot of the [j]-th oldest banner, [n] being held and [i] next. *)
Definition slot_of (n i j : nat) : nat :=
  if decide (n < BNR_CACHE_SIZE)%nat then j else ((i + j) mod BNR_CACHE_SIZE)%nat.

(** Slot [s] holds the banner [e]. *)
Definition slot_holds (w : bnr_state) (s : nat) (e : Z * list Z) : Prop :=
  bnr_cache w !! s = Some (mk_entry e.1 (slot_offset s) true)
  /\ bnr_cache_load (slot_offset s) (aram w) = e.2.

Record cache_repr (w : bnr_state) (q : list (Z * list Z)) : Prop := {
  c_slots : length (bnr_cache w) = BNR_CACHE_SIZE;
  c_len : (length q <= BNR_CACHE_SIZE)%nat;
  c_next : (bnr_cache_next_index w < BNR_CACHE_SIZE)%nat
           /\ ((length q < BNR_CACHE_SIZE)%nat -> bnr_cache_next_index w = length q);
  c_free : forall s, (length q <= s < BNR_CACHE_SIZE)%nat ->
             exists e, bnr_cache w !! s = Some e /\ valid e = false;
  c_holds : forall j e, q !! j = Some e ->
             slot_holds w (slot_of (length q) (bnr_cache_next_index w) j) e;
  c_keys : NoDup q.*1
}.

Lemma slot_of_mod n i j :
  (BNR_CACHE_SIZE <= n)%nat -> slot_of n i j = ((i + j) mod BNR_CACHE_SIZE)%nat.
Proof. intros. unfold slot_of. by rewrite decide_False by lia. Qed.

(** Every slot belongs to some banner once the cache is full. *)
Lemma slot_of_full i s :
  (i < BNR_CACHE_SIZE)%nat -> (s < BNR_CACHE_SIZE)%nat ->
  exists j, (j < BNR_CACHE_SIZE)%nat /\ slot_of BNR_CACHE_SIZE i j = s.
Proof.
  intros Hi Hs. destruct (decide (i <= s)%nat).
  - exists (s - i)%nat. split; [lia|]. rewrite slot_of_mod by lia. rewrite Nat.mod_small by lia. lia.
  - exists (s + BNR_CACHE_SIZE - i)%nat. split; [lia|]. rewrite slot_of_mod by lia.
    replace (i + (s + BNR_CACHE_SIZE - i))%nat with (s + 1 * BNR_CACHE_SIZE)%nat by lia.
    rewrite Nat.Div0.mod_add. by apply Nat.mod_small.
Qed.

(** A valid entry of the table is a banner of the queue, in its slot. *)
Lemma slot_owner w q s e :
  cache_repr w q -> bnr_cache w !! s = Some e -> valid e = true ->
  exists b, (e_key e, b) ∈ q /\ bnr_cache_load (aram_offset e) (aram w) = b.
Proof.
  intros R Hs Hv. pose proof (lookup_lt_Some _ _ _ Hs) as Hlt. rewrite (c_slots _ _ R) in Hlt.
  assert (Hj : exists j, (j < length q)%nat /\ slot_of (length q) (bnr_cache_next_index w) j = s).
  { destruct (decide (length q < BNR_CACHE_SIZE)%nat) as [Hl|Hl].
    - exists s. unfold slot_of. rewrite decide_True by done. split; [|done].
      destruct (decide (s < length q)%nat); [done|].
      destruct (c_free _ _ R s ltac:(lia)) as (e' & He' & Hv'). congruence.
    - pose proof (c_len _ _ R). replace (length q) with BNR_CACHE_SIZE by lia.
      apply slot_of_full; [apply R|done]. }
  destruct Hj as (j & Hj & <-). destruct (lookup_lt_is_Some_2 q j Hj) as [[k b] Hq].
  destruct (c_holds _ _ R j _ Hq) as [He Hb]. rewrite Hs in He. injection He as ->.
  exists b. split; [by eapply list_elem_of_lookup_2|done].
Qed.

Lemma bnr_find_Some key es e :
  bnr_find key es = Some e -> e ∈ es /\ valid e = true /\ e_key e = key.
Proof.
  induction es as [|x es IH]; cbn [bnr_find]; [done|]. destruct (valid x && _) eqn:E.
  - intros [= ->]. apply andb_prop in E as [? ?%Z.eqb_eq]. split; [by left|done].
  - intros Hf. destruct (IH Hf) as (? & ?). split; [by right|done].
Qed.

Lemma bnr_find_None key es e : bnr_find key es = None -> e ∈ es -> valid e = true -> e_key e <> key.
Proof.
  induction es as [|x es IH]; cbn [bnr_find]; intros Hf He Hv; [by apply elem_of_nil in He|].
  destruct (valid x && _) eqn:E; [done|]. apply elem_of_cons in He as [->|He]; [|by apply IH].
  rewrite Hv in E. cbn in E. by apply Z.eqb_neq in E.
Qed.

Lemma queue_find_Some key q b :
  NoDup q.*1 -> queue_find key q = Some b <-> (key, b) ∈ q.
Proof.
  intros Hnd. unfold queue_find. induction q as [|[k c] q IH]; cbn.
  - split; [done|]. by intros ?%elem_of_nil.
  - cbn in Hnd. apply NoDup_cons in Hnd as [Hk Hnd]. rewrite elem_of_cons.
    destruct (Z.eqb_spec k key) as [->|Hne]; cbn.
    + split; [intros [= <-]; by left|]. intros [[= ->]|Hin]; [done|].
      destruct Hk. by apply (list_elem_of_fmap_2 fst) in Hin.
    + rewrite IH by done. split; [by right|]. intros [[= ? ?]|?]; [congruence|done].
Qed.

(** ** Lookups *)

Lemma find_agrees w q key :
  cache_repr w q -> bnr_cache_get key w = queue_find key q.
Proof.
  intros R. unfold bnr_cache_get. destruct (bnr_find key (bnr_cache w)) as [e|] eqn:E.
  - destruct (bnr_find_Some _ _ _ E) as (He & Hv & <-).
    apply list_elem_of_lookup_1 in He as [s Hs].
    destruct (slot_owner w q s e R Hs Hv) as (b & Hb & <-). symmetry.
    apply queue_find_Some; [apply R|done].
  - destruct (queue_find key q) as [b|] eqn:Eq; [|done]. exfalso.
    apply queue_find_Some in Eq; [|apply R]. apply list_elem_of_lookup_1 in Eq as [j Hj].
    destruct (c_holds _ _ R j _ Hj) as [He _].
    by apply (bnr_find_None _ _ _ E (list_elem_of_lookup_2 _ _ _ He)).
Qed.

Lemma find_none w q key :
  cache_repr w q -> bnr_find key (bnr_cache w) = None <-> queue_find key q = None.
Proof.
  intros R. rewrite <- (find_agrees w q key R). unfold bnr_cache_get.
  by destruct (bnr_find key (bnr_cache w)).
Qed.

Lemma queue_find_key key q : queue_find key q = None -> key ∉ q.*1.
Proof.
  unfold queue_find. induction q as [|[k c] q IH]; cbn; [by intros _ ?%elem_of_nil|].
  destruct (Z.eqb_spec k key) as [|Hne]; [done|]. intros Hf [->|Hin]%elem_of_cons; [done|].
  by apply IH.
Qed.

(** ** Puts *)

(** Writing slot [s] keeps the banners of the others. *)
Lemma slot_holds_other w s s' e x b i :
  s <> s' -> slot_holds w s e ->
  slot_holds (mk_bnr (<[s' := x]> (bnr_cache w)) i (bnr_cache_store b (slot_offset s') (aram w))) s e.
Proof.
  intros Hne [He Hb]. split; cbn.
  - by rewrite list_lookup_insert_ne.
  - by rewrite load_store_other.
Qed.

Lemma put_agrees w q key bnr :
  cache_repr w q -> length bnr = BNR_SIZE ->
  cache_repr (bnr_cache_put key bnr w) (queue_put key bnr q).
Proof.
  intros R Hb. unfold bnr_cache_put, queue_put.
  destruct (bnr_find key (bnr_cache w)) as [e|] eqn:E.
  { destruct (queue_find key q) eqn:Eq; [done|]. apply (find_none w q key R) in Eq. congruence. }
  apply (find_none w q key R) in E. rewrite E. apply queue_find_key in E.
  destruct R as [Hs Hl [Hi Hn] Hf Hh Hk]. set (i := bnr_cache_next_index w) in *.
  set (w' := mk_bnr _ _ _).
  assert (Hnew : slot_holds w' i (key, bnr)).
  { split; cbn; [by rewrite list_lookup_insert_eq by lia|by apply load_store]. }
  case_decide as Hfull.
  - specialize (Hn Hfull). constructor; cbn [bnr_cache bnr_cache_next_index w'].
    + by rewrite length_insert.
    + rewrite length_app. cbn. lia.
    + rewrite length_app. cbn [length]. split; [apply Nat.mod_upper_bound; done|].
      intros Hlt. rewrite Nat.mod_small by lia. lia.
    + rewrite length_app. cbn [length]. intros s Hsr. rewrite list_lookup_insert_ne by lia.
      apply Hf. lia.
    + intros j e He. rewrite length_app. cbn [length].
      assert (Hjs : forall j, (j < length q)%nat -> slot_of (length q) i j = j)
        by (intros j' ?; unfold slot_of; by rewrite decide_True).
      assert (Hjs' : (j <= length q)%nat ->
        slot_of (length q + 1) ((i + 1) mod BNR_CACHE_SIZE) j = j).
      { intros Hj. unfold slot_of. case_decide; [done|].
        replace (i + 1)%nat with BNR_CACHE_SIZE by lia. rewrite Nat.Div0.mod_same.
        cbn [Nat.add]. apply Nat.mod_small. lia. }
      apply lookup_app_Some in He as [He|[Hj He]].
      * pose proof (lookup_lt_Some _ _ _ He). rewrite Hjs' by lia.
        apply slot_holds_other; [lia|]. rewrite <- (Hjs j) by done. by apply Hh.
      * destruct (j - length q)%nat eqn:Ej; [|done]. cbn in He. injection He as <-.
        replace j with (length q) in * by lia. rewrite Hjs' by lia. by rewrite <- Hn.
    + rewrite fmap_app. apply NoDup_app. split; [done|]. split; [|apply NoDup_singleton].
      intros x Hx ->%list_elem_of_singleton. done.
  - assert (Hq : length q = BNR_CACHE_SIZE) by lia.
    destruct q as [|[k0 b0] q]; [cbn in Hq; discriminate|]. cbn [drop]. rewrite drop_0.
    assert (Hlen : length (q ++ [(key, bnr)]) = BNR_CACHE_SIZE) by (rewrite length_app; cbn in *; lia).
    assert (Hbig : (2 <= BNR_CACHE_SIZE)%nat) by (unfold BNR_CACHE_SIZE; lia).
    constructor; rewrite ?Hlen; cbn [bnr_cache bnr_cache_next_index w'].
    + by rewrite length_insert.
    + lia.
    + split; [apply Nat.mod_upper_bound; done|lia].
    + intros s ?. lia.
    + intros j e He. pose proof (lookup_lt_Some _ _ _ He) as Hj. rewrite Hlen in Hj.
      assert (Hslot : forall j, (j < BNR_CACHE_SIZE)%nat ->
        slot_of BNR_CACHE_SIZE ((i + 1) mod BNR_CACHE_SIZE) j = ((i + S j) mod BNR_CACHE_SIZE)%nat).
      { intros j' _. rewrite slot_of_mod by lia. rewrite Nat.Div0.add_mod_idemp_l.
        f_equal. lia. }
      rewrite Hslot by done. apply lookup_app_Some in He as [He|[Hjl He]].
      * pose proof (lookup_lt_Some _ _ _ He) as Hjq. cbn in Hq.
        apply slot_holds_other.
        { intros Eq. assert (Hm : ((i + S j) mod BNR_CACHE_SIZE)%nat <> i); [|done].
          destruct (decide (i + S j < BNR_CACHE_SIZE)%nat).
          - rewrite Nat.mod_small by done. lia.
          - replace (i + S j)%nat with ((i + S j - BNR_CACHE_SIZE) + 1 * BNR_CACHE_SIZE)%nat by lia.
            rewrite Nat.Div0.mod_add, Nat.mod_small by lia. lia. }
        specialize (Hh (S j) e He). rewrite slot_of_mod in Hh by (cbn; lia). exact Hh.
      * cbn in Hq. destruct (j - length q)%nat eqn:Ej; [|done]. cbn in He. injection He as <-.
        replace (i + S j)%nat with (i + 1 * BNR_CACHE_SIZE)%nat by lia.
        rewrite Nat.Div0.mod_add, Nat.mod_small by lia. exact Hnew.
    + cbn in Hk, E. apply NoDup_cons in Hk as [_ Hk]. rewrite fmap_app. apply NoDup_app.
      split; [done|]. split; [|apply NoDup_singleton].
      intros x Hx ->%list_elem_of_singleton. apply E. by right.
Qed.

Lemma start_agrees m : cache_repr (bnr_start m) [].
Proof.
  constructor; cbn [bnr_cache bnr_cache_next_index bnr_start length].
  - apply length_replicate.
  - lia.
  - split; [unfold BNR_CACHE_SIZE; lia|done].
  - intros s Hs. exists (mk_entry 0 0 false). split; [|done]. apply lookup_replicate_2. lia.
  - done.
  - constructor.
Qed.

Definition put_all (ps : list (Z * list Z)) (w : bnr_state) : bnr_state :=
  foldl (fun w p => bnr_cache_put p.1 p.2 w) w ps.

(** C16. After any sequence of puts, a lookup finds exactly what the queue of the
    last 1024 distinct keys holds: the banner first put under the key, read back
    whole from its own place in ARAM, until 1024 other keys have come. *)
Theorem bnr_cache_is_queue m ps key :
  Forall (fun p => length p.2 = BNR_SIZE) ps ->
  bnr_cache_get key (put_all ps (bnr_start m))
  = queue_find key (foldl (fun q p => queue_put p.1 p.2 q) [] ps).
Proof.
  intros Hps. apply find_agrees. pose proof (start_agrees m) as R. revert R.
  generalize (bnr_start m) as w. generalize (@nil (Z * list Z)) as q.
  induction Hps as [|p ps Hp _ IH]; intros q w R; [done|]. cbn [foldl put_all].
  apply IH. by apply put_agrees.
Qed.

Lemma bnr_cache_is_queue_witness :
  bnr_cache_get 7 (put_all [(7, replicate BNR_SIZE 1); (8, replicate BNR_SIZE 2); (7, replicate BNR_SIZE 3)]
                     (bnr_start (fun _ => 0)))
  = Some (replicate BNR_SIZE 1).
Proof.
  rewrite (bnr_cache_is_queue (fun _ => 0) [(7, replicate BNR_SIZE 1); (8, replicate BNR_SIZE 2);
             (7, replicate BNR_SIZE 3)] 7).
  - reflexivity.
  - repeat constructor; apply length_replicate.
Defined.
