(* ===== verification/Ini.v ===== *)
(** The configuration parser (src/cubeboot/source/ini.c).

    [ini_load] copies the text of [config.ini] into a buffer with a NUL after
    it and cuts the buffer up in place: what separates two strings becomes
    NULs.  [ini_get] then walks the strings that are left.  The buffer is the
    list of its bytes, a pointer into it is an index, and every access is
    checked: outside the buffer the program has no run.  [ini->end] is the index
    of the final NUL, [ini->data] is 0. *)

From S2P Require Import Prelude CStr.

Open Scope prog_scope.

Definition chr_nul : Z := 0.
Definition chr_tab : Z := 9.
Definition chr_lf : Z := 10.
Definition chr_cr : Z := 13.
Definition chr_space : Z := 32.
Definition chr_quote : Z := 34.
Definition chr_semi : Z := 59.
Definition chr_eq : Z := 61.
Definition chr_open : Z := 91.
Definition chr_backslash : Z := 92.
Definition chr_close : Z := 93.

(** [*p] and [*p = c]. *)
Definition rd (p : nat) : M (list Z) Z := fun m => of_option (m !! p) m.
Definition wr (p : nat) (c : Z) : M (list Z) unit :=
  fun m => if decide (p < length m)%nat then Some (tt, <[p := c]> m) else None.

(** The library's [strlen(p)] and [strcspn(p, set)]: how many bytes precede
    the first NUL, or the first byte of [set] or NUL. *)
Fixpoint span_len (stop : Z -> bool) (l : list Z) : option nat :=
  match l with
  | [] => None
  | c :: l => if stop c then Some 0%nat else S <$> span_len stop l
  end.
Definition strlen (p : nat) : M (list Z) nat :=
  fun m => of_option (span_len (fun c => c =? 0) (drop p m)) m.
Definition strcspn (p : nat) (set : list Z) : M (list Z) nat :=
  fun m => of_option (span_len (fun c => bool_decide (c ∈ 0 :: set)) (drop p m)) m.

(** The C locale's [tolower]. *)
Definition tolower (c : Z) : Z := if (65 <=? c) && (c <=? 90) then c + 32 else c.

(** Case-insensitive string comparison, on the two strings without their
    terminators. *)
Fixpoint strcmpci (a b : list Z) : Z :=
  let d := tolower (hd 0 a) - tolower (hd 0 b) in
  match a, b with
  | _ :: a', _ :: b' => if d =? 0 then strcmpci a' b' else d
  | _, _ => d
  end.

(** Returns the next string in the split data. *)
Fixpoint skip_nuls (n : nat) (p : nat) : M (list Z) nat :=
  match n with
  | O => ret p
  | S n => c <- rd p ;; if c =? chr_nul then skip_nuls n (p + 1) else ret p
  end.
Definition next (end_ p : nat) : M (list Z) nat :=
  n <- strlen p ;; skip_nuls (end_ - (p + n)) (p + n).

Definition is_blank (c : Z) : bool := (c =? chr_space) || (c =? chr_tab) || (c =? chr_cr).

(** [trim_back(ini, p - 1)]: the argument is one past the C pointer. *)
Fixpoint trim_back (p : nat) : M (list Z) unit :=
  match p with
  | O => ret tt
  | S p => c <- rd p ;; if is_blank c then wr p chr_nul ;; trim_back p else ret tt
  end.

(** [discard_line]: at most [end_ - p] rounds. *)
Fixpoint discard_rounds (n : nat) (p : nat) : M (list Z) nat :=
  match n with
  | O => ret p
  | S n => c <- rd p ;;
      if c =? chr_lf then ret p else wr p chr_nul ;; discard_rounds n (p + 1)
  end.
Definition discard_line (end_ p : nat) : M (list Z) nat := discard_rounds (end_ - p) p.

(** What an escape stands for, [None] where it ends the value. *)
Definition escape (c : Z) : option Z :=
  if c =? 114 then Some chr_cr
  else if c =? 110 then Some chr_lf
  else if c =? 116 then Some chr_tab
  else if (c =? chr_cr) || (c =? chr_lf) || (c =? chr_nul) then None
  else Some c.

(** The loop of [unescape_quoted_value]: [q] is the write head, [p] the read
    head.  Every round moves [p], so [end_ - p] rounds are enough. *)
Fixpoint unescape_rounds (n : nat) (end_ q p : nat) : M (list Z) nat :=
  if (end_ <=? p)%nat then ret q else
  match n with
  | O => spin
  | S n =>
      c <- rd p ;;
      if (c =? chr_quote) || (c =? chr_cr) || (c =? chr_lf) then ret q
      else if c =? chr_backslash then
        e <- rd (p + 1) ;;
        match escape e with
        | Some x => wr q x ;; unescape_rounds n end_ (q + 1) (p + 2)
        | None => ret q
        end
      else wr q c ;; unescape_rounds n end_ (q + 1) (p + 1)
  end.
Definition unescape_quoted_value (end_ p : nat) : M (list Z) nat :=
  unescape_rounds (end_ - (p + 1)) end_ p (p + 1).

(** The [do]-[while] that replaces the equals sign and the blanks after it; it
    ends at the final NUL at the latest. *)
Fixpoint blank_after (n : nat) (p : nat) : M (list Z) nat :=
  match n with
  | O => spin
  | S n =>
      wr p chr_nul ;;
      c <- rd (p + 1) ;;
      if is_blank c then blank_after n (p + 1) else ret (p + 1)%nat
  end.

(** The [default] case of [split_data]: a line that starts at [line_start]. *)
Definition split_value (end_ line_start p : nat) : M (list Z) nat :=
  c <- rd p ;;
  if (c =? chr_lf) || (c =? chr_nul) then discard_line end_ line_start
  else if c =? chr_quote then
    q <- unescape_quoted_value end_ p ;;
    if (q =? p)%nat then discard_line end_ line_start
    else discard_line end_ q
  else
    n <- strcspn p [chr_lf] ;;
    trim_back (p + n) ;;
    ret (p + n)%nat.
Definition split_line (end_ line_start : nat) : M (list Z) nat :=
  n <- strcspn line_start [chr_eq; chr_lf] ;;
  let p := (line_start + n)%nat in
  c <- rd p ;;
  if negb (c =? chr_eq) then discard_line end_ line_start
  else
    trim_back p ;;
    p <- blank_after (end_ - p) p ;;
    split_value end_ line_start p.

(** One round of [split_data]'s loop. *)
Definition split_step (end_ p : nat) : M (list Z) nat :=
  c <- rd p ;;
  if (c =? chr_cr) || (c =? chr_lf) || (c =? chr_tab) || (c =? chr_space) then
    wr p chr_nul ;; ret (p + 1)%nat
  else if c =? chr_nul then ret (p + 1)%nat
  else if c =? chr_open then
    n <- strcspn p [chr_close; chr_lf] ;; wr (p + n) chr_nul ;; ret (p + n)%nat
  else if c =? chr_semi then discard_line end_ p
  else split_line end_ p.

(** The loop, with fuel. *)
Fixpoint split_data (fuel : nat) (end_ p : nat) : M (list Z) unit :=
  if (end_ <=? p)%nat then ret tt else
  match fuel with
  | O => spin
  | S fuel => p <- split_step end_ p ;; split_data fuel end_ p
  end.

Record ini_t : Type := { ini_data : list Z; ini_end : nat }.

(** [ini_load]: [sz] bytes of [data], given as the list of them; the buffer is
    allocated (a failed [malloc] is not tested for and not modelled). *)
Definition ini_load (data : list Z) : option ini_t :=
  let sz := length data in
  (fun r => {| ini_data := r.2; ini_end := sz |}) <$> split_data sz sz 0 (data ++ [chr_nul]).

(** The string at a pointer. *)
Definition string_at (p : nat) : M (list Z) (list Z) :=
  n <- strlen p ;; fun m => Some (slice p n m, m).

(** The loop of [ini_get]; [cur] is [current_section], [None] for the empty
    literal it starts with, [section] is [None] for a null pointer. *)
Definition section_matches (section : option (list Z)) (cur : list Z) : bool :=
  match section with None => true | Some s => strcmpci s cur =? 0 end.
Fixpoint get_rounds (fuel : nat) (end_ : nat) (section : option (list Z)) (key : list Z)
    (cur : option nat) (p : nat) : M (list Z) (option nat) :=
  if (end_ <=? p)%nat then ret None else
  match fuel with
  | O => spin
  | S fuel =>
      c <- rd p ;;
      if c =? chr_open then
        p' <- next end_ p ;;
        get_rounds fuel end_ section key (Some (p + 1)%nat) p'
      else
        val <- next end_ p ;;
        cs <- (match cur with None => ret [] | Some q => string_at q end) ;;
        k <- string_at p ;;
        if section_matches section cs && (strcmpci k key =? 0) then ret (Some val)
        else
          p' <- next end_ val ;;
          get_rounds fuel end_ section key cur p'
  end.
Definition ini_get (ini : ini_t) (section : option (list Z)) (key : list Z) : option (option nat) :=
  fst <$> (c <- rd 0 ;;
           p <- (if c =? chr_nul then next (ini_end ini) 0 else ret 0%nat) ;;
           get_rounds (ini_end ini) (ini_end ini) section key None p) (ini_data ini).

(** The string [ini_get] points at, [None] for a null pointer. *)
Definition ini_value (ini : ini_t) (section : option (list Z)) (key : list Z) :
    option (option (list Z)) :=
  p ← ini_get ini section key;
  match p with
  | None => Some None
  | Some p => (fun r => Some (fst r)) <$> string_at p (ini_data ini)
  end.
