(* ===== verification/IniThms.v ===== *)
(** The configuration parser against a grammar on texts.

    [cut] is what [split_data] makes of a text, as a function on lists; [parse]
    reads the same text as a list of sections and entries.  The loader produces
    [cut] of any bytes whatever, the strings left in the buffer are those of the
    parsed items, and [ini_get] is a search among them. *)

From Stdlib Require Import String.
From S2P Require Import Prelude CStr Ini.

Open Scope prog_scope.

(** ** Scanning lists *)

Fixpoint take_while (f : Z -> bool) (l : list Z) : list Z :=
  match l with [] => [] | c :: l => if f c then c :: take_while f l else [] end.
Fixpoint drop_while (f : Z -> bool) (l : list Z) : list Z :=
  match l with [] => [] | c :: r => if f c then drop_while f r else l end.

Section Scan.
Context (f : Z -> bool).
Implicit Types l : list Z.

Lemma take_drop_while l : take_while f l ++ drop_while f l = l.
Proof. induction l as [|c l IH]; cbn; [done|]. destruct (f c); cbn; [by rewrite IH|done]. Qed.

Lemma take_while_all l : Forall (fun c => f c = true) (take_while f l).
Proof. induction l as [|c l IH]; cbn; [constructor|]. destruct (f c) eqn:?; by constructor. Qed.

Lemma drop_while_head l :
  match drop_while f l with [] => True | c :: _ => f c = false end.
Proof. induction l as [|c l IH]; cbn; [done|]. by destruct (f c) eqn:?. Qed.

Lemma span_len_take_while l :
  f 0 = false -> span_len (fun c => negb (f c)) (l ++ [0]) = Some (length (take_while f l)).
Proof.
  intros H0. induction l as [|c l IH]; cbn; [by rewrite H0|].
  destruct (f c); cbn; [by rewrite IH|done].
Qed.

Lemma length_drop_while l : (length (drop_while f l) <= length l)%nat.
Proof. rewrite <- (take_drop_while l) at 2. len. Qed.

Lemma drop_while_length l : drop (length (take_while f l)) l = drop_while f l.
Proof.
  rewrite <- (take_drop_while l) at 2. apply drop_app_length.
Qed.
End Scan.

Lemma span_len_ext f g l : (forall c, f c = g c) -> span_len f l = span_len g l.
Proof. intros E. induction l as [|c l IH]; cbn; [done|]. by rewrite E, IH. Qed.

(** ** The text, cut up *)

Definition zeros (n : nat) : list Z := replicate n 0.
Definition not_lf (c : Z) : bool := negb (c =? chr_lf).
Definition in_name (c : Z) : bool := negb ((c =? 0) || (c =? chr_close) || (c =? chr_lf)).
Definition in_key (c : Z) : bool := negb ((c =? 0) || (c =? chr_eq) || (c =? chr_lf)).
Definition in_value (c : Z) : bool := negb ((c =? 0) || (c =? chr_lf)).
Definition is_gap (c : Z) : bool :=
  (c =? chr_cr) || (c =? chr_lf) || (c =? chr_tab) || (c =? chr_space) || (c =? chr_nul).

(** A string without the blanks at its end. *)
Fixpoint rtrim (s : list Z) : list Z :=
  match s with
  | [] => []
  | c :: s => match rtrim s with [] => if is_blank c then [] else [c] | t => c :: t end
  end.
Definition rtrim0 (s : list Z) : list Z := rtrim s ++ zeros (length s - length (rtrim s)).

(** A quoted value, from the byte after the opening quote. *)
Fixpoint unquote (l : list Z) : list Z :=
  match l with
  | [] => []
  | c :: l =>
      if (c =? chr_quote) || (c =? chr_cr) || (c =? chr_lf) then []
      else if c =? chr_backslash then
        match l with
        | [] => []
        | e :: l => match escape e with Some x => x :: unquote l | None => [] end
        end
      else c :: unquote l
  end.

Inductive item : Type :=
| Section_ (name : list Z)
| Entry (key value : list Z).

(** One line, or one piece of white space: the items it holds, the bytes it
    leaves in the buffer, and the text after it. *)
Definition blank_line (l : list Z) : list item * list Z * list Z :=
  ([], zeros (length (take_while not_lf l)), drop_while not_lf l).
Definition value_line (l k bl v : list Z) : list item * list Z * list Z :=
  match v with
  | [] => blank_line l
  | c :: v' =>
      if (c =? chr_lf) || (c =? chr_nul) then blank_line l
      else if c =? chr_quote then
        let s := unquote v' in
        if bool_decide (s = []) then blank_line l
        else
          let r := drop (length s) v in
          ([Entry (rtrim k) s],
           rtrim0 k ++ [0] ++ zeros (length bl) ++ s ++ zeros (length (take_while not_lf r)),
           drop_while not_lf r)
      else
        let s := take_while in_value v in
        ([Entry (rtrim k) (rtrim s)],
         rtrim0 k ++ [0] ++ zeros (length bl) ++ rtrim0 s, drop_while in_value v)
  end.
Definition line (l : list Z) : list item * list Z * list Z :=
  let k := take_while in_key l in
  match drop_while in_key l with
  | c :: v =>
      if c =? chr_eq then value_line l k (take_while is_blank v) (drop_while is_blank v)
      else blank_line l
  | [] => blank_line l
  end.
Definition piece (l : list Z) : list item * list Z * list Z :=
  match l with
  | [] => ([], [], [])
  | c :: r =>
      if is_gap c then ([], [0], r)
      else if c =? chr_open then
        ([Section_ (tail (take_while in_name l))], take_while in_name l,
         match drop_while in_name l with [] => [] | _ :: t => 0 :: t end)
      else if c =? chr_semi then blank_line l
      else line l
  end.

(** Every piece is at least a byte long, so the length of the text is fuel
    enough ([piece_spec]). *)
Fixpoint cut_fuel (fuel : nat) (l : list Z) : list Z :=
  match fuel, l with
  | S n, _ :: _ => (piece l).1.2 ++ cut_fuel n (piece l).2
  | _, _ => []
  end.
Definition cut (l : list Z) : list Z := cut_fuel (length l) l.
Fixpoint parse_fuel (fuel : nat) (l : list Z) : list item :=
  match fuel, l with
  | S n, _ :: _ => (piece l).1.1 ++ parse_fuel n (piece l).2
  | _, _ => []
  end.
Definition parse (l : list Z) : list item := parse_fuel (length l) l.

(** ** The loader computes [cut]

    The buffer during a run is [d ++ l ++ [0]]: [d] is done, [l] is text not
    looked at yet, and the pointer is [length d]. *)

Lemma rd_at p m c : m !! p = Some c -> rd p m = Some (c, m).
Proof. unfold rd, of_option. by intros ->. Qed.
Lemma rd_mid d c r p : p = length d -> rd p (d ++ c :: r) = Some (c, d ++ c :: r).
Proof. intros ->. apply rd_at. by rewrite list_lookup_middle. Qed.
Lemma rd_gap d g r k c p :
  r !! k = Some c -> p = (length d + length g + k)%nat ->
  rd p (d ++ g ++ r) = Some (c, d ++ g ++ r).
Proof.
  intros E ->. apply rd_at. rewrite app_assoc, lookup_app_r by len.
  rewrite <- E. f_equal. len.
Qed.
Lemma wr_mid d c r x p : p = length d -> wr p x (d ++ c :: r) = Some (tt, d ++ x :: r).
Proof.
  intros ->. unfold wr. rewrite decide_True by (len; cbn; lia).
  f_equal; f_equal. replace (length d) with (length d + 0)%nat by lia. by rewrite insert_app_r.
Qed.
Lemma bind_step {W A B} (m : M W A) (k : A -> M W B) w a w' :
  m w = Some (a, w') -> bind m k w = k a w'.
Proof. unfold bind. by intros ->. Qed.

Lemma zeros_S n : zeros (S n) = 0 :: zeros n.
Proof. done. Qed.
Lemma length_zeros n : length (zeros n) = n.
Proof. apply length_replicate. Qed.

Lemma discard_rounds_spec l : forall d r p, p = length d ->
  discard_rounds (length l) p (d ++ l ++ r)
  = Some ((p + length (take_while not_lf l))%nat,
          d ++ zeros (length (take_while not_lf l)) ++ drop_while not_lf l ++ r).
Proof.
  induction l as [|c l IH]; intros d r p ->; cbn [discard_rounds length app].
  { cbn. by rewrite Nat.add_0_r. }
  erewrite bind_step by (by apply rd_mid). cbn [take_while drop_while]. unfold not_lf at 1 3 5.
  destruct (c =? chr_lf); cbn [negb length app zeros replicate].
  { by rewrite Nat.add_0_r. }
  erewrite bind_step by (by apply wr_mid).
  specialize (IH (d ++ [chr_nul]) r (length d + 1)%nat). rewrite <- !app_assoc in IH.
  cbn in IH. rewrite IH by (len; cbn; lia). f_equal. f_equal. lia.
Qed.

Lemma discard_line_spec d l e p :
  p = length d -> e = (length d + length l)%nat ->
  discard_line e p (d ++ l ++ [0])
  = Some ((p + length (take_while not_lf l))%nat,
          d ++ zeros (length (take_while not_lf l)) ++ drop_while not_lf l ++ [0]).
Proof.
  intros -> ->. unfold discard_line.
  replace (length d + length l - length d)%nat with (length l) by lia.
  by apply discard_rounds_spec.
Qed.

Lemma take_while_app f a b : Forall (fun c => f c = true) a -> take_while f (a ++ b) = a ++ take_while f b.
Proof. induction 1 as [|c a E _ IH]; cbn; [done|]. by rewrite E, IH. Qed.
Lemma drop_while_app f a b : Forall (fun c => f c = true) a -> drop_while f (a ++ b) = drop_while f b.
Proof. induction 1 as [|c a E _ IH]; cbn; [done|]. by rewrite E, IH. Qed.

(** [trim_back] *)
Lemma rtrim_snoc k c : rtrim (k ++ [c]) = if is_blank c then rtrim k else k ++ [c].
Proof.
  induction k as [|x k IH]; cbn; [by destruct (is_blank c)|].
  rewrite IH. destruct (is_blank c); [done|]. by destruct k.
Qed.

Lemma length_rtrim k : (length (rtrim k) <= length k)%nat.
Proof.
  induction k as [|c k IH]; cbn; [lia|]. destruct (rtrim k); cbn in *; [|lia].
  destruct (is_blank c); cbn; lia.
Qed.

Lemma length_rtrim0 k : length (rtrim0 k) = length k.
Proof. unfold rtrim0. rewrite length_app, length_zeros. pose proof (length_rtrim k). lia. Qed.

Lemma rtrim0_snoc k c : rtrim0 (k ++ [c]) = if is_blank c then rtrim0 k ++ [0] else k ++ [c].
Proof.
  unfold rtrim0. rewrite rtrim_snoc. pose proof (length_rtrim k).
  destruct (is_blank c).
  - rewrite length_app. cbn.
    replace (length k + 1 - length (rtrim k))%nat with (length k - length (rtrim k) + 1)%nat by lia.
    unfold zeros. by rewrite replicate_add, app_assoc.
  - rewrite Nat.sub_diag. apply app_nil_r.
Qed.

Lemma rtrim0_cons c k : is_blank c = false -> rtrim0 (c :: k) = c :: rtrim0 k.
Proof.
  intros E. unfold rtrim0. cbn [rtrim length]. rewrite E.
  destruct (rtrim k) eqn:Er; cbn; [by rewrite Nat.sub_0_r|done].
Qed.

Definition not_blank_end (d : list Z) : Prop :=
  match last d with Some c => is_blank c = false | None => True end.

Lemma not_blank_end_snoc d c : is_blank c = false -> not_blank_end (d ++ [c]).
Proof. intros. unfold not_blank_end. by rewrite last_snoc. Qed.

Lemma not_blank_end_zeros d n : not_blank_end ((d ++ [0]) ++ zeros n).
Proof.
  unfold not_blank_end. destruct n as [|n].
  - by rewrite app_nil_r, last_snoc.
  - unfold zeros. replace (S n) with (n + 1)%nat by lia.
    rewrite replicate_add, app_assoc. cbn [replicate]. by rewrite last_snoc.
Qed.

Lemma not_blank_end_0 d n : not_blank_end (d ++ 0 :: zeros n).
Proof. change (0 :: zeros n) with ([0] ++ zeros n). rewrite app_assoc. apply not_blank_end_zeros. Qed.

Lemma trim_back_spec k : forall d r p, not_blank_end d -> p = (length d + length k)%nat ->
  trim_back p (d ++ k ++ r) = Some (tt, d ++ rtrim0 k ++ r).
Proof.
  induction k as [|c k IH] using rev_ind; intros d r p Hd ->.
  - rewrite Nat.add_0_r. cbn [app rtrim0]. destruct d as [|x d _] using rev_ind; [done|].
    unfold not_blank_end in Hd. rewrite last_snoc in Hd.
    rewrite length_app, Nat.add_1_r, <- app_assoc. cbn [trim_back app].
    erewrite bind_step by (by apply rd_mid). rewrite Hd. by rewrite <- app_assoc.
  - rewrite length_app, Nat.add_assoc, Nat.add_1_r. cbn [trim_back length].
    rewrite rtrim0_snoc, <- !app_assoc, app_assoc. cbn [app].
    erewrite bind_step by (apply rd_mid; by rewrite length_app).
    destruct (is_blank c).
    + erewrite bind_step by (apply wr_mid; by rewrite length_app).
      rewrite <- !app_assoc, IH by done. done.
    + by rewrite <- !app_assoc.
Qed.

(** [blank_after] *)
Lemma blank_after_spec bl : forall n d x c r p,
  Forall (fun b => is_blank b = true) bl -> is_blank c = false -> (length bl < n)%nat ->
  p = length d ->
  blank_after n p (d ++ x :: bl ++ c :: r)
  = Some ((p + 1 + length bl)%nat, d ++ 0 :: zeros (length bl) ++ c :: r).
Proof.
  induction bl as [|b bl IH]; intros [|n] d x c r p Hbl Hc Hn ->; cbn in Hn; try lia;
    cbn [blank_after app]; erewrite bind_step by (by apply wr_mid).
  - replace (d ++ chr_nul :: c :: r) with ((d ++ [chr_nul]) ++ c :: r) by by rewrite <- app_assoc.
    erewrite bind_step by (apply rd_mid; len; cbn; lia). rewrite Hc.
    rewrite <- app_assoc. cbn. by rewrite Nat.add_0_r.
  - inversion Hbl as [|? ? Hb Hbl']; subst.
    replace (d ++ chr_nul :: b :: bl ++ c :: r) with ((d ++ [chr_nul]) ++ b :: bl ++ c :: r)
      by by rewrite <- app_assoc.
    erewrite bind_step by (apply rd_mid; len; cbn; lia). rewrite Hb.
    erewrite IH; [|done|done|lia|len; cbn; lia]. rewrite <- app_assoc.
    cbn. f_equal. f_equal. lia.
Qed.

(** [unescape_quoted_value]: [g] is what lies between the two heads. *)
Lemma unescape_rounds_spec n : forall d x g l e q p,
  q = length d -> p = (length d + S (length g))%nat ->
  e = (length d + S (length g) + length l)%nat -> (length l <= n)%nat ->
  unescape_rounds n e q p (d ++ (x :: g) ++ l ++ [0])
  = Some ((q + length (unquote l))%nat,
          d ++ unquote l ++ drop (length (unquote l)) (x :: g ++ l) ++ [0]).
Proof.
  induction n as [|n IH]; intros d x g l e q p -> -> -> Hn.
  { destruct l; cbn in Hn; [|lia]. cbn [unescape_rounds length].
    rewrite (proj2 (Nat.leb_le _ _)) by lia. cbn.
    by rewrite !Nat.add_0_r, app_nil_r. }
  destruct l as [|c l].
  { cbn [unescape_rounds length]. rewrite (proj2 (Nat.leb_le _ _)) by lia. cbn.
    by rewrite !Nat.add_0_r, app_nil_r. }
  cbn [unescape_rounds length]. rewrite (proj2 (Nat.leb_gt _ _)) by lia.
  erewrite bind_step by (apply (rd_gap d (x :: g) _ 0 c); [done|cbn; lia]).
  cbn [unquote].
  destruct ((c =? chr_quote) || (c =? chr_cr) || (c =? chr_lf)).
  { cbn. by rewrite Nat.add_0_r, <- !app_assoc. }
  cbn in Hn. destruct (c =? chr_backslash) eqn:Ec.
  - destruct l as [|y l].
    + cbn [app]. erewrite bind_step.
      2:{ apply (rd_gap d (x :: g) _ 1 0); [done|cbn; lia]. }
      cbn. rewrite Nat.add_0_r. f_equal. f_equal. by rewrite <- ?app_assoc.
    + erewrite bind_step.
      2:{ apply (rd_gap d (x :: g) _ 1 y); [done|cbn; lia]. }
      destruct (escape y) as [z|]; [|cbn; by rewrite Nat.add_0_r, <- !app_assoc].
      erewrite bind_step.
      2:{ rewrite <- ?app_assoc. cbn [app]. by apply wr_mid. }
      cbn in Hn. destruct g as [|x' g].
      * replace (d ++ z :: [] ++ c :: y :: l ++ [0]) with ((d ++ [z]) ++ [c; y] ++ l ++ [0])
          by by rewrite <- !app_assoc.
        rewrite (IH (d ++ [z]) c [y] l) by (len; cbn; lia).
        rewrite <- !app_assoc. cbn. f_equal. f_equal. lia.
      * replace (d ++ z :: (x' :: g) ++ c :: y :: l ++ [0])
          with ((d ++ [z]) ++ (x' :: (g ++ [c; y])) ++ l ++ [0])
          by (cbn; by rewrite <- !app_assoc).
        rewrite (IH (d ++ [z]) x' (g ++ [c; y]) l) by (len; cbn; len).
        rewrite <- !app_assoc. cbn. f_equal. f_equal. lia.
  - erewrite bind_step.
    2:{ rewrite <- ?app_assoc. cbn [app]. by apply wr_mid. }
    destruct g as [|x' g].
    + replace (d ++ c :: [] ++ c :: l ++ [0]) with ((d ++ [c]) ++ [c] ++ l ++ [0])
        by by rewrite <- !app_assoc.
      rewrite (IH (d ++ [c]) c [] l) by (len; cbn; lia).
      rewrite <- !app_assoc. cbn. f_equal. f_equal. lia.
    + replace (d ++ c :: (x' :: g) ++ c :: l ++ [0])
        with ((d ++ [c]) ++ (x' :: (g ++ [c])) ++ l ++ [0])
        by (cbn; by rewrite <- !app_assoc).
      rewrite (IH (d ++ [c]) x' (g ++ [c]) l) by (len; cbn; len).
      rewrite <- !app_assoc. cbn. f_equal. f_equal. lia.
Qed.

Lemma unescape_spec d x l e p :
  p = length d -> e = (length d + S (length l))%nat ->
  unescape_quoted_value e p (d ++ x :: l ++ [0])
  = Some ((p + length (unquote l))%nat,
          d ++ unquote l ++ drop (length (unquote l)) (x :: l) ++ [0]).
Proof.
  intros -> ->. unfold unescape_quoted_value.
  apply (unescape_rounds_spec _ d x []); cbn; lia.
Qed.

Lemma length_unquote l : (length (unquote l) <= length l)%nat.
Proof.
  induction l as [l IH] using (induction_ltof1 _ (@length Z)). unfold ltof in IH.
  destruct l as [|c l]; cbn [unquote length]; [lia|].
  destruct ((c =? chr_quote) || (c =? chr_cr) || (c =? chr_lf)); cbn [length]; [lia|].
  destruct (c =? chr_backslash).
  - destruct l as [|y l]; cbn [length]; [lia|]. destruct (escape y); cbn [length]; [|lia].
    specialize (IH l ltac:(cbn; lia)). lia.
  - specialize (IH l ltac:(cbn; lia)). cbn [length]. lia.
Qed.

(** The byte the write head stops on was read, so it does not end the line. *)
Lemma unquote_stop l : forall g x, Forall (fun c => not_lf c = true) (x :: g) ->
  exists c r, drop (length (unquote l)) (x :: g ++ l) = c :: r /\ not_lf c = true.
Proof.
  induction l as [l IH] using (induction_ltof1 _ (@length Z)). unfold ltof in IH.
  intros g x Hg. destruct l as [|c l]; [inversion Hg; subst; cbn; eauto|]. cbn [unquote].
  inversion Hg as [|? ? Hx Hg']; subst.
  destruct (c =? chr_quote) eqn:Eq; [cbn; eauto|].
  destruct (c =? chr_cr) eqn:Er; [cbn; eauto|].
  destruct (c =? chr_lf) eqn:El; [cbn; eauto|]. cbn [orb].
  assert (Hc : not_lf c = true) by (unfold not_lf; by rewrite El).
  destruct (c =? chr_backslash).
  - destruct l as [|y l]; [cbn; eauto|]. destruct (escape y) eqn:Ey; [|cbn; eauto].
    assert (Hy : not_lf y = true).
    { unfold not_lf. destruct (y =? chr_lf) eqn:E; [|done].
      apply Z.eqb_eq in E as ->. by vm_compute in Ey. }
    cbn [length]. destruct g as [|x' g].
    + apply (IH l ltac:(cbn; lia) [y] c). repeat constructor; done.
    + cbn [drop app]. specialize (IH l ltac:(cbn; lia) (g ++ [c; y]) x').
      rewrite <- app_assoc in IH. apply IH.
      inversion Hg'; subst. constructor; [done|]. apply Forall_app. split; [done|].
      repeat constructor; done.
  - cbn [length]. destruct g as [|x' g].
    + apply (IH l ltac:(cbn; lia) [] c). repeat constructor; done.
    + cbn [drop app]. specialize (IH l ltac:(cbn; lia) (g ++ [c]) x').
      rewrite <- app_assoc in IH. apply IH.
      inversion Hg'; subst. constructor; [done|]. apply Forall_app. split; [done|].
      repeat constructor; done.
Qed.

(** [strcspn] *)
Lemma strcspn_spec f set d l p :
  (forall c, bool_decide (c ∈ 0 :: set) = negb (f c)) -> p = length d ->
  strcspn p set (d ++ l ++ [0]) = Some (length (take_while f l), d ++ l ++ [0]).
Proof.
  intros Hf ->. unfold strcspn, of_option. rewrite drop_app_length.
  rewrite (span_len_ext _ (fun c => negb (f c))) by done.
  rewrite span_len_take_while; [done|]. specialize (Hf 0).
  rewrite bool_decide_true in Hf by set_solver. by destruct (f 0).
Qed.

Lemma set_key c : bool_decide (c ∈ [0; chr_eq; chr_lf]) = negb (in_key c).
Proof.
  unfold in_key. rewrite negb_involutive. apply eq_bool_prop_intro.
  rewrite bool_decide_spec, !orb_True, !Is_true_true, !Z.eqb_eq. set_solver.
Qed.
Lemma set_name c : bool_decide (c ∈ [0; chr_close; chr_lf]) = negb (in_name c).
Proof.
  unfold in_name. rewrite negb_involutive. apply eq_bool_prop_intro.
  rewrite bool_decide_spec, !orb_True, !Is_true_true, !Z.eqb_eq. set_solver.
Qed.
Lemma set_value c : bool_decide (c ∈ [0; chr_lf]) = negb (in_value c).
Proof.
  unfold in_value. rewrite negb_involutive. apply eq_bool_prop_intro.
  rewrite bool_decide_spec, !orb_True, !Is_true_true, !Z.eqb_eq. set_solver.
Qed.

Lemma not_lf_of_key k : Forall (fun c => in_key c = true) k -> Forall (fun c => not_lf c = true) k.
Proof.
  intros H. apply (Forall_impl _ _ _ H). unfold in_key, not_lf. intros c.
  destruct (c =? 0), (c =? chr_eq), (c =? chr_lf); done.
Qed.
Lemma not_lf_of_blank k : Forall (fun c => is_blank c = true) k -> Forall (fun c => not_lf c = true) k.
Proof.
  intros H0. apply (Forall_impl _ _ _ H0). unfold is_blank, not_lf. intros c H.
  destruct (Z.eqb_spec c chr_lf) as [->|]; done.
Qed.
Lemma not_lf_zeros n : Forall (fun c => not_lf c = true) (zeros n).
Proof. by apply Forall_replicate. Qed.
Lemma rtrim_Forall (P : Z -> Prop) k : Forall P k -> Forall P (rtrim k).
Proof.
  induction 1 as [|c k Hc _ IH]; cbn; [constructor|].
  destruct (rtrim k) eqn:E; [|by constructor]. destruct (is_blank c); by repeat constructor.
Qed.
Lemma not_lf_rtrim0 k : Forall (fun c => not_lf c = true) k -> Forall (fun c => not_lf c = true) (rtrim0 k).
Proof. intros. apply Forall_app. split; [by apply rtrim_Forall|apply not_lf_zeros]. Qed.

(** Discarding a line whose beginning has been overwritten. *)
Lemma discard_same d a a' v e p :
  length a = length a' -> Forall (fun c => not_lf c = true) a ->
  Forall (fun c => not_lf c = true) a' ->
  p = length d -> e = (length d + length (a' ++ v))%nat ->
  discard_line e p (d ++ a ++ v ++ [0])
  = Some ((p + length (blank_line (a' ++ v)).1.2)%nat,
          d ++ (blank_line (a' ++ v)).1.2 ++ (blank_line (a' ++ v)).2 ++ [0]).
Proof.
  intros El Ha Ha' -> ->. rewrite (app_assoc a).
  rewrite discard_line_spec by (rewrite ?length_app; lia). unfold blank_line. cbn [fst snd].
  rewrite !take_while_app, !drop_while_app, !length_app, El by done.
  by rewrite length_zeros.
Qed.

Lemma discard_spec d l e p :
  p = length d -> e = (length d + length l)%nat ->
  discard_line e p (d ++ l ++ [0])
  = Some ((p + length (blank_line l).1.2)%nat,
          d ++ (blank_line l).1.2 ++ (blank_line l).2 ++ [0]).
Proof. intros. by apply (discard_same d [] []). Qed.

Lemma split_value_spec d k bl v e q p :
  Forall (fun c => in_key c = true) k -> Forall (fun c => is_blank c = true) bl ->
  match v with [] => True | c :: _ => is_blank c = false end ->
  let l := k ++ chr_eq :: bl ++ v in
  let D := d ++ rtrim0 k ++ [0] ++ zeros (length bl) in
  q = length d -> p = length D -> e = (length d + length l)%nat ->
  split_value e q p (D ++ v ++ [0])
  = Some ((q + length (value_line l k bl v).1.2)%nat,
          d ++ (value_line l k bl v).1.2 ++ (value_line l k bl v).2 ++ [0]).
Proof.
  intros Hk Hb Hv l D -> -> ->.
  assert (Hdisc : discard_line (length d + length l) (length d) (D ++ v ++ [0])
    = Some ((length d + length (blank_line l).1.2)%nat,
            d ++ (blank_line l).1.2 ++ (blank_line l).2 ++ [0])).
  { subst D l. rewrite <- app_assoc.
    replace (k ++ chr_eq :: bl ++ v) with ((k ++ chr_eq :: bl) ++ v) by by rewrite <- app_assoc.
    apply discard_same; [| | |done|done].
    - rewrite !length_app, length_rtrim0. cbn. rewrite length_zeros. lia.
    - apply Forall_app. split; [by apply not_lf_rtrim0, not_lf_of_key|].
      constructor; [done|]. apply not_lf_zeros.
    - apply Forall_app. split; [by apply not_lf_of_key|]. constructor; [done|].
      by apply not_lf_of_blank. }
  assert (HD : length D = (length d + length k + 1 + length bl)%nat).
  { subst D. rewrite !length_app, length_rtrim0, length_zeros. cbn. lia. }
  assert (Hl : length l = (length k + 1 + length bl + length v)%nat).
  { subst l. len. cbn. len. }
  unfold split_value. destruct v as [|c v].
  { erewrite bind_step by (by apply rd_mid). exact Hdisc. }
  erewrite bind_step by (by apply rd_mid). cbn [value_line].
  destruct ((c =? chr_lf) || (c =? chr_nul)); [exact Hdisc|].
  destruct (c =? chr_quote) eqn:Eq.
  - erewrite bind_step by (apply unescape_spec; cbn in *; lia).
    case_bool_decide as Es.
    + rewrite Es. cbn [length drop app]. rewrite Nat.add_0_r, Nat.eqb_refl. exact Hdisc.
    + destruct (Nat.eqb_spec (length D + length (unquote v)) (length D)) as [E|_].
      { destruct (unquote v); [done|cbn in E; lia]. }
      set (s := unquote v) in *.
      pose proof (length_unquote v) as Hs. fold s in Hs.
      rewrite app_assoc, discard_line_spec by
        (rewrite ?length_app, ?length_drop; cbn in *; lia).
      cbn [fst snd]. subst D. rewrite <- !app_assoc. cbn [app].
      rewrite !length_app in *. cbn [length] in *. rewrite !length_app, !length_zeros, length_rtrim0 in *.
      f_equal. f_equal. lia.
  - erewrite bind_step by (apply (strcspn_spec in_value _ _ (c :: v)); [apply set_value|done]).
    rewrite <- (take_drop_while in_value (c :: v)) at 2.
    set (s := take_while in_value (c :: v)). set (r := drop_while in_value (c :: v)).
    assert (Ht : trim_back (length D + length s) (D ++ (s ++ r) ++ [0])
      = Some (tt, D ++ rtrim0 s ++ r ++ [0])).
    { rewrite <- app_assoc. apply trim_back_spec; [|done]. subst D.
      rewrite !app_assoc. apply not_blank_end_zeros. }
    erewrite bind_step by exact Ht. cbn [fst snd]. unfold ret. subst D.
    rewrite <- !app_assoc. cbn [app]. rewrite !length_app in *. cbn [length] in *.
    rewrite !length_app, !length_zeros, !length_rtrim0 in *. f_equal. f_equal. lia.
Qed.

(** A line either has a key, an equals sign, blanks and the rest, or no equals
    sign. *)
Inductive line_view (l : list Z) : Prop :=
| view_entry k bl w :
    l = k ++ chr_eq :: bl ++ w -> Forall (fun c => in_key c = true) k ->
    Forall (fun c => is_blank c = true) bl ->
    match w with [] => True | c :: _ => is_blank c = false end ->
    take_while in_key l = k -> line l = value_line l k bl w -> line_view l
| view_other k r :
    l = k ++ r -> Forall (fun c => in_key c = true) k ->
    match r with [] => True | c :: _ => c =? chr_eq = false end ->
    take_while in_key l = k -> line l = blank_line l -> line_view l.

Lemma line_viewP l : line_view l.
Proof.
  pose proof (take_drop_while in_key l) as El. pose proof (take_while_all in_key l) as Hk.
  unshelve epose proof (_ : line l = line l) as E; [done|]. unfold line at 2 in E.
  destruct (drop_while in_key l) as [|c v] eqn:Ev.
  { eapply (view_other _ _ []); eauto. }
  destruct (c =? chr_eq) eqn:Ec; [|by eapply (view_other _ _ (c :: v)); eauto].
  apply Z.eqb_eq in Ec as ->.
  eapply (view_entry _ _ (take_while is_blank v) (drop_while is_blank v));
    [|done|apply take_while_all|apply drop_while_head|done|done].
  by rewrite take_drop_while.
Qed.

Lemma line_spec d l e p :
  not_blank_end d -> p = length d -> e = (length d + length l)%nat ->
  split_line e p (d ++ l ++ [0])
  = Some ((p + length (line l).1.2)%nat, d ++ (line l).1.2 ++ (line l).2 ++ [0]).
Proof.
  intros Hd -> ->. unfold split_line.
  erewrite bind_step by (apply (strcspn_spec in_key); [apply set_key|done]).
  destruct (line_viewP l) as [k bl w El Hk Hb Hw Ek EL | k r El Hk Hr Ek EL].
  - rewrite Ek, EL.
    replace (l ++ [0]) with (k ++ chr_eq :: bl ++ w ++ [0]) by (rewrite El, <- app_assoc; cbn; by rewrite <- app_assoc).
    erewrite bind_step by (apply (rd_gap d k _ 0 chr_eq); [done|lia]).
    cbn [negb Z.eqb chr_eq Pos.eqb].
    erewrite bind_step by (by apply trim_back_spec).
    assert (Hll : length l = (length k + 1 + length bl + length w)%nat).
    { rewrite El. len. cbn. len. }
    assert (exists x y, w ++ [0] = x :: y /\ is_blank x = false) as (x & y & Exy & Hx).
    { destruct w as [|x w]; cbn; eauto. }
    rewrite Exy, app_assoc.
    erewrite bind_step by
      (apply blank_after_spec; [done|done|lia|rewrite length_app, length_rtrim0; lia]).
    rewrite <- Exy, <- app_assoc.
    replace (d ++ rtrim0 k ++ 0 :: zeros (length bl) ++ w ++ [0])
      with ((d ++ rtrim0 k ++ [0] ++ zeros (length bl)) ++ w ++ [0]) by by rewrite <- !app_assoc.
    rewrite El at 2 3 4.
    apply split_value_spec; [done..| |by rewrite <- El].
    rewrite !length_app, length_rtrim0, length_zeros. cbn. lia.
  - rewrite Ek, EL. erewrite bind_step.
    2:{ rewrite El, <- app_assoc. apply (rd_gap d k _ 0 (hd 0 r)); [by destruct r|lia]. }
    rewrite (app_assoc k r), <- El.
    replace (hd 0 r =? chr_eq) with false by by destruct r.
    by apply discard_spec.
Qed.

(** A piece uses up some of the text, and leaves the pointer where the next
    line's key cannot be trimmed into it. *)
Definition ready (d l : list Z) : Prop :=
  not_blank_end d \/ l = [] \/ exists r, l = 0 :: r.

Record good_cut (l a r : list Z) : Prop := {
  cut_ne : a <> [];
  cut_len : (length a + length r = length l)%nat;
  cut_ready : forall d, ready (d ++ a) r }.

Lemma not_blank_end_app d a : a <> [] -> not_blank_end a -> not_blank_end (d ++ a).
Proof.
  intros Ha H. destruct a as [|c a _] using rev_ind; [done|].
  unfold not_blank_end in *. rewrite app_assoc, last_snoc. by rewrite last_snoc in H.
Qed.

Lemma blank_line_good c l : not_lf c = true -> good_cut (c :: l) (blank_line (c :: l)).1.2 (blank_line (c :: l)).2.
Proof.
  intros Hc. unfold blank_line. cbn [fst snd take_while drop_while]. rewrite Hc. split.
  - done.
  - cbn [length]. rewrite length_zeros. rewrite <- (take_drop_while not_lf l) at 3. len.
  - intros d. left. cbn [length]. rewrite zeros_S.
    apply not_blank_end_0.
Qed.

Lemma not_blank_end_rtrim0 k : not_blank_end (rtrim0 k).
Proof.
  induction k as [|c k IH] using rev_ind; [done|]. rewrite rtrim0_snoc.
  destruct (is_blank c) eqn:E; by apply not_blank_end_snoc.
Qed.

Lemma value_line_good c k0 k bl w :
  let l := k ++ chr_eq :: bl ++ w in
  not_lf c = true -> l = c :: k0 ->
  match w with [] => True | c :: _ => is_blank c = false end ->
  good_cut l (value_line l k bl w).1.2 (value_line l k bl w).2.
Proof.
  intros l Hc Hl Hw.
  assert (Hbl : good_cut l (blank_line l).1.2 (blank_line l).2)
    by (rewrite Hl; by apply blank_line_good).
  unfold value_line. destruct w as [|x w]; [done|].
  destruct ((x =? chr_lf) || (x =? chr_nul)) eqn:Ex; [done|].
  destruct (x =? chr_quote) eqn:Eq.
  - case_bool_decide as Es; [done|]. cbn [fst snd].
    assert (Hxl : not_lf x = true) by (unfold not_lf; by destruct (x =? chr_lf)).
    destruct (unquote_stop w [] x) as (y & r & Er & Hy); [by repeat constructor|].
    cbn [app] in Er. pose proof (length_unquote w). rewrite Er. split.
    + destruct (rtrim0 k); done.
    + apply (f_equal length) in Er. rewrite length_drop in Er. cbn [length] in Er.
      cbn [take_while drop_while]. rewrite Hy. subst l.
      rewrite !length_app, !length_zeros, length_rtrim0. cbn [length]. rewrite length_app.
      cbn [length].
      pose proof (f_equal length (take_drop_while not_lf r)) as E. rewrite length_app in E. lia.
    + intros d. left. cbn [take_while]. rewrite Hy. cbn [length]. rewrite zeros_S.
      rewrite !app_assoc.
      apply not_blank_end_0.
  - cbn [fst snd]. split.
    + destruct (rtrim0 k); done.
    + subst l. rewrite !length_app, !length_zeros, !length_rtrim0. cbn [length].
      rewrite length_app. rewrite <- (take_drop_while in_value (x :: w)) at 3. len.
    + intros d. left. cbn [take_while].
      replace (in_value x) with true
        by (unfold in_value, chr_nul in *; by destruct (x =? chr_lf), (x =? 0)).
      rewrite rtrim0_cons by done. rewrite !app_assoc.
      apply not_blank_end_app; [done|]. rewrite <- rtrim0_cons by done. apply not_blank_end_rtrim0.
Qed.

Lemma piece_good c l : good_cut (c :: l) (piece (c :: l)).1.2 (piece (c :: l)).2.
Proof.
  unfold piece. destruct (is_gap c) eqn:Eg.
  { cbn [fst snd]. split; [done|cbn; lia|].
    intros d. left. by apply not_blank_end_snoc. }
  assert (Hlf : not_lf c = true).
  { unfold is_gap, not_lf in *. by destruct (c =? chr_lf), (c =? chr_cr). }
  destruct (Z.eqb_spec c chr_open) as [->|].
  { cbn [fst snd]. pose proof (take_drop_while in_name (chr_open :: l)) as E.
    apply (f_equal length) in E. rewrite length_app in E. split.
    - done.
    - destruct (drop_while in_name (chr_open :: l)); cbn [length] in *; lia.
    - intros d. right. destruct (drop_while in_name (chr_open :: l)); eauto. }
  destruct (c =? chr_semi); [by apply blank_line_good|].
  destruct (line_viewP (c :: l)) as [k bl w El Hk Hb Hw Ek EL | k r El Hk Hr Ek EL]; rewrite EL.
  - rewrite El. by eapply value_line_good.
  - by apply blank_line_good.
Qed.

Lemma piece_spec d c l e p :
  ready d (c :: l) -> p = length d -> e = (length d + S (length l))%nat ->
  split_step e p (d ++ (c :: l) ++ [0])
  = Some ((p + length (piece (c :: l)).1.2)%nat,
          d ++ (piece (c :: l)).1.2 ++ (piece (c :: l)).2 ++ [0]).
Proof.
  intros Hd Hp ->. unfold split_step. erewrite bind_step by (by apply rd_mid).
  unfold piece, is_gap.
  destruct ((c =? chr_cr) || (c =? chr_lf) || (c =? chr_tab) || (c =? chr_space)) eqn:Eg; cbn [orb].
  { erewrite bind_step by (by apply wr_mid). done. }
  destruct (Z.eqb_spec c chr_nul) as [->|Hn]; [done|].
  destruct (Z.eqb_spec c chr_open) as [->|].
  { erewrite bind_step by (apply (strcspn_spec in_name _ _ (chr_open :: l)); [apply set_name|done]).
    cbn [fst snd]. pose proof (take_drop_while in_name (chr_open :: l)) as E.
    set (a := take_while in_name (chr_open :: l)) in *.
    rewrite <- E at 1. rewrite <- app_assoc, app_assoc.
    destruct (drop_while in_name (chr_open :: l)) as [|y t]; cbn [app];
      (erewrite bind_step by (apply wr_mid; rewrite length_app; lia));
      rewrite <- !app_assoc; done. }
  destruct (Z.eqb_spec c chr_semi) as [->|]; [by apply (discard_spec d (chr_semi :: l))|].
  apply (line_spec d (c :: l)); [|done|done].
  destruct Hd as [?|[?|[r ?]]]; [done|done|]. by simplify_eq.
Qed.

(** The loop. *)
Lemma split_data_spec n : forall l d e p,
  (length l <= n)%nat -> ready d l -> p = length d -> e = (length d + length l)%nat ->
  split_data n e p (d ++ l ++ [0]) = Some (tt, d ++ cut_fuel n l ++ [0]) /\
  length (cut_fuel n l) = length l.
Proof.
  induction n as [|n IH]; intros l d e p Hn Hd -> ->.
  { destruct l; cbn in Hn; [|lia]. cbn [length split_data cut_fuel].
    by rewrite (proj2 (Nat.leb_le _ _)) by lia. }
  destruct l as [|c l]; cbn [split_data].
  { cbn [length cut_fuel]. by rewrite (proj2 (Nat.leb_le _ _)) by lia. }
  rewrite (proj2 (Nat.leb_gt _ _)) by (cbn; lia). cbn [cut_fuel].
  destruct (piece_good c l) as [Hne Hl Hr]. specialize (Hr d).
  erewrite bind_step by (by apply piece_spec).
  set (a := (piece (c :: l)).1.2) in *. set (r := (piece (c :: l)).2) in *.
  assert (Ha : (0 < length a)%nat) by (destruct a; [done|cbn; lia]). cbn [length] in *.
  rewrite (app_assoc d).
  destruct (IH r (d ++ a) (length d + S (length l))%nat (length d + length a)%nat) as [E1 E2];
    [lia|done|by rewrite length_app|rewrite length_app; lia|].
  rewrite E1, length_app, E2. split; [by rewrite <- !app_assoc|lia].
Qed.

Lemma ini_load_cut data :
  ini_load data = Some {| ini_data := cut data ++ [0]; ini_end := length data |} /\
  length (cut data) = length data.
Proof.
  destruct (split_data_spec (length data) data [] (length data) 0) as [E1 E2];
    [lia|by left|done|done|].
  unfold ini_load. cbn [app] in E1. change chr_nul with 0. rewrite E1. by split.
Qed.

(** ** The strings in the buffer *)

(** The runs of bytes between NULs. *)
Fixpoint runs (m : list Z) : list (list Z) :=
  match m with
  | [] => []
  | c :: m =>
      if c =? 0 then runs m
      else match m with
           | x :: _ => if x =? 0 then [c] :: runs m
                       else match runs m with s :: ss => (c :: s) :: ss | [] => [[c]] end
           | [] => [[c]]
           end
  end.

Definition nulfree (s : list Z) : Prop := Forall (fun c => c <> 0) s.

Lemma runs_zeros n m : runs (zeros n ++ m) = runs m.
Proof. induction n; cbn; done. Qed.

Lemma runs_string s m :
  s <> [] -> nulfree s -> (m = [] \/ exists t, m = 0 :: t) -> runs (s ++ m) = s :: runs m.
Proof.
  intros Hs Hn Hm. induction Hn as [|c s Hc Hn IH]; [done|].
  cbn [app runs]. destruct (Z.eqb_spec c 0); [done|]. destruct s as [|x s].
  - cbn [app]. destruct Hm as [->|[t ->]]; done.
  - rewrite IH by done. cbn [app]. inversion Hn; subst. by destruct (Z.eqb_spec x 0).
Qed.

Lemma runs_rtrim0 k m : nulfree k ->
  runs (rtrim0 k ++ 0 :: m) = (if bool_decide (rtrim k = []) then [] else [rtrim k]) ++ runs m.
Proof.
  intros Hk. unfold rtrim0. rewrite <- app_assoc.
  assert (E : runs (zeros (length k - length (rtrim k)) ++ 0 :: m) = runs m)
    by (rewrite runs_zeros; done).
  case_bool_decide as H; [by rewrite H in *|].
  rewrite runs_string, E; [done|done|by apply rtrim_Forall|].
  right. destruct (length k - length (rtrim k))%nat; cbn; eauto.
Qed.

Definition strings (i : item) : list (list Z) :=
  match i with
  | Section_ n => [chr_open :: n]
  | Entry k v => (if bool_decide (k = []) then [] else [k]) ++ [v]
  end.

Lemma unquote_nulfree l : nulfree l -> nulfree (unquote l).
Proof.
  induction l as [l IH] using (induction_ltof1 _ (@length Z)). unfold ltof in IH.
  intros Hl. destruct Hl as [|c l Hc Hl]; [constructor|]. cbn [unquote].
  destruct ((c =? chr_quote) || (c =? chr_cr) || (c =? chr_lf)); [constructor|].
  destruct (c =? chr_backslash).
  - destruct Hl as [|y l Hy Hl]; [constructor|]. destruct (escape y) as [x|] eqn:Ey; [|constructor].
    constructor; [|apply IH; [cbn; lia|done]].
    revert Ey. unfold escape. do 3 (destruct (_ =? _); [by intros [= <-]|]).
    destruct (_ || _); [done|]. by intros [= <-].
  - constructor; [done|]. apply IH; [cbn; lia|done].
Qed.

Lemma take_while_Forall (P : Z -> Prop) f l : Forall P l -> Forall P (take_while f l).
Proof. intros H. rewrite <- (take_drop_while f l), Forall_app in H. by destruct H. Qed.
Lemma drop_while_Forall (P : Z -> Prop) f l : Forall P l -> Forall P (drop_while f l).
Proof. intros H. rewrite <- (take_drop_while f l), Forall_app in H. by destruct H. Qed.

(** What follows a string starts with a NUL once it is cut. *)
Definition sep (l : list Z) : Prop := match l with [] => True | c :: _ => is_gap c = true end.
Lemma cut_sep n l : (length l <= n)%nat -> sep l -> cut_fuel n l = [] \/ exists t, cut_fuel n l = 0 :: t.
Proof.
  destruct n as [|n], l as [|c l]; cbn; try lia; auto. intros _ ->. right. cbn. eauto.
Qed.

(** A text without NULs, save the one a section's closing bracket becomes. *)
Definition text (l : list Z) : Prop := nulfree l \/ exists t, l = 0 :: t /\ nulfree t.

(** The strings of one piece, whatever follows it. *)
Definition good_strings (x : list item * list Z * list Z) : Prop :=
  text x.2 /\
  forall m, (sep x.2 -> m = [] \/ exists t, m = 0 :: t) ->
    runs (x.1.2 ++ m) = concat (strings <$> x.1.1) ++ runs m.

Lemma blank_line_strings l : nulfree l -> good_strings (blank_line l).
Proof.
  intros Hl. split; cbn [blank_line fst snd].
  - left. by apply drop_while_Forall.
  - intros m _. apply runs_zeros.
Qed.

Lemma in_value_sep l : nulfree l -> sep (drop_while in_value l).
Proof.
  intros Hl. pose proof (drop_while_head in_value l) as H.
  destruct (drop_while in_value l) as [|c r]; [done|]. cbn. revert H.
  unfold in_value, is_gap, chr_nul. destruct (c =? 0), (c =? chr_lf), (c =? chr_cr); cbn; rewrite ?orb_true_r; done.
Qed.

Lemma value_line_strings l k bl w :
  l = k ++ chr_eq :: bl ++ w -> nulfree l ->
  match w with [] => True | c :: _ => is_blank c = false end ->
  good_strings (value_line l k bl w).
Proof.
  intros El Hl Hw. pose proof (blank_line_strings l Hl) as Hbl.
  assert (nulfree k /\ nulfree w) as [Hk Hnw].
  { unfold nulfree in Hl. rewrite El, Forall_app in Hl. destruct Hl as [? Hl].
    inversion Hl as [|? ? ? Hl']; subst. apply Forall_app in Hl' as [? ?]. done. }
  unfold value_line. destruct w as [|x w]; [done|].
  destruct ((x =? chr_lf) || (x =? chr_nul)) eqn:Ex; [done|].
  destruct (x =? chr_quote) eqn:Eq.
  - case_bool_decide as Es; [done|]. split; cbn [fst snd].
    { left. apply drop_while_Forall, Forall_drop, Hnw. }
    intros m _. inversion Hnw; subst. rewrite <- !app_assoc. cbn [app].
    rewrite runs_rtrim0, runs_zeros by done. rewrite runs_string; [|done|by apply unquote_nulfree|].
    2:{ right. destruct (unquote_stop w [] x) as (y & r & Er & Hy).
        { repeat constructor. unfold not_lf. by destruct (x =? chr_lf). }
        cbn [app] in Er. rewrite Er. cbn [take_while]. rewrite Hy. cbn [length]. eauto. }
    rewrite runs_zeros. cbn. by rewrite app_nil_r, <- app_assoc.
  - split; cbn [fst snd].
    { left. by apply drop_while_Forall. }
    intros m Hm. specialize (Hm (in_value_sep _ Hnw)). rewrite <- !app_assoc. cbn [app].
    rewrite runs_rtrim0, runs_zeros by done. unfold rtrim0. rewrite <- app_assoc.
    assert (Hne : rtrim (take_while in_value (x :: w)) <> []).
    { cbn [take_while]. replace (in_value x) with true
        by (unfold in_value, chr_nul in *; by destruct (x =? chr_lf), (x =? 0)).
      cbn [rtrim]. rewrite Hw. by destruct (rtrim _). }
    rewrite runs_string; [|done|by apply rtrim_Forall, take_while_Forall|].
    + rewrite runs_zeros. cbn. by rewrite app_nil_r, <- app_assoc.
    + destruct (_ - _)%nat; cbn; eauto.
Qed.

Lemma piece_strings l : text l -> good_strings (piece l).
Proof.
  destruct l as [|c l]; [by intros _; split; [left; constructor|]|]. intros Ht. unfold piece.
  destruct (is_gap c) eqn:Eg.
  { split; [|done]. cbn. left. destruct Ht as [Ht|(t & E & Ht)]; [by inversion Ht|by simplify_eq]. }
  assert (Hl : nulfree (c :: l)).
  { destruct Ht as [Ht|(t & E & Ht)]; [done|]. by simplify_eq. }
  destruct (Z.eqb_spec c chr_open) as [->|].
  { split; cbn [fst snd].
    - pose proof (drop_while_Forall (fun c => c <> 0) in_name _ Hl) as H.
      destruct (drop_while in_name (chr_open :: l)) as [|y t]; [by left|].
      right. inversion H; subst. eauto.
    - intros m Hm. rewrite runs_string; [done|done|by apply take_while_Forall|].
      apply Hm. by destruct (drop_while in_name (chr_open :: l)). }
  destruct (c =? chr_semi); [by apply blank_line_strings|].
  destruct (line_viewP (c :: l)) as [k bl w El Hk Hb Hw Ek EL | k r El Hk Hr Ek EL]; rewrite EL.
  - by apply value_line_strings.
  - by apply blank_line_strings.
Qed.

Lemma cut_strings n : forall l, (length l <= n)%nat -> text l ->
  runs (cut_fuel n l) = concat (strings <$> parse_fuel n l).
Proof.
  induction n as [|n IH]; intros [|c l] Hn Ht; cbn in Hn; try lia; try done.
  cbn [cut_fuel parse_fuel].
  destruct (piece_strings (c :: l) Ht) as [Hr Hm]. destruct (piece_good c l) as [Hne Hlen _].
  assert (length (piece (c :: l)).2 <= n)%nat.
  { destruct (piece (c :: l)).1.2; [done|]. cbn in *. lia. }
  rewrite Hm; [|intros; by apply cut_sep]. rewrite IH by done. by rewrite fmap_app, concat_app.
Qed.

(** ** Looking a key up *)

(** The pointer [p] is at the first of the strings [ss], or at the end. *)
Record at_strings (m : list Z) (e p : nat) (ss : list (list Z)) : Prop := {
  at_len : length m = S e;
  at_le : (p <= e)%nat;
  at_end : m !! e = Some 0;
  at_runs : runs (drop p m) = ss;
  at_here : p = e \/ exists c r, drop p m = c :: r /\ c <> 0 }.

Lemma runs_step s m : nulfree s -> s <> [] -> runs (s ++ 0 :: m) = s :: runs m.
Proof. intros. rewrite runs_string; [done|done|done|eauto]. Qed.

Lemma drop_last_nul m e : length m = S e -> m !! e = Some 0 -> drop e m = [0].
Proof.
  intros Hl He. rewrite (drop_S _ _ _ He). by rewrite drop_ge by lia.
Qed.

Lemma at_end_nil m e ss : at_strings m e e ss -> ss = [].
Proof. intros [? ? ? <- _]. by rewrite (drop_last_nul m e). Qed.

(** A buffer position before the end: the string there and the rest. *)
Lemma first_string m : m <> [] -> last m = Some 0 ->
  exists s t, m = s ++ 0 :: t /\ nulfree s /\ span_len (fun c => c =? 0) m = Some (length s) /\
    (t = [] \/ last t = Some 0).
Proof.
  induction m as [|c m IH]; [done|]. intros _ Hm.
  destruct (Z.eqb_spec c 0) as [->|Hc].
  - exists [], m. split; [done|]. split; [constructor|]. split; [done|].
    destruct m; [by left|]. right. done.
  - destruct m as [|x m']; [by cbn in Hm; simplify_eq|].
    destruct IH as (s & t & Es & Hs & El & Ht); [done|done|].
    remember (x :: m') as m. clear Heqm.
    exists (c :: s), t. rewrite Es at 1. split; [done|]. split; [by constructor|].
    split; [|done]. cbn [span_len]. destruct (Z.eqb_spec c 0); [done|]. by rewrite El.
Qed.

Lemma last_drop (m : list Z) p x : (p < length m)%nat -> last m = Some x -> last (drop p m) = Some x.
Proof.
  intros Hp Hm. destruct m as [|y m _] using rev_ind; [done|].
  rewrite last_snoc in Hm. rewrite length_app in Hp. cbn in Hp.
  rewrite drop_app_le by lia. by rewrite last_snoc.
Qed.

Lemma at_last m e p ss : at_strings m e p ss -> last (drop p m) = Some 0.
Proof.
  intros [Hl Hp He _ _]. apply last_drop; [lia|].
  rewrite last_lookup, Hl. done.
Qed.

Lemma skip_nuls_spec m e : length m = S e -> m !! e = Some 0 ->
  forall n p, (p + n = e)%nat ->
  exists p', skip_nuls n p m = Some (p', m) /\ at_strings m e p' (runs (drop p m)).
Proof.
  intros Hl He. induction n as [|n IH]; intros p Hp; cbn [skip_nuls].
  { exists p. split; [done|]. assert (p = e) as -> by lia. split; auto with lia. }
  destruct (lookup_lt_is_Some_2 m p) as [c Hc]; [lia|].
  erewrite bind_step by (by apply rd_at).
  rewrite (drop_S _ _ _ Hc). destruct (Z.eqb_spec c chr_nul) as [->|Hn].
  - destruct (IH (p + 1)%nat) as (p' & E & Hat); [lia|]. exists p'. split; [done|].
    rewrite Nat.add_1_r in Hat. done.
  - exists p. split; [done|]. split; [done|lia|done|by rewrite (drop_S _ _ _ Hc)|].
    right. rewrite (drop_S _ _ _ Hc). eauto.
Qed.

(** What [next] and the pointed-to string are. *)
Lemma string_split m e p ss : at_strings m e p ss ->
  exists s t, drop p m = s ++ 0 :: t /\ nulfree s /\ strlen p m = Some (length s, m) /\
    (p + length s <= e)%nat /\ drop (p + length s) m = 0 :: t /\
    hd [] ss = s /\ tl ss = runs t.
Proof.
  intros Hat. pose proof (at_last _ _ _ _ Hat) as HL. destruct Hat as [Hl Hp He Hr Hh].
  destruct (first_string (drop p m)) as (s & t & Es & Hs & El & Ht);
    [by intros E; rewrite E in HL|done|].
  exists s, t. split; [done|]. split; [done|]. unfold strlen. rewrite El. split; [done|].
  pose proof (f_equal length Es) as E. rewrite length_drop, length_app in E. cbn in E.
  split; [lia|]. split; [by rewrite <- drop_drop, Es, drop_app_length|].
  destruct s as [|c s].
  - destruct Hh as [->|(c & r & Ec & Hc)]; [|rewrite Es in Ec; cbn in Ec; by simplify_eq].
    rewrite (drop_last_nul m e Hl He) in *. cbn in Es. simplify_eq. done.
  - rewrite <- Hr, Es, runs_step by done. done.
Qed.

Lemma next_spec m e p ss : at_strings m e p ss ->
  exists p', next e p m = Some (p', m) /\ at_strings m e p' (tl ss).
Proof.
  intros Hat. destruct (string_split _ _ _ _ Hat) as (s & t & Es & Hs & El & Hle & Hd & Hh & Ht).
  unfold next. erewrite bind_step by exact El. destruct Hat as [Hl Hp He Hr _].
  destruct (skip_nuls_spec m e Hl He (e - (p + length s)) (p + length s)) as (p' & E & H); [lia|].
  exists p'. split; [done|]. by rewrite Ht, Hd in *.
Qed.

Lemma string_at_spec m e p ss : at_strings m e p ss -> string_at p m = Some (hd [] ss, m).
Proof.
  intros Hat. destruct (string_split _ _ _ _ Hat) as (s & t & Es & Hs & El & Hle & Hd & Hh & Ht).
  unfold string_at. erewrite bind_step by exact El. unfold slice.
  by rewrite Es, take_app_length, Hh.
Qed.

(** The search on strings. *)
Fixpoint lookup_strings (section : option (list Z)) (key cur : list Z) (ss : list (list Z)) :
    option (list Z) :=
  match ss with
  | [] => None
  | s :: ss =>
      if hd 0 s =? chr_open then lookup_strings section key (tl s) ss
      else if section_matches section cur && (strcmpci s key =? 0) then Some (hd [] ss)
      else match ss with [] => None | _ :: ss => lookup_strings section key cur ss end
  end.

Definition cur_string (m : list Z) (cur : option nat) (s : list Z) : Prop :=
  (match cur with None => ret [] | Some q => string_at q end) m = Some (s, m).

Lemma inner_string m e p s ss : at_strings m e p ((chr_open :: s) :: ss) ->
  cur_string m (Some (p + 1)%nat) s.
Proof.
  intros Hat. destruct (string_split _ _ _ _ Hat) as (s' & t & Es & Hs & El & Hle & Hd & Hh & Ht).
  cbn in Hh. subst s'. unfold cur_string, string_at, strlen.
  pose proof (f_equal (drop 1) Es) as E. rewrite drop_drop in E. cbn in E. rewrite drop_0 in E.
  erewrite bind_step.
  2:{ rewrite E. inversion Hs as [|? ? _ Hs']; subst.
      replace (span_len (fun c => c =? 0) (s ++ 0 :: t)) with (Some (length s)); [done|].
      clear -Hs'. induction Hs' as [|c s Hc _ IH]; cbn; [done|].
      destruct (Z.eqb_spec c 0); [done|]. by rewrite <- IH. }
  unfold slice. by rewrite E, take_app_length.
Qed.

Lemma get_rounds_spec section key n : forall m e cur curs p ss,
  at_strings m e p ss -> cur_string m cur curs -> (length ss <= n)%nat ->
  exists r, get_rounds n e section key cur p m = Some (r, m) /\
    match r with
    | None => lookup_strings section key curs ss = None
    | Some q => exists v, lookup_strings section key curs ss = Some v /\ string_at q m = Some (v, m)
    end.
Proof.
  induction n as [n IH] using lt_wf_ind. intros m e cur curs p ss Hat Hcur Hn.
  pose proof Hat as [_ Hp _ Hr Hh].
  destruct (Nat.eq_dec p e) as [->|Hne].
  { exists None. rewrite (at_end_nil _ _ _ Hat). split; [|done].
    destruct n; cbn [get_rounds]; by rewrite (proj2 (Nat.leb_le _ _)) by lia. }
  destruct (string_split _ _ _ _ Hat) as (s & t & Es & Hs & El & Hle & Hd & Hhd & Htl).
  destruct Hh as [?|(c & r & Ec & Hc)]; [done|]. rewrite Es in Ec.
  destruct s as [|c' s]; [by cbn in Ec; simplify_eq|]. cbn in Ec. assert (c' = c) as -> by congruence.
  assert (Ess : ss = (c :: s) :: runs t).
  { rewrite <- Htl, <- Hhd. rewrite Es, runs_step in Hr by done. by subst ss. }
  rewrite Ess in *. destruct n as [|n]; [cbn in Hn; lia|]. cbn in Hn.
  cbn [get_rounds]. rewrite (proj2 (Nat.leb_gt _ _)) by lia.
  erewrite bind_step.
  2:{ apply rd_at. rewrite <- (Nat.add_0_r p), <- lookup_drop, Es. done. }
  destruct (next_spec _ _ _ _ Hat) as (p' & Enx & Hat'). cbn [tl] in Hat'.
  cbn [lookup_strings hd tl]. destruct (Z.eqb_spec c chr_open) as [->|Ho].
  - erewrite bind_step by exact Enx.
    apply (IH n); [lia|done| |lia]. by eapply inner_string.
  - erewrite bind_step by exact Enx. erewrite bind_step by exact Hcur.
    erewrite bind_step by (by eapply string_at_spec). cbn [hd].
    destruct (section_matches section curs && (strcmpci (c :: s) key =? 0)).
    { exists (Some p'). split; [done|]. eexists. split; [done|]. by eapply string_at_spec. }
    destruct (next_spec _ _ _ _ Hat') as (p2 & Enx2 & Hat2). erewrite bind_step by exact Enx2.
    destruct (IH n ltac:(lia) m e cur curs p2 (tl (runs t))) as (r' & E & H);
      [done|done|destruct (runs t); cbn in *; lia|].
    exists r'. split; [done|]. destruct (runs t); [|done]. cbn [tl lookup_strings] in H.
    destruct r' as [q|]; [|done]. by destruct H as (v & ? & _).
Qed.

Lemma runs_app_nul m : runs (m ++ [0]) = runs m.
Proof.
  induction m as [|c m IH]; cbn; [done|]. rewrite IH. destruct (c =? 0); [done|].
  destruct m as [|x m]; done.
Qed.

Lemma length_runs m : (length (runs m) <= length m)%nat.
Proof.
  induction m as [|c m IH]; cbn; [lia|]. destruct (c =? 0); [lia|].
  destruct m as [|x m]; [cbn; lia|]. destruct (x =? 0); [cbn in *; lia|].
  destruct (runs (x :: m)); cbn in *; lia.
Qed.

(** [ini_get] on any loaded buffer. *)
Lemma ini_value_strings data section key :
  ini_value {| ini_data := cut data ++ [0]; ini_end := length data |} section key
  = Some (lookup_strings section key [] (runs (cut data))).
Proof.
  destruct (ini_load_cut data) as [_ Hlen]. unfold ini_value, ini_get. cbn [ini_data ini_end].
  set (m := cut data ++ [0]). set (e := length data).
  assert (Hl : length m = S e) by (subst m e; rewrite length_app, Hlen; cbn; lia).
  assert (He : m !! e = Some 0).
  { subst m e. rewrite lookup_app_r by lia. by rewrite Hlen, Nat.sub_diag. }
  assert (exists p, (c <- rd 0 ;; if c =? chr_nul then next e 0 else ret 0%nat) m = Some (p, m) /\
    at_strings m e p (runs (cut data))) as (p & E & Hat).
  { destruct m as [|c m'] eqn:Em; [done|]. erewrite bind_step by (by apply rd_at).
    assert (Hr : runs (c :: m') = runs (cut data)) by (rewrite <- Em; apply runs_app_nul).
    destruct (Z.eqb_spec c chr_nul) as [->|Hc].
    - unfold next. erewrite bind_step by done.
      destruct (skip_nuls_spec (chr_nul :: m') e Hl He (e - (0 + 0)) (0 + 0)) as (p' & E & H); [lia|].
      exists p'. split; [done|]. by rewrite drop_0, Hr in H.
    - exists 0%nat. split; [done|]. split; [done|lia|done|by rewrite drop_0|]. right.
      rewrite drop_0. eauto. }
  destruct (get_rounds_spec section key e m e None [] p (runs (cut data))) as (r & Eg & Hr).
  { done. }
  { done. }
  { unfold e. rewrite <- Hlen. apply length_runs. }
  unfold bind in *. destruct (rd 0 m) as [[c m']|]; [|done].
  destruct ((if c =? chr_nul then next e 0 else ret 0%nat) m') as [[p0 m0]|]; [|done].
  injection E as -> ->. rewrite Eg. cbn [fmap option_fmap option_map fst mbind option_bind].
  destruct r as [q|]; [|by rewrite Hr]. destruct Hr as (v & -> & ->). done.
Qed.

(** ** The claims *)

(** C17. The parser never leaves its buffer and always ends: whatever bytes the
    file has (NULs, unterminated quotes and brackets, escapes at the very end),
    [ini_load] returns, the buffer still has the length of the text and its
    terminator, and any search in it returns. *)
Theorem ini_total (data : list Z) (section : option (list Z)) (key : list Z) :
  exists ini v,
    ini_load data = Some ini /\
    ini_end ini = length data /\
    length (ini_data ini) = S (length data) /\
    ini_data ini !! length data = Some 0 /\
    ini_value ini section key = Some v.
Proof.
  destruct (ini_load_cut data) as [E Hl]. eexists _, _. split; [exact E|].
  cbn [ini_data ini_end]. rewrite length_app, Hl, lookup_app_r by lia.
  rewrite Hl, Nat.sub_diag. split; [done|]. split; [cbn; lia|]. split; [done|].
  apply ini_value_strings.
Qed.

(** The first entry of a section with a key, both up to case. *)
Fixpoint find_entry (section : option (list Z)) (key cur : list Z) (its : list item) :
    option (list Z) :=
  match its with
  | [] => None
  | Section_ n :: its => find_entry section key n its
  | Entry k v :: its =>
      if section_matches section cur && (strcmpci k key =? 0) then Some v
      else find_entry section key cur its
  end.

Definition entry_ok (i : item) : Prop :=
  match i with Section_ _ => True | Entry k _ => hd 0 k <> chr_open end.

Lemma rtrim_head c k : is_blank c = false -> hd 0 (rtrim (c :: k)) = c.
Proof. intros E. cbn. rewrite E. by destruct (rtrim k). Qed.

Lemma piece_entry_ok l : Forall entry_ok (piece l).1.1.
Proof.
  destruct l as [|c l]; [constructor|]. unfold piece.
  destruct (is_gap c) eqn:Eg; [constructor|].
  destruct (Z.eqb_spec c chr_open) as [->|Hc]; [by repeat constructor|].
  destruct (c =? chr_semi); [constructor|].
  assert (Hb : is_blank c = false).
  { unfold is_gap, is_blank in *. destruct (c =? chr_space), (c =? chr_tab), (c =? chr_cr), (c =? chr_lf); done. }
  assert (Hk : hd 0 (rtrim (take_while in_key (c :: l))) <> chr_open).
  { cbn [take_while]. destruct (in_key c); [|done]. by rewrite rtrim_head. }
  unfold line. set (k := take_while in_key (c :: l)) in *.
  destruct (drop_while in_key (c :: l)) as [|x v]; [constructor|].
  destruct (x =? chr_eq); [|constructor]. unfold value_line.
  destruct (drop_while is_blank v) as [|y w]; [constructor|].
  destruct (_ || _); [constructor|].
  destruct (y =? chr_quote); [case_bool_decide; [constructor|]|]; by repeat constructor.
Qed.

Lemma parse_entry_ok n : forall l, Forall entry_ok (parse_fuel n l).
Proof.
  induction n as [|n IH]; intros [|c l]; try constructor. cbn [parse_fuel].
  apply Forall_app. split; [apply piece_entry_ok|apply IH].
Qed.

Definition has_key (i : item) : Prop :=
  match i with Section_ _ => True | Entry k _ => k <> [] end.
#[global] Instance has_key_dec i : Decision (has_key i).
Proof. destruct i; cbn; apply _. Defined.

Lemma lookup_find section key its : forall cur, Forall entry_ok its -> Forall has_key its ->
  lookup_strings section key cur (concat (strings <$> its)) = find_entry section key cur its.
Proof.
  induction its as [|i its IH]; intros cur H1 H2; [done|].
  inversion H1; inversion H2; subst. destruct i as [n|k v]; cbn.
  - by apply IH.
  - rewrite bool_decide_false by done. cbn.
    destruct (Z.eqb_spec (hd 0 k) chr_open); [done|].
    destruct (_ && _); [done|]. by apply IH.
Qed.

Lemma ini_value_find data section key :
  nulfree data -> Forall has_key (parse data) ->
  ini_value {| ini_data := cut data ++ [0]; ini_end := length data |} section key
  = Some (find_entry section key [] (parse data)).
Proof.
  intros Hnul Hkeys. rewrite ini_value_strings. unfold cut.
  rewrite cut_strings by (lia || by left). f_equal.
  apply lookup_find; [apply parse_entry_ok|exact Hkeys].
Qed.

(** C18. Loading a text and asking for a key gives what the text says: the value
    of the first entry whose section and key are the ones asked for (compared
    without case; any section, when the section is a null pointer), and a null
    pointer when there is none.  The entries are those [parse] reads: lines
    [key = value] under the last section header, blanks around both trimmed,
    quoted values unescaped, comments and lines without a value left out.  The
    text has no NUL, and no line starts with the equals sign. *)
Theorem ini_get_reads_text (data : list Z) (section : option (list Z)) (key : list Z)
    (Hnul : Forall (fun c => c <> 0) data) (Hkeys : Forall has_key (parse data)) :
  exists ini,
    ini_load data = Some ini /\
    ini_value ini section key = Some (find_entry section key [] (parse data)).
Proof.
  destruct (ini_load_cut data) as [E Hl]. eexists. split; [exact E|].
  by apply ini_value_find.
Qed.

Definition sample : list Z :=
  str "[cubeboot]" ++ [10] ++ str "cube_color = ff00aa  " ++ [13; 10] ++ str "; comment = 1" ++ [10] ++
  str "KEY=" ++ [34] ++ str "a\nb" ++ [34] ++ str " x" ++ [10] ++ str "none=" ++ [10] ++ str "last= 1".

Lemma ini_get_reads_text_witness :
  parse sample = [Section_ (str "cubeboot"); Entry (str "cube_color") (str "ff00aa");
                  Entry (str "KEY") [97; 10; 98]; Entry (str "last") (str "1")] /\
  exists ini,
    ini_load sample = Some ini /\
    ini_value ini (Some (str "CubeBoot")) (str "key") = Some (Some [97; 10; 98]).
Proof.
  split; [vm_compute; reflexivity|].
  destruct (ini_get_reads_text sample (Some (str "CubeBoot")) (str "key")) as (ini & E & H).
  - apply (bool_decide_unpack _). vm_compute. exact I.
  - apply (bool_decide_unpack _). vm_compute. exact I.
  - exists ini. split; [exact E|]. rewrite H. vm_compute. reflexivity.
Defined.

(** A line that starts with the equals sign leaves a value without a key, and
    the pairing of every later key and value is off by one. *)
Example stray_equals_shifts :
  let data := str "=x" ++ [10] ++ str "a=b" in
  parse data = [Entry [] (str "x"); Entry (str "a") (str "b")] /\
  match ini_load data with
  | Some ini => ini_value ini None (str "a") = Some None /\
                ini_value ini None (str "b") = Some (Some [])
  | None => False
  end.
Proof. vm_compute. auto. Qed.
