(* ===== verification/FileLoad.v ===== *)
(** Loading whole files (src/cubeboot/source/flippy_sync.c [dvd_read_data],
    uff.c and sd.c).

    The file devices below are an interface, [FileDevice]: the entry points of
    the storage dispatch that this code calls.  [dvd_read_data] goes through a
    static 16 KiB bounce buffer when the caller's buffer, the length or the
    offset is not aligned; the buffer keeps its contents from call to call. *)

From Stdlib Require Import String.
From S2P Require Import Prelude CStr Di Fdrv FlippyEmu.
#[local] Open Scope prog_scope.

Definition FD_IPC_MAXRESP : Z := 1024 * 16.
Definition IPC_FILE_FLAG_DISABLECACHE : Z := 0x01.
Definition IPC_FILE_FLAG_DISABLEFASTSEEK : Z := 0x02.
Definition FR_DISK_ERR : Z := 1.
Definition FR_NOT_OPENED : Z := 4.
Definition SD_OK : Z := 0.
Definition SD_FAIL : Z := -1.

Class FileDevice (W : Type) := {
  dev_open : list Z -> Z -> Z -> M W Z;
  dev_status : list Z -> M W (Z * list Z);
  dev_close : Z -> M W unit;
  dev_read : list Z -> Z -> Z -> Z -> M W (Z * list Z)
}.

(** The storage dispatch as this program builds it. *)
#[export] Instance emu_device {B F} `{DiBus B, DiscDrive B, FatFs F B} :
    FileDevice (emu_state B F) := {
  dev_open := dvd_custom_open mount_dol;
  dev_status := dvd_custom_status;
  dev_close := dvd_custom_close;
  dev_read := dvd_read
}.

Section FileLoad.
Context {W : Type} `{FileDevice W}.

(** The statics of the two files and the device. *)
Record load_state := mk_load {
  aligned_buffer : list Z;
  file_offset : Z;
  file_size : Z;
  current_file : list Z;
  dev : W
}.
Notation P := (M load_state).

Definition set_bounce (b : list Z) (w : load_state) :=
  mk_load b (file_offset w) (file_size w) (current_file w) (dev w).
Definition set_offset (o : Z) (w : load_state) :=
  mk_load (aligned_buffer w) o (file_size w) (current_file w) (dev w).
Definition set_size (s : Z) (w : load_state) :=
  mk_load (aligned_buffer w) (file_offset w) s (current_file w) (dev w).
Definition set_current (b : list Z) (w : load_state) :=
  mk_load (aligned_buffer w) (file_offset w) (file_size w) b (dev w).
Definition set_dev (d : W) (w : load_state) :=
  mk_load (aligned_buffer w) (file_offset w) (file_size w) (current_file w) d.
Definition on_dev {A} (m : M W A) : P A := zoom dev set_dev m.

(** [memcpy(dst + to, src + from, n)] between two buffers: not outside them. *)
Definition memcpy (dst : list Z) (to : nat) (src : list Z) (from n : nat) : option (list Z) :=
  if decide (from + n <= length src /\ to + n <= length dst)%nat
  then Some (splice to (slice from n src) dst) else None.

Definition round_up_32 (n : Z) : Z := Z.land (u32 (n + 31)) (Z.lnot 31).

(** How much one round asks the device for. *)
Definition bounce_request (remaining offset_adjustment : Z) : Z :=
  let to_read := if remaining >? FD_IPC_MAXRESP then FD_IPC_MAXRESP else remaining in
  let to_read := if u32 (to_read + offset_adjustment) >? FD_IPC_MAXRESP
                 then u32 (FD_IPC_MAXRESP - offset_adjustment) else to_read in
  round_up_32 to_read.

(** The loop of [dvd_read_data]; a round moves at most [FD_IPC_MAXRESP] bytes. *)
Fixpoint bounce_rounds (fuel : nat) (dst : list Z) (total_read current_offset remaining fd : Z) :
    P (Z * list Z) :=
  if remaining <=? 0 then ret (0, dst) else
  match fuel with
  | O => spin
  | S fuel =>
      let aligned_offset := Z.land current_offset (Z.lnot 3) in
      let offset_adjustment := u32 (current_offset - aligned_offset) in
      let to_read := bounce_request remaining offset_adjustment in
      w <- get ;;
      '(result, buf) <- on_dev (dev_read (aligned_buffer w) to_read aligned_offset fd) ;;
      modify (set_bounce buf) ;;
      if negb (result =? 0) then ret (result, dst)
      else
        let to_copy := if remaining >? FD_IPC_MAXRESP then FD_IPC_MAXRESP else remaining in
        dst <- of_option (memcpy dst (Z.to_nat total_read) buf (Z.to_nat offset_adjustment)
                            (Z.to_nat to_copy)) ;;
        bounce_rounds fuel dst (u32 (total_read + to_copy)) (u64 (current_offset + to_copy))
          (u32 (remaining - to_copy)) fd
  end.

(** [dst] is the memory at address [addr]. *)
Definition dvd_read_data (addr : Z) (dst : list Z) (len offset fd : Z) : P (Z * list Z) :=
  if negb (Z.land addr 0x1F =? 0) || negb (Z.land len 0x1F =? 0) || negb (Z.land offset 0x3 =? 0)
  then bounce_rounds (Z.to_nat (len / FD_IPC_MAXRESP + 1)) dst 0 offset len fd
  else
    '(result, dst) <- on_dev (dev_read dst len offset fd) ;;
    ret (if negb (result =? 0) then result else 0, dst).

(** ** uff.c *)

(** [(u32)__builtin_bswap64] of the size field. *)
Definition status_size (blob : list Z) : Z :=
  nth 4 blob 0 + 2 ^ 8 * nth 5 blob 0 + 2 ^ 16 * nth 6 blob 0 + 2 ^ 24 * nth 7 blob 0.

Definition uf_open (path : list Z) : P Z :=
  w <- get ;;
  (if negb (blob_fd (current_file w) =? 0) then
     on_dev (dev_close (blob_fd (current_file w))) ;;
     modify (fun w => set_current (splice 12 [0] (current_file w)) w)
   else ret tt) ;;
  modify (set_offset 0) ;;
  r <- on_dev (dev_open path FILE_ENTRY_TYPE_FILE
                 (Z.lor IPC_FILE_FLAG_DISABLECACHE IPC_FILE_FLAG_DISABLEFASTSEEK)) ;;
  if negb (r =? 0) then ret FR_NOT_OPENED
  else
    w <- get ;;
    '(_, blob) <- on_dev (dev_status (current_file w)) ;;
    modify (set_current blob) ;;
    modify (set_size (status_size blob)) ;;
    if negb (blob_result blob =? 0) then ret FR_NOT_OPENED else ret r.

Definition uf_read (addr : Z) (buff : list Z) (btr : Z) : P (Z * list Z) :=
  w <- get ;;
  '(r, buff) <- dvd_read_data addr buff btr (file_offset w) (blob_fd (current_file w)) ;;
  if negb (r =? 0) then ret (FR_DISK_ERR, buff)
  else modify (fun w => set_offset (u32 (file_offset w + btr)) w) ;; ret (FR_OK, buff).

Definition uf_size : P Z := w <- get ;; ret (file_size w).

(** ** sd.c *)

Definition get_file_size (path : list Z) : P Z :=
  r <- uf_open path ;;
  if negb (r =? FR_OK) then ret SD_FAIL else size <- uf_size ;; ret (s32 size).

(** [load_file_buffer]: [buf] is the memory at [addr]. *)
Definition load_file_buffer (path : list Z) (addr : Z) (buf : list Z) : P (Z * list Z) :=
  r <- uf_open path ;;
  if negb (r =? FR_OK) then ret (SD_FAIL, buf)
  else
    size <- uf_size ;;
    '(r, buf) <- uf_read addr buf size ;;
    if negb (r =? FR_OK) then ret (SD_FAIL, buf) else ret (SD_OK, buf).

(** [load_file_dynamic]: the allocator gives a 32-byte aligned block of the
    requested size, or nothing. *)
Variable memalign : Z -> option (Z * list Z).
Definition load_file_dynamic (path : list Z) : P (Z * option (list Z)) :=
  r <- uf_open path ;;
  if negb (r =? FR_OK) then ret (SD_FAIL, None)
  else
    size <- uf_size ;;
    match memalign size with
    | None => ret (SD_FAIL, None)
    | Some (addr, buf) =>
        '(r, buf) <- uf_read addr buf size ;;
        if negb (r =? FR_OK) then ret (SD_FAIL, Some buf) else ret (SD_OK, Some buf)
    end.
End FileLoad.

Arguments load_state W : clear implicits.
