(* ===== verification/FileLoadThms.v ===== *)
(** Loading files: what a successful load has stored, against what the device
    holds. *)

From Stdlib Require Import String.
From S2P Require Import Prelude CStr Di Fdrv FdrvThms FlippyEmu FlippyEmuThms FileLoad.
#[local] Open Scope prog_scope.

(** What the device promises about reads.  At a word offset, for a length that is
    a multiple of 32 and fits the buffer (what a DMA read of the drive takes), a
    read that reports success stores the open file's bytes; no read changes a
    file or writes past the buffer. *)
Class FileReads (W : Type) `{FileDevice W} := {
  readable : W -> Prop;
  content : W -> Z -> list Z;
  dev_read_law : forall dst len offset fd w r dst' w',
    readable w -> 0 <= offset -> offset mod 4 = 0 ->
    0 <= len <= Z.of_nat (length dst) -> len mod 32 = 0 ->
    dev_read dst len offset fd w = Some (r, dst', w') ->
    readable w' /\ (forall fd', content w' fd' = content w fd') /\ length dst' = length dst /\
    (r = 0 -> dst' = splice 0 (slice (Z.to_nat offset) (Z.to_nat len) (content w fd)) dst)
}.

Section Reads.
Context {W : Type} `{FileReads W}.
Implicit Types w : load_state W.

Lemma land_low_3 x : 0 <= x -> Z.land x 3 = x mod 4.
Proof. intros. exact (Z.land_ones x 2 ltac:(lia)). Qed.

Lemma land_not_3 x : x mod 4 = 0 -> Z.land x (Z.lnot 3) = x.
Proof.
  intros Hx. rewrite <- Z.ldiff_land. apply Z.bits_inj'. intros n Hn.
  rewrite Z.ldiff_spec. change 3 with (Z.ones 2).
  destruct (Z.ltb_spec n 2).
  - rewrite Z.ones_spec_low by lia. rewrite andb_false_r.
    symmetry. replace x with (x / 4 * 2 ^ 2) by (change (2 ^ 2) with 4; zdm).
    by rewrite Z.mul_pow2_bits_low.
  - rewrite Z.ones_spec_high by lia. by rewrite andb_true_r.
Qed.

Lemma round_up_32_spec n : 0 <= n <= FD_IPC_MAXRESP ->
  n <= round_up_32 n <= FD_IPC_MAXRESP /\ round_up_32 n mod 32 = 0.
Proof.
  unfold FD_IPC_MAXRESP, round_up_32. intros Hn. rewrite u32_small by lia.
  replace (Z.lnot 31) with (Z.lnot (Z.ones 5)) by done. rewrite <- Z.ldiff_land.
  rewrite Z.ldiff_ones_r, Z.shiftl_mul_pow2, Z.shiftr_div_pow2 by lia.
  change (2 ^ 5) with 32. split; [zdm|]. apply Z.mod_mul. lia.
Qed.

(** One request at a word offset covers what the round copies. *)
Lemma bounce_request_spec remaining : 0 < remaining < 2 ^ 32 ->
  Z.min remaining FD_IPC_MAXRESP <= bounce_request remaining 0 <= FD_IPC_MAXRESP /\
  bounce_request remaining 0 mod 32 = 0.
Proof.
  intros Hr. unfold bounce_request.
  assert (Hm : (if remaining >? FD_IPC_MAXRESP then FD_IPC_MAXRESP else remaining)
    = Z.min remaining FD_IPC_MAXRESP) by (repeat bcase; lia).
  rewrite Hm, Z.add_0_r, u32_small by (unfold FD_IPC_MAXRESP in *; lia).
  replace (Z.min remaining FD_IPC_MAXRESP >? FD_IPC_MAXRESP) with false by (bcase; lia).
  apply round_up_32_spec. unfold FD_IPC_MAXRESP in *; lia.
Qed.

(** The direct transfer is taken for whole cache lines only. *)
Lemma direct_length addr len offset :
  negb (Z.land addr 0x1F =? 0) || negb (Z.land len 0x1F =? 0) || negb (Z.land offset 0x3 =? 0) = false ->
  len mod 32 = 0.
Proof.
  intros [[_ Hl]%orb_false_elim _]%orb_false_elim. apply negb_false_iff, Z.eqb_eq in Hl.
  change 0x1F with (Z.ones 5) in Hl. by rewrite Z.land_ones in Hl.
Qed.

Lemma slice_splice_0 n m (c b : list Z) o :
  (n <= m)%nat -> (o + n <= length c)%nat -> slice 0 n (splice 0 (slice o m c) b) = slice o n c.
Proof.
  intros Hn Ho. unfold splice, slice. rewrite drop_0, take_0, app_nil_l.
  rewrite take_app_le by len. rewrite take_take. f_equal. lia.
Qed.

Hypothesis reads_return : forall dst len offset fd (d : W),
  is_Some (dev_read dst len offset fd d).

Definition file_bytes w fd (offset len : Z) : list Z :=
  slice (Z.to_nat offset) (Z.to_nat len) (content (dev w) fd).

Lemma bounce_fits (b : list Z) : length b = Z.to_nat FD_IPC_MAXRESP -> FD_IPC_MAXRESP <= Z.of_nat (length b).
Proof. intros ->. rewrite Z2Nat.id; [done|]. unfold FD_IPC_MAXRESP. lia. Qed.

(** What a load promises about the state it leaves. *)
Definition kept w w' : Prop :=
  readable (dev w') /\ (forall fd, content (dev w') fd = content (dev w) fd) /\
  file_offset w' = file_offset w /\ file_size w' = file_size w /\
  current_file w' = current_file w /\ length (aligned_buffer w') = length (aligned_buffer w).

Lemma bounce_rounds_spec fuel : forall w dst0 dst done_ offset remaining fd,
  readable (dev w) -> 0 <= offset -> offset mod 4 = 0 -> 0 <= done_ -> done_ mod 4 = 0 ->
  0 <= remaining -> done_ + remaining < 2 ^ 32 -> offset + done_ + remaining < 2 ^ 64 ->
  remaining <= Z.of_nat fuel * FD_IPC_MAXRESP ->
  length (aligned_buffer w) = Z.to_nat FD_IPC_MAXRESP ->
  done_ + remaining <= Z.of_nat (length dst0) ->
  offset + done_ + remaining <= Z.of_nat (length (content (dev w) fd)) ->
  dst = splice 0 (file_bytes w fd offset done_) dst0 ->
  exists r dst' w',
    bounce_rounds fuel dst done_ (offset + done_) remaining fd w = Some (r, dst', w') /\
    kept w w' /\ length dst' = length dst0 /\
    (r = 0 -> dst' = splice 0 (file_bytes w fd offset (done_ + remaining)) dst0).
Proof.
  induction fuel as [|fuel IH]; intros w dst0 dst t offset n fd Hr Ho Ha Ht Hta Hn H32 H64 Hf Hb Hd Hc ->.
  all: assert (Hsz : forall m, 0 <= m <= t + n -> length (splice 0 (file_bytes w fd offset m) dst0) = length dst0)
    by (intros m Hm; apply length_splice; unfold file_bytes; rewrite length_slice by lia; lia).
  { assert (n = 0) as -> by lia. cbn. rewrite Z.add_0_r. eexists _, _, _.
    split; [done|]. split; [done|]. split; [apply Hsz; lia|done]. }
  cbn [bounce_rounds]. destruct (Z.leb_spec n 0) as [|Hn0].
  { assert (n = 0) as -> by lia. rewrite Z.add_0_r. eexists _, _, _.
    split; [done|]. split; [done|]. split; [apply Hsz; lia|done]. }
  rewrite land_not_3 by zdm. rewrite Z.sub_diag. change (u32 0) with 0.
  destruct (bounce_request_spec n) as ([Hq1 Hq2] & Hq3); [lia|]. set (q := bounce_request n 0) in *.
  unfold bind at 1, get at 1. unfold on_dev. unfold bind at 1, zoom at 1.
  destruct (reads_return (aligned_buffer w) q (offset + t) fd (dev w)) as [[[r buf] d] Er].
  assert (Hq0 : 0 <= q <= Z.of_nat (length (aligned_buffer w))).
  { pose proof (bounce_fits _ Hb). unfold FD_IPC_MAXRESP in Hq1. lia. }
  rewrite Er. destruct (dev_read_law _ q (offset + t) _ _ _ _ _ Hr ltac:(lia) ltac:(zdm) Hq0 Hq3 Er)
    as (Hr' & Hc' & Hlb & Hbuf).
  rewrite Hb in Hlb. cbn [bind modify]. unfold bind at 1, modify.
  destruct (Z.eqb_spec r 0) as [->|Hne]; cbn [negb].
  2:{ eexists _, _, _. split; [done|]. split; [split_and!; try done; cbn; congruence|].
      split; [apply Hsz; lia|done]. }
  specialize (Hbuf eq_refl).
  assert (Hm : (if n >? FD_IPC_MAXRESP then FD_IPC_MAXRESP else n) = Z.min n FD_IPC_MAXRESP)
    by (bcase; lia).
  rewrite Hm. set (k := Z.min n FD_IPC_MAXRESP) in *.
  assert (Hk : 0 < k <= n /\ k <= FD_IPC_MAXRESP) by (unfold FD_IPC_MAXRESP in *; lia).
  assert (Hlt : length (file_bytes w fd offset t) = Z.to_nat t) by (apply length_slice; lia).
  unfold memcpy. rewrite decide_True by (rewrite length_splice, Hlb; lia).
  assert (Hsl : slice 0 (Z.to_nat k) buf = slice (Z.to_nat offset + Z.to_nat t) (Z.to_nat k)
                                             (content (dev w) fd)).
  { rewrite Hbuf, Z2Nat.inj_add by lia. apply slice_splice_0; lia. }
  change (Z.to_nat 0) with 0%nat. unfold of_option. rewrite Hsl.
  assert (Hnew : splice (Z.to_nat t)
      (slice (Z.to_nat offset + Z.to_nat t) (Z.to_nat k) (content (dev w) fd))
      (splice 0 (file_bytes w fd offset t) dst0)
    = splice 0 (file_bytes w fd offset (t + k)) dst0).
  { unfold file_bytes at 2. rewrite Z2Nat.inj_add, slice_app by lia.
    rewrite <- splice_splice_adj; [by rewrite Nat.add_0_l, length_slice by lia|].
    rewrite !length_slice by lia. lia. }
  rewrite Hnew, (u32_small (t + k)), (u64_small (offset + t + k)), (u32_small (n - k)) by lia.
  set (w1 := set_bounce buf (set_dev d w)).
  rewrite <- Z.add_assoc.
  assert (Hfb : forall m, file_bytes w1 fd offset m = file_bytes w fd offset m)
    by (intros m; unfold file_bytes; cbn; by rewrite Hc').
  destruct (Z.eq_dec n k) as [Enk|Enk].
  - replace (n - k) with 0 by lia. rewrite Enk.
    exists 0, (splice 0 (file_bytes w fd offset (t + k)) dst0), w1. split; [by destruct fuel|].
    split; [split_and!; try done; cbn; congruence|]. split; [apply Hsz; lia|done].
  - assert (k = FD_IPC_MAXRESP) as Ek by lia.
    destruct (IH w1 dst0 (splice 0 (file_bytes w fd offset (t + k)) dst0) (t + k) offset (n - k) fd)
      as (r & dst' & w' & E & (Hk1 & Hk2 & Hk3 & Hk4 & Hk5 & Hk6) & Hl' & Hres); try done; try lia.
    + rewrite Ek. unfold FD_IPC_MAXRESP. zdm.
    + cbn. rewrite Hc'. lia.
    + by rewrite Hfb.
    + exists r, dst', w'. split; [exact E|]. split.
      * split; [done|]. split; [intros fd'; rewrite Hk2; apply Hc'|].
        split_and!; try done. rewrite Hk6. cbn. congruence.
      * split; [done|]. intros Hr0. rewrite (Hres Hr0), Hfb. do 2 f_equal. lia.
Qed.

Lemma dvd_read_data_spec w addr dst len offset fd :
  readable (dev w) -> 0 <= offset -> offset mod 4 = 0 -> 0 <= len < 2 ^ 32 -> offset + len < 2 ^ 64 ->
  length (aligned_buffer w) = Z.to_nat FD_IPC_MAXRESP ->
  len <= Z.of_nat (length dst) ->
  offset + len <= Z.of_nat (length (content (dev w) fd)) ->
  exists r dst' w',
    dvd_read_data addr dst len offset fd w = Some (r, dst', w') /\
    kept w w' /\ length dst' = length dst /\
    (r = 0 -> dst' = splice 0 (file_bytes w fd offset len) dst).
Proof.
  intros Hr Ho Ha Hl H64 Hb Hd Hc. unfold dvd_read_data.
  destruct (_ || _) eqn:Ebr.
  - destruct (bounce_rounds_spec (Z.to_nat (len / FD_IPC_MAXRESP + 1)) w dst dst 0 offset len fd)
      as (r & dst' & w' & E & Hk & Hres); try done; try lia.
    + unfold FD_IPC_MAXRESP. rewrite Z2Nat.id; zdm.
    + rewrite Z.add_0_r in E. exists r, dst', w'. done.
  - unfold on_dev, bind, zoom, ret.
    destruct (reads_return dst len offset fd (dev w)) as [[[r dst'] d] Er]. rewrite Er.
    destruct (dev_read_law _ _ _ _ _ _ _ _ Hr Ho Ha (conj (proj1 Hl) Hd) (direct_length _ _ _ Ebr) Er)
      as (Hr' & Hc' & Hlb & Hbuf).
    eexists _, _, _. split; [done|]. split; [by repeat split|]. split; [done|].
    destruct (Z.eqb_spec r 0) as [->|]; [|done]. intros _. by apply Hbuf.
Qed.
End Reads.

(** What it promises about opening a file to read it: the status of an open that succeeded names a
    descriptor with the file's bytes and gives their number. *)
Class FileOpens (W : Type) `{FileReads W} := {
  file_at : W -> list Z -> option (list Z);
  dev_open_law : forall path flags blob w r w1 e blob' w2,
    readable w -> length blob = file_status_size -> Z.land flags IPC_FILE_FLAG_WRITE = 0 ->
    dev_open path FILE_ENTRY_TYPE_FILE flags w = Some (r, w1) ->
    readable w1 /\ (forall p, file_at w1 p = file_at w p) /\
    (dev_status blob w1 = Some (e, blob', w2) ->
     readable w2 /\ (forall p, file_at w2 p = file_at w p) /\ length blob' = file_status_size /\
     (r = 0 -> blob_result blob' = 0 ->
      exists c, file_at w path = Some c /\ content w2 (blob_fd blob') = c /\
        status_size blob' = u32 (Z.of_nat (length c))));
  dev_close_law : forall fd w w', readable w -> dev_close fd w = Some (tt, w') ->
    readable w' /\ forall p, file_at w' p = file_at w p;
  dev_read_files : forall dst len offset fd w r dst' w', readable w ->
    dev_read dst len offset fd w = Some (r, dst', w') -> forall p, file_at w' p = file_at w p
}.

Section Opens.
Context {W : Type} `{FileOpens W}.
Implicit Types w : load_state W.

(** A path that fits the buffers it is put together in. *)
Definition short_path (path : list Z) : Prop := is_cstr path /\ (length path < 240)%nat.

(** Every call returns. *)
Record device_returns : Prop := {
  ret_read : forall dst len offset fd (d : W), is_Some (dev_read dst len offset fd d);
  ret_open : forall path type flags (d : W), readable d -> short_path path ->
    is_Some (dev_open path type flags d);
  ret_status : forall blob (d : W), is_Some (dev_status blob d);
  ret_close : forall fd (d : W), is_Some (dev_close fd d) }.
Hypothesis returns : device_returns.

(** The statics have their sizes and the device is usable. *)
Record load_ok w : Prop := {
  ok_readable : readable (dev w);
  ok_bounce : length (aligned_buffer w) = Z.to_nat FD_IPC_MAXRESP;
  ok_current : length (current_file w) = file_status_size }.

Definition same_files w w' : Prop := forall p, file_at (dev w') p = file_at (dev w) p.

(** The files do not change while a load runs. *)
Lemma bounce_rounds_files fuel : forall dst t o n fd w r dst' w',
  readable (dev w) -> 0 <= o -> o mod 4 = 0 -> o + n < 2 ^ 64 -> 0 <= n < 2 ^ 32 ->
  length (aligned_buffer w) = Z.to_nat FD_IPC_MAXRESP ->
  bounce_rounds fuel dst t o n fd w = Some (r, dst', w') -> same_files w w'.
Proof.
  induction fuel as [|fuel IH]; intros dst t o n fd w r dst' w' Hr Ho Ha H64 Hn Hb; cbn [bounce_rounds].
  { destruct (n <=? 0); [|done]. intros [= <- <- <-]. done. }
  destruct (Z.leb_spec n 0); [by intros [= <- <- <-]|].
  rewrite land_not_3 by done. rewrite Z.sub_diag. unfold bind, get, on_dev, zoom, modify, ret, of_option.
  destruct (dev_read _ _ _ _ _) as [[[r1 b] d]|] eqn:Er; [|done].
  pose proof (dev_read_files _ _ _ _ _ _ _ _ Hr Er) as Hf.
  destruct (bounce_request_spec n ltac:(lia)) as ([Hq1 Hq2] & Hq3). change (u32 0) with 0 in Er.
  assert (Hq0 : 0 <= bounce_request n 0 <= Z.of_nat (length (aligned_buffer w))).
  { pose proof (bounce_fits _ Hb). unfold FD_IPC_MAXRESP in Hq1. lia. }
  destruct (dev_read_law _ _ o _ _ _ _ _ Hr Ho Ha Hq0 Hq3 Er)
    as (Hr' & _ & Hl & _).
  destruct (negb (r1 =? 0)); [by intros [= <- <- <-]|].
  assert (Hm : (if n >? FD_IPC_MAXRESP then FD_IPC_MAXRESP else n) = Z.min n FD_IPC_MAXRESP)
    by (bcase; lia).
  rewrite Hm. set (k := Z.min n FD_IPC_MAXRESP) in *.
  assert (Hk : 0 < k <= n /\ k <= FD_IPC_MAXRESP) by (unfold FD_IPC_MAXRESP in *; lia).
  destruct (memcpy _ _ _ _ _) as [dst1|]; [|done].
  rewrite (u64_small (o + k)), (u32_small (n - k)) by lia.
  destruct (Z.eq_dec n k) as [Enk|Enk].
  - replace (n - k) with 0 by lia. destruct fuel; cbn; by intros [= <- <- <-].
  - intros E. apply IH in E; [|exact Hr'|lia|unfold FD_IPC_MAXRESP in *; zdm|lia|lia|cbn; congruence].
    intros p. rewrite E. apply Hf.
Qed.

Lemma dvd_read_data_files addr dst len offset fd w r dst' w' :
  readable (dev w) -> 0 <= offset -> offset mod 4 = 0 -> offset + len < 2 ^ 64 -> 0 <= len < 2 ^ 32 ->
  length (aligned_buffer w) = Z.to_nat FD_IPC_MAXRESP ->
  dvd_read_data addr dst len offset fd w = Some (r, dst', w') -> same_files w w'.
Proof.
  intros Hr Ho Ha H64 Hl Hb. unfold dvd_read_data. destruct (_ || _).
  - by apply bounce_rounds_files.
  - unfold bind, on_dev, zoom, ret. destruct (dev_read _ _ _ _ _) as [[[r1 b] d]|] eqn:Er; [|done].
    intros [= <- <- <-]. exact (dev_read_files _ _ _ _ _ _ _ _ Hr Er).
Qed.

(** [uf_open] finds the file or reports that it could not. *)
Lemma uf_open_spec path w : load_ok w -> short_path path ->
  exists r w', uf_open path w = Some (r, w') /\ load_ok w' /\ same_files w w' /\
    (r = FR_OK \/ r = FR_NOT_OPENED) /\
    (r = FR_OK -> exists c, file_at (dev w) path = Some c /\
       content (dev w') (blob_fd (current_file w')) = c /\
       file_size w' = u32 (Z.of_nat (length c)) /\ file_offset w' = 0).
Proof.
  intros [Hr Hb Hc] Hpath. unfold uf_open. unfold bind at 1, get at 1.
  set (closing := if negb (blob_fd (current_file w) =? 0) then _ else _).
  assert (exists w1, closing w = Some (tt, w1) /\ load_ok w1 /\ same_files w w1) as (w1 & Ec & Hok1 & Hs1).
  { subst closing. destruct (negb _); [|exists w; done].
    unfold bind, on_dev, zoom, modify.
    destruct (ret_close returns (blob_fd (current_file w)) (dev w)) as [[[] d] E]. rewrite E.
    destruct (dev_close_law _ _ _ Hr E) as [Hr' Hf]. eexists. split; [done|]. split; [|done].
    split; [done|done|]. cbn [current_file set_current set_dev]. rewrite length_splice; [done|].
    rewrite Hc. unfold file_status_size. cbn. lia. }
  unfold bind at 1. rewrite Ec. unfold bind at 1, modify at 1.
  set (w2 := set_offset 0 w1). destruct Hok1 as [Hr1 Hb1 Hc1].
  unfold bind at 1, on_dev at 1, zoom at 1.
  destruct (ret_open returns path FILE_ENTRY_TYPE_FILE
    (Z.lor IPC_FILE_FLAG_DISABLECACHE IPC_FILE_FLAG_DISABLEFASTSEEK) (dev w2) Hr1 Hpath) as [[r d] Eo].
  rewrite Eo.
  destruct (ret_status returns (current_file w2) d) as [[[e blob] d2] Es].
  destruct (dev_open_law _ (Z.lor IPC_FILE_FLAG_DISABLECACHE IPC_FILE_FLAG_DISABLEFASTSEEK) (current_file w2) _ _ _ e blob d2 Hr1 Hc1 eq_refl Eo) as (Hrd & Hf & Hst).
  specialize (Hst Es) as (Hr2 & Hf2 & Hl2 & Hfound).
  destruct (Z.eqb_spec r 0) as [->|Hne]; cbn [negb].
  2:{ exists FR_NOT_OPENED, (set_dev d w2). split; [done|]. split; [by split|].
      split; [intros p; cbn; by rewrite Hf, <- Hs1|]. split; [by right|]. done. }
  unfold bind at 1, get at 1, bind at 1, on_dev at 1, zoom at 1. cbn [dev set_dev current_file].
  cbn in Es |- *. rewrite Es. unfold bind, modify, ret.
  assert (Hsf : forall p, file_at d2 p = file_at (dev w) p).
  { intros p. rewrite Hf2. apply Hs1. }
  destruct (Z.eqb_spec (blob_result blob) 0) as [E0|]; cbn [negb].
  - eexists 0, _. split; [done|]. split; [by split|]. split; [exact Hsf|]. split; [by left|].
    intros _. destruct (Hfound eq_refl E0) as (c & Hc' & Hcc & Hsz).
    exists c. split; [by rewrite <- Hs1|]. done.
  - eexists FR_NOT_OPENED, _. split; [done|]. split; [by split|]. split; [exact Hsf|].
    split; [by right|]. done.
Qed.

(** A file has no size only if it could not be opened. *)
Lemma get_file_size_spec path w : load_ok w -> short_path path ->
  exists r w', get_file_size path w = Some (r, w') /\ load_ok w' /\ same_files w w' /\
    (r = SD_FAIL /\ uf_open path w = Some (FR_NOT_OPENED, w') \/
     exists c, file_at (dev w) path = Some c /\ r = s32 (u32 (Z.of_nat (length c))) /\
       uf_open path w = Some (FR_OK, w')).
Proof.
  intros Hok Hp. destruct (uf_open_spec path w Hok Hp) as (r & w' & E & Hok' & Hs & Hr & Hc).
  unfold get_file_size, bind. rewrite E. destruct (Z.eqb_spec r FR_OK) as [->|]; cbn [negb].
  - destruct (Hc eq_refl) as (c & Hf & _ & Hsz & _). unfold uf_size, bind, get, ret. eexists _, _.
    split; [done|]. split; [done|]. split; [done|]. right. exists c. rewrite Hsz. by split_all.
  - eexists _, _. split; [done|]. split; [done|]. split; [done|]. left. split; [done|].
    destruct Hr as [?| ->]; done.
Qed.

(** Loading a file into a buffer that is large enough, whether it succeeds or not. *)
Lemma load_file_buffer_spec path addr buf w : load_ok w -> short_path path ->
  (forall c, file_at (dev w) path = Some c -> Z.of_nat (length c) < 2 ^ 32 /\ (length c <= length buf)%nat) ->
  exists r buf' w', load_file_buffer path addr buf w = Some (r, buf', w') /\ same_files w w' /\
    (r = SD_OK \/ r = SD_FAIL) /\ load_ok w' /\ length buf' = length buf /\
    (r = SD_OK -> exists c, file_at (dev w) path = Some c /\ buf' = splice 0 c buf).
Proof.
  intros Hok Hp Hfit. destruct (uf_open_spec path w Hok Hp) as (r & w1 & E & Hok1 & Hs & Hr & Hc).
  unfold load_file_buffer. unfold bind at 1. rewrite E.
  destruct (Z.eqb_spec r FR_OK) as [->|]; cbn [negb].
  2:{ eexists _, _, _. split; [done|]. split; [done|]. split; [by right|]. done. }
  destruct (Hc eq_refl) as (c & Hf & Hcont & Hsz & Hoff). destruct (Hfit c Hf) as [H32 Hle].
  rewrite u32_small in Hsz by lia.
  unfold bind at 1, uf_size, bind at 1, get at 1, ret at 1.
  unfold bind at 1, uf_read, bind at 1, get at 1. unfold bind at 1. rewrite Hoff, Hsz.
  destruct Hok1 as [Hr1 Hb1 Hc1].
  destruct (dvd_read_data_spec (ret_read returns) w1 addr buf (Z.of_nat (length c)) 0
              (blob_fd (current_file w1))) as (r & buf' & w2 & Er & (Hk1 & Hk2 & Hk3 & Hk4 & Hk5 & Hk6) & Hl2 & Hres);
    try done; try lia.
  { rewrite Hcont. lia. }
  rewrite Er.
  pose proof (dvd_read_data_files addr buf (Z.of_nat (length c)) 0 _ w1 r buf' w2 Hr1 ltac:(lia) ltac:(done) ltac:(lia) ltac:(lia) Hb1 Er) as Hs2.
  assert (Hss : same_files w w2) by (intros p; rewrite Hs2; apply Hs).
  assert (Hok2 : load_ok w2) by (split; [done|congruence|congruence]).
  destruct (Z.eqb_spec r 0) as [->|]; cbn [negb]; unfold bind, modify, ret; cbn; eexists _, _, _;
    (split; [done|]); (split; [exact Hss|]).
  - split; [by left|]. split; [by destruct Hok2|]. split; [done|]. intros _. exists c. split; [done|].
    rewrite (Hres eq_refl). f_equal. unfold file_bytes. rewrite Hcont.
    change (Z.to_nat 0) with 0%nat. rewrite Nat2Z.id. apply slice_all.
  - split; [by right|]. done.
Qed.
End Opens.

Arguments device_returns W {_ _}.

(** ** The storage dispatch is such a device *)

(** Reading does not change what the drive or the volume holds. *)
Class DriveKeeps (B : Type) `{DriveFile B} := {
  drive_keep_law : forall fd wo len b r b',
    di_start (mk_request di_prepare (Z.lor DVD_OEM_READ (fd_field fd)) wo len len 3 []) b = (r, b') ->
    forall fd', drive_content b' fd' = drive_content b fd'
}.
Class FatKeeps (F B : Type) `{FatFsFile F B} := {
  f_lseek_keep : forall o f r f', f_lseek o f = Some (r, f') -> fat_content f' = fat_content f;
  f_read_keep : forall len f r data f', f_read len f = Some (r, data, f') -> fat_content f' = fat_content f
}.

Section EmuDevice.
Context {B F : Type} `{DriveKeeps B, DiscDrive B, FatKeeps F B}.
Implicit Types w : emu_state B F.

(** A device has been chosen, or none yet, and the disc is not passed through. *)
Definition emu_readable w : Prop := passthrough w = false /\ emu_sd_device w < num_devices.

Lemma native_read_keeps dst len offset fd (d : fdrv_state B) e dst' d' :
  0 <= len <= Z.of_nat (length dst) -> len mod 32 = 0 ->
  fdrv_read dst len offset fd d = Some (e, dst', d') ->
  length dst' = length dst /\ forall fd', drive_content (fd_bus d') fd' = drive_content (fd_bus d) fd'.
Proof.
  intros Hl Hm. unfold fdrv_read. destruct (_ >? _); [by intros [= _ <- <-]|].
  unfold fdrv_dma, fdrv_start, bind, ret. change (Z.lor DI_CR_DMA DI_CR_TSTART) with 3.
  destruct (di_start _ _) as [rp b] eqn:Es. unfold fdrv_wait.
  destruct (rp_busy rp); [|done]. unfold ret.
  pose proof (drive_keep_law _ _ _ _ _ _ Es) as Hk.
  destruct (drive_read_law _ _ _ _ _ _ (proj1 Hl) Hm Es) as [Hn _].
  intros [= _ <- <-]. split; [apply length_splice; lia|exact Hk].
Qed.

Lemma fat_read_keeps w dst len offset fd e dst' w' :
  passthrough w = false -> emu_is_native w = false -> 0 <= len <= Z.of_nat (length dst) ->
  dvd_read dst len offset fd w = Some (e, dst', w') ->
  length dst' = length dst /\ fat_content (fat_side w') = fat_content (fat_side w) /\
  passthrough w' = false /\ emu_sd_device w' = emu_sd_device w.
Proof.
  intros Hp En Hl. unfold dvd_read, bind, get, ret. rewrite Hp, En. unfold on_fat, zoom.
  destruct (f_lseek offset (fat_side w)) as [[r1 f]|] eqn:El; [|done].
  pose proof (f_lseek_keep _ _ _ _ El) as K1.
  destruct (negb (r1 =? FR_OK)).
  { intros [= _ <- <-]. rewrite side_set. by split_all. }
  rewrite side_set. destruct (f_read len f) as [[[r2 data] f2]|] eqn:Er; [|done].
  pose proof (f_read_keep _ _ _ _ _ Er) as K2. pose proof (f_read_length _ _ _ _ _ Er) as K3.
  destruct (negb (r2 =? FR_OK)); intros [= _ <- <-]; rewrite side_set;
    (split; [apply length_splice; lia|]); (split; [congruence|done]).
Qed.

Lemma emu_read_law dst len offset fd w r dst' w' :
  emu_readable w -> 0 <= offset -> offset mod 4 = 0 ->
  0 <= len <= Z.of_nat (length dst) -> len mod 32 = 0 ->
  dvd_read dst len offset fd w = Some (r, dst', w') ->
  emu_readable w' /\ (forall fd', open_content w' fd' = open_content w fd') /\ length dst' = length dst /\
  (r = 0 -> dst' = splice 0 (slice (Z.to_nat offset) (Z.to_nat len) (open_content w fd)) dst).
Proof.
  intros [Hp Hd] Ho Ha Hl Hm E. unfold open_content. destruct (emu_is_native w) eqn:En.
  - unfold dvd_read, bind, get, on_fdrv, zoom in E. rewrite Hp, En in E.
    destruct (fdrv_read dst len offset fd (emu_fdrv w)) as [[[e d] f]|] eqn:Er; [|done].
    injection E as -> -> <-. destruct (native_read_keeps _ _ _ _ _ _ _ _ Hl Hm Er) as [H1' H2'].
    split; [by split|]. split; [|split; [done|]].
    + intros fd'. unfold emu_is_native in *. cbn [emu_sd_device set_fdrv emu_fdrv]. rewrite En. apply H2'.
    + intros ->. eapply native_read_spec; eauto. lia.
  - destruct (fat_read_keeps w _ _ _ _ _ _ _ Hp En Hl E) as (H1' & H2' & H3' & H4').
    split; [split; [done|lia]|]. split; [|split; [done|]].
    + intros fd'. unfold emu_is_native in *. rewrite H4', En. apply H2'.
    + intros ->. by eapply fat_read_spec.
Qed.

#[export] Instance emu_reads : FileReads (emu_state B F) := {
  readable := emu_readable;
  content := open_content;
  dev_read_law := emu_read_law
}.
End EmuDevice.

(** A bus on which every command completes, and a FatFs whose calls return. *)
Class BusAnswers (B : Type) `{DiBus B, DiscDrive B} := {
  bus_answers : forall rq b, rp_busy (di_start rq b).1 <> None;
  disc_answers : forall dst len offset fd b, is_Some (normal_dvd_read dst len offset fd b)
}.
Class FatReturns (F B : Type) `{FatFs F B} :=
  fat_returns : forall A (m : M (F * B) A), fat_call A m -> forall x, is_Some (m x).

Section EmuReturns.
Context {B F : Type} `{DriveKeeps B, DiscDrive B, FatKeeps F B, !BusAnswers B, !FatReturns F B}.
Implicit Types w : emu_state B F.

(** A program that always returns. *)
Definition total {S A} (m : M S A) : Prop := forall s, wp m (fun _ _ => True) s.

Lemma total_bind {S A C} (m : M S A) (k : A -> M S C) : total m -> (forall a, total (k a)) -> total (bind m k).
Proof. intros Hm Hk s. apply wp_bind. eapply wp_mono; [apply Hm|]. intros a s' _. apply Hk. Qed.
Lemma total_ret {S A} (a : A) : total (ret a : M S A).
Proof. done. Qed.
Lemma total_start rq : total (S := fdrv_state B) (fdrv_start rq).
Proof. intros d. unfold fdrv_start, wp. by destruct (di_start _ _). Qed.
Lemma total_command rq {C} (k : di_reply -> M (fdrv_state B) C) :
  (forall r, rp_busy r <> None -> total (k r)) -> total (bind (fdrv_start rq) k).
Proof.
  intros Hk d. apply wp_bind. unfold fdrv_start, wp at 1. pose proof (bus_answers rq (fd_bus d)) as Hb.
  destruct (di_start _ _) as [r b]. by apply Hk.
Qed.
Lemma total_wait r : rp_busy r <> None -> total (S := fdrv_state B) (fdrv_wait r).
Proof. unfold fdrv_wait. by destruct (rp_busy r). Qed.
Lemma total_cmd c a0 a1 b : total (S := fdrv_state B) (fdrv_cmd c a0 a1 b).
Proof. apply total_command. intros r Hr. destruct b; [done|by apply total_wait]. Qed.
Lemma total_dma c a0 a1 buf len b : total (S := fdrv_state B) (fdrv_dma c a0 a1 buf len b).
Proof. apply total_command. intros r Hr. apply total_bind; [by apply total_wait|]. done. Qed.
Lemma total_inquiry : total (S := fdrv_state B) fdrv_inquiry.
Proof.
  apply total_bind; [done|]. intros _. apply total_command. intros r _. by apply total_bind.
Qed.
Lemma total_boot_loop n : total (S := fdrv_state B) (fdrv_boot_loop n).
Proof.
  induction n as [|n IH]; [done|]. apply total_bind; [apply total_inquiry|]. intros e.
  apply total_bind; [done|]. intros d. by destruct (_ && _).
Qed.
Lemma total_probe : total (S := fdrv_state B) fdrv_probe.
Proof.
  apply total_bind; [done|]. intros w. destruct (_ >=? _); [done|].
  apply total_bind; [apply total_inquiry|]. intros e. destruct (negb _); [done|].
  apply total_bind; [done|]. intros d. destruct (_ =? _); [by apply total_bind|].
  apply total_bind.
  { apply total_bind; [done|]. intros d'. destruct (is_stock_rel_date _); [|done].
    apply total_bind; [apply total_cmd|]. intros _. apply total_bind; [apply total_inquiry|done]. }
  intros ok. destruct (negb ok); [done|]. apply total_bind.
  { apply total_bind; [done|]. intros d'. destruct (_ =? _); [|done].
    apply total_bind; [apply total_cmd|]. intros _. apply total_bind; [apply total_cmd|].
    intros _. apply total_boot_loop. }
  intros up. destruct (negb up); [done|]. apply total_bind; [done|]. intros d'.
  destruct (_ =? _); [done|]. by destruct (is_stock_rel_date _).
Qed.

Lemma on_fat_total {A} (m : M (F * B) A) w : fat_call A m ->
  wp (on_fat m) (fun _ w' => emu_sd_device w' = emu_sd_device w /\ passthrough w' = passthrough w) w.
Proof. intros Hm. apply wp_zoom. destruct (fat_returns A m Hm (fat_side w)) as [[a x] E]. unfold wp. by rewrite E. Qed.
Lemma on_fdrv_total {A} (m : M (fdrv_state B) A) w : total m ->
  wp (on_fdrv m) (fun _ w' => emu_sd_device w' = emu_sd_device w /\ passthrough w' = passthrough w) w.
Proof. intros Hm. apply wp_zoom. by eapply wp_mono; [apply Hm|]. Qed.

Lemma bring_up_total i w : 0 <= i < num_devices ->
  wp (device_bring_up i) (fun _ w' => emu_sd_device w' = emu_sd_device w) w.
Proof.
  intros Hi. unfold device_bring_up. destruct (_ =? _).
  { eapply wp_mono; [apply on_fdrv_total, total_probe|]. by intros a w' [? _]. }
  destruct (device_name_spec i Hi) as (dev & En & Hc & Hl). rewrite En.
  destruct (device_path_spec dev [] Hc ltac:(constructor) ltac:(cbn; lia)) as (b & Eb & Cb).
  apply wp_bind, wp_ret, wp_bind. rewrite Eb. apply wp_ret, wp_bind. eapply wp_mono; [apply on_fat_total; constructor|].
  intros r w' [? _]. by apply wp_ret.
Qed.
Lemma chain_total n i w : 0 <= i -> i + Z.of_nat n <= num_devices ->
  wp (probe_chain n i) (fun f w' => emu_sd_device w' = emu_sd_device w /\
    forall k, f = Some k -> 0 <= k < num_devices) w.
Proof.
  revert i w. induction n as [|n IH]; intros i w Hi Hn; cbn [probe_chain]; [by apply wp_ret|].
  apply wp_bind. eapply wp_mono; [apply bring_up_total; lia|]. intros [] w' E.
  - apply wp_ret. split; [done|]. intros k [= <-]. lia.
  - eapply wp_mono; [apply IH; lia|]. intros f w2 [E2 ?]. split; [congruence|done].
Qed.
Lemma mount_total w : emu_sd_device w < num_devices ->
  wp (mount_dol (B := B) (F := F)) (fun ok w' => ok = true -> 0 <= emu_sd_device w' < num_devices) w.
Proof.
  intros Hd. unfold mount_dol. apply wp_bind, wp_get. destruct (Z.ltb_spec (emu_sd_device w) 0).
  - apply wp_bind. eapply wp_mono; [apply chain_total; unfold num_devices; lia|]. intros [k|] w' [_ Hk].
    + apply wp_bind, wp_modify, wp_ret. intros _. by apply Hk.
    + by apply wp_ret.
  - apply wp_ret. lia.
Qed.
Lemma close_total fd w : wp (dvd_custom_close fd) (fun _ w' => emu_sd_device w' = emu_sd_device w) w.
Proof.
  unfold dvd_custom_close. apply wp_bind, wp_get. destruct (emu_is_native w).
  - eapply wp_mono; [apply on_fdrv_total; apply total_bind; [apply total_cmd|done]|]. by intros a w' [? _].
  - apply wp_bind. eapply wp_mono; [apply on_fat_total; constructor|]. intros u1 w1 [E1 _].
    eapply wp_mono; [apply on_fat_total; constructor|]. intros u2 w2 [E2 _]. congruence.
Qed.

Lemma open_total path type flags w : emu_sd_device w < num_devices -> short_path path ->
  wp (dvd_custom_open mount_dol path type flags) (fun _ _ => True) w.
Proof.
  intros Hd [Hc Hl]. unfold dvd_custom_open. apply wp_bind. eapply wp_mono; [by apply mount_total|].
  intros [] w1 Hw1; cbn [negb]; [|done]. specialize (Hw1 eq_refl). apply wp_bind, wp_get.
  destruct (emu_is_native w1) eqn:En.
  { eapply wp_mono; [apply on_fdrv_total|done]. apply total_bind; [apply total_dma|]. by intros [e b]. }
  destruct (device_name_spec _ Hw1) as (dev & Ed & Hcd & Hld).
  destruct (device_path_spec dev path Hcd Hc ltac:(lia)) as (b & Eb & Cb).
  apply wp_bind. eapply wp_mono; [apply close_total|]. intros uu w2 E2; cbv beta in E2; clear uu.
  unfold emu_get_device. rewrite (proj2 (Z.ltb_ge _ _)), Ed by lia. apply wp_bind, wp_ret, wp_bind. rewrite Eb. apply wp_ret.
  destruct (_ =? FILE_ENTRY_TYPE_DIR); [|destruct (_ =? FILE_ENTRY_TYPE_FILE); [|done]];
    (apply wp_bind; eapply wp_mono; [apply on_fat_total; constructor|done]).
Qed.

Lemma read_total dst len offset fd w : wp (dvd_read dst len offset fd) (fun _ _ => True) w.
Proof.
  unfold dvd_read. apply wp_bind, wp_get. destruct (passthrough w).
  { unfold on_disc, on_fdrv. apply wp_zoom, wp_zoom. destruct (disc_answers dst len offset fd (fd_bus (emu_fdrv w))) as [[a b] E].
    unfold wp. by rewrite E. }
  destruct (emu_is_native w).
  { eapply wp_mono; [apply on_fdrv_total|done]. unfold fdrv_read. destruct (_ >? _); [done|apply total_dma]. }
  apply wp_bind. eapply wp_mono; [apply on_fat_total; constructor|]. intros r w1 _. destruct (negb _); [done|].
  apply wp_bind. eapply wp_mono; [apply on_fat_total; constructor|]. intros [r2 data] w2 _. by destruct (negb _).
Qed.
Lemma status_total blob w : wp (emu_status blob) (fun _ _ => True) w.
Proof.
  unfold emu_status. apply wp_bind, wp_get. destruct (emu_is_native w).
  - eapply wp_mono; [apply on_fdrv_total|done]. apply total_bind; [apply total_dma|]. by intros [e b].
  - by destruct (_ && _).
Qed.

(** So is the device of the loads. *)
Lemma emu_device_returns : device_returns (emu_state B F).
Proof.
  assert (Hw : forall A (m : M (emu_state B F) A) w, wp m (fun _ _ => True) w -> is_Some (m w)).
  { intros A m w Hm. apply wp_elim in Hm as (a & w' & E & _). by exists (a, w'). }
  split; intros; apply Hw; [apply read_total| |apply status_total|].
  - apply open_total; [|assumption]. match goal with Hr : readable _ |- _ => exact (proj2 Hr) end.
  - eapply wp_mono; [apply close_total|done].
Qed.
End EmuReturns.

(** ** The claims *)

(** C19. Reading at a word offset, with any buffer address and any length, is
    exact and stays inside both buffers: the call returns, and when it reports
    success the destination holds the [len] bytes of the file from the offset on
    (the bytes after them are untouched), however many pieces the 16 KiB bounce
    buffer cut the transfer into. *)
Theorem dvd_read_data_delivers {W} `{FileReads W} (w : load_state W)
    (addr : Z) (dst : list Z) (len offset fd : Z)
    (Hreturns : forall dst len offset fd (d : W), is_Some (dev_read dst len offset fd d))
    (Hready : readable (dev w)) (Hbounce : length (aligned_buffer w) = Z.to_nat FD_IPC_MAXRESP)
    (Hoffset : 0 <= offset) (Hword : offset mod 4 = 0)
    (Hlen : 0 <= len < 2 ^ 32) (Hrange : offset + len < 2 ^ 64)
    (Hdst : len <= Z.of_nat (length dst))
    (Hfile : offset + len <= Z.of_nat (length (content (dev w) fd))) :
  exists r dst' w',
    dvd_read_data addr dst len offset fd w = Some (r, dst', w') /\
    (r = 0 ->
     dst' = slice (Z.to_nat offset) (Z.to_nat len) (content (dev w) fd) ++ drop (Z.to_nat len) dst).
Proof.
  destruct (dvd_read_data_spec Hreturns w addr dst len offset fd)
    as (r & dst' & w' & E & _ & _ & Hr); try done.
  exists r, dst', w'. split; [exact E|]. intros H0'. rewrite (Hr H0').
  unfold splice. rewrite take_0. cbn [app]. f_equal. f_equal.
  rewrite Nat.add_0_l. apply length_slice. lia.
Qed.

(** ** A simulated device: files by path, one of them open *)

Definition sim_dev : Type := list (list Z * list Z) * list Z.
Definition sim_lookup (path : list Z) (d : sim_dev) : option (list Z) :=
  snd <$> List.find (fun e => bool_decide (e.1 = path)) d.1.
Definition sim_blob (c : list Z) : list Z :=
  be32_bytes 0 ++ le64_bytes (Z.of_nat (length c)) ++ [1] ++ replicate 19 0.

#[export] Instance sim_device : FileDevice sim_dev := {
  dev_open p _ _ := fun d =>
    match sim_lookup p d with Some c => Some (0, (d.1, c)) | None => Some (1, d) end;
  dev_status _ := fun d => Some (0, sim_blob d.2, d);
  dev_close _ := fun d => Some (tt, d);
  dev_read dst len offset _ := fun d =>
    Some (0, splice 0 (slice (Z.to_nat offset) (Z.to_nat len) d.2) dst, d)
}.

Lemma sim_read_law dst len offset fd (d : sim_dev) r dst' d' :
  True -> 0 <= offset -> offset mod 4 = 0 ->
  0 <= len <= Z.of_nat (length dst) -> len mod 32 = 0 ->
  dev_read dst len offset fd d = Some (r, dst', d') ->
  True /\ (Z -> d'.2 = d.2) /\ length dst' = length dst /\
  (r = 0 -> dst' = splice 0 (slice (Z.to_nat offset) (Z.to_nat len) d.2) dst).
Proof.
  intros _ _ _ Hl _ [= <- <- <-]. split_all. apply length_splice. unfold slice. len.
Qed.

#[export] Instance sim_reads : FileReads sim_dev := {
  readable _ := True; content d _ := d.2; dev_read_law := sim_read_law }.

Lemma le64_low x : 0 <= x -> status_size (be32_bytes 0 ++ le64_bytes x ++ [1] ++ replicate 19 0) = u32 x.
Proof.
  intros Hx. unfold status_size. cbn [be32_bytes app nth le64_bytes seq fmap list_fmap].
  unfold u8, u32. rewrite !Z.shiftr_div_pow2 by lia.
  change (2 ^ (8 * Z.of_nat 0)) with 1. change (2 ^ (8 * Z.of_nat 1)) with 256.
  change (2 ^ (8 * Z.of_nat 2)) with 65536. change (2 ^ (8 * Z.of_nat 3)) with 16777216.
  change (2 ^ 8) with 256. change (2 ^ 16) with 65536. change (2 ^ 24) with 16777216.
  change (2 ^ 32) with 4294967296. zdm.
Qed.

Lemma sim_open_law path flags blob (d : sim_dev) r d1 e blob' d2 :
  True -> length blob = file_status_size -> Z.land flags IPC_FILE_FLAG_WRITE = 0 ->
  dev_open path FILE_ENTRY_TYPE_FILE flags d = Some (r, d1) ->
  True /\ (forall p, sim_lookup p d1 = sim_lookup p d) /\
  (dev_status blob d1 = Some (e, blob', d2) ->
   True /\ (forall p, sim_lookup p d2 = sim_lookup p d) /\ length blob' = file_status_size /\
   (r = 0 -> blob_result blob' = 0 ->
    exists c, sim_lookup path d = Some c /\ d2.2 = c /\
      status_size blob' = u32 (Z.of_nat (length c)))).
Proof.
  intros _ _ _. cbn. destruct (sim_lookup path d) as [c|] eqn:El; intros [= <- <-].
  - split; [done|]. split; [done|]. intros [= <- <- <-]. cbn [snd].
    split; [done|]. split; [done|]. split; [done|].
    intros _ _. exists c. split; [done|]. split; [done|]. apply le64_low. lia.
  - split; [done|]. split; [done|]. intros [= <- <- <-]. done.
Qed.

#[export] Instance sim_opens : FileOpens sim_dev.
Proof.
  refine {| file_at := fun d p => sim_lookup p d; dev_open_law := sim_open_law |}.
  - by intros ? d d' _ [= <-].
  - by intros ? ? ? ? d r dst' d' _ [= _ _ <-].
Defined.

Lemma sim_returns : device_returns sim_dev.
Proof. split; intros; cbn; try destruct (sim_lookup _ _); eauto. Qed.

Definition sim_load (files : list (list Z * list Z)) (open : list Z) : load_state sim_dev :=
  mk_load (replicate (Z.to_nat FD_IPC_MAXRESP) 0) 0 0 (replicate file_status_size 0) (files, open).

Lemma dvd_read_data_delivers_witness :
  exists dst' w',
    dvd_read_data 0x80000000 [9; 9; 9; 9; 9] 3 4 1 (sim_load [] [10; 11; 12; 13; 14; 15; 16; 17])
      = Some (0, dst', w') /\ dst' = [14; 15; 16; 9; 9].
Proof.
  destruct (@dvd_read_data_delivers sim_dev sim_device sim_reads
              (sim_load [] [10; 11; 12; 13; 14; 15; 16; 17])
              0x80000000 [9; 9; 9; 9; 9] 3 4 1 (ret_read sim_returns) I
              (length_replicate _ _) ltac:(lia) eq_refl ltac:(lia) ltac:(lia)
              ltac:(cbn; lia) ltac:(cbn; lia)) as (r & dst' & w' & E & H).
  assert (Hr : match dvd_read_data 0x80000000 [9; 9; 9; 9; 9] 3 4 1
                       (sim_load [] [10; 11; 12; 13; 14; 15; 16; 17]) with
               | Some (r, _, _) => r | None => 1 end = 0) by (vm_compute; reflexivity).
  rewrite E in Hr. subst r. exists dst', w'. split; [exact E|]. rewrite (H eq_refl). reflexivity.
Defined.

(** Away from word offsets a round asks for too little: the end of each piece is
    whatever the bounce buffer held (zeros here). *)
Example unaligned_offset_loses_bytes :
  match dvd_read_data 0x80000000 (replicate 32 7) 32 1 1 (sim_load [] (Z.of_nat <$> seq 100 40)) with
  | Some (r, dst', _) => r = 0 /\ drop 29 dst' = [130; 131; 0]
  | None => False
  end.
Proof. vm_compute. auto. Qed.
