(* ===== verification/Pcg.v ===== *)
(** The PCG32 generator (src/cubeboot/source/pcg_basic.c) and the random cube
    colour (helpers.c). *)

From S2P Require Import Prelude.

Record pcg32_random_t := mk_pcg { pcg_state : Z; pcg_inc : Z }.

Definition pcg32_random_r (rng : pcg32_random_t) : Z * pcg32_random_t :=
  let oldstate := pcg_state rng in
  let state := u64 (oldstate * 6364136223846793005 + pcg_inc rng) in
  let xorshifted := u32 (Z.shiftr (Z.lxor (Z.shiftr oldstate 18) oldstate) 27) in
  let rot := u32 (Z.shiftr oldstate 59) in
  (Z.lor (Z.shiftr xorshifted rot) (u32 (Z.shiftl xorshifted (Z.land (u32 (- rot)) 31))),
   mk_pcg state (pcg_inc rng)).

Definition pcg32_srandom_r (initstate initseq : Z) : pcg32_random_t :=
  let inc := Z.lor (u64 (Z.shiftl initseq 1)) 1 in
  let rng := snd (pcg32_random_r (mk_pcg 0 inc)) in
  let rng := mk_pcg (u64 (pcg_state rng + initstate)) inc in
  snd (pcg32_random_r rng).

(** The rejection loop has no bound of its own; the model has fuel. *)
Definition bound_threshold (bound : Z) : Z := u32 (- bound) mod bound.
Fixpoint pcg32_boundedrand_r (fuel : nat) (rng : pcg32_random_t) (bound : Z) :
    option (Z * pcg32_random_t) :=
  match fuel with
  | O => None
  | S fuel =>
      let (r, rng) := pcg32_random_r rng in
      if r >=? bound_threshold bound then Some (r mod bound, rng)
      else pcg32_boundedrand_r fuel rng bound
  end.

(** [tick] and [time] are what the clocks say. *)
Definition generate_random_color (fuel : nat) (tick time : Z) : option Z :=
  let seq := tick mod 0x20 in
  let rng := pcg32_srandom_r time (0x97e6 + seq) in
  (fun r => Z.land (fst r) 0x00FFFFFF) <$> pcg32_boundedrand_r fuel rng 0x00FFFFFF.

(** The threshold is the remainder of the generator's range, so the accepted
    outputs are a whole number of copies of [0, bound). *)
Lemma bound_threshold_spec bound : 0 < bound < 2 ^ 32 -> bound_threshold bound = 2 ^ 32 mod bound.
Proof.
  intros Hb. unfold bound_threshold, u32.
  replace (- bound mod 2 ^ 32) with (2 ^ 32 - bound).
  - replace (2 ^ 32 - bound) with (2 ^ 32 + (-1) * bound) by lia. by rewrite Z_mod_plus_full.
  - symmetry. rewrite Z.mod_opp_l_nz; rewrite ?Z.mod_small; lia.
Qed.

Lemma boundedrand_range fuel : forall rng bound r rng',
  0 < bound -> pcg32_boundedrand_r fuel rng bound = Some (r, rng') -> 0 <= r < bound.
Proof.
  induction fuel as [|fuel IH]; intros rng bound r rng' Hb; cbn [pcg32_boundedrand_r]; [done|].
  destruct (pcg32_random_r rng) as [x rng1]. destruct (_ >=? _); [|by apply IH].
  intros [= <- _]. apply Z.mod_pos_bound. lia.
Qed.

Lemma random_color_range fuel tick time c :
  generate_random_color fuel tick time = Some c -> 0 <= c < 0xFFFFFF.
Proof.
  unfold generate_random_color. destruct (pcg32_boundedrand_r _ _ _) as [[r rng]|] eqn:E; [|done].
  intros [= <-]. apply boundedrand_range in E; [|lia]. change 0xFFFFFF with (Z.ones 24) in E |- *.
  cbn [fst]. rewrite Z.land_ones by lia. rewrite Z.mod_small; [done|].
  change (Z.ones 24) with (2 ^ 24 - 1) in E. lia.
Qed.
