(* ===== verification/Settings.v ===== *)
(** The settings (src/cubeboot/source/settings.c, [ini_sget] of ini.c): reading
    [/config.ini] and taking the known keys of its [cubeboot] section. *)

From Stdlib Require Import String.
From S2P Require Import Prelude CStr Ini FileLoad Pcg.
#[local] Open Scope prog_scope.

Record settings_t := mk_settings {
  cube_color : Z;
  cube_logo : option (list Z);
  force_swiss_default : Z;
  show_watermark : Z;
  disable_mcp_select : Z;
  progressive_enabled : Z;
  preboot_delay_ms : Z;
  postboot_delay_ms : Z;
  default_program : option (list Z);
  boot_buttons : list (option (list Z))
}.

(** [memset(&settings, 0, ...)] *)
Definition no_settings : settings_t := mk_settings 0 None 0 0 0 0 0 0 None (replicate 13 None).

Definition buttons_names : list (list Z) :=
  str <$> ["left"; "right"; "down"; "up"; "_"; "_"; "_"; "_"; "_"; "b"; "_"; "y"; "start"]%string.

(** [prog_halt] does not come back. *)
Inductive outcome : Type := Settings (s : settings_t) | Halted.

Section Settings.
Context {W : Type} `{FileDevice W}.

(** [memalign(32, size)]; the library's number scanner for ["%x"], ["%d"] and
    ["%u"]: the count it returns (-1 for EOF) and the value it stores, if any;
    the random colour. *)
Variable memalign : Z -> option (Z * list Z).
Variable scan : Z -> list Z -> Z * option Z.
Variable random_color : option Z.

Definition fmt_x : Z := 120.
Definition fmt_d : Z := 100.
Definition fmt_u : Z := 117.

Definition section_name : list Z := str "cubeboot".

(** [ini_sget] with a format and an integer that holds [dst] before the call:
    the return value and the integer after it. *)
Definition ini_sget (conf : ini_t) (key : list Z) (scanfmt dst : Z) : option (Z * Z) :=
  match ini_value conf (Some section_name) key with
  | None => None
  | Some None => Some (0, dst)
  | Some (Some val) => Some (1, default dst (snd (scan scanfmt val)))
  end.

(** An integer setting. *)
Definition get_int (conf : ini_t) (key : list Z) (scanfmt : Z) : option Z :=
  match ini_sget conf key scanfmt 0 with
  | Some (found, x) => Some (if found =? 0 then 0 else x)
  | None => None
  end.

Definition get_color (conf : ini_t) : option Z :=
  match ini_value conf (Some section_name) (str "cube_color") with
  | None => None
  | Some None => Some 0
  | Some (Some raw) =>
      if bool_decide (raw = str "random") then random_color
      else
        let (vars, x) := scan fmt_x raw in
        Some (if vars =? -1 then 0 else default 0 x)
  end.

(** One round of the loop over the buttons; [sprintf] into 255 bytes. *)
Definition get_button (conf : ini_t) (name : list Z) : option (option (list Z)) :=
  if hd 0 name =? 95 then Some None
  else ini_value conf (Some section_name) (str "button_" ++ name).

(** The part of [load_settings] after [ini_load]. *)
Definition read_settings (conf : ini_t) : option settings_t :=
  color ← get_color conf;
  logo ← ini_value conf (Some section_name) (str "cube_logo");
  program ← ini_value conf (Some section_name) (str "default_program");
  swiss ← get_int conf (str "force_swiss_default") fmt_d;
  progressive ← get_int conf (str "force_progressive") fmt_d;
  preboot ← get_int conf (str "preboot_delay_ms") fmt_u;
  postboot ← get_int conf (str "postboot_delay_ms") fmt_u;
  watermark ← get_int conf (str "show_watermark") fmt_d;
  no_mcp ← get_int conf (str "disable_mcp_select") fmt_d;
  buttons ← mapM (get_button conf) buttons_names;
  Some (mk_settings color logo swiss watermark no_mcp progressive preboot postboot program buttons).

Definition config_path : list Z := str "/config.ini".

Definition load_settings : M (load_state W) outcome :=
  config_size <- get_file_size config_path ;;
  if config_size =? SD_FAIL then ret (Settings no_settings)
  else
    match memalign (config_size + 1) with
    | None => ret Halted
    | Some (addr, config_buf) =>
        '(r, config_buf) <- load_file_buffer config_path addr config_buf ;;
        if negb (r =? SD_OK) then ret Halted
        else
          let n := Z.to_nat config_size in
          conf <- of_option (if decide (n < length config_buf)%nat
                             then ini_load (take n (<[n := 0]> config_buf)) else None) ;;
          s <- of_option (read_settings conf) ;;
          ret (Settings s)
    end.
End Settings.
