(* ===== verification/SettingsThms.v ===== *)
(** The settings against the text of the configuration file. *)

From Stdlib Require Import String.
From S2P Require Import Prelude CStr Ini IniThms Di Fdrv FlippyEmu FileLoad FileLoadThms Pcg Settings.
#[local] Open Scope prog_scope.

Section SettingsSpec.
Context {W : Type} `{FileOpens W}.
Variable memalign : Z -> option (Z * list Z).
Variable scan : Z -> list Z -> Z * option Z.

(** The settings a text stands for: [value key] is the value the text gives the
    key in its [cubeboot] section. *)
Definition int_setting (value : list Z -> option (list Z)) (key : list Z) (fmt : Z) : Z :=
  match value key with None => 0 | Some v => default 0 (snd (scan fmt v)) end.
Definition color_setting (value : list Z -> option (list Z)) (random : Z) : Z :=
  match value (str "cube_color") with
  | None => 0
  | Some v =>
      if bool_decide (v = str "random") then random
      else if fst (scan fmt_x v) =? -1 then 0 else default 0 (snd (scan fmt_x v))
  end.
Definition button_setting (value : list Z -> option (list Z)) (name : list Z) : option (list Z) :=
  if hd 0 name =? 95 then None else value (str "button_" ++ name).
Definition settings_of (value : list Z -> option (list Z)) (random : Z) : settings_t :=
  {| cube_color := color_setting value random;
     cube_logo := value (str "cube_logo");
     force_swiss_default := int_setting value (str "force_swiss_default") fmt_d;
     show_watermark := int_setting value (str "show_watermark") fmt_d;
     disable_mcp_select := int_setting value (str "disable_mcp_select") fmt_d;
     progressive_enabled := int_setting value (str "force_progressive") fmt_d;
     preboot_delay_ms := int_setting value (str "preboot_delay_ms") fmt_u;
     postboot_delay_ms := int_setting value (str "postboot_delay_ms") fmt_u;
     default_program := value (str "default_program");
     boot_buttons := button_setting value <$> buttons_names |}.

(** The value a text gives a key of the [cubeboot] section. *)
Definition config_value (text key : list Z) : option (list Z) :=
  find_entry (Some section_name) key [] (parse text).

Section OnText.
Context (text : list Z) (random : Z).
Hypothesis Hnul : nulfree text.
Hypothesis Hkeys : Forall has_key (parse text).
Let conf := {| ini_data := cut text ++ [0]; ini_end := length text |}.

Lemma conf_value key : ini_value conf (Some section_name) key = Some (config_value text key).
Proof. by apply ini_value_find. Qed.

Lemma get_int_spec key fmt :
  get_int scan conf key fmt = Some (int_setting (config_value text) key fmt).
Proof.
  unfold get_int, ini_sget, int_setting. rewrite conf_value. by destruct (config_value text key).
Qed.

Lemma get_color_spec :
  get_color scan (Some random) conf = Some (color_setting (config_value text) random).
Proof.
  unfold get_color, color_setting. rewrite conf_value.
  destruct (config_value text (str "cube_color")) as [v|]; [|done].
  case_bool_decide; [done|]. by destruct (scan fmt_x v).
Qed.

Lemma get_button_spec names :
  mapM (get_button conf) names = Some (button_setting (config_value text) <$> names).
Proof.
  induction names as [|n names IH]; [done|]. cbn [mapM fmap list_fmap].
  assert (E : get_button conf n = Some (button_setting (config_value text) n)).
  { unfold get_button, button_setting. destruct (hd 0 n =? 95); [done|]. apply conf_value. }
  rewrite E. cbn. by rewrite IH.
Qed.

Lemma read_settings_spec :
  read_settings scan (Some random) conf = Some (settings_of (config_value text) random).
Proof.
  unfold read_settings. rewrite get_color_spec. cbn [mbind option_bind].
  rewrite !conf_value. cbn [mbind option_bind]. rewrite !get_int_spec. cbn [mbind option_bind].
  by rewrite get_button_spec.
Qed.
End OnText.

(** How reading the settings can end.  Without a file that opens they are zero;
    with one, the program stops if there is no memory for it or it does not load,
    and otherwise they are what the text says. *)
Inductive settings_end (random : Z) (w : load_state W) : outcome -> Prop :=
  | se_unopened w1 :
      uf_open config_path w = Some (FR_NOT_OPENED, w1) -> settings_end random w (Settings no_settings)
  | se_no_memory w1 text :
      uf_open config_path w = Some (FR_OK, w1) -> file_at (dev w) config_path = Some text ->
      memalign (Z.of_nat (length text) + 1) = None -> settings_end random w Halted
  | se_not_loaded w1 text addr buf buf' w2 :
      uf_open config_path w = Some (FR_OK, w1) -> file_at (dev w) config_path = Some text ->
      memalign (Z.of_nat (length text) + 1) = Some (addr, buf) ->
      load_file_buffer config_path addr buf w1 = Some (SD_FAIL, buf', w2) -> settings_end random w Halted
  | se_read w1 text addr buf buf' w2 :
      uf_open config_path w = Some (FR_OK, w1) -> file_at (dev w) config_path = Some text ->
      memalign (Z.of_nat (length text) + 1) = Some (addr, buf) ->
      load_file_buffer config_path addr buf w1 = Some (SD_OK, buf', w2) ->
      settings_end random w (Settings (settings_of (config_value text) random)).

(** A configuration file the parser can read: it can be counted, holds no zero
    byte, and each of its entries has a key. *)
Definition config_ok (d : W) : Prop := forall text, file_at d config_path = Some text ->
  Z.of_nat (length text) < 2 ^ 31 - 1 /\ Forall (fun c => c <> 0) text /\ Forall has_key (parse text).

Hypothesis returns : device_returns W.
Hypothesis memalign_size : forall n addr buf, memalign n = Some (addr, buf) -> Z.of_nat (length buf) = n.

Lemma config_short : short_path config_path.
Proof. split; [cstr_lit|vm_compute; lia]. Qed.

Lemma load_settings_ends random w : load_ok w -> config_ok (dev w) ->
  wp (load_settings memalign scan (Some random))
    (fun o w' => load_ok w' /\ same_files w w' /\ settings_end random w o) w.
Proof.
  intros Hok Hconf. unfold load_settings. apply wp_bind.
  destruct (get_file_size_spec returns config_path w Hok config_short) as (r & w1 & E & Hok1 & Hs1 & Hr).
  unfold wp at 1. rewrite E. destruct Hr as [[-> Eo]|(text & Hf & -> & Eo)].
  { apply wp_ret. split; [done|]. split; [done|]. by eapply se_unopened. }
  destruct (Hconf text Hf) as (Hlen & Hnul & Hkeys).
  assert (Es : s32 (u32 (Z.of_nat (length text))) = Z.of_nat (length text)).
  { unfold s32. rewrite !u32_small; [bcase; lia|lia|]. rewrite u32_small; lia. }
  rewrite Es. unfold SD_FAIL. destruct (Z.eqb_spec (Z.of_nat (length text)) (-1)); [lia|].
  destruct (memalign _) as [[addr buf]|] eqn:Em.
  2:{ apply wp_ret. split; [done|]. split; [done|]. by eapply se_no_memory. }
  pose proof (memalign_size _ _ _ Em) as Hm. apply wp_bind.
  destruct (load_file_buffer_spec returns config_path addr buf w1 Hok1 config_short)
    as (r & buf' & w2 & E2 & Hs2 & Hr & Hok2 & _ & Hload).
  { intros c. rewrite Hs1, Hf. intros [= <-]. lia. }
  assert (Hs : same_files w w2) by (intros q; rewrite (Hs2 q); apply Hs1).
  unfold wp at 1. rewrite E2. destruct Hr as [->| ->]; cbn [negb Z.eqb SD_OK SD_FAIL].
  2:{ apply wp_ret. split; [done|]. split; [done|]. by eapply se_not_loaded. }
  destruct (Hload eq_refl) as (c & Hc & ->). rewrite Hs1, Hf in Hc. injection Hc as <-.
  rewrite Nat2Z.id, length_splice by lia. rewrite decide_True by lia.
  assert (Et : take (length text) (<[length text := 0]> (splice 0 text buf)) = text).
  { rewrite take_insert_ge by lia. unfold splice.
    rewrite take_0, app_nil_l. apply take_app_length. }
  rewrite Et. destruct (ini_load_cut text) as [El _]. rewrite El.
  apply wp_bind, wp_ret, wp_bind. rewrite read_settings_spec by done.
  split; [done|]. split; [done|]. by eapply se_read.
Qed.

(** C20. The settings are those of [/config.ini], as long as that is a text the
    parser is made for: no zero byte, no entry without a key, and small enough to
    be counted.  [load_settings] returns.  When the file is missing or opening it
    fails, every setting is zero; when it opens, the program halts if there is no
    memory or the file does not load, and otherwise each setting has the value
    the text gives its key in the [cubeboot] section, found whatever the case,
    and zero where it gives none; buttons with a reserved function cannot be
    configured. *)
Theorem load_settings_reads_config (w : load_state W) (random : Z)
    (Hok : load_ok w) (Hconfig : config_ok (dev w)) :
  exists o w',
    load_settings memalign scan (Some random) w = Some (o, w') /\
    settings_end random w o /\
    (file_at (dev w) config_path = None -> o = Settings no_settings).
Proof.
  destruct (wp_elim _ _ _ (load_settings_ends random w Hok Hconfig)) as (o & w' & E & _ & _ & He).
  exists o, w'. split; [done|]. split; [done|]. intros Hn. destruct He; congruence.
Qed.
End SettingsSpec.

(** Numbers for the witness: decimal digits only. *)
Fixpoint digits (acc : Z) (s : list Z) : Z :=
  match s with
  | c :: s => if (48 <=? c) && (c <=? 57) then digits (10 * acc + (c - 48)) s else acc
  | [] => acc
  end.

Definition sample_config : list Z :=
  str "[cubeboot]" ++ [10] ++ str "Preboot_Delay_MS = 250" ++ [13; 10] ++ str "cube_color=random" ++ [10]
  ++ str "button_b = /swiss.dol" ++ [10] ++ str "button_a = /x.dol" ++ [10].

Definition sample_alloc (n : Z) : option (Z * list Z) :=
  if n <? 0 then None else Some (32, replicate (Z.to_nat n) 0).

Lemma sample_size n addr buf : sample_alloc n = Some (addr, buf) -> Z.of_nat (length buf) = n.
Proof.
  unfold sample_alloc. destruct (Z.ltb_spec n 0); [discriminate|].
  intros [= <- <-]. rewrite length_replicate. lia.
Qed.
Lemma sample_ok : config_ok ([(config_path, sample_config)], []).
Proof.
  intros text Ht. assert (text = sample_config) as -> by (vm_compute in Ht |- *; congruence).
  split; [vm_compute; reflexivity|].
  split; (apply (bool_decide_unpack _); vm_compute; exact I).
Qed.
(** What the sample says, if settings with its delay were read. *)
Lemma sample_settings rc s :
  settings_end sample_alloc (fun _ s => (1, Some (digits 0 s))) rc
    (sim_load [(config_path, sample_config)] []) (Settings s) ->
  (preboot_delay_ms s =? 250) = true ->
  preboot_delay_ms s = 250 /\ cube_color s = rc /\
  boot_buttons s !! 9%nat = Some (Some (str "/swiss.dol")) /\ boot_buttons s !! 8%nat = Some None.
Proof.
  intros He Hd. inversion He as [w1 Eo| | |w1 text ? ? ? ? ? Ht]; subst.
  - vm_compute in Hd. discriminate.
  - assert (text = sample_config) as -> by (vm_compute in Ht |- *; congruence).
    vm_compute. auto.
Qed.

Lemma load_settings_reads_config_witness :
  exists rc s w',
    generate_random_color 2 5 7 = Some rc /\
    load_settings sample_alloc (fun _ s => (1, Some (digits 0 s)))
      (Some rc) (sim_load [(config_path, sample_config)] []) = Some (Settings s, w') /\
    preboot_delay_ms s = 250 /\ cube_color s = rc /\
    boot_buttons s !! 9%nat = Some (Some (str "/swiss.dol")) /\
    boot_buttons s !! 8%nat = Some None.
Proof.
  destruct (generate_random_color 2 5 7) as [rc|] eqn:Erc; [|vm_compute in Erc; discriminate].
  destruct (load_settings_reads_config sample_alloc
    (fun _ s => (1, Some (digits 0 s))) sim_returns sample_size
    (sim_load [(config_path, sample_config)] []) rc)
    as (o & w' & E & Ho & _).
  - split; [exact I|apply length_replicate|apply length_replicate].
  - exact sample_ok.
  - assert (Hd : match load_settings sample_alloc (fun _ s => (1, Some (digits 0 s)))
        (Some rc) (sim_load [(config_path, sample_config)] []) with
      | Some (Settings s, _) => preboot_delay_ms s =? 250 | _ => false end = true)
      by (vm_compute; reflexivity).
    rewrite E in Hd. destruct o as [s|]; [|discriminate].
    exists rc, s, w'. split; [reflexivity|]. split; [exact E|].
    apply sample_settings; [exact Ho|exact Hd].
Defined.
