(* ===== verification/GmAssets.v ===== *)
(** The asset buffers of the game list (src/patches/source/games.c, lines 67 to
    345): two pools of 128 picture buffers, and for every entry an icon and a
    banner that move between a buffer and their place in ARAM.

    The ARAM queue is used through what its own theorems say of it: requests are
    served in the order they were posted, each is one transfer followed by one
    callback.  Posting a request block that is still queued corrupts the queue's
    links and has no run here. *)

From S2P Require Import Prelude.
#[local] Open Scope prog_scope.

Inductive gm_load_state_t := NONE | SETUP | UNLOADED | UNLOADING | LOADING | LOADED.
#[export] Instance gm_load_state_eq_dec : EqDecision gm_load_state_t.
Proof. solve_decision. Defined.

(** Icons and banners are the same code twice, over their own pool. *)
Inductive kind := Icon | Banner.
#[export] Instance kind_eq_dec : EqDecision kind.
Proof. solve_decision. Defined.

Definition ASSET_BUFFER_COUNT : nat := 128.
Definition ICON_PIXELDATA_LEN : nat := 32 * 32 * 2.
Definition BNR_PIXELDATA_LEN : nat := 96 * 32 * 2.
Definition pixeldata_len (k : kind) : nat :=
  match k with Icon => ICON_PIXELDATA_LEN | Banner => BNR_PIXELDATA_LEN end.

(** [gm_icon_buf_t] and [gm_banner_buf_t]. *)
Record gm_buf := mk_buf { used : Z; data : list Z }.

(** [gm_icon_t] and [gm_banner_t], the request block apart; a buffer pointer is
    its index in the pool, [None] is the null pointer. *)
Record gm_asset := mk_asset {
  state : gm_load_state_t;
  schedule_free : bool;
  aram_offset : Z;
  buf : option nat
}.
Definition set_state (s : gm_load_state_t) (a : gm_asset) :=
  mk_asset s (schedule_free a) (aram_offset a) (buf a).
Definition set_aram (o : Z) (a : gm_asset) := mk_asset (state a) (schedule_free a) o (buf a).
Definition set_buf (b : option nat) (a : gm_asset) :=
  mk_asset (state a) (schedule_free a) (aram_offset a) b.
Definition set_schedule_free (a : gm_asset) := mk_asset (state a) true (aram_offset a) (buf a).
(** After [memset(backing, 0, ...)]. *)
Definition no_asset : gm_asset := mk_asset NONE false 0 None.

(** An entry's icon or banner. *)
Definition asset_id : Type := kind * nat.

(** A queued transfer: the asset whose request block it is, the pool buffer and
    the ARAM address, and the callback. *)
Inductive arq_callback := CallSetup | CallUnload | CallLoad.
Record arq_request := mk_req {
  rq_asset : asset_id;
  rq_to_aram : bool;
  rq_buf : nat;
  rq_aram : Z;
  rq_callback : arq_callback
}.

Record gm_world := mk_gm {
  pool : kind -> list gm_buf;
  assets : asset_id -> gm_asset;
  queue : list arq_request;
  aram : Z -> Z
}.
Notation P := (M gm_world).

Definition set_pool (k : kind) (p : list gm_buf) (w : gm_world) :=
  mk_gm (upd (pool w) k p) (assets w) (queue w) (aram w).
Definition set_asset (id : asset_id) (a : gm_asset) (w : gm_world) :=
  mk_gm (pool w) (upd (assets w) id a) (queue w) (aram w).
Definition set_queue (q : list arq_request) (w : gm_world) :=
  mk_gm (pool w) (assets w) q (aram w).
Definition set_aram_mem (m : Z -> Z) (w : gm_world) := mk_gm (pool w) (assets w) (queue w) m.

Definition asset (id : asset_id) : P gm_asset := fun w => Some (assets w id, w).
Definition change (id : asset_id) (f : gm_asset -> gm_asset) : P unit :=
  fun w => Some (tt, set_asset id (f (assets w id)) w).

(** ** The pools *)

Fixpoint first_free (bs : list gm_buf) : option nat :=
  match bs with
  | [] => None
  | b :: bs => if used b =? 0 then Some 0%nat else S <$> first_free bs
  end.
Definition mark (u : Z) (i : nat) (bs : list gm_buf) : list gm_buf :=
  alter (fun b => mk_buf u (data b)) i bs.

Definition gm_get_buf (k : kind) : P (option nat) :=
  fun w => match first_free (pool w k) with
           | Some i => Some (Some i, set_pool k (mark 1 i (pool w k)) w)
           | None => Some (None, w)
           end.
Definition gm_get_icon_buf : P (option nat) := gm_get_buf Icon.
Definition gm_get_banner_buf : P (option nat) := gm_get_buf Banner.

Definition gm_free_buf (k : kind) (b : option nat) : P unit :=
  match b with
  | None => ret tt
  | Some i => modify (fun w => set_pool k (mark 0 i (pool w k)) w)
  end.
Definition gm_free_icon_buf : option nat -> P unit := gm_free_buf Icon.
Definition gm_free_banner_buf : option nat -> P unit := gm_free_buf Banner.

Definition gm_count_buf (k : kind) (w : gm_world) : nat :=
  length (filter (fun b => used b = 1) (pool w k)).
Definition gm_count_icon_buf : gm_world -> nat := gm_count_buf Icon.
Definition gm_count_banner_buf : gm_world -> nat := gm_count_buf Banner.

(** Over the first [n] entries. *)
Definition gm_count_pending_free (n : nat) (w : gm_world) : nat :=
  length (filter (fun id => schedule_free (assets w id) = true)
            (((fun i => (Icon, i)) <$> seq 0 n) ++ ((fun i => (Banner, i)) <$> seq 0 n))).

(** ** The ARAM queue *)

Definition queued (id : asset_id) (w : gm_world) : bool :=
  existsb (fun r => bool_decide (rq_asset r = id)) (queue w).

(** [dolphin_ARQPostRequest] on the asset's own request block. *)
Definition post (r : arq_request) : P unit :=
  fun w => if queued (rq_asset r) w then None else Some (tt, set_queue (queue w ++ [r]) w).

Definition aram_store (off : Z) (bs : list Z) (m : Z -> Z) : Z -> Z := fun a =>
  if (off <=? a) && (a <? off + Z.of_nat (length bs)) then nth (Z.to_nat (a - off)) bs 0 else m a.
Definition aram_load (off : Z) (n : nat) (m : Z -> Z) : list Z :=
  (fun i => m (off + Z.of_nat i)) <$> seq 0 n.

(** The transfer of a request. *)
Definition transfer (r : arq_request) : P unit :=
  let k := (rq_asset r).1 in
  modify (fun w =>
    match pool w k !! rq_buf r with
    | None => w
    | Some b =>
        if rq_to_aram r then set_aram_mem (aram_store (rq_aram r) (data b) (aram w)) w
        else set_pool k (<[rq_buf r := mk_buf (used b)
                             (aram_load (rq_aram r) (pixeldata_len k) (aram w))]> (pool w k)) w
    end).

Definition arq_callback_setup (id : asset_id) : P unit := change id (set_state LOADED).
Definition arq_callback_unload (id : asset_id) : P unit :=
  change id (set_state UNLOADED) ;;
  a <- asset id ;;
  gm_free_buf id.1 (buf a).
Definition arq_callback_load (id : asset_id) : P unit := change id (set_state LOADED).
Definition arq_icon_callback_setup (i : nat) := arq_callback_setup (Icon, i).
Definition arq_icon_callback_unload (i : nat) := arq_callback_unload (Icon, i).
Definition arq_icon_callback_load (i : nat) := arq_callback_load (Icon, i).
Definition arq_banner_callback_setup (i : nat) := arq_callback_setup (Banner, i).
Definition arq_banner_callback_unload (i : nat) := arq_callback_unload (Banner, i).
Definition arq_banner_callback_load (i : nat) := arq_callback_load (Banner, i).

(** The queue finishes its oldest request. *)
Definition arq_complete : P unit :=
  w <- get ;;
  match queue w with
  | [] => ret tt
  | r :: q =>
      put (set_queue q w) ;;
      transfer r ;;
      match rq_callback r with
      | CallSetup => arq_callback_setup (rq_asset r)
      | CallUnload => arq_callback_unload (rq_asset r)
      | CallLoad => arq_callback_load (rq_asset r)
      end
  end.

(** ** Moving an asset

    The source of a transfer is [buf->data]: a null [buf] has no run. *)

Definition asset_setup_with (s : gm_load_state_t) (c : arq_callback) (id : asset_id) (off : Z) : P unit :=
  change id (set_aram off) ;;
  change id (set_state s) ;;
  a <- asset id ;;
  b <- of_option (buf a) ;;
  post (mk_req id true b off c).
Definition asset_setup : asset_id -> Z -> P unit := asset_setup_with SETUP CallSetup.
Definition asset_setup_unload : asset_id -> Z -> P unit := asset_setup_with UNLOADING CallUnload.
Definition gm_icon_setup (i : nat) := asset_setup (Icon, i).
Definition gm_icon_setup_unload (i : nat) := asset_setup_unload (Icon, i).
Definition gm_banner_setup (i : nat) := asset_setup (Banner, i).
Definition gm_banner_setup_unload (i : nat) := asset_setup_unload (Banner, i).

Definition asset_load (id : asset_id) : P unit :=
  a <- asset id ;;
  if bool_decide (state a = NONE \/ state a = LOADED) then ret tt
  else
    change id (set_state LOADING) ;;
    p <- gm_get_buf id.1 ;;
    match p with
    | None => ret tt
    | Some b =>
        change id (set_buf (Some b)) ;;
        a <- asset id ;;
        post (mk_req id false b (aram_offset a) CallLoad)
    end.
Definition gm_icon_load (i : nat) := asset_load (Icon, i).
Definition gm_banner_load (i : nat) := asset_load (Banner, i).

(** The common end of the two [free] functions. *)
Definition asset_release (id : asset_id) : P unit :=
  a <- asset id ;;
  if bool_decide (state a = LOADING \/ state a = SETUP) then change id set_schedule_free
  else
    change id (set_state UNLOADING) ;;
    gm_free_buf id.1 (buf a) ;;
    change id (set_buf None) ;;
    change id (set_state UNLOADED).
Definition gm_icon_free (i : nat) : P unit :=
  a <- asset (Icon, i) ;;
  if bool_decide (state a = NONE) then ret tt else asset_release (Icon, i).
Definition gm_banner_free (i : nat) : P unit :=
  a <- asset (Banner, i) ;;
  if bool_decide (state a = NONE \/ state a = UNLOADING) then ret tt else asset_release (Banner, i).

(** [gm_init_heap]: the pools are cleared. *)
Definition gm_init_pools (w : gm_world) : gm_world :=
  mk_gm (fun k => replicate ASSET_BUFFER_COUNT (mk_buf 0 (replicate (pixeldata_len k) 0)))
    (assets w) (queue w) (aram w).

(** The part of [gm_load_banner] that puts a picture it has just read into a
    buffer of its own and sends it to ARAM; [false] when no buffer is left. *)
Definition stage (id : asset_id) (pixels : list Z) (off : Z) (force_unload : bool) : P bool :=
  change id (set_state LOADING) ;;
  p <- gm_get_buf id.1 ;;
  match p with
  | None => ret false
  | Some b =>
      modify (fun w => set_pool id.1
        (alter (fun x => mk_buf (used x) (splice 0 pixels (data x))) b (pool w id.1)) w) ;;
      change id (set_buf (Some b)) ;;
      (if force_unload then asset_setup_unload id off else asset_setup id off) ;;
      ret true
  end.
Definition gm_stage_banner (i : nat) := stage (Banner, i).
