(* ===== verification/GmAssetsThms.v ===== *)
(** The asset buffers: whatever the order of loads, frees and finished
    transfers, a picture on the screen is the entry's own. *)

From S2P Require Import Prelude GmAssets.
#[local] Open Scope prog_scope.

(** ** Updates and lists *)

Lemma first_free_spec bs i : first_free bs = Some i -> exists b, bs !! i = Some b /\ used b = 0.
Proof.
  revert i. induction bs as [|b bs IH]; intros i; cbn; [done|].
  destruct (Z.eqb_spec (used b) 0); [intros [= <-]; eauto|].
  destruct (first_free bs) as [j|]; [|done]. intros [= <-]. cbn. eauto.
Qed.

Lemma mark_eq u i bs b : bs !! i = Some b -> mark u i bs !! i = Some (mk_buf u (data b)).
Proof. intros E. unfold mark. by rewrite list_lookup_alter_eq, E. Qed.
Lemma mark_ne u i j bs : i <> j -> mark u i bs !! j = bs !! j.
Proof. intros. unfold mark. by rewrite list_lookup_alter_ne. Qed.

Lemma aram_load_store off bs m : aram_load off (length bs) (aram_store off bs m) = bs.
Proof.
  unfold aram_load. apply list_eq. intros i. rewrite list_lookup_fmap.
  destruct (decide (i < length bs)%nat) as [Hi|Hi].
  - rewrite lookup_seq_lt by done. cbn. unfold aram_store.
    rewrite (proj2 (Z.leb_le _ _)), (proj2 (Z.ltb_lt _ _)) by lia. cbn [andb].
    replace (Z.to_nat (off + Z.of_nat i - off)) with i by lia.
    destruct (lookup_lt_is_Some_2 bs i Hi) as [x Hx]. rewrite Hx.
    f_equal. by apply nth_lookup_Some.
  - rewrite lookup_seq_ge by lia. rewrite lookup_ge_None_2 by lia. done.
Qed.

Lemma aram_load_other off n off' bs m :
  off + Z.of_nat n <= off' \/ off' + Z.of_nat (length bs) <= off ->
  aram_load off n (aram_store off' bs m) = aram_load off n m.
Proof.
  intros Hd. unfold aram_load. apply list_fmap_ext. intros k x Hk.
  apply lookup_seq in Hk as [-> Hk]. unfold aram_store.
  destruct (_ && _) eqn:E; [|done]. apply andb_prop in E as [E1%Z.leb_le E2%Z.ltb_lt]. lia.
Qed.

Lemma length_aram_load off n m : length (aram_load off n m) = n.
Proof. unfold aram_load. len. Qed.

(** ** The invariant *)

Section Invariant.
(** The picture of every asset and its place in ARAM; the places are disjoint. *)
Variable art : asset_id -> list Z.
Variable place : asset_id -> Z.
Definition plen (id : asset_id) : nat := pixeldata_len id.1.
Hypothesis art_len : forall id, length (art id) = plen id.
Hypothesis places : forall id id', id <> id' ->
  place id + Z.of_nat (plen id) <= place id' \/ place id' + Z.of_nat (plen id') <= place id.

Implicit Types w : gm_world.

Definition saved w id : Prop := aram_load (place id) (plen id) (aram w) = art id.
(** The buffer [b] belongs to the asset and is marked used. *)
Definition owns w id (b : nat) : Prop :=
  buf (assets w id) = Some b /\ exists x, pool w id.1 !! b = Some x /\ used x = 1.
Definition shows w id (b : nat) : Prop := exists x, pool w id.1 !! b = Some x /\ data x = art id.

Record request_ok w (r : arq_request) : Prop := {
  req_place : rq_aram r = place (rq_asset r);
  req_owns : owns w (rq_asset r) (rq_buf r);
  req_kind : match rq_callback r with
             | CallLoad => rq_to_aram r = false /\ saved w (rq_asset r) /\
                           state (assets w (rq_asset r)) = LOADING
             | _ => rq_to_aram r = true /\ shows w (rq_asset r) (rq_buf r) /\
                    state (assets w (rq_asset r)) ∈ [SETUP; UNLOADING; LOADING]
             end }.

Definition idle_ok w id : Prop :=
  match state (assets w id) with
  | NONE => True
  | SETUP | UNLOADING => False
  | UNLOADED | LOADING => saved w id
  | LOADED => saved w id /\ exists b, owns w id b /\ shows w id b
  end.

Definition holds w id (b : nat) : Prop :=
  buf (assets w id) = Some b /\ (queued id w = true \/ state (assets w id) = LOADED).

Record inv w : Prop := {
  inv_pool : forall k i x, pool w k !! i = Some x -> length (data x) = pixeldata_len k;
  inv_queue : NoDup (rq_asset <$> queue w);
  inv_requests : forall r, r ∈ queue w -> request_ok w r;
  inv_idle : forall id, queued id w = false -> idle_ok w id;
  inv_place : forall id, state (assets w id) <> NONE -> aram_offset (assets w id) = place id;
  inv_distinct : forall id id' b, id.1 = id'.1 -> holds w id b -> holds w id' b -> id = id' }.

Lemma queued_true id w : queued id w = true <-> exists r, r ∈ queue w /\ rq_asset r = id.
Proof.
  unfold queued. rewrite existsb_exists. split; intros (r & Hr & E); exists r.
  - apply list_elem_of_In in Hr. split; [done|]. by apply bool_decide_eq_true in E.
  - split; [by apply list_elem_of_In|]. by apply bool_decide_eq_true.
Qed.
Lemma queued_false id w : queued id w = false <-> forall r, r ∈ queue w -> rq_asset r <> id.
Proof.
  rewrite <- not_true_iff_false, queued_true. naive_solver.
Qed.

(** An asset that holds a buffer owns it. *)
Lemma holds_owns w id b : inv w -> holds w id b -> owns w id b.
Proof.
  intros Hi [Hb Hh]. destruct (queued id w) eqn:Eq.
  - apply queued_true in Eq as (r & Hr & <-).
    destruct (inv_requests _ Hi r Hr) as [_ [Hb' Hx] _]. rewrite Hb in Hb'. injection Hb' as ->.
    by split.
  - destruct Hh as [?|Hs]; [done|]. pose proof (inv_idle _ Hi id Eq) as H. unfold idle_ok in H.
    rewrite Hs in H. destruct H as (_ & b' & [Hb' Hx] & _). rewrite Hb in Hb'. injection Hb' as <-.
    by split.
Qed.

(** What an operation on the asset [id] has to show: the others keep what they
    hold, and [id] is in order. *)
Record frame w w' id : Prop := {
  fr_pool : forall k i x, pool w' k !! i = Some x -> length (data x) = pixeldata_len k;
  fr_queue : NoDup (rq_asset <$> queue w');
  fr_assets : forall id', id' <> id -> assets w' id' = assets w id';
  fr_buf : forall id' b, id' <> id -> holds w id' b -> pool w' id'.1 !! b = pool w id'.1 !! b;
  fr_requests : forall r, rq_asset r <> id -> r ∈ queue w' <-> r ∈ queue w;
  fr_saved : forall id', id' <> id -> saved w id' -> saved w' id';
  fr_own_request : forall r, r ∈ queue w' -> rq_asset r = id -> request_ok w' r;
  fr_own_idle : queued id w' = false -> idle_ok w' id;
  fr_own_place : state (assets w' id) <> NONE -> aram_offset (assets w' id) = place id;
  fr_own_buf : forall b, holds w' id b -> forall id', id' <> id -> id'.1 = id.1 -> ~ holds w id' b }.

Lemma frame_queued w w' id id' : frame w w' id -> id' <> id -> queued id' w' = queued id' w.
Proof.
  intros F Hne. apply eq_bool_prop_intro. rewrite !Is_true_true, !queued_true.
  split; intros (r & Hr & <-); exists r; (split; [|done]); by apply (fr_requests _ _ _ F).
Qed.

Lemma frame_holds w w' id id' b : frame w w' id -> id' <> id -> holds w' id' b <-> holds w id' b.
Proof.
  intros F Hne. unfold holds. by rewrite (fr_assets _ _ _ F), (frame_queued _ _ _ _ F).
Qed.

Lemma frame_inv w w' id : inv w -> frame w w' id -> inv w'.
Proof.
  intros Hi F.
  assert (Hown : forall id' b, id' <> id -> holds w id' b -> owns w' id' b).
  { intros id' b Hne Hh. pose proof (holds_owns _ _ _ Hi Hh) as [Hb (x & Hx & Hu)].
    split; [by rewrite (fr_assets _ _ _ F)|]. exists x. by rewrite (fr_buf _ _ _ F). }
  assert (Hshow : forall id' b, id' <> id -> holds w id' b -> shows w id' b -> shows w' id' b).
  { intros id' b Hne Hh (x & Hx & Hd). exists x. by rewrite (fr_buf _ _ _ F). }
  split.
  - apply (fr_pool _ _ _ F).
  - apply (fr_queue _ _ _ F).
  - intros r Hr. destruct (decide (rq_asset r = id)) as [|Hne]; [by eapply fr_own_request|].
    apply (fr_requests _ _ _ F) in Hr; [|done].
    destruct (inv_requests _ Hi r Hr) as [Hp [Hb Hx] Hk].
    assert (Hh : holds w (rq_asset r) (rq_buf r)).
    { split; [done|]. left. apply queued_true. eauto. }
    split; [done|by apply Hown|]. rewrite (fr_assets _ _ _ F) by done.
    destruct (rq_callback r); (destruct Hk as (? & Hsv & ?); split; [done|]; split; [|done]).
    + by apply Hshow.
    + by apply Hshow.
    + by apply (fr_saved _ _ _ F).
  - intros id' Hq. destruct (decide (id' = id)) as [->|Hne]; [by apply (fr_own_idle _ _ _ F)|].
    rewrite (frame_queued _ _ _ _ F) in Hq by done. pose proof (inv_idle _ Hi id' Hq) as H.
    unfold idle_ok in *. rewrite (fr_assets _ _ _ F) by done.
    destruct (state (assets w id')) eqn:Es; try done; try (by apply (fr_saved _ _ _ F)).
    destruct H as (Hs & b & Ho & Hsh). split; [by apply (fr_saved _ _ _ F)|].
    assert (Hh : holds w id' b) by (split; [apply Ho|by right]). exists b. split; auto.
  - intros id'. destruct (decide (id' = id)) as [->|Hne]; [apply (fr_own_place _ _ _ F)|].
    rewrite (fr_assets _ _ _ F) by done. apply (inv_place _ Hi).
  - intros id1 id2 b Hk H1 H2.
    destruct (decide (id1 = id)) as [->|Hn1]; destruct (decide (id2 = id)) as [->|Hn2]; try done.
    + rewrite (frame_holds _ _ _ _ _ F) in H2 by done. by destruct (fr_own_buf _ _ _ F b H1 id2 Hn2).
    + rewrite (frame_holds _ _ _ _ _ F) in H1 by done. by destruct (fr_own_buf _ _ _ F b H2 id1 Hn1).
    + rewrite (frame_holds _ _ _ _ _ F) in H1 by done.
      rewrite (frame_holds _ _ _ _ _ F) in H2 by done. by eapply (inv_distinct _ Hi).
Qed.

(** ** The operations *)

Lemma req_in_queue w id : queued id w = true -> exists r, r ∈ queue w /\ rq_asset r = id.
Proof. apply queued_true. Qed.

Lemma queue_unique w r r' : inv w -> r ∈ queue w -> r' ∈ queue w -> rq_asset r = rq_asset r' -> r = r'.
Proof.
  intros Hi Hr Hr' E. apply list_elem_of_lookup in Hr as [i Hi1]. apply list_elem_of_lookup in Hr' as [j Hj1].
  assert (i = j) as ->; [|congruence].
  apply (NoDup_lookup _ i j (rq_asset r) (inv_queue _ Hi)).
  - by rewrite list_lookup_fmap, Hi1.
  - by rewrite list_lookup_fmap, Hj1, E.
Qed.

(** Changing an asset's own record. *)
Lemma change_frame w id a :
  inv w ->
  (forall r, r ∈ queue w -> rq_asset r = id -> request_ok (set_asset id a w) r) ->
  (queued id w = false -> idle_ok (set_asset id a w) id) ->
  (state a <> NONE -> aram_offset a = place id) ->
  (forall b, holds (set_asset id a w) id b -> forall id', id' <> id -> id'.1 = id.1 -> ~ holds w id' b) ->
  inv (set_asset id a w).
Proof.
  intros Hi H1 H2 H3 H4. apply (frame_inv w _ id Hi). split; cbn; try done.
  - apply (inv_pool _ Hi).
  - apply (inv_queue _ Hi).
  - intros. by apply upd_ne.
  - by rewrite upd_eq.
Qed.

(** A buffer that is free belongs to nobody. *)
Lemma free_not_held w k i x id b :
  inv w -> pool w k !! i = Some x -> used x = 0 -> id.1 = k -> holds w id b -> b <> i.
Proof.
  intros Hi Hx Hu <- Hh ->. destruct (holds_owns _ _ _ Hi Hh) as [_ (y & Hy & Huy)]. congruence.
Qed.

(** Giving an idle asset a free buffer and posting its request. *)
Lemma posted_inv w w' id b r :
  inv w -> queued id w = false -> first_free (pool w id.1) = Some b ->
  (forall k, k <> id.1 -> pool w' k = pool w k) ->
  (forall j, j <> b -> pool w' id.1 !! j = pool w id.1 !! j) ->
  (forall x, pool w' id.1 !! b = Some x -> length (data x) = pixeldata_len id.1) ->
  (forall id', id' <> id -> assets w' id' = assets w id') ->
  queue w' = queue w ++ [r] -> rq_asset r = id -> aram w' = aram w ->
  buf (assets w' id) = Some b -> aram_offset (assets w' id) = place id ->
  request_ok w' r -> inv w'.
Proof.
  intros Hi Hq Hf Hpk Hpj Hpl Has Hqu Hr Har Hb Hoff Hok.
  destruct (first_free_spec _ _ Hf) as (x & Hx & Hux).
  assert (Hqr : queued id w' = true).
  { apply queued_true. exists r. split; [rewrite Hqu; set_solver|done]. }
  apply (frame_inv w w' id Hi). split; try done.
  - intros k i y. destruct (decide (k = id.1)) as [->|Hk]; [|rewrite Hpk by done; apply (inv_pool _ Hi)].
    destruct (decide (i = b)) as [->|Hb']; [apply Hpl|]. rewrite Hpj by done. apply (inv_pool _ Hi).
  - rewrite Hqu, fmap_app. apply NoDup_app. split; [apply (inv_queue _ Hi)|]. cbn. split.
    + intros y Hy. rewrite list_elem_of_singleton. intros ->.
      apply list_elem_of_fmap in Hy as (r' & E & Hr'). rewrite queued_false in Hq.
      apply (Hq r' Hr'). by rewrite <- E.
    + apply NoDup_singleton.
  - intros id' c Hne Hh. destruct (decide (id'.1 = id.1)) as [Ek|Hk]; [|by rewrite Hpk].
    rewrite Ek. apply Hpj. by eapply free_not_held.
  - intros r' Hne. rewrite Hqu. rewrite elem_of_app, list_elem_of_singleton. split; [|auto].
    intros [?| ->]; [done|]. done.
  - intros id' Hne Hs. unfold saved in *. by rewrite Har.
  - intros r' Hr' E. rewrite Hqu in Hr'. apply elem_of_app in Hr' as [Hr'|Hr'].
    + rewrite queued_false in Hq. by destruct (Hq r' Hr').
    + apply list_elem_of_singleton in Hr' as ->. done.
  - intros Hq'. congruence.
  - intros c [Hc _] id' Hne Hk Hh. rewrite Hb in Hc. injection Hc as <-.
    by eapply (free_not_held w id.1 b x id').
Qed.

(** [gm_icon_load] and [gm_banner_load]. *)
Lemma asset_load_inv w id w' : inv w -> asset_load id w = Some (tt, w') -> inv w'.
Proof.
  intros Hi. unfold asset_load, asset. unfold bind at 1.
  case_bool_decide as Hst; [by intros [= <-]|].
  unfold bind, change, gm_get_buf, ret. cbn [pool set_asset].
  destruct (first_free (pool w id.1)) as [b|] eqn:Ef.
  - cbn [queue set_asset set_pool assets pool]. unfold post. cbn [rq_asset].
    change (queued id (set_asset id ?a (set_pool id.1 ?p ?v))) with (queued id w).
    destruct (queued id w) eqn:Eq; [done|]. intros [= <-].
    pose proof (inv_idle _ Hi id Eq) as Hid. unfold idle_ok in Hid.
    assert (Hs : saved w id) by (destruct (state (assets w id)); naive_solver).
    destruct (first_free_spec _ _ Ef) as (x & Hx & Hux).
    eapply (posted_inv w _ id b); try done; cbn.
    + intros k Hk. by rewrite upd_ne.
    + intros j Hj. rewrite upd_eq. by apply mark_ne.
    + intros y. rewrite upd_eq, (mark_eq _ _ _ _ Hx). intros [= <-]. cbn. by eapply (inv_pool _ Hi).
    + intros id' Hne. by rewrite !upd_ne.
    + by rewrite upd_eq.
    + rewrite !upd_eq. cbn. apply (inv_place _ Hi). naive_solver.
    + split; cbn.
      * rewrite !upd_eq. cbn. apply (inv_place _ Hi). naive_solver.
      * split; cbn; [by rewrite upd_eq|]. exists (mk_buf 1 (data x)). by rewrite upd_eq, (mark_eq _ _ _ _ Hx).
      * split; [done|]. split; [done|]. by rewrite !upd_eq.
  - intros [= <-]. apply (change_frame w id); [done| | | |].
    + intros r Hr E. destruct (inv_requests _ Hi r Hr) as [Hp [Hb Hx] Hk]. rewrite E in *. split.
      * by rewrite E.
      * rewrite E. split; cbn; [by rewrite upd_eq|done].
      * rewrite E. cbn. rewrite upd_eq. cbn.
        destruct (rq_callback r); destruct Hk as (? & ? & ?); (split; [done|]; split; [done|]); set_solver.
    + intros Eq. pose proof (inv_idle _ Hi id Eq) as Hid. unfold idle_ok in *. cbn. rewrite upd_eq. cbn.
      change (saved (set_asset id (set_state LOADING (assets w id)) w) id) with (saved w id).
      destruct (state (assets w id)); naive_solver.
    + intros _. cbn. apply (inv_place _ Hi). naive_solver.
    + intros b [Hb Hh] id' Hne Hk Hh'. cbn in Hb, Hh. rewrite upd_eq in Hb, Hh. cbn in Hb, Hh.
      destruct Hh as [Hq|?]; [|done]. apply Hne. symmetry.
      apply (inv_distinct _ Hi _ _ b); [done| |done]. split; [done|by left].
Qed.

(** Giving back the buffer of an asset that has nothing queued. *)
Lemma released_inv w w' id o :
  inv w -> queued id w = false -> queue w' = queue w -> aram w' = aram w ->
  (forall id', id' <> id -> assets w' id' = assets w id') ->
  (o = None -> pool w' = pool w) ->
  (forall b, o = Some b -> holds w id b /\ pool w' = upd (pool w) id.1 (mark 0 b (pool w id.1))) ->
  idle_ok w' id -> state (assets w' id) <> LOADED ->
  aram_offset (assets w' id) = place id -> inv w'.
Proof.
  intros Hi Hq Hqu Har Has Hnone Hsome Hidle Hst Hoff.
  assert (Hpool : forall k j, (forall b, o = Some b -> k = id.1 -> j <> b) -> pool w' k !! j = pool w k !! j).
  { intros k j H. destruct o as [b|]; [|by rewrite Hnone].
    destruct (Hsome b eq_refl) as [_ ->]. unfold upd. destruct (decide (k = id.1)) as [->|]; [|done].
    apply mark_ne. intros ->. by apply (H j). }
  apply (frame_inv w w' id Hi). split; try done.
  - intros k j x Hx. destruct o as [b|]; [|rewrite Hnone in Hx by done; by eapply (inv_pool _ Hi)].
    destruct (Hsome b eq_refl) as [_ E]. rewrite E in Hx. unfold upd in Hx.
    destruct (decide (k = id.1)) as [->|]; [|by eapply (inv_pool _ Hi)].
    destruct (decide (b = j)) as [->|Hne]; [|rewrite mark_ne in Hx by done; by eapply (inv_pool _ Hi)].
    unfold mark in Hx. rewrite list_lookup_alter_eq in Hx.
    destruct (pool w id.1 !! j) as [y|] eqn:Ey; [|done]. injection Hx as <-. exact (inv_pool _ Hi _ _ _ Ey).
  - rewrite Hqu. apply (inv_queue _ Hi).
  - intros id' c Hne Hh. apply Hpool. intros b -> Hk ->.
    destruct (Hsome b eq_refl) as [Hb _]. apply Hne. by eapply (inv_distinct _ Hi).
  - intros. by rewrite Hqu.
  - intros id' _ Hs. unfold saved in *. by rewrite Har.
  - intros r Hr E. rewrite Hqu in Hr. rewrite queued_false in Hq. by destruct (Hq r Hr).
  - intros c [_ [Hc|?]]; [|done]. unfold queued in *. rewrite Hqu in Hc. congruence.
Qed.

(** [gm_icon_free] and [gm_banner_free], on an asset that is not already out of
    its buffer, nor (icons) on its way out. *)
Lemma asset_release_inv w id w' :
  inv w -> state (assets w id) <> NONE -> state (assets w id) <> UNLOADING ->
  (state (assets w id) = UNLOADED -> buf (assets w id) = None) ->
  asset_release id w = Some (tt, w') -> inv w'.
Proof.
  intros Hi Hn Hu Hg. unfold asset_release, asset. unfold bind at 1.
  case_bool_decide as Hst.
  { intros [= <-]. apply (change_frame w id); [done| | | |].
    - intros r Hr E. destruct (inv_requests _ Hi r Hr) as [Hp [Hb Hx] Hk]. subst id. split; [done| |].
      + split; cbn; [by rewrite upd_eq|done].
      + cbn. rewrite upd_eq. cbn. exact Hk.
    - intros Eq. pose proof (inv_idle _ Hi id Eq) as Hid. unfold idle_ok in *. cbn. rewrite upd_eq. cbn.
      destruct (state (assets w id)); naive_solver.
    - intros _. cbn. by apply (inv_place _ Hi).
    - intros b [Hb Hh] id' Hne Hk Hh'. cbn in Hb, Hh. rewrite upd_eq in Hb, Hh. cbn in Hb, Hh.
      apply Hne. symmetry. by apply (inv_distinct _ Hi _ _ b). }
  destruct (queued id w) eqn:Eq.
  { apply queued_true in Eq as (r & Hr & <-). destruct (inv_requests _ Hi r Hr) as [_ _ Hk].
    destruct (rq_callback r); destruct Hk as (_ & _ & Hs); [set_solver|set_solver|tauto]. }
  pose proof (inv_idle _ Hi id Eq) as Hid. unfold idle_ok in Hid.
  assert (Hsv : saved w id) by (destruct (state (assets w id)); naive_solver).
  unfold bind, change, gm_free_buf, modify. intros E.
  apply (released_inv w w' id (buf (assets w id))); try done.
  all: destruct (buf (assets w id)) as [b|] eqn:Eb; cbn [ret] in E; injection E as <-; try done; cbn.
  all: try (intros id' Hne; by rewrite !upd_ne).
  all: try (unfold idle_ok; cbn; rewrite ?upd_eq; cbn; exact Hsv).
  all: try (rewrite ?upd_eq; cbn; try done; by apply (inv_place _ Hi)).
  intros c [= <-]. split; [|done]. split; [done|]. right.
  destruct (state (assets w id)); naive_solver.
Qed.

(** The oldest request is done. *)
Lemma head_gone w r q : inv w -> queue w = r :: q -> forall r', r' ∈ q -> rq_asset r' <> rq_asset r.
Proof.
  intros Hi Hq r' Hr' E. pose proof (inv_queue _ Hi) as Hn. rewrite Hq in Hn. cbn in Hn.
  apply NoDup_cons in Hn as [Hn _]. apply Hn. rewrite <- E. by apply list_elem_of_fmap_2.
Qed.

(** Finishing the request of [id]: the queue loses its head, [id] ends idle. *)
Lemma completed_inv w w' r q :
  inv w -> queue w = r :: q -> queue w' = q ->
  (forall k i x, pool w' k !! i = Some x -> length (data x) = pixeldata_len k) ->
  (forall id', id' <> rq_asset r -> assets w' id' = assets w id') ->
  (forall k j, (k = (rq_asset r).1 -> j <> rq_buf r) -> pool w' k !! j = pool w k !! j) ->
  (forall id', id' <> rq_asset r -> saved w id' -> saved w' id') ->
  idle_ok w' (rq_asset r) -> aram_offset (assets w' (rq_asset r)) = place (rq_asset r) ->
  (forall b, buf (assets w' (rq_asset r)) = Some b -> b = rq_buf r) -> inv w'.
Proof.
  intros Hi Hq Hq' Hpl Has Hpj Hsv Hid Hoff Hb.
  assert (Hin : r ∈ queue w) by (rewrite Hq; set_solver).
  destruct (inv_requests _ Hi r Hin) as [_ [Hbr _] _].
  assert (Hh : holds w (rq_asset r) (rq_buf r)).
  { split; [done|]. left. apply queued_true. eauto. }
  apply (frame_inv w w' (rq_asset r) Hi). split; try done.
  - pose proof (inv_queue _ Hi) as Hn. rewrite Hq in Hn. rewrite Hq'. by apply NoDup_cons in Hn as [_ Hn].
  - intros id' c Hne Hc. apply Hpj. intros Hk ->. apply Hne. by eapply (inv_distinct _ Hi).
  - intros r' Hne. rewrite Hq', Hq, elem_of_cons. split; [auto|]. intros [-> |?]; done.
  - intros r' Hr' E. rewrite Hq' in Hr'. by destruct (head_gone w r q Hi Hq r' Hr').
  - intros b [Hb1 _] id' Hne Hk Hh'. apply Hb in Hb1 as ->.
    apply Hne. by eapply (inv_distinct _ Hi).
Qed.

Lemma transfer_load w r x :
  rq_to_aram r = false -> pool w (rq_asset r).1 !! rq_buf r = Some x ->
  transfer r w = Some (tt, set_pool (rq_asset r).1
    (<[rq_buf r := mk_buf (used x) (aram_load (rq_aram r) (pixeldata_len (rq_asset r).1) (aram w))]>
       (pool w (rq_asset r).1)) w).
Proof. intros E Hx. unfold transfer, modify. by rewrite Hx, E. Qed.
Lemma transfer_store w r x :
  rq_to_aram r = true -> pool w (rq_asset r).1 !! rq_buf r = Some x ->
  transfer r w = Some (tt, set_aram_mem (aram_store (rq_aram r) (data x) (aram w)) w).
Proof. intros E Hx. unfold transfer, modify. by rewrite Hx, E. Qed.

Lemma arq_complete_inv w w' : inv w -> arq_complete w = Some (tt, w') -> inv w'.
Proof.
  intros Hi. unfold arq_complete. unfold bind at 1, get at 1.
  destruct (queue w) as [|r q] eqn:Eq; [by intros [= <-]|].
  assert (Hin : r ∈ queue w) by (rewrite Eq; set_solver).
  destruct (inv_requests _ Hi r Hin) as [Hp [Hb (x & Hx & Hux)] Hk].
  assert (Hoff : aram_offset (assets w (rq_asset r)) = place (rq_asset r)).
  { apply (inv_place _ Hi). destruct (rq_callback r); destruct Hk as (_ & _ & Hs).
    - intros E. rewrite E in Hs. set_solver.
    - intros E. rewrite E in Hs. set_solver.
    - by rewrite Hs. }
  pose proof (inv_pool _ Hi _ _ _ Hx) as Hlx.
  unfold bind at 1, put at 1. unfold bind at 1. destruct (rq_callback r) eqn:Ec.
  - destruct Hk as (Hd & (y & Hy & Hdy) & Hs). rewrite Hx in Hy. injection Hy as <-.
    rewrite (transfer_store (set_queue q w) r x Hd Hx). unfold arq_callback_setup, change.
    intros [= <-]. rewrite Hp, Hdy. apply (completed_inv w _ r q); try done; cbn.
    + apply (inv_pool _ Hi).
    + intros id' Hne. by apply upd_ne.
    + intros id' Hne Hsv. unfold saved in *. cbn. rewrite aram_load_other; [done|].
      rewrite art_len. by destruct (places id' (rq_asset r) Hne); [left|right].
    + unfold idle_ok. cbn. rewrite upd_eq. cbn. split.
      * unfold saved. cbn. rewrite <- art_len. apply aram_load_store.
      * exists (rq_buf r). split; [split; cbn; [by rewrite upd_eq|eauto]|].
        exists x. done.
    + by rewrite upd_eq.
    + intros b. rewrite upd_eq. cbn. rewrite Hb. by intros [= <-].
  - destruct Hk as (Hd & (y & Hy & Hdy) & Hs). rewrite Hx in Hy. injection Hy as <-.
    rewrite (transfer_store (set_queue q w) r x Hd Hx). unfold arq_callback_unload, change, asset, bind.
    cbn [assets set_asset set_aram_mem set_queue]. rewrite upd_eq. cbn [buf set_state]. rewrite Hb.
    unfold gm_free_buf, modify. intros [= <-]. rewrite Hp, Hdy.
    apply (completed_inv w _ r q); try done; cbn.
    + intros k i y. unfold upd. destruct (decide (k = (rq_asset r).1)) as [->|]; [|apply (inv_pool _ Hi)].
      destruct (decide (rq_buf r = i)) as [<-|Hne]; [|rewrite mark_ne by done; apply (inv_pool _ Hi)].
      rewrite (mark_eq _ _ _ _ Hx). by intros [= <-].
    + intros id' Hne. by apply upd_ne.
    + intros k j Hne. unfold upd. destruct (decide (k = (rq_asset r).1)) as [->|]; [|done].
      apply mark_ne. intros <-. by apply Hne.
    + intros id' Hne Hsv. unfold saved in *. cbn. rewrite aram_load_other; [done|].
      rewrite art_len. by destruct (places id' (rq_asset r) Hne); [left|right].
    + unfold idle_ok. cbn. rewrite upd_eq. cbn. unfold saved. cbn. rewrite <- art_len. apply aram_load_store.
    + by rewrite upd_eq.
    + intros b. rewrite upd_eq. cbn. rewrite Hb. by intros [= <-].
  - destruct Hk as (Hd & Hsv & Hs).
    rewrite (transfer_load (set_queue q w) r x Hd Hx). unfold arq_callback_load, change.
    intros [= <-]. rewrite Hp. cbn [aram pool set_queue].
    apply (completed_inv w _ r q); try done; cbn.
    + intros k i y. unfold upd. destruct (decide (k = (rq_asset r).1)) as [->|]; [|apply (inv_pool _ Hi)].
      destruct (decide (rq_buf r = i)) as [<-|Hne].
      * rewrite list_lookup_insert_eq by (by eapply lookup_lt_Some). intros [= <-]. apply length_aram_load.
      * rewrite list_lookup_insert_ne by done. apply (inv_pool _ Hi).
    + intros id' Hne. by apply upd_ne.
    + intros k j Hne. unfold upd. destruct (decide (k = (rq_asset r).1)) as [->|]; [|done].
      apply list_lookup_insert_ne. intros <-. by apply Hne.
    + unfold idle_ok. cbn. rewrite upd_eq. cbn. split; [exact Hsv|].
      assert (Hb2 : pool w (rq_asset r).1 !! rq_buf r <> None) by (by rewrite Hx).
      exists (rq_buf r). split; [split; cbn; [by rewrite upd_eq|]|]; eexists; cbn;
        rewrite upd_eq, list_lookup_insert_eq by (by eapply lookup_lt_Some); split; try done; done.
    + by rewrite upd_eq.
    + intros b. rewrite upd_eq. cbn. rewrite Hb. by intros [= <-].
Qed.

(** Staging the picture of an asset that has none yet. *)
Lemma stage_inv w id force ok w' :
  inv w -> state (assets w id) = NONE -> queued id w = false ->
  stage id (art id) (place id) force w = Some (ok, w') -> ok = true -> inv w'.
Proof.
  intros Hi Hn Hq E ->. revert E. unfold stage. unfold bind at 1, change at 1.
  unfold bind at 1, gm_get_buf at 1. cbn [pool set_asset].
  destruct (first_free (pool w id.1)) as [b|] eqn:Ef; [|done].
  destruct (first_free_spec _ _ Ef) as (x & Hx & Hux). pose proof (inv_pool _ Hi _ _ _ Hx) as Hlx.
  intros E.
  assert (exists s c, (s = SETUP /\ c = CallSetup \/ s = UNLOADING /\ c = CallUnload) /\
    (if force then asset_setup_unload id (place id) else asset_setup id (place id))
    = asset_setup_with s c id (place id)) as (s & c & Hsc & Es).
  { destruct force; eexists _, _; (split; [|done]); auto. }
  unfold bind at 1, modify at 1, bind at 1, change at 1, bind at 1 in E. rewrite Es in E.
  unfold asset_setup_with, bind, change, asset, of_option in E.
  cbn [assets set_asset set_pool pool] in E. rewrite !upd_eq in E. cbn [buf set_aram set_buf set_state] in E.
  unfold post in E. cbn [rq_asset] in E.
  change (queued id (set_asset id ?a1 (set_asset id ?a2 (set_asset id ?a3 ?v)))) with (queued id w) in E.
  rewrite Hq in E. injection E as <-.
  set (x' := mk_buf 1 (splice 0 (art id) (data x))).
  assert (Hb' : alter (fun x => mk_buf (used x) (splice 0 (art id) (data x))) b (mark 1 b (pool w id.1)) !! b = Some x').
  { by rewrite list_lookup_alter_eq, (mark_eq _ _ _ _ Hx). }
  assert (Hdx : data x' = art id).
  { cbn. unfold splice. rewrite take_0, app_nil_l, drop_ge; [by rewrite app_nil_r|].
    unfold plen in art_len. rewrite art_len. lia. }
  eapply (posted_inv w _ id b); try done; cbn.
  - intros k Hk. by rewrite !upd_ne.
  - intros j Hj. rewrite upd_eq, list_lookup_alter_ne by done. by apply mark_ne.
  - intros y. rewrite upd_eq, Hb'. intros [= <-]. rewrite Hdx. apply art_len.
  - intros id' Hne. by rewrite !upd_ne.
  - by rewrite !upd_eq.
  - by rewrite !upd_eq.
  - split; cbn; [done| |].
    + split; cbn; [by rewrite !upd_eq|]. exists x'. by rewrite upd_eq.
    + assert (Hsh : shows (set_queue (queue w ++ [mk_req id true b (place id) c])
        (set_asset id (set_state s (set_aram (place id) (set_buf (Some b) (set_state LOADING (assets w id)))))
          (set_pool id.1 (alter (fun x => mk_buf (used x) (splice 0 (art id) (data x))) b (mark 1 b (pool w id.1))) w))) id b).
      { exists x'. cbn. by rewrite upd_eq. }
      destruct Hsh as (y & Hy & Hdy). cbn in Hy. rewrite upd_eq in Hy.
      assert (Hin : s ∈ [SETUP; UNLOADING; LOADING]) by (destruct Hsc as [[-> _]|[-> _]]; set_solver).
      destruct Hsc as [[_ ->]|[_ ->]]; (split; [done|]);
        (split; [exists y; cbn; by rewrite upd_eq|by rewrite !upd_eq]).
Qed.
End Invariant.

(** ** The buffers in use

    What the program does to the assets, in any order: staging the picture of an
    entry that has none (while a buffer is free), loading, freeing, and the queue
    finishing a request.  A free is one of an asset that does not still point at a
    buffer it has given back. *)

Section Steps.
Variable art : asset_id -> list Z.
Variable place : asset_id -> Z.

Inductive step (w w' : gm_world) : Prop :=
| step_stage id force :
    state (assets w id) = NONE -> queued id w = false ->
    stage id (art id) (place id) force w = Some (true, w') -> step w w'
| step_load id : asset_load id w = Some (tt, w') -> step w w'
| step_free_icon i :
    state (assets w (Icon, i)) <> UNLOADING ->
    (state (assets w (Icon, i)) = UNLOADED -> buf (assets w (Icon, i)) = None) ->
    gm_icon_free i w = Some (tt, w') -> step w w'
| step_free_banner i :
    (state (assets w (Banner, i)) = UNLOADED -> buf (assets w (Banner, i)) = None) ->
    gm_banner_free i w = Some (tt, w') -> step w w'
| step_complete : arq_complete w = Some (tt, w') -> step w w'.

Definition fresh (w : gm_world) : Prop := (forall id, assets w id = no_asset) /\ queue w = [].
End Steps.

#[local] Opaque ASSET_BUFFER_COUNT pixeldata_len.

Lemma init_inv art place w : fresh w -> inv art place (gm_init_pools w).
Proof.
  intros [Ha Hq]. split; cbn.
  - intros k i x Hx. apply lookup_replicate in Hx as [-> _]. apply length_replicate.
  - rewrite Hq. constructor.
  - rewrite Hq. set_solver.
  - intros id _. unfold idle_ok. cbn. by rewrite Ha.
  - intros id. by rewrite Ha.
  - intros id id' b _ [Hb _]. cbn in Hb. by rewrite Ha in Hb.
Qed.

Lemma step_inv art place w w' :
  (forall id, length (art id) = plen id) ->
  (forall id id', id <> id' ->
     place id + Z.of_nat (plen id) <= place id' \/ place id' + Z.of_nat (plen id') <= place id) ->
  step art place w w' -> inv art place w -> inv art place w'.
Proof.
  intros Hl Hp Hs Hi. destruct Hs as [id force Hn Hq E|id E|i Hu Hg E|i Hg E|E].
  - by eapply stage_inv.
  - by eapply asset_load_inv.
  - revert E. unfold gm_icon_free, bind, asset. case_bool_decide; [by intros [= <-]|].
    by apply asset_release_inv.
  - revert E. unfold gm_banner_free, bind, asset. case_bool_decide as Hb; [by intros [= <-]|].
    apply asset_release_inv; naive_solver.
  - by eapply arq_complete_inv.
Qed.

(** C21. A picture on the screen is the entry's own.  Take a history, from cleared
    pools, of pictures staged, entries loaded and freed, and transfers finished,
    in which every staging is of an entry without a picture and finds a buffer, no
    entry is loaded while its own request is still queued, nothing is freed that
    points at a buffer it has given back, and no icon is freed on its way to ARAM;
    and let the pictures have their places in ARAM to themselves.  Then an asset
    in the state LOADED points at a buffer that is marked used and holds exactly
    the picture staged for it, and no two assets of a kind that are LOADED, or
    have a transfer queued, share a buffer.  The code does not see to these
    conditions itself: [stale_free_shares_buffer] and [unstaged_load_shows_stranger]
    show what happens without the third and the first. *)
Theorem loaded_asset_shows_own_picture (art : asset_id -> list Z) (place : asset_id -> Z)
    (w0 w : gm_world)
    (Hlen : forall id, length (art id) = plen id)
    (Hplaces : forall id id', id <> id' ->
       place id + Z.of_nat (plen id) <= place id' \/ place id' + Z.of_nat (plen id') <= place id)
    (Hfresh : fresh w0) (Hreach : rtc (step art place) (gm_init_pools w0) w) :
  (forall id, state (assets w id) = LOADED ->
   exists b x, buf (assets w id) = Some b /\ pool w id.1 !! b = Some x /\
     used x = 1 /\ data x = art id) /\
  (forall id id' b, id.1 = id'.1 -> holds w id b -> holds w id' b -> id = id').
Proof.
  assert (Hi : inv art place w).
  { assert (H0 : inv art place (gm_init_pools w0)) by by apply init_inv.
    revert H0. induction Hreach as [x|x y z Hs _ IH]; [done|]. intros Hx. apply IH.
    by eapply step_inv. }
  split; [|apply (inv_distinct _ _ _ Hi)].
  intros id Hs. assert (Hq : queued id w = false).
  { apply not_true_iff_false. intros Hq. apply queued_true in Hq as (r & Hr & <-).
    destruct (inv_requests _ _ _ Hi r Hr) as [_ _ Hk].
    destruct (rq_callback r); destruct Hk as (_ & _ & Hk); rewrite Hs in Hk; [set_solver|set_solver|done]. }
  pose proof (inv_idle _ _ _ Hi id Hq) as H. unfold idle_ok in H. rewrite Hs in H.
  destruct H as (_ & b & [Hb (x & Hx & Hu)] & (y & Hy & Hd)). exists b, x.
  assert (y = x) as -> by congruence. done.
Qed.

Definition sample_art (id : asset_id) : list Z := replicate (plen id) (Z.of_nat id.2).
Definition sample_place (id : asset_id) : Z :=
  8192 * Z.of_nat id.2 + match id.1 with Icon => 6144 | Banner => 0 end.
Definition sample_world : gm_world := mk_gm (fun _ => []) (fun _ => no_asset) [] (fun _ => 0).

Definition sample_id : asset_id := (Banner, 3%nat).
Definition sample_run : option (unit * gm_world) :=
  (stage sample_id (sample_art sample_id) (sample_place sample_id) false ;; arq_complete)
    (gm_init_pools sample_world).

Lemma loaded_asset_shows_own_picture_witness :
  exists w b x,
    sample_run = Some (tt, w) /\ state (assets w sample_id) = LOADED /\
    buf (assets w sample_id) = Some b /\ pool w Banner !! b = Some x /\
    data x = replicate 6144 3.
Proof.
  assert (Hok : match stage sample_id (sample_art sample_id) (sample_place sample_id) false
                        (gm_init_pools sample_world) with Some (ok, _) => ok | None => false end = true)
    by (vm_compute; reflexivity).
  assert (Hst : match sample_run with
                | Some (_, w) => bool_decide (state (assets w sample_id) = LOADED)
                | None => false end = true) by (vm_compute; reflexivity).
  destruct (stage sample_id (sample_art sample_id) (sample_place sample_id) false
              (gm_init_pools sample_world)) as [[ok w1]|] eqn:E1; [|discriminate]. subst ok.
  assert (Er : sample_run = arq_complete w1) by (unfold sample_run, bind; rewrite E1; reflexivity).
  rewrite Er in *. destruct (arq_complete w1) as [[[] w]|] eqn:E2; [|discriminate].
  apply bool_decide_eq_true in Hst.
  destruct (loaded_asset_shows_own_picture sample_art sample_place sample_world w) as [Hown _].
  - intros id. apply length_replicate.
  - intros [k i] [k' i'] Hne. unfold sample_place, plen. cbn [fst snd].
    destruct (decide (i = i')) as [->|].
    + destruct k, k'; try (contradiction Hne; reflexivity); [right|left]; vm_compute (Z.of_nat (pixeldata_len _)); lia.
    + assert (Z.of_nat (pixeldata_len k) <= 6144 + match k with Icon => -4096 | _ => 0 end)
        by (destruct k; vm_compute; discriminate).
      assert (Z.of_nat (pixeldata_len k') <= 6144 + match k' with Icon => -4096 | _ => 0 end)
        by (destruct k'; vm_compute; discriminate).
      destruct k, k', (Nat.lt_total i i') as [|[|]]; lia.
  - split; reflexivity.
  - eapply rtc_l; [exact (step_stage _ _ (gm_init_pools sample_world) w1 sample_id false eq_refl eq_refl E1)|].
    eapply rtc_once. exact (step_complete _ _ _ _ E2).
  - destruct (Hown sample_id Hst) as (b & x & Hb & Hx & _ & Hd).
    exists w, b, x. repeat split; assumption.
Defined.

(** An asset that was sent to ARAM keeps its pointer to the buffer it gave back.
    Freeing it frees the buffer under its new owner, and the next picture staged
    goes on top of that one. *)
Example stale_free_shares_buffer :
  let pic := [0; 0; 0] in
  match (stage (Banner, 0%nat) pic 0 true ;; arq_complete ;;
         stage (Banner, 1%nat) pic 8192 false ;; arq_complete ;;
         gm_banner_free 0 ;;
         stage (Banner, 2%nat) pic 16384 false ;; arq_complete)%prog (gm_init_pools sample_world) with
  | Some (_, w) =>
      state (assets w (Banner, 1%nat)) = LOADED /\ state (assets w (Banner, 2%nat)) = LOADED /\
      buf (assets w (Banner, 1%nat)) = Some 0%nat /\ buf (assets w (Banner, 2%nat)) = Some 0%nat
  | None => False
  end.
Proof. vm_compute. auto. Qed.

(** A picture that found no buffer leaves its entry in LOADING, without a place in
    ARAM; when a buffer is free again, loading the entry shows what is at address 0. *)
Example unstaged_load_shows_stranger :
  let full := mk_gm (fun k => [mk_buf 1 (replicate (pixeldata_len k) 7)]) (fun _ => no_asset) [] (fun _ => 9) in
  match (ok <- stage (Banner, 0%nat) (replicate (pixeldata_len Banner) 1) 8192 false ;;
         gm_free_banner_buf (Some 0%nat) ;; gm_banner_load 0 ;; arq_complete ;; ret ok)%prog full with
  | Some (ok, w) => ok = false /\ state (assets w (Banner, 0%nat)) = LOADED /\
      (fun b => take 3 (data b)) <$> pool w Banner !! 0%nat = Some [9; 9; 9]
  | None => False
  end.
Proof. vm_compute. auto. Qed.

(** When no buffer is left the asset stays in LOADING with nothing queued, and a
    free only sets a flag nothing reads. *)
Example no_buffer_stays_loading :
  let w := mk_gm (fun _ => []) (fun _ => mk_asset UNLOADED false 0 None) [] (fun _ => 0) in
  match (gm_banner_load 0 ;; gm_banner_free 0)%prog w with
  | Some (_, w') => queue w' = [] /\ assets w' (Banner, 0%nat) = mk_asset LOADING true 0 None
  | None => False
  end.
Proof. vm_compute. auto. Qed.
