(* ===== verification/Arith64.v ===== *)
(** 64-bit arithmetic on the 32-bit processor (src/patches/source/arith64.c): the
    routines the compiler calls for shifts, division and bit counts.  Unsigned
    values are numbers below 2 to the 64, signed ones are numbers between minus and
    plus 2 to the 63. *)

From S2P Require Import Prelude Bits.

Definition s64 (x : Z) : Z := let y := u64 x in if y <? 2 ^ 63 then y else y - 2 ^ 64.

(** [arith64_word]: the two halves of a value. *)
Record arith64_word := mk_word { hi : Z; lo : Z }.
Definition to_word (n : Z) : arith64_word := mk_word (u64 n / 2 ^ 32) (u32 n).
Definition of_word (w : arith64_word) : Z := hi w * 2 ^ 32 + lo w.
Definition arith64_hi (n : Z) : Z := hi (to_word n).
Definition arith64_lo (n : Z) : Z := lo (to_word n).

(** Exact results; the caller's type wraps them. *)
Definition arith64_neg (a b : Z) : Z :=
  Z.lxor a ((if b >=? 0 then 1 else 0) - 1) + (if b <? 0 then 1 else 0).
Definition arith64_abs (a : Z) : Z := arith64_neg a a.

Definition absvdi2 (a : Z) : Z := s64 (arith64_abs a).

(** ** Shifts *)

Definition ashldi3 (a b : Z) : Z :=
  let w := to_word a in
  let b := Z.land b 63 in
  let w :=
    if b >=? 32 then mk_word (u32 (Z.shiftl (lo w) (b - 32))) 0
    else if negb (b =? 0) then
      mk_word (Z.lor (Z.shiftr (lo w) (32 - b)) (u32 (Z.shiftl (hi w) b))) (u32 (Z.shiftl (lo w) b))
    else w in
  s64 (of_word w).

Definition ashrdi3 (a b : Z) : Z :=
  let w := to_word a in
  let b := Z.land b 63 in
  let w :=
    if b >=? 32 then mk_word (u32 (Z.shiftr (s32 (hi w)) 31)) (u32 (Z.shiftr (s32 (hi w)) (b - 32)))
    else if negb (b =? 0) then
      mk_word (u32 (Z.shiftr (s32 (hi w)) b))
        (Z.lor (u32 (Z.shiftl (hi w) (32 - b))) (Z.shiftr (lo w) b))
    else w in
  s64 (of_word w).

Definition lshrdi3 (a b : Z) : Z :=
  let w := to_word a in
  let b := Z.land b 63 in
  let w :=
    if b >=? 32 then mk_word 0 (Z.shiftr (hi w) (b - 32))
    else if negb (b =? 0) then
      mk_word (Z.shiftr (hi w) b) (Z.lor (u32 (Z.shiftl (hi w) (32 - b))) (Z.shiftr (lo w) b))
    else w in
  of_word w.

(** ** Counting bits *)

(** [b = !(a & mask) << k; n += b; a <<= b] on a [width]-bit [a]. *)
Definition clz_step (width mask k : Z) (s : Z * Z) : Z * Z :=
  let '(a, n) := s in
  let b := Z.shiftl (if Z.land a mask =? 0 then 1 else 0) k in
  ((Z.shiftl a b) mod 2 ^ width, n + b).
Definition clzsi2 (a : Z) : Z :=
  let s := clz_step 32 0xffff0000 4 (a, 0) in
  let s := clz_step 32 0xff000000 3 s in
  let s := clz_step 32 0xf0000000 2 s in
  let '(a, n) := clz_step 32 0xc0000000 1 s in
  n + (if Z.land a 0x80000000 =? 0 then 1 else 0).
Definition clzdi2 (a : Z) : Z :=
  let s := clz_step 64 0xffffffff00000000 5 (a, 0) in
  let s := clz_step 64 0xffff000000000000 4 s in
  let s := clz_step 64 0xff00000000000000 3 s in
  let s := clz_step 64 0xf000000000000000 2 s in
  let '(a, n) := clz_step 64 0xc000000000000000 1 s in
  n + (if Z.land a 0x8000000000000000 =? 0 then 1 else 0).

Definition ctz_step (mask k : Z) (s : Z * Z) : Z * Z :=
  let '(a, n) := s in
  let b := Z.shiftl (if Z.land a mask =? 0 then 1 else 0) k in
  (Z.shiftr a b, n + b).
Definition ctzsi2 (a : Z) : Z :=
  let s := ctz_step 0x0000ffff 4 (a, 0) in
  let s := ctz_step 0x000000ff 3 s in
  let s := ctz_step 0x0000000f 2 s in
  let '(a, n) := ctz_step 0x00000003 1 s in
  n + (if Z.land a 0x00000001 =? 0 then 1 else 0).
Definition ctzdi2 (a : Z) : Z :=
  let s := ctz_step 0x00000000ffffffff 5 (a, 0) in
  let s := ctz_step 0x000000000000ffff 4 s in
  let s := ctz_step 0x00000000000000ff 3 s in
  let s := ctz_step 0x000000000000000f 2 s in
  let '(a, n) := ctz_step 0x0000000000000003 1 s in
  n + (if Z.land a 0x0000000000000001 =? 0 then 1 else 0).
Definition ffsdi2 (a : Z) : Z := if a =? 0 then 0 else ctzdi2 a + 1.

Definition popcountsi2 (a : Z) : Z :=
  let a := u32 (a - Z.land (Z.shiftr a 1) 0x55555555) in
  let a := u32 (Z.land (Z.shiftr a 2) 0x33333333 + Z.land a 0x33333333) in
  let a := Z.land (u32 (a + Z.shiftr a 4)) 0x0F0F0F0F in
  let a := u32 (a + Z.shiftr a 16) in
  Z.land (u32 (a + Z.shiftr a 8)) 63.
Definition popcountdi2 (a : Z) : Z :=
  let a := u64 (a - Z.land (Z.shiftr a 1) 0x5555555555555555) in
  let a := u64 (Z.land (Z.shiftr a 2) 0x3333333333333333 + Z.land a 0x3333333333333333) in
  let a := Z.land (u64 (a + Z.shiftr a 4)) 0x0F0F0F0F0F0F0F0F in
  let a := u64 (a + Z.shiftr a 32) in
  let a := u64 (a + Z.shiftr a 16) in
  Z.land (u64 (a + Z.shiftr a 8)) 127.

(** ** Division *)

(** One bit of the long division: [(rem, a, wrap)]. *)
Definition div_step (b : Z) (s : Z * Z * Z) : Z * Z * Z :=
  let '(rem, a, wrap) := s in
  let rem := Z.lor (u64 (Z.shiftl rem 1)) (Z.shiftr a 63) in
  let a := Z.lor (u64 (Z.shiftl a 1)) (Z.land wrap 1) in
  let wrap := u64 (Z.shiftr (s64 (b - rem - 1)) 63) in
  (u64 (rem - Z.land b wrap), a, wrap).

(** Quotient and remainder; division by zero raises an exception. *)
Definition divmoddi4 (a b : Z) : option (Z * Z) :=
  if b >? a then Some (0, a)
  else if (arith64_hi b =? 0) && (b =? 0) then None
  else if (arith64_hi b =? 0) && (b =? 1) then Some (a, 0)
  else if (arith64_hi b =? 0) && (arith64_hi a =? 0) then
    Some (arith64_lo a / arith64_lo b, arith64_lo a mod arith64_lo b)
  else
    let bits := clzdi2 b - clzdi2 a + 1 in
    let rem := Z.shiftr a bits in
    let a := u64 (Z.shiftl a (64 - bits)) in
    let '(rem, a, wrap) := Nat.iter (Z.to_nat bits) (div_step b) (rem, a, 0) in
    Some (Z.lor (u64 (Z.shiftl a 1)) (Z.land wrap 1), rem).

Definition udivdi3 (a b : Z) : option Z := fst <$> divmoddi4 a b.
Definition umoddi3 (a b : Z) : option Z := snd <$> divmoddi4 a b.
Definition divdi3 (a b : Z) : option Z :=
  r ← divmoddi4 (u64 (arith64_abs a)) (u64 (arith64_abs b));
  Some (s64 (arith64_neg (fst r) (Z.lxor a b))).
Definition moddi3 (a b : Z) : option Z :=
  r ← divmoddi4 (u64 (arith64_abs a)) (u64 (arith64_abs b));
  Some (s64 (arith64_neg (snd r) a)).

Example arith64_examples :
  divdi3 (-1000000000001) 7 = Some (-142857142857) /\ moddi3 (-1000000000001) 7 = Some (-2) /\
  divmoddi4 0xffffffffffffffff 0x8000000000000001 = Some (1, 0x7ffffffffffffffe) /\
  ashrdi3 (-5) 1 = -3 /\ clzdi2 1 = 63 /\ popcountdi2 0xf0f0f0f0f0f0f0f1 = 33.
Proof. vm_compute. repeat split. Qed.
