(* ===== verification/Arith64Thms.v ===== *)
(** The 64-bit routines compute the mathematical operations. *)

From S2P Require Import Prelude Bits Arith64.

(** ** Leading zeros *)

Lemma pow_split a b : 0 <= a -> 0 <= b -> 2 ^ (a + b) = 2 ^ a * 2 ^ b.
Proof. intros. by apply Z.pow_add_r. Qed.

(** A mask of the upper [w] of 64 bits tells whether they are all zero. *)
Lemma land_high a w :
  0 <= w <= 64 -> 0 <= a < 2 ^ 64 ->
  (Z.land a (Z.ones w * 2 ^ (64 - w)) =? 0) = (a <? 2 ^ (64 - w)).
Proof.
  intros Hw Ha. assert (E : Z.land a (Z.ones w * 2 ^ (64 - w)) = a / 2 ^ (64 - w) * 2 ^ (64 - w)).
  { apply Z.bits_inj'. intros i Hi. rewrite Z.land_spec.
    rewrite <- !Z.shiftl_mul_pow2, <- Z.shiftr_div_pow2 by lia.
    rewrite !Z.shiftl_spec by done. destruct (Z.lt_ge_cases i (64 - w)).
    - rewrite !(Z.testbit_neg_r _ (i - (64 - w))) by lia. apply andb_false_r.
    - rewrite Z.shiftr_spec by lia. replace (i - (64 - w) + (64 - w)) with i by lia.
      destruct (Z.lt_ge_cases i 64).
      + rewrite Z.ones_spec_low by lia. apply andb_true_r.
      + rewrite Z.ones_spec_high by lia. rewrite andb_false_r. symmetry.
        destruct (Z.eq_dec a 0) as [->|]; [apply Z.bits_0|].
        apply Z.bits_above_log2; [lia|]. apply Z.log2_lt_pow2; [lia|].
        eapply Z.lt_le_trans; [apply Ha|]. apply Z.pow_le_mono_r; lia. }
  rewrite E. assert (0 < 2 ^ (64 - w)) by (apply Z.pow_pos_nonneg; lia).
  destruct (Z.ltb_spec a (2 ^ (64 - w))).
  - rewrite Z.div_small by lia. done.
  - apply Z.eqb_neq. assert (1 <= a / 2 ^ (64 - w)) by (apply Z.div_le_lower_bound; lia). nia.
Qed.

(** [n] leading zeros have been shifted out of [x], and at least [64 - top] are
    left. *)
Definition clz_inv (x top : Z) (s : Z * Z) : Prop :=
  0 <= s.2 /\ s.1 = x * 2 ^ s.2 /\ 2 ^ top <= s.1 < 2 ^ 64.

Lemma clz_step_ok x top mask k s :
  0 <= k -> 0 <= top -> top + 2 ^ k <= 64 -> mask = Z.ones (2 ^ k) * 2 ^ (64 - 2 ^ k) ->
  2 ^ (64 - 2 ^ k) <= 2 ^ (top + 2 ^ k) ->
  clz_inv x top s -> clz_inv x (64 - 2 ^ k) (clz_step 64 mask k s).
Proof.
  intros Hk Ht Hl -> Hp (Hn & Ha & Hb). destruct s as [a n]. cbn [fst snd] in *. unfold clz_step.
  assert (0 < 2 ^ k) by (apply Z.pow_pos_nonneg; lia).
  assert (0 < 2 ^ top) by (apply Z.pow_pos_nonneg; lia).
  rewrite land_high by lia. unfold clz_inv. destruct (Z.ltb_spec a (2 ^ (64 - 2 ^ k))) as [Hlt|Hge].
  - rewrite (Z.shiftl_mul_pow2 1 k), Z.mul_1_l by lia. rewrite Z.shiftl_mul_pow2 by lia. cbn [fst snd].
    assert (a * 2 ^ 2 ^ k < 2 ^ 64).
    { replace 64 with (64 - 2 ^ k + 2 ^ k) by lia. rewrite (pow_split (64 - 2 ^ k)) by lia.
      apply Z.mul_lt_mono_pos_r; [apply Z.pow_pos_nonneg; lia|done]. }
    assert (2 ^ (64 - 2 ^ k) <= a * 2 ^ 2 ^ k).
    { transitivity (2 ^ (top + 2 ^ k)); [done|]. rewrite pow_split by lia.
      apply Z.mul_le_mono_nonneg_r; [apply Z.pow_nonneg; lia|lia]. }
    assert (0 < 2 ^ (64 - 2 ^ k)) by (apply Z.pow_pos_nonneg; lia).
    rewrite Z.mod_small by lia. split_and!; [lia| |lia|lia].
    rewrite Ha, <- Z.mul_assoc, <- pow_split by lia. done.
  - rewrite Z.shiftl_0_l, Z.shiftl_0_r, Z.mod_small by lia. cbn [fst snd].
    rewrite Z.add_0_r. split_and!; lia.
Qed.

Lemma clzdi2_spec x : 0 < x < 2 ^ 64 ->
  0 <= clzdi2 x <= 63 /\ 2 ^ (63 - clzdi2 x) <= x < 2 ^ (64 - clzdi2 x).
Proof.
  intros Hx. unfold clzdi2.
  assert (H0 : clz_inv x 0 (x, 0)) by (unfold clz_inv; cbn; lia).
  apply (clz_step_ok x 0 0xffffffff00000000 5) in H0; [|lia|lia|lia|done|done].
  apply (clz_step_ok x 32 0xffff000000000000 4) in H0; [|lia|lia|lia|done|done].
  apply (clz_step_ok x 48 0xff00000000000000 3) in H0; [|lia|lia|lia|done|done].
  apply (clz_step_ok x 56 0xf000000000000000 2) in H0; [|lia|lia|lia|done|done].
  apply (clz_step_ok x 60 0xc000000000000000 1) in H0; [|lia|lia|lia|done|done].
  destruct (clz_step 64 0xc000000000000000 1 _) as [a n].
  destruct H0 as (Hn & Ha & Hb). cbn [fst snd] in *. change (64 - 2 ^ 1) with 62 in Hb.
  change 0x8000000000000000 with (Z.ones 1 * 2 ^ (64 - 1)). rewrite land_high by lia.
  change (64 - 1) with 63.
  set (m := n + (if a <? 2 ^ 63 then 1 else 0)).
  assert (Hm : 0 <= m /\ 2 ^ 63 <= x * 2 ^ m < 2 ^ 64).
  { subst m. destruct (Z.ltb_spec a (2 ^ 63)).
    - rewrite pow_split by lia. change (2 ^ 1) with 2. lia.
    - rewrite Z.add_0_r. lia. }
  clearbody m. clear -Hm Hx. destruct Hm as [Hm0 Hm].
  assert (Hm63 : m <= 63).
  { destruct (Z.le_gt_cases m 63); [done|]. assert (2 ^ 64 <= 2 ^ m) by (apply Z.pow_le_mono_r; lia). nia. }
  assert (0 < 2 ^ m) by (apply Z.pow_pos_nonneg; lia).
  assert (E63 : 2 ^ 63 = 2 ^ (63 - m) * 2 ^ m) by (rewrite <- pow_split by lia; f_equal; lia).
  assert (E64 : 2 ^ 64 = 2 ^ (64 - m) * 2 ^ m) by (rewrite <- pow_split by lia; f_equal; lia).
  split; [lia|]. rewrite E63, E64 in Hm. split.
  - apply (Z.mul_le_mono_pos_r _ _ (2 ^ m)); lia.
  - apply (Z.mul_lt_mono_pos_r (2 ^ m)); lia.
Qed.

(** ** Long division *)

Lemma s64_small x : - 2 ^ 63 <= x < 2 ^ 63 -> s64 x = x.
Proof.
  intros Hx. unfold s64, u64. destruct (Z.lt_ge_cases x 0).
  - replace (x mod 2 ^ 64) with (x + 2 ^ 64).
    + destruct (Z.ltb_spec (x + 2 ^ 64) (2 ^ 63)); lia.
    + rewrite <- (Z.mod_add x 1) by lia. symmetry. apply Z.mod_small. lia.
  - rewrite Z.mod_small by lia. destruct (Z.ltb_spec x (2 ^ 63)); lia.
Qed.

(** The mask the comparison of [b] and [rem] leaves. *)
Lemma wrap_mask v : - 2 ^ 63 <= v < 2 ^ 63 ->
  u64 (Z.shiftr (s64 v) 63) = if v <? 0 then 2 ^ 64 - 1 else 0.
Proof.
  intros Hv. rewrite s64_small, Z.shiftr_div_pow2 by lia. destruct (Z.ltb_spec v 0).
  - replace (v / 2 ^ 63) with (-1); [done|]. apply (Z.div_unique_pos _ _ _ (v + 2 ^ 63)); lia.
  - rewrite Z.div_small by lia. done.
Qed.

Section Divide.
Context (a b n : Z).
Hypothesis Ha : 0 <= a < 2 ^ 64.
Hypothesis Hb : 0 < b <= a.
Hypothesis Hn : 1 <= n <= 63.
(** The remainder always fits: the divisor is below 2 to the 63, or there is one
    bit to do. *)
Hypothesis Hfit : b <= 2 ^ 63 \/ n = 1.

(** After [j] bits: the quotient [q] of the part of [a] brought down so far is in
    the low bits of the register, its last bit still in [wrap]. *)
Definition div_inv (j : Z) (s : Z * Z * Z) : Prop :=
  exists q, 0 <= q < 2 ^ j /\ a / 2 ^ (n - j) = q * b + s.1.1 /\ 0 <= s.1.1 < b /\
    s.1.2 = a mod 2 ^ (n - j) * 2 ^ (64 - (n - j)) + q / 2 /\ Z.land s.2 1 = q mod 2.

(** The next bit of the numerator. *)
Lemma next_bit m : 1 <= m -> exists t, (t = 0 \/ t = 1) /\
  a / 2 ^ (m - 1) = 2 * (a / 2 ^ m) + t /\ a mod 2 ^ m = t * 2 ^ (m - 1) + a mod 2 ^ (m - 1).
Proof.
  intros Hm. exists ((a / 2 ^ (m - 1)) mod 2).
  assert (0 < 2 ^ (m - 1)) by (apply Z.pow_pos_nonneg; lia).
  assert (E : 2 ^ m = 2 ^ (m - 1) * 2).
  { replace m with (m - 1 + 1) at 1 by lia. by rewrite pow_split by lia. }
  split; [pose proof (Z.mod_pos_bound (a / 2 ^ (m - 1)) 2); lia|]. split.
  - rewrite E, <- Z.div_div by lia. apply Z.div_mod. lia.
  - rewrite E, Z.rem_mul_r by lia. lia.
Qed.

Lemma div_step_inv j s : 0 <= j < n -> div_inv j s -> div_inv (j + 1) (div_step b s).
Proof.
  intros Hj (q & Hq & Ed & Hr & Eg & Ew). destruct s as [[rem reg] wrap]. cbn [fst snd] in *.
  destruct (next_bit (n - j)) as (t & Ht & Et & Em); [lia|].
  set (m := n - j) in *. assert (Hm : 1 <= m <= 63) by lia.
  replace (n - (j + 1)) with (m - 1) by lia.
  assert (Hp : 0 < 2 ^ (m - 1)) by (apply Z.pow_pos_nonneg; lia).
  assert (Hp' : 0 < 2 ^ (64 - m)) by (apply Z.pow_pos_nonneg; lia).
  assert (E63 : 2 ^ (m - 1) * 2 ^ (64 - m) = 2 ^ 63) by (rewrite <- pow_split by lia; f_equal; lia).
  pose proof (Z.mod_pos_bound a (2 ^ (m - 1)) Hp) as Hlow. set (low := a mod 2 ^ (m - 1)) in *.
  assert (Hq2 : 0 <= q / 2 < 2 ^ (64 - m)).
  { split; [apply Z.div_pos; lia|]. assert (2 ^ j <= 2 ^ (64 - m)) by (apply Z.pow_le_mono_r; lia).
    apply Z.div_lt_upper_bound; lia. }
  assert (Hrest : 0 <= low * 2 ^ (64 - m) + q / 2 < 2 ^ 63).
  { split; [nia|]. rewrite <- E63. nia. }
  assert (Ereg : reg = t * 2 ^ 63 + (low * 2 ^ (64 - m) + q / 2)) by (rewrite Eg, Em; nia).
  assert (Hrem : rem < 2 ^ 63).
  { destruct Hfit as [|Hn1]; [lia|]. assert (m = 1) by lia. assert (a / 2 ^ m < 2 ^ 63); [|nia].
    apply Z.div_lt_upper_bound; [apply Z.pow_pos_nonneg; lia|]. replace m with 1 by lia. lia. }
  unfold div_step.
  assert (Etop : Z.shiftr reg 63 = t).
  { rewrite Z.shiftr_div_pow2, Ereg by lia. symmetry.
    apply (Z.div_unique_pos _ _ _ (low * 2 ^ (64 - m) + q / 2)); lia. }
  assert (Erem : Z.lor (u64 (Z.shiftl rem 1)) (Z.shiftr reg 63) = 2 * rem + t).
  { rewrite Etop, Z.shiftl_mul_pow2, u64_small by lia. rewrite lor_fields by lia. lia. }
  assert (Enew : Z.lor (u64 (Z.shiftl reg 1)) (Z.land wrap 1) = low * 2 ^ (64 - (m - 1)) + q).
  { rewrite Ew, Z.shiftl_mul_pow2 by lia. unfold u64.
    replace (reg * 2 ^ 1) with ((low * 2 ^ (64 - m) + q / 2) * 2 ^ 1 + t * 2 ^ 64) by lia.
    rewrite Z.mod_add, Z.mod_small by lia.
    pose proof (Z.mod_pos_bound q 2). rewrite lor_fields by lia.
    replace (64 - (m - 1)) with (64 - m + 1) by lia. rewrite pow_split by lia.
    rewrite (Z.div_mod q 2) at 3 by lia. lia. }
  rewrite Erem, Enew. set (r := 2 * rem + t) in *.
  assert (Hr' : 0 <= r < 2 * b) by lia.
  assert (Hover : b <= 2 ^ 63 \/ b <= r).
  { destruct Hfit as [|Hn1]; [by left|]. right. assert (j = 0) by lia. assert (m = 1) by lia.
    replace (m - 1) with 0 in Et by lia. rewrite Z.div_1_r in Et. subst j.
    assert (q = 0) by (change (2 ^ 0) with 1 in Hq; lia). subst q. lia. }
  rewrite wrap_mask by lia. unfold div_inv. cbn [fst snd].
  replace (n - (j + 1)) with (m - 1) by lia. fold low.
  exists (2 * q + if r <? b then 0 else 1).
  assert (E2 : 2 ^ (j + 1) = 2 ^ j * 2) by by rewrite pow_split by lia.
  assert (Eq2 : forall w, 0 <= w < 2 -> (2 * q + w) / 2 = q /\ (2 * q + w) mod 2 = w).
  { intros w Hw. split; symmetry; [apply (Z.div_unique_pos _ _ _ w)|apply (Z.mod_unique_pos _ _ q)]; lia. }
  destruct (Z.ltb_spec r b), (Z.ltb_spec (b - r - 1) 0); try lia.
  - rewrite Z.land_0_r, Z.sub_0_r, u64_small by lia.
    destruct (Eq2 0) as [-> ->]; [lia|]. split_and!; try done; try lia.
  - change (2 ^ 64 - 1) with (Z.ones 64). rewrite Z.land_ones, (Z.mod_small b), u64_small by lia.
    destruct (Eq2 1) as [-> ->]; [lia|]. split_and!; try done; try lia.
Qed.

Lemma div_iter j s : div_inv 0 s -> 0 <= Z.of_nat j <= n -> div_inv (Z.of_nat j) (Nat.iter j (div_step b) s).
Proof.
  intros H0. induction j as [|j IH]; intros Hj; [done|]. cbn [Nat.iter].
  rewrite Nat2Z.inj_succ, <- Z.add_1_r. apply div_step_inv; [lia|]. apply IH. lia.
Qed.

Lemma div_result s : div_inv n s ->
  Z.lor (u64 (Z.shiftl s.1.2 1)) (Z.land s.2 1) = a / b /\ s.1.1 = a mod b.
Proof.
  intros (q & Hq & Ed & Hr & Eg & Ew).
  rewrite Z.sub_diag, Z.pow_0_r, Z.div_1_r in Ed. rewrite Z.sub_diag, Z.pow_0_r, Z.mod_1_r in Eg.
  assert (Eq : a / b = q) by (symmetry; apply (Z.div_unique_pos _ _ _ s.1.1); lia).
  rewrite Eq. split.
  - rewrite Eg, Ew, Z.mul_0_l, Z.add_0_l, Z.shiftl_mul_pow2 by lia.
    pose proof (Z.div_mod q 2). pose proof (Z.mod_pos_bound q 2).
    rewrite u64_small by nia. rewrite lor_fields by lia. lia.
  - apply (Z.mod_unique_pos _ _ q); lia.
Qed.
End Divide.

Lemma word_hi x : 0 <= x < 2 ^ 64 -> arith64_hi x = x / 2 ^ 32.
Proof. intros. unfold arith64_hi, to_word. cbn. by rewrite u64_small. Qed.
Lemma word_hi_0 x : 0 <= x < 2 ^ 64 -> (arith64_hi x =? 0) = (x <? 2 ^ 32).
Proof.
  intros. rewrite word_hi by done. destruct (Z.ltb_spec x (2 ^ 32)).
  - by rewrite Z.div_small by lia.
  - apply Z.eqb_neq. assert (1 <= x / 2 ^ 32) by (apply Z.div_le_lower_bound; lia). lia.
Qed.

Lemma divmoddi4_spec a b :
  0 <= a < 2 ^ 64 -> 0 <= b < 2 ^ 64 ->
  divmoddi4 a b = if b =? 0 then None else Some (a / b, a mod b).
Proof.
  intros Ha Hb. unfold divmoddi4. rewrite Z.gtb_ltb.
  destruct (Z.ltb_spec a b).
  { destruct (Z.eqb_spec b 0); [lia|]. rewrite Z.div_small, Z.mod_small by lia. done. }
  rewrite !word_hi_0 by lia.
  destruct (Z.eqb_spec b 0) as [->|Hb0]; [done|]. rewrite andb_false_r.
  destruct (Z.eqb_spec b 1) as [->|Hb1]; [by rewrite (Z.div_1_r a), (Z.mod_1_r a)|]. rewrite andb_false_r.
  destruct ((b <? 2 ^ 32) && (a <? 2 ^ 32)) eqn:E32.
  { apply andb_prop in E32 as [?%Z.ltb_lt ?%Z.ltb_lt]. unfold arith64_lo, to_word. cbn.
    by rewrite !u32_small by lia. }
  destruct (clzdi2_spec a) as [Hca Hca']; [lia|]. destruct (clzdi2_spec b) as [Hcb Hcb']; [lia|].
  set (ca := clzdi2 a) in *. set (cb := clzdi2 b) in *. set (n := cb - ca + 1).
  assert (Hcmp : ca <= cb).
  { destruct (Z.le_gt_cases ca cb); [done|].
    assert (2 ^ (64 - ca) <= 2 ^ (63 - cb)) by (apply Z.pow_le_mono_r; lia). lia. }
  assert (Hcb62 : cb <= 62).
  { destruct (Z.le_gt_cases cb 62); [done|]. replace (64 - cb) with 1 in Hcb' by lia. lia. }
  assert (Hn : 1 <= n <= 63) by lia.
  assert (Hfit : b <= 2 ^ 63 \/ n = 1).
  { destruct (Z.le_gt_cases b (2 ^ 63)); [by left|]. right.
    assert (cb = 0); [|lia]. destruct (Z.eq_dec cb 0); [done|].
    assert (2 ^ (64 - cb) <= 2 ^ 63) by (apply Z.pow_le_mono_r; lia). lia. }
  assert (H0 : div_inv a b n 0 (Z.shiftr a n, u64 (Z.shiftl a (64 - n)), 0)).
  { exists 0. rewrite Z.sub_0_r. cbn [fst snd]. rewrite Z.shiftr_div_pow2, Z.shiftl_mul_pow2 by lia.
    assert (Hp : 0 < 2 ^ n) by (apply Z.pow_pos_nonneg; lia).
    split_and!; [lia|lia|lia|apply Z.div_pos; lia| |  |done].
    - apply Z.div_lt_upper_bound; [done|]. apply Z.lt_le_trans with (2 ^ (64 - ca)); [lia|].
      replace (64 - ca) with (n + (63 - cb)) by lia. rewrite pow_split by lia. nia.
    - unfold u64. replace (2 ^ 64) with (2 ^ n * 2 ^ (64 - n)) by (rewrite <- pow_split by lia; f_equal; lia).
      rewrite Z.mul_mod_distr_r; [change (0 / 2) with 0; lia|apply Z.pow_nonzero; lia|]. apply Z.pow_nonzero; lia. }
  pose proof (div_iter a b n ltac:(lia) ltac:(lia) Hn Hfit (Z.to_nat n) _ H0 ltac:(lia)) as H1.
  rewrite Z2Nat.id in H1 by lia.
  destruct (Nat.iter (Z.to_nat n) (div_step b) _) as [[rem reg] wrap].
  apply div_result in H1 as [E1 E2]; [|lia..]. cbn [fst snd] in E1, E2.
  by rewrite E1, E2.
Qed.

(** ** Shifts *)

Lemma s64_cong x y c : x = y + c * 2 ^ 64 -> s64 x = s64 y.
Proof. intros ->. unfold s64, u64. by rewrite Z.mod_add. Qed.

Lemma halves a : exists H L, 0 <= H < 2 ^ 32 /\ 0 <= L < 2 ^ 32 /\ to_word a = mk_word H L /\
  u64 a = H * 2 ^ 32 + L.
Proof.
  exists (u64 a / 2 ^ 32), (u32 a). pose proof (u64_range a). pose proof (u32_range a).
  split_and!; try done; try lia.
  - apply Z.div_pos; lia.
  - apply Z.div_lt_upper_bound; lia.
  - unfold u64, u32.
    assert (E : a mod 2 ^ 32 = (a mod 2 ^ 64) mod 2 ^ 32)
      by (symmetry; apply Z.mod_mod_divide; by exists (2 ^ 32)).
    rewrite E. pose proof (Z.div_mod (a mod 2 ^ 64) (2 ^ 32)). lia.
Qed.

Section Shift.
Context (H L k : Z).
Hypothesis HH : 0 <= H < 2 ^ 32.
Hypothesis HL : 0 <= L < 2 ^ 32.

(** The low word of a right shift takes the low bits of the high word. *)
Lemma low_word : 0 < k < 32 ->
  Z.lor (u32 (Z.shiftl H (32 - k))) (Z.shiftr L k) = H mod 2 ^ k * 2 ^ (32 - k) + L / 2 ^ k.
Proof.
  intros Hk. rewrite Z.shiftl_mul_pow2, Z.shiftr_div_pow2 by lia. unfold u32.
  assert (0 < 2 ^ k) by (apply Z.pow_pos_nonneg; lia).
  assert (0 < 2 ^ (32 - k)) by (apply Z.pow_pos_nonneg; lia).
  assert (E : 2 ^ 32 = 2 ^ k * 2 ^ (32 - k)) by (rewrite <- pow_split by lia; f_equal; lia).
  rewrite E at 1. rewrite Z.mul_mod_distr_r by lia.
  rewrite lor_fields; [done|lia|]. split; [apply Z.div_pos; lia|].
  apply Z.div_lt_upper_bound; [done|]. rewrite <- E. lia.
Qed.

(** The high word of a left shift takes the high bits of the low word. *)
Lemma high_word : 0 < k < 32 ->
  Z.lor (Z.shiftr L (32 - k)) (u32 (Z.shiftl H k)) = L / 2 ^ (32 - k) + H mod 2 ^ (32 - k) * 2 ^ k.
Proof.
  intros Hk. rewrite Z.shiftl_mul_pow2, Z.shiftr_div_pow2 by lia. unfold u32.
  assert (0 < 2 ^ k) by (apply Z.pow_pos_nonneg; lia).
  assert (0 < 2 ^ (32 - k)) by (apply Z.pow_pos_nonneg; lia).
  assert (E : 2 ^ 32 = 2 ^ (32 - k) * 2 ^ k) by (rewrite <- pow_split by lia; f_equal; lia).
  rewrite E at 1. rewrite Z.mul_mod_distr_r by lia.
  rewrite lor_fields_r; [done|lia|]. split; [apply Z.div_pos; lia|].
  apply Z.div_lt_upper_bound; [done|]. rewrite <- E. lia.
Qed.

(** A right shift of the pair, for a high word of either sign. *)
Lemma pair_shiftr h : 0 < k < 32 -> h mod 2 ^ k = H mod 2 ^ k ->
  (h * 2 ^ 32 + L) / 2 ^ k = h / 2 ^ k * 2 ^ 32 + (H mod 2 ^ k * 2 ^ (32 - k) + L / 2 ^ k).
Proof.
  intros Hk Eh. assert (0 < 2 ^ k) by (apply Z.pow_pos_nonneg; lia).
  assert (E : 2 ^ 32 = 2 ^ (32 - k) * 2 ^ k) by (rewrite <- pow_split by lia; f_equal; lia).
  rewrite E at 1. rewrite Z.mul_assoc, Z.div_add_l by lia.
  rewrite (Z.div_mod h (2 ^ k)) at 1 by lia. rewrite Eh. rewrite E. ring.
Qed.
End Shift.

Lemma shift_count b : 0 <= Z.land b 63 < 64.
Proof. change 63 with (Z.ones 6). rewrite Z.land_ones by lia. apply Z.mod_pos_bound. lia. Qed.

Lemma lshrdi3_spec a b : 0 <= a < 2 ^ 64 -> lshrdi3 a b = a / 2 ^ Z.land b 63.
Proof.
  intros Ha. unfold lshrdi3. pose proof (shift_count b) as Hk. revert Hk.
  generalize (Z.land b 63) as k. intros k Hk.
  destruct (halves a) as (H & L & HH & HL & -> & E). rewrite u64_small in E by done.
  cbn [hi lo]. rewrite Z.geb_leb. destruct (Z.leb_spec 32 k).
  - unfold of_word. cbn [hi lo]. rewrite Z.shiftr_div_pow2 by lia.
    replace (2 ^ k) with (2 ^ 32 * 2 ^ (k - 32)) by (rewrite <- pow_split by lia; f_equal; lia).
    rewrite <- Z.div_div by (try apply Z.pow_pos_nonneg; lia). rewrite E, Z.div_add_l by lia.
    rewrite (Z.div_small L), Z.add_0_r by lia. lia.
  - destruct (Z.eqb_spec k 0) as [->|Hk0]; cbn [negb]; unfold of_word; cbn [hi lo].
    + rewrite Z.div_1_r. lia.
    + rewrite low_word, E, (pair_shiftr H L k), Z.shiftr_div_pow2 by (done || lia). done.
Qed.

Lemma ashrdi3_spec a b : - 2 ^ 63 <= a < 2 ^ 63 -> ashrdi3 a b = a / 2 ^ Z.land b 63.
Proof.
  intros Ha. unfold ashrdi3. pose proof (shift_count b) as Hk. revert Hk.
  generalize (Z.land b 63) as k. intros k Hk.
  destruct (halves a) as (H & L & HH & HL & -> & E). cbn [hi lo].
  set (h := s32 H).
  assert (Eh : exists c, H = h + c * 2 ^ 32 /\ - 2 ^ 31 <= h < 2 ^ 31).
  { unfold h, s32. rewrite u32_small by lia. destruct (Z.ltb_spec H (2 ^ 31)).
    - exists 0. lia.
    - exists 1. lia. }
  destruct Eh as (c & Eh & Hh).
  assert (Ea : a = h * 2 ^ 32 + L).
  { rewrite <- (s64_small a Ha), <- (s64_small (h * 2 ^ 32 + L)) by lia.
    unfold u64 in E. pose proof (Z.div_mod a (2 ^ 64) ltac:(lia)).
    apply (s64_cong _ _ (a / 2 ^ 64 + c)). lia. }
  assert (Hp : 0 < 2 ^ k) by (apply Z.pow_pos_nonneg; lia).
  assert (Hr : - 2 ^ 63 <= a / 2 ^ k < 2 ^ 63).
  { assert (1 <= 2 ^ k) by lia. split.
    - apply Z.div_le_lower_bound; nia.
    - apply Z.div_lt_upper_bound; nia. }
  rewrite <- (s64_small (a / 2 ^ k)) by done. rewrite Z.geb_leb.
  assert (Eu : forall y, exists d, u32 y = y + d * 2 ^ 32).
  { intros y. exists (- (y / 2 ^ 32)). unfold u32. pose proof (Z.div_mod y (2 ^ 32)). lia. }
  destruct (Z.leb_spec 32 k).
  - unfold of_word. cbn [hi lo]. rewrite !Z.shiftr_div_pow2 by lia.
    assert (Ek : a / 2 ^ k = h / 2 ^ (k - 32)).
    { replace (2 ^ k) with (2 ^ 32 * 2 ^ (k - 32)) by (rewrite <- pow_split by lia; f_equal; lia).
      rewrite <- Z.div_div by (try apply Z.pow_pos_nonneg; lia).
      rewrite Ea, Z.div_add_l by lia. rewrite (Z.div_small L), Z.add_0_r by lia. lia. }
    rewrite Ek. set (v := h / 2 ^ (k - 32)) in *.
    assert (Hq : 1 <= 2 ^ (k - 32)) by (pose proof (Z.pow_pos_nonneg 2 (k - 32)); lia).
    assert (Hv : - 2 ^ 31 <= v < 2 ^ 31 /\ (0 <= h <-> 0 <= v)).
    { split; [split|].
      - apply Z.div_le_lower_bound; nia.
      - apply Z.div_lt_upper_bound; nia.
      - split; intros; [apply Z.div_pos; lia|]. destruct (Z.le_gt_cases 0 h); [done|].
        assert (v < 0); [|lia]. apply Z.div_lt_upper_bound; lia. }
    destruct (Eu (h / 2 ^ 31)) as [d Ed]. rewrite Ed.
    assert (Es : h / 2 ^ 31 = if 0 <=? h then 0 else -1).
    { destruct (Z.leb_spec 0 h); [apply Z.div_small; lia|].
      symmetry. apply (Z.div_unique_pos _ _ _ (h + 2 ^ 31)); lia. }
    apply (s64_cong _ _ d). rewrite Es. unfold u32.
    destruct (Z.leb_spec 0 h).
    + rewrite Z.mod_small by lia. lia.
    + replace (v mod 2 ^ 32) with (v + 2 ^ 32); [lia|]. rewrite <- (Z.mod_add v 1) by lia.
      symmetry. apply Z.mod_small. lia.
  - destruct (Z.eqb_spec k 0) as [->|Hk0]; cbn [negb]; unfold of_word; cbn [hi lo].
    + rewrite Z.div_1_r, Ea, Eh. apply (s64_cong _ _ c). lia.
    + rewrite low_word by lia. rewrite Z.shiftr_div_pow2 by lia. rewrite Ea, (pair_shiftr H L k h) by (try lia;
        rewrite Eh; replace (2 ^ 32) with (2 ^ (32 - k) * 2 ^ k) by (rewrite <- pow_split by lia; f_equal; lia);
        rewrite Z.mul_assoc, Z.mod_add by lia; done).
      destruct (Eu (h / 2 ^ k)) as [d ->]. apply (s64_cong _ _ d). lia.
Qed.

Lemma ashldi3_spec a b : ashldi3 a b = s64 (a * 2 ^ Z.land b 63).
Proof.
  unfold ashldi3. pose proof (shift_count b) as Hk. revert Hk.
  generalize (Z.land b 63) as k. intros k Hk.
  destruct (halves a) as (H & L & HH & HL & -> & E). cbn [hi lo].
  assert (Ea : exists c, H * 2 ^ 32 + L = a + c * 2 ^ 64).
  { exists (- (a / 2 ^ 64)). rewrite <- E. unfold u64. pose proof (Z.div_mod a (2 ^ 64)). lia. }
  destruct Ea as [c Ea]. rewrite Z.geb_leb.
  rewrite (s64_cong (a * 2 ^ k) ((H * 2 ^ 32 + L) * 2 ^ k) (- c * 2 ^ k)) by (rewrite Ea; ring).
  destruct (Z.leb_spec 32 k).
  - unfold of_word. cbn [hi lo]. rewrite Z.shiftl_mul_pow2 by lia.
    replace (2 ^ k) with (2 ^ 32 * 2 ^ (k - 32)) by (rewrite <- pow_split by lia; f_equal; lia).
    unfold u32. set (p := 2 ^ (k - 32)). pose proof (Z.div_mod (L * p) (2 ^ 32)).
    apply (s64_cong _ _ (- (L * p / 2 ^ 32) - H * p)).
    change (2 ^ 64) with (2 ^ 32 * 2 ^ 32). nia.
  - destruct (Z.eqb_spec k 0) as [->|Hk0]; cbn [negb]; unfold of_word; cbn [hi lo].
    + by rewrite Z.mul_1_r.
    + rewrite high_word by lia. rewrite Z.shiftl_mul_pow2 by lia. unfold u32.
      assert (E32 : 2 ^ 32 = 2 ^ (32 - k) * 2 ^ k) by (rewrite <- pow_split by lia; f_equal; lia).
      assert (0 < 2 ^ k) by (apply Z.pow_pos_nonneg; lia).
      assert (0 < 2 ^ (32 - k)) by (apply Z.pow_pos_nonneg; lia).
      assert (El : (L * 2 ^ k) mod 2 ^ 32 = L mod 2 ^ (32 - k) * 2 ^ k).
      { rewrite E32. apply Z.mul_mod_distr_r; lia. }
      rewrite El. pose proof (Z.div_mod L (2 ^ (32 - k))). pose proof (Z.div_mod H (2 ^ (32 - k))).
      apply (s64_cong _ _ (- (H / 2 ^ (32 - k)))).
      change (2 ^ 64) with (2 ^ 32 * 2 ^ 32). rewrite E32 in *. nia.
Qed.

(** ** Signed division *)

Lemma neg_spec a b : arith64_neg a b = if b <? 0 then - a else a.
Proof.
  unfold arith64_neg. rewrite Z.geb_leb. destruct (Z.leb_spec 0 b), (Z.ltb_spec b 0); try lia.
  - cbn [Z.sub Z.opp Z.add Z.pos_sub]. rewrite Z.lxor_0_r. lia.
  - change (0 - 1) with (-1). rewrite Z.lxor_m1_r. unfold Z.lnot. lia.
Qed.
Lemma abs_spec a : arith64_abs a = Z.abs a.
Proof. unfold arith64_abs. rewrite neg_spec. destruct (Z.ltb_spec a 0); lia. Qed.

Lemma div_signed a b :
  - 2 ^ 63 < a < 2 ^ 63 -> - 2 ^ 63 < b < 2 ^ 63 -> b <> 0 ->
  divdi3 a b = Some (Z.quot a b) /\ moddi3 a b = Some (Z.rem a b).
Proof.
  intros Ha Hb H0. unfold divdi3, moddi3. rewrite !abs_spec, !u64_small by lia.
  rewrite divmoddi4_spec by lia. destruct (Z.eqb_spec (Z.abs b) 0); [lia|]. cbn [mbind option_bind fst snd].
  assert (Hq : 0 <= Z.abs a / Z.abs b <= Z.abs a).
  { split; [apply Z.div_pos; lia|]. apply Z.div_le_upper_bound; nia. }
  pose proof (Z.mod_pos_bound (Z.abs a) (Z.abs b)).
  rewrite !neg_spec, Z.quot_div, Z.rem_mod by lia.
  split; f_equal.
  - assert (Es : (Z.lxor a b <? 0) = negb (Bool.eqb (a <? 0) (b <? 0))).
    { pose proof (Z.lxor_nonneg a b).
      destruct (Z.ltb_spec (Z.lxor a b) 0), (Z.ltb_spec a 0), (Z.ltb_spec b 0); cbn; lia. }
    rewrite Es. assert (Hz : a = 0 -> Z.abs a / Z.abs b = 0) by (intros ->; apply Z.div_0_l; lia).
    destruct (Z.ltb_spec a 0), (Z.ltb_spec b 0); cbn [Bool.eqb negb]; rewrite s64_small by lia;
      try rewrite (Z.sgn_neg a) by lia; try rewrite (Z.sgn_neg b) by lia; try rewrite (Z.sgn_pos b) by lia;
      try (destruct (Z.eq_dec a 0) as [E|E]; [rewrite (Hz E); lia|rewrite (Z.sgn_pos a) by lia]); lia.
  - assert (Hz : a = 0 -> Z.abs a mod Z.abs b = 0) by (intros ->; apply Z.mod_0_l; lia).
    destruct (Z.ltb_spec a 0); rewrite s64_small by lia;
      [rewrite (Z.sgn_neg a) by lia; lia|].
    destruct (Z.eq_dec a 0) as [E|E]; [rewrite (Hz E); lia|rewrite (Z.sgn_pos a) by lia; lia].
Qed.

(** C27. The 64-bit routines are exact on every operand the language defines them
    for: unsigned division gives the floor quotient and its remainder (and traps
    on a zero divisor), signed division truncates towards zero with the remainder
    taking the numerator's sign, the shifts by the count modulo 64 multiply or
    divide by the power of two (the left shift wrapping, the arithmetic right
    shift rounding down), and [__clzdi2] counts the leading zeros. *)
Theorem arith64_exact a b :
  (0 <= a < 2 ^ 64 -> 0 <= b < 2 ^ 64 ->
     divmoddi4 a b = (if b =? 0 then None else Some (a / b, a mod b)) /\
     lshrdi3 a b = a / 2 ^ (b mod 64)) /\
  (- 2 ^ 63 < a < 2 ^ 63 -> - 2 ^ 63 < b < 2 ^ 63 -> b <> 0 ->
     divdi3 a b = Some (Z.quot a b) /\ moddi3 a b = Some (Z.rem a b)) /\
  (- 2 ^ 63 <= a < 2 ^ 63 ->
     ashldi3 a b = s64 (a * 2 ^ (b mod 64)) /\ ashrdi3 a b = a / 2 ^ (b mod 64)) /\
  (0 < a < 2 ^ 64 -> 2 ^ (63 - clzdi2 a) <= a < 2 ^ (64 - clzdi2 a)).
Proof.
  assert (E : b mod 64 = Z.land b 63) by (symmetry; by apply (land_mask b 6)). rewrite E.
  split; [|split; [|split]]; intros.
  - split; [by apply divmoddi4_spec|by apply lshrdi3_spec].
  - by apply div_signed.
  - split; [apply ashldi3_spec|by apply ashrdi3_spec].
  - by apply clzdi2_spec.
Qed.

Lemma arith64_exact_witness :
  divmoddi4 0xfedcba9876543210 0x123456789 = Some (0xfedcba9876543210 / 0x123456789, 0xfedcba9876543210 mod 0x123456789) /\
  divdi3 (-1000000000001) 7 = Some (-142857142857) /\ moddi3 (-1000000000001) 7 = Some (-2) /\
  ashrdi3 (-1000000000001) 7 = -7812500001.
Proof.
  destruct (arith64_exact 0xfedcba9876543210 0x123456789) as (H1 & _).
  destruct (arith64_exact (-1000000000001) 7) as (_ & H2 & H3 & _).
  split; [apply H1; lia|]. split; [apply H2; lia|]. split; [apply H2; lia|]. apply H3. lia.
Defined.
