(* ===== verification/Picolibc.v ===== *)
(** The C library of the patches (src/patches/source/picolibc): the string and
    memory routines as they are compiled, which work a word at a time where the
    pointers are aligned, and beside them the byte loops the same files hold for
    builds that prefer size. *)

From S2P Require Import Prelude.
#[local] Open Scope nat_scope.

(** ** Memory

    Bytes by address; a [long] has four, the most significant first. *)
Definition mem : Type := nat -> Z.
Definition word (m : mem) (a : nat) : Z :=
  (m a * 2 ^ 24 + m (a + 1)%nat * 2 ^ 16 + m (a + 2)%nat * 2 ^ 8 + m (a + 3)%nat)%Z.
Definition set_word (m : mem) (a : nat) (w : Z) : mem :=
  upd (upd (upd (upd m a (u8 (Z.shiftr w 24))) (a + 1) (u8 (Z.shiftr w 16)))
        (a + 2) (u8 (Z.shiftr w 8))) (a + 3) (u8 w).
Definition copy_word (m : mem) (dst src : nat) : mem := set_word m dst (word m src).

Definition LBLOCKSIZE : nat := 4.
Definition BIGBLOCKSIZE : nat := 16.
Definition ALIGNED (p : nat) : bool := p mod LBLOCKSIZE =? 0.
Definition UNALIGNED (p q : nat) : bool := negb (ALIGNED p && ALIGNED q).
Definition DETECTNULL (x : Z) : Z :=
  Z.land (Z.land (u32 (x - 0x01010101)) (u32 (Z.lnot x))) 0x80808080.
Definition has_null (x : Z) : bool := negb (DETECTNULL x =? 0)%Z.

(** ** Strings *)

(** [while ( *s) s++], and a word at a time. *)
Fixpoint byte_scan (fuel : nat) (m : mem) (s : nat) : option nat :=
  match fuel with
  | O => None
  | S fuel => if (m s =? 0)%Z then Some s else byte_scan fuel m (S s)
  end.
Fixpoint word_scan (fuel : nat) (m : mem) (s : nat) : option nat :=
  match fuel with
  | O => None
  | S fuel => if has_null (word m s) then Some s else word_scan fuel m (s + LBLOCKSIZE)
  end.
(** [while (UNALIGNED (str))]: where it stops, and whether at the terminator. *)
Fixpoint align_scan (fuel : nat) (m : mem) (s : nat) : option (nat * bool) :=
  match fuel with
  | O => None
  | S fuel =>
      if ALIGNED s then Some (s, false)
      else if (m s =? 0)%Z then Some (s, true) else align_scan fuel m (S s)
  end.

Definition strlen_bytes (fuel : nat) (m : mem) (str : nat) : option nat :=
  e ← byte_scan fuel m str; Some (e - str).
Definition strlen (fuel : nat) (m : mem) (str : nat) : option nat :=
  r ← align_scan LBLOCKSIZE m str;
  let '(s, ended) := (r : nat * bool) in
  if ended then Some (s - str)
  else s ← word_scan fuel m s; e ← byte_scan LBLOCKSIZE m s; Some (e - str).

(** [while (( *dst++ = *src++))], and a word at a time. *)
Fixpoint copy_str (fuel : nat) (m : mem) (dst src : nat) : option mem :=
  match fuel with
  | O => None
  | S fuel =>
      let m' := upd m dst (m src) in
      if (m src =? 0)%Z then Some m' else copy_str fuel m' (S dst) (S src)
  end.
Fixpoint copy_str_words (fuel : nat) (m : mem) (dst src : nat) : option (mem * nat * nat) :=
  match fuel with
  | O => None
  | S fuel =>
      if has_null (word m src) then Some (m, dst, src)
      else copy_str_words fuel (copy_word m dst src) (dst + LBLOCKSIZE) (src + LBLOCKSIZE)
  end.
Definition strcpy_bytes (fuel : nat) (m : mem) (dst src : nat) : option mem := copy_str fuel m dst src.
Definition strcpy (fuel : nat) (m : mem) (dst src : nat) : option mem :=
  r ← (if UNALIGNED src dst then Some (m, dst, src) else copy_str_words fuel m dst src);
  let '(m, dst, src) := (r : mem * nat * nat) in
  copy_str fuel m dst src.

Definition strcat_bytes (fuel : nat) (m : mem) (s1 s2 : nat) : option mem :=
  e ← byte_scan fuel m s1; copy_str fuel m e s2.
Definition strcat (fuel : nat) (m : mem) (s1 s2 : nat) : option mem :=
  s ← (if ALIGNED s1 then word_scan fuel m s1 else Some s1);
  e ← byte_scan fuel m s;
  strcpy fuel m e s2.

Fixpoint strcmp_bytes (fuel : nat) (m : mem) (s1 s2 : nat) : option Z :=
  match fuel with
  | O => None
  | S fuel =>
      if negb (m s1 =? 0)%Z && (m s1 =? m s2)%Z then strcmp_bytes fuel m (S s1) (S s2)
      else Some (m s1 - m s2)%Z
  end.
(** The loop over equal words: [inl] when the strings were equal. *)
Fixpoint equal_words (fuel : nat) (m : mem) (a1 a2 : nat) : option (unit + nat * nat) :=
  match fuel with
  | O => None
  | S fuel =>
      if (word m a1 =? word m a2)%Z then
        if has_null (word m a1) then Some (inl tt)
        else equal_words fuel m (a1 + LBLOCKSIZE) (a2 + LBLOCKSIZE)
      else Some (inr (a1, a2))
  end.
Definition strcmp (fuel : nat) (m : mem) (s1 s2 : nat) : option Z :=
  r ← (if UNALIGNED s1 s2 then Some (inr (s1, s2)) else equal_words fuel m s1 s2);
  match r with
  | inl tt => Some 0%Z
  | inr (s1, s2) => strcmp_bytes fuel m s1 s2
  end.

Fixpoint strncmp_rounds (n : nat) (m : mem) (s1 s2 : nat) : Z :=
  match n with
  | O => (m s1 - m s2)%Z
  | S n =>
      if (m s1 =? m s2)%Z then
        if (n =? 0) || (m s1 =? 0)%Z then (m s1 - m s2)%Z
        else strncmp_rounds n m (S s1) (S s2)
      else (m s1 - m s2)%Z
  end.
Definition strncmp (m : mem) (s1 s2 n : nat) : Z :=
  if n =? 0 then 0%Z else strncmp_rounds n m s1 s2.

(** [strncpy] as compiled: the padding loop is commented out, a terminator is
    written after what was copied. *)
Fixpoint copy_count_words (fuel : nat) (m : mem) (dst src count : nat) : option (mem * nat * nat * nat) :=
  match fuel with
  | O => None
  | S fuel =>
      if (LBLOCKSIZE <=? count) && negb (has_null (word m src)) then
        copy_count_words fuel (copy_word m dst src) (dst + LBLOCKSIZE) (src + LBLOCKSIZE) (count - LBLOCKSIZE)
      else Some (m, dst, src, count)
  end.
Fixpoint copy_count (count : nat) (m : mem) (dst src : nat) : mem * nat :=
  match count with
  | O => (m, dst)
  | S count =>
      let m' := upd m dst (m src) in
      if (m src =? 0)%Z then (m', S dst) else copy_count count m' (S dst) (S src)
  end.
Definition strncpy (m : mem) (dst src count : nat) : option mem :=
  r ← (if negb (UNALIGNED src dst) && (LBLOCKSIZE <=? count)
       then copy_count_words (S count) m dst src count
       else Some (m, dst, src, count));
  let '(m, dst, src, count) := (r : mem * nat * nat * nat) in
  let '(m, dst) := copy_count count m dst src in
  Some (upd m dst 0%Z).

(** ** Blocks *)

Fixpoint memcmp (n : nat) (m : mem) (s1 s2 : nat) : Z :=
  match n with
  | O => 0%Z
  | S n => if negb (m s1 =? m s2)%Z then (m s1 - m s2)%Z else memcmp n m (S s1) (S s2)
  end.

Fixpoint copy_bytes (len : nat) (m : mem) (dst src : nat) : mem :=
  match len with
  | O => m
  | S len => copy_bytes len (upd m dst (m src)) (S dst) (S src)
  end.
(** [*--dst = *--src] from the end of the blocks down. *)
Fixpoint copy_back (len : nat) (m : mem) (dst src : nat) : mem :=
  match len with
  | O => m
  | S len => copy_back len (upd m (dst + len) (m (src + len))) dst src
  end.
Fixpoint copy_little (fuel : nat) (m : mem) (dst src len : nat) : option (mem * nat * nat * nat) :=
  match fuel with
  | O => None
  | S fuel =>
      if LBLOCKSIZE <=? len then
        copy_little fuel (copy_word m dst src) (dst + LBLOCKSIZE) (src + LBLOCKSIZE) (len - LBLOCKSIZE)
      else Some (m, dst, src, len)
  end.
Fixpoint copy_big (fuel : nat) (m : mem) (dst src len : nat) : option (mem * nat * nat * nat) :=
  match fuel with
  | O => None
  | S fuel =>
      if BIGBLOCKSIZE <=? len then
        let m := copy_word m dst src in
        let m := copy_word m (dst + 4) (src + 4) in
        let m := copy_word m (dst + 8) (src + 8) in
        let m := copy_word m (dst + 12) (src + 12) in
        copy_big fuel m (dst + BIGBLOCKSIZE) (src + BIGBLOCKSIZE) (len - BIGBLOCKSIZE)
      else Some (m, dst, src, len)
  end.
Definition memcpy (m : mem) (dst src len : nat) : option mem :=
  r ← (if (BIGBLOCKSIZE <=? len) && negb (UNALIGNED src dst) then
         r ← copy_big (S len) m dst src len;
         let '(m, dst, src, len) := (r : mem * nat * nat * nat) in
         copy_little (S len) m dst src len
       else Some (m, dst, src, len));
  let '(m, dst, src, len) := (r : mem * nat * nat * nat) in
  Some (copy_bytes len m dst src).
Definition memmove (m : mem) (dst src len : nat) : option mem :=
  if (src <? dst) && (dst <? src + len) then Some (copy_back len m dst src)
  else memcpy m dst src len.

Fixpoint fill_bytes (n : nat) (m : mem) (s : nat) (c : Z) : mem :=
  match n with
  | O => m
  | S n => fill_bytes n (upd m s (u8 c)) (S s) c
  end.
(** [while (UNALIGNED (s))]: [inl] when the block ended there. *)
Fixpoint fill_align (fuel : nat) (m : mem) (s : nat) (c : Z) (n : nat) : option (mem + mem * nat * nat) :=
  match fuel with
  | O => None
  | S fuel =>
      if ALIGNED s then Some (inr (m, s, n))
      else
        match n with
        | O => Some (inl m)
        | S n => fill_align fuel (upd m s (u8 c)) (S s) c n
        end
  end.
Fixpoint fill_little (fuel : nat) (m : mem) (s : nat) (buffer : Z) (n : nat) : option (mem * nat * nat) :=
  match fuel with
  | O => None
  | S fuel =>
      if LBLOCKSIZE <=? n then
        fill_little fuel (set_word m s buffer) (s + LBLOCKSIZE) buffer (n - LBLOCKSIZE)
      else Some (m, s, n)
  end.
Fixpoint fill_big (fuel : nat) (m : mem) (s : nat) (buffer : Z) (n : nat) : option (mem * nat * nat) :=
  match fuel with
  | O => None
  | S fuel =>
      if LBLOCKSIZE * 4 <=? n then
        let m := set_word m s buffer in
        let m := set_word m (s + 4) buffer in
        let m := set_word m (s + 8) buffer in
        let m := set_word m (s + 12) buffer in
        fill_big fuel m (s + 16) buffer (n - 4 * LBLOCKSIZE)
      else Some (m, s, n)
  end.
Definition fill_word (c : Z) : Z :=
  let d := Z.land c 0xff in
  let buffer := Z.lor (Z.shiftl d 8) d in
  Z.lor buffer (Z.shiftl buffer 16).
Definition memset (m : mem) (s : nat) (c : Z) (n : nat) : option mem :=
  r ← fill_align LBLOCKSIZE m s c n;
  match r with
  | inl m => Some m
  | inr (m, s, n) =>
      r ← (if LBLOCKSIZE <=? n then
             r ← fill_big (S n) m s (fill_word c) n;
             let '(m, s, n) := (r : mem * nat * nat) in
             fill_little (S n) m s (fill_word c) n
           else Some (m, s, n));
      let '(m, s, n) := (r : mem * nat * nat) in
      Some (fill_bytes n m s c)
  end.
