(* ===== verification/PicolibcThms.v ===== *)
(** The compiled string and memory routines of picolibc do what their byte loops
    do: the word-at-a-time branches are correct. *)

From Stdlib Require Import Btauto.
From S2P Require Import Prelude Bits Picolibc.
#[local] Open Scope nat_scope.

(** ** Words *)

Definition is_bytes (m : mem) : Prop := forall a, (0 <= m a < 256)%Z.

Lemma has_null_bits x :
  has_null x = (fun y => Z.testbit y 31 || Z.testbit y 23 || Z.testbit y 15 || Z.testbit y 7)
                 (Z.land (u32 (x - 0x01010101)) (u32 (Z.lnot x))).
Proof.
  unfold has_null, DETECTNULL. set (y := Z.land (u32 _) (u32 _)). cbv beta.
  change 0x80808080%Z with (Z.lor (2 ^ 31) (Z.lor (2 ^ 23) (Z.lor (2 ^ 15) (2 ^ 7)))).
  rewrite !Z.land_lor_distr_r.
  assert (Hor : forall a b, (Z.lor a b =? 0)%Z = ((a =? 0) && (b =? 0))%Z).
  { intros a b. destruct (Z.eqb_spec (Z.lor a b) 0) as [H0|H0].
    - apply Z.lor_eq_0_iff in H0 as [-> ->]. done.
    - symmetry. apply andb_false_iff.
      destruct (Z.eqb_spec a 0) as [->|]; [|by left]. destruct (Z.eqb_spec b 0) as [->|]; [done|by right]. }
  rewrite !Hor, !land_bit by lia.
  destruct (Z.testbit y 31), (Z.testbit y 23), (Z.testbit y 15), (Z.testbit y 7); done.
Qed.

(** The test asks of each byte whether the borrow of the subtraction reaches its
    top bit while the byte has none. *)
Lemma has_null_bits' x :
  has_null x = (fun t => t 31 || t 23 || t 15 || t 7)%Z
    (fun k => Z.testbit (x - 0x01010101) k && negb (Z.testbit x k)).
Proof.
  rewrite has_null_bits. cbv beta. unfold u32.
  rewrite !Z.land_spec, !Z.mod_pow2_bits_low, !Z.lnot_spec by lia. done.
Qed.

Section Fields.
Open Scope Z_scope.
Context (a b c d : Z).
Hypothesis Hb : 0 <= a < 256 /\ 0 <= b < 256 /\ 0 <= c < 256 /\ 0 <= d < 256.
Let x := a * 2 ^ 24 + b * 2 ^ 16 + c * 2 ^ 8 + d.

Lemma field_bits :
  Z.testbit x 31 = (128 <=? a) /\ Z.testbit x 23 = (128 <=? b) /\
  Z.testbit x 15 = (128 <=? c) /\ Z.testbit x 7 = (128 <=? d).
Proof.
  subst x. rewrite !Z.testbit_eqb by lia. cbn [Z.pow Z.pow_pos Pos.iter Z.mul].
  split_and!; repeat bcase; zdm.
Qed.

Lemma field_borrow :
  (d = 0 -> Z.testbit (x - 0x01010101) 7 = true) /\
  (d <> 0 -> c = 0 -> Z.testbit (x - 0x01010101) 15 = true) /\
  (d <> 0 -> c <> 0 -> b = 0 -> Z.testbit (x - 0x01010101) 23 = true) /\
  (d <> 0 -> c <> 0 -> b <> 0 -> a = 0 -> Z.testbit (x - 0x01010101) 31 = true).
Proof.
  subst x. rewrite !Z.testbit_true by lia. cbn [Z.pow Z.pow_pos Pos.iter Z.mul].
  split_and!; intros; zdm.
Qed.

Lemma field_no_borrow :
  a <> 0 -> b <> 0 -> c <> 0 -> d <> 0 ->
  Z.testbit (x - 0x01010101) 31 = (129 <=? a) /\ Z.testbit (x - 0x01010101) 23 = (129 <=? b) /\
  Z.testbit (x - 0x01010101) 15 = (129 <=? c) /\ Z.testbit (x - 0x01010101) 7 = (129 <=? d).
Proof.
  subst x. intros. rewrite !Z.testbit_eqb by lia. cbn [Z.pow Z.pow_pos Pos.iter Z.mul].
  split_and!; repeat bcase; zdm.
Qed.

(** [DETECTNULL] is exact: it sees a NUL byte exactly when there is one. *)
Lemma has_null_fields : has_null x = ((a =? 0) || (b =? 0) || (c =? 0) || (d =? 0)).
Proof.
  rewrite has_null_bits'. cbv beta. destruct field_bits as (-> & -> & -> & ->).
  destruct field_borrow as (D & C & B & A).
  destruct (Z.eqb_spec d 0) as [Hd|Hd]; [rewrite D, Hd by done; cbn; btauto|].
  destruct (Z.eqb_spec c 0) as [Hc|Hc]; [rewrite C, Hc by done; cbn; btauto|].
  destruct (Z.eqb_spec b 0) as [Hb'|Hb']; [rewrite B, Hb' by done; cbn; btauto|].
  destruct (Z.eqb_spec a 0) as [Ha|Ha]; [rewrite A, Ha by done; cbn; btauto|].
  destruct field_no_borrow as (-> & -> & -> & ->); try done.
  repeat bcase; cbn; lia || done.
Qed.
End Fields.

Lemma has_null_word m a :
  is_bytes m -> has_null (word m a) = true <-> exists i, i < 4 /\ m (a + i) = 0%Z.
Proof.
  intros Hm. unfold word. rewrite has_null_fields by (split_and!; apply Hm).
  rewrite !orb_true_iff, !Z.eqb_eq. split.
  - intros [[[H|H]|H]|H]; [exists 0|exists 1|exists 2|exists 3]; rewrite ?Nat.add_0_r; (split; [lia|done]).
  - intros (i & Hi & H). destruct i as [|[|[|[|i]]]]; rewrite ?Nat.add_0_r in H; auto. lia.
Qed.
Lemma has_null_word_false m a :
  is_bytes m -> has_null (word m a) = false <-> forall i, i < 4 -> m (a + i) <> 0%Z.
Proof.
  intros Hm. rewrite <- not_true_iff_false, has_null_word by done. naive_solver.
Qed.

(** ** Memories up to pointwise equality *)

Definition same (m m' : mem) : Prop := forall x, m x = m' x.
#[export] Instance same_equiv : Equivalence same.
Proof. split; unfold same; [done|congruence..]. Qed.

(** [len] bytes copied from [src] to [dst]. *)
Definition blit (m : mem) (dst src len : nat) : mem :=
  fun x => if decide (dst <= x < dst + len) then m (src + (x - dst)) else m x.
(** A block of one byte. *)
Definition filled (m : mem) (s n : nat) (c : Z) : mem :=
  fun x => if decide (s <= x < s + n) then u8 c else m x.

Lemma blit_0 m dst src : same (blit m dst src 0) m.
Proof. intros x. unfold blit. rewrite decide_False by lia. done. Qed.
Lemma blit_bytes m m' dst src len : is_bytes m -> same m' (blit m dst src len) -> is_bytes m'.
Proof. intros Hm Hs x. rewrite Hs. unfold blit. case_decide; apply Hm. Qed.

(** The source is not overwritten before it is read. *)
Definition forward (dst src len : nat) : Prop := dst <= src \/ src + len <= dst.

Lemma blit_step m m1 m2 dst src k j len :
  forward dst src len -> k + j <= len -> same m1 (blit m dst src k) ->
  same m2 (blit m1 (dst + k) (src + k) j) -> same m2 (blit m dst src (k + j)).
Proof.
  intros Hf Hk H1 H2 x. rewrite (H2 x). unfold blit at 1. case_decide.
  - rewrite (H1 _). unfold blit. rewrite decide_False by (destruct Hf; lia).
    rewrite decide_True by lia. f_equal. lia.
  - rewrite (H1 x). unfold blit. repeat case_decide; done || lia.
Qed.

Lemma upd_blit m dst src : same (upd m dst (m src)) (blit m dst src 1).
Proof.
  intros x. unfold upd, blit. repeat case_decide; try lia; subst; try done. f_equal. lia.
Qed.

Lemma set_word_bytes m d w x :
  set_word m d w x = if decide (x = d + 3) then u8 w else if decide (x = d + 2) then u8 (Z.shiftr w 8)
    else if decide (x = d + 1) then u8 (Z.shiftr w 16) else if decide (x = d) then u8 (Z.shiftr w 24) else m x.
Proof. done. Qed.

Lemma word_byte m a : is_bytes m ->
  u8 (word m a) = m (a + 3) /\ u8 (Z.shiftr (word m a) 8) = m (a + 2) /\
  u8 (Z.shiftr (word m a) 16) = m (a + 1) /\ u8 (Z.shiftr (word m a) 24) = m a.
Proof.
  intros Hm. pose proof (Hm a). pose proof (Hm (a + 1)). pose proof (Hm (a + 2)). pose proof (Hm (a + 3)).
  unfold word, u8. rewrite !Z.shiftr_div_pow2 by lia. cbn [Z.pow Z.pow_pos Pos.iter Z.mul].
  split_and!; zdm.
Qed.

Lemma copy_word_blit m dst src : is_bytes m -> same (copy_word m dst src) (blit m dst src 4).
Proof.
  intros Hm x. unfold copy_word. rewrite set_word_bytes.
  destruct (word_byte m src Hm) as (-> & -> & -> & ->).
  unfold blit. repeat case_decide; try lia; subst; (done || f_equal; lia).
Qed.

(** ** Strings *)

(** A string of [n] bytes at [a]. *)
Definition nul_at (m : mem) (a n : nat) : Prop := m (a + n) = 0%Z /\ forall i, i < n -> m (a + i) <> 0%Z.

Lemma nul_at_skip m a n k : nul_at m a n -> k <= n -> nul_at m (a + k) (n - k).
Proof.
  intros [H0 H1] ?. split.
  - rewrite <- H0. f_equal. lia.
  - intros i Hi. rewrite <- Nat.add_assoc. apply H1. lia.
Qed.
Lemma nul_at_0 m a n : nul_at m a n -> m a = 0%Z -> n = 0.
Proof. intros [_ H1] H0. destruct n; [done|]. specialize (H1 0). rewrite Nat.add_0_r in H1. by destruct H1; [lia|]. Qed.
Lemma nul_at_pos m a n : nul_at m a n -> m a <> 0%Z -> 0 < n.
Proof. intros [H0 _] ?. destruct n; [|lia]. by rewrite Nat.add_0_r in H0. Qed.
(** A word without a NUL lies before the terminator. *)
Lemma nul_at_word m a n : nul_at m a n -> (forall i, i < 4 -> m (a + i) <> 0%Z) -> 4 <= n.
Proof. intros [H0 _] Hn. destruct (decide (4 <= n)); [done|]. destruct (Hn n); [lia|done]. Qed.

Lemma byte_scan_ok fuel m a n : nul_at m a n -> n < fuel -> byte_scan fuel m a = Some (a + n).
Proof.
  revert a n. induction fuel as [|fuel IH]; intros a n Hn Hf; [lia|]. cbn.
  destruct (Z.eqb_spec (m a) 0) as [H0|H0].
  - rewrite (nul_at_0 _ _ _ Hn H0). f_equal. lia.
  - pose proof (nul_at_pos _ _ _ Hn H0). rewrite <- (Nat.add_1_r a).
    rewrite (IH _ (n - 1)); [f_equal; lia|apply nul_at_skip; [done|lia]|lia].
Qed.

Lemma word_scan_ok fuel m a n :
  is_bytes m -> nul_at m a n -> n < fuel ->
  exists k, k <= n /\ n < k + 4 /\ word_scan fuel m a = Some (a + k).
Proof.
  intros Hm. revert a n. induction fuel as [|fuel IH]; intros a n Hn Hf; [lia|]. cbn.
  destruct (has_null (word m a)) eqn:E.
  - apply has_null_word in E as (i & Hi & E); [|done]. exists 0. rewrite Nat.add_0_r.
    split_and!; [lia| |done]. destruct (decide (n < 0 + 4)); [done|]. destruct Hn as [_ Hn].
    by destruct (Hn i); [lia|].
  - pose proof (nul_at_word _ _ _ Hn (proj1 (has_null_word_false m a Hm) E)).
    destruct (IH (a + 4) (n - 4)) as (k & ? & ? & Ek); [by apply nul_at_skip|lia|].
    exists (k + 4). split_and!; [lia|lia|]. unfold LBLOCKSIZE. rewrite Ek. f_equal. lia.
Qed.

Lemma align_scan_ok fuel m a n :
  nul_at m a n -> (4 - a mod 4) mod 4 < fuel ->
  exists k e, k <= n /\ align_scan fuel m a = Some (a + k, e) /\ (e = true -> k = n).
Proof.
  revert a n. induction fuel as [|fuel IH]; intros a n Hn Hf; [lia|].
  cbn [align_scan]. unfold ALIGNED, LBLOCKSIZE in *.
  destruct (Nat.eqb_spec (a mod 4) 0) as [Ha|Ha].
  { exists 0, false. rewrite Nat.add_0_r. split_and!; [lia|done|done]. }
  destruct (Z.eqb_spec (m a) 0) as [H0|H0].
  { exists 0, true. rewrite Nat.add_0_r. split_and!; [lia|done|]. by rewrite (nul_at_0 _ _ _ Hn H0). }
  pose proof (nul_at_pos _ _ _ Hn H0). rewrite <- (Nat.add_1_r a).
  destruct (IH (a + 1) (n - 1)) as (k & e & ? & Ek & He); [by apply nul_at_skip| |].
  { pose proof (Nat.mod_upper_bound a 4). rewrite <- (Nat.Div0.add_mod_idemp_l a 1 4).
    destruct (a mod 4) as [|[|[|[|]]]]; cbn in *; lia. }
  exists (k + 1), e. split_and!; [lia|rewrite Ek; do 2 f_equal; lia|]. intros ?. rewrite He; [lia|done].
Qed.

Lemma strlen_ok fuel m a n :
  is_bytes m -> nul_at m a n -> n < fuel -> strlen fuel m a = Some n /\ strlen_bytes fuel m a = Some n.
Proof.
  intros Hm Hn Hf. split.
  - unfold strlen. destruct (align_scan_ok LBLOCKSIZE m a n) as (k & e & ? & -> & He); [done| |].
    { unfold LBLOCKSIZE. by apply Nat.mod_upper_bound. }
    cbn [mbind option_bind]. destruct e; [rewrite He by done; f_equal; lia|].
    pose proof (nul_at_skip _ _ _ k Hn) as Hk.
    destruct (word_scan_ok fuel m (a + k) (n - k)) as (j & ? & ? & ->); [done|auto|lia|].
    cbn [mbind option_bind].
    rewrite (byte_scan_ok _ _ _ (n - k - j)); [cbn; f_equal; lia| |unfold LBLOCKSIZE; lia].
    apply nul_at_skip; [auto|lia].
  - unfold strlen_bytes. rewrite (byte_scan_ok _ _ _ n) by done. cbn. f_equal. lia.
Qed.

(** *** Copies *)

Lemma blit_read m m1 dst src k len i :
  forward dst src len -> same m1 (blit m dst src k) -> k <= i -> i < len -> m1 (src + i) = m (src + i).
Proof.
  intros Hf H1 ??. rewrite (H1 _). unfold blit. rewrite decide_False by (destruct Hf; lia). done.
Qed.

Section Copy.
Context (m : mem) (dst src len : nat).
Hypothesis Hm : is_bytes m.
Hypothesis Hf : forward dst src len.

(** One byte and one word more. *)
Lemma blit_byte m1 k : k < len -> same m1 (blit m dst src k) ->
  same (upd m1 (dst + k) (m1 (src + k))) (blit m dst src (S k)).
Proof.
  intros ? H1. rewrite <- Nat.add_1_r. apply (blit_step m m1 _ _ _ _ _ len); [done|lia|done|].
  apply upd_blit.
Qed.
Lemma blit_word m1 k : k + 4 <= len -> same m1 (blit m dst src k) ->
  same (copy_word m1 (dst + k) (src + k)) (blit m dst src (k + 4)).
Proof.
  intros ? H1. apply (blit_step m m1 _ _ _ _ _ len); [done|lia|done|].
  apply copy_word_blit. by eapply blit_bytes.
Qed.

Lemma copy_str_ok fuel k m1 :
  same m1 (blit m dst src k) -> nul_at m src (len - 1) -> k < len -> len - k <= fuel ->
  exists m2, copy_str fuel m1 (dst + k) (src + k) = Some m2 /\ same m2 (blit m dst src len).
Proof.
  revert k m1. induction fuel as [|fuel IH]; intros k m1 H1 Hn Hk Hfu; [lia|]. cbn.
  pose proof (blit_byte m1 k Hk H1) as H2.
  pose proof (blit_read _ _ _ _ _ _ k Hf H1 (le_n _) Hk) as Er.
  destruct (Z.eqb_spec (m1 (src + k)) 0) as [H0|H0].
  - eexists. split; [done|]. replace len with (S k); [done|].
    destruct Hn as [_ Hn]. destruct (decide (k < len - 1)); [|lia]. destruct (Hn k); [lia|congruence].
  - rewrite <- !Nat.add_succ_r. apply IH; [done|done| |lia].
    destruct (decide (k = len - 1)) as [->|]; [|lia]. destruct Hn as [Hn _]. congruence.
Qed.

Lemma copy_str_words_ok fuel k m1 :
  same m1 (blit m dst src k) -> nul_at m src (len - 1) -> k < len -> len - k <= fuel ->
  exists m2 k', copy_str_words fuel m1 (dst + k) (src + k) = Some (m2, dst + k', src + k') /\
    k' < len /\ same m2 (blit m dst src k').
Proof.
  revert k m1. induction fuel as [|fuel IH]; intros k m1 H1 Hn Hk Hfu; [lia|].
  cbn [copy_str_words].
  destruct (has_null (word m1 (src + k))) eqn:E; [by exists m1, k|].
  assert (Hk4 : k + 4 < len).
  { pose proof (proj1 (has_null_word_false m1 _ (blit_bytes _ _ _ _ _ Hm H1)) E) as Hnz.
    destruct (decide (k + 4 < len)); [done|]. destruct (Hnz (len - 1 - k)); [lia|].
    rewrite <- Nat.add_assoc, (blit_read _ _ _ _ _ _ _ Hf H1); [|lia|lia].
    destruct Hn as [Hn _]. rewrite <- Hn. f_equal. lia. }
  unfold LBLOCKSIZE. rewrite <- !Nat.add_assoc. apply IH; [|done|done|lia].
  apply blit_word; [lia|done].
Qed.

Lemma strcpy_ok fuel :
  nul_at m src (len - 1) -> 0 < len <= fuel ->
  exists m1 m2, strcpy fuel m dst src = Some m1 /\ strcpy_bytes fuel m dst src = Some m2 /\
    same m1 (blit m dst src len) /\ same m2 (blit m dst src len).
Proof.
  intros Hn Hl. pose proof (blit_0 m dst src) as H0. symmetry in H0.
  unfold strcpy_bytes. destruct (copy_str_ok fuel 0 m H0 Hn) as (m2 & E2 & H2); [lia|lia|].
  rewrite !Nat.add_0_r in E2.
  enough (exists m1, strcpy fuel m dst src = Some m1 /\ same m1 (blit m dst src len)) as (m1 & ? & ?)
    by (exists m1, m2; auto).
  unfold strcpy. destruct (UNALIGNED src dst); cbn [mbind option_bind]; [by exists m2|].
  destruct (copy_str_words_ok fuel 0 m H0 Hn) as (m1 & k & E1 & Hk & H1); [lia|lia|].
  rewrite !Nat.add_0_r in E1. rewrite E1. cbn [mbind option_bind]. apply copy_str_ok; auto. lia.
Qed.

(** *** Blocks *)

Lemma copy_bytes_ok n k m1 :
  same m1 (blit m dst src k) -> k + n = len -> same (copy_bytes n m1 (dst + k) (src + k)) (blit m dst src len).
Proof.
  revert k m1. induction n as [|n IH]; intros k m1 H1 Hk; cbn.
  - by replace len with k by lia.
  - rewrite <- !Nat.add_succ_r. apply IH; [|lia]. apply blit_byte; [lia|done].
Qed.

Lemma copy_little_ok fuel k n m1 :
  same m1 (blit m dst src k) -> k + n = len -> n < fuel ->
  exists m2 k' n', copy_little fuel m1 (dst + k) (src + k) n = Some (m2, dst + k', src + k', n') /\
    k' + n' = len /\ same m2 (blit m dst src k').
Proof.
  revert k n m1. induction fuel as [|fuel IH]; intros k n m1 H1 Hk Hfu; [lia|].
  cbn [copy_little]. unfold LBLOCKSIZE.
  destruct (Nat.leb_spec 4 n); [|by exists m1, k, n].
  rewrite <- !Nat.add_assoc. apply IH; [|lia|lia]. apply blit_word; [lia|done].
Qed.

Lemma copy_big_ok fuel k n m1 :
  same m1 (blit m dst src k) -> k + n = len -> n < fuel ->
  exists m2 k' n', copy_big fuel m1 (dst + k) (src + k) n = Some (m2, dst + k', src + k', n') /\
    k' + n' = len /\ same m2 (blit m dst src k').
Proof.
  revert k n m1. induction fuel as [|fuel IH]; intros k n m1 H1 Hk Hfu; [lia|].
  cbn [copy_big]. unfold BIGBLOCKSIZE.
  destruct (Nat.leb_spec 16 n); [|by exists m1, k, n].
  rewrite <- !Nat.add_assoc. apply IH; [|lia|lia].
  pose proof (blit_word _ k ltac:(lia) H1) as H2. pose proof (blit_word _ (k + 4) ltac:(lia) H2) as H3.
  pose proof (blit_word _ (k + 4 + 4) ltac:(lia) H3) as H4.
  pose proof (blit_word _ (k + 4 + 4 + 4) ltac:(lia) H4) as H5.
  rewrite <- !Nat.add_assoc in *. exact H5.
Qed.

Lemma memcpy_ok : exists m1, memcpy m dst src len = Some m1 /\ same m1 (blit m dst src len).
Proof.
  pose proof (blit_0 m dst src) as H0. symmetry in H0.
  unfold memcpy. destruct ((BIGBLOCKSIZE <=? len) && negb (UNALIGNED src dst)); cbn [mbind option_bind].
  - destruct (copy_big_ok (S len) 0 len m H0) as (m1 & k1 & n1 & E1 & Hk1 & H1); [lia|lia|].
    rewrite !Nat.add_0_r in E1. rewrite E1. cbn [mbind option_bind].
    destruct (copy_little_ok (S n1) k1 n1 m1 H1) as (m2 & k2 & n2 & -> & Hk2 & H2); [lia|lia|].
    cbn [mbind option_bind]. eexists. split; [done|]. by apply copy_bytes_ok.
  - eexists. split; [done|]. pose proof (copy_bytes_ok len 0 m H0) as H1.
    rewrite !Nat.add_0_r in H1. by apply H1.
Qed.
End Copy.

Lemma copy_back_ok len m dst src : src <= dst -> same (copy_back len m dst src) (blit m dst src len).
Proof.
  intros Hle. revert m. induction len as [|len IH]; intros m; cbn; [symmetry; apply blit_0|].
  intros x. rewrite (IH _ x). unfold blit. destruct (decide (dst <= x < dst + len)) as [Hx|Hx].
  - rewrite upd_ne by lia. by rewrite decide_True by lia.
  - destruct (decide (x = dst + len)) as [->|Hne].
    + rewrite upd_eq, decide_True by lia. f_equal. lia.
    + rewrite upd_ne by done. by rewrite decide_False by lia.
Qed.

Lemma memmove_ok m dst src len :
  is_bytes m -> exists m1, memmove m dst src len = Some m1 /\ same m1 (blit m dst src len).
Proof.
  intros Hm. unfold memmove.
  destruct (Nat.ltb_spec src dst); destruct (Nat.ltb_spec dst (src + len)); cbn.
  1: { eexists. split; [done|]. apply copy_back_ok. lia. }
  all: apply memcpy_ok; auto; unfold forward; lia.
Qed.

(** *** Comparison *)

(** The strings agree on [k] bytes and are told apart, or end, there. *)
Definition stops (m : mem) (a b k : nat) : Prop :=
  (forall i, i < k -> m (a + i) = m (b + i) /\ m (a + i) <> 0%Z) /\
  (m (a + k) = 0%Z \/ m (a + k) <> m (b + k)).

Lemma stops_skip m a b k j : stops m a b k -> j <= k -> stops m (a + j) (b + j) (k - j).
Proof.
  intros [H1 H2] Hj. split.
  - intros i Hi. rewrite <- !Nat.add_assoc. apply H1. lia.
  - rewrite <- !Nat.add_assoc. by replace (j + (k - j)) with k by lia.
Qed.
Lemma stops_ge m a b k n :
  stops m a b k -> (forall i, i < n -> m (a + i) = m (b + i) /\ m (a + i) <> 0%Z) -> n <= k.
Proof. intros [_ H2] Hn. destruct (decide (n <= k)); [done|]. destruct (Hn k); [lia|]. by destruct H2. Qed.

Lemma strcmp_bytes_ok fuel m a b k :
  stops m a b k -> k < fuel -> strcmp_bytes fuel m a b = Some (m (a + k)%nat - m (b + k)%nat)%Z.
Proof.
  revert a b k. induction fuel as [|fuel IH]; intros a b k Hs Hk; [lia|]. cbn.
  destruct (decide (k = 0)) as [->|Hk0].
  - rewrite !Nat.add_0_r. destruct Hs as [_ Hs]. rewrite !Nat.add_0_r in Hs.
    destruct (Z.eqb_spec (m a) 0); [done|]. destruct (Z.eqb_spec (m a) (m b)); [tauto|done].
  - destruct (proj1 Hs 0) as [H1 H2]; [lia|]. rewrite (Nat.add_0_r a) in H1, H2. rewrite (Nat.add_0_r b) in H1.
    rewrite <- H1, Z.eqb_refl. destruct (Z.eqb_spec (m a) 0); [done|]. cbn [negb andb].
    rewrite <- (Nat.add_1_r a), <- (Nat.add_1_r b), (IH _ _ (k - 1)); [|apply stops_skip; [done|lia]|lia].
    rewrite <- !Nat.add_assoc. by replace (1 + (k - 1)) with k by lia.
Qed.

Lemma words_equal m a b i :
  is_bytes m -> word m a = word m b -> i < 4 -> m (a + i) = m (b + i).
Proof.
  intros Hm E Hi. destruct (word_byte m a Hm) as (A0 & A1 & A2 & A3).
  destruct (word_byte m b Hm) as (B0 & B1 & B2 & B3). rewrite <- E in *.
  destruct i as [|[|[|[|]]]]; rewrite ?Nat.add_0_r; congruence || lia.
Qed.

Lemma equal_words_ok fuel m a b k :
  is_bytes m -> stops m a b k -> k < fuel ->
  equal_words fuel m a b = Some (inl tt) /\ m (a + k) = m (b + k) \/
  exists j, j <= k /\ equal_words fuel m a b = Some (inr (a + j, b + j)).
Proof.
  intros Hm. revert a b k. induction fuel as [|fuel IH]; intros a b k Hs Hk; [lia|].
  cbn [equal_words]. destruct (Z.eqb_spec (word m a) (word m b)) as [E|E].
  2: { right. exists 0. rewrite !Nat.add_0_r. split; [lia|done]. }
  pose proof (fun i => words_equal m a b i Hm E) as He.
  destruct (has_null (word m a)) eqn:En.
  - left. split; [done|]. apply has_null_word in En as (i & Hi & H0); [|done].
    apply He. destruct (decide (k <= i)); [lia|]. destruct Hs as [Hs _].
    by destruct (Hs i) as [_ []]; [lia|].
  - pose proof (proj1 (has_null_word_false m a Hm) En) as Hnz.
    assert (4 <= k) by (eapply stops_ge; [exact Hs|]; auto).
    destruct (IH (a + 4) (b + 4) (k - 4)) as [[E1 E2]|(j & Hj & Ej)];
      [by apply stops_skip|lia| |].
    + left. split; [exact E1|]. rewrite <- !Nat.add_assoc in E2. by replace (4 + (k - 4)) with k in E2 by lia.
    + right. exists (j + 4). split; [lia|]. unfold LBLOCKSIZE. rewrite Ej. do 3 f_equal; lia.
Qed.

Lemma strcmp_ok fuel m a b k :
  is_bytes m -> stops m a b k -> k < fuel ->
  strcmp fuel m a b = Some (m (a + k)%nat - m (b + k)%nat)%Z /\
  strcmp_bytes fuel m a b = Some (m (a + k)%nat - m (b + k)%nat)%Z.
Proof.
  intros Hm Hs Hk. split; [|by apply strcmp_bytes_ok]. unfold strcmp.
  destruct (UNALIGNED a b); cbn [mbind option_bind]; [by apply strcmp_bytes_ok|].
  destruct (equal_words_ok fuel m a b k Hm Hs Hk) as [[-> E]|(j & Hj & ->)]; cbn [mbind option_bind].
  - f_equal. lia.
  - rewrite (strcmp_bytes_ok _ _ _ _ (k - j)); [|by apply stops_skip|lia].
    rewrite <- !Nat.add_assoc. by replace (j + (k - j)) with k by lia.
Qed.

Lemma strcat_ok fuel m a b n k :
  is_bytes m -> nul_at m a n -> nul_at m b k -> forward (a + n) b (S k) -> n < fuel -> S k <= fuel ->
  exists m1 m2, strcat fuel m a b = Some m1 /\ strcat_bytes fuel m a b = Some m2 /\
    same m1 (blit m (a + n) b (S k)) /\ same m2 (blit m (a + n) b (S k)).
Proof.
  intros Hm Hn Hk Hf ??. unfold strcat, strcat_bytes. rewrite (byte_scan_ok _ _ _ _ Hn) by done.
  assert (Es : exists j, j <= n /\ (if ALIGNED a then word_scan fuel m a else Some a) = Some (a + j)).
  { destruct (ALIGNED a).
    - destruct (word_scan_ok fuel m a n) as (j & ? & ? & ?); eauto.
    - exists 0. rewrite Nat.add_0_r. split; [lia|done]. }
  destruct Es as (j & Hj & ->). cbn [mbind option_bind].
  rewrite (byte_scan_ok _ _ _ (n - j)); [|by apply nul_at_skip|lia]. cbn [mbind option_bind].
  rewrite <- Nat.add_assoc. replace (j + (n - j)) with n by lia.
  destruct (strcpy_ok m (a + n) b (S k) Hm Hf fuel) as (m1 & m2 & ? & ? & ? & ?).
  - by rewrite Nat.sub_succ, Nat.sub_0_r.
  - lia.
  - exists m1, m2. auto.
Qed.

(** *** Filling *)

Lemma filled_step m m1 m2 s k j c :
  same m1 (filled m s k c) -> same m2 (filled m1 (s + k) j c) -> same m2 (filled m s (k + j) c).
Proof.
  intros H1 H2 x. rewrite (H2 x). unfold filled at 1. case_decide.
  - unfold filled. by rewrite decide_True by lia.
  - rewrite (H1 x). unfold filled. repeat case_decide; done || lia.
Qed.
Lemma filled_0 m s c : same m (filled m s 0 c).
Proof. intros x. unfold filled. by rewrite decide_False by lia. Qed.
Lemma upd_filled m s c : same (upd m s (u8 c)) (filled m s 1 c).
Proof. intros x. unfold upd, filled. repeat case_decide; done || lia. Qed.

Lemma fill_word_eq c : fill_word c = (u8 c * 0x01010101)%Z.
Proof.
  unfold fill_word. change 0xff%Z with (Z.ones 8). rewrite Z.land_ones by lia. fold (u8 c).
  pose proof (u8_range c). rewrite !Z.shiftl_mul_pow2 by lia.
  rewrite (Bits.lor_fields (u8 c) (u8 c) 8) by lia.
  rewrite (Bits.lor_fields_r (u8 c * 2 ^ 8 + u8 c) (u8 c * 2 ^ 8 + u8 c) 16) by lia. lia.
Qed.

Lemma set_word_filled m s c : same (set_word m s (fill_word c)) (filled m s 4 c).
Proof.
  intros x. rewrite set_word_bytes, fill_word_eq, !Z.shiftr_div_pow2 by lia. unfold filled.
  pose proof (u8_range c) as Hc. revert Hc. generalize (u8 c) as b. intros b Hb.
  assert (u8 (b * 0x01010101) = b /\ u8 (b * 0x01010101 / 2 ^ 8) = b /\
          u8 (b * 0x01010101 / 2 ^ 16) = b /\ u8 (b * 0x01010101 / 2 ^ 24) = b)%Z as (-> & -> & -> & ->).
  { unfold u8. cbn [Z.pow Z.pow_pos Pos.iter Z.mul] in *. split_and!; zdm. }
  repeat case_decide; done || lia.
Qed.

Section Fill.
Context (m : mem) (s : nat) (c : Z) (len : nat).

Lemma filled_word m1 k : same m1 (filled m s k c) ->
  same (set_word m1 (s + k) (fill_word c)) (filled m s (k + 4) c).
Proof. intros H1. apply (filled_step m m1); [done|]. apply set_word_filled. Qed.

Lemma fill_bytes_ok n k m1 :
  same m1 (filled m s k c) -> k + n = len -> same (fill_bytes n m1 (s + k) c) (filled m s len c).
Proof.
  revert k m1. induction n as [|n IH]; intros k m1 H1 Hk; cbn.
  - by replace len with k by lia.
  - rewrite <- Nat.add_succ_r. apply IH; [|lia]. rewrite <- (Nat.add_1_r k).
    apply (filled_step m m1); [done|]. apply upd_filled.
Qed.

Lemma fill_align_ok fuel k n m1 :
  same m1 (filled m s k c) -> k + n = len -> (4 - (s + k) mod 4) mod 4 < fuel ->
  (exists m2, fill_align fuel m1 (s + k) c n = Some (inl m2) /\ same m2 (filled m s len c)) \/
  exists m2 k' n', fill_align fuel m1 (s + k) c n = Some (inr (m2, s + k', n')) /\
    k' + n' = len /\ same m2 (filled m s k' c).
Proof.
  revert k n m1. induction fuel as [|fuel IH]; intros k n m1 H1 Hk Hfu; [lia|].
  cbn [fill_align]. unfold ALIGNED, LBLOCKSIZE.
  destruct (Nat.eqb_spec ((s + k) mod 4) 0) as [Ha|Ha]; [right; by exists m1, k, n|].
  destruct n as [|n]; [left; exists m1; by replace len with k by lia|].
  rewrite <- Nat.add_succ_r. apply IH; [|lia|].
  - rewrite <- (Nat.add_1_r k). apply (filled_step m m1); [done|]. apply upd_filled.
  - pose proof (Nat.mod_upper_bound (s + k) 4).
    replace (s + S k) with (s + k + 1) by lia. rewrite <- (Nat.Div0.add_mod_idemp_l (s + k) 1 4).
    destruct ((s + k) mod 4) as [|[|[|[|]]]]; cbn in *; lia.
Qed.

Lemma fill_little_ok fuel k n m1 :
  same m1 (filled m s k c) -> k + n = len -> n < fuel ->
  exists m2 k' n', fill_little fuel m1 (s + k) (fill_word c) n = Some (m2, s + k', n') /\
    k' + n' = len /\ same m2 (filled m s k' c).
Proof.
  revert k n m1. induction fuel as [|fuel IH]; intros k n m1 H1 Hk Hfu; [lia|].
  cbn [fill_little]. unfold LBLOCKSIZE.
  destruct (Nat.leb_spec 4 n); [|by exists m1, k, n].
  rewrite <- Nat.add_assoc. apply IH; [|lia|lia]. by apply filled_word.
Qed.

Lemma fill_big_ok fuel k n m1 :
  same m1 (filled m s k c) -> k + n = len -> n < fuel ->
  exists m2 k' n', fill_big fuel m1 (s + k) (fill_word c) n = Some (m2, s + k', n') /\
    k' + n' = len /\ same m2 (filled m s k' c).
Proof.
  revert k n m1. induction fuel as [|fuel IH]; intros k n m1 H1 Hk Hfu; [lia|].
  cbn [fill_big]. change (LBLOCKSIZE * 4) with 16. change (4 * LBLOCKSIZE) with 16.
  destruct (Nat.leb_spec 16 n); [|by exists m1, k, n].
  rewrite <- !Nat.add_assoc. apply IH; [|lia|lia].
  pose proof (filled_word _ k H1) as H2. pose proof (filled_word _ (k + 4) H2) as H3.
  pose proof (filled_word _ (k + 4 + 4) H3) as H4. pose proof (filled_word _ (k + 4 + 4 + 4) H4) as H5.
  rewrite <- !Nat.add_assoc in *. exact H5.
Qed.

Lemma memset_ok : exists m1, memset m s c len = Some m1 /\ same m1 (filled m s len c).
Proof.
  unfold memset.
  destruct (fill_align_ok LBLOCKSIZE 0 len m (filled_0 m s c)) as [(m1 & E & ?)|(m1 & k1 & n1 & E & Hk1 & H1)];
    [lia|unfold LBLOCKSIZE; by apply Nat.mod_upper_bound| |]; rewrite Nat.add_0_r in E; rewrite E;
    cbn [mbind option_bind]; [by exists m1|].
  destruct (LBLOCKSIZE <=? n1); cbn [mbind option_bind].
  - destruct (fill_big_ok (S n1) k1 n1 m1 H1) as (m2 & k2 & n2 & -> & Hk2 & H2); [lia|lia|].
    cbn [mbind option_bind].
    destruct (fill_little_ok (S n2) k2 n2 m2 H2) as (m3 & k3 & n3 & -> & Hk3 & H3); [lia|lia|].
    cbn [mbind option_bind]. eexists. split; [done|]. by apply fill_bytes_ok.
  - eexists. split; [done|]. by apply fill_bytes_ok.
Qed.
End Fill.

(** ** The theorems *)

(** C25. The word-at-a-time string routines compute what the byte-at-a-time loops
    of the same files compute, at any alignment of their arguments: [strlen] the
    length, [strcmp] the difference of the bytes where the strings part,
    [strcpy] and [strcat] memories that are equal everywhere (the copied string
    and its terminator at the target, every other byte as it was).  The copies
    are between areas where the target does not start inside the source. *)
Theorem string_words_match_bytes fuel m a b n k :
  is_bytes m -> nul_at m a n -> nul_at m b k -> n < fuel -> k < fuel ->
  (strlen fuel m a = Some n /\ strlen_bytes fuel m a = Some n) /\
  (forall d, stops m a b d -> d < fuel -> strcmp fuel m a b = strcmp_bytes fuel m a b /\
     strcmp fuel m a b = Some (m (a + d)%nat - m (b + d)%nat)%Z) /\
  (forall dst, forward dst a (S n) -> exists m1 m2,
     strcpy fuel m dst a = Some m1 /\ strcpy_bytes fuel m dst a = Some m2 /\
     same m1 m2 /\ same m1 (blit m dst a (S n))) /\
  (forward (a + n) b (S k) -> exists m1 m2,
     strcat fuel m a b = Some m1 /\ strcat_bytes fuel m a b = Some m2 /\
     same m1 m2 /\ same m1 (blit m (a + n) b (S k))).
Proof.
  intros Hm Ha Hb Hn Hk. split_and!.
  - by apply strlen_ok.
  - by apply strlen_ok.
  - intros d Hs Hd. by destruct (strcmp_ok fuel m a b d) as [-> ->].
  - intros dst Hf. destruct (strcpy_ok m dst a (S n) Hm Hf fuel) as (m1 & m2 & ? & ? & H1 & H2).
    + by rewrite Nat.sub_succ, Nat.sub_0_r.
    + lia.
    + exists m1, m2. split_and!; try done. by rewrite H1, H2.
  - intros Hf. destruct (strcat_ok fuel m a b n k) as (m1 & m2 & ? & ? & H1 & H2); try done.
    exists m1, m2. split_and!; try done. by rewrite H1, H2.
Qed.

(** C26. The block routines, unrolled and word-wise, leave exactly the memory
    their contract names and return at every length and alignment: [memcpy] of
    blocks that do not overlap destructively and [memmove] of any two blocks put
    the source's old bytes at the target, [memset] the byte [c], and no other
    byte of memory changes. *)
Theorem block_words_exact m a b c len :
  is_bytes m ->
  (forward a b len -> exists m1, memcpy m a b len = Some m1 /\ same m1 (blit m a b len)) /\
  (exists m1, memmove m a b len = Some m1 /\ same m1 (blit m a b len)) /\
  (exists m1, memset m a c len = Some m1 /\ same m1 (filled m a len c)).
Proof.
  intros Hm. split_and!; [intros; by apply memcpy_ok|by apply memmove_ok|apply memset_ok].
Qed.

(** A memory that holds two strings, aligned and not. *)
Definition two_strings : mem := fun x => nth x [104; 101; 108; 108; 111; 0; 104; 101; 108; 112; 0]%Z 0%Z.
Lemma two_strings_bytes : is_bytes two_strings.
Proof. intros x. unfold two_strings. do 12 (destruct x as [|x]; [cbn; lia|]). destruct x; cbn; lia. Qed.
Lemma two_strings_at : nul_at two_strings 0 5 /\ nul_at two_strings 6 4 /\ stops two_strings 0 6 3.
Proof.
  split_and!; split; try done; try (by right);
    intros i Hi; do 5 (destruct i as [|i]; [(exfalso; lia) || by vm_compute|]); lia.
Qed.

Lemma string_words_match_bytes_witness :
  strlen 9 two_strings 0 = Some 5 /\ strcmp 9 two_strings 0 6 = Some (108 - 112)%Z /\
  exists m1 m2, strcpy 9 two_strings 20 0 = Some m1 /\ strcpy_bytes 9 two_strings 20 0 = Some m2 /\ same m1 m2.
Proof.
  destruct (string_words_match_bytes 9 two_strings 0 6 5 4) as ([E _] & Hc & Hcp & _).
  - apply two_strings_bytes.
  - apply two_strings_at.
  - apply two_strings_at.
  - lia.
  - lia.
  - split; [exact E|]. split.
    + destruct (Hc 3) as [_ E2]; [apply two_strings_at|lia|]. exact E2.
    + destruct (Hcp 20) as (m1 & m2 & E1 & E2 & Hs & _); [right; lia|]. by exists m1, m2.
Defined.

Lemma block_words_exact_witness :
  exists m1, memmove two_strings 2 0 9 = Some m1 /\ same m1 (blit two_strings 2 0 9).
Proof. destruct (block_words_exact two_strings 2 0 7 9) as (_ & H & _); [apply two_strings_bytes|exact H]. Defined.

(** [strncpy] with the padding commented out writes a terminator after the
    [count] bytes it was given: the byte behind the target. *)
Example strncpy_one_too_many :
  exists m1, strncpy two_strings 20 0 4 = Some m1 /\
    (fun x => m1 x) <$> [20; 21; 22; 23] = [104; 101; 108; 108]%Z /\ m1 24 = 0%Z /\
    forall v, exists m2, strncpy (upd two_strings 24 v) 20 0 4 = Some m2 /\ m2 24 = 0%Z.
Proof.
  eexists. split; [vm_compute; reflexivity|]. split; [reflexivity|]. split; [reflexivity|].
  intros v. eexists. split; [vm_compute; reflexivity|]. reflexivity.
Qed.
