(* ===== verification/Crc.v ===== *)
(** The checksums: src/patches/source/crc32.c (CRC-32 by nibbles, the key of the
    banner cache and of the banner offset table; the same code is
    src/cubeboot/source/tinf_crc32.c) and src/cubeboot/source/crc32.c (CRC-32C by
    bytes, which identifies the IPL), with the bitwise definition they speed up. *)

From S2P Require Import Prelude.

Definition tinf_crc32tab : list Z :=
  [0x00000000; 0x1DB71064; 0x3B6E20C8; 0x26D930AC; 0x76DC4190;
   0x6B6B51F4; 0x4DB26158; 0x5005713C; 0xEDB88320; 0xF00F9344;
   0xD6D6A3E8; 0xCB61B38C; 0x9B64C2B0; 0x86D3D2D4; 0xA00AE278;
   0xBDBDF21C].

Definition tinf_nibble (crc : Z) : Z :=
  Z.lxor (nth (Z.to_nat (Z.land crc 0x0F)) tinf_crc32tab 0) (Z.shiftr crc 4).
Definition tinf_byte (crc b : Z) : Z := tinf_nibble (tinf_nibble (Z.lxor crc b)).
Definition tinf_crc32 (data : list Z) : Z :=
  match data with
  | [] => 0
  | _ => Z.lxor (fold_left tinf_byte data 0xFFFFFFFF) 0xFFFFFFFF
  end.

Definition crc_tab : list Z :=
  [0x00000000; 0xF26B8303; 0xE13B70F7; 0x1350F3F4; 0xC79A971F; 0x35F1141C; 0x26A1E7E8; 0xD4CA64EB;
   0x8AD958CF; 0x78B2DBCC; 0x6BE22838; 0x9989AB3B; 0x4D43CFD0; 0xBF284CD3; 0xAC78BF27; 0x5E133C24;
   0x105EC76F; 0xE235446C; 0xF165B798; 0x030E349B; 0xD7C45070; 0x25AFD373; 0x36FF2087; 0xC494A384;
   0x9A879FA0; 0x68EC1CA3; 0x7BBCEF57; 0x89D76C54; 0x5D1D08BF; 0xAF768BBC; 0xBC267848; 0x4E4DFB4B;
   0x20BD8EDE; 0xD2D60DDD; 0xC186FE29; 0x33ED7D2A; 0xE72719C1; 0x154C9AC2; 0x061C6936; 0xF477EA35;
   0xAA64D611; 0x580F5512; 0x4B5FA6E6; 0xB93425E5; 0x6DFE410E; 0x9F95C20D; 0x8CC531F9; 0x7EAEB2FA;
   0x30E349B1; 0xC288CAB2; 0xD1D83946; 0x23B3BA45; 0xF779DEAE; 0x05125DAD; 0x1642AE59; 0xE4292D5A;
   0xBA3A117E; 0x4851927D; 0x5B016189; 0xA96AE28A; 0x7DA08661; 0x8FCB0562; 0x9C9BF696; 0x6EF07595;
   0x417B1DBC; 0xB3109EBF; 0xA0406D4B; 0x522BEE48; 0x86E18AA3; 0x748A09A0; 0x67DAFA54; 0x95B17957;
   0xCBA24573; 0x39C9C670; 0x2A993584; 0xD8F2B687; 0x0C38D26C; 0xFE53516F; 0xED03A29B; 0x1F682198;
   0x5125DAD3; 0xA34E59D0; 0xB01EAA24; 0x42752927; 0x96BF4DCC; 0x64D4CECF; 0x77843D3B; 0x85EFBE38;
   0xDBFC821C; 0x2997011F; 0x3AC7F2EB; 0xC8AC71E8; 0x1C661503; 0xEE0D9600; 0xFD5D65F4; 0x0F36E6F7;
   0x61C69362; 0x93AD1061; 0x80FDE395; 0x72966096; 0xA65C047D; 0x5437877E; 0x4767748A; 0xB50CF789;
   0xEB1FCBAD; 0x197448AE; 0x0A24BB5A; 0xF84F3859; 0x2C855CB2; 0xDEEEDFB1; 0xCDBE2C45; 0x3FD5AF46;
   0x7198540D; 0x83F3D70E; 0x90A324FA; 0x62C8A7F9; 0xB602C312; 0x44694011; 0x5739B3E5; 0xA55230E6;
   0xFB410CC2; 0x092A8FC1; 0x1A7A7C35; 0xE811FF36; 0x3CDB9BDD; 0xCEB018DE; 0xDDE0EB2A; 0x2F8B6829;
   0x82F63B78; 0x709DB87B; 0x63CD4B8F; 0x91A6C88C; 0x456CAC67; 0xB7072F64; 0xA457DC90; 0x563C5F93;
   0x082F63B7; 0xFA44E0B4; 0xE9141340; 0x1B7F9043; 0xCFB5F4A8; 0x3DDE77AB; 0x2E8E845F; 0xDCE5075C;
   0x92A8FC17; 0x60C37F14; 0x73938CE0; 0x81F80FE3; 0x55326B08; 0xA759E80B; 0xB4091BFF; 0x466298FC;
   0x1871A4D8; 0xEA1A27DB; 0xF94AD42F; 0x0B21572C; 0xDFEB33C7; 0x2D80B0C4; 0x3ED04330; 0xCCBBC033;
   0xA24BB5A6; 0x502036A5; 0x4370C551; 0xB11B4652; 0x65D122B9; 0x97BAA1BA; 0x84EA524E; 0x7681D14D;
   0x2892ED69; 0xDAF96E6A; 0xC9A99D9E; 0x3BC21E9D; 0xEF087A76; 0x1D63F975; 0x0E330A81; 0xFC588982;
   0xB21572C9; 0x407EF1CA; 0x532E023E; 0xA145813D; 0x758FE5D6; 0x87E466D5; 0x94B49521; 0x66DF1622;
   0x38CC2A06; 0xCAA7A905; 0xD9F75AF1; 0x2B9CD9F2; 0xFF56BD19; 0x0D3D3E1A; 0x1E6DCDEE; 0xEC064EED;
   0xC38D26C4; 0x31E6A5C7; 0x22B65633; 0xD0DDD530; 0x0417B1DB; 0xF67C32D8; 0xE52CC12C; 0x1747422F;
   0x49547E0B; 0xBB3FFD08; 0xA86F0EFC; 0x5A048DFF; 0x8ECEE914; 0x7CA56A17; 0x6FF599E3; 0x9D9E1AE0;
   0xD3D3E1AB; 0x21B862A8; 0x32E8915C; 0xC083125F; 0x144976B4; 0xE622F5B7; 0xF5720643; 0x07198540;
   0x590AB964; 0xAB613A67; 0xB831C993; 0x4A5A4A90; 0x9E902E7B; 0x6CFBAD78; 0x7FAB5E8C; 0x8DC0DD8F;
   0xE330A81A; 0x115B2B19; 0x020BD8ED; 0xF0605BEE; 0x24AA3F05; 0xD6C1BC06; 0xC5914FF2; 0x37FACCF1;
   0x69E9F0D5; 0x9B8273D6; 0x88D28022; 0x7AB90321; 0xAE7367CA; 0x5C18E4C9; 0x4F48173D; 0xBD23943E;
   0xF36E6F75; 0x0105EC76; 0x12551F82; 0xE03E9C81; 0x34F4F86A; 0xC69F7B69; 0xD5CF889D; 0x27A40B9E;
   0x79B737BA; 0x8BDCB4B9; 0x988C474D; 0x6AE7C44E; 0xBE2DA0A5; 0x4C4623A6; 0x5F16D052; 0xAD7D5351].

Definition csp_byte (crc b : Z) : Z :=
  Z.lxor (nth (Z.to_nat (Z.land (Z.lxor crc b) 0xFF)) crc_tab 0) (Z.shiftr crc 8).
Definition csp_crc32_memory (data : list Z) : Z :=
  Z.lxor (fold_left csp_byte data 0xFFFFFFFF) 0xFFFFFFFF.

(** ** The definition

    Polynomial division modulo 2, low bit first: the register is divided by
    [poly] one message bit after the other, with the usual inversion before and
    after. *)
Definition crc_bit (poly crc : Z) : Z :=
  Z.lxor (Z.shiftr crc 1) (if Z.odd crc then poly else 0).
Definition crc_byte (poly crc b : Z) : Z := Nat.iter 8 (crc_bit poly) (Z.lxor crc b).
Definition crc_reference (poly : Z) (data : list Z) : Z :=
  Z.lxor (fold_left (crc_byte poly) data 0xFFFFFFFF) 0xFFFFFFFF.

Definition POLY_CRC32 : Z := 0xEDB88320.
Definition POLY_CRC32C : Z := 0x82F63B78.

(** ** Linearity *)

Section Linear.
Context (poly : Z).

Lemma crc_bit_lxor x y : crc_bit poly (Z.lxor x y) = Z.lxor (crc_bit poly x) (crc_bit poly y).
Proof.
  unfold crc_bit. rewrite Z.shiftr_lxor. rewrite <- !Z.bit0_odd, Z.lxor_spec.
  apply Z.bits_inj'. intros i Hi. rewrite !Z.lxor_spec.
  destruct (Z.testbit x 0), (Z.testbit y 0); cbn [xorb]; rewrite ?Z.bits_0;
    destruct (Z.testbit (Z.shiftr x 1) i) eqn:?, (Z.testbit (Z.shiftr y 1) i) eqn:?, (Z.testbit poly i); done.
Qed.

Lemma crc_bits_lxor n x y :
  Nat.iter n (crc_bit poly) (Z.lxor x y) = Z.lxor (Nat.iter n (crc_bit poly) x) (Nat.iter n (crc_bit poly) y).
Proof. induction n as [|n IH]; [done|]. by rewrite !Nat.iter_succ, IH, crc_bit_lxor. Qed.

(** Bits above the lowest only move down. *)
Lemma crc_bits_high n x : Nat.iter n (crc_bit poly) (Z.shiftl x (Z.of_nat n)) = x.
Proof.
  revert x. induction n as [|n IH]; intros x; [apply Z.shiftl_0_r|].
  rewrite Nat.iter_succ_r. replace (crc_bit poly (Z.shiftl x (Z.of_nat (S n)))) with (Z.shiftl x (Z.of_nat n)); [done|].
  unfold crc_bit. rewrite <- Z.bit0_odd, Z.shiftl_spec_low by lia. rewrite Z.lxor_0_r.
  rewrite Z.shiftr_shiftl_l by lia. f_equal. lia.
Qed.

Lemma split_low x n : 0 <= n -> x = Z.lxor (Z.shiftl (Z.shiftr x n) n) (Z.land x (Z.ones n)).
Proof.
  intros Hn. apply Z.bits_inj'. intros i Hi. rewrite Z.lxor_spec, Z.land_spec.
  rewrite Z.shiftl_spec by done. destruct (Z.lt_ge_cases i n).
  - rewrite (Z.testbit_neg_r _ (i - n)), Z.ones_spec_low by lia. by rewrite andb_true_r, xorb_false_l.
  - rewrite Z.shiftr_spec, Z.ones_spec_high by lia. rewrite andb_false_r, xorb_false_r. f_equal. lia.
Qed.

(** [n] bits at once by a table of the remainders of the low [n] bits. *)
Lemma crc_bits_table n x :
  Nat.iter n (crc_bit poly) x =
  Z.lxor (Nat.iter n (crc_bit poly) (Z.land x (Z.ones (Z.of_nat n)))) (Z.shiftr x (Z.of_nat n)).
Proof.
  rewrite (split_low x (Z.of_nat n)) at 1 by lia.
  by rewrite crc_bits_lxor, crc_bits_high, Z.lxor_comm.
Qed.

(** A table is right when it holds the remainders. *)
Lemma table_lookup n tab x :
  forallb (fun i => nth i tab 0 =? Nat.iter n (crc_bit poly) (Z.of_nat i)) (seq 0 (2 ^ n)) = true ->
  nth (Z.to_nat (Z.land x (Z.ones (Z.of_nat n)))) tab 0 =
  Nat.iter n (crc_bit poly) (Z.land x (Z.ones (Z.of_nat n))).
Proof.
  intros Ht. rewrite forallb_forall in Ht.
  pose proof (Z.mod_pos_bound x (2 ^ Z.of_nat n) ltac:(apply Z.pow_pos_nonneg; lia)) as Hb.
  rewrite Z.land_ones by lia.
  specialize (Ht (Z.to_nat (x mod 2 ^ Z.of_nat n))). rewrite Z.eqb_eq in Ht. rewrite Ht.
  - rewrite Z2Nat.id by lia. done.
  - apply in_seq. split; [lia|]. cbn. apply Nat2Z.inj_lt. rewrite Z2Nat.id, Nat2Z.inj_pow by lia. lia.
Qed.
End Linear.

Lemma tinf_nibble_spec x : tinf_nibble x = Nat.iter 4 (crc_bit POLY_CRC32) x.
Proof.
  unfold tinf_nibble. rewrite crc_bits_table. f_equal.
  apply (table_lookup POLY_CRC32 4). vm_compute. reflexivity.
Qed.

Lemma tinf_byte_spec x b : tinf_byte x b = crc_byte POLY_CRC32 x b.
Proof. unfold tinf_byte, crc_byte. rewrite !tinf_nibble_spec. by rewrite <- Nat.iter_add. Qed.

Lemma csp_byte_spec x b : 0 <= b < 256 -> csp_byte x b = crc_byte POLY_CRC32C x b.
Proof.
  intros Hb. unfold csp_byte, crc_byte. rewrite crc_bits_table. f_equal.
  - apply (table_lookup POLY_CRC32C 8). vm_compute. reflexivity.
  - rewrite Z.shiftr_lxor. change (Z.of_nat 8) with 8. rewrite (Z.shiftr_div_pow2 b) by lia.
    rewrite Z.div_small by lia. symmetry. apply Z.lxor_0_r.
Qed.

(** C28. The table-driven checksums are the CRCs they are meant to be: on every
    sequence of bytes the nibble-wise routine computes CRC-32 and the byte-wise
    one CRC-32C, as defined bit by bit by polynomial division; both tables are
    right in every entry. *)
Theorem crc_tables_are_crcs data :
  Forall (fun b => 0 <= b < 256) data ->
  tinf_crc32 data = crc_reference POLY_CRC32 data /\
  csp_crc32_memory data = crc_reference POLY_CRC32C data.
Proof.
  intros Hd. unfold csp_crc32_memory, crc_reference.
  assert (Hf : forall (f g : Z -> Z -> Z) crc, (forall x b, 0 <= b < 256 -> f x b = g x b) ->
    fold_left f data crc = fold_left g data crc).
  { intros f g crc Hfg. revert crc. induction Hd as [|b data Hb Hd IH]; intros crc; cbn; [done|].
    by rewrite Hfg, IH. }
  split; [|by rewrite (Hf csp_byte (crc_byte POLY_CRC32C)) by apply csp_byte_spec].
  rewrite <- (Hf tinf_byte) by (intros; apply tinf_byte_spec). by destruct data.
Qed.

Lemma crc_tables_are_crcs_witness :
  tinf_crc32 [0x31; 0x32; 0x33; 0x34; 0x35; 0x36; 0x37; 0x38; 0x39] = 0xCBF43926 /\
  csp_crc32_memory [0x31; 0x32; 0x33; 0x34; 0x35; 0x36; 0x37; 0x38; 0x39] = 0xE3069283.
Proof.
  destruct (crc_tables_are_crcs [0x31; 0x32; 0x33; 0x34; 0x35; 0x36; 0x37; 0x38; 0x39]) as [-> ->].
  - repeat constructor; lia.
  - vm_compute. split; reflexivity.
Defined.
