(* ===== verification/Qsort.v ===== *)
(** The sort of the game list (src/patches/source/picolibc/qsort.c): Bentley and
    McIlroy's quicksort.  The array is the list of its elements, a pointer into
    it the index of the element, and sizes are counted in elements: the code's
    byte offsets are all multiples of the element size. *)

From S2P Require Import Prelude.
#[local] Open Scope prog_scope.
#[local] Open Scope nat_scope.

Section Qsort.
Context {A : Type} (cmp : A -> A -> Z).
Notation P := (M (list A)).

Definition load (i : nat) : P A := fun m => x ← m !! i; Some (x, m).
Definition CMP (i j : nat) : P Z := x <- load i ;; y <- load j ;; ret (cmp x y).
Definition swap (i j : nat) : P unit :=
  x <- load i ;; y <- load j ;; modify (fun m => <[j := x]> (<[i := y]> m)).

(** [n] swaps at rising addresses. *)
Fixpoint vecswap (a b n : nat) : P unit :=
  match n with
  | O => ret tt
  | S n => swap a b ;; vecswap (S a) (S b) n
  end.

Definition med3 (a b c : nat) : P nat :=
  ab <- CMP a b ;;
  bc <- CMP b c ;;
  if (ab <? 0)%Z then
    if (bc <? 0)%Z then ret b
    else ac <- CMP a c ;; ret (if (ac <? 0)%Z then c else a)
  else
    if (bc >? 0)%Z then ret b
    else ac <- CMP a c ;; ret (if (ac <? 0)%Z then a else c).

(** *** Insertion sort

    [pl] is [a + k], and [pm] is [a + k] with [rest] elements from there on. *)
Fixpoint sink (a k : nat) : P unit :=
  match k with
  | O => ret tt
  | S k' =>
      c <- CMP (a + k') (a + k) ;;
      if (c >? 0)%Z then swap (a + k) (a + k') ;; sink a k' else ret tt
  end.
Fixpoint insertion_rounds (a k rest : nat) : P unit :=
  match rest with
  | O => ret tt
  | S rest => sink a k ;; insertion_rounds a (S k) rest
  end.
Definition insertion_sort (a n : nat) : P unit := insertion_rounds a 1 (n - 1).

(** *** Partitioning *)

(** The scans, with fuel: [(pa, pb, swap_cnt)] and [(pc, pd, swap_cnt)]. *)
Fixpoint scan_up (fuel a pa pb pc : nat) (swap_cnt : bool) : P (nat * nat * bool) :=
  match fuel with
  | O => spin
  | S fuel =>
      if (pb <=? pc)%nat then
        r <- CMP pb a ;;
        if (r <=? 0)%Z then
          if (r =? 0)%Z then swap pa pb ;; scan_up fuel a (S pa) (S pb) pc true
          else scan_up fuel a pa (S pb) pc swap_cnt
        else ret (pa, pb, swap_cnt)
      else ret (pa, pb, swap_cnt)
  end.
Fixpoint scan_down (fuel a pb pc pd : nat) (swap_cnt : bool) : P (nat * nat * bool) :=
  match fuel with
  | O => spin
  | S fuel =>
      if (pb <=? pc)%nat then
        r <- CMP pc a ;;
        if (r >=? 0)%Z then
          if (r =? 0)%Z then swap pc pd ;; scan_down fuel a pb (pc - 1) (pd - 1) true
          else scan_down fuel a pb (pc - 1) pd swap_cnt
        else ret (pc, pd, swap_cnt)
      else ret (pc, pd, swap_cnt)
  end.

(** The [for (;;)] loop: [(pa, pb, pc, pd, swap_cnt)]. *)
Fixpoint partition (fuel a pa pb pc pd : nat) (swap_cnt : bool) : P (nat * nat * nat * nat * bool) :=
  match fuel with
  | O => spin
  | S fuel =>
      u <- scan_up (S (S pc - pb)) a pa pb pc swap_cnt ;;
      let '(pa, pb, swap_cnt) := (u : nat * nat * bool) in
      v <- scan_down (S (S pc - pb)) a pb pc pd swap_cnt ;;
      let '(pc, pd, swap_cnt) := (v : nat * nat * bool) in
      if (pc <? pb)%nat then ret (pa, pb, pc, pd, swap_cnt)
      else swap pb pc ;; partition fuel a pa (S pb) (pc - 1) pd true
  end.

(** The pivot's index. *)
Definition pivot (a n : nat) : P nat :=
  let pm := a + n / 2 in
  if (7 <? n)%nat then
    let pl := a in
    let pn := a + (n - 1) in
    t <- (if (40 <? n)%nat then
            let d := n / 8 in
            pl <- med3 pl (pl + d) (pl + 2 * d) ;;
            pm <- med3 (pm - d) pm (pm + d) ;;
            pn <- med3 (pn - 2 * d) (pn - d) pn ;;
            ret (pl, pm, pn)
          else ret (pl, pm, pn)) ;;
    let '(pl, pm, pn) := (t : nat * nat * nat) in
    med3 pl pm pn
  else ret pm.

(** One round of [loop:] up to [pop:]: [None] when the part is sorted, otherwise
    base and size of the larger part and of the smaller part. *)
Definition round (a n : nat) : P (option (nat * nat * (nat * nat))) :=
  if (n <? 7)%nat then insertion_sort a n ;; ret None
  else
    pm <- pivot a n ;;
    swap a pm ;;
    t <- partition n a (S a) (S a) (a + (n - 1)) (a + (n - 1)) false ;;
    let '(pa, pb, pc, pd, swap_cnt) := (t : nat * nat * nat * nat * bool) in
    if negb swap_cnt then insertion_sort a n ;; ret None
    else
      let pn := a + n in
      let r := if (pa - a <? pb - pa)%nat then pa - a else pb - pa in
      vecswap a (pb - r) r ;;
      let r := if (pd - pc <? pn - pd - 1)%nat then pd - pc else pn - pd - 1 in
      vecswap pb (pn - r) r ;;
      let d := pb - pa in
      let r := pd - pc in
      let pn := pn - r in
      ret (Some (if (d <? r)%nat then ((pn, r), (a, d)) else ((a, d), (pn, r)))).

Definition PARAMETER_STACK_LEVELS : nat := 8.

(** The loop with its parameter stack, fuel for its rounds; [calls] bounds how
    deep [qsort] may call itself. *)
Fixpoint qsort_loop (fuel calls a n : nat) (parameter_stack : list (nat * nat)) : P unit :=
  match fuel with
  | O => spin
  | S fuel =>
      let pop :=
        match parameter_stack with
        | [] => ret tt
        | (a, n) :: parameter_stack => qsort_loop fuel calls a n parameter_stack
        end in
      o <- round a n ;;
      match o with
      | None => pop
      | Some ((a, n), (pa, r)) =>
          if (1 <? r)%nat then
            if (length parameter_stack <? PARAMETER_STACK_LEVELS)%nat then
              qsort_loop fuel calls pa r ((a, n) :: parameter_stack)
            else
              match calls with
              | O => spin
              | S calls => qsort_loop fuel calls pa r []
              end ;;
              if (1 <? n)%nat then qsort_loop fuel calls a n parameter_stack else pop
          else if (1 <? n)%nat then qsort_loop fuel calls a n parameter_stack
          else pop
      end
  end.

Definition qsort (calls a n : nat) : P unit := qsort_loop (2 * n + 1) calls a n [].
End Qsort.

Example qsort_small :
  qsort Z.sub 1 1 6 [9; 5; 3; 4; 1; 2; 3; 0]%Z = Some (tt, [9; 1; 2; 3; 3; 4; 5; 0]%Z).
Proof. vm_compute. reflexivity. Qed.
Example qsort_larger :
  snd <$> qsort Z.sub 1 0 50 ((fun i => (Z.of_nat i * 37) `mod` 51)%Z <$> seq 1 50)
  = Some (Z.of_nat <$> seq 1 50).
Proof. vm_compute. reflexivity. Qed.
