(* ===== verification/QsortThms.v ===== *)
(** [qsort] sorts: for a comparison that is a total preorder it returns, what it
    leaves is an ordered rearrangement of what it was given, nothing outside the
    array changes, and it calls itself at most as deep as a ninth of the number
    of bits of the size. *)

From Stdlib Require Import Sorted.
From S2P Require Import Prelude Qsort.
#[local] Open Scope prog_scope.
#[local] Open Scope nat_scope.

(** A comparison function in the sense of the C standard. *)
Class Comparison {A} (cmp : A -> A -> Z) := {
  cmp_sym x y : (0 < cmp x y <-> cmp y x < 0)%Z;
  cmp_trans x y z : (cmp x y <= 0 -> cmp y z <= 0 -> cmp x z <= 0)%Z
}.

Section Thms.
Context {A : Type} (cmp : A -> A -> Z) `{!Comparison cmp}.
Implicit Types m : list A.
Notation le x y := (cmp x y <= 0)%Z.

Lemma cmp_le x y : (0 <= cmp x y)%Z -> le y x.
Proof. intros. destruct (cmp_sym y x). lia. Qed.
Lemma cmp_ge x y : le x y -> (0 <= cmp y x)%Z.
Proof. intros. destruct (cmp_sym x y). lia. Qed.
Lemma cmp_refl x : le x x.
Proof. destruct (cmp_sym x x). lia. Qed.

(** *** Rearranging a range *)

Definition touch (lo hi : nat) m m' : Prop :=
  m' ≡ₚ m /\ forall i, i < lo \/ hi <= i -> m' !! i = m !! i.
Definition all_in (Q : A -> Prop) (lo hi : nat) m : Prop :=
  forall i x, lo <= i < hi -> m !! i = Some x -> Q x.

Lemma touch_refl lo hi m : touch lo hi m m.
Proof. split; auto. Qed.
Lemma touch_trans lo hi m1 m2 m3 : touch lo hi m1 m2 -> touch lo hi m2 m3 -> touch lo hi m1 m3.
Proof. intros [P1 E1] [P2 E2]. split; [by rewrite P2|]. intros. rewrite E2; auto. Qed.
Lemma touch_mono lo hi lo' hi' m m' :
  touch lo hi m m' -> lo' <= lo -> hi <= hi' -> touch lo' hi' m m'.
Proof. intros [P1 E1] ??. split; [done|]. intros. apply E1. lia. Qed.
Lemma touch_length lo hi m m' : touch lo hi m m' -> length m' = length m.
Proof. intros [P1 _]. by apply Permutation_length. Qed.

Lemma touch_slice lo n m m' :
  touch lo (lo + n) m m' -> slice lo n m' ≡ₚ slice lo n m.
Proof.
  intros [P1 E1].
  assert (El : take lo m' = take lo m).
  { apply list_eq. intros i. destruct (decide (i < lo)).
    - rewrite !lookup_take_lt by done. apply E1. lia.
    - by rewrite !lookup_take_ge by lia. }
  assert (Er : drop (lo + n) m' = drop (lo + n) m).
  { apply list_eq. intros i. rewrite !lookup_drop. apply E1. lia. }
  assert (Es : forall l : list A, l = take lo l ++ slice lo n l ++ drop (lo + n) l).
  { intros l. unfold slice. by rewrite <- drop_drop, !take_drop. }
  rewrite (Es m), (Es m'), El, Er in P1.
  by apply Permutation_app_inv_l, Permutation_app_inv_r in P1.
Qed.

Lemma all_in_slice Q lo n m : all_in Q lo (lo + n) m <-> Forall Q (slice lo n m).
Proof.
  rewrite Forall_lookup. split.
  - intros Ha i x Hx. destruct (decide (i < n)).
    + rewrite lookup_slice in Hx by done. eapply Ha; [|done]. lia.
    + unfold slice in Hx. by rewrite lookup_take_ge in Hx by lia.
  - intros Hf i x Hi Hx. apply (Hf (i - lo)). rewrite lookup_slice by lia.
    by replace (lo + (i - lo)) with i by lia.
Qed.

(** A rearrangement keeps what holds of every element. *)
Lemma all_in_touch Q lo hi m m' : touch lo hi m m' -> all_in Q lo hi m -> all_in Q lo hi m'.
Proof.
  intros Ht. destruct (decide (lo <= hi)).
  - replace hi with (lo + (hi - lo)) in * by lia. rewrite !all_in_slice.
    intros. by rewrite touch_slice.
  - intros _ i x Hi. lia.
Qed.
Lemma all_in_out Q lo hi lo' hi' m m' :
  touch lo' hi' m m' -> (hi <= lo' \/ hi' <= lo) -> all_in Q lo hi m -> all_in Q lo hi m'.
Proof. intros [_ E1] Hd Ha i x Hi. rewrite E1 by lia. by apply Ha. Qed.
Lemma all_in_empty Q lo hi m : hi <= lo -> all_in Q lo hi m.
Proof. intros ? i x ?. lia. Qed.
Lemma all_in_mono (Q Q' : A -> Prop) lo hi lo' hi' m :
  all_in Q lo hi m -> (forall x, Q x -> Q' x) -> lo <= lo' -> hi' <= hi -> all_in Q' lo' hi' m.
Proof. intros Ha HQ ?? i x Hi Hx. eapply HQ, Ha; [|done]. lia. Qed.
Lemma all_in_snoc Q lo hi m x :
  all_in Q lo hi m -> m !! hi = Some x -> Q x -> all_in Q lo (S hi) m.
Proof.
  intros Ha Hx HQ i y Hi Hy. destruct (decide (i = hi)) as [->|]; [naive_solver|].
  eapply Ha; [|done]. lia.
Qed.
Lemma all_in_cons Q lo hi m x :
  all_in Q (S lo) hi m -> m !! lo = Some x -> Q x -> all_in Q lo hi m.
Proof.
  intros Ha Hx HQ i y Hi Hy. destruct (decide (i = lo)) as [->|]; [naive_solver|].
  eapply Ha; [|done]. lia.
Qed.

(** *** Ordered ranges *)

(** Ordered, the pairs whose upper index is not [Pr] apart. *)
Definition ordered_at (Pr : nat -> Prop) (lo hi : nat) m : Prop :=
  forall i j x y, lo <= i -> i < j -> j < hi -> Pr j -> m !! i = Some x -> m !! j = Some y -> le x y.
Definition ordered := ordered_at (fun _ => True).

Lemma ordered_short lo hi m : hi <= S lo -> ordered lo hi m.
Proof. intros ? i j x y. lia. Qed.
Lemma ordered_out lo hi lo' hi' m m' :
  touch lo' hi' m m' -> (hi <= lo' \/ hi' <= lo) -> ordered lo hi m -> ordered lo hi m'.
Proof.
  intros [_ E1] Hd Ho i j x y ????. rewrite !E1 by lia. by apply (Ho i j).
Qed.

Lemma ordered_cat lo mid hi m p :
  ordered lo mid m -> ordered mid hi m ->
  all_in (fun x => le x p) lo mid m -> all_in (fun x => le p x) mid hi m -> ordered lo hi m.
Proof.
  intros O1 O2 H1 H2 i j x y ??? _ Hx Hy.
  destruct (decide (j < mid)); [by apply (O1 i j)|].
  destruct (decide (mid <= i)); [by apply (O2 i j)|].
  apply (cmp_trans _ p); [eapply H1|eapply H2]; try done; lia.
Qed.

Lemma ordered_same lo hi m p : all_in (fun x => cmp x p = 0%Z) lo hi m -> ordered lo hi m.
Proof.
  intros Ha i j x y ??? _ Hx Hy.
  apply (cmp_trans _ p); [rewrite (Ha i x); [lia|lia|done]|].
  apply cmp_le. rewrite (Ha j y); [lia|lia|done].
Qed.

(** *** The primitives *)

Lemma load_ok i m x Q : m !! i = Some x -> Q x m -> wp (load i) Q m.
Proof. intros E ?. unfold wp, load. by rewrite E. Qed.

Lemma load_ok' i m (Q : A -> list A -> Prop) :
  i < length m -> (forall x, m !! i = Some x -> Q x m) -> wp (load i) Q m.
Proof. intros [x Hx]%lookup_lt_is_Some_2 HQ. eapply load_ok; eauto. Qed.

Lemma CMP_ok i j m (Q : Z -> list A -> Prop) :
  i < length m -> j < length m ->
  (forall x y, m !! i = Some x -> m !! j = Some y -> Q (cmp x y) m) -> wp (CMP cmp i j) Q m.
Proof.
  intros ?? HQ. apply wp_bind, load_ok'; [done|]. intros x Hx.
  apply wp_bind, load_ok'; [done|]. intros y Hy. apply wp_ret. auto.
Qed.

Lemma swap_ok i j lo hi m (Q : unit -> list A -> Prop) :
  lo <= i < hi -> lo <= j < hi -> hi <= length m ->
  (forall m', touch lo hi m m' -> m' !! i = m !! j -> m' !! j = m !! i ->
     (forall k, k <> i -> k <> j -> m' !! k = m !! k) -> Q tt m') ->
  wp (swap i j) Q m.
Proof.
  intros Hi Hj Hh HQ. apply wp_bind, load_ok'; [lia|]. intros x Hx.
  apply wp_bind, load_ok'; [lia|]. intros y Hy. apply wp_modify.
  assert (Eo : forall k, k <> i -> k <> j -> <[j:=x]> (<[i:=y]> m) !! k = m !! k).
  { intros. by rewrite !list_lookup_insert_ne by done. }
  assert (Ej : <[j:=x]> (<[i:=y]> m) !! j = Some x)
    by (apply list_lookup_insert_eq; rewrite length_insert; lia).
  assert (Ei : <[j:=x]> (<[i:=y]> m) !! i = Some y).
  { destruct (decide (i = j)) as [->|]; [naive_solver|].
    rewrite list_lookup_insert_ne by done. apply list_lookup_insert_eq. lia. }
  apply HQ; [|congruence|congruence|done]. split; [|intros; apply Eo; lia].
  by apply Permutation_insert_swap.
Qed.

Lemma med3_ok a b c lo hi m (Q : nat -> list A -> Prop) :
  lo <= a < hi -> lo <= b < hi -> lo <= c < hi -> hi <= length m ->
  (forall k, lo <= k < hi -> Q k m) -> wp (med3 cmp a b c) Q m.
Proof.
  intros ???? HQ. unfold med3.
  apply wp_bind, CMP_ok; [lia|lia|]. intros ab' ? _ _.
  apply wp_bind, CMP_ok; [lia|lia|]. intros bc' ? _ _.
  repeat case_match; try apply wp_ret; auto;
    (apply wp_bind, CMP_ok; [lia|lia|]; intros ? ? _ _; apply wp_ret; case_match; auto).
Qed.

(** *** Insertion sort *)

Lemma sink_ok a K k m (Q : unit -> list A -> Prop) :
  k <= K -> a + K < length m ->
  ordered_at (fun j => j <> a + k) a (S (a + K)) m ->
  (forall m', touch a (S (a + K)) m m' -> ordered a (S (a + K)) m' -> Q tt m') ->
  wp (sink cmp a k) Q m.
Proof.
  revert m. induction k as [|k IH]; intros m HK Hl Ho HQ; cbn [sink].
  - apply wp_ret, HQ; [apply touch_refl|]. intros i j x y ??? _. apply (Ho i j); lia.
  - apply wp_bind, CMP_ok; [lia|lia|]. intros x y Hx Hy.
    destruct (Z.gtb_spec (cmp x y) 0) as [Hgt|Hle].
    + apply wp_bind, (swap_ok _ _ a (S (a + K))); [lia|lia|lia|].
      intros m1 Ht Ei Ej Eo.
      apply IH; [lia|rewrite (touch_length _ _ _ _ Ht); lia| |].
      * intros i j u v Hi Hij Hj Hne.
        destruct (decide (j = a + S k)) as [->|].
        -- rewrite Ei. destruct (decide (i = a + k)) as [->|].
           ++ rewrite Ej, Hx, Hy. intros [= <-] [= <-]. destruct (cmp_sym x y). lia.
           ++ rewrite Eo by lia. apply (Ho i (a + k)); lia.
        -- rewrite (Eo j) by lia. destruct (decide (i = a + S k)) as [->|].
           ++ rewrite Ei. apply (Ho (a + k) j); lia.
           ++ destruct (decide (i = a + k)) as [->|].
              ** rewrite Ej. apply (Ho (a + S k) j); lia.
              ** rewrite Eo by lia. apply (Ho i j); lia.
      * intros m' Ht' Ho'. apply HQ; [|done]. by eapply touch_trans.
    + apply wp_ret, HQ; [apply touch_refl|]. intros i j u v Hi Hij Hj _ Hu Hv.
      destruct (decide (j = a + S k)) as [->|]; [|by apply (Ho i j); try lia].
      assert (v = y) as -> by congruence.
      destruct (decide (i = a + k)) as [->|]; [naive_solver|].
      apply (cmp_trans _ x); [|done]. apply (Ho i (a + k)); try done; lia.
Qed.

Lemma insertion_rounds_ok a n k rest m (Q : unit -> list A -> Prop) :
  k + rest = n -> a + n <= length m -> ordered a (a + k) m ->
  (forall m', touch a (a + n) m m' -> ordered a (a + n) m' -> Q tt m') ->
  wp (insertion_rounds cmp a k rest) Q m.
Proof.
  revert k m. induction rest as [|rest IH]; intros k m Hk Hl Ho HQ; cbn [insertion_rounds].
  - apply wp_ret, HQ; [apply touch_refl|]. by replace n with k by lia.
  - apply wp_bind, (sink_ok a k); [lia|lia| |].
    { intros i j x y ????. apply (Ho i j); lia || done. }
    intros m1 Ht1 Ho1. apply (IH (S k)).
    + lia.
    + rewrite (touch_length _ _ _ _ Ht1). lia.
    + by rewrite Nat.add_succ_r.
    + intros m' Ht' Ho'. apply HQ; [|done]. eapply touch_trans; [|done].
      eapply touch_mono; [done|lia|lia].
Qed.

Lemma insertion_sort_ok a n m (Q : unit -> list A -> Prop) :
  a + n <= length m ->
  (forall m', touch a (a + n) m m' -> ordered a (a + n) m' -> Q tt m') ->
  wp (insertion_sort cmp a n) Q m.
Proof.
  intros Hl HQ. unfold insertion_sort. destruct n as [|n].
  - apply wp_ret, HQ; [apply touch_refl|]. apply ordered_short. lia.
  - apply (insertion_rounds_ok a (S n)); [lia|lia| |done]. apply ordered_short. lia.
Qed.
(** *** Moving a block

    [E] then [L] becomes [L] then [E]. *)

Lemma vecswap_ok a b n lo hi m (Q : unit -> list A -> Prop) :
  lo <= a -> a + n <= b -> b + n <= hi -> hi <= length m ->
  (forall m', touch lo hi m m' ->
     (forall k, k < n -> m' !! (a + k) = m !! (b + k) /\ m' !! (b + k) = m !! (a + k)) ->
     (forall i, ~ a <= i < a + n -> ~ b <= i < b + n -> m' !! i = m !! i) -> Q tt m') ->
  wp (vecswap a b n) Q m.
Proof.
  revert a b m. induction n as [|n IH]; intros a b m ???? HQ; cbn [vecswap].
  - apply wp_ret, HQ; [apply touch_refl|lia|done].
  - apply wp_bind, (swap_ok _ _ lo hi); [lia|lia|lia|]. intros m1 Ht Ea Eb Eo.
    apply IH; [lia|lia|lia|rewrite (touch_length _ _ _ _ Ht); lia|].
    intros m2 Ht2 Es2 Eo2. apply HQ; [by eapply touch_trans| |].
    + intros [|k] Hk.
      * rewrite !Nat.add_0_r, !Eo2 by lia. done.
      * destruct (Es2 k) as [E1 E2]; [lia|].
        rewrite <- !Nat.add_succ_comm, E1, E2, !Eo by lia. done.
    + intros i ??. rewrite Eo2, Eo by lia. done.
Qed.

Lemma rotate_ok (E L : A -> Prop) lo mid hi r m (Q : unit -> list A -> Prop) :
  lo <= mid -> mid <= hi -> hi <= length m -> r = Nat.min (mid - lo) (hi - mid) ->
  all_in E lo mid m -> all_in L mid hi m ->
  (forall m', touch lo hi m m' -> all_in L lo (lo + (hi - mid)) m' ->
     all_in E (lo + (hi - mid)) hi m' -> Q tt m') ->
  wp (vecswap lo (hi - r) r) Q m.
Proof.
  intros ??? Hr HE HL HQ. apply (vecswap_ok _ _ _ lo hi); [lia|lia|lia|lia|].
  intros m' Ht Hs Ho. apply HQ; [done| |].
  - intros i x Hi Hx. destruct (decide (i < lo + r)).
    + destruct (Hs (i - lo)) as [E1 _]; [lia|].
      replace (lo + (i - lo)) with i in E1 by lia. rewrite E1 in Hx.
      eapply HL; [|exact Hx]. lia.
    + rewrite Ho in Hx by lia. eapply HL; [|exact Hx]. lia.
  - intros i x Hi Hx. destruct (decide (hi - r <= i)).
    + destruct (Hs (i - (hi - r))) as [_ E1]; [lia|].
      replace (hi - r + (i - (hi - r))) with i in E1 by lia. rewrite E1 in Hx.
      eapply HE; [|exact Hx]. lia.
    + rewrite Ho in Hx by lia. eapply HE; [|exact Hx]. lia.
Qed.

(** *** Partitioning *)

Section Partition.
Context (a n : nat) (p : A).
Definition Eq x := cmp x p = 0%Z.
Definition Lt x := (cmp x p < 0)%Z.
Definition Gt x := (0 < cmp x p)%Z.

Record parted (pa pb pc pd : nat) m : Prop := {
  pt_pivot : m !! a = Some p;
  pt_bounds : S a <= pa /\ pa <= pb /\ pb <= S pc /\ pc <= pd /\ S pd <= a + n /\ a + n <= length m;
  pt_left : all_in Eq a pa m;
  pt_low : all_in Lt pa pb m;
  pt_high : all_in Gt (S pc) (S pd) m;
  pt_right : all_in Eq (S pd) (a + n) m
}.
Notation moved := (touch (S a) (a + n)).

(** The element at [pb] is known when the first scan stops. *)
Definition stopped pb pc m := pb <= pc -> exists x, m !! pb = Some x /\ Gt x.

Lemma scan_up_ok fuel pa pb pc pd cnt m (Q : nat * nat * bool -> list A -> Prop) :
  S pc - pb < fuel -> parted pa pb pc pd m ->
  (forall pa' pb' cnt' m', moved m m' -> parted pa' pb' pc pd m' -> pb <= pb' ->
     stopped pb' pc m' -> Q (pa', pb', cnt') m') ->
  wp (scan_up cmp fuel a pa pb pc cnt) Q m.
Proof.
  revert pa pb cnt m. induction fuel as [|fuel IH]; intros pa pb cnt m Hf Hp HQ; [lia|].
  destruct (pt_bounds _ _ _ _ _ Hp) as (?&?&?&?&?&?). cbn [scan_up].
  destruct (Nat.leb_spec pb pc).
  2: { apply wp_ret, HQ; [apply touch_refl|done|done|]. unfold stopped. lia. }
  apply wp_bind, CMP_ok; [lia|lia|]. intros x y Hx Hy.
  assert (y = p) as -> by (pose proof (pt_pivot _ _ _ _ _ Hp); congruence).
  destruct (Z.leb_spec (cmp x p) 0) as [Hle|Hgt].
  2: { apply wp_ret, HQ; [apply touch_refl|done|done|]. intros _. by exists x. }
  destruct (Z.eqb_spec (cmp x p) 0) as [Heq|Hne].
  - apply wp_bind, (swap_ok _ _ (S a) (a + n)); [lia|lia|lia|]. intros m1 Ht E1 E2 Eo.
    apply IH; [lia| |].
    + destruct Hp as [Hp0 _ Hl Hlo Hhi Hr]. split.
      * rewrite Eo by lia. done.
      * rewrite (touch_length _ _ _ _ Ht). lia.
      * apply (all_in_snoc _ _ _ _ x); [|congruence|done].
        intros i u Hi. rewrite Eo by lia. apply Hl. lia.
      * intros i u Hi Hu. destruct (decide (i = pb)) as [->|].
        -- rewrite E2 in Hu. eapply Hlo; [|exact Hu]. lia.
        -- rewrite Eo in Hu by lia. eapply Hlo; [|exact Hu]. lia.
      * intros i u Hi. rewrite Eo by lia. by apply Hhi.
      * intros i u Hi. rewrite Eo by lia. by apply Hr.
    + intros pa' pb' cnt' m' Ht' Hp' ? Hs. apply HQ; [|done|lia|done]. by eapply touch_trans.
  - apply IH; [lia| |].
    + destruct Hp as [Hp0 _ Hl Hlo Hhi Hr]. split; try done; [lia|].
      apply (all_in_snoc _ _ _ _ x); [done|done|]. unfold Lt. lia.
    + intros pa' pb' cnt' m' Ht' Hp' ? Hs. apply HQ; [done|done|lia|done].
Qed.

Lemma scan_down_ok fuel pa pb pc pd cnt m (Q : nat * nat * bool -> list A -> Prop) :
  S pc - pb < fuel -> parted pa pb pc pd m -> stopped pb pc m ->
  (forall pc' pd' cnt' m', moved m m' -> parted pa pb pc' pd' m' -> pc' <= pc ->
     (pb <= pc' -> pb < pc' /\ (exists x, m' !! pb = Some x /\ Gt x) /\
        exists x, m' !! pc' = Some x /\ Lt x) -> Q (pc', pd', cnt') m') ->
  wp (scan_down cmp fuel a pb pc pd cnt) Q m.
Proof.
  revert pc pd cnt m. induction fuel as [|fuel IH]; intros pc pd cnt m Hf Hp Hs HQ; [lia|].
  destruct (pt_bounds _ _ _ _ _ Hp) as (?&?&?&?&?&?). cbn [scan_down].
  destruct (Nat.leb_spec pb pc).
  2: { apply wp_ret, HQ; [apply touch_refl|done|done|lia]. }
  destruct Hs as (z & Hz & HGz); [done|].
  apply wp_bind, CMP_ok; [lia|lia|]. intros x y Hx Hy.
  assert (y = p) as -> by (pose proof (pt_pivot _ _ _ _ _ Hp); congruence).
  destruct (Z.geb_spec (cmp x p) 0) as [Hge|Hlt].
  2: { apply wp_ret, HQ; [apply touch_refl|done|done|]. intros _. split.
       - destruct (decide (pb = pc)) as [->|]; [|lia].
         assert (z = x) as -> by congruence. unfold Gt in HGz. lia.
       - split; [by exists z|by exists x]. }
  destruct (Z.eqb_spec (cmp x p) 0) as [Heq|Hne].
  - assert (pb <> pc).
    { intros ->. assert (z = x) as -> by congruence. unfold Gt in HGz. lia. }
    apply wp_bind, (swap_ok _ _ (S a) (a + n)); [lia|lia|lia|]. intros m1 Ht E1 E2 Eo.
    apply IH; [lia| | |].
    + destruct Hp as [Hp0 _ Hl Hlo Hhi Hr]. split.
      * rewrite Eo by lia. done.
      * rewrite (touch_length _ _ _ _ Ht). lia.
      * intros i u Hi. rewrite Eo by lia. by apply Hl.
      * intros i u Hi. rewrite Eo by lia. by apply Hlo.
      * intros i u Hi Hu. destruct (decide (i = pc)) as [->|].
        -- rewrite E1 in Hu. eapply Hhi; [|exact Hu]. lia.
        -- rewrite Eo in Hu by lia. eapply Hhi; [|exact Hu]. lia.
      * replace (S (pd - 1)) with pd by lia.
        apply (all_in_cons _ _ _ _ x); [|congruence|done].
        intros i u Hi. rewrite Eo by lia. apply Hr. lia.
    + intros ?. exists z. rewrite Eo by lia. done.
    + intros pc' pd' cnt' m' Ht' Hp' ? Hs'. apply HQ; [|done|lia|done]. by eapply touch_trans.
  - apply IH; [lia| | |].
    + destruct Hp as [Hp0 _ Hl Hlo Hhi Hr]. split; try done; [lia|].
      replace (S (pc - 1)) with pc by lia.
      apply (all_in_cons _ _ _ _ x); [done|done|]. unfold Gt. lia.
    + intros ?. by exists z.
    + intros pc' pd' cnt' m' Ht' Hp' ? Hs'. apply HQ; [done|done|lia|done].
Qed.

Lemma partition_ok fuel pa pb pc pd cnt m (Q : nat * nat * nat * nat * bool -> list A -> Prop) :
  S pc - pb < fuel -> parted pa pb pc pd m ->
  (forall pa' pb' pc' pd' cnt' m', moved m m' -> parted pa' pb' pc' pd' m' -> pb' = S pc' ->
     Q (pa', pb', pc', pd', cnt') m') ->
  wp (partition cmp fuel a pa pb pc pd cnt) Q m.
Proof.
  revert pa pb pc pd cnt m. induction fuel as [|fuel IH]; intros pa pb pc pd cnt m Hf Hp HQ; [lia|].
  cbn [partition]. apply wp_bind, (scan_up_ok _ _ _ _ pd); [lia|done|].
  intros pa1 pb1 cnt1 m1 Ht1 Hp1 ? Hs1. cbv beta iota.
  apply wp_bind, (scan_down_ok _ pa1); [lia|done|done|].
  intros pc2 pd2 cnt2 m2 Ht2 Hp2 ? Hs2. cbv beta iota.
  assert (moved m m2) by by eapply touch_trans.
  destruct (pt_bounds _ _ _ _ _ Hp2) as (?&?&?&?&?&?).
  destruct (Nat.ltb_spec pc2 pb1); [apply wp_ret, HQ; [done|done|lia]|].
  destruct Hs2 as (? & (x & Hx & HGx) & (y & Hy & HLy)); [lia|].
  apply wp_bind, (swap_ok _ _ (S a) (a + n)); [lia|lia|lia|]. intros m3 Ht3 E1 E2 Eo.
  apply IH; [lia| |].
  - destruct Hp2 as [Hp0 _ Hl Hlo Hhi Hr]. split.
    + rewrite Eo by lia. done.
    + rewrite (touch_length _ _ _ _ Ht3). lia.
    + intros i u Hi. rewrite Eo by lia. by apply Hl.
    + apply (all_in_snoc _ _ _ _ y); [|congruence|done].
      intros i u Hi. rewrite Eo by lia. by apply Hlo.
    + replace (S (pc2 - 1)) with pc2 by lia.
      apply (all_in_cons _ _ _ _ x); [|congruence|done].
      intros i u Hi. rewrite Eo by lia. apply Hhi. lia.
    + intros i u Hi. rewrite Eo by lia. by apply Hr.
  - intros pa' pb' pc' pd' cnt' m' Ht' Hp' ?. apply HQ; [|done|done].
    eapply touch_trans; [|done]. by eapply touch_trans.
Qed.
End Partition.
(** *** One round *)

Definition sort_seg (s : nat * nat) m m' : Prop :=
  touch s.1 (s.1 + s.2) m m' /\ ordered s.1 (s.1 + s.2) m'.

Lemma sort_seg_small a n m : n <= 1 -> sort_seg (a, n) m m.
Proof. intros. split; [apply touch_refl|]. apply ordered_short. cbn. lia. Qed.

(** Two parts with equal elements between them, sorted one after the other. *)
Lemma join_parts a d r n p s t m m1 m2 :
  d + r <= n -> (s, t) = ((a, d), (a + n - r, r)) \/ (t, s) = ((a, d), (a + n - r, r)) ->
  all_in (Lt p) a (a + d) m -> all_in (Eq p) (a + d) (a + n - r) m ->
  all_in (Gt p) (a + n - r) (a + n) m ->
  sort_seg s m m1 -> sort_seg t m1 m2 -> sort_seg (a, n) m m2.
Proof.
  intros Hdr Hst HL HE HG [T1 O1] [T2 O2].
  assert (Hs : touch a (a + n) m m2 /\ ordered a (a + d) m2 /\ ordered (a + n - r) (a + n) m2 /\
    all_in (Lt p) a (a + d) m2 /\ all_in (Eq p) (a + d) (a + n - r) m2 /\
    all_in (Gt p) (a + n - r) (a + n) m2).
  { destruct Hst as [[= -> ->]|[= -> ->]]; cbn in *;
      replace (a + n - r + r) with (a + n) in * by lia.
    - split_and!.
      + eapply touch_trans; eapply touch_mono; eauto; lia.
      + by apply (ordered_out _ _ _ _ _ _ T2); [lia|].
      + done.
      + apply (all_in_out _ _ _ _ _ _ _ T2); [lia|]. by apply (all_in_touch _ _ _ _ _ T1).
      + apply (all_in_out _ _ _ _ _ _ _ T2); [lia|]. by apply (all_in_out _ _ _ _ _ _ _ T1); [lia|].
      + apply (all_in_touch _ _ _ _ _ T2). by apply (all_in_out _ _ _ _ _ _ _ T1); [lia|].
    - split_and!.
      + eapply touch_trans; eapply touch_mono; eauto; lia.
      + done.
      + by apply (ordered_out _ _ _ _ _ _ T2); [lia|].
      + apply (all_in_touch _ _ _ _ _ T2). by apply (all_in_out _ _ _ _ _ _ _ T1); [lia|].
      + apply (all_in_out _ _ _ _ _ _ _ T2); [lia|]. by apply (all_in_out _ _ _ _ _ _ _ T1); [lia|].
      + apply (all_in_out _ _ _ _ _ _ _ T2); [lia|]. by apply (all_in_touch _ _ _ _ _ T1). }
  clear -Hs Hdr Comparison0. destruct Hs as (T & OL & OG & AL & AE & AG). split; [done|]. cbn.
  apply (ordered_cat _ (a + d) _ _ p); [done| | |].
  - apply (ordered_cat _ (a + n - r) _ _ p); [by eapply ordered_same|done| |].
    + eapply all_in_mono; [exact AE| |lia|lia]. unfold Eq. lia.
    + eapply all_in_mono; [exact AG| |lia|lia]. intros x ?. apply cmp_le. unfold Gt in *. lia.
  - eapply all_in_mono; [exact AL| |lia|lia]. unfold Lt. lia.
  - intros i x Hi Hx. apply cmp_le. destruct (decide (i < a + n - r)).
    + rewrite (AE i x); [lia|lia|done].
    + assert (Gt p x) as HGx by (apply (AG i x); [lia|done]). unfold Gt in HGx. lia.
Qed.

Lemma pivot_ok a n m (Q : nat -> list A -> Prop) :
  7 <= n -> a + n <= length m -> (forall k, a <= k < a + n -> Q k m) -> wp (pivot cmp a n) Q m.
Proof.
  intros Hn Hl HQ.
  assert (n / 8 * 8 <= n /\ n / 2 * 2 <= n /\ n < n / 2 * 2 + 2 /\ n < n / 8 * 8 + 8)
    by (pose proof (Nat.div_mod n 8); pose proof (Nat.div_mod n 2);
        pose proof (Nat.mod_upper_bound n 8); pose proof (Nat.mod_upper_bound n 2); lia).
  unfold pivot. destruct (Nat.ltb_spec 7 n); [|apply wp_ret, HQ; lia].
  apply wp_bind. destruct (Nat.ltb_spec 40 n).
  - apply wp_bind, (med3_ok _ _ _ a (a + n)); [lia|lia|lia|lia|]. intros pl ?.
    apply wp_bind, (med3_ok _ _ _ a (a + n)); [lia|lia|lia|lia|]. intros pm ?.
    apply wp_bind, (med3_ok _ _ _ a (a + n)); [lia|lia|lia|lia|]. intros pn ?.
    apply wp_ret, (med3_ok _ _ _ a (a + n)); [lia|lia|lia|lia|]. auto.
  - apply wp_ret, (med3_ok _ _ _ a (a + n)); [lia|lia|lia|lia|]. auto.
Qed.

(** The parts a round leaves, and that sorting them sorts the range. *)
Definition splits a n m (big small : nat * nat) : Prop :=
  big.2 + small.2 < n /\ small.2 <= big.2 /\
  a <= big.1 /\ big.1 + big.2 <= a + n /\ a <= small.1 /\ small.1 + small.2 <= a + n /\
  forall m1 m2, (sort_seg small m m1 -> sort_seg big m1 m2 -> sort_seg (a, n) m m2).

Lemma round_ok a n m (Q : option (nat * nat * (nat * nat)) -> list A -> Prop) :
  a + n <= length m ->
  (forall m', sort_seg (a, n) m m' -> Q None m') ->
  (forall m' big small, touch a (a + n) m m' -> splits a n m' big small -> Q (Some (big, small)) m') ->
  wp (round cmp a n) Q m.
Proof.
  intros Hl HN HS. unfold round. destruct (Nat.ltb_spec n 7).
  { apply wp_bind, insertion_sort_ok; [done|]. intros m' ??. by apply wp_ret, HN. }
  apply wp_bind, pivot_ok; [lia|done|]. intros pm Hpm.
  apply wp_bind, (swap_ok _ _ a (a + n)); [lia|lia|lia|]. intros m1 T1 _ _ _.
  pose proof (touch_length _ _ _ _ T1) as L1.
  destruct (lookup_lt_is_Some_2 m1 a) as [p Hp]; [lia|].
  apply wp_bind, (partition_ok a n p); [lia| |].
  { split; [done|lia| |apply all_in_empty; lia|apply all_in_empty; lia|apply all_in_empty; lia].
    intros i x Hi Hx. assert (i = a) as -> by lia. assert (x = p) as -> by congruence.
    unfold Eq. pose proof (cmp_refl p). pose proof (cmp_ge p p). lia. }
  intros pa pb pc pd cnt m2 T2 Hpt Epb. cbv beta iota.
  destruct Hpt as [_ Hb HE HL HG HE'].
  assert (T12 : touch a (a + n) m m2).
  { eapply touch_trans; [done|]. eapply touch_mono; [done|lia|lia]. }
  destruct cnt; cbn [negb].
  2: { apply wp_bind, insertion_sort_ok; [lia|]. intros m3 ??. apply wp_ret, HN.
       split; [by eapply touch_trans|done]. }
  apply wp_bind, (rotate_ok (Eq p) (Lt p) a pa pb); [lia|lia|lia| |done|done|].
  { destruct (Nat.ltb_spec (pa - a) (pb - pa)); lia. }
  intros m3 T3 HL3 HE3. pose proof (touch_length _ _ _ _ T3) as L3.
  rewrite <- Epb in HG.
  apply wp_bind, (rotate_ok (Gt p) (Eq p) pb (S pd) (a + n)); [lia|lia|lia| | | |].
  { destruct (Nat.ltb_spec (pd - pc) (a + n - pd - 1)); lia. }
  { apply (all_in_out _ _ _ _ _ _ _ T3); [lia|done]. }
  { apply (all_in_out _ _ _ _ _ _ _ T3); [lia|done]. }
  intros m4 T4 HE4 HG4. apply wp_ret.
  assert (Ht : touch a (a + n) m m4).
  { eapply touch_trans; [exact T12|]. eapply touch_trans.
    - eapply touch_mono; [exact T3|lia|lia].
    - eapply touch_mono; [exact T4|lia|lia]. }
  set (d := pb - pa) in *. set (r := pd - pc) in *.
  assert (AL : all_in (Lt p) a (a + d) m4).
  { apply (all_in_out _ _ _ _ _ _ _ T4); [lia|]. exact HL3. }
  assert (AE : all_in (Eq p) (a + d) (a + n - r) m4).
  { intros i x Hi Hx. destruct (decide (i < pb)).
    - eapply (all_in_out _ _ _ _ _ _ _ T4); [|exact HE3| |exact Hx]; lia.
    - eapply HE4; [|exact Hx]. lia. }
  assert (AG : all_in (Gt p) (a + n - r) (a + n) m4).
  { eapply all_in_mono; [exact HG4|done|lia|lia]. }
  destruct (Nat.ltb_spec d r); (apply HS; [done|]); (split; [cbn; lia|]; split_and!; cbn; try lia);
    intros m5 m6; eapply (join_parts a d r n p); eauto; lia.
Qed.
(** *** The loop *)

(** The parts are sorted one after the other. *)
Fixpoint sort_all (segs : list (nat * nat)) m m' : Prop :=
  match segs with
  | [] => m' = m
  | s :: segs => exists m1, sort_seg s m m1 /\ sort_all segs m1 m'
  end.

(** Rounds a part takes at most. *)
Definition rounds_of (segs : list (nat * nat)) : nat := sum_list ((fun s => 2 * s.2 + 1) <$> segs).

(** The part at level [i] of the parameter stack is small: each level halves. *)
Fixpoint halving (N : nat) (stack : list (nat * nat)) : Prop :=
  match stack with
  | [] => True
  | s :: stack => s.2 * 2 ^ length stack <= N /\ halving N stack
  end.

Definition inside (L : nat) (s : nat * nat) : Prop := s.1 + s.2 <= L.

(** What the loop has sorted when it returns, where [calls] nested calls are
    allowed. *)
Definition loop_sorts (fuel calls : nat) : Prop :=
  forall a n stack N m, rounds_of ((a, n) :: stack) <= fuel ->
    Forall (inside (length m)) ((a, n) :: stack) ->
    halving N ((a, n) :: stack) -> length stack <= PARAMETER_STACK_LEVELS ->
    N < 2 ^ (9 * S calls) ->
    wp (qsort_loop cmp fuel calls a n stack) (fun _ m' => sort_all ((a, n) :: stack) m m') m.

Lemma halving_small N n1 n2 n k :
  n1 + n2 < n -> n2 <= n1 -> n * 2 ^ k <= N -> n2 * 2 ^ S k <= N /\ n1 * 2 ^ k <= N.
Proof.
  intros. rewrite Nat.pow_succ_r'. split.
  - transitivity (n * 2 ^ k); [|done].
    replace (n2 * (2 * 2 ^ k)) with (2 * n2 * 2 ^ k) by lia. apply Nat.mul_le_mono_r. lia.
  - transitivity (n * 2 ^ k); [|done]. apply Nat.mul_le_mono_r. lia.
Qed.

Lemma sort_seg_length s m m' : sort_seg s m m' -> length m' = length m.
Proof. intros [T _]. by apply touch_length in T. Qed.

Lemma qsort_loop_ok fuel calls : loop_sorts fuel calls.
Proof.
  revert calls. induction fuel as [|fuel IH]; intros calls a n stack N m Hf Hin Hh Hk HN;
    unfold rounds_of in Hf; cbn in Hf; [lia|].
  apply Forall_cons in Hin as [Ha Hin]. destruct Hh as [Hn Hh]. unfold inside in Ha.
  cbn [fst snd] in *.
  cbn [qsort_loop].
  (* what [pop] does once the part is sorted *)
  assert (Hpop : forall m', sort_seg (a, n) m m' ->
    wp match stack with
       | [] => ret tt
       | (a, n) :: stack => qsort_loop cmp fuel calls a n stack
       end (fun _ m' => sort_all ((a, n) :: stack) m m') m').
  { intros m' Hs. destruct stack as [|[a' n'] stack].
    - apply wp_ret. by exists m'.
    - eapply wp_mono; [apply (IH calls a' n' stack N); auto|].
      + unfold rounds_of. cbn in *. lia.
      + by rewrite (sort_seg_length _ _ _ Hs).
      + cbn in Hk. lia.
      + intros [] m2 ?. by exists m'. }
  apply wp_bind, round_ok; [done| |]; [exact Hpop|].
  intros m1 [a1 n1] [a2 n2] T1 (?&?&?&?&?&?&Hj). cbv beta iota. cbn [fst snd] in *.
  pose proof (touch_length _ _ _ _ T1) as L1.
  assert (Hseg : forall m2 m3, sort_seg (a2, n2) m1 m2 -> sort_seg (a1, n1) m2 m3 ->
    sort_seg (a, n) m m3).
  { intros m2 m3 S1 S2. destruct (Hj m2 m3 S1 S2) as [T2 O2]. split; [|done].
    by eapply touch_trans. }
  destruct (halving_small N n1 n2 n (length stack)) as [Hsm Hbg]; [lia|lia|done|].
  (* the larger part, then the stack *)
  assert (Hrest : forall m2, sort_seg (a2, n2) m1 m2 ->
    wp (if 1 <? n1 then qsort_loop cmp fuel calls a1 n1 stack
        else match stack with
             | [] => ret tt
             | (a, n) :: stack => qsort_loop cmp fuel calls a n stack
             end) (fun _ m' => sort_all ((a, n) :: stack) m m') m2).
  { intros m2 S2. pose proof (sort_seg_length _ _ _ S2) as L2.
    destruct (Nat.ltb_spec 1 n1) as [_|Hs1].
    - eapply wp_mono; [apply (IH calls a1 n1 stack N); auto|].
      + unfold rounds_of. cbn in *. lia.
      + rewrite L2, L1. constructor; [unfold inside; cbn; lia|done].
      + by split.
      + intros [] m3 (m4 & S4 & Hr). exists m4. split; [by eapply Hseg|done].
    - apply Hpop. eapply Hseg; [exact S2|]. apply sort_seg_small. lia. }
  destruct (Nat.ltb_spec 1 n2) as [Hbig|Hs2].
  2: { apply Hrest, sort_seg_small. lia. }
  destruct (Nat.ltb_spec (length stack) PARAMETER_STACK_LEVELS) as [Hlv|Hlv].
  - eapply wp_mono; [apply (IH calls a2 n2 ((a1, n1) :: stack) N); auto|].
    + unfold rounds_of. cbn in *. lia.
    + rewrite L1. repeat constructor; [unfold inside; cbn; lia|unfold inside; cbn; lia|done].
    + split; [exact Hsm|]. by split.
    + intros [] m4 (m2 & S2 & m3 & S3 & Hr). exists m3. split; [by eapply Hseg|done].
  - assert (Ek : length stack = 8) by (unfold PARAMETER_STACK_LEVELS in *; lia).
    rewrite Ek in Hsm. apply wp_bind. destruct calls as [|calls].
    { exfalso. change (2 ^ (9 * 1)) with 512 in HN. change (2 ^ 9) with 512 in Hsm. lia. }
    eapply wp_mono; [apply (IH calls a2 n2 [] n2); auto|].
    + unfold rounds_of. cbn in *. lia.
    + rewrite L1. repeat constructor. unfold inside. cbn. lia.
    + cbn. lia.
    + cbn. lia.
    + replace (9 * S (S calls)) with (9 + 9 * S calls) in HN by lia.
      rewrite Nat.pow_add_r in HN. change (2 ^ 9) with 512 in *. lia.
    + intros [] m2 (m2' & S2 & ->). by apply Hrest.
Qed.
Lemma ordered_sorted a n m :
  ordered a (a + n) m -> StronglySorted (fun x y => le x y) (slice a n m).
Proof.
  intros Ho. assert (Hl : forall i j x y, i < j -> slice a n m !! i = Some x ->
    slice a n m !! j = Some y -> le x y).
  { intros i j x y Hij Hx Hy.
    assert (j < n) by (apply lookup_lt_Some in Hy; unfold slice in Hy; rewrite length_take in Hy; lia).
    rewrite lookup_slice in Hx, Hy by lia. eapply (Ho (a + i) (a + j)); [lia|lia|lia|done|done|done]. }
  clear Ho. revert Hl. generalize (slice a n m) as l.
  induction l as [|x l IH]; intros Hl; [constructor|]. constructor.
  - apply IH. intros i j u v ??? . apply (Hl (S i) (S j)); [lia|done|done].
  - apply Forall_lookup. intros i y Hy. apply (Hl 0 (S i) x y); [lia|done|done].
Qed.

(** [qsort] as the list algorithm it implements. *)
Lemma qsort_spec calls a n m :
  a + n <= length m -> n < 2 ^ (9 * S calls) ->
  exists m', qsort cmp calls a n m = Some (tt, m') /\ touch a (a + n) m m' /\
    slice a n m' ≡ₚ slice a n m /\ StronglySorted (fun x y => le x y) (slice a n m').
Proof.
  intros Hl Hc.
  destruct (wp_elim _ _ _ (qsort_loop_ok (2 * n + 1) calls a n [] n m
    ltac:(unfold rounds_of; cbn; lia) ltac:(repeat constructor; exact Hl)
    ltac:(cbn; lia) ltac:(cbn; lia) Hc)) as ([] & m' & E & m1 & [T O] & ->).
  exists m1. split_and!; [exact E|exact T|by apply touch_slice|by apply ordered_sorted].
Qed.
End Thms.

(** C22. [qsort] sorts in place, always returns, and stays within a bounded
    stack: for any comparison function in the sense of the C standard, the array
    of [n] elements at [a] ends up an ordered rearrangement of what it was, no
    element before or after it changes, and the eight-level parameter stack makes
    nested calls so rare that a size below 2 to the power 9 (k + 1) never nests
    more than [k] calls (the 1920 entries of the game list nest at most one). *)
Theorem qsort_sorts {A} (cmp : A -> A -> Z) `{!Comparison cmp} calls a n (m : list A) :
  a + n <= length m -> n < 2 ^ (9 * S calls) ->
  exists m', qsort cmp calls a n m = Some (tt, m') /\ length m' = length m /\
    slice a n m' ≡ₚ slice a n m /\
    StronglySorted (fun x y => (cmp x y <= 0)%Z) (slice a n m') /\
    forall i, i < a \/ a + n <= i -> m' !! i = m !! i.
Proof.
  intros Hl Hc. destruct (qsort_spec cmp calls a n m Hl Hc) as (m' & E & T & P & S').
  exists m'. split_and!; auto; [by apply touch_length in T|]. apply T.
Qed.

#[export] Instance Z_sub_comparison : Comparison Z.sub.
Proof. split; lia. Qed.

Lemma qsort_sorts_witness :
  exists m', qsort Z.sub 0 1 9 [7; 5; 3; 5; 1; 2; 5; 9; 8; 3; 0]%Z = Some (tt, m') /\
    StronglySorted (fun x y => (x - y <= 0)%Z) (slice 1 9 m').
Proof.
  destruct (qsort_sorts Z.sub 0 1 9 [7; 5; 3; 5; 1; 2; 5; 9; 8; 3; 0]%Z) as (m' & E & _ & _ & S' & _).
  - cbn. lia.
  - apply Nat.ltb_lt. vm_compute. reflexivity.
  - exists m'. split; [exact E|exact S'].
Defined.
