(* ===== verification/Descrambler.v ===== *)
(** The boot ROM's scrambler (src/cubeboot/source/descrambler.c): three shift
    registers and a bit of memory make a key stream, eight bits for a byte. *)

From S2P Require Import Prelude.

Record descr_t := mk_descr { d_acc : Z; d_nacc : Z; d_t : Z; d_u : Z; d_v : Z; d_x : Z }.
Definition descr_start : descr_t := mk_descr 0 0 0x2953 0xd9c2 0x3ff1 1.

Definition shift_out (reg tap : Z) (out : Z) : Z :=
  if negb (out =? 0) then Z.lxor (Z.shiftr reg 1) tap else Z.shiftr reg 1.
(** One pass of the loop before the byte is stored. *)
Definition descr_bit (s : descr_t) : descr_t :=
  let t0 := Z.land (d_t s) 1 in
  let t1 := Z.land (Z.shiftr (d_t s) 1) 1 in
  let u0 := Z.land (d_u s) 1 in
  let u1 := Z.land (Z.shiftr (d_u s) 1) 1 in
  let v0 := Z.land (d_v s) 1 in
  let x := Z.lxor (d_x s) (Z.lxor t1 v0) in
  let x := Z.lxor x (Z.lor u0 u1) in
  let x := Z.lxor x (Z.land (Z.lxor (Z.lxor t0 u1) v0) (Z.lxor t0 u0)) in
  mk_descr (u8 (2 * d_acc s + x)) (u8 (d_nacc s + 1))
    (shift_out (d_t s) 0xa740 t0)
    (if t0 =? 0 then shift_out (d_u s) 0xfb10 u0 else d_u s)
    (if t0 =? u0 then shift_out (d_v s) 0xb3d0 v0 else d_v s) x.
Definition descr_reset (s : descr_t) : descr_t := mk_descr (d_acc s) 0 (d_t s) (d_u s) (d_v s) (d_x s).

Fixpoint descr_rounds (fuel : nat) (it size : nat) (s : descr_t) (data : list Z) : option (list Z) :=
  if (size <=? it)%nat then Some data
  else match fuel with
       | O => None
       | S fuel =>
           let s := descr_bit s in
           if d_nacc s =? 8 then
             match data !! it with
             | Some b => descr_rounds fuel (S it) size (descr_reset s) (<[it := Z.lxor b (d_acc s)]> data)
             | None => None
             end
           else descr_rounds fuel it size s data
       end.
(** Eight passes for a byte. *)
Definition Descrambler (data : list Z) (size : nat) : option (list Z) :=
  descr_rounds (8 * size) 0 size descr_start data.

(** ** The key stream *)

Definition descr_byte (s : descr_t) : descr_t := Nat.iter 8 descr_bit s.
Fixpoint key_stream (n : nat) (s : descr_t) : list Z :=
  match n with
  | O => []
  | S n => let s := descr_byte s in d_acc s :: key_stream n (descr_reset s)
  end.

Lemma length_key_stream n s : length (key_stream n s) = n.
Proof. revert s. induction n as [|n IH]; intros s; [done|]. cbn. by rewrite IH. Qed.

Lemma nacc_bit s : d_nacc (descr_bit s) = u8 (d_nacc s + 1).
Proof. reflexivity. Qed.

(** Passes that do not complete a byte. *)
Lemma descr_rounds_bits k : forall fuel it size s data, (it < size)%nat ->
  0 <= d_nacc s -> d_nacc s + Z.of_nat k < 8 ->
  descr_rounds (k + fuel) it size s data = descr_rounds fuel it size (Nat.iter k descr_bit s) data.
Proof.
  induction k as [|k IH]; intros fuel it size s data Hit H0 Hk; [done|].
  change (S k + fuel)%nat with (S (k + fuel)). cbn [descr_rounds].
  rewrite (proj2 (Nat.leb_gt size it)) by lia. rewrite nacc_bit, u8_small by lia.
  destruct (Z.eqb_spec (d_nacc s + 1) 8); [lia|].
  rewrite IH by (try (rewrite nacc_bit, u8_small by lia); lia). f_equal. symmetry. apply Nat.iter_succ_r.
Qed.

Lemma nacc_iter k : forall s, 0 <= d_nacc s -> d_nacc s + Z.of_nat k < 256 ->
  d_nacc (Nat.iter k descr_bit s) = d_nacc s + Z.of_nat k.
Proof.
  induction k as [|k IH]; intros s H0 Hk; [cbn; lia|]. rewrite Nat.iter_succ, nacc_bit, IH, u8_small by lia. lia.
Qed.

Lemma descr_rounds_spec n : forall it s data, d_nacc s = 0 -> (it + n <= length data)%nat ->
  descr_rounds (8 * n) it (it + n) s data
  = Some (splice it (zip_with Z.lxor (slice it n data) (key_stream n s)) data).
Proof.
  induction n as [|n IH]; intros it s data Hs Hl.
  - cbn. rewrite Nat.add_0_r, (proj2 (Nat.leb_le it it)) by lia. by rewrite zip_with_nil_r, splice_nil by lia.
  - replace (8 * S n)%nat with (7 + S (8 * n))%nat by lia. rewrite descr_rounds_bits by lia.
    cbn [descr_rounds]. rewrite (proj2 (Nat.leb_gt (it + S n) it)) by lia.
    change (descr_bit (Nat.iter 7 descr_bit s)) with (descr_byte s).
    assert (d_nacc (descr_byte s) = 8) as -> by (unfold descr_byte; rewrite nacc_iter by lia; lia).
    change (8 =? 8) with true. cbv iota.
    destruct (lookup_lt_is_Some_2 data it) as [b Eb]; [lia|]. rewrite Eb.
    replace (it + S n)%nat with (S it + n)%nat by lia.
    rewrite IH by (reflexivity || (rewrite length_insert; lia)). f_equal.
    cbn [key_stream]. set (a := d_acc (descr_byte s)). set (ks := key_stream n _).
    assert (Hks : length ks = n) by apply length_key_stream.
    assert (Es : slice it (S n) data = b :: slice (S it) n data).
    { unfold slice. by rewrite (drop_S data b it). }
    rewrite Es.
    change (zip_with Z.lxor (b :: slice (S it) n data) (a :: ks))
      with ([Z.lxor b a] ++ zip_with Z.lxor (slice (S it) n data) ks).
    assert (Ei : <[it:=Z.lxor b a]> data = splice it [Z.lxor b a] data).
    { unfold splice. cbn. rewrite insert_take_drop by lia. by rewrite Nat.add_1_r. }
    rewrite Ei.
    rewrite <- splice_splice_adj; [|rewrite length_zip_with, length_slice by lia; cbn; lia].
    cbn [length]. rewrite Nat.add_1_r. f_equal. f_equal. apply slice_splice_gt; cbn; lia.
Qed.

(** The first [size] bytes are combined with the key stream. *)
Lemma Descrambler_spec data size : (size <= length data)%nat ->
  Descrambler data size = Some (splice 0 (zip_with Z.lxor (take size data) (key_stream size descr_start)) data).
Proof.
  intros Hl. unfold Descrambler. rewrite (descr_rounds_spec size 0) by (reflexivity || lia).
  unfold slice. by rewrite drop_0.
Qed.

Lemma zip_lxor_twice a k : length k = length a -> zip_with Z.lxor (zip_with Z.lxor a k) k = a.
Proof.
  revert k. induction a as [|x a IH]; intros [|y k]; try done. cbn. intros [= Hl].
  by rewrite Z.lxor_assoc, Z.lxor_nilpotent, Z.lxor_0_r, IH.
Qed.

(** Scrambling and descrambling are the same: for every image at least as
    long as the part asked for, the routine returns, changes nothing after that
    part, keeps the length, and a second run gives the image back. *)
Theorem descrambler_involutive data size : (size <= length data)%nat ->
  exists data', Descrambler data size = Some data' /\ length data' = length data /\
    drop size data' = drop size data /\ Descrambler data' size = Some data.
Proof.
  intros Hl. set (k := key_stream size descr_start). set (z := zip_with Z.lxor (take size data) k).
  assert (Hk : length k = size) by apply length_key_stream.
  assert (Hz : length z = size) by (unfold z; rewrite length_zip_with, Hk; len).
  exists (splice 0 z data). assert (Hs : length (splice 0 z data) = length data) by (apply length_splice; lia).
  split; [by apply Descrambler_spec|]. split; [done|]. split; [apply drop_splice; lia|].
  rewrite Descrambler_spec by lia. fold k. f_equal.
  assert (take size (splice 0 z data) = z) as ->.
  { unfold splice. rewrite take_0, app_nil_l. by apply take_app_length'. }
  unfold z. rewrite zip_lxor_twice by (rewrite Hk; len).
  unfold splice. rewrite !take_0, !app_nil_l. fold z.
  assert (El : length (take size data) = size) by len.
  rewrite El, drop_app_ge by lia. rewrite Hz, Nat.sub_diag, drop_0. apply take_drop.
Qed.

(** The first bytes of a scrambled image. *)
Lemma descrambler_involutive_witness : exists data',
  Descrambler (replicate 16 0) 16 = Some data' /\ Descrambler data' 16 = Some (replicate 16 0).
Proof.
  destruct (descrambler_involutive (replicate 16 0) 16) as (d & E & _ & _ & E').
  - rewrite length_replicate. lia.
  - by exists d.
Defined.
