(* ===== verification/Ipl.v ===== *)
(** Getting the console's own firmware, the IPL, and knowing it
    (src/cubeboot/source/ipl.c and, in emu/tweaks.c, [ensure_ipl_loaded] and
    [apply_additional_patches]).

    The first half of the IPL's code, BS2, is wanted at 0x81300000.  A loader
    that ran before may have left it in auxiliary RAM with a note of 16 bytes
    after it; otherwise it comes scrambled from a file or from the boot ROM.  A
    checksum and the address of its small data area tell which of seven it is. *)

From Stdlib Require Import String.
From S2P Require Import Prelude Mem CStr Ar SsAram Di Fdrv FlippyEmu FileLoad Crc Descrambler.
#[local] Open Scope prog_scope.

Definition IPL_ROM_FONT_SJIS : Z := 0x1AFF00.
Definition DECRYPT_START : Z := 0x100.
Definition IPL_SIZE : Z := 0x200000.
Definition BS2_START_OFFSET : Z := 0x800.
Definition BS2_CODE_OFFSET : Z := BS2_START_OFFSET + 0x20.
Definition BS2_BASE_ADDR : Z := 0x81300000.
Definition bs2_size : Z := IPL_SIZE - BS2_CODE_OFFSET.
Definition STACK_SETUP_ADDR : Z := 0x81300098.
Definition SDA_LOAD_ADDR_A : Z := STACK_SETUP_ADDR + 4 * (2 * 2).
Definition SDA_LOAD_ADDR_B : Z := SDA_LOAD_ADDR_A + 4 * (1 * (32 - 3)).

(** ** The seven IPLs *)

Inductive ipl_types := IPL_NTSC | IPL_PAL.
Inductive ipl_version :=
  IPL_NTSC_10 | IPL_NTSC_11 | IPL_NTSC_12_001 | IPL_NTSC_12_101 | IPL_PAL_10 | IPL_PAL_11 | IPL_PAL_12.
#[export] Instance ipl_types_eq : EqDecision ipl_types.
Proof. solve_decision. Defined.
#[export] Instance ipl_version_eq : EqDecision ipl_version.
Proof. solve_decision. Defined.
Record bios_item_t := mk_bios {
  version : ipl_version; type : ipl_types; bios_name : list Z; reloc_prefix : list Z; patch_suffix : list Z;
  clean_crc : Z; dirty_crc : Z; sda : Z
}.
Definition bios_table : list bios_item_t := [
  mk_bios IPL_NTSC_10 IPL_NTSC (str "gc-ntsc-10") (str "ntsc10") (str "VER_NTSC_10") 0xbb05745c 0x2487919c 0x81465320;
  mk_bios IPL_NTSC_11 IPL_NTSC (str "gc-ntsc-11") (str "ntsc11") (str "VER_NTSC_11") 0x6cd1acb5 0x53faeffc 0x81489120;
  mk_bios IPL_NTSC_12_001 IPL_NTSC (str "gc-ntsc-12_001") (str "ntsc12_001") (str "VER_NTSC_12_001") 0xedf79188 0xdc527533 0x8148b1c0;
  mk_bios IPL_NTSC_12_101 IPL_NTSC (str "gc-ntsc-12_101") (str "ntsc12_101") (str "VER_NTSC_12_101") 0x65434097 0x84075b6d 0x8148b640;
  mk_bios IPL_PAL_10 IPL_PAL (str "gc-pal-10") (str "pal10") (str "VER_PAL_10") 0x9391a4d2 0xeadf6ce5 0x814b4fc0;
  mk_bios IPL_PAL_11 IPL_PAL (str "gc-pal-11") (str "pal11") (str "VER_PAL_11") 0x3e9af028 0x76b301de 0x81483de0;
  mk_bios IPL_PAL_12 IPL_PAL (str "gc-pal-12") (str "pal12") (str "VER_PAL_12") 0xa53af44f 0x89f5a81a 0x814b7280].
(** The first row with this checksum and this small data area. *)
Definition bios_matches (crc sda_ : Z) (b : bios_item_t) : bool := (dirty_crc b =? crc) && (sda b =? sda_).
Fixpoint find_bios (rows : list bios_item_t) (i : nat) (crc sda_ : Z) : option nat :=
  match rows with
  | [] => None
  | b :: rows => if bios_matches crc sda_ b then Some i else find_bios rows (S i) crc sda_
  end.

(** The address in the two instructions that load r13; the code before them
    differs in whether it clears the registers. *)
Definition get_sda_address (m : Z -> Z) : Z :=
  let load := if load_word STACK_SETUP_ADDR m =? 0x38000000 then SDA_LOAD_ADDR_B else SDA_LOAD_ADDR_A in
  Z.lor (Z.shiftl (Z.land (load_word load m) 0xFFFF) 16) (Z.land (load_word (load + 4) m) 0xFFFF).

(** ** The note *)

Definition METADATA_ADDR : Z := 0x81500000 - 16.
Definition METADATA_MAGIC : Z := 0xC0DE.
Definition meta_magic (m : Z -> Z) : Z := m METADATA_ADDR * 2 ^ 8 + m (METADATA_ADDR + 1).
Definition meta_code_size (m : Z -> Z) : Z := load_word (METADATA_ADDR + 8) m.
Definition set_meta_magic (v : Z) : (Z -> Z) -> Z -> Z := store_mem METADATA_ADDR [u8 (Z.shiftr v 8); u8 v].
Definition set_meta_code_size (v : Z) : (Z -> Z) -> Z -> Z := store_word (METADATA_ADDR + 8) v.

(** The whole image, descrambled where it is scrambled. *)
Definition descramble_image (b : list Z) : option (list Z) :=
  d ← Descrambler (drop (Z.to_nat DECRYPT_START) b) (Z.to_nat (IPL_ROM_FONT_SJIS - DECRYPT_START));
  Some (take (Z.to_nat DECRYPT_START) b ++ d).
Definition bios_path : list Z := str "/ipl.bin".

(** The display modes the loader chooses from. *)
Inductive gx_mode := TVNtsc480IntDf | TVPal528IntDf | TVMpal480IntDf | TVEurgb60Hz480IntDf.
Definition VI_NTSC : Z := 0.

(** Where loading ends: with the IPL there, back in the program that was there
    before ([exit]), or with a message on the screen ([prog_halt]). *)
Inductive ipl_outcome := Loaded | Exited | Halted.

Section Ipl.
Context {W : Type} `{FileDevice W}.
(** The boot ROM; the name of the storage device in use; the TV mode found; the
    address of the buffer for images; the DSP's status register. *)
Context (read_rom : Z -> Z -> list Z) (get_device : W -> option (list Z)) (current_tv_mode bios_addr : Z)
  (polls : dsp -> list Z).

Record ipl_state := mk_ipl {
  ip_files : load_state W;
  bios_buffer : list Z;
  ip_ram : ss_state;
  bios_index : Z;
  valid : bool;
  rmode : gx_mode
}.
Notation P := (M ipl_state).
Implicit Types w : ipl_state.

Definition set_ip_files f w := mk_ipl f (bios_buffer w) (ip_ram w) (bios_index w) (valid w) (rmode w).
Definition set_bios_buffer b w := mk_ipl (ip_files w) b (ip_ram w) (bios_index w) (valid w) (rmode w).
Definition set_ip_ram r w := mk_ipl (ip_files w) (bios_buffer w) r (bios_index w) (valid w) (rmode w).
Definition set_bios_index i w := mk_ipl (ip_files w) (bios_buffer w) (ip_ram w) i (valid w) (rmode w).
Definition set_valid v w := mk_ipl (ip_files w) (bios_buffer w) (ip_ram w) (bios_index w) v (rmode w).
Definition set_rmode r w := mk_ipl (ip_files w) (bios_buffer w) (ip_ram w) (bios_index w) (valid w) r.
Definition ip_mem w : Z -> Z := ss_mem (ip_ram w).
Definition change_ip_mem (f : (Z -> Z) -> Z -> Z) w := set_ip_ram (set_ss_mem (f (ip_mem w)) (ip_ram w)) w.
Definition on_ip_files {A} (m : M (load_state W) A) : P A := zoom ip_files set_ip_files m.
Definition on_ram {A} (m : M ss_state A) : P A := zoom ip_ram set_ip_ram m.

Definition load_bios : P Z :=
  w <- get ;;
  '(r, b) <- on_ip_files (load_file_buffer bios_path bios_addr (bios_buffer w)) ;;
  modify (set_bios_buffer b) ;; ret r.
(** [Descrambler] in place, and the code part to where it runs. *)
Definition place_bs2 : P unit :=
  w <- get ;;
  b <- of_option (descramble_image (bios_buffer w)) ;;
  modify (set_bios_buffer b) ;;
  modify (change_ip_mem (store_mem BS2_BASE_ADDR (slice (Z.to_nat BS2_CODE_OFFSET) (Z.to_nat bs2_size) b))).
Definition read_rom_image : P unit :=
  modify (fun w => set_bios_buffer (splice 0 (read_rom IPL_SIZE 0) (bios_buffer w)) w).

Definition load_ipl_rom (is_running_dolphin : bool) : P unit :=
  if is_running_dolphin
  then modify (change_ip_mem (store_mem BS2_BASE_ADDR (read_rom bs2_size BS2_CODE_OFFSET)))
  else read_rom_image ;; place_bs2.

(** Which of the seven the code in memory is, by the given checksum. *)
Definition identify (crc : Z) : P bool :=
  w <- get ;;
  match find_bios bios_table 0 crc (get_sda_address (ip_mem w)) with
  | Some i => modify (set_bios_index (Z.of_nat i)) ;; modify (set_valid true) ;; ret true
  | None => modify (set_valid false) ;; ret false
  end.

Definition load_ipl_file : P ipl_outcome :=
  size <- on_ip_files (get_file_size bios_path) ;;
  if size =? SD_FAIL then ret Halted
  else if negb (size =? IPL_SIZE) then ret Halted
  else
    r <- load_bios ;;
    if negb (r =? 0) then ret Halted
    else
      place_bs2 ;;
      w <- get ;;
      ok <- identify (csp_crc32_memory (load_mem BS2_BASE_ADDR (Z.to_nat bs2_size) (ip_mem w))) ;;
      ret (if ok then Loaded else Halted).

(** [code_size] is cut to 0 in a local variable; what is stored is not. *)
Definition code_end_addr (m : Z -> Z) : Z :=
  if load_word 0x81300310 m =? 0x81300000 then load_word 0x81300324 m else load_word 0x8130039c m.
Definition ensure_ipl_loaded : P unit :=
  w <- get ;;
  if meta_magic (ip_mem w) =? METADATA_MAGIC then ret tt
  else
    modify (change_ip_mem (zero_mem METADATA_ADDR 16)) ;;
    size <- on_ip_files (get_file_size bios_path) ;;
    failed <- (if negb (size =? IPL_SIZE) then ret true else r <- load_bios ;; ret (negb (r =? 0))) ;;
    (if failed : bool then read_rom_image else ret tt) ;;
    place_bs2 ;;
    modify (change_ip_mem (set_meta_magic METADATA_MAGIC)) ;;
    modify (fun w => change_ip_mem (set_meta_code_size (u32 (code_end_addr (ip_mem w) - 0x81300000))) w).

(** [current_bios], and the display mode a PAL IPL needs. *)
Definition current_bios w : option bios_item_t := bios_table !! Z.to_nat (bios_index w).
Definition post_ipl_loaded : P unit :=
  w <- get ;;
  b <- of_option (current_bios w) ;;
  if bool_decide (type b = IPL_PAL) && (current_tv_mode =? VI_NTSC)
  then modify (set_rmode (if bool_decide (version b = IPL_PAL_11) then TVPal528IntDf else TVMpal480IntDf))
  else ret tt.

Definition probe_card_0 : list Z :=
  [0x8131b1c4; 0x8131b8f0; 0x8131bc88; 0x8131bca0; 0x8131c29c; 0x8131b81c; 0x8131c3dc].
Definition probe_card_1 : list Z :=
  [0x8131b274; 0x8131b9a0; 0x8131bd38; 0x8131bd50; 0x8131c34c; 0x8131b8cc; 0x8131c48c].
Definition init_ad16_addr : list Z :=
  [0x81335f54; 0x8135b9b4; 0x8136572c; 0x81365890; 0x8135ef94; 0x8135b8d4; 0x81368c08].
(** The instruction put over the IPL's probe of the slot in use. *)
Definition probe_patch (device : list Z) (index : nat) : option (Z * Z) :=
  if bool_decide (device = str "sda") then (fun a => (a, 0x38600000)) <$> probe_card_0 !! index
  else if bool_decide (device = str "sdb") then (fun a => (a, 0x38600000)) <$> probe_card_1 !! index
  else if bool_decide (device = str "sdc") then (fun a => (a, 0x4e800020)) <$> init_ad16_addr !! index
  else None.
Definition apply_additional_patches : P unit :=
  w <- get ;;
  if bios_index w <? 0 then ret tt
  else match get_device (dev (ip_files w)) with
       | None => ret tt
       | Some device =>
           match probe_patch device (Z.to_nat (bios_index w)) with
           | Some (addr, value) => modify (change_ip_mem (store_word addr value))
           | None => ret tt
           end
       end.

Definition finish_ipl : P ipl_outcome := post_ipl_loaded ;; apply_additional_patches ;; ret Loaded.
Definition load_ipl (is_running_dolphin : bool) : P ipl_outcome :=
  on_ram (ARAMFetch polls BS2_BASE_ADDR 0xe00000 0x200000) ;;
  ensure_ipl_loaded ;;
  w <- get ;;
  let magic := meta_magic (ip_mem w) in
  let code_size := meta_code_size (ip_mem w) in
  modify (change_ip_mem (zero_mem METADATA_ADDR 16)) ;;
  if negb (magic =? METADATA_MAGIC) then ret (if is_running_dolphin then Halted else Exited)
  else
    w <- get ;;
    ok <- identify (tinf_crc32 (load_mem BS2_BASE_ADDR (Z.to_nat code_size) (ip_mem w))) ;;
    if ok : bool then finish_ipl
    else
      o <- load_ipl_file ;;
      match o with Loaded => finish_ipl | o => ret o end.
End Ipl.
Arguments ipl_state W : clear implicits.
