(* ===== verification/IplThms.v ===== *)
(** The IPL that is started is one of the seven. *)

From Stdlib Require Import String.
From S2P Require Import Prelude Mem Bits CStr Ar SsAram SsAramThms Di Fdrv FlippyEmu FileLoad FileLoadThms Crc Descrambler Ipl.
#[local] Open Scope prog_scope.
(** Sizes of two megabytes are never computed in unary. *)
#[local] Opaque Z.to_nat tinf_crc32 csp_crc32_memory load_mem.

(** ** The table *)

Lemma find_bios_spec rows crc sda_ : forall i,
  match find_bios rows i crc sda_ with
  | Some k => (i <= k)%nat /\ exists b, rows !! (k - i)%nat = Some b /\ bios_matches crc sda_ b = true
  | None => forallb (fun b => negb (bios_matches crc sda_ b)) rows = true
  end.
Proof.
  induction rows as [|b rows IH]; intros i; cbn [find_bios forallb]; [done|].
  destruct (bios_matches crc sda_ b) eqn:Eb.
  - split; [lia|]. exists b. by rewrite Nat.sub_diag.
  - specialize (IH (S i)). destruct (find_bios rows (S i) crc sda_) as [k|]; [|done].
    destruct IH as (Hk & b' & Hl & Hb). split; [lia|]. exists b'.
    replace (k - i)%nat with (S (k - S i)) by lia. done.
Qed.

Section Load.
Context {W : Type} `{FileOpens W}.
Hypothesis returns : device_returns W.

Lemma bios_short : short_path bios_path.
Proof. split; [cstr_lit|vm_compute; lia]. Qed.

(** [load_file_buffer] into a buffer that is large enough. *)
Lemma load_file_ok path addr buf (w : load_state W) : load_ok w -> short_path path ->
  (forall c, file_at (dev w) path = Some c -> Z.of_nat (length c) < 2 ^ 32 /\ (length c <= length buf)%nat) ->
  wp (load_file_buffer path addr buf) (fun rb w' => load_ok w' /\ same_files w w' /\ length rb.2 = length buf /\
    (rb.1 = 0 -> exists c, file_at (dev w) path = Some c /\ rb.2 = splice 0 c buf)) w.
Proof.
  intros Hok Hp Hfit.
  destruct (load_file_buffer_spec returns path addr buf w Hok Hp Hfit) as (r & b & w' & E & Hs & _ & Hok' & Hl & Hc).
  unfold wp. by rewrite E.
Qed.
End Load.

(** ** Loading the IPL *)

Lemma size_of_file (c : list Z) : Z.of_nat (length c) < 2 ^ 31 -> s32 (u32 (Z.of_nat (length c))) = Z.of_nat (length c).
Proof. intros. unfold s32. rewrite !u32_small; [bcase; lia|lia|]. rewrite u32_small; lia. Qed.

Section Ipl.
Context {W : Type} `{FileOpens W}.
Context (read_rom : Z -> Z -> list Z) (get_device : W -> option (list Z)) (tv bios_addr : Z) (polls : dsp -> list Z).
Hypothesis returns : device_returns W.
Hypothesis polls_end : forall d, is_Some (ARWaitForDMA (polls d)).
Hypothesis rom_length : length (read_rom IPL_SIZE 0) = Z.to_nat IPL_SIZE.
Implicit Types w : ipl_state W.

(** The files are not too large to count, the buffer has its size. *)
Record ipl_ready w : Prop := {
  ir_load : load_ok (ip_files w);
  ir_file : forall c, file_at (dev (ip_files w)) bios_path = Some c -> Z.of_nat (length c) < 2 ^ 31;
  ir_buffer : length (bios_buffer w) = Z.to_nat IPL_SIZE }.
Definition same_ipl_files w w' : Prop := same_files (ip_files w) (ip_files w').

(** The code part of an image, in memory. *)
Definition with_image (img : list Z) (m : Z -> Z) : Z -> Z :=
  store_mem BS2_BASE_ADDR (slice (Z.to_nat BS2_CODE_OFFSET) (Z.to_nat bs2_size) (default [] (descramble_image img))) m.
Definition is_file w img : Prop :=
  file_at (dev (ip_files w)) bios_path = Some img /\ length img = Z.to_nat IPL_SIZE.

Lemma descramble_image_ok b : length b = Z.to_nat IPL_SIZE ->
  exists b', descramble_image b = Some b' /\ length b' = length b.
Proof.
  intros Hl. unfold descramble_image.
  assert (Hd : length (drop (Z.to_nat DECRYPT_START) b) = Z.to_nat (IPL_SIZE - DECRYPT_START)).
  { rewrite length_drop, Hl. unfold IPL_SIZE, DECRYPT_START. lia. }
  rewrite Descrambler_spec.
  2:{ rewrite Hd. unfold IPL_SIZE, DECRYPT_START, IPL_ROM_FONT_SJIS. lia. }
  cbn [mbind option_bind]. eexists. split; [done|]. rewrite length_app, length_splice, Hd, length_take, Hl.
  - unfold IPL_SIZE, DECRYPT_START. lia.
  - rewrite length_zip_with, length_key_stream, length_take, Hd. unfold IPL_SIZE, DECRYPT_START, IPL_ROM_FONT_SJIS. lia.
Qed.

#[local] Opaque descramble_image.

Lemma place_bs2_ok w : ipl_ready w ->
  wp place_bs2 (fun _ w' => ipl_ready w' /\ same_ipl_files w w' /\ bios_index w' = bios_index w /\
    ip_mem w' = with_image (bios_buffer w) (ip_mem w)) w.
Proof.
  intros [R1 R2 R3]. unfold place_bs2. apply wp_bind, wp_get, wp_bind.
  destruct (descramble_image_ok (bios_buffer w) R3) as (b & Eb & Hb). unfold of_option, wp at 1. rewrite Eb.
  apply wp_bind, wp_modify, wp_modify. split.
  { split; [done|done|]. cbn. congruence. }
  split; [done|]. split; [done|]. unfold with_image. by rewrite Eb.
Qed.

Lemma get_size_ok w : ipl_ready w ->
  wp (on_ip_files (get_file_size bios_path)) (fun r w' => ipl_ready w' /\ same_ipl_files w w' /\
    bios_index w' = bios_index w /\ bios_buffer w' = bios_buffer w /\ ip_mem w' = ip_mem w /\
    (r = SD_FAIL \/ exists c, file_at (dev (ip_files w)) bios_path = Some c /\ r = Z.of_nat (length c))) w.
Proof.
  intros [R1 R2 R3]. unfold on_ip_files. apply wp_zoom.
  destruct (get_file_size_spec returns bios_path (ip_files w) R1 bios_short) as (r & l & E & Hok & Hs & Hr).
  unfold wp. rewrite E. split.
  { split; [done| |done]. intros c. cbn. rewrite Hs. apply R2. }
  repeat (split; [done|]). destruct Hr as [[-> _]|(c & Hc & -> & _)]; [by left|]. right. exists c.
  split; [done|]. by apply size_of_file, R2.
Qed.

Lemma load_bios_ok w c : ipl_ready w -> file_at (dev (ip_files w)) bios_path = Some c -> length c = Z.to_nat IPL_SIZE ->
  wp (load_bios bios_addr) (fun r w' => ipl_ready w' /\ same_ipl_files w w' /\ bios_index w' = bios_index w /\
    ip_mem w' = ip_mem w /\ (r = 0 -> bios_buffer w' = c)) w.
Proof.
  intros [R1 R2 R3] Hc Hl. unfold load_bios. apply wp_bind, wp_get, wp_bind. unfold on_ip_files. apply wp_zoom.
  eapply wp_mono; [apply (load_file_ok returns bios_path bios_addr); [done|exact bios_short|]|].
  { intros c'. rewrite Hc. intros [= <-]. specialize (R2 c Hc). lia. }
  intros [r b] l (Hok & Hs & Hb & Hres). cbn [fst snd] in *. apply wp_bind, wp_modify, wp_ret. split.
  { split; [done| |cbn; congruence]. intros c'. cbn. rewrite Hs. apply R2. }
  repeat (split; [done|]). intros Hr0. destruct (Hres Hr0) as (c' & Hc' & Eb). cbn.
  rewrite Hc in Hc'. injection Hc' as <-. rewrite Eb. unfold splice.
  rewrite take_0, app_nil_l, drop_ge by lia. apply app_nil_r.
Qed.

Lemma identify_ok crc w :
  wp (identify crc) (fun ok w' => ip_files w' = ip_files w /\ bios_buffer w' = bios_buffer w /\ ip_ram w' = ip_ram w /\
    if ok : bool then exists b, current_bios w' = Some b /\ dirty_crc b = crc /\ sda b = get_sda_address (ip_mem w)
    else forallb (fun b => negb (bios_matches crc (get_sda_address (ip_mem w)) b)) bios_table = true) w.
Proof.
  unfold identify. apply wp_bind, wp_get.
  pose proof (find_bios_spec bios_table crc (get_sda_address (ip_mem w)) 0) as Hf.
  destruct (find_bios bios_table 0 crc _) as [k|].
  - apply wp_bind, wp_modify, wp_bind, wp_modify, wp_ret. repeat (split; [done|]).
    destruct Hf as (_ & b & Hb & Hm). exists b. rewrite Nat.sub_0_r in Hb. split.
    { unfold current_bios. cbn [bios_index set_valid set_bios_index]. by rewrite Nat2Z.id. }
    unfold bios_matches in Hm. apply andb_true_iff in Hm as [?%Z.eqb_eq ?%Z.eqb_eq]. done.
  - apply wp_bind, wp_modify, wp_ret. done.
Qed.

(** The memory in which the IPL is looked for: what auxiliary RAM held over what
    was there, and, where that carries no note, the code of an image over it. *)
Definition fetched w : Z -> Z :=
  store_mem BS2_BASE_ADDR (load_mem 0xe00000 (Z.to_nat 0x200000) (ss_aram (ip_ram w))) (ip_mem w).
Definition found (m0 : Z -> Z) (img : list Z) : Z -> Z :=
  if meta_magic m0 =? METADATA_MAGIC then m0 else with_image img (zero_mem METADATA_ADDR 16 m0).
Definition found_size (m0 : Z -> Z) (img : list Z) : Z :=
  if meta_magic m0 =? METADATA_MAGIC then meta_code_size m0 else u32 (code_end_addr (found m0 img) - 0x81300000).
Definition wiped (m : Z -> Z) : Z -> Z := zero_mem METADATA_ADDR 16 m.

Lemma meta_magic_set m : meta_magic (set_meta_magic METADATA_MAGIC m) = METADATA_MAGIC.
Proof. unfold meta_magic, set_meta_magic. rewrite !store_mem_in by (cbn; lia). reflexivity. Qed.
Lemma meta_words v m : 0 <= v < 2 ^ 32 ->
  meta_magic (set_meta_code_size v m) = meta_magic m /\ meta_code_size (set_meta_code_size v m) = v /\
  forall x, wiped (set_meta_code_size v m) x = wiped m x.
Proof.
  intros Hv. split; [|split].
  - unfold meta_magic, set_meta_code_size, store_word. rewrite !store_mem_out by (cbn; lia). done.
  - unfold meta_code_size, set_meta_code_size, load_word, store_word.
    rewrite (load_mem_eq (METADATA_ADDR + 8) (be32_bytes v)). by apply be32_be32_bytes.
  - intros x. unfold wiped. rewrite !zero_mem_spec. case_decide; [done|].
    apply store_mem_out. cbn [length be32_bytes]. lia.
Qed.

Lemma sda_ext m m' : (forall x, m x = m' x) -> get_sda_address m = get_sda_address m'.
Proof. intros Hm. unfold get_sda_address. by rewrite !(load_word_ext _ _ _ Hm). Qed.
#[local] Opaque get_sda_address.
Lemma code_end_magic m : code_end_addr (set_meta_magic METADATA_MAGIC m) = code_end_addr m.
Proof. unfold code_end_addr, set_meta_magic. rewrite !load_word_out by (unfold METADATA_ADDR; cbn; lia). done. Qed.
Lemma wiped_magic m x : wiped (set_meta_magic METADATA_MAGIC m) x = wiped m x.
Proof.
  unfold wiped. rewrite !zero_mem_spec. case_decide; [done|]. apply store_mem_out. cbn [length]. lia.
Qed.

Lemma ensure_ok w : ipl_ready w ->
  wp (ensure_ipl_loaded read_rom bios_addr) (fun _ w' => ipl_ready w' /\ same_ipl_files w w' /\
    exists img, (is_file w img \/ img = read_rom IPL_SIZE 0) /\
      meta_magic (ip_mem w') = METADATA_MAGIC /\ meta_code_size (ip_mem w') = found_size (ip_mem w) img /\
      forall x, wiped (ip_mem w') x = wiped (found (ip_mem w) img) x) w.
Proof.
  intros Hr. unfold ensure_ipl_loaded. apply wp_bind, wp_get.
  destruct (Z.eqb_spec (meta_magic (ip_mem w)) METADATA_MAGIC) as [Em|Em].
  { apply wp_ret. split; [done|]. split; [done|]. exists (read_rom IPL_SIZE 0). split; [by right|].
    unfold found_size, found. rewrite Em, Z.eqb_refl. done. }
  apply wp_bind, wp_modify. set (w1 := change_ip_mem _ w).
  assert (Hr1 : ipl_ready w1) by (destruct Hr; by split).
  apply wp_bind. eapply wp_mono; [by apply get_size_ok|].
  intros size w2 (Hr2 & Hs2 & _ & Hb2 & Hm2 & Hsize).
  (* the image is in the buffer *)
  enough (Himg : forall w3 img, ipl_ready w3 -> same_ipl_files w w3 -> ip_mem w3 = ip_mem w1 -> bios_buffer w3 = img ->
    (is_file w img \/ img = read_rom IPL_SIZE 0) ->
    wp (place_bs2 ;; modify (change_ip_mem (set_meta_magic METADATA_MAGIC)) ;;
        modify (fun w => change_ip_mem (set_meta_code_size (u32 (code_end_addr (ip_mem w) - 0x81300000))) w))
      (fun _ w' => ipl_ready w' /\ same_ipl_files w w' /\
        exists img, (is_file w img \/ img = read_rom IPL_SIZE 0) /\
          meta_magic (ip_mem w') = METADATA_MAGIC /\ meta_code_size (ip_mem w') = found_size (ip_mem w) img /\
          forall x, wiped (ip_mem w') x = wiped (found (ip_mem w) img) x) w3).
  { assert (Hrom : forall w3, ipl_ready w3 -> same_ipl_files w w3 -> ip_mem w3 = ip_mem w1 ->
      ipl_ready (set_bios_buffer (splice 0 (read_rom IPL_SIZE 0) (bios_buffer w3)) w3) /\
      splice 0 (read_rom IPL_SIZE 0) (bios_buffer w3) = read_rom IPL_SIZE 0).
    { intros w3 [R1 R2 R3] _ _. assert (E : splice 0 (read_rom IPL_SIZE 0) (bios_buffer w3) = read_rom IPL_SIZE 0).
      { unfold splice. rewrite take_0, app_nil_l, drop_ge by (rewrite R3, rom_length; lia). apply app_nil_r. }
      split; [|done]. split; [done|done|]. cbn. by rewrite E. }
    destruct (Z.eqb_spec size IPL_SIZE) as [Es|Es]; cbn [negb].
    - destruct Hsize as [E|(c & Hc & El)]; [rewrite E in Es; done|]. assert (Hlc : length c = Z.to_nat IPL_SIZE) by lia.
      apply wp_bind, wp_bind.
      eapply wp_mono; [apply (load_bios_ok w2 c Hr2); [by rewrite (Hs2 bios_path)|done]|].
      intros r w3 (Hr3 & Hs3 & _ & Hm3 & Hb3). apply wp_ret.
      assert (Hsw3 : same_ipl_files w w3) by (intros q; by rewrite (Hs3 q), (Hs2 q)).
      assert (Hmw3 : ip_mem w3 = ip_mem w1) by (rewrite Hm3; exact Hm2).
      destruct (Z.eqb_spec r 0) as [->|Hne]; cbn [negb].
      + apply wp_bind, wp_ret. apply (Himg w3 c); try done; [by apply Hb3|]. left. by split.
      + apply wp_bind, wp_modify. destruct (Hrom w3 Hr3 Hsw3 Hmw3) as [Hr4 Eb].
        apply (Himg _ (read_rom IPL_SIZE 0)); try done. by right.
    - apply wp_bind, wp_ret. apply wp_bind, wp_modify. destruct (Hrom w2 Hr2 Hs2 Hm2) as [Hr4 Eb].
      apply (Himg _ (read_rom IPL_SIZE 0)); try done. by right. }
  clear dependent w2. intros w3 img Hr3 Hs3 Hm3 Hb3 Hsrc.
  apply wp_bind. eapply wp_mono; [by apply place_bs2_ok|]. intros _ w4 (Hr4 & Hs4 & _ & Hm4).
  apply wp_bind, wp_modify, wp_modify.
  assert (Ef : ip_mem w4 = found (ip_mem w) img).
  { rewrite Hm4, Hm3, Hb3. unfold found. by rewrite (proj2 (Z.eqb_neq _ _) Em). }
  split; [destruct Hr4; by split|]. split; [intros q; by rewrite <- (Hs3 q), <- (Hs4 q)|].
  exists img. split; [done|]. cbn [ip_mem ip_ram change_ip_mem set_ip_ram set_ss_mem ss_mem].
  change (ss_mem (ip_ram w4)) with (ip_mem w4). rewrite code_end_magic, Ef.
  destruct (meta_words (u32 (code_end_addr (found (ip_mem w) img) - 0x81300000))
    (set_meta_magic METADATA_MAGIC (found (ip_mem w) img))) as (-> & -> & Hw); [apply u32_range|].
  split; [apply meta_magic_set|]. split.
  { unfold found_size. by rewrite (proj2 (Z.eqb_neq _ _) Em). }
  intros x. by rewrite Hw, wiped_magic.
Qed.

(** The one word the loader changes in the code it starts. *)
Definition patched w' (m : Z -> Z) : Z -> Z :=
  match get_device (dev (ip_files w')) with
  | None => m
  | Some d =>
      match probe_patch d (Z.to_nat (bios_index w')) with
      | Some (a, v) => store_word a v m
      | None => m
      end
  end.

Lemma patched_ext w' m m' x : (forall y, m y = m' y) -> patched w' m x = patched w' m' x.
Proof.
  intros Hm. unfold patched. destruct (get_device _) as [d|]; [|done].
  destruct (probe_patch d _) as [[a v]|]; [|done]. apply store_mem_ext, Hm.
Qed.

Lemma finish_ipl_ok w b : current_bios w = Some b -> 0 <= bios_index w ->
  wp (finish_ipl get_device tv) (fun o w' => o = Loaded /\ current_bios w' = Some b /\
    forall x, ip_mem w' x = patched w' (ip_mem w) x) w.
Proof.
  intros Hb Hi. unfold finish_ipl, post_ipl_loaded. apply wp_bind, wp_bind, wp_get, wp_bind.
  unfold of_option, wp at 1. rewrite Hb.
  match goal with |- wp ?m _ _ => set (w1 := m) end.
  assert (Hw1 : wp w1 (fun _ w' => exists r, w' = set_rmode r w) w).
  { unfold w1. destruct (_ && _); [apply wp_modify; by eexists|apply wp_ret; exists (rmode w); by destruct w]. }
  eapply wp_mono; [exact Hw1|]. intros _ w2 [r ->]. apply wp_bind. unfold apply_additional_patches.
  apply wp_bind, wp_get. cbn [bios_index ip_files set_rmode]. rewrite (proj2 (Z.ltb_ge _ _) Hi).
  unfold patched. destruct (get_device (dev (ip_files w))) as [d|] eqn:Ed.
  2:{ apply wp_ret, wp_ret. cbn [ip_files bios_index set_rmode]. rewrite Ed. done. }
  destruct (probe_patch d (Z.to_nat (bios_index w))) as [[a v]|] eqn:Ep.
  - apply wp_modify, wp_ret. cbn [ip_files bios_index set_rmode change_ip_mem set_ip_ram]. rewrite Ed, Ep. done.
  - apply wp_ret, wp_ret. cbn [ip_files bios_index set_rmode]. rewrite Ed, Ep. done.
Qed.

Lemma identify_index crc w :
  wp (identify crc) (fun ok w' => ok = true -> 0 <= bios_index w') w.
Proof.
  unfold identify. apply wp_bind, wp_get. destruct (find_bios _ _ _ _) as [k|].
  - apply wp_bind, wp_modify, wp_bind, wp_modify, wp_ret. cbn. lia.
  - apply wp_bind, wp_modify, wp_ret. done.
Qed.
Lemma wp_both {S A} (m : M S A) (Q R : A -> S -> Prop) s : wp m Q s -> wp m R s -> wp m (fun a s => Q a s /\ R a s) s.
Proof. unfold wp. by destruct (m s) as [[a s']|]. Qed.

(** The file as a last resort. *)
Lemma load_ipl_file_ok w : ipl_ready w ->
  wp (load_ipl_file bios_addr) (fun o w' => match o with
    | Loaded => exists f b, is_file w f /\ current_bios w' = Some b /\ 0 <= bios_index w' /\
        ip_mem w' = with_image f (ip_mem w) /\ sda b = get_sda_address (ip_mem w') /\
        dirty_crc b = csp_crc32_memory (load_mem BS2_BASE_ADDR (Z.to_nat bs2_size) (ip_mem w'))
    | Halted => True
    | Exited => False
    end) w.
Proof.
  intros Hr. unfold load_ipl_file. apply wp_bind. eapply wp_mono; [by apply get_size_ok|].
  intros size w1 (Hr1 & Hs1 & _ & Hb1 & Hm1 & Hsize).
  destruct (Z.eqb_spec size SD_FAIL) as [|Hne]; [by apply wp_ret|].
  destruct (Z.eqb_spec size IPL_SIZE) as [Es|Es]; cbn [negb]; [|by apply wp_ret].
  destruct Hsize as [?|(c & Hc & El)]; [done|]. assert (Hlc : length c = Z.to_nat IPL_SIZE) by lia.
  apply wp_bind. eapply wp_mono; [apply (load_bios_ok w1 c Hr1); [by rewrite (Hs1 bios_path)|done]|].
  intros r w2 (Hr2 & Hs2 & _ & Hm2 & Hb2). destruct (Z.eqb_spec r 0) as [E0|]; cbn [negb]; [|by apply wp_ret].
  apply wp_bind. eapply wp_mono; [by apply place_bs2_ok|]. intros _ w3 (Hr3 & Hs3 & _ & Hm3).
  apply wp_bind, wp_get, wp_bind. set (crc := csp_crc32_memory _).
  eapply wp_mono; [apply (wp_both _ _ _ _ (identify_ok crc w3) (identify_index crc w3))|].
  intros ok w4 [(Hf4 & _ & Hm4 & Hok) Hi]. apply wp_ret. destruct ok; [|done].
  destruct Hok as (b & Hb & Hcrc & Hsda). exists c, b. split; [exact (conj Hc Hlc)|]. split; [exact Hb|]. split; [exact (Hi eq_refl)|].
  assert (E : ip_mem w4 = ip_mem w3) by exact (f_equal ss_mem Hm4).
  rewrite E. split.
  - rewrite Hm3, Hm2, Hm1, (Hb2 E0). reflexivity.
  - split; [exact Hsda|]. unfold crc in Hcrc. exact Hcrc.
Qed.

(** The code in memory is one of the seven: its data area's address is the
    row's, and one of its checksums is. *)
Definition known (b : bios_item_t) (crc : Z) (m : Z -> Z) : Prop := sda b = get_sda_address m /\ dirty_crc b = crc.

Lemma with_image_ext img m m' x : m x = m' x -> with_image img m x = with_image img m' x.
Proof. apply store_mem_ext. Qed.
#[local] Opaque found found_size with_image.
Lemma load_ipl_ok dolphin w : ipl_ready w ->
  wp (load_ipl read_rom get_device tv bios_addr polls dolphin) (fun o w' =>
    exists img, (is_file w img \/ img = read_rom IPL_SIZE 0) /\
    let m := wiped (found (fetched w) img) in
    let crc := tinf_crc32 (load_mem BS2_BASE_ADDR (Z.to_nat (found_size (fetched w) img)) m) in
    match o with
    | Exited => False
    | Loaded => exists b, current_bios w' = Some b /\
        (known b crc m /\ (forall x, ip_mem w' x = patched w' m x) \/
         exists f, is_file w f /\
           known b (csp_crc32_memory (load_mem BS2_BASE_ADDR (Z.to_nat bs2_size) (with_image f m))) (with_image f m) /\
           forall x, ip_mem w' x = patched w' (with_image f m) x)
    | Halted => forallb (fun b => negb (bios_matches crc (get_sda_address m) b)) bios_table = true
    end) w.
Proof.
  intros Hr. unfold load_ipl. apply wp_bind. unfold on_ram. apply wp_zoom.
  eapply wp_mono; [apply (fetch_ok polls polls_end); unfold BS2_BASE_ADDR; (done || lia)|].
  intros _ s1 [_ Em1]. set (w1 := set_ip_ram s1 w).
  assert (E1 : ip_mem w1 = fetched w) by exact Em1.
  assert (Hr1 : ipl_ready w1) by (destruct Hr as [R1 R2 R3]; split; [exact R1|exact R2|exact R3]).
  apply wp_bind. eapply wp_mono; [by apply ensure_ok|].
  intros _ w2 (Hr2 & Hs2 & img & Hsrc & Hmagic & Hsize & Hm2). rewrite E1 in Hsize, Hm2.
  apply wp_bind, wp_get, wp_bind, wp_modify. rewrite Hmagic, Hsize. change (negb (METADATA_MAGIC =? METADATA_MAGIC)) with false.
  set (w3 := change_ip_mem _ w2). assert (Hr3 : ipl_ready w3) by (destruct Hr2 as [R1 R2 R3]; split; [exact R1|exact R2|exact R3]).
  assert (Hm3 : forall x, ip_mem w3 x = wiped (found (fetched w) img) x) by exact Hm2.
  assert (Hf3 : ip_files w3 = ip_files w2) by reflexivity.
  clearbody w3. set (m := wiped (found (fetched w) img)) in *. set (n := Z.to_nat (found_size (fetched w) img)).
  assert (Ecrc : load_mem BS2_BASE_ADDR n (ip_mem w3) = load_mem BS2_BASE_ADDR n m) by (apply load_mem_ext; intros y _; apply Hm3).
  assert (Esda : get_sda_address (ip_mem w3) = get_sda_address m) by (apply sda_ext; intros y; apply Hm3).
  apply wp_bind, wp_get, wp_bind. rewrite Ecrc. set (crc := tinf_crc32 _).
  eapply wp_mono; [apply (wp_both _ _ _ _ (identify_ok crc w3) (identify_index crc w3))|].
  intros ok w4 [(Hf4 & Hb4 & Hm4 & Hok) Hi]. rewrite Esda in Hok.
  assert (E4 : ip_mem w4 = ip_mem w3) by exact (f_equal ss_mem Hm4).
  assert (Hs4 : same_ipl_files w w4) by (intros q; rewrite Hf4, Hf3; exact (Hs2 q)).
  destruct ok.
  - destruct Hok as (b & Hb & Hcrc & Hsda). eapply wp_mono; [exact (finish_ipl_ok w4 b Hb (Hi eq_refl))|].
    intros o w5 (-> & Hb5 & Hm5). exists img. split; [exact Hsrc|]. fold m n crc. exists b. split; [exact Hb5|]. left.
    split; [exact (conj Hsda Hcrc)|]. intros x. rewrite Hm5. apply patched_ext. intros y. rewrite E4. apply Hm3.
  - assert (Hr4 : ipl_ready w4).
    { destruct Hr3 as [R1 R2 R3]. split; rewrite ?Hf4, ?Hb4; [exact R1|exact R2|exact R3]. }
    apply wp_bind. eapply wp_mono; [by apply load_ipl_file_ok|].
    intros o w5 Ho. destruct o; [|destruct Ho|].
    + destruct Ho as (f & b & Hf & Hb & Hi5 & Hm5 & Hsda & Hcrc).
      assert (E5 : forall x, ip_mem w5 x = with_image f m x).
      { intros x. rewrite Hm5, E4. apply with_image_ext, Hm3. }
      rewrite (sda_ext _ _ E5) in Hsda. rewrite (load_mem_ext BS2_BASE_ADDR (Z.to_nat bs2_size) _ (with_image f m) (fun x _ => E5 x)) in Hcrc.
      eapply wp_mono; [exact (finish_ipl_ok w5 b Hb Hi5)|].
      intros o w6 (-> & Hb6 & Hm6). exists img. split; [exact Hsrc|]. fold m n crc. exists b. split; [exact Hb6|]. right.
      exists f. split; [destruct Hf as [Hf ?]; split; [rewrite <- (Hs4 bios_path); exact Hf|assumption]|].
      split; [exact (conj Hsda Hcrc)|]. intros x. rewrite Hm6. apply patched_ext. exact E5.
    + apply wp_ret. exists img. split; [exact Hsrc|]. fold m n crc. exact Hok.
Qed.
End Ipl.

(** C34. Only the IPLs the loader knows are started.  Whatever memory, auxiliary
    RAM, the file and the boot ROM hold, over storage whose calls return and
    auxiliary RAM whose transfers end, [load_ipl] returns; it never leaves
    through the exit for a missing note, because the note is made when it is
    missing.  When it comes back with an IPL, the code at 0x81300000 - from
    auxiliary RAM where that carries the note, or descrambled from the file or
    the ROM, or from the file in a second attempt - has the small data area and
    the checksum of the row it has chosen, and has not been changed but for the
    one word over the probe of the memory card slot in use.  It stops with a
    message only if the code found first has the checksum and small data area of
    none of the rows. *)
Theorem ipl_is_known {W} `{FileOpens W} read_rom get_device tv bios_addr polls dolphin (w : ipl_state W)
    (Hreturns : device_returns W)
    (Hpolls : forall d, is_Some (ARWaitForDMA (polls d)))
    (Hrom : length (read_rom IPL_SIZE 0) = Z.to_nat IPL_SIZE)
    (Hready : ipl_ready w) :
  exists o w', load_ipl read_rom get_device tv bios_addr polls dolphin w = Some (o, w') /\
    exists img, (is_file w img \/ img = read_rom IPL_SIZE 0) /\
    let m := wiped (found (fetched w) img) in
    let crc := tinf_crc32 (load_mem BS2_BASE_ADDR (Z.to_nat (found_size (fetched w) img)) m) in
    match o with
    | Exited => False
    | Loaded => exists b, current_bios w' = Some b /\
        (known b crc m /\ (forall x, ip_mem w' x = patched get_device w' m x) \/
         exists f, is_file w f /\
           known b (csp_crc32_memory (load_mem BS2_BASE_ADDR (Z.to_nat bs2_size) (with_image f m))) (with_image f m) /\
           forall x, ip_mem w' x = patched get_device w' (with_image f m) x)
    | Halted => forallb (fun b => negb (bios_matches crc (get_sda_address m) b)) bios_table = true
    end.
Proof. apply wp_elim, load_ipl_ok; assumption. Qed.

(** A console without a file and with an empty boot ROM, whose auxiliary RAM holds
    a noted piece of code with the checksum and small data area of the second row. *)
Definition known_aram : Z -> Z :=
  store_mem 0xe00000 [172; 109; 118; 33]
    (store_mem 0xe000a8 [0x3c; 0xa0; 0x81; 0x48; 0x60; 0xa5; 0x91; 0x20]
      (store_mem 0xfffff0 ([0xc0; 0xde; 0; 0; 0; 0; 0; 0] ++ be32_bytes 4) (fun _ => 0))).
Definition known_console : ipl_state sim_dev :=
  mk_ipl (mk_load (replicate (Z.to_nat FD_IPC_MAXRESP) 0) 0 0 (replicate file_status_size 0) ([], []))
    (replicate (Z.to_nat IPL_SIZE) 0) (mk_ss (fun _ => 0) known_aram (mk_dsp (fun _ => 0) [])) (-1) false
    TVNtsc480IntDf.
Definition empty_rom (len offset : Z) : list Z := replicate (Z.to_nat len) 0.
Definition ntsc_11_row : bios_item_t :=
  mk_bios IPL_NTSC_11 IPL_NTSC (str "gc-ntsc-11") (str "ntsc11") (str "VER_NTSC_11") 0x6cd1acb5 0x53faeffc 0x81489120.

Definition known_code (x : Z) : Z := known_aram (0xe00000 + (x - BS2_BASE_ADDR)).
Lemma known_fetched x : BS2_BASE_ADDR <= x < BS2_BASE_ADDR + 0x200000 -> fetched known_console x = known_code x.
Proof.
  intros Hx. unfold fetched. rewrite store_mem_in by (rewrite length_load_mem, Z2Nat.id; lia).
  rewrite load_mem_nth by lia. unfold known_code. cbn [ss_aram ip_ram known_console]. f_equal. lia.
Qed.
Lemma known_load a n : BS2_BASE_ADDR <= a -> a + Z.of_nat n <= BS2_BASE_ADDR + 0x200000 ->
  load_mem a n (fetched known_console) = load_mem a n known_code.
Proof. intros. apply load_mem_ext. intros x Hx. apply known_fetched. lia. Qed.
Lemma known_magic : meta_magic (fetched known_console) = METADATA_MAGIC.
Proof.
  unfold meta_magic. rewrite !known_fetched by (unfold METADATA_ADDR, BS2_BASE_ADDR; lia). vm_compute. reflexivity.
Qed.
Lemma known_found img : found (fetched known_console) img = fetched known_console.
Proof. unfold found. by rewrite known_magic. Qed.
Lemma known_size img : found_size (fetched known_console) img = 4.
Proof.
  unfold found_size. rewrite known_magic. change (METADATA_MAGIC =? METADATA_MAGIC) with true.
  unfold meta_code_size, load_word. rewrite known_load by (unfold METADATA_ADDR, BS2_BASE_ADDR; lia).
  vm_compute. reflexivity.
Qed.
Lemma known_wiped a n : BS2_BASE_ADDR <= a -> a + Z.of_nat n <= METADATA_ADDR ->
  load_mem a n (wiped (fetched known_console)) = load_mem a n known_code.
Proof.
  intros H1 H2. unfold METADATA_ADDR in H2. rewrite <- known_load by (unfold BS2_BASE_ADDR in *; lia).
  apply load_mem_ext. intros x Hx. unfold wiped. rewrite zero_mem_spec, decide_False; [done|].
  unfold METADATA_ADDR. lia.
Qed.
Lemma four_bytes_crc n m : n = 4%nat -> load_mem BS2_BASE_ADDR 4 m = load_mem BS2_BASE_ADDR 4 known_code ->
  tinf_crc32 (load_mem BS2_BASE_ADDR n m) = 0x53faeffc.
Proof. intros -> ->. vm_compute. reflexivity. Qed.
Lemma known_four img : load_mem BS2_BASE_ADDR 4 (wiped (found (fetched known_console) img)) = load_mem BS2_BASE_ADDR 4 known_code.
Proof. rewrite known_found. apply known_wiped; vm_compute; discriminate. Qed.
Lemma known_crc img :
  tinf_crc32 (load_mem BS2_BASE_ADDR (Z.to_nat (found_size (fetched known_console) img))
    (wiped (found (fetched known_console) img))) = 0x53faeffc.
Proof.
  apply four_bytes_crc; [|apply known_four].
  exact (eq_trans (f_equal Z.to_nat (known_size img)) eq_refl).
Qed.
Lemma known_sda img : get_sda_address (wiped (found (fetched known_console) img)) = 0x81489120.
Proof.
  rewrite known_found. unfold get_sda_address.
  assert (Hw : forall a, BS2_BASE_ADDR <= a -> a + 4 <= METADATA_ADDR ->
    load_word a (wiped (fetched known_console)) = load_word a known_code).
  { intros a H1 H2. unfold load_word. by rewrite known_wiped. }
  rewrite (Hw STACK_SETUP_ADDR ltac:(vm_compute; discriminate) ltac:(vm_compute; discriminate)).
  assert (E : load_word STACK_SETUP_ADDR known_code = 0) by (vm_compute; reflexivity). rewrite E.
  change (0 =? 0x38000000) with false. cbv iota zeta.
  rewrite (Hw SDA_LOAD_ADDR_A ltac:(vm_compute; discriminate) ltac:(vm_compute; discriminate)).
  rewrite (Hw (SDA_LOAD_ADDR_A + 4) ltac:(vm_compute; discriminate) ltac:(vm_compute; discriminate)).
  assert (E1 : load_word SDA_LOAD_ADDR_A known_code = 0x3ca08148) by (vm_compute; reflexivity).
  assert (E2 : load_word (SDA_LOAD_ADDR_A + 4) known_code = 0x60a59120) by (vm_compute; reflexivity).
  rewrite E1, E2. reflexivity.
Qed.
(** The second row is the only one for it. *)
Lemma known_row b : b ∈ bios_table -> known b 0x53faeffc (wiped (fetched known_console)) -> b = ntsc_11_row.
Proof.
  intros Hb [_ Hc]. unfold bios_table in Hb. rewrite !elem_of_cons in Hb.
  destruct Hb as [->|[->|[->|[->|[->|[->|[->|Hb]]]]]]]; try discriminate Hc; [reflexivity..|].
  by apply elem_of_nil in Hb.
Qed.
Lemma known_matches img : forallb (fun b => negb (bios_matches
    (tinf_crc32 (load_mem BS2_BASE_ADDR (Z.to_nat (found_size (fetched known_console) img))
       (wiped (found (fetched known_console) img))))
    (get_sda_address (wiped (found (fetched known_console) img))) b)) bios_table = true -> False.
Proof. rewrite known_crc, known_sda. intros Hf. vm_compute in Hf. discriminate Hf. Qed.
Lemma known_ready : ipl_ready known_console.
Proof. split; [split; [exact I|apply length_replicate|reflexivity]|discriminate|apply length_replicate]. Qed.

Lemma ipl_is_known_witness : exists w',
  load_ipl empty_rom (fun _ => Some (str "sdb")) 0 0x80400000 (fun _ => [0x200; 0]) false known_console = Some (Loaded, w') /\
  exists b, current_bios w' = Some b.
Proof.
  destruct (ipl_is_known empty_rom (fun _ => Some (str "sdb")) 0 0x80400000
    (fun _ => [0x200; 0]) false known_console) as (o & w' & E & img & _ & Ho).
  - exact sim_returns.
  - intros d. by eexists.
  - apply length_replicate.
  - exact known_ready.
  - destruct o; [|destruct Ho|destruct (known_matches img Ho)].
    exists w'. split; [exact E|]. destruct Ho as (b & Hb & _). exists b. exact Hb.
Defined.
