(* ===== verification/Patcher.v ===== *)
(** Putting the patches into the IPL (src/cubeboot/source/main.c, elf.c and
    [ensdwith] of helpers.c).

    The patches are one ELF image inside the program: a section for each routine
    replaced in each IPL, sections with the new code, a section [.reloc] of
    pointers to the IPL's own routines, whose addresses in each IPL the image
    gives as symbols, and variables to put the settings in.  [pt_elf] is the
    image, [pt_mem] the memory patched; they do not overlap.  The masked address
    of a section is written back into its header, as the program does. *)

From Stdlib Require Import String.
From S2P Require Import Prelude Mem CStr Ar SsAram Di Fdrv FlippyEmu FileLoad Settings Crc Descrambler Ipl.
#[local] Open Scope prog_scope.

(** ** The ELF format *)

Definition be16 (bs : list Z) (o : nat) : Z := nth o bs 0 * 2 ^ 8 + nth (o + 1) bs 0.
Definition e_shoff (elf : list Z) : Z := be32 elf 32.
Definition e_shnum (elf : list Z) : Z := be16 elf 48.
Definition e_shstrndx (elf : list Z) : Z := be16 elf 50.
Definition SHDR_SIZE : nat := 40.
Definition shdr (elf : list Z) (i : nat) : nat := Z.to_nat (e_shoff elf) + i * SHDR_SIZE.
Definition sh_name (elf : list Z) (h : nat) : Z := be32 elf h.
Definition sh_type (elf : list Z) (h : nat) : Z := be32 elf (h + 4).
Definition sh_flags (elf : list Z) (h : nat) : Z := be32 elf (h + 8).
Definition sh_addr (elf : list Z) (h : nat) : Z := be32 elf (h + 12).
Definition sh_offset (elf : list Z) (h : nat) : Z := be32 elf (h + 16).
Definition sh_size (elf : list Z) (h : nat) : Z := be32 elf (h + 20).
Definition SYM_SIZE : nat := 16.
Definition st_name (elf : list Z) (s : nat) : Z := be32 elf s.
Definition st_value (elf : list Z) (s : nat) : Z := be32 elf (s + 4).
Definition SHT_SYMTAB : Z := 2.
Definition SHT_STRTAB : Z := 3.
Definition SHT_NOBITS : Z := 8.
Definition SHF_ALLOC : Z := 2.
Definition SHN_UNDEF : Z := 0.

(** The string at an offset of the image. *)
Definition elf_str (elf : list Z) (o : Z) : list Z := cstr (drop (Z.to_nat o) elf).

(** What [main] finds first: the names of the sections, the symbols, how many,
    and their names. *)
Record tables_t := mk_tables { stringdata : Z; syment : nat; sym_count : nat; symstringdata : Z }.

Definition section_name (elf : list Z) (strings : Z) (h : nat) : list Z := elf_str elf (strings + sh_name elf h).
(** The last symbol table; the last string table called .strtab. *)
Fixpoint table_rounds (elf : list Z) (strings : Z) (rounds i : nat) (sym : option nat) (symstr : option Z) :
    option nat * option Z :=
  match rounds with
  | O => (sym, symstr)
  | S rounds =>
      let h := shdr elf i in
      let sym := if sh_type elf h =? SHT_SYMTAB then Some h else sym in
      let symstr := if (sh_type elf h =? SHT_STRTAB) && bool_decide (section_name elf strings h = str ".strtab")
                    then Some (sh_offset elf h) else symstr in
      table_rounds elf strings rounds (S i) sym symstr
  end.
Definition find_tables (elf : list Z) : option tables_t :=
  let strings := sh_offset elf (shdr elf (Z.to_nat (e_shstrndx elf))) in
  match table_rounds elf strings (Z.to_nat (e_shnum elf)) 0 None None with
  | (Some h, Some symstr) =>
      Some (mk_tables strings (Z.to_nat (sh_offset elf h)) (Z.to_nat (sh_size elf h / Z.of_nat SYM_SIZE)) symstr)
  | _ => None
  end.

(** ** Symbols *)

Definition symbol (t : tables_t) (i : nat) : nat := syment t + i * SYM_SIZE.
Definition symbol_name (elf : list Z) (t : tables_t) (i : nat) : list Z :=
  elf_str elf (symstringdata t + st_name elf (symbol t i)).
(** The value of the last symbol of this name, 0 for none. *)
Fixpoint value_rounds (elf : list Z) (t : tables_t) (rounds i : nat) (name : list Z) (value : Z) : Z :=
  match rounds with
  | O => value
  | S rounds =>
      let value :=
        if st_name elf (symbol t i) =? SHN_UNDEF then value
        else if bool_decide (symbol_name elf t i = name) then st_value elf (symbol t i) else value in
      value_rounds elf t rounds (S i) name value
  end.
Definition get_symbol_value (elf : list Z) (t : tables_t) (name : list Z) : Z :=
  value_rounds elf t (sym_count t) 0 name 0.

Definition ensdwith (s suffix : list Z) : bool :=
  if (length s <? length suffix)%nat then false else bool_decide (drop (length s - length suffix) s = suffix).

(** ** Patching *)

Record patch_state := mk_patch { pt_elf : list Z; pt_mem : Z -> Z; stringBuffer : list Z }.
Notation P := (M patch_state).
Definition set_pt_elf e (w : patch_state) := mk_patch e (pt_mem w) (stringBuffer w).
Definition change_pt_mem (f : (Z -> Z) -> Z -> Z) (w : patch_state) := mk_patch (pt_elf w) (f (pt_mem w)) (stringBuffer w).
Definition set_string_buffer b (w : patch_state) := mk_patch (pt_elf w) (pt_mem w) b.

Definition set_patch_value (t : tables_t) (name : list Z) (value : Z) : P unit :=
  w <- get ;;
  let ptr := get_symbol_value (pt_elf w) t name in
  if negb (ptr =? 0) then modify (change_pt_mem (store_word ptr value)) else ret tt.

Definition patch_prefix : list Z := str ".patch.".
Definition reloc_prefix_name : list Z := str ".reloc".
Definition is_patch (name : list Z) : bool := bool_decide (take (length patch_prefix) name = patch_prefix).
Definition patch_region_suffix (b : bios_item_t) : list Z := patch_suffix b ++ str "_func".
(** The name of the symbol with a patch's size: the section's, without the prefix
    and with [_size] in the place of [_func]. *)
Definition size_symbol (name : list Z) : P (list Z) :=
  w <- get ;;
  buf <- of_option (
    buf ← strcpy (stringBuffer w) name;
    strcat (<[(length name - 5)%nat := 0]> buf) (str "_size")) ;;
  modify (set_string_buffer buf) ;;
  ret (drop (length patch_prefix) (cstr buf)).

(** Whether a section is left out before anything else is looked at. *)
Definition not_loaded (elf : list Z) (h : nat) (name : list Z) : bool :=
  ((Z.land (sh_flags elf h) SHF_ALLOC =? 0) && negb (is_patch name)) || (sh_addr elf h =? 0) || (sh_size elf h =? 0).
Definition cached_addr (a : Z) : Z := Z.lor (Z.land a 0x3FFFFFFF) 0x80000000.

(** [memcpy] out of the image. *)
Definition copy_out (addr offset size : Z) : P unit :=
  w <- get ;;
  if decide (Z.to_nat offset + Z.to_nat size <= length (pt_elf w))%nat
  then modify (change_pt_mem (store_mem addr (slice (Z.to_nat offset) (Z.to_nat size) (pt_elf w))))
  else spin.

(** One section; [.reloc]'s extent so far. *)
Definition patch_section (t : tables_t) (b : bios_item_t) (h : nat) (reloc : Z * Z) : P (Z * Z) :=
  w <- get ;;
  let elf := pt_elf w in
  let name := section_name elf (stringdata t) h in
  if not_loaded elf h name then ret reloc
  else
    let addr := cached_addr (sh_addr elf h) in
    let size := sh_size elf h in
    let offset := sh_offset elf h in
    modify (set_pt_elf (splice (h + 12) (be32_bytes addr) elf)) ;;
    if (sh_type elf h =? SHT_NOBITS) && negb (is_patch name) then ret reloc
    else if is_patch name then
      if negb (ensdwith name (patch_region_suffix b)) then ret reloc
      else
        symbol <- size_symbol name ;;
        w <- get ;;
        let sh_size := get_symbol_value (pt_elf w) t symbol in
        copy_out addr offset (if sh_size =? 0 then size else sh_size) ;; ret reloc
    else
      copy_out addr offset size ;;
      ret (if bool_decide (name = reloc_prefix_name) then (addr, u32 (addr + size)) else reloc).
Fixpoint section_rounds (t : tables_t) (b : bios_item_t) (rounds i : nat) (reloc : Z * Z) : P (Z * Z) :=
  match rounds with
  | O => ret reloc
  | S rounds =>
      w <- get ;;
      reloc <- patch_section t b (shdr (pt_elf w) i) reloc ;;
      section_rounds t b rounds (S i) reloc
  end.

(** One pointer to a routine of the IPL; whether all went well. *)
Definition patch_reloc (t : tables_t) (b : bios_item_t) (reloc : Z * Z) (i : nat) (failed : bool) : P bool :=
  w <- get ;;
  let elf := pt_elf w in
  let s := symbol t i in
  if st_name elf s =? SHN_UNDEF then ret failed
  else if (reloc.1 <=? st_value elf s) && (st_value elf s <? reloc.2) then
    buf <- of_option (strcpy (stringBuffer w) (reloc_prefix b ++ str "_" ++ symbol_name elf t i)) ;;
    modify (set_string_buffer buf) ;;
    let val := get_symbol_value elf t (cstr buf) in
    if negb (val =? 0) then modify (change_pt_mem (store_word (st_value elf s) val)) ;; ret failed
    else ret true
  else ret failed.
Fixpoint reloc_rounds (t : tables_t) (b : bios_item_t) (reloc : Z * Z) (rounds i : nat) (failed : bool) : P bool :=
  match rounds with
  | O => ret failed
  | S rounds => failed <- patch_reloc t b reloc i failed ;; reloc_rounds t b reloc rounds (S i) failed
  end.

(** The settings. *)
Fixpoint set_values (t : tables_t) (values : list (list Z * Z)) : P unit :=
  match values with
  | [] => ret tt
  | (name, v) :: values => set_patch_value t name v ;; set_values t values
  end.
Definition copy_logo (t : tables_t) (logo : option (list Z)) : P unit :=
  w <- get ;;
  let ptr := get_symbol_value (pt_elf w) t (str "cube_logo_path") in
  match logo with
  | Some path =>
      if negb (ptr =? 0)
      then modify (change_pt_mem (fun m =>
             store_mem (ptr + 255) [0] (store_mem ptr (take 255 path ++ replicate (255 - length path) 0) m)))
      else ret tt
  | None => ret tt
  end.
Definition settings_values (s : settings_t) (force_passthrough skip_boot_animation : Z) : list (list Z * Z) :=
  [(str "start_passthrough_game", force_passthrough); (str "cube_color", cube_color s);
   (str "force_progressive", progressive_enabled s); (str "force_swiss_boot", force_swiss_default s);
   (str "skip_boot_animation", skip_boot_animation); (str "disable_mcp_select", disable_mcp_select s);
   (str "show_watermark", show_watermark s); (str "preboot_delay_ms", preboot_delay_ms s);
   (str "postboot_delay_ms", postboot_delay_ms s)].
Definition device_values (is_running_dolphin emu_sd_device : Z) : list (list Z * Z) :=
  [(str "is_running_dolphin", is_running_dolphin); (str "emu_sd_device", emu_sd_device)].

Inductive patch_outcome := Patched | Unresolved.

(** From the section loop on; [Unresolved] is [prog_halt]. *)
Definition apply_patches (t : tables_t) (b : bios_item_t) (s : settings_t)
    (force_passthrough skip_boot_animation is_running_dolphin emu_sd_device : Z) : P patch_outcome :=
  w <- get ;;
  reloc <- section_rounds t b (Z.to_nat (e_shnum (pt_elf w))) 0 (0, 0) ;;
  failed <- reloc_rounds t b reloc (sym_count t) 0 false ;;
  if failed : bool then ret Unresolved
  else
    set_values t (settings_values s force_passthrough skip_boot_animation) ;;
    copy_logo t (cube_logo s) ;;
    set_values t (device_values is_running_dolphin emu_sd_device) ;;
    ret Patched.
