(* ===== verification/PatcherThms.v ===== *)
(** What the patched memory holds. *)

From Stdlib Require Import String.
From S2P Require Import Prelude Mem Bits CStr Ar SsAram Di Fdrv FlippyEmu FileLoad Settings Crc Descrambler Ipl Patcher.
#[local] Open Scope prog_scope.

(** ** The image before the section headers does not change *)

Lemma cstr_prefix l l' n o : take n l = take n l' -> (o + length (cstr (drop o l)) < n)%nat ->
  cstr (drop o l') = cstr (drop o l).
Proof.
  revert l l' n. induction o as [|o IH]; intros l l' n Hp Hn.
  - rewrite !drop_0 in *. revert l' n Hp Hn. induction l as [|c l IHl]; intros l' n Hp Hn.
    + destruct n as [|n]; [lia|]. destruct l'; [done|]. by cbn in Hp.
    + destruct n as [|n]; [lia|]. destruct l' as [|c' l']; [done|]. injection Hp as <- Hp. cbn in *.
      destruct (c =? 0); [done|]. cbn in Hn. f_equal. apply IHl with n; [done|lia].
  - destruct l as [|c l], l' as [|c' l']; [done| | |].
    + destruct n as [|n]; [cbn in Hn; lia|]. by cbn in Hp.
    + destruct n as [|n]; [lia|]. by cbn in Hp.
    + destruct n as [|n]; [lia|]. injection Hp as <- Hp. cbn [drop] in *. apply IH with n; [done|lia].
Qed.
Lemma nth_prefix (l l' : list Z) n i : take n l = take n l' -> (i < n)%nat -> nth i l' 0 = nth i l 0.
Proof.
  intros Hp Hi. rewrite !nth_lookup, <- (lookup_take_lt l n), <- (lookup_take_lt l' n) by done. by rewrite Hp.
Qed.
Lemma be32_prefix l l' n o : take n l = take n l' -> (o + 4 <= n)%nat -> be32 l' o = be32 l o.
Proof. intros Hp Ho. unfold be32. rewrite !(nth_prefix l l' n) by (done || lia). done. Qed.
Lemma slice_take (l : list Z) n o k : (o + k <= n)%nat -> slice o k (take n l) = slice o k l.
Proof. intros Ho. unfold slice. rewrite skipn_firstn_comm, take_take. f_equal. lia. Qed.
Lemma slice_prefix (l l' : list Z) n o k : take n l = take n l' -> (o + k <= n)%nat -> slice o k l' = slice o k l.
Proof. intros Hp Ho. by rewrite <- (slice_take l' n), <- (slice_take l n), Hp. Qed.

Lemma nth_splice_out o new (l : list Z) i : (i < o \/ o + length new <= i)%nat -> (o + length new <= length l)%nat ->
  nth i (splice o new l) 0 = nth i l 0.
Proof. intros Hi Ho. by rewrite !nth_lookup, lookup_splice_out. Qed.
Lemma be32_splice_out o new (l : list Z) i : (i + 4 <= o \/ o + length new <= i)%nat -> (o + length new <= length l)%nat ->
  be32 (splice o new l) i = be32 l i.
Proof. intros Hi Ho. unfold be32. rewrite !nth_splice_out by lia. done. Qed.

Section Patched.
(** The image as it is at first, its tables, the IPL. *)
Context (elf : list Z) (t : tables_t) (b : bios_item_t).
Let N : nat := Z.to_nat (e_shoff elf).
Let shnum : nat := Z.to_nat (e_shnum elf).

(** ** What is to be put where *)

Definition size_name (name : list Z) : list Z :=
  drop (length patch_prefix) (take (length name - 5) name ++ str "_size").
(** The section to be copied for a header, if it is one for this IPL. *)
Definition chosen (i : nat) : option section :=
  let h := shdr elf i in
  let name := section_name elf (stringdata t) h in
  let copy size := Some (cached_addr (sh_addr elf h), size, sh_offset elf h) in
  if not_loaded elf h name then None
  else if is_patch name then
    if ensdwith name (patch_region_suffix b) then
      let size := get_symbol_value elf t (size_name name) in
      copy (if size =? 0 then sh_size elf h else size)
    else None
  else if sh_type elf h =? SHT_NOBITS then None
  else copy (sh_size elf h).
Fixpoint chosen_from (n i : nat) : list section :=
  match n with
  | O => []
  | S n => option_list (chosen i) ++ chosen_from n (S i)
  end.
(** The extent of the last [.reloc] that is copied. *)
Fixpoint reloc_from (n i : nat) (r : Z * Z) : Z * Z :=
  match n with
  | O => r
  | S n =>
      let h := shdr elf i in
      reloc_from n (S i)
        (match chosen i with
         | Some s => if bool_decide (section_name elf (stringdata t) h = reloc_prefix_name)
                     then (s.1.1, u32 (s.1.1 + s.1.2)) else r
         | None => r
         end)
  end.
Definition reloc_extent : Z * Z := reloc_from shnum 0 (0, 0).

(** The pointers to the IPL's routines: their places and their values. *)
Definition region_name (i : nat) : list Z := reloc_prefix b ++ str "_" ++ symbol_name elf t i.
Definition is_pointer (r : Z * Z) (i : nat) : bool :=
  negb (st_name elf (symbol t i) =? SHN_UNDEF) && (r.1 <=? st_value elf (symbol t i)) && (st_value elf (symbol t i) <? r.2).
Definition pointer (i : nat) : Z * Z := (st_value elf (symbol t i), get_symbol_value elf t (region_name i)).
Definition pointers : list (Z * Z) := pointer <$> List.filter (is_pointer reloc_extent) (seq 0 (sym_count t)).
Definition word_block (p : Z * Z) : block := (p.1, be32_bytes p.2).
(** The variables that exist. *)
Definition variables (values : list (list Z * Z)) : list (Z * Z) :=
  List.filter (fun p => negb (p.1 =? 0)) ((fun v => (get_symbol_value elf t v.1, v.2)) <$> values).
Definition logo_blocks (logo : option (list Z)) : list block :=
  let ptr := get_symbol_value elf t (str "cube_logo_path") in
  match logo with
  | Some path => if ptr =? 0 then [] else [(ptr, take 255 path ++ replicate (255 - length path) 0 ++ [0])]
  | None => []
  end.

(** ** A well-formed image: all that is read but the headers comes before them,
    and what is to be copied lies in it. *)
Definition string_ok (o : Z) (most : nat) : Prop :=
  (Z.to_nat o + length (elf_str elf o) < N)%nat /\ is_cstr (elf_str elf o) /\ (length (elf_str elf o) < most)%nat.
Definition patch_name_ok (name : list Z) : Prop := is_patch name = true -> (5 <= length name)%nat.
Record image_ok : Prop := {
  io_header : (52 <= N)%nat;
  io_headers : (N + 40 * shnum <= length elf)%nat;
  io_symbols : (syment t + 16 * sym_count t <= N)%nat;
  io_names : forall i, (i < shnum)%nat -> string_ok (stringdata t + sh_name elf (shdr elf i)) 255;
  io_symbol_names : forall i, (i < sym_count t)%nat ->
    string_ok (symstringdata t + st_name elf (symbol t i)) (254 - length (reloc_prefix b));
  io_suffix : is_cstr (patch_suffix b) /\ is_cstr (reloc_prefix b);
  io_contents : Forall (fun s => 0 <= s.2 /\ 0 <= s.1.2 /\ s.2 + s.1.2 <= Z.of_nat N) (chosen_from shnum 0)
}.

(** ** Reading the image while it is being changed *)

(** Headers from [i] on are as they were, and so is all before the headers. *)
Record like (i : nat) (e : list Z) : Prop := {
  lk_length : length e = length elf;
  lk_prefix : take N elf = take N e;
  lk_headers : forall j k, (i <= j < shnum)%nat -> (k + 4 <= 40)%nat -> be32 e (shdr elf j + k) = be32 elf (shdr elf j + k)
}.

Hypothesis ok : image_ok.

Lemma like_refl : like 0 elf.
Proof. by split. Qed.

Lemma like_e_shoff i e : like i e -> e_shoff e = e_shoff elf.
Proof. intros Hl. apply (be32_prefix _ _ N); [apply Hl|]. pose proof (io_header ok). lia. Qed.
Lemma like_shdr i e j : like i e -> shdr e j = shdr elf j.
Proof. intros Hl. unfold shdr. by rewrite (like_e_shoff i e Hl). Qed.

Lemma like_string i e o most : like i e -> string_ok o most -> elf_str e o = elf_str elf o.
Proof. intros Hl (Ho & _). unfold elf_str. by apply (cstr_prefix _ _ N); [apply Hl|]. Qed.

Lemma like_symbol i e j : like i e -> (j < sym_count t)%nat ->
  st_name e (symbol t j) = st_name elf (symbol t j) /\ st_value e (symbol t j) = st_value elf (symbol t j) /\
  symbol_name e t j = symbol_name elf t j.
Proof.
  intros Hl Hj. pose proof (io_symbols ok). assert (Hs : (symbol t j + 16 <= N)%nat) by (unfold symbol, SYM_SIZE; lia).
  assert (En : st_name e (symbol t j) = st_name elf (symbol t j)) by (apply (be32_prefix _ _ N); [apply Hl|lia]).
  split; [done|]. split; [apply (be32_prefix _ _ N); [apply Hl|lia]|].
  unfold symbol_name. rewrite En. exact (like_string i e _ _ Hl (io_symbol_names ok j Hj)).
Qed.

Lemma like_value i e name n : forall k v, like i e -> (k + n <= sym_count t)%nat ->
  value_rounds e t n k name v = value_rounds elf t n k name v.
Proof.
  induction n as [|n IH]; intros k v Hl Hk; [done|]. cbn [value_rounds].
  destruct (like_symbol i e k Hl) as (-> & -> & ->); [lia|]. apply IH; [done|lia].
Qed.
Lemma like_get i e name : like i e -> get_symbol_value e t name = get_symbol_value elf t name.
Proof. intros Hl. by apply (like_value i). Qed.

Lemma like_header i e : like i e -> (i < shnum)%nat ->
  let h := shdr elf i in
  sh_name e h = sh_name elf h /\ sh_type e h = sh_type elf h /\ sh_flags e h = sh_flags elf h /\
  sh_addr e h = sh_addr elf h /\ sh_offset e h = sh_offset elf h /\ sh_size e h = sh_size elf h.
Proof.
  intros Hl Hi h. unfold sh_name, sh_type, sh_flags, sh_addr, sh_offset, sh_size.
  assert (Hk : forall k, (k + 4 <= 40)%nat -> be32 e (h + k) = be32 elf (h + k)).
  { intros k Hk. apply (lk_headers i e Hl i k); lia. }
  pose proof (Hk 0%nat ltac:(lia)) as E. rewrite Nat.add_0_r in E.
  split; [exact E|]. repeat split; apply Hk; lia.
Qed.

Lemma like_next i e : like i e -> like (S i) e.
Proof. intros [L1 L2 L3]. split; [done|done|]. intros j k Hj. apply L3. lia. Qed.
(** Writing the address of a header back. *)
Lemma like_write i e a : like i e -> (i < shnum)%nat -> like (S i) (splice (shdr elf i + 12) (be32_bytes a) e).
Proof.
  intros [L1 L2 L3] Hi. pose proof (io_headers ok).
  assert (Hh : (shdr elf i + 40 <= length e)%nat) by (rewrite L1; unfold shdr, SHDR_SIZE; fold N; lia).
  assert (HN : (N <= shdr elf i)%nat) by (unfold shdr; fold N; lia).
  split.
  - rewrite length_splice; [done|]. cbn [length be32_bytes]. lia.
  - rewrite L2. unfold splice. rewrite take_app_le by (rewrite length_take; lia). rewrite take_take. f_equal. lia.
  - intros j k Hj Hk. rewrite be32_splice_out; [apply L3; lia| |cbn [length be32_bytes]; lia].
    cbn [length be32_bytes]. unfold shdr, SHDR_SIZE in *. lia.
Qed.

(** ** The sections *)

Lemma size_symbol_ok name (w : patch_state) : is_cstr name -> (length name < 255)%nat -> (5 <= length name)%nat ->
  length (stringBuffer w) = 255%nat ->
  wp (size_symbol name) (fun r w' => r = size_name name /\ pt_elf w' = pt_elf w /\ pt_mem w' = pt_mem w /\
    length (stringBuffer w') = 255%nat) w.
Proof.
  intros Hc Hn H5 Hb. unfold size_symbol. apply wp_bind, wp_get, wp_bind.
  assert (E1 : strcpy (stringBuffer w) name = Some (splice 0 (name ++ [0]) (stringBuffer w))).
  { unfold strcpy. by rewrite decide_True by lia. }
  assert (Hl1 : length (splice 0 (name ++ [0]) (stringBuffer w)) = 255%nat).
  { rewrite length_splice; [done|]. rewrite length_app. cbn. lia. }
  set (k := (length name - 5)%nat) in *.
  assert (E2 : <[k := 0]> (splice 0 (name ++ [0]) (stringBuffer w))
    = take k name ++ 0 :: drop (S k) (splice 0 (name ++ [0]) (stringBuffer w))).
  { rewrite insert_take_drop by lia. f_equal. unfold splice. rewrite take_0, app_nil_l.
    rewrite take_app_le by (rewrite length_app; cbn; lia). rewrite take_app_le by lia. done. }
  set (b2 := <[k := 0]> _) in *.
  assert (Hl2 : length b2 = 255%nat) by (unfold b2; rewrite length_insert; lia).
  assert (Hc2 : cstr b2 = take k name) by (rewrite E2; apply cstr_app_nul; by apply cstr_take).
  assert (L5 : length (str "_size") = 5%nat) by reflexivity.
  destruct (strcat_Some b2 (str "_size")) as [b3 E3]; [rewrite Hc2, length_take; lia|].
  destruct (strcat_spec b2 (str "_size") b3) as [Hc3 Hl3]; [rewrite Hc2; by apply cstr_take|cstr_lit|done|].
  unfold of_option, wp at 1. rewrite E1. cbn [mbind option_bind]. fold k. fold b2. rewrite E3.
  apply wp_bind, wp_modify, wp_ret. split; [|split; [done|split; [done|]]].
  - unfold size_name. by rewrite Hc3, Hc2.
  - cbn. lia.
Qed.

Lemma chosen_live i s : chosen i = Some s -> live s = true.
Proof.
  unfold chosen. set (h := shdr elf i). set (name := section_name _ _ _).
  assert (Ha : cached_addr (sh_addr elf h) <> 0).
  { unfold cached_addr. intros E. apply Z.lor_eq_0_iff in E as [_ E]. discriminate E. }
  assert (Hs : not_loaded elf h name = false -> sh_size elf h <> 0).
  { unfold not_loaded. rewrite !orb_false_iff, !Z.eqb_neq. tauto. }
  destruct (not_loaded elf h name); [done|]. specialize (Hs eq_refl).
  assert (Hlive : forall size o, size <> 0 -> live (cached_addr (sh_addr elf h), size, o) = true).
  { intros size o Hz. apply live_spec. by split. }
  destruct (is_patch name).
  - destruct (ensdwith _ _); [|done]. intros [= <-]. apply Hlive. bcase; done.
  - destruct (_ =? SHT_NOBITS); [done|]. intros [= <-]. by apply Hlive.
Qed.

Lemma chosen_from_elem n : forall i k s, (i <= k < i + n)%nat -> chosen k = Some s -> s ∈ chosen_from n i.
Proof.
  induction n as [|n IH]; intros i k s Hk Hs; [lia|]. cbn [chosen_from]. apply elem_of_app.
  destruct (decide (k = i)) as [->|]; [left|right; apply (IH (S i) k); [lia|done]].
  rewrite Hs. cbn. set_solver.
Qed.

Lemma not_patch_reloc : is_patch reloc_prefix_name = false.
Proof. vm_compute. reflexivity. Qed.

Lemma copy_out_ok i addr offset size (w : patch_state) : like i (pt_elf w) ->
  (Z.to_nat offset + Z.to_nat size <= N)%nat ->
  wp (copy_out addr offset size) (fun _ w' => pt_elf w' = pt_elf w /\ stringBuffer w' = stringBuffer w /\
    pt_mem w' = store_mem addr (slice (Z.to_nat offset) (Z.to_nat size) elf) (pt_mem w)) w.
Proof.
  intros Hl Hs. unfold copy_out. apply wp_bind, wp_get. pose proof (io_headers ok).
  rewrite decide_True by (rewrite (lk_length i _ Hl); lia). apply wp_modify.
  split; [done|]. split; [done|]. cbn [pt_mem change_pt_mem]. f_equal.
  apply (slice_prefix _ _ N); [apply Hl|done].
Qed.

Lemma ensdwith_length s x : ensdwith s x = true -> (length x <= length s)%nat.
Proof. unfold ensdwith. destruct (Nat.ltb_spec (length s) (length x)); [done|lia]. Qed.

Definition after_section (i : nat) (reloc : Z * Z) (w : patch_state) (r : Z * Z) (w' : patch_state) : Prop :=
  like (S i) (pt_elf w') /\ length (stringBuffer w') = 255%nat /\
  pt_mem w' = match chosen i with
              | Some s => store_mem s.1.1 (slice (Z.to_nat s.2) (Z.to_nat s.1.2) elf) (pt_mem w)
              | None => pt_mem w
              end /\
  r = match chosen i with
      | Some s => if bool_decide (section_name elf (stringdata t) (shdr elf i) = reloc_prefix_name)
                  then (s.1.1, u32 (s.1.1 + s.1.2)) else reloc
      | None => reloc
      end.

Lemma patch_section_ok i reloc (w : patch_state) : (i < shnum)%nat -> like i (pt_elf w) ->
  length (stringBuffer w) = 255%nat ->
  wp (patch_section t b (shdr elf i) reloc) (after_section i reloc w) w.
Proof.
  intros Hi Hl Hb. unfold patch_section. apply wp_bind, wp_get.
  destruct (like_header i (pt_elf w) Hl Hi) as (En & Et & Ef & Ea & Eo & Es).
  pose proof (io_names ok i Hi) as Hname.
  assert (Esn : section_name (pt_elf w) (stringdata t) (shdr elf i) = section_name elf (stringdata t) (shdr elf i)).
  { unfold section_name. rewrite En. exact (like_string i _ _ _ Hl Hname). }
  destruct Hname as (_ & Hcs & Hlen). fold (section_name elf (stringdata t) (shdr elf i)) in Hcs, Hlen.
  unfold not_loaded at 1. rewrite Esn, Et, Ef, Ea, Es, Eo. fold (not_loaded elf (shdr elf i) (section_name elf (stringdata t) (shdr elf i))).
  pose proof (chosen_from_elem shnum 0 i) as Hin. pose proof (proj1 (Forall_forall _ _) (io_contents ok)) as Hcont.
  unfold after_section. unfold chosen in *. cbv zeta in *.
  set (h := shdr elf i) in *. set (name := section_name elf (stringdata t) h) in *.
  destruct (not_loaded elf h name).
  { apply wp_ret. split; [by apply like_next|]. done. }
  apply wp_bind, wp_modify. set (w1 := set_pt_elf _ w).
  assert (Hl1 : like (S i) (pt_elf w1)) by (by apply like_write).
  destruct (is_patch name) eqn:Ep; rewrite ?andb_true_r, ?andb_false_r.
  - destruct (ensdwith name (patch_region_suffix b)) eqn:Ee; cbn [negb]; [|by apply wp_ret].
    apply ensdwith_length in Ee. unfold patch_region_suffix in Ee. rewrite length_app in Ee.
    change (length (str "_func")) with 5%nat in Ee.
    apply wp_bind. eapply wp_mono; [apply size_symbol_ok; (done || lia)|].
    intros symbol w2 (-> & Ee2 & Em2 & Hb2). apply wp_bind, wp_get. rewrite Ee2, (like_get _ _ _ Hl1).
    set (size := if _ =? 0 then _ else _) in *.
    specialize (Hin (cached_addr (sh_addr elf h), size, sh_offset elf h) ltac:(lia) eq_refl).
    apply Hcont in Hin. cbn [fst snd] in Hin.
    apply wp_bind. eapply wp_mono; [apply (copy_out_ok (S i)); [by rewrite Ee2|lia]|].
    intros _ w3 (Ee3 & Eb3 & Em3). apply wp_ret. split; [by rewrite Ee3, Ee2|]. split; [by rewrite Eb3|].
    split; [by rewrite Em3, Em2|]. rewrite bool_decide_false; [done|]. intros Enm. rewrite Enm, not_patch_reloc in Ep. done.
  - destruct (sh_type elf h =? SHT_NOBITS); [by apply wp_ret|].
    specialize (Hin (cached_addr (sh_addr elf h), sh_size elf h, sh_offset elf h) ltac:(lia) eq_refl).
    apply Hcont in Hin. cbn [fst snd] in Hin.
    apply wp_bind. eapply wp_mono; [apply (copy_out_ok (S i)); [done|lia]|].
    intros _ w3 (Ee3 & Eb3 & Em3). apply wp_ret. split; [by rewrite Ee3|]. split; [by rewrite Eb3|]. done.
Qed.

Lemma section_rounds_ok n : forall i reloc (w : patch_state), (i + n = shnum)%nat -> like i (pt_elf w) ->
  length (stringBuffer w) = 255%nat ->
  wp (section_rounds t b n i reloc) (fun r w' => like shnum (pt_elf w') /\ length (stringBuffer w') = 255%nat /\
    pt_mem w' = place elf (chosen_from n i) (pt_mem w) /\ r = reloc_from n i reloc) w.
Proof.
  induction n as [|n IH]; intros i reloc w Hi Hl Hb; cbn [section_rounds chosen_from reloc_from].
  { apply wp_ret. rewrite Nat.add_0_r in Hi. subst i. done. }
  apply wp_bind, wp_get, wp_bind. rewrite (like_shdr i _ i Hl).
  eapply wp_mono; [apply patch_section_ok; (done || lia)|]. intros r w1 (Hl1 & Hb1 & Hm1 & Hr1).
  eapply wp_mono; [apply IH; (done || lia)|]. intros r' w2 (Hl2 & Hb2 & Hm2 & Hr2).
  split; [done|]. split; [done|]. split.
  - rewrite Hm2, Hm1, place_app. f_equal. destruct (chosen i) as [s|] eqn:Es; [|done]. cbn.
    by rewrite (chosen_live i s Es).
  - by rewrite Hr2, Hr1.
Qed.

Lemma chosen_inside : Forall (inside elf) (chosen_from shnum 0).
Proof.
  eapply Forall_impl; [exact (io_contents ok)|]. intros s (H1 & H2 & H3) _. pose proof (io_headers ok).
  split; [done|]. split; [done|lia].
Qed.

(** ** The pointers *)

Lemma region_buffer i (w : patch_state) : (i < sym_count t)%nat -> length (stringBuffer w) = 255%nat ->
  exists buf, strcpy (stringBuffer w) (region_name i) = Some buf /\ cstr buf = region_name i /\ length buf = 255%nat.
Proof.
  intros Hi Hb. destruct (io_symbol_names ok i Hi) as (_ & Hc & Hlen).
  destruct (io_suffix ok) as [_ Hr].
  assert (Hcs : is_cstr (region_name i)).
  { unfold region_name. apply is_cstr_app. split; [done|]. apply is_cstr_app. split; [cstr_lit|done]. }
  assert (Hl : (length (region_name i) < 255)%nat).
  { unfold region_name. rewrite !length_app. change (length (str "_")) with 1%nat. unfold symbol_name. lia. }
  assert (E : strcpy (stringBuffer w) (region_name i) = Some (splice 0 (region_name i ++ [0]) (stringBuffer w))).
  { unfold strcpy. by rewrite decide_True by lia. }
  destruct (strcpy_spec _ _ _ Hcs E) as [E1 E2]. eexists. split; [exact E|]. split; [done|]. by rewrite E2.
Qed.

Definition found_pointers (r : Z * Z) (i n : nat) : list (Z * Z) := pointer <$> List.filter (is_pointer r) (seq i n).
Definition resolved (p : Z * Z) : bool := negb (p.2 =? 0).

Lemma reloc_rounds_ok r n : forall i failed (w : patch_state), (i + n <= sym_count t)%nat ->
  like shnum (pt_elf w) -> length (stringBuffer w) = 255%nat ->
  wp (reloc_rounds t b r n i failed) (fun f w' => pt_elf w' = pt_elf w /\ length (stringBuffer w') = 255%nat /\
    pt_mem w' = store_blocks (word_block <$> List.filter resolved (found_pointers r i n)) (pt_mem w) /\
    f = failed || negb (forallb resolved (found_pointers r i n))) w.
Proof.
  induction n as [|n IH]; intros i failed w Hi Hl Hb; cbn [reloc_rounds].
  { apply wp_ret. split; [done|]. split; [done|]. split; [done|]. by rewrite orb_false_r. }
  apply wp_bind. unfold patch_reloc. apply wp_bind, wp_get.
  destruct (like_symbol _ _ i Hl) as (En & Ev & Es); [lia|]. rewrite En, Ev, Es.
  fold (region_name i).
  unfold found_pointers in *. cbn [seq List.filter].
  change (is_pointer r i) with (negb (st_name elf (symbol t i) =? SHN_UNDEF) &&
    (r.1 <=? st_value elf (symbol t i)) && (st_value elf (symbol t i) <? r.2)).
  assert (Hskip : forall f, f = failed ->
    wp (ret f : M patch_state bool) (fun failed w1 => wp (reloc_rounds t b r n (S i) failed)
      (fun f w' => pt_elf w' = pt_elf w /\ length (stringBuffer w') = 255%nat /\
        pt_mem w' = store_blocks (word_block <$> List.filter resolved (pointer <$> List.filter (is_pointer r) (seq (S i) n))) (pt_mem w) /\
        f = failed || negb (forallb resolved (pointer <$> List.filter (is_pointer r) (seq (S i) n)))) w1) w).
  { intros f ->. apply wp_ret, IH; [lia|done|done]. }
  destruct (st_name elf (symbol t i) =? SHN_UNDEF); cbn [negb andb]; [by apply Hskip|].
  destruct ((r.1 <=? st_value elf (symbol t i)) && (st_value elf (symbol t i) <? r.2)); [|by apply Hskip].
  clear Hskip. destruct (region_buffer i w) as (buf & Eb & Ec & Hbl); [lia|done|].
  apply wp_bind. unfold of_option, wp at 1. rewrite Eb. apply wp_bind, wp_modify.
  rewrite Ec, (like_get _ _ _ Hl). cbn [fmap list_fmap List.filter forallb].
  change (resolved (pointer i)) with (negb (get_symbol_value elf t (region_name i) =? 0)).
  destruct (get_symbol_value elf t (region_name i) =? 0) eqn:E0; cbn [negb andb].
  - apply wp_ret. eapply wp_mono; [apply IH; [lia|done|done]|]. intros f w2 (? & ? & ? & ->).
    split; [done|]. split; [done|]. split; [done|]. by rewrite orb_true_r.
  - apply wp_bind, wp_modify, wp_ret.
    eapply wp_mono; [apply IH; [lia|done|done]|]. intros f w2 (? & ? & Hm & ->).
    split; [done|]. split; [done|]. split; [|done]. rewrite Hm. done.
Qed.

(** ** The variables *)

Lemma set_values_ok values : forall (w : patch_state), like shnum (pt_elf w) ->
  wp (set_values t values) (fun _ w' => pt_elf w' = pt_elf w /\
    pt_mem w' = store_blocks (word_block <$> variables values) (pt_mem w)) w.
Proof.
  induction values as [|[name v] values IH]; intros w Hl; cbn [set_values]; [by apply wp_ret|].
  apply wp_bind. unfold set_patch_value. apply wp_bind, wp_get. rewrite (like_get _ _ _ Hl).
  unfold variables. cbn [fmap list_fmap List.filter fst snd].
  destruct (get_symbol_value elf t name =? 0); cbn [negb].
  - apply wp_ret. by apply IH.
  - apply wp_modify. eapply wp_mono; [by apply IH|]. intros _ w2 [? Hm]. split; [done|]. by rewrite Hm.
Qed.

Lemma copy_logo_ok logo (w : patch_state) : like shnum (pt_elf w) ->
  wp (copy_logo t logo) (fun _ w' => pt_elf w' = pt_elf w /\
    forall x, pt_mem w' x = store_blocks (logo_blocks logo) (pt_mem w) x) w.
Proof.
  intros Hl. unfold copy_logo. apply wp_bind, wp_get. rewrite (like_get _ _ _ Hl). unfold logo_blocks.
  destruct logo as [path|]; [|by apply wp_ret]. destruct (_ =? 0); cbn [negb]; [by apply wp_ret|].
  apply wp_modify. split; [done|]. intros x. cbn [pt_mem change_pt_mem store_blocks fold_left fst snd].
  set (p := take 255 path ++ _). assert (Hp : Z.of_nat (length p) = 255).
  { unfold p. rewrite length_app, length_take, length_replicate. lia. }
  rewrite <- Hp, store_mem_app. unfold p. by rewrite <- app_assoc.
Qed.

(** Everything that is written after the sections. *)
Definition late_blocks (s : settings_t) (fp skip dolphin sd : Z) : list block :=
  (word_block <$> pointers) ++ (word_block <$> variables (settings_values s fp skip)) ++
  logo_blocks (cube_logo s) ++ (word_block <$> variables (device_values dolphin sd)).
Definition all_sections : list section := chosen_from shnum 0.

Lemma resolved_all l : forallb resolved l = true -> List.filter resolved l = l /\ Forall (fun p => p.2 <> 0) l.
Proof.
  induction l as [|p l IH]; cbn [forallb List.filter]; [done|]. intros [Hp Hl]%andb_true_iff. rewrite Hp.
  destruct (IH Hl) as [-> ?]. split; [done|]. constructor; [|done].
  unfold resolved in Hp. by apply negb_true_iff, Z.eqb_neq in Hp.
Qed.
Lemma unresolved_some l : forallb resolved l = false -> exists p, p ∈ l /\ p.2 = 0.
Proof.
  induction l as [|p l IH]; cbn [forallb]; [done|]. destruct (resolved p) eqn:Ep; cbn [andb].
  - intros Hl. destruct (IH Hl) as (q & ? & ?). exists q. set_solver.
  - intros _. exists p. unfold resolved in Ep. apply negb_false_iff, Z.eqb_eq in Ep. set_solver.
Qed.

Lemma apply_patches_ok s fp skip dolphin sd (w : patch_state) : pt_elf w = elf -> length (stringBuffer w) = 255%nat ->
  wp (apply_patches t b s fp skip dolphin sd) (fun o w' =>
    match o with
    | Unresolved => exists p, p ∈ pointers /\ p.2 = 0
    | Patched => Forall (fun p => p.2 <> 0) pointers /\
        forall x, pt_mem w' x = store_blocks (late_blocks s fp skip dolphin sd) (place elf all_sections (pt_mem w)) x
    end) w.
Proof.
  intros He Hb. unfold apply_patches. apply wp_bind, wp_get, wp_bind. rewrite He.
  eapply wp_mono; [apply (section_rounds_ok shnum 0); [done|rewrite He; apply like_refl|done]|].
  intros r w1 (Hl1 & Hb1 & Hm1 & ->). fold reloc_extent.
  apply wp_bind. eapply wp_mono; [by apply reloc_rounds_ok|]. fold pointers.
  change (found_pointers reloc_extent 0 (sym_count t)) with pointers.
  intros f w2 (He2 & Hb2 & Hm2 & ->). cbn [orb].
  destruct (forallb resolved pointers) eqn:Er; cbn [negb]; [|by apply wp_ret, unresolved_some].
  destruct (resolved_all _ Er) as [Ef Hres]. rewrite Ef in Hm2.
  assert (Hl2 : like shnum (pt_elf w2)) by (by rewrite He2).
  apply wp_bind. eapply wp_mono; [by apply set_values_ok|]. intros _ w3 [He3 Hm3].
  assert (Hl3 : like shnum (pt_elf w3)) by (by rewrite He3).
  apply wp_bind. eapply wp_mono; [by apply copy_logo_ok|]. intros _ w4 [He4 Hm4].
  assert (Hl4 : like shnum (pt_elf w4)) by (by rewrite He4).
  apply wp_bind. eapply wp_mono; [by apply set_values_ok|]. intros _ w5 [He5 Hm5].
  apply wp_ret. split; [done|]. intros x. rewrite Hm5.
  rewrite (store_blocks_ext _ _ _ Hm4), Hm3, Hm2, Hm1. unfold late_blocks.
  by rewrite !store_blocks_app.
Qed.
End Patched.

(** C35. The IPL is patched as the image says.  For a well-formed image and any
    memory, the patching returns.  If a pointer to one of the IPL's routines has
    no address for this IPL it stops; otherwise each pointer holds its routine's
    address in this IPL, each variable of the settings that exists its setting,
    the logo's buffer the path with its terminator, and every other byte of
    memory is the one of the last section meant for this IPL that covers it -
    with the size its symbol gives, and no byte of a patch for another IPL - or,
    where there is none, what it was. *)
Theorem patches_are_in_place elf t b s fp skip dolphin sd (w : patch_state) :
  image_ok elf t b -> pt_elf w = elf -> length (stringBuffer w) = 255%nat ->
  ForallOrdPairs apart (late_blocks elf t b s fp skip dolphin sd) ->
  exists o w', apply_patches t b s fp skip dolphin sd w = Some (o, w') /\
    match o with
    | Unresolved => exists p, p ∈ pointers elf t b /\ p.2 = 0
    | Patched =>
        Forall (fun p => p.2 <> 0) (pointers elf t b) /\
        Forall (fun blk => load_mem blk.1 (length blk.2) (pt_mem w') = blk.2) (late_blocks elf t b s fp skip dolphin sd) /\
        forall x, Forall (fun blk => ~ in_block blk x) (late_blocks elf t b s fp skip dolphin sd) ->
          pt_mem w' x = match section_byte elf (all_sections elf t b) x with Some c => c | None => pt_mem w x end
    end.
Proof.
  intros Hok He Hb Hap. destruct (wp_elim _ _ _ (apply_patches_ok elf t b Hok s fp skip dolphin sd w He Hb)) as (o & w' & E & Ho).
  exists o, w'. split; [done|]. destruct o; [|done]. destruct Ho as [Hres Hm]. split; [done|]. split.
  - apply Forall_forall. intros blk Hin. rewrite (load_mem_ext _ _ _ _ (fun x _ => Hm x)). by apply store_blocks_in.
  - intros x Hx. rewrite Hm, store_blocks_out by done. by apply place_byte, chosen_inside.
Qed.

(** An image with a patch for each of two IPLs, code, a pointer and a variable. *)
Definition small_names : list (list Z) :=
  [str ""; str ".patch.f_VER_NTSC_11_func"; str ".patch.f_VER_PAL_10_func"; str ".text"; str ".reloc"; str ".symtab"; str ".strtab"; str ".shstrtab"].
Definition small_symbols : list (list Z * Z) :=
  [(str "OSReport", 0x81700100); (str "ntsc11_OSReport", 0x81301234); (str "pal10_OSReport", 0x81305678);
   (str "cube_color", 0x81700080); (str "f_VER_NTSC_11_size", 4)].
Fixpoint offsets (o : Z) (ss : list (list Z)) : list Z :=
  match ss with [] => [] | s :: ss => o :: offsets (o + Z.of_nat (length s) + 1) ss end.
Definition pool (ss : list (list Z)) : list Z := concat ((fun s => s ++ [0]) <$> ss).
Definition sec (name type flags addr offset size : Z) : list Z :=
  concat (be32_bytes <$> [name; type; flags; addr; offset; size; 0; 0; 0; 0]).
Definition small_elf : list Z :=
  let n i := nth i (offsets 0 small_names) 0 in
  let syms := zip (offsets 1 (small_symbols.*1)) (small_symbols.*2) in
  splice 48 [0; 8; 0; 7] (splice 32 (be32_bytes 0x200) (replicate 0x40 0)) ++
  (* 0x40 *) [1; 2; 3; 4; 5; 6; 7; 8] ++ replicate 8 9 ++ replicate 16 10 ++
  (* 0x60 *) concat ((fun p => concat (be32_bytes <$> [p.1; p.2; 0; 0])) <$> syms) ++ replicate 16 0 ++
  (* 0xc0 *) (pool small_names ++ replicate (0x80 - length (pool small_names)) 0) ++
  (* 0x140 *) (0 :: pool (small_symbols.*1)) ++ replicate (0xbf - length (pool (small_symbols.*1))) 0 ++
  (* 0x200 *) sec 0 0 0 0 0 0 ++ sec (n 1%nat) 1 6 0x01300400 0x40 8 ++ sec (n 2%nat) 1 6 0x01300800 0x48 8 ++
  sec (n 3%nat) 1 6 0x81700000 0x50 16 ++ sec (n 4%nat) 1 2 0x81700100 0x5c 4 ++ sec (n 5%nat) 2 0 0 0x60 80 ++
  sec (n 6%nat) 3 0 0 0x140 0xc0 ++ sec (n 7%nat) 3 0 0 0xc0 0x80.
Definition small_tables : tables_t := mk_tables 192 96 5 320.
Definition ntsc_11 : bios_item_t :=
  mk_bios IPL_NTSC_11 IPL_NTSC (str "gc-ntsc-11") (str "ntsc11") (str "VER_NTSC_11") 0x6cd1acb5 0x53faeffc 0x81489120.

Ltac string_lit :=
  split; [apply Nat.ltb_lt; vm_compute; reflexivity|split; [cstr_lit|apply Nat.ltb_lt; vm_compute; reflexivity]].
Ltac small_image :=
  split;
  [ apply Nat.leb_le; vm_compute; reflexivity | apply Nat.leb_le; vm_compute; reflexivity
  | apply Nat.leb_le; vm_compute; reflexivity
  | intros i Hi; change (Z.to_nat (e_shnum small_elf)) with 8%nat in Hi;
    do 8 (destruct i as [|i]; [string_lit|]); lia
  | intros i Hi; change (sym_count small_tables) with 5%nat in Hi;
    do 5 (destruct i as [|i]; [string_lit|]); lia
  | split; cstr_lit
  | apply (bool_decide_unpack _); vm_compute; exact I ].
Lemma small_image_ok : image_ok small_elf small_tables ntsc_11.
Proof. small_image. Qed.

Lemma patches_are_in_place_witness : find_tables small_elf = Some small_tables /\ exists o w',
  apply_patches small_tables ntsc_11 no_settings 0 0 0 0 (mk_patch small_elf (fun _ => 0xff) (replicate 255 0)) = Some (o, w') /\
  (o = Patched -> load_mem 0x81700100 4 (pt_mem w') = be32_bytes 0x81301234).
Proof.
  split; [vm_compute; reflexivity|].
  destruct (patches_are_in_place small_elf small_tables ntsc_11 no_settings 0 0 0 0
    (mk_patch small_elf (fun _ => 0xff) (replicate 255 0))) as (o & w' & E & Ho).
  - exact small_image_ok.
  - reflexivity.
  - reflexivity.
  - assert (El : late_blocks small_elf small_tables ntsc_11 no_settings 0 0 0 0
      = [(0x81700100, be32_bytes 0x81301234); (0x81700080, be32_bytes 0)]) by (vm_compute; reflexivity).
    rewrite El. constructor; [constructor; [right; cbn; lia|constructor]|]. constructor; constructor.
  - exists o, w'. split; [exact E|]. intros ->. destruct Ho as (_ & Hb & _).
    assert (El : late_blocks small_elf small_tables ntsc_11 no_settings 0 0 0 0
      = [(0x81700100, be32_bytes 0x81301234); (0x81700080, be32_bytes 0)]) by (vm_compute; reflexivity).
    rewrite El in Hb. inversion Hb. assumption.
Defined.
