(* ===== verification/Cubeboot.v ===== *)
(** The loader from its start to the start of the IPL (src/cubeboot/source/main.c
    with sram.c): settings, the IPL, the patches.

    One memory is used throughout: the IPL's.  The program's own data and the
    image of the patches are outside it.  Display, sound and the clock are left
    out, as is the log. *)

From Stdlib Require Import String.
From S2P Require Import Prelude Mem CStr Ar SsAram Di Fdrv FlippyEmu FileLoad Ini Settings Crc Descrambler Ipl Patcher.
#[local] Open Scope prog_scope.

Definition STUB_ADDR : Z := 0x80001800.
Definition SYS_BOOT_DEVELOPMENT : Z := 0.
Definition DEVICE_ID_J : Z := 0x13.
Definition SWISS_GLOBAL_CONFIG_PATH : list Z := str "/swiss/settings/global.ini".
Definition IPC_FILE_FLAG_DISABLESPEEDEMU : Z := 0x04.

(** A storage device that can make directories, with its number in the table. *)
Class MainDevice (W : Type) := {
  #[global] main_files :: FileDevice W;
  main_mkdir : list Z -> M W Z;
  main_device_name : W -> option (list Z);
  main_sd_device : W -> Z
}.
#[export] Instance emu_main_device {B F} `{DiBus B, DiscDrive B, FatFs F B} : MainDevice (emu_state B F) := {
  main_files := emu_device;
  main_mkdir := dvd_custom_mkdir mount_dol;
  main_device_name := emu_get_device;
  main_sd_device := emu_sd_device
}.

(** The console's settings memory as libogc gives it out: the byte read as a
    padding, whether its checksum is right, the boot mode. *)
Record sram_t := mk_sram { sram_padding0 : Z; sram_checks : bool; sram_boot_mode : Z }.

Inductive main_outcome := Started | MainExited | MainHalted.

Section Main.
Context {W : Type} `{MainDevice W}.
(** The boot ROM, the TV mode found, where buffers are, the DSP's status; the
    library's allocation and number scanner and the random colour; what shutting
    the library down does to memory; whether this is Dolphin; what is on the
    stack where the status is read to. *)
Context (read_rom : Z -> Z -> list Z) (current_tv_mode bios_addr : Z) (polls : dsp -> list Z)
  (memalign : Z -> option (Z * list Z)) (scan : Z -> list Z -> Z * option Z) (random_color : option Z)
  (reset_system : (Z -> Z) -> Z -> Z) (is_dolphin : bool) (status_junk : list Z).

Record main_state := mk_main { mn_ipl : ipl_state W; mn_sram : sram_t; mn_elf : list Z; mn_string : list Z }.
Notation P := (M main_state).
Implicit Types w : main_state.
Definition set_mn_ipl i w := mk_main i (mn_sram w) (mn_elf w) (mn_string w).
Definition set_mn_sram s w := mk_main (mn_ipl w) s (mn_elf w) (mn_string w).
Definition on_ipl {A} (m : M (ipl_state W) A) : P A := zoom mn_ipl set_mn_ipl m.
Definition on_loads {A} (m : M (load_state W) A) : P A := on_ipl (on_ip_files m).
Definition on_device {A} (m : M W A) : P A := on_loads (on_dev m).

(** The patches work on the image, the IPL's memory and the buffer for names. *)
Definition patch_view w : patch_state := mk_patch (mn_elf w) (ip_mem (mn_ipl w)) (mn_string w).
Definition patch_update (p : patch_state) w : main_state :=
  mk_main (change_ip_mem (fun _ => pt_mem p) (mn_ipl w)) (mn_sram w) (pt_elf p) (stringBuffer p).
Definition on_patch {A} (m : M patch_state A) : P A := zoom patch_view patch_update m.

Definition wants_passthrough (argv : list (list Z)) (m : Z -> Z) : Z :=
  if bool_decide (argv !! 1%nat = Some (str "passthrough")) || (load_word STUB_ADDR m =? 0x50415353) then 1 else 0.

(** The first read, until the device answers. *)
Fixpoint settle_rounds (rounds : nat) : P unit :=
  match rounds with
  | O => ret tt
  | S rounds =>
      size <- on_loads (get_file_size config_path) ;;
      if negb (size =? SD_FAIL) then ret tt else settle_rounds rounds
  end.

(** The other bytes of the settings memory, and its writing back, are the
    library's. *)
Definition set_sram_swiss : P unit :=
  modify (fun w =>
    if negb (sram_padding0 (mn_sram w) =? 0)
    then set_mn_sram (mk_sram DEVICE_ID_J (sram_checks (mn_sram w)) (sram_boot_mode (mn_sram w))) w else w).

(** The second [close] looks at the status of the first open. *)
Definition create_swiss_config : P unit :=
  on_device (main_mkdir (str "/swiss")) ;;
  on_device (main_mkdir (str "/swiss/settings")) ;;
  on_device (dev_open SWISS_GLOBAL_CONFIG_PATH FILE_ENTRY_TYPE_FILE IPC_FILE_FLAG_DISABLESPEEDEMU) ;;
  '(r, status) <- on_device (dev_status status_junk) ;;
  if negb (r =? 0) then ret tt
  else if (blob_result status =? 0) && negb (blob_fd status =? 0) then on_device (dev_close (blob_fd status))
  else
    r <- on_device (dev_open SWISS_GLOBAL_CONFIG_PATH FILE_ENTRY_TYPE_FILE
                      (Z.lor IPC_FILE_FLAG_DISABLESPEEDEMU IPC_FILE_FLAG_WRITE)) ;;
    if negb (r =? 0) then ret tt
    else if (blob_result status =? 0) && negb (blob_fd status =? 0) then on_device (dev_close (blob_fd status))
    else ret tt.

(** The three words saved over the library's shutdown. *)
Definition shut_down : P unit :=
  modify (fun w => set_mn_ipl (change_ip_mem (fun m =>
    store_word 0x800000D4 (load_word 0x800000D4 m)
      (store_word 0x800000C0 (load_word 0x800000C0 m)
        (store_word 0x800000F4 (load_word 0x800000F4 m) (reset_system m)))) (mn_ipl w)) w).

Definition progressive_for (b : bios_item_t) (s : settings_t) : settings_t :=
  if bool_decide (version b = IPL_NTSC_10)
  then mk_settings (cube_color s) (cube_logo s) (force_swiss_default s) (show_watermark s) (disable_mcp_select s) 0
         (preboot_delay_ms s) (postboot_delay_ms s) (default_program s) (boot_buttons s)
  else s.
Definition skip_animation (s : sram_t) : Z :=
  if sram_checks s && (sram_boot_mode s =? SYS_BOOT_DEVELOPMENT) then 1 else 0.

(** From the IPL in memory on. *)
Definition patch_and_start (t : tables_t) (s : settings_t) (force_passthrough : Z) : P main_outcome :=
  w <- get ;;
  b <- of_option (current_bios (mn_ipl w)) ;;
  let s := progressive_for b s in
  o <- on_patch (apply_patches t b s force_passthrough (skip_animation (mn_sram w)) (Z.b2z is_dolphin)
                   (main_sd_device (dev (ip_files (mn_ipl w))))) ;;
  match o with
  | Unresolved => ret MainHalted
  | Patched => shut_down ;; ret Started
  end.

Definition main (argv : list (list Z)) : P main_outcome :=
  w <- get ;;
  t <- of_option (find_tables (mn_elf w)) ;;
  let force_passthrough := wants_passthrough argv (ip_mem (mn_ipl w)) in
  settle_rounds 60 ;;
  o <- on_loads (load_settings memalign scan random_color) ;;
  match o with
  | Settings.Halted => ret MainHalted
  | Settings.Settings s =>
      set_sram_swiss ;;
      create_swiss_config ;;
      o <- on_ipl (load_ipl read_rom main_device_name current_tv_mode bios_addr polls is_dolphin) ;;
      match o with
      | Exited => ret MainExited
      | Ipl.Halted => ret MainHalted
      | Loaded => patch_and_start t s force_passthrough
      end
  end.
End Main.
Arguments main_state W : clear implicits.
