(* ===== verification/CubebootThms.v ===== *)
(** From the start of the loader to the start of a patched IPL. *)

From Stdlib Require Import String.
From S2P Require Import Prelude Mem Bits CStr Ar SsAram Di Fdrv FlippyEmu FileLoad FileLoadThms Ini IniThms Settings SettingsThms Crc Descrambler Ipl IplThms Patcher PatcherThms Cubeboot.
#[local] Open Scope prog_scope.
#[local] Opaque Z.to_nat tinf_crc32 csp_crc32_memory load_mem get_sda_address descramble_image.

(** What directories and files that are made do to the files there are. *)
Class MainCard (W : Type) `{MainDevice W} := {
  #[global] main_reads :: FileReads W;
  #[global] main_opens :: FileOpens W;
  main_mkdir_ok p (d : W) : readable d ->
    wp (main_mkdir p) (fun _ d' => readable d' /\ forall q, file_at d' q = file_at d q) d;
  main_create_ok p flags (d : W) : readable d ->
    wp (dev_open p FILE_ENTRY_TYPE_FILE flags) (fun _ d' => readable d' /\ forall q, q <> p -> file_at d' q = file_at d q) d
}.

Section Main.
Context {W : Type} `{MainCard W}.
Context (read_rom : Z -> Z -> list Z) (tv bios_addr : Z) (polls : dsp -> list Z)
  (memalign : Z -> option (Z * list Z)) (scan : Z -> list Z -> Z * option Z) (random : Z)
  (reset_system : (Z -> Z) -> Z -> Z) (is_dolphin : bool) (junk : list Z).
Hypothesis returns : device_returns W.
Hypothesis polls_end : forall d, is_Some (ARWaitForDMA (polls d)).
Hypothesis rom_length : length (read_rom IPL_SIZE 0) = Z.to_nat IPL_SIZE.
Hypothesis memalign_size : forall n addr buf, memalign n = Some (addr, buf) -> Z.of_nat (length buf) = n.
Hypothesis junk_length : length junk = file_status_size.
Implicit Types w : main_state W.

(** ** Steps that work on the storage only *)

Definition with_loads (l : load_state W) w : main_state W := set_mn_ipl (set_ip_files l (mn_ipl w)) w.
Definition only_loads w w' : Prop := exists l, w' = with_loads l w /\ load_ok l /\
  file_at (dev l) bios_path = file_at (dev (ip_files (mn_ipl w))) bios_path.

Lemma with_loads_twice l l' w : with_loads l' (with_loads l w) = with_loads l' w.
Proof. by destruct w as [[] ? ? ?]. Qed.
Lemma only_loads_trans w1 w2 w3 : only_loads w1 w2 -> only_loads w2 w3 -> only_loads w1 w3.
Proof.
  intros (l & -> & _ & E) (l' & -> & Hl & E'). exists l'. split; [apply with_loads_twice|]. split; [done|].
  rewrite E'. exact E.
Qed.
Lemma only_loads_refl w : load_ok (ip_files (mn_ipl w)) -> only_loads w w.
Proof. intros Hok. exists (ip_files (mn_ipl w)). split; [by destruct w as [[] ? ? ?]|done]. Qed.

Lemma on_loads_ok {A} (m : M (load_state W) A) Q w :
  wp m (fun a l => load_ok l /\ file_at (dev l) bios_path = file_at (dev (ip_files (mn_ipl w))) bios_path /\ Q a)
    (ip_files (mn_ipl w)) ->
  wp (on_loads m) (fun a w' => only_loads w w' /\ Q a) w.
Proof.
  intros Hm. unfold on_loads, on_ipl, on_ip_files. apply wp_zoom, wp_zoom.
  eapply wp_mono; [exact Hm|]. intros a l (Hl & Hf & Hq). split; [|done]. by exists l.
Qed.
Lemma on_device_ok {A} (m : M W A) Q w : load_ok (ip_files (mn_ipl w)) ->
  wp m (fun a d => readable d /\ file_at d bios_path = file_at (dev (ip_files (mn_ipl w))) bios_path /\ Q a)
    (dev (ip_files (mn_ipl w))) ->
  wp (on_device m) (fun a w' => only_loads w w' /\ Q a) w.
Proof.
  intros [L1 L2 L3] Hm. unfold on_device. apply on_loads_ok. unfold on_dev. apply wp_zoom.
  eapply wp_mono; [exact Hm|]. intros a d (Hr & Hf & Hq). split; [by split|]. by split.
Qed.
Lemma only_loads_ok w w' : only_loads w w' -> load_ok (ip_files (mn_ipl w')).
Proof. by intros (l & -> & ? & _). Qed.

(** The polling. *)
Lemma settle_ok n : forall w, load_ok (ip_files (mn_ipl w)) ->
  wp (settle_rounds n) (fun _ w' => exists l, w' = with_loads l w /\ load_ok l /\ same_files (ip_files (mn_ipl w)) l) w.
Proof.
  induction n as [|n IH]; intros w Hok; cbn [settle_rounds].
  { apply wp_ret. exists (ip_files (mn_ipl w)). split; [by destruct w as [[] ? ? ?]|done]. }
  apply wp_bind. unfold on_loads, on_ipl, on_ip_files. apply wp_zoom, wp_zoom.
  destruct (get_file_size_spec returns config_path _ Hok config_short) as (r & l & E & Hokl & Hs & _).
  unfold wp at 1. rewrite E.
  change (set_mn_ipl (set_ip_files l (mn_ipl w)) w) with (with_loads l w).
  destruct (negb _); [apply wp_ret; by exists l|].
  eapply wp_mono; [by apply IH|]. intros _ w2 (l2 & -> & Hok2 & Hs2). exists l2.
  split; [apply with_loads_twice|]. split; [done|]. intros q. rewrite (Hs2 q). apply Hs.
Qed.

Lemma swiss_config_short : short_path SWISS_GLOBAL_CONFIG_PATH.
Proof. split; [cstr_lit|vm_compute; lia]. Qed.
Lemma create_config_ok w : load_ok (ip_files (mn_ipl w)) -> wp (create_swiss_config junk) (fun _ w' => only_loads w w') w.
Proof.
  intros Hok. unfold create_swiss_config.
  assert (Hdone : forall w1, only_loads w w1 -> wp (ret tt) (fun _ w' => only_loads w w') w1) by (intros w1 Ho; by apply wp_ret).
  assert (Hclose : forall fd w1, only_loads w w1 -> wp (on_device (dev_close fd)) (fun _ w' => only_loads w w') w1).
  { intros fd w1 Ho. pose proof (only_loads_ok _ _ Ho) as [L1 L2 L3].
    eapply wp_mono; [apply (on_device_ok _ (fun _ => True)); [by split|]|intros ? ? [? _]; by eapply only_loads_trans].
    destruct (ret_close returns fd (dev (ip_files (mn_ipl w1)))) as [[[] d] E]. unfold wp. rewrite E.
    destruct (dev_close_law _ _ _ L1 E) as [Hr Hf]. split; [done|]. split; [apply Hf|done]. }
  assert (Hdir : forall p w1, only_loads w w1 -> wp (on_device (main_mkdir p)) (fun _ w' => only_loads w w') w1).
  { intros p w1 Ho. pose proof (only_loads_ok _ _ Ho) as Hok1.
    eapply wp_mono; [apply (on_device_ok _ (fun _ => True)); [done|]|intros ? ? [? _]; by eapply only_loads_trans].
    eapply wp_mono; [apply main_mkdir_ok, (ok_readable _ Hok1)|]. intros _ d [Hr Hf]. split; [done|]. split; [apply Hf|done]. }
  assert (Hopen : forall flags w1, only_loads w w1 ->
    wp (on_device (dev_open SWISS_GLOBAL_CONFIG_PATH FILE_ENTRY_TYPE_FILE flags)) (fun _ w' => only_loads w w') w1).
  { intros flags w1 Ho. pose proof (only_loads_ok _ _ Ho) as Hok1.
    eapply wp_mono; [apply (on_device_ok _ (fun _ => True)); [done|]|intros ? ? [? _]; by eapply only_loads_trans].
    eapply wp_mono; [apply main_create_ok, (ok_readable _ Hok1)|]. intros r d [Hr Hf]. split; [done|]. split; [|done].
    apply Hf. vm_compute. discriminate. }
  apply wp_bind. eapply wp_mono; [by apply Hdir, only_loads_refl|]. intros x1 w1 Ho1. cbv beta in Ho1. clear x1.
  apply wp_bind. eapply wp_mono; [by apply Hdir|]. intros x2 w2 Ho2. cbv beta in Ho2. clear x2.
  (* the first open and its status *)
  pose proof (only_loads_ok _ _ Ho2) as Hok2.
  apply wp_bind. set (d := dev (ip_files (mn_ipl w2))).
  destruct (ret_open returns SWISS_GLOBAL_CONFIG_PATH FILE_ENTRY_TYPE_FILE IPC_FILE_FLAG_DISABLESPEEDEMU d
    (ok_readable _ Hok2) swiss_config_short) as [[r d1] E1].
  destruct (ret_status returns junk d1) as [[[e blob] d2] E2].
  destruct (dev_open_law _ IPC_FILE_FLAG_DISABLESPEEDEMU junk _ _ _ e blob d2 (ok_readable _ Hok2) junk_length eq_refl E1) as (Hr1 & Hf1 & Hst).
  destruct (Hst E2) as (Hr2 & Hf2 & _ & _).
  eapply (wp_mono _ (fun _ w3 => only_loads w w3 /\ dev (ip_files (mn_ipl w3)) = d1)).
  { destruct Hok2 as [L1 L2 L3]. unfold on_device, on_loads, on_ipl, on_ip_files, on_dev.
    apply wp_zoom, wp_zoom, wp_zoom. fold d. unfold wp. rewrite E1. split; [|done].
    eapply only_loads_trans; [exact Ho2|]. eexists. split; [reflexivity|]. split; [by split|]. cbn. by rewrite Hf1. }
  intros _ w3 [Ho3 Ed3]. pose proof (only_loads_ok _ _ Ho3) as Hok3. apply wp_bind.
  eapply (wp_mono _ (fun _ w4 => only_loads w w4)).
  { destruct Hok3 as [L1 L2 L3]. unfold on_device, on_loads, on_ipl, on_ip_files, on_dev.
    apply wp_zoom, wp_zoom, wp_zoom. unfold wp. rewrite Ed3, E2.
    eapply only_loads_trans; [exact Ho3|]. eexists. split; [reflexivity|]. split; [by split|]. cbn. by rewrite Hf2, Ed3. }
  intros [r' status] w4 Ho4. destruct (negb (r' =? 0)); [by apply Hdone|].
  destruct ((blob_result status =? 0) && negb (blob_fd status =? 0)); [by apply Hclose|].
  apply wp_bind. eapply wp_mono; [by apply Hopen|]. intros r2 w5 Ho5.
  destruct (negb (r2 =? 0)); [by apply Hdone|]. by apply Hdone.
Qed.

(** ** The whole *)

Definition RAM_USED : Z := 0x80003100.
Hypothesis reset_high : forall m x, RAM_USED <= x -> reset_system m x = m x.

(** The code found first: what auxiliary RAM brought, if that carries the note,
    or else the image [img], the note wiped; and its checksum, over as much of it
    as is code. *)
Definition first_code (i : ipl_state W) (img : list Z) : Z -> Z := wiped (found (fetched i) img).
Definition first_crc (i : ipl_state W) (img : list Z) : Z :=
  tinf_crc32 (load_mem BS2_BASE_ADDR (Z.to_nat (found_size (fetched i) img)) (first_code i img)).
Definition source (i : ipl_state W) (img : list Z) : Prop := is_file i img \/ img = read_rom IPL_SIZE 0.

(** The code in [m] is the IPL [b]: it is the code found first, or the file's,
    and its small data area and checksum are the row's. *)
Definition identified (i : ipl_state W) (b : bios_item_t) (m : Z -> Z) : Prop :=
  exists img, source i img /\
    (m = first_code i img /\ known b (first_crc i img) m \/
     exists f, is_file i f /\ m = with_image f (first_code i img) /\
       known b (csp_crc32_memory (load_mem BS2_BASE_ADDR (Z.to_nat bs2_size) m)) m).
(** At most the word over the memory card's probe, of this IPL and the slot in
    use, is different. *)
Definition probed (b : bios_item_t) (m m' : Z -> Z) : Prop :=
  (forall x, m' x = m x) \/
  exists d k a v, bios_table !! k = Some b /\ probe_patch d k = Some (a, v) /\ forall x, m' x = store_word a v m x.

Lemma load_ipl_main (w : ipl_state W) : ipl_ready w ->
  wp (load_ipl read_rom main_device_name tv bios_addr polls is_dolphin) (fun o (w' : ipl_state W) =>
    match o with
    | Exited => False
    | Ipl.Halted => exists img, source w img /\
        forallb (fun b => negb (bios_matches (first_crc w img) (get_sda_address (first_code w img)) b)) bios_table = true
    | Loaded => exists b m, current_bios w' = Some b /\ b ∈ bios_table /\ identified w b m /\ probed b m (ip_mem w')
    end) w.
Proof.
  intros Hr. eapply wp_mono; [by apply load_ipl_ok|]. intros o w' (img & Hsrc & Ho).
  destruct o; [|destruct Ho|exists img; exact (conj Hsrc Ho)]. destruct Ho as (b & Hb & Hcase).
  assert (Hin : b ∈ bios_table) by (eapply list_elem_of_lookup_2; exact Hb).
  assert (Hp : forall m, (forall x, ip_mem w' x = patched main_device_name w' m x) -> probed b m (ip_mem w')).
  { intros m Hm. unfold patched in Hm. destruct (main_device_name _) as [d|]; [|by left].
    destruct (probe_patch d _) as [[a v]|] eqn:Ep; [right; by exists d, (Z.to_nat (bios_index w')), a, v|by left]. }
  destruct Hcase as [[Hkn Hm]|(f & Hf & Hkn & Hm)]; eexists b, _;
    (split; [exact Hb|]; split; [exact Hin|]; split; [exists img; split; [exact Hsrc|]|by apply Hp]).
  - left. exact (conj eq_refl Hkn).
  - right. exists f. exact (conj Hf (conj eq_refl Hkn)).
Qed.

(** What is written into the IPL after its sections, for this console. *)
Definition written (elf : list Z) (t : tables_t) (argv : list (list Z)) w b s sd : list block :=
  late_blocks elf t b (progressive_for b s) (wants_passthrough argv (ip_mem (mn_ipl w)))
    (skip_animation (mn_sram w)) (Z.b2z is_dolphin) sd.

Definition ends_well (elf : list Z) (t : tables_t) (argv : list (list Z)) w (o : main_outcome) w' : Prop :=
  match o with
  | MainExited => False
  | MainHalted =>
      (exists l, same_files (ip_files (mn_ipl w)) l /\ settings_end memalign scan random l Settings.Halted) \/
      (exists img, source (mn_ipl w) img /\ forallb (fun b =>
         negb (bios_matches (first_crc (mn_ipl w) img) (get_sda_address (first_code (mn_ipl w) img)) b)) bios_table = true) \/
      (exists b m p, b ∈ bios_table /\ identified (mn_ipl w) b m /\ p ∈ pointers elf t b /\ p.2 = 0)
  | Started => exists b s sd m m' l,
      b ∈ bios_table /\ identified (mn_ipl w) b m /\ probed b m m' /\
      same_files (ip_files (mn_ipl w)) l /\ settings_end memalign scan random l (Settings.Settings s) /\
      Forall (fun p => p.2 <> 0) (pointers elf t b) /\
      Forall (fun blk => RAM_USED <= blk.1 -> load_mem blk.1 (length blk.2) (ip_mem (mn_ipl w')) = blk.2)
        (written elf t argv w b s sd) /\
      forall x, RAM_USED <= x -> Forall (fun blk => ~ in_block blk x) (written elf t argv w b s sd) ->
        ip_mem (mn_ipl w') x =
          match section_byte elf (all_sections elf t b) x with Some c => c | None => m' x end
  end.
(** No two of the words, variables and names written overlap. *)
Definition layout_ok (elf : list Z) (t : tables_t) : Prop :=
  forall b s fp skip dolphin sd, b ∈ bios_table -> ForallOrdPairs apart (late_blocks elf t b s fp skip dolphin sd).

(** The code and the file are the same when only the loads have changed. *)
Lemma identified_same (i i' : ipl_state W) b m : ip_ram i' = ip_ram i ->
  file_at (dev (ip_files i')) bios_path = file_at (dev (ip_files i)) bios_path ->
  identified i' b m -> identified i b m.
Proof.
  intros Er Ef Hid. unfold identified, source, first_crc, first_code, fetched, is_file, ip_mem in *.
  rewrite Er, Ef in Hid. exact Hid.
Qed.
Lemma unknown_same (i i' : ipl_state W) img : ip_ram i' = ip_ram i ->
  file_at (dev (ip_files i')) bios_path = file_at (dev (ip_files i)) bios_path -> source i' img ->
  source i img /\ first_crc i' img = first_crc i img /\ first_code i' img = first_code i img.
Proof.
  intros Er Ef Hs. unfold source, first_crc, first_code, fetched, is_file, ip_mem in *.
  rewrite Er. rewrite Ef in Hs. exact (conj Hs (conj eq_refl eq_refl)).
Qed.

(** What the shutdown of the library leaves. *)
Lemma shutdown_high m x : RAM_USED <= x ->
  store_word 0x800000D4 (load_word 0x800000D4 m)
    (store_word 0x800000C0 (load_word 0x800000C0 m)
      (store_word 0x800000F4 (load_word 0x800000F4 m) (reset_system m))) x = m x.
Proof.
  intros Hx. unfold store_word.
  rewrite !store_mem_out by (unfold RAM_USED in Hx; cbn [length be32_bytes]; lia). by apply reset_high.
Qed.

Lemma main_ok elf t argv w : mn_elf w = elf -> find_tables elf = Some t -> length (mn_string w) = 255%nat ->
  (forall b, b ∈ bios_table -> image_ok elf t b) -> layout_ok elf t ->
  ipl_ready (mn_ipl w) -> config_ok (dev (ip_files (mn_ipl w))) ->
  wp (main read_rom tv bios_addr polls memalign scan (Some random) reset_system is_dolphin junk argv)
    (ends_well elf t argv w) w.
Proof.
  intros He Ht Hs Himg Hlay [R1 R2 R3] Hconf. unfold main. apply wp_bind, wp_get, wp_bind.
  unfold of_option at 1, wp at 1. rewrite He, Ht. apply wp_bind.
  eapply wp_mono; [by apply settle_ok|]. intros _ w1 (l1 & -> & Hok1 & Hs1).
  apply wp_bind. unfold on_loads at 1, on_ipl at 1, on_ip_files at 1. apply wp_zoom, wp_zoom.
  assert (Hc1 : config_ok (dev l1)) by (intros text; rewrite (Hs1 config_path); apply Hconf).
  pose proof (load_settings_ends memalign scan returns memalign_size random l1 Hok1 Hc1) as Hset.
  cbn [mn_ipl ip_files with_loads set_mn_ipl set_ip_files].
  destruct (wp_elim _ _ _ Hset) as (o & l2 & Eset & Hok2 & Hs2 & Hend). unfold wp at 1. rewrite Eset.
  destruct o as [s|]; [|apply wp_ret; left; by exists l1].
  match goal with |- wp _ _ ?st => set (w2 := st) end.
  apply wp_bind. unfold set_sram_swiss. apply wp_modify. match goal with |- context [if negb (?a =? 0) then ?x else ?y] => set (w3 := if negb (a =? 0) then x else y) end.
  assert (E3 : exists p, w3 = mk_main (mn_ipl w2) (mk_sram p (sram_checks (mn_sram w)) (sram_boot_mode (mn_sram w))) (mn_elf w) (mn_string w)).
  { unfold w3. destruct (negb _); [by eexists|]. exists (sram_padding0 (mn_sram w)).
    unfold w2, set_mn_ipl, with_loads. cbn [mn_ipl mn_sram mn_elf mn_string set_mn_ipl].
    generalize (mn_sram w). by intros []. }
  destruct E3 as [pad E3]. rewrite E3. clear w3 E3. set (w3 := mk_main _ _ _ _).
  apply wp_bind. eapply wp_mono; [apply create_config_ok; exact Hok2|].
  intros x4 w4 Ho4. cbv beta in Ho4. clear x4. destruct Ho4 as (l4 & -> & Hok4 & Hf4).
  apply wp_bind. unfold on_ipl at 1. apply wp_zoom. cbn [mn_ipl with_loads set_mn_ipl].
  assert (Hir : ipl_ready (set_ip_files l4 (mn_ipl w3))).
  { split; [exact Hok4| |exact R3]. intros c. cbn [ip_files set_ip_files]. rewrite Hf4. cbn.
    rewrite (Hs2 bios_path), (Hs1 bios_path). apply R2. }
  set (i4 := set_ip_files l4 (mn_ipl w3)) in *.
  assert (Ei : ip_ram i4 = ip_ram (mn_ipl w)) by reflexivity.
  assert (Ef : file_at (dev (ip_files i4)) bios_path = file_at (dev (ip_files (mn_ipl w))) bios_path).
  { cbn [i4 ip_files set_ip_files]. rewrite Hf4. cbn. by rewrite (Hs2 bios_path), (Hs1 bios_path). }
  eapply wp_mono; [by apply load_ipl_main|]. intros o i5 Ho. clearbody i4.
  destruct o; [|destruct Ho|].
  2:{ apply wp_ret. right. left. destruct Ho as (img & Hsrc & Hun). exists img.
      destruct (unknown_same _ _ img Ei Ef Hsrc) as (Hsrc' & <- & <-). exact (conj Hsrc' Hun). }
  destruct Ho as (b & m & Hb & Hin & Hid & Hprobe). apply (identified_same _ _ _ _ Ei Ef) in Hid.
  unfold patch_and_start. apply wp_bind, wp_get, wp_bind. cbn [mn_ipl set_mn_ipl].
  unfold of_option at 1, wp at 1. rewrite Hb. apply wp_bind. unfold on_patch. apply wp_zoom.
  eapply wp_mono; [apply (apply_patches_ok elf t b (Himg b Hin)); [exact He|exact Hs]|].
  intros o p Ho. destruct o.
  2:{ apply wp_ret. right. right. destruct Ho as (q & Hq & Hz). exists b, m, q.
      exact (conj Hin (conj Hid (conj Hq Hz))). }
  destruct Ho as [Hres Hm]. apply wp_bind. unfold shut_down. apply wp_modify, wp_ret.
  exists b, s, (main_sd_device (dev (ip_files i5))), m, (ip_mem i5), l1.
  split; [exact Hin|]. split; [exact Hid|]. split; [exact Hprobe|]. split; [exact Hs1|]. split; [exact Hend|].
  split; [exact Hres|].
  match goal with |- Forall _ ?bs /\ _ => set (blks := bs) end.
  assert (Hx : forall x, RAM_USED <= x -> ip_mem (mn_ipl (set_mn_ipl (change_ip_mem (fun m0 =>
      store_word 0x800000D4 (load_word 0x800000D4 m0) (store_word 0x800000C0 (load_word 0x800000C0 m0)
        (store_word 0x800000F4 (load_word 0x800000F4 m0) (reset_system m0))))
        (mn_ipl (patch_update p (set_mn_ipl i5 (with_loads l4 w3))))) (patch_update p (set_mn_ipl i5 (with_loads l4 w3))))) x =
      store_blocks blks (place elf (all_sections elf t b) (ip_mem i5)) x).
  { intros x Hx. unfold ip_mem at 1, change_ip_mem, set_ip_ram. cbn [mn_ipl set_mn_ipl ip_ram ss_mem set_ss_mem].
    rewrite shutdown_high by done. exact (Hm x). }
  pose proof (Hlay b (progressive_for b s) (wants_passthrough argv (ip_mem (mn_ipl w)))
    (skip_animation (mn_sram w)) (Z.b2z is_dolphin) (main_sd_device (dev (ip_files i5))) Hin) as Hap.
  split.
  - apply Forall_forall. intros blk Hblk Hlow. 
    transitivity (load_mem blk.1 (length blk.2) (store_blocks blks (place elf (all_sections elf t b) (ip_mem i5)))).
    + apply load_mem_ext. intros y Hy. apply Hx. lia.
    + exact (store_blocks_in _ Hap blk _ Hblk).
  - intros x Hr Hout. rewrite Hx by done. rewrite store_blocks_out by done. by apply place_byte, chosen_inside, Himg.
Qed.
End Main.

(** C36. What the loader starts is a patched IPL that it knows, and it stops for
    three reasons only.  Take storage whose calls return, a configuration the
    parser can read, and an image of the patches that is well formed for each of
    the seven IPLs and whose pointers and variables do not overlap.  The loader
    comes to an end and never leaves through [exit].  It stops with a message if
    the settings end so (no memory, or the file does not load), if the code found
    is none of the seven, or if the image has no address for one of its pointers
    in this IPL.  Otherwise it starts the IPL, and then memory above the operating
    system's own holds each pointer at its routine's address in that IPL, each
    variable at what the configuration file, the console's settings memory and the
    command line say; every other byte is the one of the last section meant for
    this IPL that covers it, or else the code with the checksum and small data
    area of that row of the table, but for the word over a memory card's probe. *)
Theorem cubeboot_starts_patched_ipl {W} `{MainCard W} read_rom tv bios_addr polls memalign scan random
    reset_system is_dolphin junk elf t argv (w : main_state W)
    (Hreturns : device_returns W)
    (Hpolls : forall d, is_Some (ARWaitForDMA (polls d)))
    (Hrom : length (read_rom IPL_SIZE 0) = Z.to_nat IPL_SIZE)
    (Hmem : forall n addr buf, memalign n = Some (addr, buf) -> Z.of_nat (length buf) = n)
    (Hjunk : length junk = file_status_size)
    (Hreset : forall m x, RAM_USED <= x -> reset_system m x = m x)
    (Helf : mn_elf w = elf) (Htables : find_tables elf = Some t) (Hstring : length (mn_string w) = 255%nat)
    (Himage : forall b, b ∈ bios_table -> image_ok elf t b) (Hlayout : layout_ok elf t)
    (Hready : ipl_ready (mn_ipl w)) (Hconfig : config_ok (dev (ip_files (mn_ipl w)))) :
  exists o w', main read_rom tv bios_addr polls memalign scan (Some random) reset_system is_dolphin junk argv w = Some (o, w') /\
    ends_well read_rom memalign scan random is_dolphin elf t argv w o w'.
Proof. apply wp_elim, main_ok; assumption. Qed.

(** A console with an empty card, an IPL it knows and the small image. *)
#[export] Instance sim_main : MainDevice sim_dev := {
  main_files := sim_device;
  main_mkdir _ := fun d => Some (0, d);
  main_device_name _ := Some (str "sdb");
  main_sd_device _ := 3
}.
#[export] Instance sim_main_card : MainCard sim_dev.
Proof.
  refine {| main_reads := sim_reads; main_opens := sim_opens |}.
  - intros p d _. unfold wp. cbn. done.
  - intros p flags d _. unfold wp. cbn -[sim_lookup]. by destruct (sim_lookup p d).
Defined.
Lemma small_image_all b : b ∈ bios_table -> image_ok small_elf small_tables b.
Proof.
  intros Hb. unfold bios_table in Hb. rewrite !elem_of_cons in Hb.
  destruct Hb as [->|[->|[->|[->|[->|[->|[->|Hb]]]]]]]; [small_image..|]. by apply elem_of_nil in Hb.
Qed.
(** Its one pointer and one variable are apart, whatever is written there. *)
Lemma small_pointers b : b ∈ bios_table -> exists v, pointers small_elf small_tables b = [(0x81700100, v)].
Proof.
  intros Hb. unfold bios_table in Hb. rewrite !elem_of_cons in Hb.
  destruct Hb as [->|[->|[->|[->|[->|[->|[->|Hb]]]]]]]; [eexists; vm_compute; reflexivity..|].
  by apply elem_of_nil in Hb.
Qed.
Lemma small_values s fp skip : variables small_elf small_tables (settings_values s fp skip) = [(0x81700080, cube_color s)].
Proof. vm_compute. reflexivity. Qed.
Lemma small_devices dolphin sd : variables small_elf small_tables (device_values dolphin sd) = [].
Proof. vm_compute. reflexivity. Qed.
Lemma small_logo logo : logo_blocks small_elf small_tables logo = [].
Proof.
  unfold logo_blocks. assert (E : get_symbol_value small_elf small_tables (str "cube_logo_path") = 0) by (vm_compute; reflexivity).
  rewrite E. by destruct logo.
Qed.
Lemma small_layout : layout_ok small_elf small_tables.
Proof.
  intros b s fp skip dolphin sd Hb. unfold late_blocks. destruct (small_pointers b Hb) as [v ->].
  rewrite small_values, small_devices, small_logo. cbn [fmap list_fmap app].
  constructor; [constructor; [right; cbn; lia|constructor]|]. constructor; constructor.
Qed.
Definition known_main : main_state sim_dev :=
  mk_main known_console (mk_sram 0 true 0x80) small_elf (replicate 255 0).

(** The sources are the second row's, so none of the three reasons to stop holds. *)
Lemma known_starts memalign scan elf t o w' :
  ends_well (W := sim_dev) empty_rom memalign scan 7 false elf t [] known_main o w' ->
  (forall p, p ∈ pointers elf t ntsc_11_row -> p.2 <> 0) ->
  o = Started /\ exists s sd, s = no_settings /\
    Forall (fun blk => RAM_USED <= blk.1 -> load_mem blk.1 (length blk.2) (ip_mem (mn_ipl w')) = blk.2)
      (written (W := sim_dev) false elf t [] known_main ntsc_11_row s sd).
Proof.
  assert (Hnofile : forall (i : ipl_state sim_dev) img, i = known_console -> is_file i img -> False).
  { intros i img -> [Hf _]. discriminate Hf. }
  assert (Hrow : forall b m, b ∈ bios_table -> identified (W := sim_dev) empty_rom known_console b m -> b = ntsc_11_row).
  { intros b m Hb (img & _ & [[-> Hk]|(f & Hf & _)]); [|destruct (Hnofile _ _ eq_refl Hf)].
    apply known_row; [exact Hb|]. unfold first_crc, first_code in Hk. rewrite known_crc in Hk.
    rewrite <- (known_found img). exact Hk. }
  assert (Hset : forall l o, same_files (W := sim_dev) (ip_files known_console) l ->
    settings_end memalign scan 7 l o -> o = Settings.Settings no_settings).
  { intros l o' Hl He. pose proof (Hl config_path) as Hc. destruct He as [|? ? ? Ht|? ? ? ? ? ? ? Ht|? ? ? ? ? ? ? Ht];
      [reflexivity|rewrite Hc in Ht; discriminate Ht..]. }
  unfold ends_well. cbn [mn_ipl known_main]. intros He Hp. destruct o; [|destruct He|].
  - destruct He as (b & s & sd & m & m' & l & Hb & Hid & _ & Hl & Hs & _ & Hw & _).
    rewrite (Hrow _ _ Hb Hid) in Hw. split; [reflexivity|]. exists s, sd.
    pose proof (Hset _ _ Hl Hs) as E. injection E as ->. exact (conj eq_refl Hw).
  - exfalso. destruct He as [(l & Hl & Hs)|[(img & _ & Hun)|(b & m & p & Hb & Hid & Hin & Hz)]].
    + pose proof (Hset _ _ Hl Hs) as E. discriminate E.
    + exact (known_matches img Hun).
    + rewrite (Hrow _ _ Hb Hid) in Hin. exact (Hp p Hin Hz).
Qed.
Lemma small_resolved p : p ∈ pointers small_elf small_tables ntsc_11_row -> p.2 <> 0.
Proof.
  assert (E : pointers small_elf small_tables ntsc_11_row = [(0x81700100, 0x81301234)]) by (vm_compute; reflexivity).
  rewrite E. intros ->%list_elem_of_singleton. discriminate.
Qed.
Lemma small_written s sd : hd (0, []) (written (W := sim_dev) false small_elf small_tables [] known_main ntsc_11_row s sd)
  = (0x81700100, be32_bytes 0x81301234).
Proof.
  unfold written, late_blocks.
  assert (E : pointers small_elf small_tables ntsc_11_row = [(0x81700100, 0x81301234)]) by (vm_compute; reflexivity).
  rewrite E. reflexivity.
Qed.
Lemma first_block (l : list block) (P : block -> Prop) : Forall P l -> l <> [] -> P (hd (0, []) l).
Proof. by destruct 1. Qed.

Lemma cubeboot_starts_patched_ipl_witness : exists w',
  main empty_rom 0 0x80400000 (fun _ => [0x200; 0]) (fun _ => None) (fun _ _ => (0, None)) (Some 7) (fun m => m) false
    (replicate file_status_size 0) [] known_main = Some (Started, w') /\
  load_mem 0x81700100 4 (ip_mem (mn_ipl w')) = be32_bytes 0x81301234.
Proof.
  destruct (cubeboot_starts_patched_ipl empty_rom 0 0x80400000 (fun _ => [0x200; 0]) (fun _ => None)
    (fun _ _ => (0, None)) 7 (fun m => m) false (replicate file_status_size 0) small_elf small_tables [] known_main)
    as (o & w' & E & He).
  - exact sim_returns.
  - intros d. by eexists.
  - apply length_replicate.
  - discriminate.
  - apply length_replicate.
  - reflexivity.
  - reflexivity.
  - vm_compute. reflexivity.
  - apply length_replicate.
  - exact small_image_all.
  - exact small_layout.
  - exact known_ready.
  - discriminate.
  - destruct (known_starts _ _ _ _ o w' He small_resolved) as (-> & s & sd & _ & Hw).
    exists w'. split; [exact E|].
    pose proof (small_written s sd) as Hh. apply first_block in Hw; [|intros En; rewrite En in Hh; discriminate Hh].
    rewrite Hh in Hw. apply Hw. discriminate.
Defined.
