(* ===== verification/Texture.v ===== *)
(** Textures in the layout of the graphics processor
    (src/patches/source/metaphrasis.c and GRRLIB_pixel.h): tiles of four by four
    pixels, row by row, a tile's alpha and red bytes before its green and blue
    ones.

    A picture is the list of its bytes, a read outside it has no run. *)

From S2P Require Import Prelude.

(** [0, 4, ...] below a bound: the values of the loops' counters.  Below a bound of
    more than 65532 the 16-bit counter wraps for ever, and the loop has no end. *)
Definition below (n : Z) : list Z := (fun k => 4 * Z.of_nat k) <$> seq 0 (Z.to_nat ((n + 3) / 4)).
Definition fours (n : Z) : option (list Z) := if n <=? 65532 then Some (below n) else None.

(** ** From rows to tiles, 32 bits a pixel *)

Definition ar_bytes : list Z := [3; 0; 7; 4; 11; 8; 15; 12].
Definition gb_bytes : list Z := [1; 2; 5; 6; 9; 10; 13; 14].
Definition tile_row (src : list Z) (bufferWidth block i c : Z) (bytes : list Z) : option (list Z) :=
  let blockWid := u32 (Z.shiftl (u32 (u32 ((block + c) * bufferWidth) + i)) 2) in
  mapM (fun o => src !! Z.to_nat (u32 (blockWid + o))) bytes.
Definition tile (src : list Z) (bufferWidth block i : Z) : option (list Z) :=
  ar ← mapM (fun c => tile_row src bufferWidth block i c ar_bytes) [0; 1; 2; 3];
  gb ← mapM (fun c => tile_row src bufferWidth block i c gb_bytes) [0; 1; 2; 3];
  Some (concat (ar ++ gb)).
Definition tiles (src : list Z) (bufferWidth bufferHeight : Z) : option (list Z) :=
  blocks ← fours bufferHeight;
  rows ← mapM (fun block => columns ← fours bufferWidth; mapM (tile src bufferWidth block) columns) blocks;
  Some (concat (concat rows)).
(** The pixels are put at the beginning of the output buffer. *)
Definition fill (out bytes : list Z) : option (list Z) :=
  if (length bytes <=? length out)%nat then Some (splice 0 bytes out) else None.
Definition Metaphrasis_convertBufferToRGBA8 (src out : list Z) (bufferWidth bufferHeight : Z) : option (list Z) :=
  let bufferWidth := u16 bufferWidth in
  let bufferHeight := u16 bufferHeight in
  bytes ← tiles src bufferWidth bufferHeight; fill out bytes.

(** ** From rows to tiles, 16 bits a pixel *)

Definition RGBA_TO_RGB555 (x : Z) : Z :=
  Z.lor (Z.lor (Z.lor (Z.shiftr (Z.land x 0xf8000000) 17) (Z.shiftr (Z.land x 0x00f80000) 14))
    (Z.shiftr (Z.land x 0x0000f800) 11)) 0x8000.
Definition RGBA_TO_RGB444 (x : Z) : Z :=
  Z.lor (Z.lor (Z.lor (Z.shiftr (Z.land x 0xf0000000) 17) (Z.shiftr (Z.land x 0x00f00000) 13))
    (Z.shiftr (Z.land x 0x0000f000) 9)) (Z.shiftr (Z.land x 0x000000e0) 5).
Definition RGBA_TO_RGB5A3 (x : Z) : Z := if Z.land x 0xff <? 0xe0 then RGBA_TO_RGB444 x else RGBA_TO_RGB555 x.
(** [src] is the list of its words here, and so is the result.  The index is a
    signed number of 32 bits that must not overflow. *)
Definition short_row (src : list Z) (bufferWidth y x rows : Z) : option (list Z) :=
  mapM (fun k =>
    let i := (y + rows) * bufferWidth + (x + k) in
    v ← (if i <? 2 ^ 31 then src !! Z.to_nat i else None); Some (u16 (RGBA_TO_RGB5A3 v))) [0; 1; 2; 3].
Definition short_tile (src : list Z) (bufferWidth y x : Z) : option (list Z) :=
  rows ← mapM (short_row src bufferWidth y x) [0; 1; 2; 3]; Some (concat rows).
Definition Metaphrasis_convertBufferToRGB5A3 (src out : list Z) (bufferWidth bufferHeight : Z) : option (list Z) :=
  let bufferWidth := u16 bufferWidth in
  let bufferHeight := u16 bufferHeight in
  ys ← fours bufferHeight;
  rows ← mapM (fun y => xs ← fours bufferWidth; mapM (short_tile src bufferWidth y) xs) ys;
  fill out (concat (concat rows)).

(** ** Single pixels *)

Definition pixel_offs (x y width : Z) : Z :=
  u32 (u32 (Z.shiftl (Z.land y (Z.lnot 3)) 2 * width) + Z.shiftl (Z.land x (Z.lnot 3)) 4
       + Z.shiftl (Z.shiftl (Z.land y 3) 2 + Z.land x 3) 1).
Definition half_at (data : list Z) (offs : Z) : option Z :=
  h ← data !! Z.to_nat offs; l ← data !! Z.to_nat (offs + 1); Some (h * 256 + l).
Definition GRRLIB_GetPixelFromtexImg (x y : Z) (data : list Z) (width : Z) : option Z :=
  let offs := pixel_offs x y width in
  ar ← half_at data offs;
  gb ← half_at data (offs + 32);
  Some (Z.lor (Z.lor (u32 (Z.shiftl ar 24)) (Z.shiftl gb 8)) (Z.shiftr ar 8)).
Definition set_half (data : list Z) (offs v : Z) : option (list Z) :=
  if offs + 2 <=? Z.of_nat (length data) then Some (splice (Z.to_nat offs) [u8 (Z.shiftr v 8); u8 v] data) else None.
Definition GRRLIB_SetPixelTotexImg (x y : Z) (data : list Z) (width color : Z) : option (list Z) :=
  let offs := pixel_offs x y width in
  data ← set_half data offs (u16 (Z.lor (u32 (Z.shiftl color 8)) (Z.shiftr color 24)));
  set_half data (offs + 32) (u16 (Z.shiftr color 8)).
