(* ===== verification/TextureThms.v ===== *)
(** A texture is a picture: converting puts every pixel where the single-pixel
    routines look for it, and those read and write one pixel each. *)

From S2P Require Import Prelude Bits Texture.

(** ** Places *)

Lemma land_fours y : 0 <= y -> Z.land y (Z.lnot 3) = 4 * (y / 4).
Proof.
  intros. rewrite <- Z.ldiff_land. change 3 with (Z.ones 2). rewrite Z.ldiff_ones_r by lia.
  rewrite shl, shr by lia. change (2 ^ 2) with 4. lia.
Qed.
Lemma land_3 y : Z.land y 3 = y mod 4.
Proof. by apply (land_mask y 2). Qed.

(** The number of a pixel's tile and its number in the tile. *)
Definition tile_of (x y width : Z) : Z := y / 4 * (width / 4) + x / 4.
Definition in_tile (x y : Z) : Z := 4 * (y mod 4) + x mod 4.

Definition fits (x y width height : Z) : Prop := 0 <= x < width /\ 0 <= y < height.
(** The pictures the routines are for: whole tiles, sizes that fit a half word and
    offsets that fit a word. *)
Definition tiled (width height : Z) : Prop :=
  0 < width < 2 ^ 16 /\ 0 < height < 2 ^ 16 /\ width mod 4 = 0 /\ height mod 4 = 0 /\ 4 * width * height < 2 ^ 32.

Lemma in_tile_range x y : 0 <= in_tile x y < 16.
Proof. unfold in_tile. pose proof (Z.mod_pos_bound x 4). pose proof (Z.mod_pos_bound y 4). lia. Qed.
Lemma tile_of_range x y w h : tiled w h -> fits x y w h -> 0 <= tile_of x y w < (w / 4) * (h / 4).
Proof.
  intros (Hw & Hh & Ew & Eh & _) [Hx Hy]. unfold tile_of.
  assert (0 <= x / 4 < w / 4) by zdm. assert (0 <= y / 4 < h / 4) by zdm. nia.
Qed.
Lemma tiled_bytes w h : tiled w h -> 4 * w * h = 64 * ((w / 4) * (h / 4)).
Proof.
  intros (Hw & Hh & Ew & Eh & _).
  assert (E1 : w = 4 * (w / 4)) by zdm. assert (E2 : h = 4 * (h / 4)) by zdm.
  rewrite E1, E2 at 1. ring.
Qed.
Lemma pixel_offs_eq x y w h : tiled w h -> fits x y w h -> pixel_offs x y w = 64 * tile_of x y w + 2 * in_tile x y.
Proof.
  intros Ht Hf. pose proof (tile_of_range x y w h Ht Hf) as Hr. pose proof (in_tile_range x y) as Hi.
  pose proof (tiled_bytes w h Ht) as Hb. destruct Ht as (Hw & Hh & Ew & Eh & Hs), Hf as [Hx Hy].
  unfold pixel_offs. rewrite !land_fours, !land_3, !shl by lia.
  assert (E : 4 * (y / 4) * 2 ^ 2 * w = 64 * (y / 4 * (w / 4))) by (assert (w = 4 * (w / 4)) by zdm; nia).
  unfold tile_of, in_tile in *. rewrite E. assert (0 <= x / 4 < w / 4) by zdm. assert (0 <= y / 4) by zdm.
  unfold u32. rewrite (Z.mod_small (64 * (y / 4 * (w / 4)))) by nia.
  rewrite Z.mod_small by lia. lia.
Qed.

(** ** Words *)

Lemma get_word r g b a : 0 <= r < 256 -> 0 <= g < 256 -> 0 <= b < 256 -> 0 <= a < 256 ->
  Z.lor (Z.lor (u32 (Z.shiftl (a * 256 + r) 24)) (Z.shiftl (g * 256 + b) 8)) (Z.shiftr (a * 256 + r) 8) = be32 [r; g; b; a] 0.
Proof.
  intros Hr Hg Hb Ha. rewrite !shl, shr by lia.
  replace (u32 ((a * 256 + r) * 2 ^ 24)) with (r * 2 ^ 24) by (unfold u32; zdm).
  replace ((a * 256 + r) / 2 ^ 8) with a by zdm.
  rewrite (lor_fields ((g * 256 + b) * 2 ^ 8) r 24) by lia.
  replace (r * 2 ^ 24 + (g * 256 + b) * 2 ^ 8) with ((r * 2 ^ 16 + g * 256 + b) * 2 ^ 8) by lia.
  rewrite lor_fields by lia. unfold be32. cbn [nth Nat.add]. lia.
Qed.
Lemma set_words r g b a : 0 <= r < 256 -> 0 <= g < 256 -> 0 <= b < 256 -> 0 <= a < 256 ->
  let c := be32 [r; g; b; a] 0 in
  let ar := u16 (Z.lor (u32 (Z.shiftl c 8)) (Z.shiftr c 24)) in
  let gb := u16 (Z.shiftr c 8) in
  [u8 (Z.shiftr ar 8); u8 ar] = [a; r] /\ [u8 (Z.shiftr gb 8); u8 gb] = [g; b].
Proof.
  intros Hr Hg Hb Ha c ar gb.
  assert (Ec : c = r * 2 ^ 24 + g * 2 ^ 16 + b * 2 ^ 8 + a) by (unfold c, be32; cbn [nth Nat.add]; lia).
  assert (Ear : ar = a * 256 + r).
  { unfold ar. rewrite shl, shr by lia.
    replace (u32 (c * 2 ^ 8)) with ((g * 2 ^ 16 + b * 2 ^ 8 + a) * 2 ^ 8) by (unfold u32; rewrite Ec; zdm).
    replace (c / 2 ^ 24) with r by (rewrite Ec; zdm).
    rewrite lor_fields by lia. unfold u16. zdm. }
  assert (Egb : gb = g * 256 + b).
  { unfold gb. rewrite shr by lia. replace (c / 2 ^ 8) with (r * 2 ^ 16 + g * 2 ^ 8 + b) by (rewrite Ec; zdm).
    unfold u16. zdm. }
  rewrite Ear, Egb, !shr by lia. unfold u8. split; f_equal; [zdm|f_equal; zdm|zdm|f_equal; zdm].
Qed.

(** ** Reading a pixel *)

Definition is_byte (b : Z) : Prop := 0 <= b < 256.

Lemma get_pixel_ok x y data w h r g b a : tiled w h -> fits x y w h ->
  let o := Z.to_nat (64 * tile_of x y w + 2 * in_tile x y) in
  data !! o = Some a -> data !! (o + 1)%nat = Some r -> data !! (o + 32)%nat = Some g -> data !! (o + 33)%nat = Some b ->
  is_byte r -> is_byte g -> is_byte b -> is_byte a ->
  GRRLIB_GetPixelFromtexImg x y data w = Some (be32 [r; g; b; a] 0).
Proof.
  intros Ht Hf o Ha Hr Hg Hb Br Bg Bb Ba. unfold GRRLIB_GetPixelFromtexImg.
  rewrite (pixel_offs_eq x y w h Ht Hf). pose proof (tile_of_range x y w h Ht Hf). pose proof (in_tile_range x y).
  set (n := 64 * tile_of x y w + 2 * in_tile x y) in *. assert (0 <= n) by lia. unfold half_at.
  replace (Z.to_nat (n + 1)) with (o + 1)%nat by lia. replace (Z.to_nat (n + 32)) with (o + 32)%nat by lia.
  replace (Z.to_nat (n + 32 + 1)) with (o + 33)%nat by lia. fold o. rewrite Ha, Hr, Hg, Hb. cbn [mbind option_bind].
  f_equal. by apply get_word.
Qed.

(** ** Converting *)

Lemma mapM_fmap_eq {A B} (f : A -> option B) (g : A -> B) l :
  Forall (fun x => f x = Some (g x)) l -> mapM f l = Some (g <$> l).
Proof. induction 1 as [|x l Hx _ IH]; [done|]. cbn. by rewrite Hx, IH. Qed.

Lemma below_eq n : 0 <= n -> n mod 4 = 0 -> below n = (fun k => 4 * Z.of_nat k) <$> seq 0 (Z.to_nat (n / 4)).
Proof. intros Hn E. unfold below. do 2 f_equal. f_equal. zdm. Qed.
Lemma below_in n k : 0 <= n -> n mod 4 = 0 -> k ∈ below n -> 0 <= k /\ k + 4 <= n /\ k mod 4 = 0.
Proof.
  intros Hn E. rewrite below_eq by done. intros (i & -> & Hi)%list_elem_of_fmap. apply elem_of_seq in Hi. zdm.
Qed.

(** The bytes of a tile, as they are found in the picture. *)
Definition pixel_at (src : list Z) (w y x : Z) (byte : Z) : Z := nth (Z.to_nat (4 * (y * w + x) + byte)) src 0.
Definition pure_row (src : list Z) (w block i c : Z) (bytes : list Z) : list Z :=
  (fun o => nth (Z.to_nat (4 * ((block + c) * w + i) + o)) src 0) <$> bytes.
Definition pure_tile (src : list Z) (w block i : Z) : list Z :=
  concat ((fun c => pure_row src w block i c ar_bytes) <$> [0; 1; 2; 3]) ++
  concat ((fun c => pure_row src w block i c gb_bytes) <$> [0; 1; 2; 3]).
Lemma length_pure_tile src w block i : length (pure_tile src w block i) = 64%nat.
Proof. reflexivity. Qed.

Section Convert.
Context (src : list Z) (w h : Z).
Hypothesis (Ht : tiled w h) (Hlen : Z.of_nat (length src) = 4 * w * h).

Lemma tile_row_ok block i c bytes : 0 <= block -> 0 <= c -> block + c < h -> 0 <= i -> i + 4 <= w ->
  Forall (fun o => 0 <= o < 16) bytes -> tile_row src w block i c bytes = Some (pure_row src w block i c bytes).
Proof.
  intros Hb Hc Hbc Hi Hiw Ho. destruct Ht as (Hw & Hh & _ & _ & Hs). unfold tile_row, pure_row. apply mapM_fmap_eq.
  eapply Forall_impl; [exact Ho|]. cbn beta. intros o Hor.
  assert (Hx : 0 <= (block + c) * w + i /\ (block + c) * w + i + 4 <= w * h) by nia.
  rewrite shl by lia. unfold u32.
  assert (0 <= (block + c) * w) by nia.
  rewrite (Z.mod_small ((block + c) * w)) by lia. rewrite (Z.mod_small (_ + i)) by lia.
  rewrite (Z.mod_small (_ * 2 ^ 2)) by lia. rewrite Z.mod_small by lia.
  replace (((block + c) * w + i) * 2 ^ 2 + o) with (4 * ((block + c) * w + i) + o) by lia.
  destruct (lookup_lt_is_Some_2 src (Z.to_nat (4 * ((block + c) * w + i) + o))) as [v Ev]; [lia|]. rewrite Ev. f_equal. symmetry. by apply nth_lookup_Some.
Qed.

Lemma tile_ok block i : block ∈ below h -> i ∈ below w -> tile src w block i = Some (pure_tile src w block i).
Proof.
  pose proof Ht as (Hw & Hh & Ew & Eh & _). intros Hb Hi.
  apply below_in in Hb as (Hb0 & Hb4 & _); [|lia|done]. apply below_in in Hi as (Hi0 & Hi4 & _); [|lia|done].
  unfold tile.
  assert (Hrows : forall bytes, Forall (fun o => 0 <= o < 16) bytes ->
    mapM (fun c => tile_row src w block i c bytes) [0; 1; 2; 3] = Some ((fun c => pure_row src w block i c bytes) <$> [0; 1; 2; 3])).
  { intros bytes Ho. apply mapM_fmap_eq. repeat apply Forall_cons_2; try apply Forall_nil_2;
      (apply tile_row_ok; [lia..|exact Ho]). }
  rewrite (Hrows ar_bytes), (Hrows gb_bytes) by (unfold ar_bytes, gb_bytes; repeat apply Forall_cons_2; try apply Forall_nil_2; lia).
  cbn [mbind option_bind]. unfold pure_tile. by rewrite concat_app.
Qed.

(** All tiles, the ones of a row after each other. *)
Definition tile_line (block : nat) : list Z :=
  pieces (fun i => pure_tile src w (4 * Z.of_nat block) (4 * Z.of_nat i)) (Z.to_nat (w / 4)).
Lemma length_tile_line n : length (tile_line n) = (Z.to_nat (w / 4) * 64)%nat.
Proof. unfold tile_line. by apply length_pieces. Qed.
Lemma tiles_ok : tiles src w h = Some (pieces tile_line (Z.to_nat (h / 4))).
Proof.
  pose proof Ht as (Hw & Hh & Ew & Eh & _). unfold tiles, fours.
  rewrite !(proj2 (Z.leb_le _ 65532)) by zdm. cbn [mbind option_bind].
  rewrite (mapM_fmap_eq _ (fun block => pure_tile src w block <$> below w)).
  2:{ apply Forall_forall. intros block Hb. apply mapM_fmap_eq, Forall_forall. intros i Hi. by apply tile_ok. }
  cbn [mbind option_bind]. f_equal. unfold pieces. rewrite (below_eq h), (below_eq w) by lia.
  rewrite <- list_fmap_compose. generalize (seq 0 (Z.to_nat (h / 4))). intros l.
  induction l as [|b l IH]; [done|]. cbn [fmap list_fmap concat]. rewrite concat_app, IH. f_equal.
  unfold tile_line, pieces, compose. by rewrite <- list_fmap_compose.
Qed.
Lemma length_tiles : length (pieces tile_line (Z.to_nat (h / 4))) = length src.
Proof.
  rewrite (length_pieces tile_line (Z.to_nat (w / 4) * 64)) by apply length_tile_line.
  pose proof (tiled_bytes w h Ht). destruct Ht as (Hw & Hh & _). assert (0 <= w / 4) by zdm. assert (0 <= h / 4) by zdm. nia.
Qed.

(** Where a byte of a tile is. *)
Lemma lookup_tiles x y j : fits x y w h -> (j < 64)%nat ->
  pieces tile_line (Z.to_nat (h / 4)) !! (Z.to_nat (64 * tile_of x y w) + j)%nat =
  pure_tile src w (4 * (y / 4)) (4 * (x / 4)) !! j.
Proof.
  intros [Hx Hy] Hj. pose proof Ht as (Hw & Hh & Ew & Eh & _).
  assert (Hxi : 0 <= x / 4 < w / 4) by zdm. assert (Hyi : 0 <= y / 4 < h / 4) by zdm.
  set (bi := Z.to_nat (y / 4)). set (ii := Z.to_nat (x / 4)). set (wn := Z.to_nat (w / 4)) in *.
  replace (Z.to_nat (64 * tile_of x y w) + j)%nat with (bi * (wn * 64) + (ii * 64 + j))%nat by (unfold tile_of, bi, ii, wn; nia).
  rewrite <- (lookup_slice (bi * (wn * 64)) (1 * (wn * 64))) by (unfold ii, wn in *; nia).
  rewrite (slice_pieces tile_line (wn * 64)) by (first [apply length_tile_line|unfold bi; lia]).
  unfold pieces at 1. cbn [seq fmap list_fmap concat]. rewrite app_nil_r, Nat.add_0_r.
  rewrite <- (lookup_slice (ii * 64) (1 * 64)) by lia. unfold tile_line.
  rewrite (slice_pieces _ 64) by (first [intros; apply length_pure_tile|unfold ii, wn; lia]).
  unfold pieces. cbn [seq fmap list_fmap concat]. rewrite app_nil_r, Nat.add_0_r.
  unfold bi, ii. by rewrite !Z2Nat.id by lia.
Qed.

(** A pixel's bytes in its tile. *)
Lemma lookup_pure_tile block i r k : 0 <= r < 4 -> 0 <= k < 4 ->
  let o := Z.to_nat (2 * (4 * r + k)) in
  let pixel byte := nth (Z.to_nat (4 * ((block + r) * w + i) + (4 * k + byte))) src 0 in
  let t := pure_tile src w block i in
  t !! o = Some (pixel 3) /\ t !! (o + 1)%nat = Some (pixel 0) /\
  t !! (o + 32)%nat = Some (pixel 1) /\ t !! (o + 33)%nat = Some (pixel 2).
Proof.
  intros Hr Hk. assert (Er : r = 0 \/ r = 1 \/ r = 2 \/ r = 3) by lia. assert (Ek : k = 0 \/ k = 1 \/ k = 2 \/ k = 3) by lia.
  destruct Er as [->|[->|[->| ->]]], Ek as [->|[->|[->| ->]]]; cbv zeta; split_and!; reflexivity.
Qed.

Lemma convert_ok out : (length src <= length out)%nat ->
  exists out', Metaphrasis_convertBufferToRGBA8 src out w h = Some out' /\ length out' = length out /\
  (Forall is_byte src -> forall x y, fits x y w h ->
     GRRLIB_GetPixelFromtexImg x y out' w = Some (be32 src (Z.to_nat (4 * (y * w + x))))).
Proof.
  intros Hout. pose proof Ht as (Hw & Hh & _). unfold Metaphrasis_convertBufferToRGBA8, u16.
  rewrite !Z.mod_small by lia. rewrite tiles_ok. clear Hw Hh. cbn [mbind option_bind]. unfold fill.
  rewrite length_tiles. rewrite (proj2 (Nat.leb_le _ _)) by done. eexists. split; [reflexivity|].
  split; [apply length_splice; rewrite length_tiles; lia|]. intros Hsrc x y Hf.
  pose proof (in_tile_range x y) as Hi. pose proof (tile_of_range x y w h Ht Hf) as Hr. pose proof (tiled_bytes w h Ht) as Hb.
  assert (Hj : forall j, (j < 64)%nat -> splice 0 (pieces tile_line (Z.to_nat (h / 4))) out !! (Z.to_nat (64 * tile_of x y w) + j)%nat =
      pure_tile src w (4 * (y / 4)) (4 * (x / 4)) !! j).
  { intros j Hj. rewrite lookup_splice_in by (rewrite ?length_tiles; lia). rewrite Nat.sub_0_r. by apply lookup_tiles. }
  destruct (lookup_pure_tile (4 * (y / 4)) (4 * (x / 4)) (y mod 4) (x mod 4)) as (L1 & L2 & L3 & L4);
    [apply Z.mod_pos_bound; lia..|]. fold (in_tile x y) in L1, L2, L3, L4.
  destruct Hf as [Hx Hy].
  assert (Ea : forall byte, 0 <= byte < 4 -> nth (Z.to_nat (4 * ((4 * (y / 4) + y mod 4) * w + 4 * (x / 4)) + (4 * (x mod 4) + byte))) src 0 =
                 nth (Z.to_nat (4 * (y * w + x)) + Z.to_nat byte) src 0).
  { intros byte Hbyte. f_equal. rewrite <- (Z.div_mod y 4) by lia. rewrite <- Z2Nat.inj_add by nia. f_equal.
    pose proof (Z.div_mod x 4). lia. }
  rewrite Ea in L1, L2, L3, L4 by lia.
  assert (Hb' : forall n, is_byte (nth n src 0)).
  { intros n. rewrite nth_lookup. destruct (src !! n) as [v|] eqn:Ev; [exact (Forall_lookup_1 _ _ _ _ Hsrc Ev)|].
    unfold is_byte. cbn. lia. }
  rewrite (get_pixel_ok x y _ w h (nth (Z.to_nat (4 * (y * w + x)) + Z.to_nat 0) src 0) (nth (Z.to_nat (4 * (y * w + x)) + Z.to_nat 1) src 0)
    (nth (Z.to_nat (4 * (y * w + x)) + Z.to_nat 2) src 0) (nth (Z.to_nat (4 * (y * w + x)) + Z.to_nat 3) src 0)); try apply Hb'; try done.
  - f_equal. unfold be32. cbn [nth Nat.add]. rewrite Nat.add_0_r. done.
  - rewrite Z2Nat.inj_add by lia. rewrite Hj by lia. exact L1.
  - rewrite Z2Nat.inj_add, <- Nat.add_assoc by lia. rewrite Hj by lia. exact L2.
  - rewrite Z2Nat.inj_add, <- Nat.add_assoc by lia. rewrite Hj by lia. exact L3.
  - rewrite Z2Nat.inj_add, <- Nat.add_assoc by lia. rewrite Hj by lia. exact L4.
Qed.
End Convert.

(** ** Writing a pixel *)

Lemma place_inj x y x' y' w h : tiled w h -> fits x y w h -> fits x' y' w h ->
  tile_of x y w = tile_of x' y' w -> in_tile x y = in_tile x' y' -> x = x' /\ y = y'.
Proof.
  intros (Hw & Hh & Ew & _ & _) [Hx _] [Hx' _]. unfold tile_of, in_tile. intros Et Ei.
  assert (0 <= x / 4 < w / 4) by zdm. assert (0 <= x' / 4 < w / 4) by zdm.
  assert (y / 4 = y' / 4) by nia. assert (x / 4 = x' / 4) by nia. zdm.
Qed.

Lemma get_pixel_ext x y w h data data' : tiled w h -> fits x y w h ->
  let o := Z.to_nat (64 * tile_of x y w + 2 * in_tile x y) in
  (forall j, j ∈ [0; 1; 32; 33]%nat -> data !! (o + j)%nat = data' !! (o + j)%nat) ->
  GRRLIB_GetPixelFromtexImg x y data w = GRRLIB_GetPixelFromtexImg x y data' w.
Proof.
  intros Ht Hf o Hj. unfold GRRLIB_GetPixelFromtexImg, half_at. rewrite (pixel_offs_eq x y w h Ht Hf).
  pose proof (tile_of_range x y w h Ht Hf). pose proof (in_tile_range x y).
  set (n := 64 * tile_of x y w + 2 * in_tile x y) in *. assert (0 <= n) by lia.
  replace (Z.to_nat n) with (o + 0)%nat by lia. replace (Z.to_nat (n + 1)) with (o + 1)%nat by lia.
  replace (Z.to_nat (n + 32)) with (o + 32)%nat by lia. replace (Z.to_nat (n + 32 + 1)) with (o + 33)%nat by lia.
  rewrite !Hj by set_solver. reflexivity.
Qed.

Lemma set_pixel_ok x y w h data r g b a : tiled w h -> fits x y w h -> 4 * w * h <= Z.of_nat (length data) ->
  is_byte r -> is_byte g -> is_byte b -> is_byte a ->
  let o := Z.to_nat (64 * tile_of x y w + 2 * in_tile x y) in
  (o + 34 <= length data)%nat /\
  GRRLIB_SetPixelTotexImg x y data w (be32 [r; g; b; a] 0) = Some (splice (o + 32) [g; b] (splice o [a; r] data)).
Proof.
  intros Ht Hf Hlen Br Bg Bb Ba o. pose proof (tile_of_range x y w h Ht Hf). pose proof (in_tile_range x y).
  pose proof (tiled_bytes w h Ht). unfold o. set (n := 64 * tile_of x y w + 2 * in_tile x y) in *.
  assert (Hn : 0 <= n /\ n + 34 <= Z.of_nat (length data)) by lia. split; [lia|].
  unfold GRRLIB_SetPixelTotexImg. cbv zeta. rewrite (pixel_offs_eq x y w h Ht Hf). fold n.
  destruct (set_words r g b a Br Bg Bb Ba) as [E1 E2]. unfold set_half. rewrite E1, E2.
  rewrite (proj2 (Z.leb_le (n + 2) _)) by lia. cbn [mbind option_bind].
  rewrite length_splice by (cbn [length]; lia). rewrite (proj2 (Z.leb_le _ _)) by lia.
  do 2 f_equal. lia.
Qed.

Lemma set_then_get x y w h data r g b a : tiled w h -> fits x y w h -> 4 * w * h <= Z.of_nat (length data) ->
  is_byte r -> is_byte g -> is_byte b -> is_byte a ->
  let color := be32 [r; g; b; a] 0 in
  exists data', GRRLIB_SetPixelTotexImg x y data w color = Some data' /\ length data' = length data /\
    forall x' y', fits x' y' w h -> GRRLIB_GetPixelFromtexImg x' y' data' w =
      if decide (x' = x /\ y' = y) then Some color else GRRLIB_GetPixelFromtexImg x' y' data w.
Proof.
  intros Ht Hf Hlen Br Bg Bb Ba color.
  destruct (set_pixel_ok x y w h data r g b a Ht Hf Hlen Br Bg Bb Ba) as [Ho E]. eexists. split; [exact E|].
  split; [rewrite !length_splice; cbn [length]; rewrite ?length_splice; cbn [length]; lia|]. intros x' y' Hf'.
  set (o := Z.to_nat (64 * tile_of x y w + 2 * in_tile x y)) in *.
  assert (Hl : forall j, splice (o + 32) [g; b] (splice o [a; r] data) !! j =
    if decide (j = o) then Some a else if decide (j = o + 1)%nat then Some r else
    if decide (j = o + 32)%nat then Some g else if decide (j = o + 33)%nat then Some b else data !! j).
  { intros j. assert (Hs : length (splice o [a; r] data) = length data) by (apply length_splice; cbn [length]; lia).
    destruct (decide (j = o + 32 \/ j = o + 33)%nat) as [Hj|Hj].
    - rewrite lookup_splice_in by (cbn [length]; lia). rewrite !(decide_False (P := j = o)) by lia.
      rewrite !(decide_False (P := j = (o + 1)%nat)) by lia.
      destruct Hj as [->| ->]; [rewrite decide_True by done|rewrite decide_False by lia; rewrite decide_True by done].
      + by replace (o + 32 - (o + 32))%nat with 0%nat by lia.
      + by replace (o + 33 - (o + 32))%nat with 1%nat by lia.
    - rewrite lookup_splice_out by (cbn [length]; lia).
      rewrite (decide_False (P := j = (o + 32)%nat)) by lia. rewrite (decide_False (P := j = (o + 33)%nat)) by lia.
      destruct (decide (j = o)) as [->|]; [|destruct (decide (j = o + 1)%nat) as [->|]].
      + rewrite lookup_splice_in by (cbn [length]; lia). by rewrite Nat.sub_diag.
      + rewrite lookup_splice_in by (cbn [length]; lia). by replace (o + 1 - o)%nat with 1%nat by lia.
      + by rewrite lookup_splice_out by (cbn [length]; lia). }
  case_decide as Exy.
  - destruct Exy as [-> ->]. apply (get_pixel_ok x y _ w h r g b a Ht Hf); try done; fold o; rewrite Hl;
      repeat first [rewrite decide_True by done; reflexivity|rewrite decide_False by lia].
  - apply (get_pixel_ext x' y' w h _ _ Ht Hf'). intros j Hj.
    assert (Hne : tile_of x' y' w <> tile_of x y w \/ in_tile x' y' <> in_tile x y).
    { destruct (decide (tile_of x' y' w = tile_of x y w)); [|by left].
      destruct (decide (in_tile x' y' = in_tile x y)); [|by right].
      destruct Exy. by apply (place_inj x' y' x y w h). }
    pose proof (tile_of_range x y w h Ht Hf). pose proof (in_tile_range x y).
    pose proof (tile_of_range x' y' w h Ht Hf'). pose proof (in_tile_range x' y').
    rewrite Hl. rewrite !elem_of_cons in Hj.
    assert (Hj4 : j = 0%nat \/ j = 1%nat \/ j = 32%nat \/ j = 33%nat) by (destruct Hj as [|[|[|[|Hj]]]]; [tauto..|by apply elem_of_nil in Hj]).
    unfold o in *. rewrite !decide_False by lia. reflexivity.
Qed.

(** C38. Textures hold pictures.  For every picture of whole tiles whose width and
    height are below 65536 and whose bytes are fewer than 2^32,
    [Metaphrasis_convertBufferToRGBA8] returns, in any buffer that is large
    enough, a texture in which [GRRLIB_GetPixelFromtexImg] finds at each place the
    colour the picture has there; and [GRRLIB_SetPixelTotexImg] changes the colour
    found at its own place to the one it is given and at no other. *)
Theorem textures_hold_pictures w h src out : tiled w h -> Z.of_nat (length src) = 4 * w * h -> Forall is_byte src ->
  (length src <= length out)%nat ->
  exists tex, Metaphrasis_convertBufferToRGBA8 src out w h = Some tex /\ length tex = length out /\
    (forall x y, fits x y w h -> GRRLIB_GetPixelFromtexImg x y tex w = Some (be32 src (Z.to_nat (4 * (y * w + x))))) /\
    (forall x y r g b a, fits x y w h -> is_byte r -> is_byte g -> is_byte b -> is_byte a ->
       exists tex', GRRLIB_SetPixelTotexImg x y tex w (be32 [r; g; b; a] 0) = Some tex' /\ length tex' = length tex /\
         forall x' y', fits x' y' w h -> GRRLIB_GetPixelFromtexImg x' y' tex' w =
           if decide (x' = x /\ y' = y) then Some (be32 [r; g; b; a] 0) else GRRLIB_GetPixelFromtexImg x' y' tex w).
Proof.
  intros Ht Hlen Hsrc Hout. destruct (convert_ok src w h Ht Hlen out Hout) as (tex & E & El & Hget).
  exists tex. split; [exact E|]. split; [exact El|]. split; [by apply Hget|].
  intros x y r g b a Hf Br Bg Bb Ba. apply set_then_get; try done. lia.
Qed.

Lemma textures_hold_pictures_witness : exists tex,
  Metaphrasis_convertBufferToRGBA8 (Z.of_nat <$> seq 0 128) (replicate 130 7) 8 4 = Some tex /\
  GRRLIB_GetPixelFromtexImg 5 2 tex 8 = Some 0x54555657.
Proof.
  destruct (textures_hold_pictures 8 4 (Z.of_nat <$> seq 0 128) (replicate 130 7)) as (tex & E & _ & Hget & _).
  - unfold tiled. split_and!; reflexivity.
  - reflexivity.
  - apply (bool_decide_unpack _). vm_compute. exact I.
  - apply Nat.leb_le. reflexivity.
  - exists tex. split; [exact E|]. etransitivity; [apply Hget|vm_compute; reflexivity]. unfold fits. lia.
Defined.
