(* ===== verification/Heap.v ===== *)
(** The heap of the patches (src/patches/source/pmalloc/pmalloc.c): a first-fit
    allocator over one area of memory, with its two lists of blocks, free and
    assigned, linked through the blocks' own headers.

    Memory is a function from the addresses of words to words, since everything
    the allocator reads or writes is a word at a multiple of four; a block's
    header is in the same memory as what its user writes, so a header that is made
    where a user's data was finds that data in its fields.  The null pointer is
    0.  Walks along a list get as many rounds as there are nodes: a list that does
    not end has no run. *)

From S2P Require Import Prelude.
#[local] Open Scope prog_scope.

Definition ITEM_SIZE : Z := 16.
Definition MAGIC : Z := 0xFEEDFACE.
Definition PADDING : Z := 0xDEADBEEF.

(** ** Headers *)

Definition words := Z -> Z.
Definition prev (w : words) (a : Z) : Z := w a.
Definition next (w : words) (a : Z) : Z := w (a + 4).
Definition size (w : words) (a : Z) : Z := w (a + 8).
Definition magic (w : words) (a : Z) : Z := w (a + 12).
Definition set_prev (a v : Z) (w : words) : words := upd w a v.
Definition set_next (a v : Z) (w : words) : words := upd w (a + 4) v.
Definition set_size (a v : Z) (w : words) : words := upd w (a + 8) v.
Definition set_magic (a v : Z) (w : words) : words := upd w (a + 12) v.

Record heap := mk_heap {
  hp_mem : words; available : Z; assigned : Z; freemem : Z; totalmem : Z; totalnodes : Z
}.
Definition set_hp_mem (w : words) (h : heap) : heap :=
  mk_heap w (available h) (assigned h) (freemem h) (totalmem h) (totalnodes h).
Definition change_hp (f : words -> words) (h : heap) : heap := set_hp_mem (f (hp_mem h)) h.
Definition set_available (root : Z) (h : heap) : heap :=
  mk_heap (hp_mem h) root (assigned h) (freemem h) (totalmem h) (totalnodes h).
Definition set_assigned (root : Z) (h : heap) : heap :=
  mk_heap (hp_mem h) (available h) root (freemem h) (totalmem h) (totalnodes h).
Definition add_freemem (n : Z) (h : heap) : heap :=
  mk_heap (hp_mem h) (available h) (assigned h) (u32 (freemem h + n)) (totalmem h) (totalnodes h).
Definition add_totalmem (n : Z) (h : heap) : heap :=
  mk_heap (hp_mem h) (available h) (assigned h) (freemem h) (u32 (totalmem h + n)) (totalnodes h).
Definition add_totalnodes (n : Z) (h : heap) : heap :=
  mk_heap (hp_mem h) (available h) (assigned h) (freemem h) (totalmem h) (u32 (totalnodes h + n)).
Definition rounds (h : heap) : nat := S (Z.to_nat (totalnodes h)).

Notation P := (M heap).

(** ** Lists *)

(** [while (current->next != NULL && node > current->next) current = current->next]. *)
Fixpoint insert_walk (fuel : nat) (node current : Z) (w : words) : option Z :=
  match fuel with
  | O => None
  | S fuel =>
      if negb (next w current =? 0) && (next w current <? node) then insert_walk fuel node (next w current) w
      else Some current
  end.
Definition pmalloc_item_insert (fuel : nat) (root ptr : Z) (w : words) : option (Z * words) :=
  if root =? 0 then Some (ptr, set_next ptr 0 (set_prev ptr 0 w))
  else if ptr <? root then Some (ptr, set_next ptr root (set_prev root ptr w))
  else
    current ← insert_walk fuel ptr root w;
    if next w current =? 0 then Some (root, set_next current ptr (set_prev ptr current w))
    else
      let oldnext := next w current in
      Some (root, set_prev oldnext ptr (set_next ptr oldnext (set_prev ptr current (set_next current ptr w)))).
Definition pmalloc_item_remove (root node : Z) (w : words) : Z * words :=
  let w := if prev w node =? 0 then w else set_next (prev w node) (next w node) w in
  let w := if next w node =? 0 then w else set_prev (next w node) (prev w node) w in
  let root := if node =? root then (if prev w node =? 0 then next w node else prev w node) else root in
  (root, set_prev node 0 (set_next node 0 w)).

Definition insert_available (node : Z) : P unit :=
  h <- get ;;
  '(root, w) <- of_option (pmalloc_item_insert (rounds h) (available h) node (hp_mem h)) ;;
  put (set_available root (set_hp_mem w h)).
Definition insert_assigned (node : Z) : P unit :=
  h <- get ;;
  '(root, w) <- of_option (pmalloc_item_insert (rounds h) (assigned h) node (hp_mem h)) ;;
  put (set_assigned root (set_hp_mem w h)).
Definition remove_available (node : Z) : P unit :=
  modify (fun h => let '(root, w) := pmalloc_item_remove (available h) node (hp_mem h) in set_available root (set_hp_mem w h)).
Definition remove_assigned (node : Z) : P unit :=
  modify (fun h => let '(root, w) := pmalloc_item_remove (assigned h) node (hp_mem h) in set_assigned root (set_hp_mem w h)).

(** ** Setting up *)

Definition align_word (x : Z) : Z := Z.land (u32 (x + 3)) (Z.lnot 3).
Definition pmalloc_init (w : words) : heap := mk_heap w 0 0 0 0 0.
Definition pmalloc_addblock (ptr size_ : Z) : P unit :=
  let ptralignd := align_word ptr in
  let size_ := u32 (size_ - (ptralignd - ptr)) in
  modify (change_hp (set_size ptralignd (u32 (size_ - ITEM_SIZE)))) ;;
  h <- get ;;
  modify (add_freemem (size (hp_mem h) ptralignd)) ;;
  h <- get ;;
  modify (add_totalmem (freemem h)) ;;
  insert_available ptralignd ;;
  modify (add_totalnodes 1).

(** ** Merging *)

Fixpoint merge_back (fuel : nat) (node : Z) (w : words) : option Z :=
  match fuel with
  | O => None
  | S fuel =>
      let p := prev w node in
      if negb (p =? 0) && (node =? u32 (p + ITEM_SIZE + size w p)) then merge_back fuel p w else Some node
  end.
Fixpoint merge_forward (fuel : nat) (node : Z) : P unit :=
  match fuel with
  | O => spin
  | S fuel =>
      h <- get ;;
      let w := hp_mem h in
      if next w node =? u32 (node + ITEM_SIZE + size w node) then
        let nodesize := u32 (size w (next w node) + ITEM_SIZE) in
        modify (add_freemem ITEM_SIZE) ;;
        remove_available (next w node) ;;
        modify (add_totalnodes (-1)) ;;
        modify (fun h => change_hp (set_size node (u32 (size (hp_mem h) node + nodesize))) h) ;;
        merge_forward fuel node
      else ret tt
  end.
Definition pmalloc_merge (node : Z) : P unit :=
  h <- get ;;
  node <- of_option (merge_back (rounds h) node (hp_mem h)) ;;
  merge_forward (rounds h) node.

(** ** Allocating *)

Fixpoint find_fit (fuel : nat) (current want : Z) (w : words) : option Z :=
  match fuel with
  | O => None
  | S fuel =>
      if negb (current =? 0) && (size w current <? want) then find_fit fuel (next w current) want w else Some current
  end.
(** The rest of a block that is larger than what is wanted becomes a free block. *)
Definition split (current size_ : Z) : P unit :=
  h <- get ;;
  let newfree := u32 (current + ITEM_SIZE + size_) in
  modify (change_hp (fun w => set_size newfree (u32 (size w current - ITEM_SIZE - size_)) w)) ;;
  modify (change_hp (fun w => set_next newfree (next w current) w)) ;;
  modify (change_hp (set_next current 0)) ;;
  modify (change_hp (set_size current size_)) ;;
  insert_available newfree ;;
  modify (add_freemem (- ITEM_SIZE)) ;;
  modify (add_totalnodes 1) ;;
  pmalloc_merge newfree.
Definition pmalloc_malloc (size_ : Z) : P Z :=
  let size_ := align_word size_ in
  h <- get ;;
  current <- of_option (find_fit (rounds h) (available h) size_ (hp_mem h)) ;;
  if current =? 0 then ret 0
  else
    modify (change_hp (set_magic current MAGIC)) ;;
    remove_available current ;;
    insert_assigned current ;;
    h <- get ;;
    (if size (hp_mem h) current =? size_ then ret tt else split current size_) ;;
    h <- get ;;
    modify (add_freemem (- size (hp_mem h) current)) ;;
    ret (u32 (current + ITEM_SIZE)).

(** [mem[i] = 0], four bytes at a time: both ends of the block are words. *)
Definition pmalloc_calloc (num size_ : Z) : P Z :=
  mem <- pmalloc_malloc (u32 (num * size_)) ;;
  if mem =? 0 then ret 0
  else
    modify (change_hp (fun w a => if (mem <=? a) && (a <? mem + u32 (num * size_)) then 0 else w a)) ;; ret mem.

(** ** Freeing *)

Definition pmalloc_free (ptr : Z) : P unit :=
  if ptr =? 0 then ret tt
  else
    let node := u32 (ptr - ITEM_SIZE) in
    remove_assigned node ;;
    h <- get ;;
    modify (add_freemem (size (hp_mem h) node)) ;;
    insert_available node ;;
    pmalloc_merge node.

(** ** Aligned blocks *)

Definition pmalloc_memalign (size_ align : Z) : P Z :=
  mem <- pmalloc_malloc (u32 (size_ + align)) ;;
  if mem =? 0 then ret 0
  else
    let memalignd := Z.land (u32 (mem + align - 1)) (Z.lnot (align - 1)) in
    let offset := u32 (memalignd - mem) in
    modify (change_hp (fun w => fold_left (fun w i => upd w (mem + 4 * Z.of_nat i) PADDING) (seq 0 (Z.to_nat (Z.shiftr offset 2))) w)) ;;
    ret memalignd.
(** The search for the header is given as many rounds as a megabyte has words. *)
Fixpoint find_magic (fuel : nat) (ptr : Z) (w : words) : option Z :=
  match fuel with
  | O => None
  | S fuel => if w (ptr - 4) =? MAGIC then Some ptr else find_magic fuel (ptr - 4) w
  end.
Definition SEARCH_ROUNDS : nat := Z.to_nat (2 ^ 18).
Definition pmalloc_freealign (ptr : Z) : P unit :=
  h <- get ;;
  mem <- of_option (find_magic SEARCH_ROUNDS ptr (hp_mem h)) ;;
  pmalloc_free mem.

(** ** Counts *)

Definition pmalloc_sizeof (ptr : Z) (h : heap) : Z := size (hp_mem h) (u32 (ptr - ITEM_SIZE)).
Definition pmalloc_totalmem (h : heap) : Z := totalmem h.
Definition pmalloc_freemem (h : heap) : Z := freemem h.
Definition pmalloc_usedmem (h : heap) : Z := u32 (totalmem h - freemem h).
Definition pmalloc_overheadmem (h : heap) : Z := u32 (totalnodes h * ITEM_SIZE).

(** ** Changing the size of a block *)

(** The end of the block becomes a free block of its own. *)
Definition shrink (node want : Z) : P unit :=
  h <- get ;;
  let rest := u32 (size (hp_mem h) node - want - ITEM_SIZE) in
  let newFree := u32 (node + ITEM_SIZE + want) in
  modify (change_hp (set_size newFree rest)) ;;
  insert_available newFree ;;
  modify (fun h => add_freemem (u32 (size (hp_mem h) node - want - ITEM_SIZE)) h) ;;
  modify (add_totalnodes 1) ;;
  modify (change_hp (set_size node want)) ;;
  pmalloc_merge newFree.
(** The block takes what it needs from the free block after it. *)
Definition grow (node want : Z) : P unit :=
  h <- get ;;
  let old := size (hp_mem h) node in
  let freeBlock := u32 (node + ITEM_SIZE + old) in
  let freeBlockSize := size (hp_mem h) freeBlock in
  remove_available freeBlock ;;
  let freeBlock := u32 (node + ITEM_SIZE + want) in
  modify (fun h => change_hp (set_size freeBlock (u32 (freeBlockSize - (want - size (hp_mem h) node)))) h) ;;
  insert_available freeBlock ;;
  modify (fun h => add_freemem (- (want - size (hp_mem h) node)) h) ;;
  modify (change_hp (set_size node want)) ;;
  pmalloc_merge freeBlock.
(** The copy to a new block, a word at a time. *)
Definition copy_words (dst src n : Z) (w : words) : words :=
  fold_left (fun w i => upd w (dst + 4 * Z.of_nat i) (w (src + 4 * Z.of_nat i))) (seq 0 (Z.to_nat (n / 4))) w.
Definition move (node ptr want : Z) : P Z :=
  newPtr <- pmalloc_malloc want ;;
  (if newPtr =? 0 then ret tt
   else
     h <- get ;;
     modify (change_hp (copy_words newPtr ptr (size (hp_mem h) node))) ;;
     pmalloc_free ptr) ;;
  ret newPtr.
Definition pmalloc_realloc (ptr requestedSize : Z) : P Z :=
  let want := align_word requestedSize in
  if ptr =? 0 then pmalloc_malloc want
  else
    let node := u32 (ptr - ITEM_SIZE) in
    h <- get ;;
    let old := size (hp_mem h) node in
    let after := next (hp_mem h) node in
    if old =? want then ret ptr
    else if want <? old then
      (if u32 (old - want) <? ITEM_SIZE * 2 then ret tt else shrink node want) ;; ret ptr
    else if pmalloc_freemem h <? u32 (want - old) then ret 0
    else if (after =? 0) || (u32 (node + ITEM_SIZE + want) <? after) then grow node want ;; ret ptr
    else move node ptr want.
