(* ===== verification/HeapThms.v ===== *)
(** The heap: as long as blocks are cut only off the last one and reused only at
    their own size, the blocks are a partition of the heap and what is handed out
    is free; without that care live blocks come to overlap. *)

From stdpp Require Import sorting.
From S2P Require Import Prelude Bits Heap.
#[local] Open Scope prog_scope.

(** ** Lists in memory *)

(** Headers that keep clear of each other. *)
Notation spaced := (StronglySorted (fun a b => a + ITEM_SIZE <= b)).
Definition links (l : list Z) (x : Z) : Prop := exists a, a ∈ l /\ (x = a \/ x = a + 4).

(** [l] is linked from a node before it to a node after it. *)
Fixpoint seg (w : words) (p : Z) (l : list Z) (n : Z) : Prop :=
  match l with
  | [] => True
  | a :: l => prev w a = p /\ next w a = hd n l /\ seg w a l n
  end.
Definition chain (w : words) (root : Z) (l : list Z) : Prop := root = hd 0 l /\ seg w 0 l 0.
(** The node a list ends with, or the one before it. *)
Fixpoint final (p : Z) (l : list Z) : Z := match l with [] => p | a :: l => final a l end.

Lemma final_in p l : final p l = p /\ l = [] \/ final p l ∈ l.
Proof.
  revert p. induction l as [|a l IH]; intros p; [by left|]. right. cbn. destruct (IH a) as [[-> _]|H].
  - apply list_elem_of_here.
  - by apply list_elem_of_further.
Qed.
Lemma final_app p l k : final p (l ++ k) = final (final p l) k.
Proof. revert p. by induction l as [|a l IH]; cbn. Qed.
Lemma hd_app (n : Z) l k : hd n (l ++ k) = hd (hd n k) l.
Proof. by destruct l. Qed.

Lemma seg_app w p l1 l2 n : seg w p (l1 ++ l2) n <-> seg w p l1 (hd n l2) /\ seg w (final p l1) l2 n.
Proof.
  revert p. induction l1 as [|a l1 IH]; intros p; cbn [app seg final]; [tauto|].
  rewrite IH, hd_app. tauto.
Qed.
Lemma seg_frame w w' p l n : (forall x, links l x -> w' x = w x) -> seg w p l n -> seg w' p l n.
Proof.
  revert p. induction l as [|a l IH]; intros p Hf; [done|]. cbn [seg]. intros (Hp & Hn & Hs). unfold prev, next in *.
  rewrite !Hf; [|exists a; split; [apply list_elem_of_here|tauto]..].
  split_and!; [done..|]. apply IH; [|done]. intros x (b & Hb & Hx). apply Hf. exists b. split; [by apply list_elem_of_further|done].
Qed.
Lemma links_app l k x : links (l ++ k) x <-> links l x \/ links k x.
Proof. unfold links. setoid_rewrite elem_of_app. naive_solver. Qed.
Lemma links_in l a x : a ∈ l -> x = a \/ x = a + 4 -> links l x.
Proof. intros. by exists a. Qed.

Lemma spaced_app l k a b : spaced (l ++ k) -> a ∈ l -> b ∈ k -> a + 16 <= b.
Proof. intros Hs Ha Hb. exact (StronglySorted_app_1_elem_of (fun a b => a + ITEM_SIZE <= b) l k a b Hs Ha Hb). Qed.
Lemma spaced_cons a l b : spaced (a :: l) -> b ∈ l -> a + 16 <= b.
Proof. intros [_ H]%StronglySorted_inv Hb. rewrite Forall_forall in H. by apply H. Qed.

(** The end of a list linked to another node, or its beginning. *)
Lemma seg_next w w' p l c n n' : spaced (l ++ [c]) -> seg w p (l ++ [c]) n ->
  (forall x, links (l ++ [c]) x -> x <> c + 4 -> w' x = w x) -> w' (c + 4) = n' -> seg w' p (l ++ [c]) n'.
Proof.
  intros Hsp Hs Hf Hn. apply seg_app in Hs as [Hs1 (Hp & _ & _)]. apply seg_app. split; cbn.
  - apply (seg_frame w); [|done]. intros x (a & Ha & Hx). apply Hf.
    + apply links_app. left. by exists a.
    + pose proof (spaced_app l [c] a c Hsp Ha ltac:(apply list_elem_of_here)). lia.
  - split; [|done]. unfold prev in *. rewrite Hf; [done| |lia]. apply links_app. right. exists c. split; [apply list_elem_of_here|tauto].
Qed.
Lemma seg_prev w w' p p' b l n : spaced (b :: l) -> seg w p (b :: l) n ->
  (forall x, links (b :: l) x -> x <> b -> w' x = w x) -> w' b = p' -> seg w' p' (b :: l) n.
Proof.
  intros Hsp (Hp & Hn & Hs) Hf Hb. cbn [seg]. split; [done|]. unfold next in *. split.
  - rewrite Hf; [done| |lia]. exists b. split; [apply list_elem_of_here|tauto].
  - apply (seg_frame w); [|done]. intros x (a & Ha & Hx). apply Hf.
    + exists a. split; [by apply list_elem_of_further|done].
    + pose proof (spaced_cons b l a Hsp Ha). lia.
Qed.

(** Walking past the nodes before an address. *)
Lemma insert_walk_ok node w : forall l1 a l2 fuel, seg w (prev w a) (a :: l1 ++ l2) 0 ->
  Forall (fun x => 0 < x < node) l1 -> Forall (fun x => node < x) l2 -> (length l1 < fuel)%nat ->
  insert_walk fuel node a w = Some (final a l1).
Proof.
  induction l1 as [|b l1 IH]; intros a l2 fuel Hs H1 H2 Hfuel; (destruct fuel as [|fuel]; [cbn in Hfuel; lia|]);
    cbn [insert_walk final]; destruct Hs as (_ & Hn & Hs); rewrite Hn.
  - destruct l2 as [|b l2]; [done|]. cbn. apply Forall_cons in H2 as [H2 _].
    rewrite (proj2 (Z.ltb_ge b node)) by lia. by rewrite andb_false_r.
  - apply Forall_cons in H1 as [Hb H1]. cbn [hd app]. rewrite (proj2 (Z.eqb_neq b 0)), (proj2 (Z.ltb_lt b node)) by lia. cbn [negb andb].
    apply (IH b l2); [|done..|cbn in Hfuel; lia]. cbn [app] in Hs. destruct Hs as (Hp & Hs). rewrite Hp. by split.
Qed.

Ltac upds := repeat first [rewrite upd_eq|rewrite upd_ne by lia].

Lemma insert_ok fuel root l1 l2 node w :
  chain w root (l1 ++ l2) -> spaced (l1 ++ node :: l2) -> Forall (fun a => 0 < a) (l1 ++ node :: l2) ->
  (l1 = [] -> l2 <> [] -> w node = 0) -> (l1 <> [] -> l2 = [] -> w (node + 4) = 0) -> (length l1 <= fuel)%nat ->
  exists w', pmalloc_item_insert fuel root node w = Some (hd 0 (l1 ++ node :: l2), w') /\
    chain w' (hd 0 (l1 ++ node :: l2)) (l1 ++ node :: l2) /\
    (forall x, ~ links (l1 ++ node :: l2) x -> w' x = w x).
Proof.
  intros [-> Hs] Hsp Hpos Hp0 Hn0 Hfuel. unfold pmalloc_item_insert.
  assert (Hnode : links (l1 ++ node :: l2) node /\ links (l1 ++ node :: l2) (node + 4)).
  { split; exists node; (split; [apply elem_of_app; right; apply list_elem_of_here|tauto]). }
  destruct l1 as [|a l1]; cbn [app hd] in *.
  - destruct l2 as [|b l2]; cbn [hd].
    + eexists. split; [reflexivity|]. split; [split; [done|]|].
      * cbn. unfold set_next, set_prev, prev, next. upds. done.
      * intros x Hx. unfold set_next, set_prev. rewrite !upd_ne; [done|naive_solver..].
    + apply Forall_cons in Hpos as [Hnp [Hbp _]%Forall_cons].
      pose proof (spaced_cons node (b :: l2) b Hsp ltac:(apply list_elem_of_here)) as Hb.
      rewrite (proj2 (Z.eqb_neq b 0)), (proj2 (Z.ltb_lt node b)) by lia. eexists. split; [reflexivity|].
      unfold set_next, set_prev. apply StronglySorted_inv in Hsp as [Hsp Hall]. split; [split; [done|]|].
      * split; [unfold prev; upds; by apply Hp0|]. split; [unfold next; by upds|].
        apply (seg_prev w _ 0 node b l2 0 Hsp Hs); [|by upds].
        intros x (c & Hc & Hx) Hxb. assert (node + 16 <= c) by (rewrite Forall_forall in Hall; by apply Hall). upds. done.
      * intros x Hx. rewrite !upd_ne; [done|..]; intros ->; apply Hx; [exists b|tauto].
        split; [apply list_elem_of_further, list_elem_of_here|tauto].
  - apply Forall_cons in Hpos as [Hap Hpos]. pose proof (spaced_cons a _ node Hsp) as Han.
    rewrite elem_of_app in Han. specialize (Han ltac:(right; apply list_elem_of_here)).
    rewrite (proj2 (Z.eqb_neq a 0)), (proj2 (Z.ltb_ge node a)) by lia.
    assert (Hl1 : forall x, x ∈ a :: l1 -> x + 16 <= node).
    { intros x Hx. apply (spaced_app (a :: l1) (node :: l2)); [done|done|apply list_elem_of_here]. }
    assert (Hl2 : forall x, x ∈ l2 -> node + 16 <= x).
    { intros x Hx. apply (spaced_cons node l2); [|done]. by apply (StronglySorted_app_1_r _ (a :: l1)) in Hsp. }
    rewrite (insert_walk_ok node w l1 a l2 fuel).
    2:{ destruct Hs as (Hp & Hs). split; [done|exact Hs]. }
    2:{ apply Forall_forall. intros x Hx. split; [|specialize (Hl1 x (list_elem_of_further _ _ _ Hx)); lia].
        rewrite Forall_forall in Hpos. apply Hpos. apply elem_of_app. by left. }
    2:{ apply Forall_forall. intros x Hx. specialize (Hl2 x Hx). lia. }
    2:{ cbn in Hfuel. lia. }
    cbn [mbind option_bind]. set (c := final a l1).
    destruct (exists_last (l := a :: l1)) as (k & c' & Ek); [done|].
    assert (Hcc : c' = c). { unfold c. change (final a l1) with (final 0 (a :: l1)). by rewrite Ek, final_app. } subst c'.
    assert (Hc : c ∈ a :: l1) by (rewrite Ek; apply elem_of_app; right; apply list_elem_of_here).
    change (a :: l1 ++ l2) with ((a :: l1) ++ l2) in Hs. change (a :: l1 ++ node :: l2) with ((a :: l1) ++ node :: l2) in Hsp, Hnode |- *.
    apply seg_app in Hs as [Hs1 Hs2]. change (final 0 (a :: l1)) with c in Hs2.
    assert (Hcn : next w c = hd 0 l2). { rewrite Ek in Hs1. apply seg_app in Hs1 as [_ (_ & H & _)]. exact H. }
    pose proof (Hl1 c Hc) as Hcn'.
    assert (Hsp1 : spaced (a :: l1)) by (by apply StronglySorted_app_1_l in Hsp).
    assert (Hspl2 : spaced l2) by (apply (StronglySorted_app_1_r _ (a :: l1)) in Hsp; by apply StronglySorted_inv in Hsp as [? _]).
    assert (Hlc : links ((a :: l1) ++ node :: l2) (c + 4)).
    { exists c. split; [apply elem_of_app; by left|tauto]. }
    rewrite Hcn. destruct l2 as [|b l2]; cbn [hd Z.eqb].
    + eexists. split; [reflexivity|]. unfold set_next, set_prev. split; [split; [done|]|].
      * apply seg_app. change (final 0 (a :: l1)) with c. cbn [hd].
        split; [|split; [unfold prev; by upds|split; [unfold next; upds; by apply Hn0|done]]]. rewrite Ek. rewrite Ek in Hs1, Hsp1. apply (seg_next w _ 0 k c 0 node Hsp1 Hs1); [|by upds].
        intros x (y & Hy & Hx) Hxc. rewrite <- Ek in Hy. specialize (Hl1 y Hy). upds. done.
      * intros x Hx. rewrite !upd_ne; [done|..]; intros ->; apply Hx; tauto.
    + assert (Hb : node + 16 <= b) by (apply Hl2, list_elem_of_here). rewrite (proj2 (Z.eqb_neq b 0)) by lia.
      eexists. split; [reflexivity|]. unfold set_next, set_prev. split; [split; [done|]|].
      * apply seg_app. change (final 0 (a :: l1)) with c. cbn [hd]. split; [|split; [|split]].
        -- rewrite Ek. rewrite Ek in Hs1, Hsp1. apply (seg_next w _ 0 k c (hd 0 (b :: l2)) node Hsp1 Hs1); [|by upds].
           intros x (y & Hy & Hx) Hxc. rewrite <- Ek in Hy. specialize (Hl1 y Hy). upds. done.
        -- unfold prev. by upds.
        -- unfold next. by upds.
        -- apply (seg_prev w _ c node b l2 0 Hspl2 Hs2); [|by upds].
           intros x (y & Hy & Hx) Hxb. specialize (Hl2 y Hy). upds. done.
      * intros x Hx. rewrite !upd_ne; [done|..]; intros ->; apply Hx; try tauto.
        exists b. split; [apply elem_of_app; right; apply list_elem_of_further, list_elem_of_here|tauto].
Qed.

Lemma final_pos p l : l <> [] -> Forall (fun a => 0 < a) l -> 0 < final p l.
Proof.
  intros Hl Hpos. destruct (final_in p l) as [[_ E]|H]; [done|]. rewrite Forall_forall in Hpos. by apply Hpos.
Qed.
Lemma list_snoc {A} (l : list A) : l = [] \/ exists k c, l = k ++ [c].
Proof. destruct l as [|a l]; [by left|right]. destruct (exists_last (l := a :: l)) as (k & c & E); [done|]. by exists k, c. Qed.

Lemma remove_ok root l1 l2 node w :
  chain w root (l1 ++ node :: l2) -> spaced (l1 ++ node :: l2) -> Forall (fun a => 0 < a) (l1 ++ node :: l2) ->
  exists w', pmalloc_item_remove root node w = (hd 0 (l1 ++ l2), w') /\
    chain w' (hd 0 (l1 ++ l2)) (l1 ++ l2) /\ w' node = 0 /\ w' (node + 4) = 0 /\
    (forall x, ~ links (l1 ++ node :: l2) x -> w' x = w x).
Proof.
  intros [-> Hs] Hsp Hpos. apply seg_app in Hs as [Hs1 (Hp & Hn & Hs2)]. cbn [hd] in Hs1. unfold prev, next in Hp, Hn.
  assert (Hl1 : forall x, x ∈ l1 -> x + 16 <= node) by (intros x Hx; apply (spaced_app l1 (node :: l2)); [done|done|apply list_elem_of_here]).
  assert (Hsp2 : spaced (node :: l2)) by (by apply (StronglySorted_app_1_r _ l1) in Hsp).
  assert (Hl2 : forall x, x ∈ l2 -> node + 16 <= x) by (intros x Hx; by apply (spaced_cons node l2)).
  assert (Hsp1 : spaced l1) by (by apply StronglySorted_app_1_l in Hsp).
  apply Forall_app in Hpos as [Hpos1 [Hnp Hpos2]%Forall_cons].
  assert (Hnode : links (l1 ++ node :: l2) node /\ links (l1 ++ node :: l2) (node + 4)).
  { split; exists node; (split; [apply elem_of_app; right; apply list_elem_of_here|tauto]). }
  set (c := final 0 l1) in *. set (n := hd 0 l2) in *.
  set (w1 := if decide (l1 = []) then w else upd w (c + 4) n).
  set (w2 := if decide (l2 = []) then w1 else upd w1 n c).
  assert (Hc : l1 <> [] -> c ∈ l1 /\ c + 16 <= node /\ 0 < c).
  { intros Hl. destruct (final_in 0 l1) as [[_ E]|H]; [done|]. split; [done|]. split; [by apply Hl1|by apply final_pos]. }
  assert (Hb : l2 <> [] -> n ∈ l2 /\ node + 16 <= n).
  { intros Hl. unfold n. destruct l2 as [|b l2]; [done|]. split; [apply list_elem_of_here|apply Hl2, list_elem_of_here]. }
  assert (E1 : w1 = if prev w node =? 0 then w else set_next (prev w node) (next w node) w).
  { unfold w1, prev, next, set_next. rewrite Hp, Hn. case_decide as D; [by unfold c; rewrite D|].
    destruct (Hc D) as (_ & _ & ?). by rewrite (proj2 (Z.eqb_neq c 0)) by lia. }
  assert (Hw1 : w1 node = c /\ w1 (node + 4) = n).
  { unfold w1. case_decide as D; [done|]. destruct (Hc D) as (_ & ? & _). by upds. }
  destruct Hw1 as [Hw1p Hw1n].
  assert (E2 : w2 = if next w1 node =? 0 then w1 else set_prev (next w1 node) (prev w1 node) w1).
  { unfold w2, prev, next, set_prev. rewrite Hw1p, Hw1n. case_decide as D; [by unfold n; rewrite D|].
    destruct (Hb D) as (_ & ?). by rewrite (proj2 (Z.eqb_neq n 0)) by lia. }
  assert (Hw2 : w2 node = c /\ w2 (node + 4) = n).
  { unfold w2. case_decide as D; [done|]. destruct (Hb D) as (_ & ?). by upds. }
  destruct Hw2 as [Hw2p Hw2n].
  assert (Hfr : forall x, ~ (l1 <> [] /\ x = c + 4) -> ~ (l2 <> [] /\ x = n) -> w2 x = w x).
  { intros x Hx Hy. unfold w2, w1. repeat case_decide; try done; rewrite ?upd_ne; try done; naive_solver. }
  set (w' := set_prev node 0 (set_next node 0 w2)).
  assert (Hw' : forall x, x <> node -> x <> node + 4 -> w' x = w2 x) by (intros x ? ?; unfold w', set_prev, set_next; by upds).
  exists w'. split; [|split; [split; [done|]|split; [|split]]].
  - unfold pmalloc_item_remove. rewrite <- E1, <- E2. unfold w'. f_equal.
    unfold prev, next. rewrite Hw2p, Hw2n. destruct l1 as [|a l1]; cbn [app hd].
    + rewrite Z.eqb_refl. reflexivity.
    + specialize (Hl1 a (list_elem_of_here _ _)). by rewrite (proj2 (Z.eqb_neq node a)) by lia.
  - apply seg_app. fold c. fold n. split.
    + destruct (list_snoc l1) as [E0|(k & d & E0)]; [by rewrite E0|].
      assert (Hd : d = c) by (unfold c; by rewrite E0, final_app). rewrite Hd in E0. rewrite E0 in Hs1, Hsp1, Hl1, Hc |- *.
      apply (seg_next w w' 0 k c node n Hsp1 Hs1).
      * intros x (y & Hy & Hx) Hxc. specialize (Hl1 y Hy). rewrite Hw' by lia. apply Hfr; [tauto|].
        intros [D ->]. destruct (Hb D) as [_ ?]. lia.
      * assert (D : k ++ [c] <> []) by (by destruct k). destruct (Hc D) as (_ & ? & _).
        assert (D1 : l1 <> []) by (by rewrite E0).
        rewrite Hw' by lia. unfold w2. assert (Ew1 : w1 (c + 4) = n) by (unfold w1; rewrite decide_False by done; by upds).
        case_decide as D2; [done|]. destruct (Hb D2) as [_ ?]. by upds.
    + destruct l2 as [|b l2]; [done|]. unfold n in *. cbn [hd] in *.
      apply (seg_prev w w' node c b l2 0); [by apply StronglySorted_inv in Hsp2 as [? _]|done| |].
      * intros x (y & Hy & Hx) Hxb. specialize (Hl2 y Hy). rewrite Hw' by lia. apply Hfr; [|tauto].
        intros [D ->]. destruct (Hc D) as (_ & ? & _). lia.
      * specialize (Hl2 b (list_elem_of_here _ _)). rewrite Hw' by lia. unfold w2. rewrite decide_False by done. by upds.
  - unfold w', set_prev, set_next. by upds.
  - unfold w', set_prev, set_next. by upds.
  - intros x Hx. rewrite Hw' by (intros ->; tauto). apply Hfr.
    + intros [D ->]. apply Hx. destruct (Hc D) as [? _]. exists c. split; [apply elem_of_app; by left|tauto].
    + intros [D ->]. apply Hx. destruct (Hb D) as [? _]. exists n. split; [apply elem_of_app; right; by apply list_elem_of_further|tauto].
Qed.

(** ** The heap as a row of blocks *)

(** A block: the size of its data, and whether it is free. *)
Definition block : Type := Z * bool.
Fixpoint total (bs : list block) : Z := match bs with [] => 0 | b :: bs => ITEM_SIZE + b.1 + total bs end.
Fixpoint free_total (bs : list block) : Z := match bs with [] => 0 | b :: bs => (if b.2 then b.1 else 0) + free_total bs end.
(** The addresses of the blocks that are free, or are not. *)
Fixpoint places (free : bool) (base : Z) (bs : list block) : list Z :=
  match bs with
  | [] => []
  | b :: bs => (if Bool.eqb b.2 free then [base] else []) ++ places free (base + ITEM_SIZE + b.1) bs
  end.
(** The sizes, and the marks of the used blocks, in the headers. *)
Fixpoint headers (w : words) (base : Z) (bs : list block) : Prop :=
  match bs with
  | [] => True
  | b :: bs => size w base = b.1 /\ (b.2 = false -> magic w base = MAGIC) /\ headers w (base + ITEM_SIZE + b.1) bs
  end.
Definition block_ok (b : block) : Prop := 0 <= b.1 /\ b.1 mod 4 = 0.

Lemma total_app b1 b2 : total (b1 ++ b2) = total b1 + total b2.
Proof. induction b1 as [|b b1 IH]; cbn [app total free_total]; [done|]. rewrite IH. lia. Qed.
Lemma free_total_app b1 b2 : free_total (b1 ++ b2) = free_total b1 + free_total b2.
Proof. induction b1 as [|b b1 IH]; cbn [app total free_total]; [done|]. rewrite IH. lia. Qed.
Lemma places_app free base b1 b2 : places free base (b1 ++ b2) = places free base b1 ++ places free (base + total b1) b2.
Proof.
  revert base. induction b1 as [|b b1 IH]; intros base; cbn [places app total]; [by rewrite Z.add_0_r|]. rewrite IH, app_assoc. do 2 f_equal. lia.
Qed.
Lemma headers_app w base b1 b2 : headers w base (b1 ++ b2) <-> headers w base b1 /\ headers w (base + total b1) b2.
Proof.
  revert base. induction b1 as [|b b1 IH]; intros base; cbn [headers app total]; [rewrite Z.add_0_r; tauto|].
  rewrite IH. replace (base + ITEM_SIZE + b.1 + total b1) with (base + (ITEM_SIZE + b.1 + total b1)) by lia. tauto.
Qed.
Lemma total_nonneg bs : Forall block_ok bs -> 0 <= total bs.
Proof. induction 1 as [|b bs [Hb _] _ IH]; cbn [total]; unfold ITEM_SIZE; lia. Qed.
Lemma free_total_bound bs : Forall block_ok bs -> 0 <= free_total bs <= total bs.
Proof. induction 1 as [|b bs [Hb _] _ IH]; cbn [total free_total]; unfold ITEM_SIZE; [done|]. destruct b.2; lia. Qed.
Lemma length_total bs : Forall block_ok bs -> ITEM_SIZE * Z.of_nat (length bs) <= total bs.
Proof. induction 1 as [|b bs [Hb _] _ IH]; cbn [total length]; unfold ITEM_SIZE in *; lia. Qed.
Lemma length_places free base bs : (length (places free base bs) <= length bs)%nat.
Proof. revert base. induction bs as [|b bs IH]; intros base; cbn; [lia|]. specialize (IH (base + ITEM_SIZE + b.1)). destruct (Bool.eqb _ _); cbn; lia. Qed.

(** Every block's header and data lie in the row. *)
Lemma places_in free base bs a : Forall block_ok bs -> a ∈ places free base bs -> base <= a /\ a + ITEM_SIZE <= base + total bs.
Proof.
  intros Hbs. revert base. induction Hbs as [|b bs [Hb _] Hbs IH]; intros base; cbn [places total]; [by intros ?%elem_of_nil|].
  rewrite elem_of_app. pose proof (total_nonneg bs Hbs). intros [H'|H'].
  - destruct (Bool.eqb _ _); [|by apply elem_of_nil in H']. apply list_elem_of_singleton in H' as ->. lia.
  - apply IH in H'. unfold ITEM_SIZE in *. lia.
Qed.
Lemma places_spaced free base bs : Forall block_ok bs -> spaced (places free base bs).
Proof.
  intros Hbs. revert base. induction Hbs as [|b bs [Hb _] Hbs IH]; intros base; cbn [places]; [constructor|].
  destruct (Bool.eqb _ _); cbn [app]; [|apply IH]. constructor; [apply IH|]. apply Forall_forall. intros a Ha.
  apply places_in in Ha; [|done]. lia.
Qed.
Lemma places_pos free base bs : 0 < base -> Forall block_ok bs -> Forall (fun a => 0 < a) (places free base bs).
Proof. intros Hb Hbs. apply Forall_forall. intros a Ha. apply places_in in Ha; [lia|done]. Qed.
(** A free block and a used one keep clear of each other. *)
Lemma places_apart base bs a b : Forall block_ok bs -> a ∈ places true base bs -> b ∈ places false base bs ->
  a + ITEM_SIZE <= b \/ b + ITEM_SIZE <= a.
Proof.
  intros Hbs. revert base. induction Hbs as [|x bs [Hx _] Hbs IH]; intros base; cbn [places]; [by intros ?%elem_of_nil|].
  rewrite !elem_of_app. destruct x.2; cbn [Bool.eqb]; rewrite ?list_elem_of_singleton, ?elem_of_nil.
  - intros [->|Ha] [[]|Hb]; [apply places_in in Hb; [lia|done]|by apply (IH (base + ITEM_SIZE + x.1))].
  - intros [[]|Ha] [->|Hb]; [apply places_in in Ha; [lia|done]|by apply (IH (base + ITEM_SIZE + x.1))].
Qed.

(** All addresses. *)
Fixpoint addrs (base : Z) (bs : list block) : list Z :=
  match bs with [] => [] | b :: bs => base :: addrs (base + ITEM_SIZE + b.1) bs end.
Lemma addrs_app base b1 b2 : addrs base (b1 ++ b2) = addrs base b1 ++ addrs (base + total b1) b2.
Proof.
  revert base. induction b1 as [|b b1 IH]; intros base; cbn [addrs app total]; [by rewrite Z.add_0_r|]. rewrite IH.
  do 3 f_equal. lia.
Qed.
Lemma addrs_in base bs a : Forall block_ok bs -> a ∈ addrs base bs -> base <= a /\ a + ITEM_SIZE <= base + total bs.
Proof.
  intros Hbs. revert base. induction Hbs as [|b bs [Hb _] Hbs IH]; intros base; cbn [addrs total]; [by intros ?%elem_of_nil|].
  pose proof (total_nonneg bs Hbs). intros [->|H']%elem_of_cons; [lia|]. apply IH in H'. unfold ITEM_SIZE in *. lia.
Qed.
Lemma addrs_apart base bs a b : Forall block_ok bs -> a ∈ addrs base bs -> b ∈ addrs base bs -> a = b \/ a + 16 <= b \/ b + 16 <= a.
Proof.
  intros Hbs. revert base. induction Hbs as [|x bs [Hx _] Hbs IH]; intros base; cbn [addrs]; [by intros ?%elem_of_nil|].
  intros [->|Ha]%elem_of_cons [->|Hb]%elem_of_cons; [by left|..|by apply (IH (base + ITEM_SIZE + x.1))].
  - apply addrs_in in Hb; [|done]. unfold ITEM_SIZE in *. lia.
  - apply addrs_in in Ha; [|done]. unfold ITEM_SIZE in *. lia.
Qed.
Lemma places_addrs free base bs a : a ∈ places free base bs -> a ∈ addrs base bs.
Proof.
  revert base. induction bs as [|b bs IH]; intros base; cbn [places addrs]; [done|]. rewrite elem_of_app, elem_of_cons.
  intros [H'|H']; [|right; by apply IH]. destruct (Bool.eqb _ _); [|by apply elem_of_nil in H'].
  left. by apply list_elem_of_singleton in H'.
Qed.
Lemma addrs_flags base b1 s f g b2 : addrs base (b1 ++ (s, f) :: b2) = addrs base (b1 ++ (s, g) :: b2).
Proof. by rewrite !addrs_app. Qed.

Lemma headers_frame w w' base bs :
  (forall a, a ∈ addrs base bs -> w' (a + 8) = w (a + 8) /\ w' (a + 12) = w (a + 12)) -> headers w base bs -> headers w' base bs.
Proof.
  revert base. induction bs as [|b bs IH]; intros base Hf; cbn [headers]; [done|]. intros (Hs & Hm & H').
  destruct (Hf base (list_elem_of_here _ _)) as [E1 E2]. unfold size, magic in *. rewrite E1, E2. split_and!; [done..|].
  apply IH; [|done]. intros a Ha. apply Hf. by apply list_elem_of_further.
Qed.
(** Sizes and marks are not links. *)
Lemma not_link free base bs a x : Forall block_ok bs -> a ∈ addrs base bs -> x = a + 8 \/ x = a + 12 -> ~ links (places free base bs) x.
Proof.
  intros Hbs Ha Hx (b & Hb & Hl). apply places_addrs in Hb. destruct (addrs_apart base bs a b Hbs Ha Hb); lia.
Qed.
Lemma links_apart f base bs x : Forall block_ok bs -> links (places f base bs) x -> ~ links (places (negb f) base bs) x.
Proof.
  intros Hbs (a & Ha & Hx) (b & Hb & Hl). assert (H : a + 16 <= b \/ b + 16 <= a); [|lia].
  destruct f; cbn [negb] in *; [by apply (places_apart base bs)|]. destruct (places_apart base bs b a Hbs Hb Ha); unfold ITEM_SIZE in *; lia.
Qed.

Record row (base : Z) (bs : list block) (w : words) (av asg : Z) : Prop := {
  row_base : 0 < base;
  row_align : base mod 4 = 0;
  row_blocks : Forall block_ok bs;
  row_end : base + total bs < 2 ^ 32;
  row_free : chain w av (places true base bs);
  row_used : chain w asg (places false base bs);
  row_headers : headers w base bs
}.

Lemma chain_frame w w' root l : (forall x, links l x -> w' x = w x) -> chain w root l -> chain w' root l.
Proof. intros Hf [E Hs]. split; [done|]. by apply (seg_frame w). Qed.

Lemma middle_in base b1 s f b2 : base + total b1 ∈ addrs base (b1 ++ (s, f) :: b2).
Proof. rewrite addrs_app. apply elem_of_app. right. apply list_elem_of_here. Qed.
Lemma block_ok_flag b1 s f g b2 : Forall block_ok (b1 ++ (s, f) :: b2) -> Forall block_ok (b1 ++ (s, g) :: b2).
Proof. intros [H1 [H2 H3]%Forall_cons]%Forall_app. apply Forall_app. split; [done|]. by constructor. Qed.
Lemma total_flag b1 s f g b2 : total (b1 ++ (s, f) :: b2) = total (b1 ++ (s, g) :: b2).
Proof. by rewrite !total_app. Qed.
Lemma places_middle free base b1 s f b2 : places free base (b1 ++ (s, f) :: b2) =
  places free base b1 ++ (if Bool.eqb f free then [base + total b1] else []) ++ places free (base + total b1 + ITEM_SIZE + s) b2.
Proof. by rewrite places_app. Qed.

(** ** A block changes lists *)

Lemma move_block f base b1 s b2 w src dst fuel : 0 < base -> Forall block_ok (b1 ++ (s, f) :: b2) -> (length b1 <= fuel)%nat ->
  chain w src (places f base (b1 ++ (s, f) :: b2)) -> chain w dst (places (negb f) base (b1 ++ (s, f) :: b2)) ->
  let a := base + total b1 in
  let r := pmalloc_item_remove src a w in
  exists dst' w', pmalloc_item_insert fuel dst a r.2 = Some (dst', w') /\
    chain w' r.1 (places f base (b1 ++ (s, negb f) :: b2)) /\ chain w' dst' (places (negb f) base (b1 ++ (s, negb f) :: b2)) /\
    next w' a = hd 0 (places (negb f) (a + ITEM_SIZE + s) b2) /\
    (forall c x, c ∈ addrs base (b1 ++ (s, f) :: b2) -> x = c + 8 \/ x = c + 12 -> w' x = w x).
Proof.
  intros Hb Hbs Hfuel Hf Hu a r.
  pose proof (block_ok_flag b1 s f (negb f) b2 Hbs) as Hbs'.
  pose proof (places_spaced f base _ Hbs) as Hsf. pose proof (places_pos f base _ Hb Hbs) as Hpf.
  pose proof (places_spaced (negb f) base _ Hbs') as Hsu. pose proof (places_pos (negb f) base _ Hb Hbs') as Hpu.
  pose proof (fun x => links_apart f base _ x Hbs') as Hap'. pose proof (fun x => links_apart f base _ x Hbs) as Hap.
  pose proof (fun c x => not_link f base _ c x Hbs) as Hnt. pose proof (fun c x => not_link (negb f) base _ c x Hbs') as Hnf.
  assert (Ett : places f base (b1 ++ (s, f) :: b2) = places f base b1 ++ a :: places f (a + ITEM_SIZE + s) b2).
  { rewrite places_middle. by destruct f. }
  assert (Eft : places (negb f) base (b1 ++ (s, f) :: b2) = places (negb f) base b1 ++ places (negb f) (a + ITEM_SIZE + s) b2).
  { rewrite places_middle. by destruct f. }
  assert (Etf : places f base (b1 ++ (s, negb f) :: b2) = places f base b1 ++ places f (a + ITEM_SIZE + s) b2).
  { rewrite places_middle. by destruct f. }
  assert (Eff : places (negb f) base (b1 ++ (s, negb f) :: b2) = places (negb f) base b1 ++ a :: places (negb f) (a + ITEM_SIZE + s) b2).
  { rewrite places_middle. by destruct f. }
  rewrite Ett in Hf, Hsf, Hpf. rewrite Eft in Hu. rewrite Eff in Hsu, Hpu. setoid_rewrite Ett in Hap. setoid_rewrite Eft in Hap.
  setoid_rewrite Etf in Hap'. setoid_rewrite Eff in Hap'. setoid_rewrite Ett in Hnt. setoid_rewrite Eff in Hnf.
  destruct (remove_ok src (places f base b1) (places f (a + ITEM_SIZE + s) b2) a w Hf Hsf Hpf) as (w1 & E1 & Hc1 & Hz1 & Hz2 & Hfr1).
  unfold r. rewrite E1. cbn [fst snd].
  destruct (insert_ok fuel dst (places (negb f) base b1) (places (negb f) (a + ITEM_SIZE + s) b2) a w1) as (w2 & E2 & Hc2 & Hfr2);
    [|exact Hsu|exact Hpu|intros; exact Hz1|intros; exact Hz2|etransitivity; [apply length_places|done]|].
  { apply (chain_frame w); [|done]. intros x Hx. apply Hfr1. intros Hl. by apply (Hap x). }
  eexists _, w2. split; [exact E2|]. rewrite Etf, Eff. split_and!.
  - apply (chain_frame w1); [|done]. intros x Hx. apply Hfr2. by apply Hap'.
  - exact Hc2.
  - destruct Hc2 as [_ Hc2]. apply seg_app in Hc2 as [_ (_ & Hn & _)]. exact Hn.
  - intros c x Hc Hx. rewrite Hfr2, Hfr1; [done|by apply (Hnt c)|]. apply (Hnf c); [|done]. by rewrite <- (addrs_flags base b1 s f (negb f)).
Qed.

(** The headers when one block is marked differently. *)
Lemma headers_flag base b1 s f g b2 w w' : Forall block_ok (b1 ++ (s, f) :: b2) ->
  (g = false -> w' (base + total b1 + 12) = MAGIC) ->
  (forall c x, c ∈ addrs base (b1 ++ (s, f) :: b2) -> x = c + 8 \/ c <> base + total b1 /\ x = c + 12 -> w' x = w x) ->
  headers w base (b1 ++ (s, f) :: b2) -> headers w' base (b1 ++ (s, g) :: b2).
Proof.
  intros [Hbs1 [[Hs0 _] Hbs2]%Forall_cons]%Forall_app Hm Hk. set (a := base + total b1) in *. cbn in Hs0.
  rewrite !headers_app. cbn [headers fst snd]. fold a. intros (Hh1 & Hs & _ & Hh2).
  assert (Hin : forall c, c ∈ addrs base b1 \/ c = a \/ c ∈ addrs (a + ITEM_SIZE + s) b2 -> c ∈ addrs base (b1 ++ (s, f) :: b2)).
  { intros c Hc. rewrite addrs_app. fold a. cbn [addrs fst]. rewrite elem_of_app, elem_of_cons. tauto. }
  split_and!; [|unfold size in *; rewrite (Hk a) by (auto; tauto); done|exact Hm|].
  - apply (headers_frame w); [|done]. intros c Hc. assert (c <> a) by (apply addrs_in in Hc; [unfold a, ITEM_SIZE in *; lia|done]).
    rewrite !(Hk c) by (auto; tauto). done.
  - apply (headers_frame w); [|done]. intros c Hc. assert (c <> a) by (apply addrs_in in Hc; [unfold ITEM_SIZE in *; lia|done]).
    rewrite !(Hk c) by (auto; tauto). done.
Qed.

Lemma take_block base b1 s b2 w av asg fuel : row base (b1 ++ (s, true) :: b2) w av asg -> (length b1 <= fuel)%nat ->
  let a := base + total b1 in
  let r := pmalloc_item_remove av a (set_magic a MAGIC w) in
  exists asg' w', pmalloc_item_insert fuel asg a r.2 = Some (asg', w') /\
    row base (b1 ++ (s, false) :: b2) w' r.1 asg' /\ next w' a = hd 0 (places false (a + ITEM_SIZE + s) b2).
Proof.
  intros [Hb Hal Hbs He Hf Hu Hh] Hfuel a r. pose proof (middle_in base b1 s true b2) as Ha. fold a in Ha.
  assert (Hlinks : forall f x, links (places f base (b1 ++ (s, true) :: b2)) x -> set_magic a MAGIC w x = w x).
  { intros f x Hx. apply upd_ne. intros ->. by apply (not_link f base _ a (a + 12) Hbs Ha ltac:(tauto)). }
  destruct (move_block true base b1 s b2 (set_magic a MAGIC w) av asg fuel Hb Hbs Hfuel) as (asg' & w' & E & Hc1 & Hc2 & Hn & Hk);
    [apply (chain_frame w); [apply Hlinks|exact Hf]|apply (chain_frame w); [apply Hlinks|exact Hu]|].
  exists asg', w'. split; [exact E|]. split; [|exact Hn].
  constructor; [done|done|by apply (block_ok_flag b1 s true)|by rewrite (total_flag b1 s false true b2)|exact Hc1|exact Hc2|].
  apply (headers_flag base b1 s true false b2 w w' Hbs); [|intros c x Hc Hx|exact Hh].
  - intros _. fold a. rewrite (Hk a) by tauto. apply upd_eq.
  - rewrite (Hk c) by tauto. apply upd_ne. fold a in Hx. destruct (addrs_apart base _ c a Hbs Hc Ha); lia.
Qed.
Lemma give_block base b1 s b2 w av asg fuel : row base (b1 ++ (s, false) :: b2) w av asg -> (length b1 <= fuel)%nat ->
  let a := base + total b1 in
  let r := pmalloc_item_remove asg a w in
  exists av' w', pmalloc_item_insert fuel av a r.2 = Some (av', w') /\
    row base (b1 ++ (s, true) :: b2) w' av' r.1 /\ size r.2 a = s.
Proof.
  intros [Hb Hal Hbs He Hf Hu Hh] Hfuel a r. pose proof (middle_in base b1 s false b2) as Ha. fold a in Ha.
  destruct (move_block false base b1 s b2 w asg av fuel Hb Hbs Hfuel Hu Hf) as (av' & w' & E & Hc1 & Hc2 & Hn & Hk).
  exists av', w'. split; [exact E|]. split.
  - constructor; [done|done|by apply (block_ok_flag b1 s false)|by rewrite (total_flag b1 s true false b2)|exact Hc2|exact Hc1|].
    apply (headers_flag base b1 s false true b2 w w' Hbs); [done| |exact Hh]. intros c x Hc Hx. apply (Hk c); tauto.
  - pose proof (places_spaced false base _ Hbs) as Hs. pose proof (places_pos false base _ Hb Hbs) as Hp.
    pose proof (not_link false base _ a (a + 8) Hbs Ha ltac:(tauto)) as Hnl.
    rewrite places_middle in Hu, Hs, Hp, Hnl. cbn [Bool.eqb app] in Hu, Hs, Hp, Hnl.
    destruct (remove_ok asg _ _ _ w Hu Hs Hp) as (w1 & E1 & _ & _ & _ & Hfr). unfold r. fold a in E1, Hfr, Hnl. rewrite E1. cbn [snd].
    unfold size. rewrite Hfr by done. apply headers_app in Hh as [_ (Hsz & _)]. exact Hsz.
Qed.

(** ** Blocks are cut and joined *)

Lemma split_row base b1 s n w av asg fuel : row base (b1 ++ [(s, false)]) w av asg -> (length b1 <= fuel)%nat ->
  let a := base + total b1 in
  let nf := a + ITEM_SIZE + n in
  0 <= n -> n mod 4 = 0 -> ITEM_SIZE + n <= s -> next w a = 0 ->
  exists av' w', pmalloc_item_insert fuel av nf (set_size a n (set_next a 0 (set_next nf 0 (set_size nf (s - ITEM_SIZE - n) w)))) = Some (av', w') /\
    row base (b1 ++ [(n, false); (s - ITEM_SIZE - n, true)]) w' av' asg.
Proof.
  intros [Hb Hal Hbs He Hf Hu Hh] Hfuel a nf Hn0 Hn4 Hns Hnext.
  set (new := b1 ++ [(n, false); (s - ITEM_SIZE - n, true)]).
  set (w1 := set_size a n (set_next a 0 (set_next nf 0 (set_size nf (s - ITEM_SIZE - n) w)))).
  pose proof Hbs as [Hbs1 [[Hs0 Hs4] _]%Forall_cons]%Forall_app. cbn in Hs0, Hs4. unfold ITEM_SIZE in Hns.
  assert (Hnew : Forall block_ok new).
  { unfold new. apply Forall_app. split; [done|]. repeat constructor; cbn; unfold ITEM_SIZE; try done; [lia|]. zdm. }
  assert (Htot : total new = total (b1 ++ [(s, false)])) by (unfold new; rewrite !total_app; cbn [total fst]; unfold ITEM_SIZE; lia).
  rewrite places_app in Hf, Hu. cbn [places snd Bool.eqb app] in Hf, Hu. fold a in Hf, Hu. rewrite app_nil_r in Hf.
  assert (Et : places true base new = places true base b1 ++ [nf]).
  { unfold new. rewrite places_app. cbn [places snd fst Bool.eqb app]. done. }
  assert (Ef : places false base new = places false base b1 ++ [a]).
  { unfold new. rewrite places_app. cbn [places snd fst Bool.eqb app]. done. }
  assert (Hlow : forall c, c ∈ addrs base b1 -> c + 16 <= a) by (intros c Hc; apply addrs_in in Hc; [unfold a, ITEM_SIZE in *; lia|done]).
  assert (Hw1 : forall x, x < a + 4 -> w1 x = w x).
  { intros x Hx. unfold w1, set_size, set_next, nf, ITEM_SIZE. by upds. }
  pose proof (places_spaced true base _ Hnew) as Hsp. pose proof (places_pos true base _ Hb Hnew) as Hpos. rewrite Et in Hsp, Hpos.
  destruct (insert_ok fuel av (places true base b1) [] nf w1) as (w' & E & Hc' & Hfr); try done.
  { rewrite app_nil_r. apply (chain_frame w); [|done]. intros x (c & Hc & Hx). apply places_addrs, Hlow in Hc. apply Hw1. lia. }
  { intros _ _. unfold w1, set_size, set_next, nf, ITEM_SIZE. by upds. }
  { etransitivity; [apply length_places|done]. }
  eexists _, w'. split; [exact E|]. rewrite <- Et in Hc', Hfr.
  assert (Hin : forall c, c ∈ addrs base b1 \/ c = a \/ c = nf -> c ∈ addrs base new).
  { intros c Hc. unfold new. rewrite addrs_app. cbn [addrs fst]. fold a. fold nf. rewrite elem_of_app, !elem_of_cons. tauto. }
  assert (Hnl : forall c x, c ∈ addrs base b1 \/ c = a \/ c = nf -> x = c + 8 \/ x = c + 12 -> w' x = w1 x).
  { intros c x Hc Hx. apply Hfr. by apply (not_link true base new c x Hnew (Hin c Hc)). }
  constructor; [done|done|exact Hnew|by rewrite Htot|rewrite Et; rewrite Et in Hc'; exact Hc'| |].
  - apply (chain_frame w1).
    + intros x Hx. apply Hfr. intros Hx'. exact (links_apart true base new x Hnew Hx' Hx).
    + rewrite Ef. apply (chain_frame w); [|done]. intros x (c & Hc & Hx).
      assert (c <= a) by (rewrite elem_of_app, list_elem_of_singleton in Hc; destruct Hc as [Hc| ->]; [apply places_addrs, Hlow in Hc; lia|lia]).
      destruct (decide (x = a + 4)) as [->|]; [|apply Hw1; lia]. unfold w1, set_size, set_next, nf, ITEM_SIZE. upds. done.
  - apply headers_app in Hh as [Hh1 (Hsz & Hmg & _)]. specialize (Hmg eq_refl). cbn [fst] in Hsz. fold a in Hsz, Hmg.
    unfold new. apply headers_app. cbn [headers fst snd]. fold a. unfold size, magic in *. split_and!; try done.
    + apply (headers_frame w); [|done]. intros c Hc. rewrite !(Hnl c), !Hw1 by (auto; specialize (Hlow c Hc); lia). done.
    + rewrite (Hnl a) by tauto. unfold w1, set_size. by upds.
    + intros _. rewrite (Hnl a) by tauto. rewrite <- Hmg. unfold w1, set_size, set_next, nf, ITEM_SIZE. upds. done.
    + fold nf. rewrite (Hnl nf) by tauto. unfold w1, set_size, set_next, nf, ITEM_SIZE. upds. done.
Qed.

Lemma join_row base b1 s1 s2 b2 w av asg : row base (b1 ++ (s1, true) :: (s2, true) :: b2) w av asg ->
  let a := base + total b1 in
  let r := pmalloc_item_remove av (a + ITEM_SIZE + s1) w in
  size r.2 a = s1 /\ row base (b1 ++ (s1 + ITEM_SIZE + s2, true) :: b2) (set_size a (s1 + ITEM_SIZE + s2) r.2) r.1 asg.
Proof.
  intros [Hb Hal Hbs He Hf Hu Hh] a r. set (n := a + ITEM_SIZE + s1). set (new := b1 ++ (s1 + ITEM_SIZE + s2, true) :: b2).
  set (end_ := n + ITEM_SIZE + s2).
  pose proof Hbs as [Hbs1 [[Hs1 Hs1'] [[Hs2 Hs2'] Hbs2]%Forall_cons]%Forall_cons]%Forall_app. cbn in Hs1, Hs1', Hs2, Hs2'.
  assert (Hnew : Forall block_ok new).
  { unfold new. apply Forall_app. split; [done|]. constructor; [|done]. split; cbn; unfold ITEM_SIZE; [lia|zdm]. }
  assert (Htot : total new = total (b1 ++ (s1, true) :: (s2, true) :: b2)) by (unfold new; rewrite !total_app; cbn [total fst]; lia).
  assert (Hend : a + ITEM_SIZE + (s1 + ITEM_SIZE + s2) = end_) by (unfold end_, n; lia).
  assert (Et : places true base (b1 ++ (s1, true) :: (s2, true) :: b2) = (places true base b1 ++ [a]) ++ n :: places true end_ b2).
  { rewrite places_app. cbn [places snd fst Bool.eqb app]. by rewrite <- app_assoc. }
  assert (Et' : places true base new = (places true base b1 ++ [a]) ++ places true end_ b2).
  { unfold new. rewrite places_app. cbn [places snd fst Bool.eqb app]. fold a. by rewrite Hend, <- app_assoc. }
  assert (Ef : places false base (b1 ++ (s1, true) :: (s2, true) :: b2) = places false base new).
  { unfold new. rewrite !places_app. cbn [places snd fst Bool.eqb app]. fold a. by rewrite Hend. }
  pose proof (places_spaced true base _ Hbs) as Hsp. pose proof (places_pos true base _ Hb Hbs) as Hpos.
  pose proof (fun x => links_apart true base _ x Hbs) as Hap. pose proof (fun c x => not_link true base _ c x Hbs) as Hnl.
  rewrite Et in Hf, Hsp, Hpos. setoid_rewrite Et in Hap. setoid_rewrite Et in Hnl. cbn [negb] in Hap. setoid_rewrite Ef in Hap.
  destruct (remove_ok av _ _ n w Hf Hsp Hpos) as (w1 & E & Hc & _ & _ & Hfr). unfold r. fold n. rewrite E. cbn [fst snd].
  assert (Hin : forall c, c ∈ addrs base b1 \/ c = a \/ c ∈ addrs end_ b2 -> c ∈ addrs base (b1 ++ (s1, true) :: (s2, true) :: b2)).
  { intros c Hin. rewrite addrs_app. cbn [addrs fst]. fold a. fold n. fold end_. rewrite elem_of_app, !elem_of_cons. tauto. }
  assert (Hk : forall c x, c ∈ addrs base b1 \/ c = a \/ c ∈ addrs end_ b2 -> x = c + 8 \/ x = c + 12 -> w1 x = w x).
  { intros c x Hc' Hx. apply Hfr. by apply (Hnl c x (Hin c Hc')). }
  apply headers_app in Hh as [Hh1 (Hsz & _ & _ & _ & Hh2)]. cbn [fst] in Hsz, Hh2. fold a in Hsz, Hh2. fold n in Hh2. fold end_ in Hh2.
  assert (Ha : a ∈ addrs base new) by apply middle_in.
  split; [unfold size in *; by rewrite (Hk a) by tauto|].
  assert (Hset : forall f x, links (places f base new) x -> set_size a (s1 + ITEM_SIZE + s2) w1 x = w1 x).
  { intros f x Hx. apply upd_ne. intros ->. by apply (not_link f base new a (a + 8) Hnew Ha ltac:(tauto)). }
  constructor; [done|done|exact Hnew|fold new; by rewrite Htot|fold new..|].
  - apply (chain_frame w1); [by apply Hset|]. rewrite Et'. exact Hc.
  - apply (chain_frame w1); [by apply Hset|]. rewrite <- Ef. apply (chain_frame w); [|exact Hu].
    intros x Hx. apply Hfr. intros Hl. rewrite Ef in Hx. exact (Hap x Hl Hx).
  - apply headers_app. cbn [headers fst snd]. fold a. rewrite Hend.
    assert (Hs' : forall c x, c ∈ addrs base b1 \/ c ∈ addrs end_ b2 -> x = c + 8 \/ x = c + 12 -> set_size a (s1 + ITEM_SIZE + s2) w1 x = w x).
    { intros c x Hc' Hx. unfold set_size. rewrite upd_ne; [apply (Hk c); [tauto|done]|].
      destruct Hc' as [Hc'|Hc']; (apply addrs_in in Hc'; [|done]); unfold a, end_, n, ITEM_SIZE in *; lia. }
    split_and!; [| |done|].
    + apply (headers_frame w); [|done]. intros c Hc'. by rewrite !(Hs' c) by tauto.
    + unfold size, set_size. apply upd_eq.
    + apply (headers_frame w); [|done]. intros c Hc'. by rewrite !(Hs' c) by tauto.
Qed.

(** ** Blocks and their neighbours *)

(** No two free blocks are next to each other; [prev] is whether a free block
    comes before. *)
Fixpoint coal (prev : bool) (bs : list block) : bool :=
  match bs with [] => true | b :: bs => negb (prev && b.2) && coal b.2 bs end.
Fixpoint ends (prev : bool) (bs : list block) : bool := match bs with [] => prev | b :: bs => ends b.2 bs end.
Lemma coal_app prev b1 b2 : coal prev (b1 ++ b2) = coal prev b1 && coal (ends prev b1) b2.
Proof. revert prev. induction b1 as [|b b1 IH]; intros p; cbn; [done|]. by rewrite IH, andb_assoc. Qed.
Lemma ends_snoc prev b1 b : ends prev (b1 ++ [b]) = b.2.
Proof. revert prev. by induction b1 as [|c b1 IH]; intros p; cbn. Qed.

(** The used blocks, with their sizes. *)
Fixpoint used (base : Z) (bs : list block) : list (Z * Z) :=
  match bs with
  | [] => []
  | b :: bs => (if b.2 then [] else [(base, b.1)]) ++ used (base + ITEM_SIZE + b.1) bs
  end.
Lemma used_app base b1 b2 : used base (b1 ++ b2) = used base b1 ++ used (base + total b1) b2.
Proof.
  revert base. induction b1 as [|b b1 IH]; intros base; cbn [used app total]; [by rewrite Z.add_0_r|].
  rewrite IH, app_assoc. do 2 f_equal. lia.
Qed.

(** What joining a free block with the free ones after it makes. *)
Fixpoint absorb (s : Z) (b2 : list block) : list block :=
  match b2 with
  | (s2, true) :: b2 => absorb (s + ITEM_SIZE + s2) b2
  | _ => (s, true) :: b2
  end.
Lemma absorb_total s b2 : total (absorb s b2) = ITEM_SIZE + s + total b2.
Proof. revert s. induction b2 as [|[s2 []] b2 IH]; intros s; cbn [absorb total fst]; [lia| |lia]. rewrite IH. lia. Qed.
Lemma absorb_used base s b2 : used base (absorb s b2) = used (base + ITEM_SIZE + s) b2.
Proof.
  revert s. induction b2 as [|[s2 []] b2 IH]; intros s; cbn [absorb used snd fst app]; try done.
  rewrite IH. f_equal. lia.
Qed.
Lemma absorb_coal s b2 : coal true b2 || coal false b2 = true -> coal false (absorb s b2) = true.
Proof.
  revert s. induction b2 as [|[s2 []] b2 IH]; intros s; cbn; [done| |].
  - intros Hc. apply IH. by rewrite Hc.
  - by destruct (coal false b2).
Qed.

Lemma places_split free base bs a : a ∈ places free base bs -> exists c1 s c2, bs = c1 ++ (s, free) :: c2 /\ a = base + total c1.
Proof.
  revert base. induction bs as [|[s f] bs IH]; intros base; cbn [places fst snd]; [by intros ?%elem_of_nil|].
  rewrite elem_of_app. intros [Ha|Ha].
  - destruct (Bool.eqb f free) eqn:E; [|by apply elem_of_nil in Ha]. apply eqb_prop in E as ->.
    apply list_elem_of_singleton in Ha as ->. exists [], s, bs. cbn [app total]. split; [done|lia].
  - apply IH in Ha as (c1 & s' & c2 & -> & ->). exists ((s, f) :: c1), s', c2. cbn [app total fst]. split; [done|lia].
Qed.

(** ** The heap's state *)

(** [d] is how much the count of free memory is ahead of the blocks. *)
Record shape (base : Z) (bs : list block) (d : Z) (h : heap) : Prop := {
  sh_row : row base bs (hp_mem h) (available h) (assigned h);
  sh_free : freemem h = u32 (free_total bs + d);
  sh_nodes : totalnodes h = Z.of_nat (length bs)
}.
Record heap_ok (base : Z) (bs : list block) (h : heap) : Prop := {
  ok_shape : shape base bs 0 h;
  ok_coal : coal false bs = true
}.

Lemma nodes_small base bs w av asg : row base bs w av asg -> Z.of_nat (length bs) < 2 ^ 32 - 1.
Proof. intros [Hb _ Hbs He _ _ _]. pose proof (length_total bs Hbs). unfold ITEM_SIZE in *. lia. Qed.
Lemma size_at base b1 s f b2 w : headers w base (b1 ++ (s, f) :: b2) -> size w (base + total b1) = s.
Proof. intros [_ [Hs _]]%headers_app. exact Hs. Qed.
Lemma next_free base b1 s b2 w av asg : row base (b1 ++ (s, true) :: b2) w av asg ->
  next w (base + total b1) = hd 0 (places true (base + total b1 + ITEM_SIZE + s) b2) /\ prev w (base + total b1) = final 0 (places true base b1).
Proof.
  intros [_ _ _ _ [_ Hf] _ _]. rewrite places_middle in Hf. cbn [Bool.eqb app] in Hf.
  apply seg_app in Hf as [_ (Hp & Hn & _)]. done.
Qed.
Lemma block_bounds base b1 s f b2 w av asg : row base (b1 ++ (s, f) :: b2) w av asg ->
  0 < base + total b1 /\ 0 <= s /\ s mod 4 = 0 /\ base + total b1 + ITEM_SIZE + s + total b2 < 2 ^ 32 /\ 0 <= total b2.
Proof.
  intros [Hb _ Hbs He _ _ _]. rewrite total_app in He. cbn [total fst] in He.
  apply Forall_app in Hbs as [H1 [[H2 H3] H4]%Forall_cons]. cbn in H2, H3.
  pose proof (total_nonneg b1 H1). pose proof (total_nonneg b2 H4). lia.
Qed.

Lemma merge_forward_ok base d : forall b2 fuel b1 s h, shape base (b1 ++ (s, true) :: b2) d h -> (length b2 < fuel)%nat ->
  wp (merge_forward fuel (base + total b1)) (fun _ h' => shape base (b1 ++ absorb s b2) d h') h.
Proof.
  induction b2 as [|[s2 f2] b2 IH]; intros fuel b1 s h [Hr Hfree Hnodes] Hfuel; (destruct fuel as [|fuel]; [cbn in Hfuel; lia|]);
    cbn [merge_forward]; apply wp_bind, wp_get; pose proof (block_bounds _ _ _ _ _ _ _ _ Hr) as (Ha & Hs0 & _ & He & _);
    destruct (next_free _ _ _ _ _ _ _ Hr) as [Hn _]; rewrite (size_at base b1 s true _ _ (row_headers _ _ _ _ _ Hr)), Hn;
    set (a := base + total b1) in *; cbn [total fst] in He; unfold ITEM_SIZE in He.
  - cbn [places hd absorb]. rewrite (proj2 (Z.eqb_neq _ _)); [apply wp_ret; by constructor|].
    unfold u32, ITEM_SIZE. rewrite Z.mod_small by lia. lia.
  - assert (H2 : 0 <= s2 /\ 0 <= total b2).
    { apply (row_blocks _ _ _ _ _), Forall_app in Hr as [_ [_ [[? _] H']%Forall_cons]%Forall_cons]. split; [done|by apply total_nonneg]. }
    assert (Eu : u32 (a + ITEM_SIZE + s) = a + ITEM_SIZE + s) by (unfold u32, ITEM_SIZE; apply Z.mod_small; lia). rewrite Eu.
    destruct f2; cbn [places snd fst Bool.eqb app hd absorb].
    + rewrite Z.eqb_refl.
      assert (Esz : size (hp_mem h) (a + ITEM_SIZE + s) = s2).
      { pose proof (row_headers _ _ _ _ _ Hr) as Hh. replace (b1 ++ (s, true) :: (s2, true) :: b2) with ((b1 ++ [(s, true)]) ++ (s2, true) :: b2) in Hh by by rewrite <- app_assoc.
        apply size_at in Hh. rewrite total_app in Hh. cbn [total fst] in Hh. etransitivity; [|exact Hh]. f_equal. unfold a. lia. }
      rewrite Esz. apply wp_bind, wp_modify, wp_bind. unfold remove_available at 1. apply wp_modify.
      destruct (join_row base b1 s s2 b2 _ _ _ Hr) as [Hsz Hrow]. fold a in Hsz, Hrow.
      cbn [add_freemem hp_mem available assigned].
      destruct (pmalloc_item_remove (available h) (a + ITEM_SIZE + s) (hp_mem h)) as [av' w'] eqn:Er. cbn [fst snd] in Hsz, Hrow.
      apply wp_bind, wp_modify, wp_bind, wp_modify. apply IH; [|cbn in Hfuel; lia].
      cbn [hp_mem set_available set_hp_mem add_totalnodes change_hp]. rewrite Hsz.
      assert (Eq : u32 (s + u32 (s2 + ITEM_SIZE)) = s + ITEM_SIZE + s2).
      { unfold u32, ITEM_SIZE. rewrite (Z.mod_small (s2 + 16)) by lia. rewrite Z.mod_small by lia. lia. }
      constructor.
      * cbn [hp_mem available assigned change_hp set_hp_mem add_totalnodes set_available]. rewrite Eq. exact Hrow.
      * cbn [freemem change_hp set_hp_mem add_totalnodes set_available add_freemem]. rewrite Hfree. unfold u32.
        rewrite Zplus_mod_idemp_l. f_equal. rewrite !free_total_app. cbn [free_total snd fst]. lia.
      * cbn [totalnodes change_hp set_hp_mem add_totalnodes set_available add_freemem]. rewrite Hnodes.
        pose proof (nodes_small _ _ _ _ _ Hr) as Hsm. rewrite !length_app in *. cbn [length] in *. unfold u32. rewrite Z.mod_small by lia. lia.
    + rewrite (proj2 (Z.eqb_neq _ _)); [apply wp_ret; by constructor|]. destruct (places true _ b2) as [|c l] eqn:Ep; [cbn; unfold ITEM_SIZE; lia|].
      assert (Hc : c ∈ places true (a + ITEM_SIZE + s + ITEM_SIZE + s2) b2) by (rewrite Ep; apply list_elem_of_here).
      apply places_in in Hc; [cbn; unfold ITEM_SIZE in *; lia|].
      apply (row_blocks _ _ _ _ _), Forall_app in Hr as [_ [_ [_ H']%Forall_cons]%Forall_cons]. exact H'.
Qed.

(** ** Merging both ways *)

Lemma merge_back_stop base b1 s b2 w av asg fuel : row base (b1 ++ (s, true) :: b2) w av asg -> ends false b1 = false -> (0 < fuel)%nat ->
  merge_back fuel (base + total b1) w = Some (base + total b1).
Proof.
  intros Hr Hends Hfuel. destruct fuel as [|fuel]; [lia|]. cbn [merge_back]. destruct (next_free _ _ _ _ _ _ _ Hr) as [_ Hp]. rewrite Hp.
  pose proof (block_bounds _ _ _ _ _ _ _ _ Hr) as (_ & Hs & _ & He & Ht).
  destruct (final_in 0 (places true base b1)) as [[-> _]|Hin]; [done|]. set (p := final 0 (places true base b1)) in *.
  apply places_split in Hin as (c1 & sp & c2 & E & Ep).
  assert (Hc2 : exists x c, c2 = x :: c).
  { destruct c2 as [|x c]; [|by exists x, c]. rewrite E, ends_snoc in Hends. done. }
  destruct Hc2 as ([x fx] & c & ->). pose proof Hr as [Hb _ Hbs _ _ _ Hh]. rewrite E in Hh, Hbs. rewrite <- app_assoc in Hh.
  apply size_at in Hh. rewrite <- Ep in Hh. rewrite Hh, E, total_app, Ep. cbn [total fst] in *.
  apply Forall_app in Hbs as [[Hc1 [[Hsp _] [[Hx _] Hc]%Forall_cons]%Forall_cons]%Forall_app _]. cbn in Hsp, Hx.
  pose proof (total_nonneg c1 Hc1). pose proof (total_nonneg c Hc). rewrite E, total_app in He. cbn [total fst] in He. unfold ITEM_SIZE in *.
  rewrite (proj2 (Z.eqb_neq (base + (total c1 + _)) _)); [by rewrite andb_false_r|]. unfold u32. rewrite Z.mod_small by lia. lia.
Qed.
Lemma merge_back_ok base b1 s1 s b2 w av asg fuel : row base ((b1 ++ [(s1, true)]) ++ (s, true) :: b2) w av asg ->
  ends false b1 = false -> (1 < fuel)%nat ->
  merge_back fuel (base + total (b1 ++ [(s1, true)])) w = Some (base + total b1).
Proof.
  intros Hr Hends Hfuel. destruct fuel as [|fuel]; [lia|]. cbn [merge_back]. destruct (next_free _ _ _ _ _ _ _ Hr) as [_ Hp]. rewrite Hp.
  pose proof (block_bounds _ _ _ _ _ _ _ _ Hr) as (_ & Hs & _ & He & Ht). rewrite <- app_assoc in Hr. cbn [app] in Hr.
  pose proof (block_bounds _ _ _ _ _ _ _ _ Hr) as (Ha & Hs1 & _ & He' & Ht').
  rewrite places_app, final_app. cbn [places snd fst Bool.eqb app final]. rewrite total_app. cbn [total fst].
  rewrite (size_at base b1 s1 true _ _ (row_headers _ _ _ _ _ Hr)). rewrite (proj2 (Z.eqb_neq (base + total b1) 0)) by lia.
  rewrite total_app in He. cbn [total fst] in He.
  replace (base + (total b1 + (ITEM_SIZE + s1 + 0))) with (base + total b1 + ITEM_SIZE + s1) in * by lia.
  assert (Eu : u32 (base + total b1 + ITEM_SIZE + s1) = base + total b1 + ITEM_SIZE + s1).
  { unfold u32, ITEM_SIZE in *. apply Z.mod_small. lia. }
  rewrite Eu, Z.eqb_refl. cbn [negb andb]. apply (merge_back_stop base b1 s1 _ w av asg fuel Hr Hends). lia.
Qed.

(** A free block whose neighbours may be free: the blocks around it are joined,
    the used ones stay as they are. *)
Lemma pmalloc_merge_ok base b1 s b2 d h : shape base (b1 ++ (s, true) :: b2) d h -> coal false b1 = true -> coal false b2 = true ->
  wp (pmalloc_merge (base + total b1)) (fun _ h' => exists bs', shape base bs' d h' /\ coal false bs' = true /\
    used base bs' = used base (b1 ++ (s, true) :: b2) /\ total bs' = total (b1 ++ (s, true) :: b2) /\
    (ends false b1 = false -> b2 = [] -> bs' = b1 ++ [(s, true)])) h.
Proof.
  intros Hsh Hc1 Hc2. pose proof Hsh as [Hr _ Hn]. unfold pmalloc_merge. apply wp_bind, wp_get.
  assert (Hrounds : (length b1 + length b2 + 2 <= rounds h)%nat).
  { unfold rounds. rewrite Hn, length_app. cbn [length]. lia. }
  destruct (list_snoc b1) as [->|(k & [s1 f1] & ->)]; [|destruct f1].
  - rewrite (merge_back_stop base [] s b2 _ _ _ _ Hr) by (done || lia). apply wp_bind. cbn [wp of_option].
    eapply wp_mono; [apply (merge_forward_ok base d b2 _ []); [done|lia]|]. intros u0 h' Hsh'. cbv beta in Hsh'. clear u0. exists (absorb s b2).
    cbn [app] in *. split_and!; [done|apply absorb_coal; rewrite Hc2; apply orb_true_r| | |].
    + cbn [used snd fst app]. by rewrite absorb_used.
    + rewrite absorb_total. cbn [total fst]. lia.
    + intros _ E0. rewrite E0. done.
  - rewrite coal_app in Hc1. cbn [coal snd] in Hc1. apply andb_prop in Hc1 as [Hck Hck'].
    assert (Hends : ends false k = false) by (by destruct (ends false k)).
    rewrite (merge_back_ok base k s1 s b2 _ _ _ _ Hr) by (done || lia). apply wp_bind. cbn [wp of_option].
    assert (Hsh1 : shape base (k ++ (s1, true) :: (s, true) :: b2) d h) by (by rewrite <- app_assoc in Hsh).
    eapply wp_mono; [apply (merge_forward_ok base d ((s, true) :: b2) _ k s1 h Hsh1); rewrite length_app in Hrounds; cbn [length] in *; lia|].
    intros u0 h' Hsh'. cbv beta in Hsh'. clear u0. exists (k ++ absorb s1 ((s, true) :: b2)). split_and!; [done|..].
    + rewrite coal_app, Hck, Hends. cbn [absorb andb]. apply absorb_coal. rewrite Hc2. apply orb_true_r.
    + rewrite <- app_assoc, !used_app. f_equal. cbn [absorb app used snd fst]. rewrite absorb_used. f_equal. cbn [total fst]. lia.
    + rewrite <- app_assoc, !total_app. cbn [absorb app total fst]. rewrite absorb_total. cbn [total fst]. lia.
    + rewrite ends_snoc. done.
  - rewrite (merge_back_stop base _ s b2 _ _ _ _ Hr) by (rewrite ?ends_snoc; done || lia). apply wp_bind. cbn [wp of_option].
    eapply wp_mono; [apply (merge_forward_ok base d b2); [done|lia]|]. intros u0 h' Hsh'. cbv beta in Hsh'. clear u0. exists ((k ++ [(s1, false)]) ++ absorb s b2).
    split_and!; [done|..].
    + rewrite coal_app, Hc1, ends_snoc. cbn [snd andb]. apply absorb_coal. rewrite Hc2. apply orb_true_r.
    + rewrite !(used_app base (k ++ [(s1, false)])). f_equal. cbn [used snd fst app]. by rewrite absorb_used.
    + rewrite !(total_app (k ++ [(s1, false)])). f_equal. rewrite absorb_total. cbn [total fst]. lia.
    + intros _ E0. rewrite E0. done.
Qed.

(** ** Freeing *)

Lemma coal_tail f b b2 : coal f (b :: b2) = true -> coal b.2 b2 = true.
Proof. cbn. by intros [_ ?]%andb_prop. Qed.
Lemma pmalloc_free_ok base b1 s b2 h : heap_ok base (b1 ++ (s, false) :: b2) h ->
  wp (pmalloc_free (base + total b1 + ITEM_SIZE)) (fun _ h' => exists bs', heap_ok base bs' h' /\
    used base bs' = used base b1 ++ used (base + total b1 + ITEM_SIZE + s) b2 /\
    total bs' = total (b1 ++ (s, false) :: b2)) h.
Proof.
  intros [[Hr Hfree Hn] Hc]. pose proof (block_bounds _ _ _ _ _ _ _ _ Hr) as (Ha & Hs & _ & He & Ht). unfold ITEM_SIZE in He.
  unfold pmalloc_free. rewrite (proj2 (Z.eqb_neq _ 0)) by (unfold ITEM_SIZE; lia).
  replace (u32 (base + total b1 + ITEM_SIZE - ITEM_SIZE)) with (base + total b1) by (unfold u32, ITEM_SIZE; rewrite Z.mod_small; lia).
  set (a := base + total b1) in *. apply wp_bind. unfold remove_assigned. apply wp_modify.
  destruct (give_block base b1 s b2 _ _ _ (rounds h) Hr) as (av' & w' & Ei & Hr' & Hsz).
  { unfold rounds. rewrite Hn, length_app. lia. }
  fold a in Ei, Hr', Hsz. destruct (pmalloc_item_remove (assigned h) a (hp_mem h)) as [asg' w1] eqn:Er. cbn [fst snd] in *.
  apply wp_bind, wp_get, wp_bind, wp_modify, wp_bind. unfold insert_available. apply wp_bind, wp_get.
  cbn [hp_mem add_freemem set_assigned set_hp_mem available]. change (rounds (add_freemem _ _)) with (rounds h). rewrite Ei.
  apply wp_bind. cbn [wp of_option]. apply wp_put. rewrite coal_app in Hc. apply andb_prop in Hc as [Hc1 Hc2].
  apply coal_tail in Hc2. cbn [snd] in Hc2.
  eapply wp_mono; [apply (pmalloc_merge_ok base b1 s b2 0)|].
  - constructor; [exact Hr'| |].
    + cbn [freemem set_available set_hp_mem add_freemem set_assigned]. rewrite Hsz, Hfree. unfold u32. rewrite Zplus_mod_idemp_l.
      f_equal. rewrite !free_total_app. cbn [free_total snd fst]. lia.
    + cbn [totalnodes set_available set_hp_mem add_freemem set_assigned]. rewrite Hn, !length_app. done.
  - done.
  - done.
  - intros _ h' (bs' & Hsh & Hco & Hu & Ht' & _). exists bs'. split; [by constructor|]. split.
    + rewrite Hu, used_app. cbn [used snd fst app]. done.
    + by rewrite Ht', (total_flag b1 s true false b2).
Qed.

(** ** Allocating *)

Lemma find_fit_ok want w l : forall p fuel, seg w p l 0 -> Forall (fun a => 0 < a) l -> (length l < fuel)%nat ->
  (find_fit fuel (hd 0 l) want w = Some 0 /\ Forall (fun a => size w a < want) l) \/
  (exists a, a ∈ l /\ find_fit fuel (hd 0 l) want w = Some a /\ want <= size w a).
Proof.
  induction l as [|a l IH]; intros p fuel Hs Hpos Hfuel; (destruct fuel as [|fuel]; [cbn in Hfuel; lia|]); cbn [find_fit hd].
  - left. by rewrite Z.eqb_refl.
  - apply Forall_cons in Hpos as [Ha Hpos]. destruct Hs as (_ & Hn & Hs). rewrite (proj2 (Z.eqb_neq a 0)) by lia. cbn [negb andb].
    destruct (Z.ltb_spec (size w a) want) as [Hlt|Hge].
    + rewrite Hn. destruct (IH a fuel Hs Hpos) as [[E H]|(b & Hb & E & H)]; [cbn in Hfuel; lia|..].
      * left. split; [done|by constructor].
      * right. exists b. split; [by apply list_elem_of_further|done].
    + right. exists a. split; [apply list_elem_of_here|done].
Qed.

Lemma align_word_spec n : 0 <= n -> n + 3 < 2 ^ 32 -> n <= align_word n < n + 4 /\ align_word n mod 4 = 0.
Proof.
  intros H0 H1. unfold align_word, u32. rewrite Z.mod_small by lia. rewrite <- Z.ldiff_land.
  assert (E : Z.ldiff (n + 3) 3 = 4 * ((n + 3) / 4)).
  { change (Z.ldiff (n + 3) 3) with (Z.ldiff (n + 3) (Z.ones 2)). rewrite Z.ldiff_ones_r, shl, shr by lia. change (2 ^ 2) with 4. lia. }
  rewrite E. zdm.
Qed.

(** The block found is used as it is, or is the last one and large enough to be
    cut in two. *)
Definition careful (end_ want : Z) (h : heap) : Prop :=
  match find_fit (rounds h) (available h) want (hp_mem h) with
  | Some c => c = 0 \/ size (hp_mem h) c = want \/
      want + ITEM_SIZE <= size (hp_mem h) c /\ c + ITEM_SIZE + size (hp_mem h) c = end_
  | None => True
  end.
#[export] Instance careful_dec end_ want h : Decision (careful end_ want h).
Proof. unfold careful. destruct (find_fit _ _ _ _); apply _. Defined.

Lemma split_ok base b1 s n h : row base (b1 ++ [(s, false)]) (hp_mem h) (available h) (assigned h) ->
  totalnodes h = Z.of_nat (length (b1 ++ [(s, false)])) -> freemem h = u32 (free_total b1 + s) -> coal false b1 = true ->
  0 <= n -> n mod 4 = 0 -> n + ITEM_SIZE <= s -> next (hp_mem h) (base + total b1) = 0 ->
  wp (split (base + total b1) n) (fun _ h' =>
    shape base (b1 ++ [(n, false); (s - ITEM_SIZE - n, true)]) n h' /\ coal false (b1 ++ [(n, false); (s - ITEM_SIZE - n, true)]) = true) h.
Proof.
  intros Hr Hn Hfree Hc Hn0 Hn4 Hns Hnext. set (a := base + total b1) in *.
  pose proof (block_bounds _ _ _ _ _ _ _ _ Hr) as (Ha & Hs & _ & He & _). fold a in He, Ha. cbn [total] in He. unfold ITEM_SIZE in He, Hns.
  pose proof (size_at base b1 s false [] _ (row_headers _ _ _ _ _ Hr)) as Hsz. fold a in Hsz.
  unfold split. apply wp_bind, wp_get.
  replace (u32 (a + ITEM_SIZE + n)) with (a + ITEM_SIZE + n) by (unfold u32, ITEM_SIZE; rewrite Z.mod_small; lia).
  set (nf := a + ITEM_SIZE + n). do 4 (apply wp_bind, wp_modify).
  assert (Hnx : next (set_size nf (s - ITEM_SIZE - n) (hp_mem h)) a = 0).
  { unfold next, set_size in *. rewrite upd_ne; [done|]. unfold nf, ITEM_SIZE. lia. }
  replace (change_hp (set_size a n) _) with
    (set_hp_mem (set_size a n (set_next a 0 (set_next nf 0 (set_size nf (s - ITEM_SIZE - n) (hp_mem h))))) h).
  2:{ unfold change_hp. cbn [set_hp_mem hp_mem]. rewrite Hsz.
      replace (u32 (s - ITEM_SIZE - n)) with (s - ITEM_SIZE - n) by (unfold u32, ITEM_SIZE; rewrite Z.mod_small; lia). by rewrite Hnx. }
  destruct (split_row base b1 s n _ _ _ (rounds h) Hr) as (av' & w' & Ei & Hr'); [|done|done|unfold ITEM_SIZE; lia|done|].
  { unfold rounds. rewrite Hn, length_app. lia. }
  fold a in Ei. fold nf in Ei. apply wp_bind. unfold insert_available. apply wp_bind, wp_get. change (rounds (set_hp_mem _ _)) with (rounds h).
  cbn [hp_mem available set_hp_mem]. rewrite Ei. apply wp_bind. cbn [wp of_option]. apply wp_put.
  apply wp_bind, wp_modify, wp_bind, wp_modify.
  pose proof (pmalloc_merge_ok base (b1 ++ [(n, false)]) (s - ITEM_SIZE - n) [] n) as Hm.
  rewrite <- app_assoc in Hm. cbn [app] in Hm. rewrite total_app in Hm. cbn [total fst] in Hm.
  replace (base + (total b1 + (ITEM_SIZE + n + 0))) with nf in Hm by (unfold nf, a; lia).
  eapply wp_mono; [apply Hm|].
  - constructor; [exact Hr'| |].
    + cbn [freemem add_totalnodes add_freemem set_available set_hp_mem]. rewrite Hfree. unfold u32. rewrite Zplus_mod_idemp_l. f_equal.
      rewrite free_total_app. cbn [free_total snd fst]. unfold ITEM_SIZE. lia.
    + cbn [totalnodes add_totalnodes add_freemem set_available set_hp_mem]. rewrite Hn.
      pose proof (nodes_small _ _ _ _ _ Hr). rewrite !length_app in *. cbn [length] in *. unfold u32. rewrite Z.mod_small by lia. lia.
  - rewrite coal_app, Hc. cbn. by rewrite andb_false_r.
  - done.
  - intros u0 h' (bs' & Hsh & Hco & _ & _ & E). clear u0. rewrite (E (ends_snoc _ _ _) eq_refl) in Hsh, Hco. by split.
Qed.

Lemma pmalloc_malloc_ok base bs n h : heap_ok base bs h -> 0 <= n -> n + 3 < 2 ^ 32 -> careful (base + total bs) (align_word n) h ->
  wp (pmalloc_malloc n) (fun p h' =>
    p = 0 /\ h' = h /\ Forall (fun b : block => b.2 = true -> b.1 < align_word n) bs \/
    exists b1 s b2 bs', bs = b1 ++ (s, true) :: b2 /\ p = base + total b1 + ITEM_SIZE /\ heap_ok base bs' h' /\
      used base bs' = used base b1 ++ (base + total b1, align_word n) :: used (base + total b1 + ITEM_SIZE + s) b2 /\
      total bs' = total bs) h.
Proof.
  intros [[Hr Hfree Hn] Hc] H0 H1 Hcare. destruct (align_word_spec n H0 H1) as [Hw Hw4]. set (want := align_word n) in *.
  unfold pmalloc_malloc. fold want. apply wp_bind, wp_get. pose proof Hr as [Hb _ Hbs He [Eav Hseg] _ Hh].
  assert (Hfuel : (length (places true base bs) < rounds h)%nat).
  { unfold rounds. rewrite Hn, Nat2Z.id. pose proof (length_places true base bs). lia. }
  unfold careful in Hcare. rewrite Eav in Hcare |- *.
  destruct (find_fit_ok want (hp_mem h) _ 0 (rounds h) Hseg (places_pos true base bs Hb Hbs) Hfuel) as [[E Hall]|(a & Hin & E & Hfit)];
    rewrite E in Hcare |- *; apply wp_bind; cbn [wp of_option].
  - apply wp_ret. left. split; [done|]. split; [done|]. apply Forall_forall. intros [s f] Hin. cbn. intros ->.
    apply list_elem_of_split in Hin as (c1 & c2 & ->). pose proof (size_at _ _ _ _ _ _ Hh) as <-.
    rewrite Forall_forall in Hall. apply Hall. rewrite places_middle. cbn. apply elem_of_app. right. apply list_elem_of_here.
  - apply places_split in Hin as (b1 & s & b2 & -> & ->). rewrite (size_at _ _ _ _ _ _ Hh) in Hfit, Hcare.
    pose proof (block_bounds _ _ _ _ _ _ _ _ Hr) as (Ha & Hs0 & Hs4 & He' & Ht2). unfold ITEM_SIZE in He'. set (a := base + total b1) in *.
    rewrite (proj2 (Z.eqb_neq a 0)) by lia. apply wp_bind, wp_modify, wp_bind. unfold remove_available. apply wp_modify.
    cbn [change_hp set_hp_mem hp_mem available].
    destruct (take_block base b1 s b2 _ _ _ (rounds h) Hr) as (asg' & w' & Ei & Hr' & Hnx).
    { unfold rounds. rewrite Hn, length_app. lia. }
    fold a in Ei, Hr', Hnx. destruct (pmalloc_item_remove (available h) a (set_magic a MAGIC (hp_mem h))) as [av' w1] eqn:Er. cbn [fst snd] in *.
    apply wp_bind. unfold insert_assigned. apply wp_bind, wp_get. cbn [hp_mem assigned]. change (rounds (set_available _ _)) with (rounds h).
    cbn [set_available set_hp_mem change_hp hp_mem assigned]. rewrite Ei. apply wp_bind. cbn [wp of_option]. apply wp_put.
    apply wp_bind, wp_get. cbn [hp_mem set_assigned set_hp_mem].
    rewrite coal_app in Hc. apply andb_prop in Hc as [Hc1 Hc2]. pose proof (coal_tail _ _ _ Hc2) as Hc2'. cbn [snd] in Hc2'.
    assert (Hc2'' : coal false b2 = true).
    { destruct b2 as [|[x []] b2]; cbn in Hc2' |- *; done. }
    pose proof (size_at _ _ _ _ _ _ (row_headers _ _ _ _ _ Hr')) as Hsz. fold a in Hsz. rewrite Hsz.
    assert (Hret : u32 (a + ITEM_SIZE) = a + ITEM_SIZE) by (unfold u32, ITEM_SIZE; apply Z.mod_small; lia).
    match goal with |- wp _ _ ?hh => set (h2 := hh) end.
    assert (Hnodes : totalnodes h2 = Z.of_nat (length (b1 ++ (s, false) :: b2))) by (change (totalnodes h2) with (totalnodes h); by rewrite Hn, !length_app).
    assert (Hfree2 : freemem h2 = u32 (free_total (b1 ++ (s, true) :: b2))) by (change (freemem h2) with (freemem h); by rewrite Hfree, Z.add_0_r).
    destruct (Z.eqb_spec s want) as [Esw|Esw].
    + apply wp_bind, wp_ret, wp_bind, wp_get, wp_bind, wp_modify, wp_ret. right. change (hp_mem h2) with w'. rewrite Hsz.
      exists b1, s, b2, (b1 ++ (s, false) :: b2). split_and!; [done|exact Hret| | |by rewrite (total_flag b1 s false true b2)].
      * constructor.
        -- constructor; [exact Hr'| |exact Hnodes]. cbn [freemem add_freemem]. rewrite Hfree2. unfold u32. rewrite Zplus_mod_idemp_l.
           f_equal. rewrite !free_total_app. cbn [free_total snd fst]. lia.
        -- rewrite coal_app, Hc1. cbn [coal snd]. by rewrite andb_false_r, Hc2''.
      * rewrite used_app. cbn [used snd fst app]. fold a. by rewrite Esw.
    + destruct Hcare as [|[|[Hbig Hlast]]]; [lia|lia|]. assert (Eb2 : b2 = []).
      { destruct b2 as [|[x f] b2]; [done|]. exfalso. fold a in Hlast. rewrite total_app in Hlast. cbn [total fst] in *.
        apply Forall_app in Hbs as [_ [_ [[Hx _] Hb2]%Forall_cons]%Forall_cons]. cbn in Hx. pose proof (total_nonneg b2 Hb2).
        unfold a, ITEM_SIZE in *. lia. }
      rewrite Eb2 in *. cbn [places hd] in Hnx.
      apply wp_bind. eapply wp_mono; [apply (split_ok base b1 s want h2)|].
      * exact Hr'.
      * exact Hnodes.
      * rewrite Hfree2. f_equal. rewrite free_total_app. cbn [free_total snd fst]. lia.
      * exact Hc1.
      * lia.
      * exact Hw4.
      * exact Hbig.
      * exact Hnx.
      * intros u0 h' [Hsh Hco]. clear u0. apply wp_bind, wp_get, wp_bind, wp_modify, wp_ret. right. destruct Hsh as [Hr3 Hf3 Hn3].
        pose proof (size_at base b1 want false [(s - ITEM_SIZE - want, true)] _ (row_headers _ _ _ _ _ Hr3)) as Hsz3. fold a in Hsz3. rewrite Hsz3.
        exists b1, s, [], (b1 ++ [(want, false); (s - ITEM_SIZE - want, true)]). split_and!; [done|exact Hret| | |].
        -- constructor; [|exact Hco]. constructor; [exact Hr3| |exact Hn3]. cbn [freemem add_freemem]. rewrite Hf3. unfold u32.
           rewrite Zplus_mod_idemp_l. f_equal. lia.
        -- rewrite used_app. cbn [used snd fst app]. done.
        -- rewrite !total_app. cbn [total fst]. lia.
Qed.
