(* ===== verification/HeapCalls.v ===== *)
(** A client of the heap: histories of allocating, writing and freeing. *)

From stdpp Require Import sorting.
From S2P Require Import Prelude Bits Heap HeapThms.
#[local] Open Scope prog_scope.

(** ** Clients *)

(** The client has a list of blocks, each with its pointer and the size it asked
    for; it frees and writes to its [k]th block. *)
Definition client : Type := list (Z * Z).
Inductive call := Malloc (n : Z) | Free (k : nat) | Store (k : nat) (offset v : Z).
Definition do_call (c : call) (live : client) : P client :=
  match c with
  | Malloc n => p <- pmalloc_malloc n ;; ret (if p =? 0 then live else (p, n) :: live)
  | Free k =>
      match live !! k with
      | Some (p, _) => pmalloc_free p ;; ret (delete k live)
      | None => ret live
      end
  | Store k offset v =>
      match live !! k with
      | Some (p, n) =>
          if (0 <=? offset) && (offset + 4 <=? n) && (offset mod 4 =? 0) then
            modify (change_hp (fun w => upd w (p + offset) v)) ;; ret live
          else ret live
      | None => ret live
      end
  end.
Fixpoint do_calls (cs : list call) (live : client) : P client :=
  match cs with [] => ret live | c :: cs => live <- do_call c live ;; do_calls cs live end.

(** Every allocation of the history is careful where it is made. *)
Definition call_careful (end_ : Z) (c : call) (h : heap) : Prop :=
  match c with Malloc n => 0 <= n /\ n + 3 < 2 ^ 32 /\ careful end_ (align_word n) h | _ => True end.
Fixpoint all_careful (end_ : Z) (cs : list call) (live : client) (h : heap) : Prop :=
  match cs with
  | [] => True
  | c :: cs => call_careful end_ c h /\
      match do_call c live h with Some (live, h) => all_careful end_ cs live h | None => True end
  end.
#[export] Instance all_careful_dec end_ cs live h : Decision (all_careful end_ cs live h).
Proof.
  revert live h. induction cs as [|c cs IH]; intros live h; cbn; [apply _|].
  apply and_dec; [destruct c; apply _|]. destruct (do_call c live h) as [[? ?]|]; apply _.
Defined.

(** ** What it keeps *)

(** A block of the client and the block of the heap behind it. *)
Definition backs (l u : Z * Z) : Prop := l.1 = u.1 + ITEM_SIZE /\ 0 <= l.2 <= u.2 /\ u.2 = align_word l.2.
Definition served (base end_ : Z) (live : client) (h : heap) : Prop := exists bs us,
  heap_ok base bs h /\ base + total bs = end_ /\ us ≡ₚ used base bs /\ Forall2 backs live us.

Lemma used_split base bs a s : (a, s) ∈ used base bs -> exists b1 b2, bs = b1 ++ (s, false) :: b2 /\ a = base + total b1.
Proof.
  revert base. induction bs as [|[x f] bs IH]; intros base; cbn [used fst snd]; [by intros ?%elem_of_nil|].
  rewrite elem_of_app. intros [Ha|Ha].
  - destruct f; [by apply elem_of_nil in Ha|]. apply list_elem_of_singleton in Ha as [= -> ->]. exists [], bs. cbn [app total]. split; [done|lia].
  - apply IH in Ha as (b1 & b2 & -> & ->). exists ((x, f) :: b1), b2. cbn [app total fst]. split; [done|lia].
Qed.

(** A write into the data of a block touches no header. *)
Lemma addrs_beside base b1 s f b2 c : Forall block_ok (b1 ++ (s, f) :: b2) -> c ∈ addrs base (b1 ++ (s, f) :: b2) ->
  c <= base + total b1 \/ base + total b1 + ITEM_SIZE + s <= c.
Proof.
  intros [H1 [_ H2]%Forall_cons]%Forall_app. rewrite addrs_app. cbn [addrs fst]. rewrite elem_of_app, elem_of_cons.
  intros [Hc|[->|Hc]]; [|by left|].
  - apply addrs_in in Hc; [|done]. unfold ITEM_SIZE in *. lia.
  - apply addrs_in in Hc; [|done]. lia.
Qed.
Lemma row_store base b1 s f b2 w av asg x v : row base (b1 ++ (s, f) :: b2) w av asg ->
  base + total b1 + ITEM_SIZE <= x < base + total b1 + ITEM_SIZE + s -> row base (b1 ++ (s, f) :: b2) (upd w x v) av asg.
Proof.
  intros [Hb Hal Hbs He Hf Hu Hh] Hx. pose proof (fun c => addrs_beside base b1 s f b2 c Hbs) as Hc. unfold ITEM_SIZE in *.
  assert (Hl : forall g y, links (places g base (b1 ++ (s, f) :: b2)) y -> upd w x v y = w y).
  { intros g y (a & Ha & Hy). apply upd_ne. apply places_addrs, Hc in Ha. lia. }
  constructor; try done.
  - apply (chain_frame w); [apply Hl|done].
  - apply (chain_frame w); [apply Hl|done].
  - apply (headers_frame w); [|done]. intros a Ha. apply Hc in Ha. split; apply upd_ne; lia.
Qed.

Lemma served_store base end_ live h k p n o v : served base end_ live h -> live !! k = Some (p, n) -> 0 <= o -> o + 4 <= n ->
  served base end_ live (change_hp (fun w => upd w (p + o) v) h).
Proof.
  intros (bs & us & [[Hr Hf Hn] Hc] & He & Hu & Hb) Hk H0 Ho. destruct (Forall2_lookup_l _ _ _ _ _ Hb Hk) as ([a s] & Hks & Hp & Hns & _).
  cbn in Hp, Hns. assert (Hin : (a, s) ∈ used base bs) by (rewrite <- Hu; by eapply list_elem_of_lookup_2).
  apply used_split in Hin as (b1 & b2 & -> & ->). exists (b1 ++ (s, false) :: b2), us. split; [|done].
  constructor; [|done]. constructor; [|done..]. cbn [hp_mem change_hp set_hp_mem available assigned].
  apply row_store; [exact Hr|]. unfold ITEM_SIZE in *. lia.
Qed.
Lemma Forall2_delete {A B} (R : A -> B -> Prop) l k i : Forall2 R l k -> Forall2 R (delete i l) (delete i k).
Proof. intros H. revert i. induction H; intros [|i]; cbn; [constructor..|done|by constructor]. Qed.
Lemma served_free base end_ live h k p n : served base end_ live h -> live !! k = Some (p, n) ->
  wp (pmalloc_free p) (fun _ h' => served base end_ (delete k live) h') h.
Proof.
  intros (bs & us & Hok & He & Hu & Hb) Hk. destruct (Forall2_lookup_l _ _ _ _ _ Hb Hk) as ([a s] & Hks & Hp & _).
  cbn in Hp. assert (Hin : (a, s) ∈ used base bs) by (rewrite <- Hu; by eapply list_elem_of_lookup_2).
  apply used_split in Hin as (b1 & b2 & -> & ->). rewrite Hp.
  eapply wp_mono; [by apply pmalloc_free_ok|]. intros u0 h' (bs' & Hok' & Hu' & Ht). clear u0.
  exists bs', (delete k us). split_and!; [done|by rewrite Ht| |by apply Forall2_delete].
  apply (Permutation_cons_inv (a := (base + total b1, s))). rewrite <- (delete_Permutation _ _ _ Hks), Hu, Hu', used_app.
  cbn [used snd fst app]. by rewrite <- Permutation_middle.
Qed.
Lemma served_malloc base end_ live h n : served base end_ live h -> 0 <= n -> n + 3 < 2 ^ 32 -> careful end_ (align_word n) h ->
  wp (pmalloc_malloc n) (fun p h' => served base end_ (if p =? 0 then live else (p, n) :: live) h') h.
Proof.
  intros (bs & us & Hok & He & Hu & Hb) H0 H1 Hc. rewrite <- He in Hc. pose proof (row_base _ _ _ _ _ (sh_row _ _ _ _ (ok_shape _ _ _ Hok))) as Hbase.
  pose proof (row_blocks _ _ _ _ _ (sh_row _ _ _ _ (ok_shape _ _ _ Hok))) as Hbs.
  eapply wp_mono; [by apply pmalloc_malloc_ok|]. intros p h' [(-> & -> & _)|(b1 & s & b2 & bs' & -> & -> & Hok' & Hu' & Ht)].
  - by exists bs, us.
  - apply Forall_app in Hbs as [Hb1 _]. pose proof (total_nonneg b1 Hb1). rewrite (proj2 (Z.eqb_neq _ 0)) by (unfold ITEM_SIZE; lia).
    exists bs', ((base + total b1, align_word n) :: us). split_and!; [done|by rewrite Ht| |constructor; [|done]].
    + rewrite Hu', Hu, used_app. cbn [used snd fst app]. by rewrite <- Permutation_middle.
    + destruct (align_word_spec n H0 H1). split_and!; cbn; [done|done|lia|done].
Qed.

Lemma served_call base end_ c live h : served base end_ live h -> call_careful end_ c h -> wp (do_call c live) (served base end_) h.
Proof.
  intros Hs Hc. destruct c as [n|k|k o v]; cbn [do_call call_careful] in *.
  - destruct Hc as (H0 & H1 & Hc). apply wp_bind. eapply wp_mono; [by apply served_malloc|]. intros p h' Hp. by apply wp_ret.
  - destruct (live !! k) as [[p n]|] eqn:Hk; [|by apply wp_ret]. apply wp_bind. eapply wp_mono; [by eapply served_free|]. intros u0 h' Hp. by apply wp_ret.
  - destruct (live !! k) as [[p n]|] eqn:Hk; [|by apply wp_ret].
    destruct (Z.leb_spec 0 o); [|by apply wp_ret]. destruct (Z.leb_spec (o + 4) n); [|by apply wp_ret].
    destruct (o mod 4 =? 0); [|by apply wp_ret]. cbn [andb]. apply wp_bind, wp_modify, wp_ret. by eapply served_store.
Qed.
Lemma served_calls base end_ cs : forall live h, served base end_ live h -> all_careful end_ cs live h -> wp (do_calls cs live) (served base end_) h.
Proof.
  induction cs as [|c cs IH]; intros live h Hs; cbn [do_calls all_careful]; [intros _; by apply wp_ret|]. intros [Hc Hcs].
  pose proof (served_call _ _ _ _ _ Hs Hc) as Hw. unfold wp in *. unfold bind. destruct (do_call c live h) as [[live' h']|]; [by apply IH|done].
Qed.

(** ** What that means *)

Definition reserved (live : client) : Z := foldr (fun b s => align_word b.2 + s) 0 live.
Definition taken (us : list (Z * Z)) : Z := foldr (fun u s => u.2 + s) 0 us.
Definition apart (b c : Z * Z) : Prop := b.1 + align_word b.2 + ITEM_SIZE <= c.1 \/ c.1 + align_word c.2 + ITEM_SIZE <= b.1.

Lemma sorted_lookup {A} (R : A -> A -> Prop) l : StronglySorted R l -> forall i j x y, (i < j)%nat -> l !! i = Some x -> l !! j = Some y -> R x y.
Proof.
  induction 1 as [|a l Hs IH Hall]; intros i j x y Hij Hi Hj; [done|]. destruct i as [|i], j as [|j]; try lia; cbn in Hi, Hj.
  - injection Hi as ->. rewrite Forall_forall in Hall. apply Hall. by eapply list_elem_of_lookup_2.
  - apply (IH i j); [lia|done|done].
Qed.
Lemma used_in base bs u : Forall block_ok bs -> u ∈ used base bs -> base <= u.1 /\ u.1 + ITEM_SIZE + u.2 <= base + total bs.
Proof.
  intros Hbs Hu. destruct u as [a s]. apply used_split in Hu as (b1 & b2 & -> & ->). rewrite total_app. cbn [total fst snd].
  apply Forall_app in Hbs as [H1 [_ H2]%Forall_cons]. pose proof (total_nonneg b1 H1). pose proof (total_nonneg b2 H2). lia.
Qed.
Lemma used_sorted base bs : Forall block_ok bs -> StronglySorted (fun u v : Z * Z => u.1 + ITEM_SIZE + u.2 <= v.1) (used base bs).
Proof.
  intros Hbs. revert base. induction Hbs as [|b bs [Hb _] Hbs IH]; intros base; cbn [used]; [constructor|].
  destruct b.2; cbn [app]; [apply IH|]. constructor; [apply IH|]. apply Forall_forall. intros u Hu.
  apply used_in in Hu; [|done]. cbn [fst snd]. lia.
Qed.
Lemma taken_perm us vs : us ≡ₚ vs -> taken us = taken vs.
Proof. unfold taken. induction 1; cbn in *; lia. Qed.
Lemma taken_used base bs : free_total bs + taken (used base bs) + ITEM_SIZE * Z.of_nat (length bs) = total bs.
Proof.
  revert base. induction bs as [|b bs IH]; intros base; [done|]. specialize (IH (base + ITEM_SIZE + b.1)).
  cbn [used total free_total length]. unfold taken in *. destruct b.2; cbn [app foldr fst snd]. all: unfold ITEM_SIZE in *; lia.
Qed.
Lemma taken_reserved live us : Forall2 backs live us -> reserved live = taken us.
Proof. unfold reserved, taken. induction 1 as [|l u live us (_ & _ & H)]; cbn in *; lia. Qed.
Lemma all_free base bs : used base bs = [] -> coal false bs = true -> bs = [] \/ bs = [(total bs - ITEM_SIZE, true)].
Proof.
  destruct bs as [|[s []] bs]; [by left| |done]. cbn [used snd fst app]. intros Hu Hc. right.
  destruct bs as [|[s2 []] bs]; [cbn [total fst]; f_equal; f_equal; lia|done|done].
Qed.

Lemma served_bounds base end_ live h : served base end_ live h -> Forall (fun b => base + ITEM_SIZE <= b.1 /\ b.1 + align_word b.2 <= end_) live.
Proof.
  intros (bs & us & [[Hr _ _] _] & He & Hu & Hb). apply Forall_forall. intros b Hin. apply list_elem_of_lookup_1 in Hin as [i Hi].
  destruct (Forall2_lookup_l _ _ _ _ _ Hb Hi) as (u & Hui & Hp & _ & Ha). rewrite <- Ha, Hp, <- He.
  destruct (used_in base bs u (row_blocks _ _ _ _ _ Hr)) as [H1 H2]; [rewrite <- Hu; by eapply list_elem_of_lookup_2|]. lia.
Qed.
Lemma served_apart base end_ live h i j b c : served base end_ live h -> i <> j -> live !! i = Some b -> live !! j = Some c -> apart b c.
Proof.
  intros (bs & us & [[Hr _ _] _] & He & Hu & Hb) Hij Hi Hj. pose proof (used_sorted base bs (row_blocks _ _ _ _ _ Hr)) as Hs.
  destruct (Forall2_lookup_l _ _ _ _ _ Hb Hi) as (u & Hui & Hp & _ & Ha). destruct (Forall2_lookup_l _ _ _ _ _ Hb Hj) as (v & Hvj & Hq & _ & Hc).
  apply Permutation_inj in Hu as [_ (f & Hf & Hl)]. rewrite Hl in Hui, Hvj. unfold apart. rewrite <- Ha, <- Hc, Hp, Hq.
  assert (f i <> f j) by (intros E; by apply Hij, Hf).
  destruct (decide (f i < f j)%nat) as [Hlt|Hge].
  - pose proof (sorted_lookup _ _ Hs _ _ _ _ Hlt Hui Hvj) as HR. cbv beta in HR. lia.
  - assert (Hlt : (f j < f i)%nat) by lia. pose proof (sorted_lookup _ _ Hs _ _ _ _ Hlt Hvj Hui) as HR. cbv beta in HR. lia.
Qed.
Lemma served_counts base end_ live h : served base end_ live h -> freemem h + reserved live + ITEM_SIZE * totalnodes h = end_ - base.
Proof.
  intros (bs & us & [[Hr Hf Hn] _] & He & Hu & Hb). pose proof Hr as [Hbase _ Hbs Hend _ _ _]. pose proof (free_total_bound bs Hbs).
  rewrite Hf, Hn, (taken_reserved _ _ Hb), (taken_perm _ _ Hu). pose proof (taken_used base bs). unfold u32. rewrite Z.mod_small by lia. lia.
Qed.
Lemma served_none base end_ h : served base end_ [] h -> base < end_ ->
  available h = base /\ next (hp_mem h) base = 0 /\ size (hp_mem h) base = end_ - base - ITEM_SIZE /\ assigned h = 0.
Proof.
  intros (bs & us & [[Hr _ _] Hc] & He & Hu & Hb) Hlt. apply Forall2_nil_inv_l in Hb as ->. apply Permutation_nil_l in Hu.
  destruct Hr as [_ _ _ _ [Ha Hs] [Hu' _] Hh].
  destruct (all_free base bs (eq_sym Hu) Hc) as [E|E]; rewrite E in *; [cbn in He; lia|]. cbn in Ha, Hs, Hu', Hh, He.
  destruct Hs as (_ & Hn & _). destruct Hh as (Hsz & _). split_and!; [done|done|rewrite Hsz; unfold ITEM_SIZE in *; lia|done].
Qed.

(** A heap that starts with one area of memory. *)
Lemma addblock_ok w ptr n : 0 < ptr -> ptr mod 4 = 0 -> ITEM_SIZE <= n -> n mod 4 = 0 -> ptr + n < 2 ^ 32 ->
  wp (pmalloc_addblock ptr n) (fun _ h => served ptr (ptr + n) [] h) (pmalloc_init w).
Proof.
  intros Hp Hp4 Hn Hn4 He. unfold ITEM_SIZE in Hn.
  assert (Ep : align_word ptr = ptr) by (destruct (align_word_spec ptr); [lia..|zdm]).
  unfold pmalloc_addblock. rewrite Ep, Z.sub_diag, Z.sub_0_r. replace (u32 n) with n by (unfold u32; rewrite Z.mod_small; lia).
  replace (u32 (n - ITEM_SIZE)) with (n - ITEM_SIZE) by (unfold u32, ITEM_SIZE; rewrite Z.mod_small; lia).
  apply wp_bind, wp_modify, wp_bind, wp_get, wp_bind, wp_modify, wp_bind, wp_get, wp_bind, wp_modify, wp_bind.
  unfold insert_available. apply wp_bind, wp_get.
  unfold pmalloc_init, change_hp, add_freemem, add_totalmem, set_hp_mem, pmalloc_item_insert, set_available, add_totalnodes.
  cbn [hp_mem available assigned freemem totalmem totalnodes Z.eqb Z.add].
  apply wp_bind. cbn [wp of_option]. apply wp_put, wp_modify. cbn [hp_mem available assigned freemem totalmem totalnodes].
  exists [(n - ITEM_SIZE, true)], []. split_and!; [|cbn; unfold ITEM_SIZE; lia|done|constructor].
  constructor; [|done]. constructor; cbn [hp_mem available assigned freemem totalmem totalnodes].
  - unfold set_size, set_next, set_prev. constructor; cbn [places headers total snd fst Bool.eqb app]; try done.
    + repeat constructor; cbn; unfold ITEM_SIZE; [lia|zdm].
    + unfold ITEM_SIZE; lia.
    + split; [done|]. cbn. unfold prev, next. by upds.
    + unfold size. by upds.
  - cbn. unfold size, set_size. rewrite upd_eq. f_equal. lia.
  - done.
Qed.

(** A small history, and the heap it starts from. *)
Definition START : Z := 0x80300000.
Definition HISTORY : list call := [Malloc 100; Malloc 200; Malloc 300; Free 1; Malloc 200; Store 0 16 7; Free 2; Free 0; Free 0].
Definition start_heap : heap := default (pmalloc_init (fun _ => 0)) (snd <$> pmalloc_addblock START 0x1000 (pmalloc_init (fun _ => 0))).
Lemma start_heap_eq : pmalloc_addblock START 0x1000 (pmalloc_init (fun _ => 0)) = Some (tt, start_heap).
Proof. reflexivity. Qed.
Lemma history_careful : all_careful (START + 0x1000) HISTORY [] start_heap.
Proof. apply (bool_decide_unpack _). vm_compute. exact I. Qed.
Lemma history_frees_all : exists h, do_calls HISTORY [] start_heap = Some ([], h).
Proof.
  enough (E : fst <$> do_calls HISTORY [] start_heap = Some []); [|vm_compute; reflexivity].
  destruct (do_calls HISTORY [] start_heap) as [[live h]|]; [|done]. exists h. by injection E as ->.
Qed.

(** C39. Take one area of memory, word aligned and inside the address space, and a
    history of allocating, freeing and writing whose allocations ask for at most
    2^32 - 4 bytes, each of which either fails, or takes a free block of exactly
    its size in words, or cuts its block off the last one of the area, of which at
    least a header is left over (size wanted + 16 <= size there).  Every call
    returns; afterwards the client's blocks lie inside the area, with their sizes
    rounded up to words they and the headers before them do not overlap, the count
    of free memory is what blocks and headers leave of the area, and when nothing
    is left to free the area is one free block again.  (An allocation that leaves
    less than a header, as of 4076 bytes from 4096, is outside this: the count of
    free memory then wraps around, and what is allocated next may lie outside the
    area: [careless_blocks_outside].) *)
Theorem heap_keeps_blocks_apart w ptr n cs :
  0 < ptr -> ptr mod 4 = 0 -> ITEM_SIZE <= n -> n mod 4 = 0 -> ptr + n < 2 ^ 32 ->
  wp (pmalloc_addblock ptr n) (fun _ h0 => all_careful (ptr + n) cs [] h0 ->
    wp (do_calls cs []) (fun live h =>
      Forall (fun b => ptr + ITEM_SIZE <= b.1 /\ b.1 + align_word b.2 <= ptr + n) live /\
      (forall i j b c, i <> j -> live !! i = Some b -> live !! j = Some c -> apart b c) /\
      freemem h + reserved live + ITEM_SIZE * totalnodes h = n /\
      (live = [] -> available h = ptr /\ next (hp_mem h) ptr = 0 /\ size (hp_mem h) ptr = n - ITEM_SIZE /\ assigned h = 0)) h0)
    (pmalloc_init w).
Proof.
  intros Hp Hp4 Hn Hn4 He. eapply wp_mono; [by apply addblock_ok|]. intros [] h0 Hs Hc.
  eapply wp_mono; [by apply served_calls|]. intros live h Hs'. split_and!.
  - by apply (served_bounds _ _ _ h).
  - intros i j b c Hij Hi Hj. by apply (served_apart _ _ _ _ _ _ _ _ Hs' Hij).
  - rewrite (served_counts _ _ _ _ Hs'). lia.
  - intros ->. unfold ITEM_SIZE in Hn. destruct (served_none _ _ _ Hs') as (H1 & H2 & H3 & H4); [lia|].
    split_and!; [done|done|rewrite H3; lia|done].
Qed.
Lemma heap_keeps_blocks_apart_witness :
  exists h, do_calls HISTORY [] start_heap = Some ([], h) /\ available h = START /\ size (hp_mem h) START = 0x1000 - ITEM_SIZE.
Proof.
  destruct history_frees_all as [h Eh]. exists h. split; [exact Eh|].
  pose proof (wp_run _ _ _ _ _ (heap_keeps_blocks_apart (fun _ => 0) START 0x1000 HISTORY eq_refl eq_refl ltac:(done) eq_refl eq_refl) start_heap_eq history_careful) as H.
  destruct (wp_run _ _ _ _ _ H Eh) as (_ & _ & _ & H'). destruct (H' eq_refl) as (Ha & _ & Hs & _). exact (conj Ha Hs).
Defined.

(** Without that care: a block is cut where what is left of it is smaller than
    a header, the size of the rest wraps around, and the next allocation is
    served from memory that is in use. *)
Lemma careless_blocks_overlap :
  let cs := [Malloc 100; Malloc 200; Malloc 300; Free 2; Malloc 96; Malloc 2000] in
  exists h0 live h b c, pmalloc_addblock 0x80300000 0x1000 (pmalloc_init (fun _ => 0)) = Some (tt, h0) /\
    do_calls cs [] h0 = Some (live, h) /\ live !! 0%nat = Some b /\ live !! 2%nat = Some c /\ b.1 < c.1 < b.1 + b.2.
Proof. do 5 eexists. split; [reflexivity|]. split; [vm_compute; reflexivity|]. done. Qed.
Lemma careless_blocks_outside :
  exists h0 live h b, pmalloc_addblock 0x80300000 0x1000 (pmalloc_init (fun _ => 0)) = Some (tt, h0) /\
    do_calls [Malloc 4076; Malloc 5000] [] h0 = Some (live, h) /\ live !! 0%nat = Some b /\ 0x80300000 + 0x1000 < b.1 + b.2.
Proof. do 4 eexists. split; [reflexivity|]. split; [vm_compute; reflexivity|]. done. Qed.
