(* ===== verification/Float.v ===== *)
(** C's floating-point numbers as far as the menu uses them: sums, products and
    quotients of [float] and [double], and comparisons.

    A number is an integer, the count of steps it has: 2^-149, the smallest number
    of the format, for [float], and 2^-300 for [double].  An operation is the
    exact one followed by the rounding of the format, to the nearest number of 24
    or 53 significant bits and to the even one of two that are as near; what lies
    below the smallest step is rounded to a multiple of it.  For [float] this is
    what IEEE 754 does with subnormal numbers; a [double] gets nowhere near them,
    since what the menu computes with is a [float] times a literal, and so 2^-300
    is small enough.  There are no infinities: the numbers stay far below them.
    Every operation is rounded by itself. *)

From S2P Require Import Prelude.

(** ** Rounding *)

(** [n / d] to the nearest integer. *)
Definition nearest (n d : Z) : Z :=
  let q := n / d in
  let r := n mod d in
  if 2 * r <? d then q else if d <? 2 * r then q + 1 else if Z.even q then q else q + 1.
(** [n / d] to [p] significant bits. *)
Definition round (p n d : Z) : Z :=
  let e := Z.max 0 (Z.log2 (Z.abs n / d) - (p - 1)) in nearest n (d * 2 ^ e) * 2 ^ e.

Definition F32_UNIT : Z := 2 ^ 149.
Definition F64_UNIT : Z := 2 ^ 300.

(** ** [float] *)

Definition f32_of_int (n : Z) : Z := round 24 (n * F32_UNIT) 1.
Definition f32_add (a b : Z) : Z := round 24 (a + b) 1.
Definition f32_sub (a b : Z) : Z := round 24 (a - b) 1.
Definition f32_mul (a b : Z) : Z := round 24 (a * b) F32_UNIT.

(** ** [double] *)

(** The literal [n / d]. *)
Definition f64_lit (n d : Z) : Z := round 53 (n * F64_UNIT) d.
Definition f64_add (a b : Z) : Z := round 53 (a + b) 1.
Definition f64_sub (a b : Z) : Z := round 53 (a - b) 1.
Definition f64_mul (a b : Z) : Z := round 53 (a * b) F64_UNIT.
Definition f64_div (a b : Z) : Z := round 53 (Z.sgn b * a * F64_UNIT) (Z.abs b).
Definition f64_of_f32 (a : Z) : Z := a * (F64_UNIT / F32_UNIT).
Definition f32_of_f64 (a : Z) : Z := round 24 a (F64_UNIT / F32_UNIT).

(** ** How far rounding moves a number *)

Lemma nearest_err n d : 0 < d -> - d <= 2 * (nearest n d * d - n) <= d.
Proof.
  intros Hd. unfold nearest. pose proof (Z.div_mod n d ltac:(lia)) as E. pose proof (Z.mod_pos_bound n d Hd).
  set (q := n / d) in *. set (r := n mod d) in *. rewrite E.
  replace (q * d - (d * q + r)) with (- r) by lia. replace ((q + 1) * d - (d * q + r)) with (d - r) by lia.
  destruct (Z.ltb_spec (2 * r) d); [nia|]. destruct (Z.ltb_spec d (2 * r)); [nia|]. destruct (Z.even q); nia.
Qed.
Lemma nearest_exact k d : 0 < d -> nearest (k * d) d = k.
Proof. intros Hd. unfold nearest. rewrite Z.div_mul, Z.mod_mul by lia. by rewrite (proj2 (Z.ltb_lt _ _)) by lia. Qed.

(** A number below 2^k moves by at most half a step of its binade. *)
Lemma round_err n k : 24 < k -> Z.abs n < 2 ^ k -> Z.abs (round 24 n 1 - n) <= 2 ^ (k - 25).
Proof.
  intros Hk Hn. unfold round. rewrite Z.div_1_r. set (e := Z.max 0 _).
  assert (He : 0 <= e <= k - 24).
  { unfold e. destruct (Z.eq_dec n 0) as [->|Hn0]; [change (Z.log2 (Z.abs 0)) with 0; lia|]. assert (Z.log2 (Z.abs n) < k) by (apply Z.log2_lt_pow2; lia). lia. }
  rewrite Z.mul_1_l. pose proof (nearest_err n (2 ^ e) ltac:(apply Z.pow_pos_nonneg; lia)) as Herr.
  assert (2 ^ e <= 2 ^ (k - 24)) by (apply Z.pow_le_mono_r; lia).
  replace (2 ^ (k - 24)) with (2 * 2 ^ (k - 25)) in * by (rewrite <- Z.pow_succ_r by lia; f_equal; lia). lia.
Qed.
Lemma round_small n : Z.abs n < 2 ^ 24 -> round 24 n 1 = n.
Proof.
  intros Hn. unfold round. rewrite Z.div_1_r. replace (Z.max 0 _) with 0.
  { change (2 ^ 0) with 1. cbn. rewrite <- (Z.mul_1_r n) at 1. rewrite nearest_exact by lia. lia. }
  destruct (Z.eq_dec n 0) as [->|Hn0]; [done|]. assert (Z.log2 (Z.abs n) < 24) by (apply Z.log2_lt_pow2; lia). lia.
Qed.
