(* ===== verification/Grid.v ===== *)
(** The grid of the game list (src/patches/source/grid.c): where each line of
    icons is, and how it moves when the list is scrolled.

    [browser_lines] is the list of its 240 entries.  The number of lines shown is
    an argument, as it belongs to games.c. *)

From S2P Require Import Prelude Float.

Definition DRAW_BOUND_TOP : Z := 104.
Definition DRAW_BOUND_BOTTOM : Z := 328.
Definition DRAW_OFFSET_Y : Z := 56.
Definition DRAW_TOTAL_ROWS : Z := 4.
Definition GRID_MOVE_SUCCESS : Z := 0.
Definition GRID_MOVE_FAIL : Z := 1.
Definition MAX_ANIMS : Z := 100000.
Definition START_LINE : Z := 0.
Definition ANIM_DIRECTION_UP : Z := 0.
Definition ANIM_DIRECTION_DOWN : Z := 1.
Definition MAX_LINES : Z := 240.

Record line_backing := mk_line {
  pending_count : Z; direction : Z; remaining : Z;
  raw_position_y : Z; transparency : Z; moving_out : bool; moving_in : bool
}.
Definition set_anims (count dir rest : Z) (l : line_backing) : line_backing :=
  mk_line count dir rest (raw_position_y l) (transparency l) (moving_out l) (moving_in l).
Definition set_raw (y : Z) (l : line_backing) : line_backing :=
  mk_line (pending_count l) (direction l) (remaining l) y (transparency l) (moving_out l) (moving_in l).
Definition set_transparency (t : Z) (l : line_backing) : line_backing :=
  mk_line (pending_count l) (direction l) (remaining l) (raw_position_y l) t (moving_out l) (moving_in l).
Definition set_moving (out in_ : bool) (l : line_backing) : line_backing :=
  mk_line (pending_count l) (direction l) (remaining l) (raw_position_y l) (transparency l) out in_.

(** ** Numbers *)

Notation f n := (f32_of_int n).
Definition offset_y : Z := f DRAW_OFFSET_Y.
(** A [double] literal stored to a [float]. *)
Definition f_lit (n d : Z) : Z := f32_of_f64 (f64_lit n d).
(** [offset_y * 0.5]. *)
Definition half_offset : Z := f32_of_f64 (f64_mul (f64_of_f32 offset_y) (f64_lit 1 2)).

Definition get_position_after (l : line_backing) : Z :=
  if direction l =? ANIM_DIRECTION_UP then f32_sub (raw_position_y l) (remaining l)
  else f32_add (raw_position_y l) (remaining l).

(** ** Set-up *)

Definition zero_line : line_backing := mk_line 0 0 0 0 0 false false.
Definition setup_line (row : Z) (l : line_backing) : line_backing :=
  let raw_pos_y := f32_mul (f row) offset_y in
  let l := set_raw (f32_add (f32_sub (f DRAW_BOUND_TOP) (f32_mul offset_y (f START_LINE))) raw_pos_y) l in
  set_transparency (if (row <? START_LINE) || (START_LINE + DRAW_TOTAL_ROWS <=? row) then 0 else f 1) l.
(** More lines than the table has are a write behind it. *)
Definition grid_setup_func (number_of_lines : Z) : option (list line_backing) :=
  if number_of_lines <=? MAX_LINES then
    Some (imap (fun i l => if Z.of_nat i <? number_of_lines then setup_line (Z.of_nat i) l else l)
            (replicate (Z.to_nat MAX_LINES) zero_line))
  else None.

(** ** Scrolling *)

Definition grid_add_anim (dir distance : Z) (l : line_backing) : line_backing :=
  let l := if (0 <? pending_count l) && negb (direction l =? dir) then set_anims 0 (direction l) (remaining l) l else l in
  if pending_count l <? MAX_ANIMS then set_anims (pending_count l + 1) dir (f32_add (remaining l) distance) l else l.

(** Animations the other way are still going on. *)
Definition pending (dir : Z) (l : line_backing) : bool := (0 <? pending_count l) && (direction l =? dir).
(** A line partly on the screen, or next to it. *)
Definition in_range (y : Z) : bool :=
  (y <? f32_sub (f32_add (f DRAW_BOUND_BOTTOM) offset_y) (f 10)) &&
  (f32_add (f32_sub (f DRAW_BOUND_TOP) offset_y) (f 10) <=? y).
(** The line that appears starts half a line before its place. *)
Definition move_in (raw dir : Z) (l : line_backing) : line_backing :=
  grid_add_anim dir half_offset (set_moving false true (set_transparency (f_lit 1 4) (set_raw raw l))).
Definition move_out (l : line_backing) : line_backing := set_moving true false (set_transparency (f_lit 999 1000) l).

Fixpoint scroll (appears disappears : Z -> bool) (start dir : Z) (step : Z -> Z) (found_move_in found_move_out : bool)
    (ls : list line_backing) : list line_backing :=
  match ls with
  | [] => []
  | l :: ls =>
      let y := get_position_after l in
      let ins := negb found_move_in && appears y in
      let l := if ins then move_in start dir l
               else if in_range y then grid_add_anim dir offset_y l
               else set_raw (step (raw_position_y l)) l in
      let outs := negb found_move_out && disappears (get_position_after l) in
      let l := if outs then move_out l else l in
      l :: scroll appears disappears start dir step (found_move_in || ins) (found_move_out || outs) ls
  end.

Definition appears_at_top (y : Z) : bool :=
  (f DRAW_BOUND_TOP <=? f32_add (f32_add y offset_y) (f 10)) && (f32_sub y (f 10) <? f DRAW_BOUND_TOP).
Definition leaves_at_bottom (y : Z) : bool :=
  (f DRAW_BOUND_BOTTOM <=? f32_add y (f 10)) && (f32_sub y offset_y <? f DRAW_BOUND_BOTTOM).
Definition appears_at_bottom (y : Z) : bool :=
  (f DRAW_BOUND_BOTTOM <=? f32_add y (f 10)) && (f32_sub (f32_sub y offset_y) (f 10) <? f DRAW_BOUND_BOTTOM).
Definition leaves_at_top (y : Z) : bool :=
  (f DRAW_BOUND_TOP <=? f32_add (f32_add y offset_y) (f 10)) && (y <? f DRAW_BOUND_TOP).

(** The loops run over the first [number_of_lines] lines. *)
Definition on_lines (number_of_lines : Z) (g : list line_backing -> list line_backing) (ls : list line_backing) : list line_backing :=
  let n := Z.to_nat number_of_lines in g (take n ls) ++ drop n ls.

Definition grid_dispatch_navigate_up (number_of_lines : Z) (ls : list line_backing) : Z * list line_backing :=
  if existsb (pending ANIM_DIRECTION_UP) (take (Z.to_nat number_of_lines) ls) then (GRID_MOVE_FAIL, ls)
  else (GRID_MOVE_SUCCESS,
        on_lines number_of_lines
          (scroll appears_at_top leaves_at_bottom (f32_sub (f DRAW_BOUND_TOP) half_offset) ANIM_DIRECTION_DOWN (fun y => f32_add y offset_y) false false) ls).

(** [transparency *= 0.1] of the lines that are on their way out. *)
Definition fade_out (l : line_backing) : line_backing :=
  if moving_out l then set_transparency (f32_of_f64 (f64_mul (f64_of_f32 (transparency l)) (f64_lit 1 10))) l else l.
Definition grid_dispatch_navigate_down (number_of_lines : Z) (ls : list line_backing) : Z * list line_backing :=
  if existsb (pending ANIM_DIRECTION_DOWN) (take (Z.to_nat number_of_lines) ls) then (GRID_MOVE_FAIL, ls)
  else (GRID_MOVE_SUCCESS,
        on_lines number_of_lines (fun ls =>
          scroll appears_at_bottom leaves_at_top (f32_sub (f DRAW_BOUND_BOTTOM) half_offset) ANIM_DIRECTION_UP (fun y => f32_sub y offset_y) false false
            (fade_out <$> ls)) ls).

(** ** Once a frame *)

Definition multiplier (count : Z) : Z :=
  if count =? 0 then f 6
  else let m := f32_add (f 6) (f count) in if f 8 <? m then f 8 else m.

Definition fade (m : Z) (l : line_backing) : line_backing :=
  let one := f64_lit 1 1 in
  if f64_of_f32 (transparency l) <? one then
    let delta := f32_of_f64 (f64_mul (f64_lit 1 100) (f64_of_f32 m)) in
    let l :=
      if moving_in l then
        let t := f32_of_f64 (f64_add (f64_of_f32 (transparency l)) (f64_mul (f64_of_f32 delta) (f64_lit 4 10))) in
        set_transparency (if one <? f64_of_f32 t then f 1 else t) l
      else l in
    if moving_out l then
      let t := f32_of_f64 (f64_sub (f64_of_f32 (transparency l)) (f64_mul (f64_of_f32 delta) (f64_lit 8 10))) in
      if f64_of_f32 t <? 0 then set_moving false (moving_in l) (set_transparency 0 l) else set_transparency t l
    else l
  else l.

(** [offset_y * 0.01 * multiplier / 1.5]. *)
Definition frame_delta (m : Z) : Z :=
  f32_of_f64 (f64_div (f64_mul (f64_mul (f64_of_f32 offset_y) (f64_lit 1 100)) (f64_of_f32 m)) (f64_lit 3 2)).
Definition advance (m : Z) (l : line_backing) : line_backing :=
  if pending_count l =? 0 then l
  else
    let delta := frame_delta m in
    let delta := if remaining l <? delta then remaining l else delta in
    let rest := f32_sub (remaining l) delta in
    let raw := if direction l =? ANIM_DIRECTION_UP then f32_sub (raw_position_y l) delta else f32_add (raw_position_y l) delta in
    if f64_of_f32 rest <? f64_lit 1 10 then set_anims (pending_count l - 1) (direction l) 0 (set_raw raw l)
    else set_anims (pending_count l) (direction l) rest (set_raw raw l).
Definition update_line (l : line_backing) : line_backing :=
  let m := multiplier (pending_count l) in advance m (fade m l).
Definition grid_update_icon_positions (grid_setup_done : bool) (number_of_lines : Z) (ls : list line_backing) : list line_backing :=
  if grid_setup_done then on_lines number_of_lines (fmap update_line) ls else ls.
