(* ===== verification/GridThms.v ===== *)
(** The grid: however lines are scrolled and animated, and however the sums are
    rounded, a line is on its way to within ten pixels of its place. *)

From S2P Require Import Prelude Float Grid.

Notation U := F32_UNIT.
(** The step of [float] between two and four. *)
Definition w : Z := 2 ^ 127.

(** ** Constants *)

Lemma w_pos : 0 < w.
Proof. done. Qed.
Lemma U_w : U = 4194304 * w.
Proof. done. Qed.
Lemma offset_eq : offset_y = 56 * U.
Proof. vm_compute. reflexivity. Qed.
Lemma half_offset_eq : half_offset = 28 * U.
Proof. vm_compute. reflexivity. Qed.
Lemma below_top_eq : f32_sub (f DRAW_BOUND_TOP) half_offset = 76 * U.
Proof. vm_compute. reflexivity. Qed.
Lemma above_bottom_eq : f32_sub (f DRAW_BOUND_BOTTOM) half_offset = 300 * U.
Proof. vm_compute. reflexivity. Qed.
Lemma range_eq : f32_sub (f32_add (f DRAW_BOUND_BOTTOM) offset_y) (f 10) = 374 * U /\ f32_add (f32_sub (f DRAW_BOUND_TOP) offset_y) (f 10) = 58 * U.
Proof. split; vm_compute; reflexivity. Qed.
Lemma deltas_eq : frame_delta (7 * U) = 10961114 * w /\ frame_delta (8 * U) = 12526988 * w.
Proof. split; vm_compute; reflexivity. Qed.

(** Integers are exact. *)
Lemma f_exact n : Z.abs n < 2 ^ 24 -> f n = n * U.
Proof.
  intros Hn. unfold f32_of_int, round. rewrite Z.div_1_r. destruct (Z.eq_dec n 0) as [->|Hn0]; [reflexivity|].
  assert (Hl : Z.log2 (Z.abs (n * U)) = 149 + Z.log2 (Z.abs n)).
  { rewrite Z.abs_mul. change (Z.abs U) with (2 ^ 149). rewrite Z.log2_mul_pow2 by lia. done. }
  assert (Z.log2 (Z.abs n) < 24) by (apply Z.log2_lt_pow2; lia). pose proof (Z.log2_nonneg (Z.abs n)).
  rewrite Hl. set (e := Z.max 0 _). assert (He : 0 <= e <= 149) by lia. rewrite Z.mul_1_l.
  replace (n * U) with (n * 2 ^ (149 - e) * 2 ^ e).
  2:{ rewrite <- Z.mul_assoc, <- Z.pow_add_r by lia. do 2 f_equal. lia. }
  rewrite nearest_exact; [done|]. apply Z.pow_pos_nonneg; lia.
Qed.
Lemma round_mult n : Z.abs n < 2 ^ 24 -> round 24 (n * U) 1 = n * U.
Proof. exact (f_exact n). Qed.

Lemma round_nonneg n : 0 <= n -> 0 <= round 24 n 1.
Proof.
  intros Hn. unfold round. set (e := Z.max 0 _). assert (0 < 2 ^ e) by (apply Z.pow_pos_nonneg; lia). rewrite Z.mul_1_l.
  assert (0 <= nearest n (2 ^ e)); [|nia]. unfold nearest. pose proof (Z.div_pos n (2 ^ e) Hn ltac:(lia)). repeat case_match; lia.
Qed.
(** The rounding error of what is on or near the screen, and of any position. *)
Lemma round_near n : Z.abs n < 512 * U -> Z.abs (round 24 n 1 - n) <= 64 * w.
Proof. intros Hn. exact (round_err n 158 ltac:(done) Hn). Qed.
Lemma round_far n : Z.abs n < 16384 * U -> Z.abs (round 24 n 1 - n) <= 2048 * w.
Proof. intros Hn. exact (round_err n 163 ltac:(done) Hn). Qed.
Lemma tenth r : if f64_of_f32 r <? f64_lit 1 10 then r < 419431 * w else 419430 * w <= r.
Proof.
  unfold f64_of_f32. set (c := f64_lit 1 10). set (k := F64_UNIT / F32_UNIT).
  assert (H1 : 419430 * w * k < c) by (vm_compute; reflexivity). assert (H2 : c < 419431 * w * k) by (vm_compute; reflexivity).
  assert (Hk : 0 < k) by (vm_compute; reflexivity). clearbody c k. destruct (Z.ltb_spec (r * k) c); nia.
Qed.
Lemma delta_cases c : 0 < c <= 100000 -> exists m, (m = 7 \/ m = 8) /\ multiplier c = m * U.
Proof.
  intros Hc. unfold multiplier. rewrite (proj2 (Z.eqb_neq c 0)) by lia. rewrite !f_exact by (change (2 ^ 24) with 16777216; lia).
  unfold f32_add. replace (6 * U + c * U) with ((6 + c) * U) by lia. rewrite round_mult by (change (2 ^ 24) with 16777216; lia).
  pose proof w_pos as Hw. pose proof U_w as HU. destruct (Z.ltb_spec (8 * U) ((6 + c) * U)) as [H'|H'].
  - exists 8. auto.
  - assert (c = 1 \/ c = 2) as [-> | ->] by nia; [exists 7|exists 8]; split; [tauto|lia|tauto|lia].
Qed.

#[local] Opaque F32_UNIT w.

(** ** A line on its way *)

(** Where it is going to be, before rounding. *)
Definition target (l : line_backing) : Z :=
  if direction l =? ANIM_DIRECTION_UP then raw_position_y l - remaining l else raw_position_y l + remaining l.
(** How many places a line moving in this direction can have behind it, in row
    [j] of the screen. *)
Definition places_behind (dir j : Z) : Z := if dir =? ANIM_DIRECTION_UP then 5 - j else j + 1.
Lemma behind_up j : places_behind ANIM_DIRECTION_UP j = 5 - j.
Proof. done. Qed.
Lemma behind_down j : places_behind ANIM_DIRECTION_DOWN j = j + 1.
Proof. done. Qed.
Definition place (j : Z) : Z := (DRAW_BOUND_TOP + DRAW_OFFSET_Y * j) * U.

(** What is left of its way is a multiple of the step of a frame, up to what
    rounding has added since it set out. *)
Definition on_lattice (total rest : Z) : Prop := exists k, Z.abs (75 * rest - 28 * (k * U)) * 2000 <= total - rest.
Record line_ok (N j : Z) (l : line_backing) : Prop := {
  lk_rest : 0 <= remaining l;
  lk_count : 0 <= pending_count l <= N;
  lk_idle : pending_count l = 0 -> remaining l = 0;
  lk_side : 0 < pending_count l -> direction l = ANIM_DIRECTION_UP /\ j <= 3 \/ direction l = ANIM_DIRECTION_DOWN /\ 0 <= j;
  lk_lattice : 0 < pending_count l -> exists total, remaining l <= total <= 360 * U /\
    total <= 60 * U * places_behind (direction l) j /\ on_lattice total (remaining l);
  lk_drift : 1500000 * Z.abs (target l - place j) + 300 * remaining l + 5000 * U * pending_count l <= 98304000000 * w * N
}.
(** The bounds are good for this many scrolls. *)
Definition SCROLLS : Z := 600.
Definition near (j y : Z) : Prop := Z.abs (y - place j) <= 39323648 * w.

Lemma rest_bound N j l : line_ok N j l -> 0 <= remaining l <= 360 * U.
Proof.
  intros [H0 Hc Hi _ Hl _]. pose proof w_pos as Hw. pose proof U_w as HU. destruct (Z.eq_dec (pending_count l) 0) as [E|E]; [rewrite (Hi E); lia|].
  destruct Hl as (total & Ht & _); [lia|]. lia.
Qed.
Lemma target_near N j l : line_ok N j l -> N <= SCROLLS -> Z.abs (target l - place j) <= 39321600 * w.
Proof. intros [H0 Hc _ _ _ Hd] HN. pose proof w_pos as Hw. pose proof U_w as HU. unfold SCROLLS in HN. nia. Qed.
Lemma place_bound j : Z.abs j <= 240 -> Z.abs (place j) <= 13544 * U.
Proof. intros Hj. unfold place, DRAW_BOUND_TOP, DRAW_OFFSET_Y. pose proof w_pos as Hw. pose proof U_w as HU. nia. Qed.
Lemma raw_bound N j l : line_ok N j l -> N <= SCROLLS -> Z.abs j <= 240 -> Z.abs (raw_position_y l) <= 14000 * U.
Proof.
  intros Hl HN Hj. pose proof (rest_bound _ _ _ Hl). pose proof (target_near _ _ _ Hl HN). pose proof (place_bound j Hj).
  pose proof w_pos as Hw. pose proof U_w as HU. unfold target in *. destruct (_ =? _); lia.
Qed.
Lemma position_near N j l : line_ok N j l -> N <= SCROLLS -> Z.abs j <= 240 -> near j (get_position_after l).
Proof.
  intros Hl HN Hj. pose proof (target_near _ _ _ Hl HN). pose proof (place_bound j Hj). pose proof w_pos as Hw. pose proof U_w as HU.
  pose proof (round_far (target l) ltac:(lia)) as Hr. unfold near, get_position_after, target, f32_sub, f32_add in *.
  destruct (_ =? _); lia.
Qed.

(** ** A frame *)

Lemma fade_way m l : direction (fade m l) = direction l /\ remaining (fade m l) = remaining l /\ pending_count (fade m l) = pending_count l /\
  raw_position_y (fade m l) = raw_position_y l.
Proof.
  unfold fade. repeat match goal with |- context [if ?b then ?x else ?y] => lazymatch type of x with line_backing => destruct b end end;
    split_and!; reflexivity.
Qed.
(** Only the way matters. *)
Lemma line_ok_way N j l l' : direction l' = direction l -> remaining l' = remaining l -> pending_count l' = pending_count l ->
  raw_position_y l' = raw_position_y l -> line_ok N j l -> line_ok N j l'.
Proof.
  intros E1 E2 E3 E4 [H1 H2 H3 H4 H5 H6]. constructor; rewrite ?E2, ?E3, ?E1 in *; try done.
  unfold target in *. by rewrite E1, E2, E4.
Qed.

Lemma lattice_small total rest : 0 <= rest -> rest < 419431 * w -> total <= 360 * U -> on_lattice total rest -> rest <= 10067 * w.
Proof.
  intros H0 H1 Ht (k & Hk). pose proof w_pos as Hw. pose proof U_w as HU. assert (k = 0); [|subst k; lia].
  destruct (Z.lt_trichotomy k 0) as [Hk'|[Hk'|Hk']]; [|done|]; exfalso.
  - pose proof (Z.mul_le_mono_nonneg_r k (-1) U ltac:(lia) ltac:(lia)). lia.
  - pose proof (Z.mul_le_mono_nonneg_r 1 k U ltac:(lia) ltac:(lia)). lia.
Qed.
Lemma advance_ok N j l m : line_ok N j l -> N <= SCROLLS -> Z.abs j <= 240 -> 0 < pending_count l -> m = 7 \/ m = 8 ->
  line_ok N j (advance (m * U) l).
Proof.
  intros Hl HN Hj Hc Hm. pose proof (rest_bound _ _ _ Hl) as Hrest. pose proof (raw_bound _ _ _ Hl HN Hj) as Hraw.
  pose proof w_pos as Hw. pose proof U_w as HU. destruct Hl as [_ Hcount _ Hside Hlat Hdrift]. destruct (Hlat Hc) as (total & Ht & Hp & Hl). specialize (Hside Hc).
  unfold advance. rewrite (proj2 (Z.eqb_neq _ 0)) by lia. set (d := if remaining l <? frame_delta (m * U) then remaining l else frame_delta (m * U)).
  assert (Hd : d = remaining l \/ d <= remaining l /\ 10961114 * w <= d <= 12526988 * w /\ Z.abs (75 * d - 28 * (m * U)) <= 34 * w).
  { destruct deltas_eq as [E7 E8]. unfold d. destruct (Z.ltb_spec (remaining l) (frame_delta (m * U))); [by left|right].
    destruct Hm as [-> | ->]; rewrite ?E7, ?E8 in *; lia. }
  assert (Hd0 : 0 <= d <= remaining l) by (destruct Hd; lia).
  set (rest := f32_sub (remaining l) d).
  assert (Hr : Z.abs (rest - (remaining l - d)) <= 64 * w) by (apply round_near; lia).
  assert (Hr0 : 0 <= rest) by (apply round_nonneg; lia).
  assert (Hrz : d = remaining l -> rest = 0) by (intros ->; unfold rest, f32_sub; by rewrite Z.sub_diag).
  set (raw := if direction l =? ANIM_DIRECTION_UP then f32_sub (raw_position_y l) d else f32_add (raw_position_y l) d).
  assert (Hraw' : Z.abs (raw - (if direction l =? ANIM_DIRECTION_UP then raw_position_y l - d else raw_position_y l + d)) <= 2048 * w).
  { unfold raw. destruct (_ =? _); apply round_far; lia. }
  assert (Hl' : on_lattice total rest).
  { destruct Hd as [E|(_ & Hd1 & Hd2)].
    - rewrite (Hrz E). exists 0. lia.
    - destruct Hl as (k & Hk). exists (k - m). rewrite Z.mul_sub_distr_r. lia. }
  pose proof (tenth rest) as Hten. destruct (f64_of_f32 rest <? f64_lit 1 10).
  - pose proof (lattice_small total rest Hr0 Hten ltac:(lia) Hl') as Hsmall.
    constructor; cbn [remaining pending_count direction set_anims set_raw raw_position_y]; try lia.
    + intros _. exists 0. split; [lia|]. split; [|exists 0; lia].
      destruct Hside as [[-> ?]|[-> ?]]; rewrite ?behind_up, ?behind_down; nia.
    + unfold target in *. cbn [remaining direction set_anims set_raw raw_position_y]. destruct (direction l =? ANIM_DIRECTION_UP); lia.
  - destruct Hd as [E|(_ & Hd1 & Hd2)]; [rewrite (Hrz E) in Hten; lia|].
    constructor; cbn [remaining pending_count direction set_anims set_raw raw_position_y]; try lia.
    + intros _. exists total. split; [lia|]. done.
    + unfold target in *. cbn [remaining direction set_anims set_raw raw_position_y]. destruct (direction l =? ANIM_DIRECTION_UP); lia.
Qed.
Lemma update_line_ok N j l : line_ok N j l -> N <= SCROLLS -> Z.abs j <= 240 -> line_ok N j (update_line l).
Proof.
  intros Hl HN Hj. unfold update_line. destruct (fade_way (multiplier (pending_count l)) l) as (E1 & E2 & E3 & E4).
  pose proof (line_ok_way N j l _ E1 E2 E3 E4 Hl) as Hl'. set (l' := fade (multiplier (pending_count l)) l) in *.
  destruct (Z.eq_dec (pending_count l) 0) as [E|E].
  - unfold advance. rewrite E3, E, Z.eqb_refl. exact Hl'.
  - pose proof (lk_count _ _ _ Hl). unfold SCROLLS in HN. destruct (delta_cases (pending_count l)) as (m & Hm & ->); [lia|].
    apply advance_ok; [exact Hl'|unfold SCROLLS; lia|done|lia|done].
Qed.

(** ** A scroll *)

(** The list goes on by one row. *)
Definition row_step (dir : Z) : Z := if dir =? ANIM_DIRECTION_UP then -1 else 1.
Definition the_way (dir : Z) : Prop := dir = ANIM_DIRECTION_UP \/ dir = ANIM_DIRECTION_DOWN.
Lemma place_step dir j : the_way dir -> place (j + row_step dir) = place j + row_step dir * (56 * U).
Proof. intros [-> | ->]; unfold place, DRAW_BOUND_TOP, DRAW_OFFSET_Y, row_step; cbn [Z.eqb ANIM_DIRECTION_UP ANIM_DIRECTION_DOWN]; lia. Qed.

Lemma behind_step dir j : the_way dir -> places_behind dir (j + row_step dir) = places_behind dir j + 1.
Proof. intros [-> | ->]; rewrite ?behind_up, ?behind_down; unfold row_step; cbn [Z.eqb ANIM_DIRECTION_UP ANIM_DIRECTION_DOWN]; lia. Qed.
Lemma behind_nonneg dir j : the_way dir -> 0 <= j <= 4 -> 0 <= places_behind dir j.
Proof. intros [-> | ->] ?; rewrite ?behind_up, ?behind_down; lia. Qed.

Lemma not_pending_way dir l : the_way dir -> pending (1 - dir) l = false -> 0 < pending_count l ->
  direction l = ANIM_DIRECTION_UP \/ direction l = ANIM_DIRECTION_DOWN -> direction l = dir.
Proof.
  unfold pending, the_way, ANIM_DIRECTION_UP, ANIM_DIRECTION_DOWN. intros Hd Hp Hc. rewrite (proj2 (Z.ltb_lt _ _)) in Hp by lia.
  cbn [andb] in Hp. apply Z.eqb_neq in Hp. lia.
Qed.
Lemma side_way N j l dir : line_ok N j l -> the_way dir -> pending (1 - dir) l = false -> 0 < pending_count l ->
  direction l = dir /\ (if dir =? ANIM_DIRECTION_UP then j <= 3 else 0 <= j).
Proof.
  intros Hl Hd Hp Hc. pose proof (lk_side _ _ _ Hl Hc) as Hside. assert (direction l = dir) as E by (apply not_pending_way; [done..|tauto]).
  split; [done|]. rewrite E in Hside. destruct Hd as [-> | ->], Hside as [[? ?]|[? ?]]; done.
Qed.

(** A line that is not on the screen goes its whole way at once. *)
Lemma jump_ok N j l dir step : line_ok N j l -> N < SCROLLS -> Z.abs j <= 240 -> the_way dir -> pending (1 - dir) l = false ->
  (forall y, Z.abs y <= 14000 * U -> Z.abs (step y - (y + row_step dir * (56 * U))) <= 2048 * w) ->
  line_ok (N + 1) (j + row_step dir) (set_raw (step (raw_position_y l)) l).
Proof.
  intros Hl HN Hj Hdir Hp Hstep. pose proof (raw_bound _ _ _ Hl ltac:(lia) Hj) as Hraw. specialize (Hstep _ Hraw).
  pose proof w_pos as Hw. pose proof U_w as HU. pose proof (fun H => side_way N j l dir Hl Hdir Hp H) as Hside.
  pose proof (place_step dir j Hdir) as Hplace. destruct Hl as [H0 Hc Hi _ Hlat Hd].
  constructor; cbn [remaining pending_count direction set_raw raw_position_y]; try done; [lia|..].
  - intros H'. specialize (Hside H') as [-> Hj']. destruct Hdir as [-> | ->]; [left|right]; (split; [done|]); cbn in Hj' |- *; lia.
  - intros H'. destruct (Hlat H') as (total & Ht & Hp' & Hl). exists total. split; [done|]. split; [|done].
    specialize (Hside H') as [E _]. rewrite E, behind_step in * by done. lia.
  - unfold target in *. cbn [remaining direction set_raw raw_position_y]. rewrite Hplace. destruct (direction l =? ANIM_DIRECTION_UP); lia.
Qed.

(** A line on the screen sets out for its new place, or for one place more. *)
Lemma add_ok N j l dir : line_ok N j l -> N < SCROLLS -> 0 <= j <= 4 -> the_way dir -> pending (1 - dir) l = false ->
  line_ok (N + 1) (j + row_step dir) (grid_add_anim dir offset_y l).
Proof.
  intros Hl HN Hj Hdir Hp. pose proof w_pos as Hw. pose proof U_w as HU. pose proof (fun H => side_way N j l dir Hl Hdir Hp H) as Hside.
  pose proof (place_step dir j Hdir) as Hplace. pose proof (rest_bound _ _ _ Hl) as Hrest. destruct Hl as [H0 Hc Hi _ Hlat Hd]. unfold SCROLLS in HN.
  unfold grid_add_anim. rewrite offset_eq.
  assert (E : (0 <? pending_count l) && negb (direction l =? dir) = false).
  { destruct (Z.ltb_spec 0 (pending_count l)) as [H'|H']; [|done]. destruct (Hside H') as [-> _]. by rewrite Z.eqb_refl. }
  rewrite E. rewrite (proj2 (Z.ltb_lt _ _)) by (unfold MAX_ANIMS; lia).
  (* behind it, at most the places up to here *)
  assert (Hbehind : exists total, remaining l <= total /\ total + 60 * U <= 360 * U /\ total + 60 * U <= 60 * U * places_behind dir (j + row_step dir) /\
    on_lattice total (remaining l)).
  { destruct (Z.eq_dec (pending_count l) 0) as [E0|E0].
    - exists 0. rewrite (Hi E0). split_and!; [lia|lia| |exists 0; lia].
      pose proof (behind_nonneg dir j Hdir ltac:(lia)). rewrite behind_step by done. clear - H Hw HU. nia.
    - destruct (Hlat ltac:(lia)) as (total & Ht & Hp' & Hl). destruct (Hside ltac:(lia)) as [Ed Hj']. exists total. rewrite Ed in Hp'.
      assert (places_behind dir j <= 5).
      { destruct Hdir as [-> | ->]; rewrite ?behind_up, ?behind_down; lia. }
      rewrite behind_step by done. split_and!; [lia| |lia|done]. clear - H Hp' Hw HU. nia. }
  destruct Hbehind as (total & Ht & Ht' & Hp' & k & Hk).
  assert (Hr : Z.abs (f32_add (remaining l) (56 * U) - (remaining l + 56 * U)) <= 64 * w) by (apply round_near; lia).
  set (r := f32_add (remaining l) (56 * U)) in *.
  constructor; cbn [remaining pending_count direction set_anims raw_position_y]; try lia.
  - intros _. destruct Hdir as [-> | ->]; [left|right]; (split; [done|]); cbn [row_step Z.eqb ANIM_DIRECTION_UP ANIM_DIRECTION_DOWN]; lia.
  - intros _. exists (total + 60 * U). split; [lia|]. split; [done|]. exists (k + 150). rewrite Z.mul_add_distr_r. lia.
  - unfold target in *. cbn [remaining direction set_anims raw_position_y]. rewrite Hplace.
    destruct (Z.eq_dec (pending_count l) 0) as [E0|E0].
    + rewrite (Hi E0) in *. destruct Hdir as [-> | ->]; cbn [row_step Z.eqb ANIM_DIRECTION_UP ANIM_DIRECTION_DOWN]; destruct (direction l =? ANIM_DIRECTION_UP); lia.
    + destruct (Hside ltac:(lia)) as [Ed _]. rewrite Ed in Hd. destruct Hdir as [-> | ->]; cbn [row_step Z.eqb ANIM_DIRECTION_UP ANIM_DIRECTION_DOWN] in *; lia.
Qed.

(** The line that appears. *)
Lemma move_in_ok N j l dir : line_ok N j l -> N < SCROLLS -> the_way dir -> pending (1 - dir) l = false ->
  j = (if dir =? ANIM_DIRECTION_UP then 4 else -1) ->
  line_ok (N + 1) (j + row_step dir) (move_in (if dir =? ANIM_DIRECTION_UP then 300 * U else 76 * U) dir l).
Proof.
  intros Hl HN Hdir Hp Hj. pose proof w_pos as Hw. pose proof U_w as HU. pose proof (fun H => side_way N j l dir Hl Hdir Hp H) as Hside.
  destruct Hl as [H0 Hc Hi _ _ _]. assert (E : pending_count l = 0).
  { destruct (Z.eq_dec (pending_count l) 0) as [E|E]; [done|]. destruct (Hside ltac:(lia)) as [_ Hj']. destruct (dir =? ANIM_DIRECTION_UP); lia. }
  unfold move_in, grid_add_anim. rewrite half_offset_eq. cbn [pending_count direction remaining set_moving set_transparency set_raw set_anims].
  rewrite E. cbn [Z.ltb Z.compare andb MAX_ANIMS pending_count direction remaining set_moving set_transparency set_raw set_anims]. rewrite (Hi E).
  assert (Er : f32_add 0 (28 * U) = 28 * U) by (apply round_mult; lia). rewrite Er.
  assert (Ej : j + row_step dir = if dir =? ANIM_DIRECTION_UP then 3 else 0) by (rewrite Hj; destruct Hdir as [-> | ->]; done). rewrite Ej, E.
  change (0 <? MAX_ANIMS) with true. cbv iota.
  constructor; cbn [remaining pending_count direction set_anims set_moving set_transparency set_raw raw_position_y].
  1-3: lia.
  - intros _. destruct Hdir as [-> | ->]; [left|right]; by split.
  - intros _. exists (60 * U). split; [lia|]. split; [|exists 75; lia].
    destruct Hdir as [-> | ->]; rewrite ?behind_up, ?behind_down; cbn [Z.eqb ANIM_DIRECTION_UP ANIM_DIRECTION_DOWN]; lia.
  - unfold target, place, DRAW_BOUND_TOP, DRAW_OFFSET_Y. cbn [remaining direction set_anims set_moving set_transparency set_raw raw_position_y].
    destruct Hdir as [-> | ->]; cbn [Z.eqb ANIM_DIRECTION_UP ANIM_DIRECTION_DOWN]; lia.
Qed.

(** ** What the loops see *)

Lemma f_consts : f 10 = 10 * U /\ f DRAW_BOUND_TOP = 104 * U /\ f DRAW_BOUND_BOTTOM = 328 * U.
Proof. rewrite !f_exact by done. done. Qed.
Lemma add_far a b : Z.abs (a + b) < 16384 * U -> Z.abs (f32_add a b - (a + b)) <= 2048 * w.
Proof. apply round_far. Qed.
Lemma sub_far a b : Z.abs (a - b) < 16384 * U -> Z.abs (f32_sub a b - (a - b)) <= 2048 * w.
Proof. apply round_far. Qed.
Lemma near_bound j y : near j y -> Z.abs j <= 240 -> Z.abs y <= 13560 * U.
Proof. intros Hy Hj. pose proof (place_bound j Hj). pose proof w_pos as Hw. pose proof U_w as HU. unfold near in Hy. lia. Qed.
Lemma place_eq j : place j = 104 * U + 56 * (j * U).
Proof. unfold place, DRAW_BOUND_TOP, DRAW_OFFSET_Y. lia. Qed.
Lemma rows_le i j : i <= j -> i * U <= j * U.
Proof. intros Hij. pose proof w_pos. pose proof U_w. apply Z.mul_le_mono_nonneg_r; lia. Qed.

Ltac compare_places :=
  repeat match goal with
  | |- context [?a <? ?b] => destruct (Z.ltb_spec a b)
  | |- context [?a <=? ?b] => destruct (Z.leb_spec a b)
  end; cbn [andb]; try done; exfalso; lia.

Lemma in_range_row j y : near j y -> Z.abs j <= 240 -> in_range y = (0 <=? j) && (j <=? 4).
Proof.
  intros Hy Hj. unfold in_range. destruct range_eq as [-> ->]. unfold near in Hy. rewrite place_eq in Hy. pose proof w_pos as Hw. pose proof U_w as HU.
  pose proof (rows_le j (-1)) as H1. pose proof (rows_le 0 j) as H2. pose proof (rows_le j 4) as H3. pose proof (rows_le 5 j) as H4.
  destruct (Z.leb_spec 0 j); [specialize (H2 ltac:(lia))|specialize (H1 ltac:(lia))];
    (destruct (Z.leb_spec j 4); [specialize (H3 ltac:(lia))|specialize (H4 ltac:(lia))]); cbn [andb]; compare_places.
Qed.
Lemma appears_bottom_row j y : near j y -> Z.abs j <= 240 -> j <= 4 -> appears_at_bottom y = (j =? 4).
Proof.
  intros Hy Hj Hj4. pose proof (near_bound _ _ Hy Hj) as Hb. pose proof w_pos as Hw. pose proof U_w as HU. unfold appears_at_bottom. destruct f_consts as (-> & _ & ->). rewrite offset_eq.
  pose proof (add_far y (10 * U) ltac:(lia)). pose proof (sub_far y (56 * U) ltac:(lia)). pose proof (sub_far (f32_sub y (56 * U)) (10 * U) ltac:(lia)).
  unfold near in Hy. rewrite place_eq in Hy. pose proof (rows_le j 3) as Hrow. destruct (Z.eqb_spec j 4) as [->|]; [|specialize (Hrow ltac:(lia))]; compare_places.
Qed.
Lemma appears_top_row j y : near j y -> Z.abs j <= 240 -> j <= -1 -> appears_at_top y = (j =? -1).
Proof.
  intros Hy Hj Hj4. pose proof (near_bound _ _ Hy Hj) as Hb. pose proof w_pos as Hw. pose proof U_w as HU. unfold appears_at_top. destruct f_consts as (-> & -> & _). rewrite offset_eq.
  pose proof (sub_far y (10 * U) ltac:(lia)). pose proof (add_far y (56 * U) ltac:(lia)). pose proof (add_far (f32_add y (56 * U)) (10 * U) ltac:(lia)).
  unfold near in Hy. rewrite place_eq in Hy. pose proof (rows_le j (-2)) as Hrow. destruct (Z.eqb_spec j (-1)) as [->|]; [|specialize (Hrow ltac:(lia))]; compare_places.
Qed.

(** ** The whole grid *)

Definition rows_ok (N first : Z) (ls : list line_backing) : Prop := forall i l, ls !! i = Some l -> line_ok N (first + Z.of_nat i) l.
Lemma rows_ok_cons N first l ls : rows_ok N first (l :: ls) <-> line_ok N first l /\ rows_ok N (first + 1) ls.
Proof.
  split.
  - intros H. split; [specialize (H 0%nat l eq_refl); by rewrite Z.add_0_r in H|]. intros i k Hi. specialize (H (S i) k Hi).
    by replace (first + 1 + Z.of_nat i) with (first + Z.of_nat (S i)) by lia.
  - intros [H1 H2] [|i] k Hi; [injection Hi as <-; by rewrite Z.add_0_r|]. specialize (H2 i k Hi).
    by replace (first + Z.of_nat (S i)) with (first + 1 + Z.of_nat i) by lia.
Qed.

Section Scroll.
Context (dir row : Z) (appears disappears : Z -> bool) (step : Z -> Z).
Hypothesis Hdir : the_way dir.
Hypothesis Hrow : row = if dir =? ANIM_DIRECTION_UP then 4 else -1.
Hypothesis Happears : forall j y, near j y -> Z.abs j <= 240 -> j <= row -> appears y = (j =? row).
Hypothesis Hstep : forall y, Z.abs y <= 14000 * U -> Z.abs (step y - (y + row_step dir * (56 * U))) <= 2048 * w.
Notation start := (if dir =? ANIM_DIRECTION_UP then 300 * U else 76 * U).

Lemma scroll_line_ok N j l (ins : bool) : line_ok N j l -> N < SCROLLS -> Z.abs j <= 240 -> pending (1 - dir) l = false -> (ins = true -> j = row) ->
  line_ok (N + 1) (j + row_step dir)
    (if ins then move_in start dir l else if in_range (get_position_after l) then grid_add_anim dir offset_y l else set_raw (step (raw_position_y l)) l).
Proof using Hdir Hrow Hstep.
  intros Hl HN Hj Hp Hins. destruct ins; [apply move_in_ok; try done; by rewrite <- Hrow, Hins|].
  rewrite (in_range_row j) by (done || apply (position_near N); try done; lia).
  destruct ((0 <=? j) && (j <=? 4)) eqn:E; [apply add_ok; done || lia|by apply jump_ok].
Qed.

Lemma move_out_ok N j l : line_ok N j l -> line_ok N j (move_out l).
Proof. by apply line_ok_way. Qed.
Lemma scroll_ok N ls : forall first fi fo, rows_ok N first ls -> Forall (fun l => pending (1 - dir) l = false) ls -> N < SCROLLS ->
  fi = (row <? first) -> -240 <= first -> first + Z.of_nat (length ls) <= 240 ->
  rows_ok (N + 1) (first + row_step dir) (scroll appears disappears start dir step fi fo ls).
Proof using Hdir Hrow Happears Hstep.
  induction ls as [|l ls IH]; intros first fi fo Hok Hp HN Hfi H0 H1; [intros i k Hi; done|].
  apply rows_ok_cons in Hok as [Hl Hls]. apply Forall_cons in Hp as [Hp Hps]. cbn [scroll length] in *. cbv zeta.
  pose proof (position_near N first l Hl ltac:(lia) ltac:(lia)) as Hnear.
  set (ins := negb fi && appears (get_position_after l)).
  assert (Hins : ins = (first =? row)).
  { unfold ins. rewrite Hfi. destruct (Z.ltb_spec row first); cbn [negb andb]; [by rewrite (proj2 (Z.eqb_neq _ _)) by lia|].
    apply Happears; [done|lia|lia]. }
  apply rows_ok_cons. split.
  - pose proof (scroll_line_ok N first l ins Hl HN ltac:(lia) Hp) as Hl'. rewrite Hins in Hl' at 1.
    specialize (Hl' (fun H => proj1 (Z.eqb_eq _ _) H)). destruct (negb fo && disappears _); [by apply move_out_ok|done].
  - replace (first + row_step dir + 1) with (first + 1 + row_step dir) by lia. apply IH; try done; [|lia|lia].
    rewrite Hins, Hfi. destruct (Z.ltb_spec row first), (Z.eqb_spec first row), (Z.ltb_spec row (first + 1)); try done; lia.
Qed.
End Scroll.

Lemma rows_fmap N first g ls : (forall j l, line_ok N j l -> Z.abs j <= 240 -> line_ok N j (g l)) -> -240 <= first -> first + Z.of_nat (length ls) <= 240 ->
  rows_ok N first ls -> rows_ok N first (g <$> ls).
Proof.
  intros Hg H0 H1 Hok i l Hi. rewrite list_lookup_fmap in Hi. destruct (ls !! i) as [k|] eqn:Ei; [|done]. injection Hi as <-.
  apply lookup_lt_Some in Ei as Hlt. apply Hg; [by apply Hok|lia].
Qed.
Lemma fade_out_ok N j l : line_ok N j l -> line_ok N j (fade_out l).
Proof. intros H. unfold fade_out. destruct (moving_out l); [by apply (line_ok_way N j l)|done]. Qed.
Lemma fade_out_pending d l : pending d (fade_out l) = pending d l.
Proof. unfold fade_out. by destruct (moving_out l). Qed.

(** The first [n] lines, of which number [top] is in the first row. *)
Definition grid_ok (N n top : Z) (ls : list line_backing) : Prop := rows_ok N (- top) (take (Z.to_nat n) ls).
Lemma on_lines_ok N' n top' g ls : (Z.to_nat n <= length ls)%nat -> length (g (take (Z.to_nat n) ls)) = Z.to_nat n ->
  rows_ok N' (- top') (g (take (Z.to_nat n) ls)) -> grid_ok N' n top' (on_lines n g ls).
Proof. intros Hn Hlen Hok. unfold grid_ok, on_lines. rewrite take_app_length' by done. exact Hok. Qed.
Lemma length_scroll ap dis start dir step fi fo ls : length (scroll ap dis start dir step fi fo ls) = length ls.
Proof. revert fi fo. induction ls as [|l ls IH]; intros fi fo; cbn; [done|]. by rewrite IH. Qed.
Lemma length_on_lines n g ls : (Z.to_nat n <= length ls)%nat -> (forall k, length (g k) = length k) -> length (on_lines n g ls) = length ls.
Proof. intros Hn Hg. unfold on_lines. rewrite length_app, Hg, length_take, length_drop. lia. Qed.
Lemma not_existsb d ls : existsb (pending d) ls = false -> Forall (fun l => pending d l = false) ls.
Proof. induction ls as [|l ls IH]; cbn; [constructor|]. intros [? ?]%orb_false_iff. constructor; auto. Qed.

Lemma update_ok N n top ls : grid_ok N n top ls -> N <= SCROLLS -> 0 <= n <= 240 -> 0 <= top <= 240 -> length ls = Z.to_nat MAX_LINES ->
  grid_ok N n top (grid_update_icon_positions true n ls) /\ length (grid_update_icon_positions true n ls) = Z.to_nat MAX_LINES.
Proof.
  intros Hok HN Hn Ht Hlen. change (Z.to_nat MAX_LINES) with 240%nat in *. unfold grid_update_icon_positions. split.
  - apply (on_lines_ok N n top); [lia|rewrite length_fmap, length_take; lia|].
    apply rows_fmap; [intros; by apply update_line_ok|lia|rewrite length_take; lia|exact Hok].
  - rewrite length_on_lines; [lia|lia|intros k; apply length_fmap].
Qed.
Lemma navigate_down_ok N n top ls : grid_ok N n top ls -> N < SCROLLS -> 0 <= n <= 240 -> 0 <= top <= 240 -> length ls = Z.to_nat MAX_LINES ->
  let '(r, ls') := grid_dispatch_navigate_down n ls in
  length ls' = Z.to_nat MAX_LINES /\ grid_ok (if r =? GRID_MOVE_SUCCESS then N + 1 else N) n (if r =? GRID_MOVE_SUCCESS then top + 1 else top) ls'.
Proof.
  intros Hok HN Hn Ht Hlen. change (Z.to_nat MAX_LINES) with 240%nat in *. unfold grid_dispatch_navigate_down.
  destruct (existsb _ _) eqn:E; [done|]. apply not_existsb in E. split.
  - rewrite length_on_lines; [lia|lia|]. intros k. by rewrite length_scroll, length_fmap.
  - cbn [Z.eqb GRID_MOVE_SUCCESS]. apply (on_lines_ok (N + 1) n (top + 1)); [lia|rewrite length_scroll, length_fmap, length_take; lia|].
    rewrite above_bottom_eq. replace (- (top + 1)) with (- top + row_step ANIM_DIRECTION_UP) by (cbn; lia).
    apply (scroll_ok ANIM_DIRECTION_UP 4 appears_at_bottom leaves_at_top); try done.
    + by left.
    + intros j y Hy Hj Hr. by apply appears_bottom_row.
    + intros y Hy. rewrite offset_eq. pose proof w_pos. pose proof U_w. pose proof (sub_far y (56 * U) ltac:(lia)). cbn [row_step Z.eqb ANIM_DIRECTION_UP]. lia.
    + apply rows_fmap; [intros; by apply fade_out_ok|lia|rewrite length_take; lia|exact Hok].
    + apply Forall_fmap. eapply Forall_impl; [exact E|]. intros l Hl. cbn. by rewrite fade_out_pending.
    + symmetry. apply Z.ltb_ge. lia.
    + lia.
    + rewrite length_fmap, length_take. lia.
Qed.
Lemma navigate_up_ok N n top ls : grid_ok N n top ls -> N < SCROLLS -> 0 <= n <= 240 -> 0 < top <= 240 -> length ls = Z.to_nat MAX_LINES ->
  let '(r, ls') := grid_dispatch_navigate_up n ls in
  length ls' = Z.to_nat MAX_LINES /\ grid_ok (if r =? GRID_MOVE_SUCCESS then N + 1 else N) n (if r =? GRID_MOVE_SUCCESS then top - 1 else top) ls'.
Proof.
  intros Hok HN Hn Ht Hlen. change (Z.to_nat MAX_LINES) with 240%nat in *. unfold grid_dispatch_navigate_up.
  destruct (existsb _ _) eqn:E; [done|]. apply not_existsb in E. split.
  - rewrite length_on_lines; [lia|lia|]. intros k. by rewrite length_scroll.
  - cbn [Z.eqb GRID_MOVE_SUCCESS]. apply (on_lines_ok (N + 1) n (top - 1)); [lia|rewrite length_scroll, length_take; lia|].
    rewrite below_top_eq. replace (- (top - 1)) with (- top + row_step ANIM_DIRECTION_DOWN) by (cbn; lia).
    apply (scroll_ok ANIM_DIRECTION_DOWN (-1) appears_at_top leaves_at_bottom); try done.
    + by right.
    + intros j y Hy Hj Hr. by apply appears_top_row.
    + intros y Hy. rewrite offset_eq. pose proof w_pos. pose proof U_w. pose proof (add_far y (56 * U) ltac:(lia)). cbn [row_step Z.eqb ANIM_DIRECTION_UP ANIM_DIRECTION_DOWN]. lia.
    + symmetry. apply Z.ltb_ge. lia.
    + lia.
    + rewrite length_take. lia.
Qed.

(** ** Set-up *)

Lemma nearest_scale n m d : 0 < d -> 0 < m -> nearest (n * d) (d * m) = nearest n m.
Proof.
  intros Hd Hm. unfold nearest. rewrite (Z.mul_comm n d), Z.div_mul_cancel_l, Z.mul_mod_distr_l by lia.
  replace (2 * (d * (n mod m)) <? d * m) with (2 * (n mod m) <? m) by (apply eq_bool_prop_intro; rewrite !Is_true_true, !Z.ltb_lt; nia).
  replace (d * m <? 2 * (d * (n mod m))) with (m <? 2 * (n mod m)) by (apply eq_bool_prop_intro; rewrite !Is_true_true, !Z.ltb_lt; nia). done.
Qed.
Lemma round_scale p n d : 0 < d -> round p (n * d) d = round p n 1.
Proof.
  intros Hd. unfold round. rewrite Z.abs_mul, (Z.abs_eq d) by lia. rewrite Z.div_mul, Z.div_1_r by lia. set (e := Z.max 0 _).
  assert (0 < 2 ^ e) by (apply Z.pow_pos_nonneg; lia). by rewrite nearest_scale, Z.mul_1_l by lia.
Qed.
Lemma row_product row : 0 <= row < 240 -> f32_mul (f row) offset_y = 56 * row * U.
Proof.
  intros Hr. rewrite f_exact, offset_eq by (change (2 ^ 24) with 16777216; lia). unfold f32_mul.
  pose proof w_pos. pose proof U_w. replace (row * U * (56 * U)) with (56 * row * U * U) by lia. rewrite round_scale by lia.
  apply round_mult. change (2 ^ 24) with 16777216. lia.
Qed.
Lemma start_eq : f32_sub (f DRAW_BOUND_TOP) (f32_mul offset_y (f START_LINE)) = 104 * U.
Proof. with_strategy transparent [F32_UNIT] vm_compute. reflexivity. Qed.
Lemma setup_line_ok row l : 0 <= row < 240 -> pending_count l = 0 -> remaining l = 0 -> line_ok 0 row (setup_line row l).
Proof.
  intros Hr Hc H0. unfold setup_line. rewrite start_eq, row_product by done. unfold f32_add. replace (104 * U + 56 * row * U) with ((104 + 56 * row) * U) by lia.
  rewrite round_mult by (change (2 ^ 24) with 16777216; lia).
  constructor; unfold target; cbn [remaining pending_count direction set_transparency set_raw raw_position_y]; rewrite ?Hc, ?H0; try lia.
  unfold place, DRAW_BOUND_TOP, DRAW_OFFSET_Y. destruct (_ =? _); lia.
Qed.
Lemma grid_setup_ok n : 0 <= n <= 240 -> exists ls, grid_setup_func n = Some ls /\ length ls = Z.to_nat MAX_LINES /\ grid_ok 0 n 0 ls.
Proof.
  intros Hn. unfold grid_setup_func. change MAX_LINES with 240. rewrite (proj2 (Z.leb_le n 240)) by lia. eexists. split; [reflexivity|].
  rewrite length_imap, length_replicate. split; [done|]. intros i l Hi. change (- 0 + Z.of_nat i) with (Z.of_nat i).
  apply lookup_take_Some in Hi as [Hi Hlt]. rewrite list_lookup_imap in Hi.
  destruct (replicate _ _ !! i) as [z|] eqn:Ez; [|done]. apply lookup_replicate in Ez as [-> _]. injection Hi as <-.
  rewrite (proj2 (Z.ltb_lt _ _)) by lia. apply setup_line_ok; [lia|done|done].
Qed.
