(* ===== verification/Hooks.v ===== *)
(** What the patched IPL calls while it runs (src/patches/source/main.c): once a
    frame [bs2tick], which tells the IPL what state of its own to go to and hides
    the boot animation, and at the end [bs2start], which wipes the IPL and starts
    what was chosen.

    The words of the IPL that are changed have their addresses in
    src/patches/linker, one set for each IPL.  The IPL's memory is the memory of
    Mem.v; the variables of main.c are the fields of [hooks_state]. *)

From S2P Require Import Prelude Mem Ipl.

(** ** Where the IPL keeps what is changed *)

Record anim_ptrs := mk_ptrs {
  anim_sound_level : Z; anim_draw_cubes : Z; anim_draw_outer : Z; anim_draw_inner : Z;
  cube_state : Z; main_menu_id : Z
}.
Definition anim_ptrs_of (v : ipl_version) : anim_ptrs :=
  match v with
  | IPL_NTSC_10 => mk_ptrs 0x8145d4d0 0x8131055c 0x8130d224 0x81310598 0x81465728 0x8145d6d0
  | IPL_NTSC_11 => mk_ptrs 0x81481278 0x81310754 0x8130d428 0x81310790 0x81489e58 0x81481518
  | IPL_NTSC_12_001 => mk_ptrs 0x81483340 0x81310aec 0x8130d79c 0x81310b28 0x8148b438 0x814835f0
  | IPL_NTSC_12_101 => mk_ptrs 0x814837c0 0x81310b04 0x8130d7b4 0x81310b40 0x8148b8d8 0x81483a70
  | IPL_PAL_10 => mk_ptrs 0x814ad118 0x81310e94 0x8130d868 0x81310ed0 0x814b5d58 0x814ad3b8
  | IPL_PAL_11 => mk_ptrs 0x8147bf38 0x81310680 0x8130d354 0x813106bc 0x81484b18 0x8147c1d8
  | IPL_PAL_12 => mk_ptrs 0x814af400 0x81310fd4 0x8130d9a8 0x81311010 0x814b7518 0x814af6b0
  end.
(** The offsets of the fields of [state] the patches store to. *)
Definition cube_side_frames : Z := 20.
Definition cube_corner_frames : Z := 22.
Definition cube_anim_done : Z := 31.
Definition fall_anim_frames : Z := 34.
Definition fall_delay_frames : Z := 35.
Definition up_anim_frames : Z := 53.
Definition up_delay_frames : Z := 54.
Definition move_anim_frames : Z := 61.
Definition move_delay_frames : Z := 62.
Definition done_delay_frames : Z := 84.
Definition logo_hold_frames : Z := 87.
Definition logo_delay_frames : Z := 88.
Definition audio_cue_frames_b : Z := 98.
Definition audio_cue_frames_c : Z := 100.

Definition STATE_WAIT_LOAD : Z := 0x0f.
Definition STATE_START_GAME : Z := 0x10.
Definition STATE_NO_DISC : Z := 0x12.

Record hooks_state := mk_hooks {
  hk_mem : Z -> Z;
  anim_hidden : bool;
  saved_draw_cubes : Z; saved_draw_outer : Z; saved_draw_inner : Z; saved_sound_level : Z;
  frame_count : Z;
  completed_time : Z;
  start_passthrough_game : Z
}.
Definition NOP : Z := 0x60000000.
Definition hooks_start (m : Z -> Z) (passthrough : Z) : hooks_state :=
  mk_hooks m false NOP NOP NOP 0 0 0 passthrough.
Definition set_hk_mem (m : Z -> Z) (w : hooks_state) : hooks_state :=
  mk_hooks m (anim_hidden w) (saved_draw_cubes w) (saved_draw_outer w) (saved_draw_inner w) (saved_sound_level w)
    (frame_count w) (completed_time w) (start_passthrough_game w).
Definition set_frame_count (n : Z) (w : hooks_state) : hooks_state :=
  mk_hooks (hk_mem w) (anim_hidden w) (saved_draw_cubes w) (saved_draw_outer w) (saved_draw_inner w) (saved_sound_level w)
    n (completed_time w) (start_passthrough_game w).
Definition set_completed_time (t : Z) (w : hooks_state) : hooks_state :=
  mk_hooks (hk_mem w) (anim_hidden w) (saved_draw_cubes w) (saved_draw_outer w) (saved_draw_inner w) (saved_sound_level w)
    (frame_count w) t (start_passthrough_game w).

(** ** Hiding the animation *)

(** [swap_word(addr, slot)]: the memory and the slot afterwards. *)
Definition swap_word (addr slot : Z) (m : Z -> Z) : (Z -> Z) * Z := (store_word addr slot m, load_word addr m).

Definition set_anim_hidden (p : anim_ptrs) (hide : bool) (w : hooks_state) : hooks_state :=
  if Bool.eqb hide (anim_hidden w) then w
  else
    let '(m, sound) := swap_word (anim_sound_level p) (saved_sound_level w) (hk_mem w) in
    let '(m, cubes) := swap_word (anim_draw_cubes p) (saved_draw_cubes w) m in
    let '(m, outer) := swap_word (anim_draw_outer p) (saved_draw_outer w) m in
    let '(m, inner) := swap_word (anim_draw_inner p) (saved_draw_inner w) m in
    mk_hooks m hide cubes outer inner sound (frame_count w) (completed_time w) (start_passthrough_game w).

(** ** The clock *)

Definition TB_TIMER_CLOCK : Z := 162000000 / 4000.
Definition diff_ticks (tick0 tick1 : Z) : Z :=
  if tick1 <? tick0 then u64 (u64 (2 ^ 64 - 1 - tick0) + tick1) else u64 (tick1 - tick0).
Definition diff_msec (start end_ : Z) : Z := u32 (diff_ticks start end_ / TB_TIMER_CLOCK).

(** ** Once a frame *)

Definition hide_splash (p : anim_ptrs) (skip_boot_animation : Z) (w : hooks_state) : hooks_state :=
  if skip_boot_animation =? 0 then w
  else if load_word (main_menu_id p) (hk_mem w) =? 1 then
    let w := set_anim_hidden p true w in
    set_hk_mem (store_mem (cube_state p + cube_anim_done) [1] (hk_mem w)) w
  else set_anim_hidden p false w.

(** [now] and [later] are what the clock says the first and the second time it is
    asked in this call. *)
Definition note_finished (p : anim_ptrs) (now : Z) (w : hooks_state) : hooks_state :=
  if (completed_time w =? 0) && negb (hk_mem w (cube_state p + cube_anim_done) =? 0)
  then set_completed_time now w else w.

Definition next_state (p : anim_ptrs) (postboot_delay_ms later : Z) (w : hooks_state) : Z :=
  if negb (start_passthrough_game w =? 0) then
    if negb (postboot_delay_ms =? 0) then
      let elapsed := diff_msec (completed_time w) later in
      if (0 <? completed_time w) && (postboot_delay_ms <? elapsed) then STATE_START_GAME else STATE_WAIT_LOAD
    else STATE_START_GAME
  else if 3 <=? load_word (main_menu_id p) (hk_mem w) then STATE_START_GAME
  else STATE_NO_DISC.

Definition bs2tick (p : anim_ptrs) (skip_boot_animation postboot_delay_ms now later : Z) (w : hooks_state) : Z * hooks_state :=
  let w := set_frame_count (s32 (frame_count w + 1)) w in
  let w := hide_splash p skip_boot_animation w in
  let w := note_finished p now w in
  (next_state p postboot_delay_ms later w, w).

(** ** The animation's timing on a PAL console that shows NTSC *)

Definition store_half (addr v : Z) (m : Z -> Z) : Z -> Z := store_mem addr [u8 (Z.shiftr v 8); u8 v] m.
Definition mod_cube_anim (fix_pal_ntsc : bool) (state : Z) (m : Z -> Z) : Z -> Z :=
  if fix_pal_ntsc then
    let m := store_half (state + cube_side_frames) 10 m in
    let m := store_half (state + cube_corner_frames) 16 m in
    let m := store_mem (state + fall_anim_frames) [5] m in
    let m := store_mem (state + fall_delay_frames) [16] m in
    let m := store_mem (state + up_anim_frames) [18] m in
    let m := store_mem (state + up_delay_frames) [7] m in
    let m := store_mem (state + move_anim_frames) [10] m in
    let m := store_mem (state + move_delay_frames) [20] m in
    let m := store_mem (state + done_delay_frames) [40] m in
    let m := store_mem (state + logo_hold_frames) [60] m in
    let m := store_mem (state + logo_delay_frames) [5] m in
    let m := store_half (state + audio_cue_frames_b) 7 m in
    store_half (state + audio_cue_frames_c) 6 m
  else m.

(** The frames [pre_menu_init] lets pass before the animation. *)
Definition preboot_frames (ntsc : bool) (preboot_delay_ms : Z) : Z := preboot_delay_ms / (if ntsc then 60 else 50).
