(* ===== verification/HooksThms.v ===== *)
(** The boot animation is hidden while the splash runs, and the IPL is as it was
    at any other time; the game is started when the delay is over. *)

From S2P Require Import Prelude Mem Bits Ipl Hooks.

(** ** Words *)

Lemma load_word_store a v m : 0 <= v < 2 ^ 32 -> load_word a (store_word a v m) = v.
Proof.
  intros Hv. unfold load_word, store_word. rewrite (load_mem_eq a (be32_bytes v)). by apply be32_be32_bytes.
Qed.
Lemma load_word_store_ne a b v m : a + 4 <= b \/ b + 4 <= a -> load_word a (store_word b v m) = load_word a m.
Proof. intros. apply load_word_out. cbn [length be32_bytes]. lia. Qed.
Lemma load_word_range a m : (forall x, 0 <= m x < 256) -> 0 <= load_word a m < 2 ^ 32.
Proof.
  intros Hm. unfold load_word, be32.
  change (load_mem a 4 m) with [m (a + 0); m (a + 1); m (a + 2); m (a + 3)]. cbn [nth Nat.add].
  pose proof (Hm (a + 0)). pose proof (Hm (a + 1)). pose proof (Hm (a + 2)). pose proof (Hm (a + 3)). lia.
Qed.

(** ** The words that are swapped *)

(** Each with what hides it and the slot its other value is kept in. *)
Definition hidden_words (p : anim_ptrs) : list (Z * Z * (hooks_state -> Z)) :=
  [(anim_sound_level p, 0, saved_sound_level); (anim_draw_cubes p, NOP, saved_draw_cubes);
   (anim_draw_outer p, NOP, saved_draw_outer); (anim_draw_inner p, NOP, saved_draw_inner)].

Definition apart_words (a b : Z) : Prop := a + 4 <= b \/ b + 4 <= a.
Record ptrs_ok (p : anim_ptrs) : Prop := {
  words_apart : ForallOrdPairs apart_words
    [anim_sound_level p; anim_draw_cubes p; anim_draw_outer p; anim_draw_inner p; main_menu_id p];
  flag_apart : Forall (fun a => a + 4 <= cube_state p + cube_anim_done \/ cube_state p + cube_anim_done + 1 <= a)
    [anim_sound_level p; anim_draw_cubes p; anim_draw_outer p; anim_draw_inner p; main_menu_id p]
}.
Lemma ptrs_ok_of v : ptrs_ok (anim_ptrs_of v).
Proof. destruct v; split;
    repeat match goal with |- ForallOrdPairs _ _ => constructor | |- Forall _ _ => constructor end;
    unfold apart_words, cube_anim_done; cbn; lia. Qed.

Ltac apart_facts H :=
  let W := fresh in let F := fresh in
  destruct H as [W F]; unfold apart_words in W;
  repeat match goal with
         | H : ForallOrdPairs _ (_ :: _) |- _ => inversion H; clear H; subst
         | H : Forall _ (_ :: _) |- _ => inversion H; clear H; subst
         end.

(** One word and its slot: two values, in their places or exchanged. *)
Definition word_inv (a hid orig : Z) (slot : hooks_state -> Z) (w : hooks_state) : Prop :=
  if anim_hidden w then load_word a (hk_mem w) = hid /\ slot w = orig
  else load_word a (hk_mem w) = orig /\ slot w = hid.

Section Words.
Variable (p : anim_ptrs).
Hypothesis (Hp : ptrs_ok p).

Lemma set_anim_hidden_word a hid slot orig hide w : (a, hid, slot) ∈ hidden_words p -> 0 <= orig < 2 ^ 32 ->
  word_inv a hid orig slot w -> word_inv a hid orig slot (set_anim_hidden p hide w) /\ anim_hidden (set_anim_hidden p hide w) = hide.
Proof.
  intros Hin Ho Hi. unfold set_anim_hidden. destruct (Bool.eqb_spec hide (anim_hidden w)) as [->|Hne]; [done|].
  apart_facts Hp. unfold word_inv in *. unfold hidden_words in Hin. rewrite !elem_of_cons in Hin.
  assert (HN : 0 <= NOP < 2 ^ 32) by (unfold NOP; lia). assert (HZ : 0 <= 0 < 2 ^ 32) by lia.
  destruct Hin as [E|[E|[E|[E|E]]]]; [..|by apply elem_of_nil in E]; injection E as -> -> ->;
    cbn [swap_word anim_hidden hk_mem saved_sound_level saved_draw_cubes saved_draw_outer saved_draw_inner];
    repeat (rewrite load_word_store_ne by lia);
    destruct hide, (anim_hidden w); try (by destruct Hne); destruct Hi as [Hi1 Hi2];
    rewrite load_word_store by (rewrite Hi2; assumption); repeat (rewrite load_word_store_ne by lia); rewrite ?Hi1, ?Hi2; done.
Qed.

Lemma set_anim_hidden_menu_id hide w :
  load_word (main_menu_id p) (hk_mem (set_anim_hidden p hide w)) = load_word (main_menu_id p) (hk_mem w).
Proof.
  unfold set_anim_hidden. destruct (Bool.eqb _ _); [done|]. apart_facts Hp. cbn [swap_word hk_mem].
  by rewrite !load_word_store_ne by lia.
Qed.
End Words.

(** ** Histories *)

(** Between two calls the IPL runs, and changes its memory; the clock is asked at
    most twice in a call. *)
Record frame := mk_frame { ipl_runs : (Z -> Z) -> Z -> Z; first_clock : Z; second_clock : Z }.
Definition leaves (a : Z) (f : frame) : Prop := forall m x, a <= x < a + 4 -> ipl_runs f m x = m x.
Definition run_ipl (f : frame) (w : hooks_state) : hooks_state := set_hk_mem (ipl_runs f (hk_mem w)) w.
Fixpoint play (p : anim_ptrs) (skip delay : Z) (fs : list frame) (w : hooks_state) : list Z * hooks_state :=
  match fs with
  | [] => ([], w)
  | f :: fs =>
      let '(s, w) := bs2tick p skip delay (first_clock f) (second_clock f) (run_ipl f w) in
      let '(ss, w) := play p skip delay fs w in (s :: ss, w)
  end.
Lemma play_snoc p skip delay fs f w : play p skip delay (fs ++ [f]) w =
  let '(ss, w1) := play p skip delay fs w in
  let '(s, w2) := bs2tick p skip delay (first_clock f) (second_clock f) (run_ipl f w1) in (ss ++ [s], w2).
Proof.
  revert w. induction fs as [|g fs IH]; intros w; cbn [play app]; [by destruct (bs2tick _ _ _ _ _ _)|].
  destruct (bs2tick p skip delay (first_clock g) _ _) as [s w1]. rewrite IH.
  destruct (play p skip delay fs w1) as [ss w2]. by destruct (bs2tick _ _ _ _ _ _).
Qed.

(** What a call leaves of the variables the swap does not touch. *)
Lemma note_finished_same p now w : hk_mem (note_finished p now w) = hk_mem w /\
  anim_hidden (note_finished p now w) = anim_hidden w /\ (forall a hid orig slot, (a, hid, slot) ∈ hidden_words p ->
    word_inv a hid orig slot w -> word_inv a hid orig slot (note_finished p now w)).
Proof.
  unfold note_finished. destruct (_ && _); [|done]. split; [done|]. split; [done|]. intros a hid orig slot Hin.
  unfold hidden_words in Hin. rewrite !elem_of_cons in Hin. unfold word_inv. cbn.
  by destruct Hin as [E|[E|[E|[E|E]]]]; [..|by apply elem_of_nil in E]; injection E as -> -> ->.
Qed.

Section Ticks.
Variable (p : anim_ptrs) (skip delay : Z).
Hypothesis (Hp : ptrs_ok p) (Hskip : skip <> 0).

Lemma same_slot a hid slot : (a, hid, slot) ∈ hidden_words p -> forall w w',
  saved_sound_level w = saved_sound_level w' -> saved_draw_cubes w = saved_draw_cubes w' ->
  saved_draw_outer w = saved_draw_outer w' -> saved_draw_inner w = saved_draw_inner w' -> slot w = slot w'.
Proof.
  unfold hidden_words. rewrite !elem_of_cons.
  intros [E|[E|[E|[E|E]]]]; [..|by apply elem_of_nil in E]; injection E as -> -> ->; done.
Qed.

Lemma tick_word a hid slot orig f w s w' : (a, hid, slot) ∈ hidden_words p -> 0 <= orig < 2 ^ 32 -> leaves a f ->
  word_inv a hid orig slot w -> bs2tick p skip delay (first_clock f) (second_clock f) (run_ipl f w) = (s, w') ->
  word_inv a hid orig slot w' /\ anim_hidden w' = (load_word (main_menu_id p) (hk_mem w') =? 1) /\
  (anim_hidden w' = true -> hk_mem w' (cube_state p + cube_anim_done) = 1).
Proof.
  intros Hin Ho Hf Hi. unfold bs2tick. intros [= _ <-].
  set (w1 := set_frame_count _ (run_ipl f w)).
  assert (Hi1 : word_inv a hid orig slot w1).
  { unfold word_inv in *. rewrite (same_slot a hid slot Hin w1 w) by done.
    change (hk_mem w1) with (ipl_runs f (hk_mem w)). change (anim_hidden w1) with (anim_hidden w).
    unfold load_word in *. by rewrite (load_mem_ext a 4 (ipl_runs f (hk_mem w)) (hk_mem w)) by (intros; apply Hf; lia). }
  destruct (note_finished_same p (first_clock f) (hide_splash p skip w1)) as (Em & Eh & Hk).
  rewrite Em, Eh. clear Em Eh. cut (word_inv a hid orig slot (hide_splash p skip w1) /\
    anim_hidden (hide_splash p skip w1) = (load_word (main_menu_id p) (hk_mem (hide_splash p skip w1)) =? 1) /\
    (anim_hidden (hide_splash p skip w1) = true -> hk_mem (hide_splash p skip w1) (cube_state p + cube_anim_done) = 1)).
  { intros (? & ? & ?). split; [by apply Hk|done]. }
  clearbody w1. clear Hk. unfold hide_splash. rewrite (proj2 (Z.eqb_neq skip 0) Hskip).
  destruct (Z.eqb_spec (load_word (main_menu_id p) (hk_mem w1)) 1) as [E|E].
  - destruct (set_anim_hidden_word p Hp a hid slot orig true w1 Hin Ho Hi1) as [H1 H2].
    pose proof (set_anim_hidden_menu_id p Hp true w1) as H3. revert H1 H2 H3. generalize (set_anim_hidden p true w1). intros u H1 H2 H3.
    assert (Ha : a + 4 <= cube_state p + cube_anim_done \/ cube_state p + cube_anim_done + 1 <= a).
    { pose proof (flag_apart p Hp) as F. rewrite Forall_forall in F. apply F. unfold hidden_words in Hin.
      rewrite !elem_of_cons in Hin. rewrite !elem_of_cons.
      destruct Hin as [X|[X|[X|[X|X]]]]; [..|by apply elem_of_nil in X]; injection X as -> _ _; tauto. }
    assert (Hn : main_menu_id p + 4 <= cube_state p + cube_anim_done \/ cube_state p + cube_anim_done + 1 <= main_menu_id p).
    { pose proof (flag_apart p Hp) as F. rewrite Forall_forall in F. apply F. rewrite !elem_of_cons. tauto. }
    unfold word_inv in *. change (anim_hidden (set_hk_mem ?m u)) with (anim_hidden u). rewrite H2 in *.
    rewrite (same_slot a hid slot Hin _ u) by done. cbn [set_hk_mem hk_mem].
    rewrite !load_word_out by (cbn [length]; lia). rewrite H3, E. split; [done|]. split; [done|].
    intros _. rewrite store_mem_in by (cbn [length]; lia). by rewrite Z.sub_diag.
  - destruct (set_anim_hidden_word p Hp a hid slot orig false w1 Hin Ho Hi1) as [H1 H2].
    rewrite H2, (set_anim_hidden_menu_id p Hp). split; [done|]. split; [|done].
    by rewrite (proj2 (Z.eqb_neq _ 1) E).
Qed.

Lemma play_word a hid slot orig fs : (a, hid, slot) ∈ hidden_words p -> 0 <= orig < 2 ^ 32 -> Forall (leaves a) fs -> forall w,
  word_inv a hid orig slot w -> word_inv a hid orig slot (play p skip delay fs w).2.
Proof.
  intros Hin Ho. induction 1 as [|f fs Hf _ IH]; intros w Hi; [done|]. cbn [play].
  destruct (bs2tick _ _ _ _ _ _) as [s w1] eqn:E.
  destruct (tick_word a hid slot orig f w s w1 Hin Ho Hf Hi E) as (H1 & _).
  specialize (IH w1 H1). by destruct (play p skip delay fs w1).
Qed.
End Ticks.

(** ** The delay before the game *)

Lemma hide_splash_time p skip w : completed_time (hide_splash p skip w) = completed_time w /\
  start_passthrough_game (hide_splash p skip w) = start_passthrough_game w.
Proof. unfold hide_splash, set_anim_hidden. by repeat case_match. Qed.
Lemma note_finished_time p now w : start_passthrough_game (note_finished p now w) = start_passthrough_game w /\
  completed_time (note_finished p now w) =
    if (completed_time w =? 0) && negb (hk_mem w (cube_state p + cube_anim_done) =? 0) then now else completed_time w.
Proof. unfold note_finished. by destruct (_ && _). Qed.

Lemma tick_start p skip delay f w s w1 : bs2tick p skip delay (first_clock f) (second_clock f) (run_ipl f w) = (s, w1) ->
  start_passthrough_game w1 = start_passthrough_game w.
Proof.
  intros E. unfold bs2tick in E. injection E as _ <-. set (v := set_frame_count _ (run_ipl f w)).
  rewrite (proj1 (note_finished_time p (first_clock f) (hide_splash p skip v))).
  by rewrite (proj2 (hide_splash_time p skip v)).
Qed.
(** A call notes its time if none is noted and it leaves the animation done. *)
Lemma tick_time p skip delay f w s w1 : bs2tick p skip delay (first_clock f) (second_clock f) (run_ipl f w) = (s, w1) ->
  completed_time w1 = if (completed_time w =? 0) && negb (hk_mem w1 (cube_state p + cube_anim_done) =? 0)
                      then first_clock f else completed_time w.
Proof.
  intros E. unfold bs2tick in E. injection E as _ <-. set (v := set_frame_count _ (run_ipl f w)).
  rewrite (proj2 (note_finished_time p (first_clock f) (hide_splash p skip v))).
  rewrite (proj1 (note_finished_same p (first_clock f) (hide_splash p skip v))).
  by rewrite (proj1 (hide_splash_time p skip v)).
Qed.
Lemma play_start p skip delay fs w : start_passthrough_game (play p skip delay fs w).2 = start_passthrough_game w.
Proof.
  induction fs as [|f fs IH] using rev_ind; [done|]. rewrite play_snoc.
  destruct (play p skip delay fs w) as [ss w0]. destruct (bs2tick _ _ _ _ _ _) as [s w1] eqn:E. cbn [snd] in *.
  by rewrite (tick_start _ _ _ _ _ _ _ E).
Qed.

Section FirstDone.
Variables (p : anim_ptrs) (skip delay : Z) (w : hooks_state).
(** The animation is reported as done after these calls. *)
Definition done_after (fs : list frame) : Prop :=
  hk_mem (play p skip delay fs w).2 (cube_state p + cube_anim_done) <> 0.
(** [g] is the first call that leaves it done. *)
Definition first_done (fs : list frame) (g : frame) : Prop :=
  exists before after, fs = before ++ g :: after /\ done_after (before ++ [g]) /\
    forall gs, gs <> [] -> gs `prefix_of` before -> ~ done_after gs.

(** The time noted is that of the first call that leaves the animation done. *)
Lemma play_time fs : completed_time w = 0 -> Forall (fun f => 0 < first_clock f) fs ->
  completed_time (play p skip delay fs w).2 = 0 /\ (forall gs, gs <> [] -> gs `prefix_of` fs -> ~ done_after gs) \/
  exists g, first_done fs g /\ completed_time (play p skip delay fs w).2 = first_clock g /\ 0 < first_clock g.
Proof.
  intros H0. induction fs as [|f fs IH] using rev_ind; intros Hc.
  { left. split; [done|]. intros gs Hgs Hp. by apply prefix_nil_inv in Hp. }
  apply Forall_app in Hc as [Hc [Hf _]%Forall_cons].
  assert (Hd : forall w1, (play p skip delay (fs ++ [f]) w).2 = w1 ->
    completed_time w1 = if (completed_time (play p skip delay fs w).2 =? 0) &&
      negb (hk_mem w1 (cube_state p + cube_anim_done) =? 0) then first_clock f else completed_time (play p skip delay fs w).2).
  { intros w1 <-. rewrite play_snoc. destruct (play p skip delay fs w) as [ss w0]. cbn [snd].
    destruct (bs2tick _ _ _ _ _ _) as [s w1] eqn:E. exact (tick_time _ _ _ _ _ _ _ E). }
  specialize (Hd _ eq_refl). destruct (IH Hc) as [[Ht Hn]|(g & (before & after & -> & Hg & Hn) & Ht & Hpos)]; clear IH.
  - rewrite Ht in Hd. change (0 =? 0) with true in Hd. cbn [andb] in Hd.
    destruct (Z.eqb_spec (hk_mem (play p skip delay (fs ++ [f]) w).2 (cube_state p + cube_anim_done)) 0) as [E|E]; cbn [negb] in Hd.
    + left. split; [done|]. intros gs Hgs [r Hr]. destruct r as [|x r _] using rev_ind.
      * rewrite app_nil_r in Hr. subst gs. by intros ?.
      * rewrite app_assoc in Hr. apply app_inj_tail in Hr as [-> _]. apply Hn; [done|]. by exists r.
    + right. exists f. split; [|done]. exists fs, []. by split_all.
  - right. exists g. rewrite Ht, (proj2 (Z.eqb_neq _ 0)) in Hd by lia. split; [|done].
    exists before, (after ++ [f]). split; [by rewrite <- app_assoc|]. by split.
Qed.
End FirstDone.

Lemma next_state_delayed p delay later w : start_passthrough_game w <> 0 -> delay <> 0 ->
  next_state p delay later w = STATE_START_GAME <-> 0 < completed_time w /\ delay < diff_msec (completed_time w) later.
Proof.
  intros Hs Hd. unfold next_state. rewrite (proj2 (Z.eqb_neq _ _) Hs), (proj2 (Z.eqb_neq _ _) Hd). cbn [negb].
  destruct (Z.ltb_spec 0 (completed_time w)), (Z.ltb_spec delay (diff_msec (completed_time w) later)); cbn [andb];
    unfold STATE_START_GAME, STATE_WAIT_LOAD; split; (done || lia).
Qed.

(** Times less than 49 days apart are told apart to the millisecond. *)
Lemma diff_msec_spec a b : 0 <= a <= b -> b < 2 ^ 64 -> (b - a) / TB_TIMER_CLOCK < 2 ^ 32 ->
  diff_msec a b = (b - a) / TB_TIMER_CLOCK.
Proof.
  intros Ha Hb Hd. unfold diff_msec, diff_ticks. rewrite (proj2 (Z.ltb_ge b a)) by lia.
  unfold u64, u32. rewrite (Z.mod_small (b - a)) by lia. apply Z.mod_small. split; [|done].
  apply Z.div_pos; [lia|]. by vm_compute.
Qed.

(** ** From the start *)

Lemma start_word p a hid slot m passthrough : (a, hid, slot) ∈ hidden_words p ->
  word_inv a hid (load_word a m) slot (hooks_start m passthrough).
Proof.
  unfold hidden_words, word_inv. rewrite !elem_of_cons. cbn.
  intros [E|[E|[E|[E|E]]]]; [..|by apply elem_of_nil in E]; injection E as -> -> ->; done.
Qed.

Lemma play_from_start p skip delay passthrough m fs f ss w a hid slot : ptrs_ok p -> skip <> 0 ->
  (forall x, 0 <= m x < 256) ->
  play p skip delay (fs ++ [f]) (hooks_start m passthrough) = (ss, w) ->
  (a, hid, slot) ∈ hidden_words p -> Forall (leaves a) (fs ++ [f]) ->
  let splash := load_word (main_menu_id p) (hk_mem w) =? 1 in
  load_word a (hk_mem w) = (if splash then hid else load_word a m) /\
  (splash = true -> hk_mem w (cube_state p + cube_anim_done) = 1).
Proof.
  intros Hp Hskip Hm E Hin [Hfs [Hf _]%Forall_cons]%Forall_app splash. rewrite play_snoc in E.
  pose proof (load_word_range a m Hm) as Ho.
  pose proof (play_word p skip delay Hp Hskip a hid slot _ fs Hin Ho Hfs _ (start_word p a hid slot m passthrough Hin)) as H1.
  destruct (play p skip delay fs _) as [ss1 w1]. cbn [snd] in H1.
  destruct (bs2tick _ _ _ _ _ _) as [s w2] eqn:Et. injection E as _ <-.
  destruct (tick_word p skip delay Hp Hskip a hid slot _ f w1 s w2 Hin Ho Hf H1 Et) as (H2 & H3 & H4).
  unfold word_inv in H2. unfold splash. rewrite <- H3. split; [|done]. destruct (anim_hidden w2); tauto.
Qed.

Lemma play_unchanged p delay fs : forall w, hk_mem (play p 0 delay fs w).2 = fold_left (fun m f => ipl_runs f m) fs (hk_mem w).
Proof.
  induction fs as [|f fs IH]; intros w; cbn [play fold_left]; [done|].
  destruct (bs2tick _ _ _ _ _ _) as [s w1] eqn:E. specialize (IH w1).
  destruct (play p 0 delay fs w1) as [ss w2]. cbn [snd] in *. rewrite IH. f_equal.
  unfold bs2tick in E. injection E as _ <-.
  match goal with |- context [note_finished p _ ?v] => by destruct (note_finished_same p (first_clock f) v) as (-> & _) end.
Qed.

Lemma play_last p skip delay fs f w : exists w1,
  (play p skip delay (fs ++ [f]) w).2 = w1 /\
  last (play p skip delay (fs ++ [f]) w).1 = Some (next_state p delay (second_clock f) w1).
Proof.
  rewrite play_snoc. destruct (play p skip delay fs w) as [ss w0]. unfold bs2tick. cbn [fst snd].
  eexists. split; [reflexivity|]. by rewrite last_snoc.
Qed.

(** C37. The boot animation is hidden while the boot splash runs, and only then.
    Whatever the IPL does between the calls, after every call of [bs2tick] each of
    its four words that it leaves alone itself - three calls that draw and a sound
    level - holds what hides the animation if the splash is running, and its own
    content otherwise, however often that changed; while it is hidden the
    animation is reported as done.  Where the setting is off the IPL's memory is
    never changed.  A game in the drive that is to be started after a delay is
    started only at a call whose clock - a clock that is past zero - is more than
    the delay later than that of the first call that left the animation reported
    as done. *)
Theorem splash_is_hidden v skip delay passthrough m fs f ss w :
  (forall x, 0 <= m x < 256) ->
  play (anim_ptrs_of v) skip delay (fs ++ [f]) (hooks_start m passthrough) = (ss, w) ->
  let p := anim_ptrs_of v in
  let splash := load_word (main_menu_id p) (hk_mem w) =? 1 in
  (skip <> 0 ->
   (forall a hid slot, (a, hid, slot) ∈ hidden_words p -> Forall (leaves a) (fs ++ [f]) ->
      load_word a (hk_mem w) = if splash then hid else load_word a m) /\
   (Forall (leaves (anim_draw_cubes p)) (fs ++ [f]) -> splash = true -> hk_mem w (cube_state p + cube_anim_done) = 1)) /\
  (skip = 0 -> hk_mem w = fold_left (fun m f => ipl_runs f m) (fs ++ [f]) m) /\
  (passthrough <> 0 -> delay <> 0 -> last ss = Some STATE_START_GAME ->
   Forall (fun f => 0 < first_clock f) (fs ++ [f]) ->
   exists g, first_done p skip delay (hooks_start m passthrough) (fs ++ [f]) g /\
     delay < diff_msec (first_clock g) (second_clock f)).
Proof.
  intros Hm E p splash. pose proof (ptrs_ok_of v) as Hp. fold p in E, Hp. split; [|split].
  - intros Hskip. split.
    + intros a hid slot Hin Hall. by apply (play_from_start p skip delay passthrough m fs f ss w a hid slot).
    + intros Hall. apply (play_from_start p skip delay passthrough m fs f ss w (anim_draw_cubes p) NOP saved_draw_cubes); try done.
      unfold hidden_words. rewrite !elem_of_cons. tauto.
  - intros ->. pose proof (play_unchanged p delay (fs ++ [f]) (hooks_start m passthrough)) as H. rewrite E in H. exact H.
  - intros Hpass Hdelay Hlast Hclock. destruct (play_last p skip delay fs f (hooks_start m passthrough)) as (w1 & Hw & Hl).
    pose proof (play_start p skip delay (fs ++ [f]) (hooks_start m passthrough)) as Hs.
    pose proof (play_time p skip delay (hooks_start m passthrough) (fs ++ [f]) eq_refl Hclock) as Ht. rewrite E in Hw, Hl, Hs, Ht.
    cbn [fst snd] in *. subst w1. rewrite Hlast in Hl. injection Hl as Hl. symmetry in Hl.
    apply next_state_delayed in Hl as [Hpos Hmore]; [|by rewrite Hs|done].
    destruct Ht as [[Ht _]|(g & Hg & Ht & _)]; [lia|]. exists g. rewrite <- Ht. by split.
Qed.

(** Three frames: the menu is not up yet, the splash runs, the menu is there. *)
Definition menu_becomes (id : Z) (now : Z) : frame :=
  mk_frame (store_mem (main_menu_id (anim_ptrs_of IPL_NTSC_10)) (be32_bytes id)) now now.
Definition three_frames : list frame := [menu_becomes 0 1; menu_becomes 1 40500; menu_becomes 1 (40500 * 20); menu_becomes 3 (40500 * 30)].
Lemma three_frames_leave a hid slot : (a, hid, slot) ∈ hidden_words (anim_ptrs_of IPL_NTSC_10) -> Forall (leaves a) three_frames.
Proof.
  unfold hidden_words. rewrite !elem_of_cons. cbn. intros Hin. unfold three_frames, menu_becomes, leaves.
  repeat match goal with |- Forall _ _ => constructor end; intros m x Hx; cbn [ipl_runs]; apply store_mem_out; cbn;
    destruct Hin as [X|[X|[X|[X|X]]]]; try (by apply elem_of_nil in X); injection X as -> _ _; lia.
Qed.
Example three_frames_states :
  (play (anim_ptrs_of IPL_NTSC_10) 1 10 three_frames (hooks_start (fun _ => 0x38) 1)).1 =
    [STATE_WAIT_LOAD; STATE_WAIT_LOAD; STATE_START_GAME; STATE_START_GAME].
Proof. by vm_compute. Qed.
Lemma splash_is_hidden_witness :
  load_word 0x8131055c (hk_mem (play (anim_ptrs_of IPL_NTSC_10) 1 10 (take 2 three_frames) (hooks_start (fun _ => 0x38) 1)).2) = NOP /\
  load_word 0x8131055c (hk_mem (play (anim_ptrs_of IPL_NTSC_10) 1 10 three_frames (hooks_start (fun _ => 0x38) 1)).2) = 0x38383838 /\
  exists g, first_done (anim_ptrs_of IPL_NTSC_10) 1 10 (hooks_start (fun _ => 0x38) 1) three_frames g /\
    10 < diff_msec (first_clock g) (40500 * 30).
Proof.
  assert (Hb : forall x : Z, 0 <= (fun _ : Z => 0x38) x < 256) by (intros x; cbn beta; lia).
  assert (Hin : (0x8131055c, NOP, saved_draw_cubes) ∈ hidden_words (anim_ptrs_of IPL_NTSC_10)).
  { unfold hidden_words. rewrite !elem_of_cons. right. left. reflexivity. }
  split; [|split].
  - destruct (splash_is_hidden IPL_NTSC_10 1 10 1 (fun _ => 0x38) [menu_becomes 0 1] (menu_becomes 1 40500) _ _ Hb
      (surjective_pairing _)) as [H _].
    destruct (H ltac:(lia)) as [H1 _]. etransitivity; [apply (H1 0x8131055c NOP saved_draw_cubes Hin)|].
    + exact (Forall_take _ 2 _ (three_frames_leave _ _ _ Hin)).
    + vm_compute. reflexivity.
  - destruct (splash_is_hidden IPL_NTSC_10 1 10 1 (fun _ => 0x38) (take 3 three_frames) (menu_becomes 3 (40500 * 30)) _ _ Hb
      (surjective_pairing _)) as [H _].
    destruct (H ltac:(lia)) as [H1 _]. etransitivity; [apply (H1 0x8131055c NOP saved_draw_cubes Hin)|].
    + exact (three_frames_leave _ _ _ Hin).
    + vm_compute. reflexivity.
  - destruct (splash_is_hidden IPL_NTSC_10 1 10 1 (fun _ => 0x38) (take 3 three_frames) (menu_becomes 3 (40500 * 30)) _ _ Hb
      (surjective_pairing _)) as (_ & _ & H). apply H; [lia|lia|vm_compute; reflexivity|].
    repeat constructor.
Defined.
