(* ===== verification/GmPaths.v ===== *)
(** The game list's paths (src/patches/source/games.c, lines 454 to 613, 1002 to
    1012 and 1165 to 1199): which files of a directory are listed and in which
    order, and the directory the list shows.  The string routines are those of
    src/patches/source/picolibc. *)

From Stdlib Require Import String.
From S2P Require Import Prelude CStr Di Fdrv FlippyEmu Qsort.
#[local] Open Scope prog_scope.

(** ** picolibc

    On the bytes of a string, its terminator apart; a pointer into the string is
    the string from there on. *)

Fixpoint strchr (s : list Z) (c : Z) : option (list Z) :=
  match s with
  | [] => if c =? 0 then Some [] else None
  | x :: t => if x =? c then Some s else strchr t c
  end.

(** [strrchr] for a character other than NUL; every round moves the pointer. *)
Fixpoint strrchr_rounds (fuel : nat) (s : list Z) (c : Z) (last : option (list Z)) : option (list Z) :=
  match fuel with
  | O => last
  | S fuel =>
      match strchr s c with
      | None => last
      | Some s => strrchr_rounds fuel (tail s) c (Some s)
      end
  end.
Definition strrchr (s : list Z) (c : Z) : option (list Z) :=
  if c =? 0 then strchr s c else strrchr_rounds (S (length s)) s c None.

Definition my_tolower (c : Z) : Z := if (c >? 64) && (c <? 91) then c + 32 else c.
Fixpoint strcasecmp (s1 s2 : list Z) : Z :=
  let c1 := my_tolower (hd 0 s1) in
  let c2 := my_tolower (hd 0 s2) in
  let d := c1 - c2 in
  match s1, s2 with
  | _ :: s1, _ :: s2 => if negb (d =? 0) then d else strcasecmp s1 s2
  | _, _ => d
  end.

(** ** Which files are listed *)

Inductive gm_file_type_t := FILE_UNKNOWN | FILE_DIRECTORY | FILE_PROGRAM | FILE_GAME.
#[export] Instance gm_file_type_eq_dec : EqDecision gm_file_type_t.
Proof. solve_decision. Defined.

Definition chr_dot : Z := 46.
Definition chr_slash : Z := 47.
Definition chr_tilde : Z := 126.

Definition valid_game_exts : list (list Z) := str <$> [".gcm"; ".iso"; ".fdi"]%string.
Definition valid_prog_exts : list (list Z) := str <$> [".dol"; ".dol+cli"]%string.
Definition same_name (s t : list Z) : bool := strcasecmp s t =? 0.

Definition gm_get_file_type (path : list Z) : gm_file_type_t :=
  match strrchr path chr_dot with
  | None => FILE_UNKNOWN
  | Some ext =>
      if existsb (same_name ext) valid_game_exts then FILE_GAME
      else if existsb (same_name ext) valid_prog_exts then FILE_PROGRAM
      else FILE_UNKNOWN
  end.

Definition hidden_file_names : list (list Z) :=
  str <$> ["$RECYCLE.BIN"; "System Volume Information"; "Recovery"; "swiss"; "MCBACKUP"]%string.
(** [name] is not empty: the code reads its last character. *)
Definition check_file_hidden (name : list Z) : bool :=
  (hd 0 name =? chr_dot) || (hd 0 name =? chr_tilde) || (default 0 (last name) =? chr_tilde)
  || existsb (same_name name) hidden_file_names.

Definition FILE_ATTRIB_FLAG_HIDDEN : Z := 0x02.
Definition MAX_LISTED : nat := 1920.
Definition PATH_SIZE : nat := 128.

(** [file_entry_t] in memory: name, type and attributes. *)
Definition ent_name (ent : list Z) : list Z := cstr ent.
Definition ent_type (ent : list Z) : Z := nth 256 ent 0.
Definition ent_attrib (ent : list Z) : Z := nth 278 ent 0.

(** What an entry is listed as, if it is. *)
Definition listed_type (ent : list Z) : gm_file_type_t :=
  if ent_type ent =? FILE_ENTRY_TYPE_DIR then FILE_DIRECTORY
  else gm_get_file_type (ent_name ent).
Definition skipped (ent : list Z) : bool :=
  negb (Z.land (ent_attrib ent) FILE_ATTRIB_FLAG_HIDDEN =? 0) || check_file_hidden (ent_name ent)
  || bool_decide (listed_type ent = FILE_UNKNOWN).

(** The directory calls of the storage dispatch. *)
Class DirDevice (W : Type) := {
  dir_open : list Z -> M W Z;
  dir_status : M W (option (list Z));
  dir_readdir : list Z -> Z -> M W (Z * list Z);
  dir_close : Z -> M W unit
}.

Record gm_path_entry_t := mk_path { path : list Z; path_type : gm_file_type_t }.

Section Listing.
Context {W : Type} `{DirDevice W}.

(** [__gm_early_path_list], [__gm_sorted_path_list] (as indices into it), the
    static [ent] of [gm_list_files], the device. *)
Record gm_lists := mk_lists {
  early : list gm_path_entry_t;
  sorted : list nat;
  ent : list Z;
  lists_dev : W
}.
Notation P := (M gm_lists).
Definition set_dir_dev (d : W) (w : gm_lists) := mk_lists (early w) (sorted w) (ent w) d.
Definition on_dir {A} (m : M W A) : P A := zoom lists_dev set_dir_dev m.

(** Storing the path of entry number [count]. *)
Definition store_path (count : nat) (p : list Z) (t : gm_file_type_t) : P unit :=
  fun w =>
    match early w !! count with
    | None => None
    | Some e =>
        match strcpy (path e) p with
        | None => None
        | Some b => Some (tt, mk_lists (<[count := mk_path b t]> (early w))
                                (<[count := count]> (sorted w)) (ent w) (lists_dev w))
        end
    end.

(** The loop over the directory, with fuel; [ipl_panic] does not come back. *)
Fixpoint list_rounds (fuel : nat) (target_dir : list Z) (dir_fd : Z) (count : nat) (buf : list Z) :
    P nat :=
  match fuel with
  | O => spin
  | S fuel =>
      w <- get ;;
      '(r, e) <- on_dir (dir_readdir (ent w) dir_fd) ;;
      modify (fun w => mk_lists (early w) (sorted w) e (lists_dev w)) ;;
      if negb (r =? 0) then spin
      else if nth 0 e 0 =? 0 then ret count
      else if skipped e then list_rounds fuel target_dir dir_fd count buf
      else
        buf <- of_option (strcpy buf target_dir) ;;
        buf <- of_option (strcat buf (ent_name e)) ;;
        store_path count (cstr buf) (listed_type e) ;;
        if (MAX_LISTED <=? S count)%nat then ret (S count)
        else list_rounds fuel target_dir dir_fd (S count) buf
  end.

(** [gm_list_info]: the number of paths, [None] when the directory would not
    open. *)
Definition gm_list_files (fuel : nat) (target_dir : list Z) : P (option nat) :=
  r <- on_dir (dir_open target_dir) ;;
  if negb (r =? 0) then ret None
  else
    status <- on_dir dir_status ;;
    match status with
    | None => ret None
    | Some blob =>
        if negb (blob_result blob =? 0) then ret None
        else
          let dir_fd := blob_fd blob in
          n <- list_rounds fuel target_dir dir_fd 0 (replicate PATH_SIZE 0) ;;
          on_dir (dir_close dir_fd) ;;
          ret (Some n)
    end.

(** The entry a sorted-list pointer points at. *)
Definition listed (w : gm_lists) (i : nat) : option gm_path_entry_t :=
  k ← sorted w !! i; early w !! k.

Definition gm_cmp_path_entry (a b : gm_path_entry_t) : Z := strcasecmp (cstr (path a)) (cstr (path b)).

(** [gm_sort_files]: [qsort] of the first [path_count] pointers, which never
    nests more than one call. *)
Definition no_path : gm_path_entry_t := mk_path [] FILE_UNKNOWN.
Definition cmp_pointers (e : list gm_path_entry_t) (a b : nat) : Z :=
  gm_cmp_path_entry (nth a e no_path) (nth b e no_path).
Definition set_sorted (s : list nat) (w : gm_lists) := mk_lists (early w) s (ent w) (lists_dev w).
Definition gm_sort_files (path_count : nat) : P unit :=
  w <- get ;; zoom sorted set_sorted (qsort (cmp_pointers (early w)) 1 0 path_count).

(** The worker thread's listing of the directory shown. *)
Definition list_and_sort (fuel : nat) (target : list Z) : P (option nat) :=
  r <- gm_list_files fuel target ;;
  match r with
  | None => ret None
  | Some n => gm_sort_files n ;; ret (Some n)
  end.
End Listing.

Arguments gm_lists W : clear implicits.

(** The storage dispatch of the IPL build. *)
#[export] Instance emu_dirs {B F} `{DiBus B, DiscDrive B, FatFs F B} : DirDevice (emu_state B F) := {
  dir_open p := dvd_custom_open (flippy_emu_mount true MOUNT_DEPTH) p FILE_ENTRY_TYPE_DIR 0;
  dir_status := dvd_custom_status_ipl (replicate file_status_size 0);
  dir_readdir := dvd_custom_readdir;
  dir_close := dvd_custom_close
}.

(** ** The directory shown *)

(** [p[i] = 0] in a buffer. *)
Definition cut_at (i : nat) (b : list Z) : option (list Z) :=
  if decide (i < length b)%nat then Some (<[i := 0]> b) else None.

(** Popping the last element of [game_enum_path]. *)
Definition pop_path (enum : list Z) : option (list Z) :=
  match length (cstr enum) with
  | O => None
  | S n =>
      enum ← cut_at n enum;
      enum ← match strrchr (cstr enum) chr_slash with
             | Some s => cut_at (length (cstr enum) - length s) enum
             | None => Some enum
             end;
      if (length (cstr enum) =? 0)%nat then Some (splice 0 [chr_slash; 0] enum) else Some enum
  end.

(** The path part of [gm_start_thread]: [game_enum_path] afterwards. *)
Definition start_path (enum target : list Z) : option (list Z) :=
  r ← (if bool_decide (target = str "..")
       then enum ← pop_path enum; Some (enum, cstr enum)
       else Some (enum, target));
  let '(enum, target) := (r : list Z * list Z) in
  p ← strcpy (replicate PATH_SIZE 0) target;
  p ← match last (cstr p) with
      | None => None
      | Some c => if c =? chr_slash then Some p else strcat p (str "/")
      end;
  strcpy enum (cstr p).

(** [gm_setup_grid]: [number_of_lines] for so many entries. *)
Definition gm_setup_grid (line_count : Z) : Z :=
  let number_of_lines := Z.shiftr (line_count + 7) 3 in
  if number_of_lines <? 4 then 4 else number_of_lines.
