(* ===== verification/GmPathsThms.v ===== *)
(** The game list shows what the directory holds: its listed entries in
    alphabetical order, and going into a directory and back out again. *)

From Stdlib Require Import String Sorted.
From S2P Require Import Prelude Bits CStr Di Fdrv FlippyEmu Qsort QsortThms GmPaths.
#[local] Open Scope prog_scope.

(** ** Comparing names *)

Lemma eqb_bool_decide a b (P : Prop) `{Decision P} : (a = b <-> P) -> (a =? b) = bool_decide P.
Proof.
  intros HP. destruct (Z.eqb_spec a b); symmetry;
    [apply bool_decide_eq_true|apply bool_decide_eq_false]; tauto.
Qed.

Lemma my_tolower_nz c : c <> 0 -> my_tolower c <> 0.
Proof. unfold my_tolower. intros. destruct ((c >? 64) && (c <? 91)) eqn:E; [|done].
  apply andb_prop in E as [?%Z.gtb_lt _]. lia. Qed.

Lemma strcasecmp_opp s t : strcasecmp t s = - strcasecmp s t.
Proof.
  revert t. induction s as [|x s IH]; intros [|y t]; cbn; try lia.
  rewrite IH. replace (my_tolower y - my_tolower x =? 0) with (my_tolower x - my_tolower y =? 0).
  - destruct (my_tolower x - my_tolower y =? 0); cbn; lia.
  - destruct (Z.eqb_spec (my_tolower x - my_tolower y) 0),
      (Z.eqb_spec (my_tolower y - my_tolower x) 0); lia || done.
Qed.

Definition no_nul (s : list Z) : Prop := Forall (fun c => c <> 0) s.
Lemma cstr_no_nul m : no_nul (cstr m).
Proof.
  induction m as [|c m IH]; cbn; [constructor|]. destruct (Z.eqb_spec c 0); by constructor.
Qed.

Lemma strcasecmp_trans s t u :
  no_nul s -> no_nul t -> no_nul u ->
  strcasecmp s t <= 0 -> strcasecmp t u <= 0 -> strcasecmp s u <= 0.
Proof.
  intros Hs. revert t u.
  induction Hs as [|x s Hx Hs IH]; intros t u Ht Hu; destruct Ht as [|y t Hy Ht];
    destruct Hu as [|z u Hz Hu]; cbn;
    change (my_tolower 0) with 0;
    try apply my_tolower_nz in Hx; try apply my_tolower_nz in Hy; try apply my_tolower_nz in Hz;
    intros H1 H2;
    repeat match goal with
    | H : context [?a =? 0] |- _ => destruct (Z.eqb_spec a 0); cbn in H
    | |- context [?a =? 0] => destruct (Z.eqb_spec a 0); cbn
    end; try lia. eauto.
Qed.

#[export] Instance path_comparison e : Comparison (cmp_pointers e).
Proof.
  split; intros; unfold cmp_pointers, gm_cmp_path_entry in *.
  - rewrite (strcasecmp_opp (cstr (path (nth x e no_path)))). lia.
  - eapply strcasecmp_trans; eauto using cstr_no_nul.
Qed.

(** ** The last slash *)

Lemma strchr_none r c : c <> 0 -> c ∉ r -> strchr r c = None.
Proof.
  intros H0. induction r as [|x r IH]; cbn; intros Hr.
  - by destruct (Z.eqb_spec c 0).
  - apply not_elem_of_cons in Hr as [? ?]. destruct (Z.eqb_spec x c); [congruence|auto].
Qed.

Lemma strrchr_rounds_last fuel a c r l :
  c <> 0 -> c ∉ r -> (length (a ++ c :: r) < fuel)%nat ->
  strrchr_rounds fuel (a ++ c :: r) c l = Some (c :: r).
Proof.
  intros H0 Hr. revert a l. induction fuel as [|fuel IH]; intros a l Hf; [lia|].
  induction a as [|x a IHa]; cbn [app].
  - cbn. rewrite Z.eqb_refl. destruct fuel; cbn; [done|]. by rewrite strchr_none.
  - cbn. destruct (Z.eqb_spec x c) as [->|].
    + apply IH. cbn in Hf. lia.
    + apply IHa. cbn in *. lia.
Qed.

Lemma strrchr_last a c r : c <> 0 -> c ∉ r -> strrchr (a ++ c :: r) c = Some (c :: r).
Proof.
  intros H0 Hr. unfold strrchr. destruct (Z.eqb_spec c 0); [done|].
  apply strrchr_rounds_last; [done|done|lia].
Qed.

Lemma strrchr_rounds_none fuel s c l : c <> 0 -> c ∉ s -> strrchr_rounds fuel s c l = l.
Proof. intros. destruct fuel; cbn; [done|]. by rewrite strchr_none. Qed.

(** ** Which entries a directory's list shows *)

Definition lower (s : list Z) : list Z := my_tolower <$> s.

Lemma strcasecmp_0 s t : no_nul s -> no_nul t -> strcasecmp s t = 0 <-> lower s = lower t.
Proof.
  intros Hs. revert t.
  induction Hs as [|x s Hx Hs IH]; intros t Ht; destruct Ht as [|y t Hy Ht]; cbn;
    change (my_tolower 0) with 0; try apply my_tolower_nz in Hx; try apply my_tolower_nz in Hy.
  - done.
  - split; [lia|done].
  - split; [lia|done].
  - destruct (Z.eqb_spec (my_tolower x - my_tolower y) 0); cbn.
    + rewrite IH by done. unfold lower. split; [intros ->; f_equal; lia|by intros [=]].
    + split; [lia|]. intros [=]. lia.
Qed.

Lemma same_name_spec s t : no_nul s -> no_nul t -> same_name s t = bool_decide (lower s = lower t).
Proof.
  intros. apply eqb_bool_decide. by apply strcasecmp_0.
Qed.

(** Some name of the list, regardless of case. *)
Lemma any_name_spec s names :
  no_nul s -> Forall no_nul names ->
  existsb (same_name s) names = bool_decide (lower s ∈ lower <$> names).
Proof.
  intros Hs. induction 1 as [|t names Ht Hn IH]; cbn; [done|].
  rewrite IH, same_name_spec by done. symmetry. rewrite <- bool_decide_or.
  apply bool_decide_ext. by rewrite elem_of_cons.
Qed.

(** A file of one of the given kinds, by the end of its name. *)
Definition ends_in (exts : list (list Z)) (name : list Z) : Prop :=
  Exists (fun x => x `suffix_of` lower name) exts.
#[export] Instance ends_in_dec exts name : Decision (ends_in exts name).
Proof. unfold ends_in. apply _. Defined.

Lemma last_sep_unique {A} (c : A) a r b t :
  a ++ c :: r = b ++ c :: t -> c ∉ r -> c ∉ t -> r = t.
Proof.
  revert b. induction a as [|x a IH]; intros [|y b] E Hr Ht; cbn in E.
  - by injection E.
  - injection E as -> ->. destruct Hr. apply elem_of_app. right. by left.
  - injection E as -> <-. destruct Ht. apply elem_of_app. right. by left.
  - injection E as -> E. by apply (IH b).
Qed.

Lemma lower_dot c : my_tolower c = chr_dot -> c = chr_dot.
Proof.
  unfold my_tolower, chr_dot. destruct ((c >? 64) && (c <? 91)) eqn:E; [|done].
  apply andb_prop in E as [?%Z.gtb_lt _]. lia.
Qed.

Lemma dot_in_lower s : chr_dot ∈ lower s -> chr_dot ∈ s.
Proof. intros (c & E & Hc)%list_elem_of_fmap. by rewrite <- (lower_dot c). Qed.

(** Extensions as the tables hold them: in lower case, from their only dot on. *)
Definition extension (x : list Z) : Prop :=
  no_nul x /\ lower x = x /\ exists t, x = chr_dot :: t /\ chr_dot ∉ t.

Lemma ends_in_spec exts a r :
  Forall extension exts -> chr_dot ∉ r -> no_nul (chr_dot :: r) ->
  existsb (same_name (chr_dot :: r)) exts = bool_decide (ends_in exts (a ++ chr_dot :: r)).
Proof.
  intros Hx Hr Hn. rewrite any_name_spec;
    [|done|eapply Forall_impl; [exact Hx|]; by intros ? []].
  apply bool_decide_ext. unfold ends_in. rewrite Exists_exists, list_elem_of_fmap.
  rewrite Forall_forall in Hx. split.
  - intros (x & E & Hin). exists x. split; [done|]. destruct (Hx x Hin) as (_ & <- & _).
    exists (lower a). rewrite <- E. unfold lower. by rewrite fmap_app.
  - intros (x & Hin & k & E). exists x. split; [|done].
    destruct (Hx x Hin) as (_ & -> & t & -> & Ht).
    unfold lower in *. rewrite fmap_app in E. cbn in E |- *. change (my_tolower chr_dot) with chr_dot in *.
    f_equal. apply (last_sep_unique chr_dot (lower a) _ k); [done| |done].
    intros Hd. by apply Hr, dot_in_lower.
Qed.

Lemma no_ending exts s : Forall extension exts -> chr_dot ∉ s -> ~ ends_in exts s.
Proof.
  intros Hx Hs (x & Hin & k & E)%Exists_exists. rewrite Forall_forall in Hx.
  destruct (Hx x Hin) as (_ & _ & t & -> & _). apply Hs, dot_in_lower. rewrite E.
  apply elem_of_app. right. by left.
Qed.

Lemma game_exts_ok : Forall extension valid_game_exts /\ Forall extension valid_prog_exts.
Proof.
  split; repeat constructor; try done; eexists; (split; [reflexivity|]);
    apply (bool_decide_unpack _); vm_compute; exact I.
Qed.

Lemma gm_get_file_type_spec name :
  no_nul name ->
  gm_get_file_type name =
    if decide (ends_in valid_game_exts name) then FILE_GAME
    else if decide (ends_in valid_prog_exts name) then FILE_PROGRAM else FILE_UNKNOWN.
Proof.
  intros Hn. destruct game_exts_ok as [Hg Hp]. unfold gm_get_file_type.
  destruct (decide (chr_dot ∈ name)) as [(a & r & -> & Hr)%list_elem_of_split_r|Hd].
  - rewrite strrchr_last by done. apply Forall_app in Hn as [_ Hn].
    rewrite !(ends_in_spec _ a r) by done. by repeat case_bool_decide; repeat case_decide.
  - replace (strrchr name chr_dot) with (@None (list Z)).
    2: { unfold strrchr. cbn [Z.eqb]. by rewrite strrchr_rounds_none. }
    rewrite !decide_False by (by apply no_ending). done.
Qed.

(** A name that is not shown. *)
Definition hidden_name (n : list Z) : Prop :=
  head n = Some chr_dot \/ head n = Some chr_tilde \/ last n = Some chr_tilde \/
  lower n ∈ lower <$> hidden_file_names.
#[export] Instance hidden_name_dec n : Decision (hidden_name n).
Proof. unfold hidden_name. apply _. Defined.

(** What a directory entry is listed as: nothing if its hidden attribute is set
    or its name is one of a hidden file; a directory; a game or a program by the
    end of its name; nothing otherwise. *)
Definition entry_kind (e : list Z) : option gm_file_type_t :=
  if decide (Z.testbit (ent_attrib e) 1 = true \/ hidden_name (ent_name e)) then None
  else if decide (ent_type e = FILE_ENTRY_TYPE_DIR) then Some FILE_DIRECTORY
  else if decide (ends_in valid_game_exts (ent_name e)) then Some FILE_GAME
  else if decide (ends_in valid_prog_exts (ent_name e)) then Some FILE_PROGRAM
  else None.

Lemma check_file_hidden_spec n : no_nul n -> check_file_hidden n = bool_decide (hidden_name n).
Proof.
  intros Hn. unfold check_file_hidden.
  rewrite any_name_spec by (done || (by repeat constructor)).
  assert (Eh : bool_decide (hidden_name n) = bool_decide (head n = Some chr_dot) ||
    (bool_decide (head n = Some chr_tilde) || (bool_decide (last n = Some chr_tilde) ||
     bool_decide (lower n ∈ lower <$> hidden_file_names)))).
  { rewrite <- !bool_decide_or. by apply bool_decide_ext. }
  rewrite Eh, <- !orb_assoc.
  assert (E : forall c, c <> 0 -> (hd 0 n =? c) = bool_decide (head n = Some c)).
  { intros c Hc. apply eqb_bool_decide. destruct n; cbn; split; congruence. }
  rewrite !E by done. do 3 f_equal. apply eqb_bool_decide.
  destruct (last n); cbn; split; try congruence. by intros ?%eq_sym.
Qed.

Lemma entry_kind_spec e : entry_kind e = if skipped e then None else Some (listed_type e).
Proof.
  unfold entry_kind, skipped, listed_type.
  rewrite check_file_hidden_spec, gm_get_file_type_spec by apply cstr_no_nul.
  assert (Eb : negb (Z.land (ent_attrib e) FILE_ATTRIB_FLAG_HIDDEN =? 0) = Z.testbit (ent_attrib e) 1).
  { change FILE_ATTRIB_FLAG_HIDDEN with (2 ^ 1). rewrite land_bit by lia. apply negb_involutive. }
  rewrite Eb. destruct (Z.testbit (ent_attrib e) 1); cbn [orb].
  { by rewrite decide_True by (by left). }
  destruct (decide (hidden_name (ent_name e))) as [Hh|Hh].
  { rewrite decide_True by (right; exact Hh). by rewrite bool_decide_true by exact Hh. }
  rewrite decide_False by (by intros [?|?]). rewrite bool_decide_false by exact Hh. cbn [orb].
  destruct (Z.eqb_spec (ent_type e) FILE_ENTRY_TYPE_DIR); [by rewrite decide_True|].
  rewrite decide_False by done. by repeat case_decide.
Qed.

(** ** In and out of directories *)

(** The path of a directory, as the game list keeps it. *)
Definition dir_path (names : list (list Z)) : list Z :=
  chr_slash :: concat ((fun d => d ++ [chr_slash]) <$> names).
(** A name a directory can have: a string, not empty, without a slash. *)
Definition dir_name (d : list Z) : Prop := is_cstr d /\ d <> [] /\ chr_slash ∉ d.
#[export] Instance dir_name_dec d : Decision (dir_name d).
Proof. unfold dir_name. apply _. Defined.

Lemma dir_path_snoc names d : dir_path (names ++ [d]) = dir_path names ++ d ++ [chr_slash].
Proof. unfold dir_path. rewrite fmap_app, concat_app. cbn. by rewrite app_nil_r. Qed.

Lemma dir_path_last names : exists q, dir_path names = q ++ [chr_slash] /\
  (q = [] /\ names = [] \/ exists init d, names = init ++ [d] /\ q = dir_path init ++ d).
Proof.
  destruct names as [|d init _] using rev_ind.
  - exists []. split; [done|]. by left.
  - exists (dir_path init ++ d). rewrite dir_path_snoc, app_assoc. split; [done|]. right. eauto.
Qed.

Lemma is_cstr_dir_path names : Forall dir_name names -> is_cstr (dir_path names).
Proof.
  unfold is_cstr, dir_path. intros H. constructor; [done|].
  apply Forall_concat, Forall_fmap. eapply Forall_impl; [done|]. intros d (Hd & _ & _).
  apply Forall_app. split; [done|]. by repeat constructor.
Qed.

(** Going into the entry [d] of the directory shown, and back. *)
Fixpoint visit (names : list (list Z)) (enum : list Z) : option (list Z) :=
  match names with
  | [] => Some enum
  | d :: names => enum ← start_path enum (cstr enum ++ d); visit names enum
  end.
Fixpoint go_back (n : nat) (enum : list Z) : option (list Z) :=
  match n with
  | O => Some enum
  | S n => enum ← start_path enum (str ".."); go_back n enum
  end.

(** [game_enum_path] shows directory [names]. *)
Definition shows (enum : list Z) (names : list (list Z)) : Prop :=
  length enum = PATH_SIZE /\ cstr enum = dir_path names.

Lemma strcpy_Some dst s : is_cstr s -> (length s < length dst)%nat ->
  exists d, strcpy dst s = Some d /\ cstr d = s /\ length d = length dst.
Proof.
  intros Hs Hl. destruct (strcpy dst s) as [d|] eqn:E.
  - exists d. split; [done|]. by apply strcpy_spec.
  - unfold strcpy in E. by rewrite decide_True in E.
Qed.

(** The end of [start_path], on a target with or without its slash. *)
Lemma start_path_end enum target p :
  is_cstr p -> length enum = PATH_SIZE -> (length p < PATH_SIZE)%nat ->
  (target = p /\ last p = Some chr_slash \/ p = target ++ [chr_slash] /\
     last target <> Some chr_slash /\ target <> []) ->
  exists e, (
    p ← strcpy (replicate PATH_SIZE 0) target;
    p ← match last (cstr p) with
        | None => None
        | Some c => if c =? chr_slash then Some p else strcat p (str "/")
        end;
    strcpy enum (cstr p)) = Some e /\ length e = PATH_SIZE /\ cstr e = p.
Proof.
  intros Hp Hle Hl Ht.
  assert (Htc : is_cstr target /\ (length target < PATH_SIZE)%nat).
  { destruct Ht as [[-> _]|[-> _]]; [done|]. apply is_cstr_app in Hp as [? _].
    rewrite length_app in Hl. split; [done|lia]. }
  destruct Htc as [Htc Htl].
  destruct (strcpy_Some (replicate PATH_SIZE 0) target) as (b & -> & Eb & Lb);
    [done|by rewrite length_replicate|].
  rewrite length_replicate in Lb. cbn [mbind option_bind]. rewrite Eb.
  destruct Ht as [[-> ->]|(-> & Hlast & Hne)].
  - rewrite Z.eqb_refl. cbn [mbind option_bind]. rewrite Eb.
    destruct (strcpy_Some enum p) as (e & -> & ? & ?); [done|lia|]. exists e. split_and!; congruence.
  - destruct (last target) as [c|] eqn:El; [|by apply last_None in El].
    destruct (Z.eqb_spec c chr_slash); [congruence|].
    destruct (strcat_Some b (str "/")) as [b' Eb'].
    { rewrite Eb, Lb. rewrite length_app in Hl. exact Hl. }
    rewrite Eb'. cbn [mbind option_bind].
    destruct (strcat_spec b (str "/") b') as [Ec _]; [by rewrite Eb|by cstr_lit|done|].
    rewrite Ec, Eb. change (str "/") with [chr_slash].
    destruct (strcpy_Some enum (target ++ [chr_slash])) as (e & -> & ? & ?); [done|lia|].
    exists e. split_and!; congruence.
Qed.

Lemma shows_visit enum names d :
  shows enum names -> Forall dir_name names -> dir_name d ->
  (length (dir_path (names ++ [d])) < PATH_SIZE)%nat ->
  exists e, start_path enum (cstr enum ++ d) = Some e /\ shows e (names ++ [d]).
Proof.
  intros [Hl Hc] Hn (Hd & Hd0 & Hds) Hlen. unfold start_path.
  assert (Hdots : cstr enum ++ d <> str "..").
  { rewrite Hc. unfold dir_path. by intros [=]. }
  rewrite bool_decide_false by done. cbn [mbind option_bind].
  assert (Hp : is_cstr (dir_path (names ++ [d]))).
  { apply is_cstr_dir_path, Forall_app. repeat constructor; done. }
  destruct (start_path_end enum (cstr enum ++ d) (dir_path (names ++ [d]))) as (e & He & ? & ?);
    [done|done|done| |].
  - right. rewrite dir_path_snoc, Hc, app_assoc. split_and!; [done| |].
    + rewrite last_app. destruct (last d) as [x|] eqn:Ex; [|by apply last_None in Ex].
      intros [= ->]. apply Hds. by apply last_Some_elem_of.
    + by destruct d, (dir_path names).
  - exists e. by repeat split.
Qed.

Lemma cstr_insert_nul m i : (i < length m)%nat -> cstr (<[i := 0]> m) = take i (cstr m).
Proof.
  revert i. induction m as [|c m IH]; intros [|i] Hi; cbn in *; try lia; [done|].
  destruct (c =? 0); [by destruct i|]. cbn. rewrite IH by lia. done.
Qed.

Lemma cut_at_ok i m :
  (i < length m)%nat -> exists m', cut_at i m = Some m' /\ cstr m' = take i (cstr m) /\ length m' = length m.
Proof.
  intros Hi. exists (<[i := 0]> m). unfold cut_at. rewrite decide_True by done.
  split_and!; [done|by apply cstr_insert_nul|by rewrite length_insert].
Qed.

Lemma pop_path_ok enum names d q :
  shows enum (names ++ [d]) -> Forall dir_name names -> dir_name d ->
  dir_path names = q ++ [chr_slash] ->
  exists e, pop_path enum = Some e /\ length e = PATH_SIZE /\
    cstr e = match q with [] => [chr_slash] | _ => q end.
Proof.
  intros [Hl Hc] Hn (Hd & Hd0 & Hds) Hq. unfold pop_path.
  rewrite dir_path_snoc, Hq in Hc.
  pose proof (length_cstr enum) as Hle.
  assert (El : length (cstr enum) = S (length q + S (length d))).
  { rewrite Hc. len. cbn. lia. }
  rewrite El.
  destruct (cut_at_ok (length q + S (length d)) enum) as (e1 & -> & E1 & L1); [lia|].
  cbn [mbind option_bind].
  assert (E1' : cstr e1 = q ++ chr_slash :: d).
  { rewrite E1, Hc, !app_assoc. rewrite take_app_length'; [by rewrite <- app_assoc|].
    rewrite !length_app. cbn. lia. }
  rewrite E1', strrchr_last by done.
  destruct (cut_at_ok (length (q ++ chr_slash :: d) - length (chr_slash :: d)) e1)
    as (e2 & -> & E2 & L2); [rewrite length_app; cbn; lia|].
  assert (E2' : cstr e2 = q).
  { rewrite E2, E1'. apply take_app_length'. rewrite length_app. cbn. lia. }
  cbn [mbind option_bind]. rewrite E2'. destruct q as [|c q]; cbn [length Nat.eqb].
  - eexists. split; [done|]. split.
    + rewrite length_splice; [lia|]. rewrite L2, L1, Hl. cbn. unfold PATH_SIZE. lia.
    + apply (cstr_splice_0 [chr_slash]). by repeat constructor.
  - exists e2. split_and!; [done|lia|done].
Qed.

Lemma shows_back enum names d :
  shows enum (names ++ [d]) -> Forall dir_name names -> dir_name d ->
  exists e, start_path enum (str "..") = Some e /\ shows e names.
Proof.
  intros Hs Hn Hd. pose proof Hs as [Hl Hc].
  destruct (dir_path_last names) as (q & Hq & Hcase).
  destruct (pop_path_ok enum names d q) as (e & He & Le & Ec); [done|done|done|done|].
  unfold start_path. rewrite bool_decide_true by done. rewrite He. cbn [mbind option_bind].
  assert (Hp : is_cstr (dir_path names)) by by apply is_cstr_dir_path.
  assert (Hlen : (length (dir_path names) < PATH_SIZE)%nat).
  { rewrite dir_path_snoc in Hc. apply (f_equal length) in Hc. rewrite !length_app in Hc.
    pose proof (length_cstr enum). cbn [length] in Hc. lia. }
  destruct (start_path_end e (cstr e) (dir_path names)) as (e' & He' & ? & ?); [done|done|done| |].
  - rewrite Ec. destruct Hcase as [[-> ->]|(init & d' & -> & ->)].
    + left. by split.
    + right. apply Forall_app in Hn as [_ (Hd' & Hd0 & Hds)%Forall_singleton].
      destruct (dir_path init ++ d') as [|c q] eqn:Eq'; [by destruct init|].
      split_and!; [by rewrite Hq| |done].
      rewrite <- Eq', last_app. destruct (last d') as [x|] eqn:Ex; [|by apply last_None in Ex].
      intros [= ->]. by apply Hds, last_Some_elem_of.
  - exists e'. by repeat split.
Qed.

Lemma dir_path_prefix names names' :
  (length (dir_path names) <= length (dir_path (names ++ names')))%nat.
Proof. unfold dir_path. rewrite fmap_app, concat_app. cbn. rewrite length_app. lia. Qed.

(** C24. Going into directories and back out again ends where it began: from a
    list that shows the directory [start], entering [names] one after the other
    (each an entry the list shows) shows exactly the directory reached, and going
    back as often shows [start] again, the path never outgrowing its buffer of
    128 bytes. *)
Theorem browse_and_return enum start names :
  shows enum start -> Forall dir_name start -> Forall dir_name names ->
  (length (dir_path (start ++ names)) < PATH_SIZE)%nat ->
  exists e1 e2, visit names enum = Some e1 /\ shows e1 (start ++ names) /\
    go_back (length names) e1 = Some e2 /\ shows e2 start.
Proof.
  intros Hs Hst Hn Hlen.
  assert (Hv : exists e1, visit names enum = Some e1 /\ shows e1 (start ++ names)).
  { revert enum start Hs Hst Hlen. induction Hn as [|d names Hd Hn IH]; intros enum start Hs Hst Hlen.
    - exists enum. rewrite app_nil_r. by split.
    - rewrite cons_middle, app_assoc in Hlen |- *.
      destruct (shows_visit enum start d) as (e & He & Hs'); [done|done|done| |].
      { pose proof (dir_path_prefix (start ++ [d]) names). lia. }
      cbn [visit]. rewrite He. apply IH; [done| |done]. apply Forall_app. split; [done|by constructor]. }
  destruct Hv as (e1 & He1 & Hs1). exists e1.
  enough (exists e2, go_back (length names) e1 = Some e2 /\ shows e2 start) as (e2 & ? & ?)
    by (exists e2; done).
  clear -Hs1 Hst Hn. revert e1 Hs1. induction names as [|d names IH] using rev_ind; intros e1 Hs1.
  - exists e1. rewrite app_nil_r in Hs1. by split.
  - apply Forall_app in Hn as [Hn Hd]. apply Forall_cons in Hd as [Hd _].
    rewrite length_app, Nat.add_comm. cbn [length Nat.add go_back].
    rewrite app_assoc in Hs1.
    destruct (shows_back e1 (start ++ names) d) as (e & -> & Hs2); [done|by apply Forall_app|done|].
    cbn [mbind option_bind]. by apply IH.
Qed.

Lemma browse_and_return_witness :
  exists e1 e2, visit [str "gc"; str "a b"] (str "/" ++ replicate 127 0) = Some e1 /\
    cstr e1 = str "/gc/a b/" /\ go_back 2 e1 = Some e2 /\ cstr e2 = str "/".
Proof.
  destruct (browse_and_return (str "/" ++ replicate 127 0) [] [str "gc"; str "a b"])
    as (e1 & e2 & H1 & [_ C1] & H2 & [_ C2]).
  - by split.
  - constructor.
  - cstr_lit.
  - apply Nat.ltb_lt. vm_compute. reflexivity.
  - exists e1, e2. split_and!; [exact H1|exact C1|exact H2|exact C2].
Defined.

(** ** The listing *)

(** What a directory device promises: [dir_holds] gives the entries of a
    directory that can be opened, [dir_left] those a descriptor has still to
    deliver. *)
Class DirReads (W : Type) `{DirDevice W} := {
  dir_holds : list Z -> W -> option (list (list Z));
  dir_left : Z -> W -> option (list (list Z));
  dir_open_ok p es w : dir_holds p w = Some es ->
    wp (dir_open p) (fun r w1 => r = 0 /\
      wp dir_status (fun s w2 => exists b, s = Some b /\ blob_result b = 0 /\
        dir_left (blob_fd b) w2 = Some es) w1) w;
  dir_readdir_ok e fd es w : dir_left fd w = Some es ->
    wp (dir_readdir e fd) (fun r w1 => r.1 = 0 /\
      match es with
      | [] => nth 0 r.2 0 = 0
      | e :: es => r.2 = e /\ dir_left fd w1 = Some es
      end) w;
  dir_close_ok fd w : wp (dir_close fd) (fun _ _ => True) w
}.

(** The entries a listing keeps. *)
Definition kept (es : list (list Z)) : list (list Z) := filter (fun e => skipped e = false) es.

(** What the list of directory [dir] shows: full path and kind. *)
Definition entries_shown (dir : list Z) (es : list (list Z)) : list (list Z * gm_file_type_t) :=
  omap (fun e => pair (dir ++ ent_name e) <$> entry_kind e) es.

Lemma entries_shown_kept dir es :
  entries_shown dir es = (fun e => (dir ++ ent_name e, listed_type e)) <$> kept es.
Proof.
  unfold entries_shown, kept. induction es as [|e es IH]; [done|].
  rewrite filter_cons. cbn [omap list_omap]. rewrite IH, entry_kind_spec.
  destruct (skipped e); [by rewrite decide_False|by rewrite decide_True].
Qed.

(** An entry of the directory [dir] whose path the buffers hold. *)
Definition fits (dir e : list Z) : Prop :=
  nth 0 e 0 <> 0 /\ is_cstr (ent_name e) /\ (length dir + length (ent_name e) < PATH_SIZE)%nat.
#[export] Instance fits_dec dir e : Decision (fits dir e).
Proof. unfold fits. apply _. Defined.

Section Listing.
Context {W : Type} `{DirReads W}.
Notation lists := (gm_lists W).
Opaque MAX_LISTED.

(** The static lists have room for 2000 paths of 128 bytes. *)
Definition lists_ok (w : lists) : Prop :=
  (MAX_LISTED <= length (early w))%nat /\ (MAX_LISTED <= length (sorted w))%nat /\
  Forall (fun e => length (path e) = PATH_SIZE) (early w).

(** Slot [i] lists [e]. *)
Definition slot_lists (dir : list Z) (w : lists) (i : nat) (e : list Z) : Prop :=
  exists b, early w !! i = Some (mk_path b (listed_type e)) /\ cstr b = dir ++ ent_name e /\
    sorted w !! i = Some i.

Lemma slot_lists_dev dir w i e e' d :
  slot_lists dir w i e -> slot_lists dir (mk_lists (early w) (sorted w) e' d) i e.
Proof. done. Qed.

Lemma store_path_ok dir e k (w : lists) (Q : unit -> lists -> Prop) :
  lists_ok w -> (k < MAX_LISTED)%nat -> is_cstr dir -> fits dir e ->
  (forall w', lists_ok w' -> lists_dev w' = lists_dev w -> slot_lists dir w' k e ->
     (forall i, i <> k -> early w' !! i = early w !! i /\ sorted w' !! i = sorted w !! i) -> Q tt w') ->
  wp (store_path k (dir ++ ent_name e) (listed_type e)) Q w.
Proof.
  intros (L1 & L2 & L3) Hk Hd (_ & Hn & Hf) HQ. unfold wp, store_path.
  destruct (lookup_lt_is_Some_2 (early w) k) as [en Hen]; [lia|]. rewrite Hen.
  pose proof (Forall_lookup_1 _ _ _ _ L3 Hen) as Hl. cbn in Hl.
  destruct (strcpy_Some (path en) (dir ++ ent_name e)) as (b & -> & Eb & Lb).
  { by apply is_cstr_app. }
  { rewrite length_app, Hl. done. }
  apply HQ.
  - split_and!; cbn; [by rewrite length_insert|by rewrite length_insert|].
    apply Forall_insert; [done|]. cbn. congruence.
  - done.
  - exists b. cbn. split_and!; [|done|]; apply list_lookup_insert_eq; lia.
  - intros i Hi. cbn. by rewrite !list_lookup_insert_ne by done.
Qed.

Lemma combine_ok buf dir e :
  is_cstr dir -> fits dir e -> length buf = PATH_SIZE ->
  exists b1 b2, strcpy buf dir = Some b1 /\ strcat b1 (ent_name e) = Some b2 /\
    cstr b2 = dir ++ ent_name e /\ length b2 = PATH_SIZE.
Proof.
  intros Hd (_ & Hn & Hf) Hb.
  destruct (strcpy_Some buf dir) as (b1 & E1 & C1 & L1); [done|lia|].
  destruct (strcat_Some b1 (ent_name e)) as [b2 E2]; [rewrite C1; lia|].
  destruct (strcat_spec b1 (ent_name e) b2) as [C2 L2]; [by rewrite C1|done|done|].
  exists b1, b2. rewrite C1 in C2. split_and!; [done|done|done|lia].
Qed.

(** A call of the device. *)
Lemma on_dir_ok {A} (m : M W A) (R : A -> W -> Prop) (w : lists) (Q : A -> lists -> Prop) :
  wp m R (lists_dev w) ->
  (forall a d, R a d -> Q a (mk_lists (early w) (sorted w) (ent w) d)) -> wp (on_dir m) Q w.
Proof.
  intros (a & d & E & HR)%wp_elim HQ. unfold wp, on_dir, zoom. rewrite E. by apply HQ.
Qed.

Lemma wp_of_option {A} (o : option A) a (w : lists) (Q : A -> lists -> Prop) :
  o = Some a -> Q a w -> wp (of_option o) Q w.
Proof. by intros ->. Qed.

(** What the loop leaves, from entry [k] on. *)
Definition lists_from (dir : list Z) (k : nat) (names : list (list Z)) (w : lists) (n : nat) (w' : lists) : Prop :=
  n = (k + length names)%nat /\ lists_ok w' /\
  (forall i e, names !! i = Some e -> slot_lists dir w' (k + i) e) /\
  forall i, (i < k)%nat -> early w' !! i = early w !! i /\ sorted w' !! i = sorted w !! i.

Lemma list_rounds_ok dir fd es fuel k buf (w : lists) :
  is_cstr dir -> Forall (fits dir) es -> (length es < fuel)%nat -> (k < MAX_LISTED)%nat ->
  length buf = PATH_SIZE -> lists_ok w -> dir_left fd (lists_dev w) = Some es ->
  wp (list_rounds fuel dir fd k buf) (lists_from dir k (take (MAX_LISTED - k) (kept es)) w) w.
Proof.
  intros Hd He. revert fuel k buf w.
  induction He as [|e es Hf He IH]; intros [|fuel] k buf w Hfu Hk Hb Hw Hl; cbn in Hfu; try lia;
    cbn [list_rounds]; apply wp_bind, wp_get, wp_bind;
    (eapply on_dir_ok; [apply (dir_readdir_ok _ _ _ _ Hl)|]); intros [r e'] d [E0 Hr]; cbn in E0, Hr;
    subst r; cbv beta iota; apply wp_bind, wp_modify; cbn [fst snd negb Z.eqb early sorted lists_dev].
  { rewrite Hr. cbn [Z.eqb]. apply wp_ret. change (kept []) with (@nil (list Z)). rewrite take_nil.
    split_and!; [cbn; lia|done|by intros ??|done]. }
  destruct Hr as [-> Hl'].
  destruct (Z.eqb_spec (nth 0 e 0) 0) as [E0|_]; [by destruct Hf|].
  unfold kept. rewrite filter_cons. fold (kept es).
  set (w1 := mk_lists (early w) (sorted w) e d).
  destruct (skipped e) eqn:Esk.
  { rewrite decide_False by done. apply (IH fuel k buf w1); auto; lia. }
  rewrite decide_True by done.
  destruct (combine_ok buf dir e) as (b1 & b2 & E1 & E2 & C2 & L2); [done|done|done|].
  apply wp_bind, (wp_of_option _ b1), wp_bind, (wp_of_option _ b2), wp_bind; [done|done|].
  rewrite C2. apply (store_path_ok dir); [done|done|done|done|].
  intros w2 Hw2 Ed2 Hs2 Ho2.
  replace (MAX_LISTED - k)%nat with (S (MAX_LISTED - S k)) by lia. cbn [take].
  destruct (Nat.leb_spec MAX_LISTED (S k)).
  - apply wp_ret. replace (MAX_LISTED - S k)%nat with 0%nat by lia. rewrite take_0.
    split_and!; [cbn; lia|done| |].
    + intros [|i] x [= <-]. by rewrite Nat.add_0_r.
    + intros i Hi. apply Ho2. lia.
  - eapply wp_mono; [apply (IH fuel (S k) b2 w2); auto; [lia|by rewrite Ed2]|].
    intros n w3 (-> & Hw3 & Hs3 & Ho3). split_and!; [cbn; lia|done| |].
    + intros [|i] x Hx.
      * injection Hx as <-. destruct Hs2 as (b & Hb1 & Hb2 & Hb3). exists b.
        rewrite Nat.add_0_r. destruct (Ho3 k) as [-> ->]; [lia|]. done.
      * rewrite Nat.add_succ_r. by apply Hs3.
    + intros i Hi. destruct (Ho3 i) as [-> ->]; [lia|]. apply Ho2. lia.
Qed.

(** What the first [n] pointers show. *)
Definition listing (n : nat) (w : lists) : list (list Z * gm_file_type_t) :=
  (fun i => let e := nth i (early w) no_path in (cstr (path e), path_type e)) <$> take n (sorted w).

Lemma gm_list_files_ok fuel dir es (w : lists) :
  is_cstr dir -> dir_holds dir (lists_dev w) = Some es -> Forall (fits dir) es ->
  (length es < fuel)%nat -> lists_ok w ->
  let names := take MAX_LISTED (kept es) in
  wp (gm_list_files fuel dir) (fun r w' => r = Some (length names) /\
    lists_ok w' /\ listing (length names) w' = (fun e => (dir ++ ent_name e, listed_type e)) <$> names) w.
Proof.
  intros Hd Hh He Hfu Hw names. unfold gm_list_files.
  apply wp_bind. eapply on_dir_ok; [apply (dir_open_ok _ _ _ Hh)|]. intros r d [-> Hst]. cbn [negb Z.eqb].
  apply wp_bind. eapply on_dir_ok; [exact Hst|]. intros st d' (b & -> & Hb & Hl).
  rewrite Hb. cbn [negb Z.eqb early sorted ent]. apply wp_bind.
  eapply wp_mono; [apply (list_rounds_ok dir _ es); auto|].
  { Transparent MAX_LISTED. apply Nat.ltb_lt. vm_compute. done. Opaque MAX_LISTED. }
  intros n w1 (-> & Hw1 & Hs1 & _). rewrite Nat.sub_0_r in *. fold names in Hs1 |- *. cbn [Nat.add] in *.
  apply wp_bind. eapply on_dir_ok; [apply dir_close_ok|]. intros [] d2 _. apply wp_ret.
  split_and!; [done|done|]. unfold listing. cbn [early sorted].
  apply list_eq. intros i. rewrite !list_lookup_fmap.
  destruct (names !! i) as [e|] eqn:Ei.
  - destruct (Hs1 i e Ei) as (b' & Eb1 & Eb2 & Eb3).
    rewrite lookup_take_lt by (by apply lookup_lt_Some in Ei). rewrite Eb3. cbn.
    rewrite (nth_lookup_Some _ _ _ _ Eb1). cbn. by rewrite Eb2.
  - rewrite lookup_take_ge by (by apply lookup_ge_None). done.
Qed.
End Listing.

Lemma StronglySorted_fmap {A B} (R : A -> A -> Prop) (S' : B -> B -> Prop) (f : A -> B) l :
  (forall x y, R x y -> S' (f x) (f y)) -> StronglySorted R l -> StronglySorted S' (f <$> l).
Proof.
  intros Hf. induction 1 as [|x l Hs IH Hx]; cbn; constructor; [done|].
  apply Forall_fmap. eapply Forall_impl; [done|]. intros y. apply Hf.
Qed.

(** Names in the order of the list, upper and lower case alike. *)
Definition before (a b : list Z * gm_file_type_t) : Prop := strcasecmp a.1 b.1 <= 0.

Lemma sort_listing {W} n (w : gm_lists W) :
  (n <= length (sorted w))%nat -> (n <= MAX_LISTED)%nat ->
  wp (gm_sort_files n) (fun _ w' =>
    listing n w' ≡ₚ listing n w /\ StronglySorted before (listing n w')) w.
Proof.
  intros Hl Hn. apply wp_bind, wp_get. unfold wp, zoom.
  destruct (qsort_spec (cmp_pointers (early w)) 1 0 n (sorted w)) as (s & -> & _ & Hp & Hs).
  { done. }
  { apply (Nat.le_lt_trans _ _ _ Hn), Nat.ltb_lt. vm_compute. done. }
  unfold slice in *. rewrite !drop_0 in *.
  split; unfold listing; cbn [early sorted set_sorted].
  - by rewrite Hp.
  - eapply StronglySorted_fmap; [|exact Hs]. intros x y Hxy. exact Hxy.
Qed.

(** C23. Listing the directory shown delivers its contents: with a storage
    device that keeps its interface's promises and a directory whose paths fit
    the 128-byte buffers, the worker's listing returns, and the pointers it has
    sorted show exactly the directory's entries that are to be shown (the first
    1920 of them): neither marked hidden nor named like a hidden file, and a
    directory or a file whose name ends in one of the known extensions, each
    once, with its full path and its kind, in alphabetical order regardless of
    case. *)
Theorem game_list_shows_directory {W} `{DirReads W} fuel dir es (w : gm_lists W) :
  is_cstr dir -> dir_holds dir (lists_dev w) = Some es -> Forall (fits dir) es ->
  (length es < fuel)%nat -> lists_ok w ->
  let shown := take MAX_LISTED (entries_shown dir es) in
  exists w', list_and_sort fuel dir w = Some (Some (length shown), w') /\
    listing (length shown) w' ≡ₚ shown /\ StronglySorted before (listing (length shown) w').
Proof.
  intros Hd Hh He Hf Hw. cbv zeta. rewrite entries_shown_kept, <- fmap_take, length_fmap.
  set (names := take MAX_LISTED (kept es)).
  assert (Hwp : wp (list_and_sort fuel dir) (fun r w' => r = Some (length names) /\
    listing (length names) w' ≡ₚ (fun e => (dir ++ ent_name e, listed_type e)) <$> names /\
    StronglySorted before (listing (length names) w')) w).
  { apply wp_bind. eapply wp_mono; [by apply (gm_list_files_ok fuel dir es)|].
    intros r w1 (-> & (_ & Hl & _) & El). fold names in El |- *.
    assert (length names <= MAX_LISTED)%nat by (unfold names; rewrite length_take; lia).
    apply wp_bind. eapply wp_mono; [apply (sort_listing (length names)); lia|].
    intros [] w2 [Hp Hs]. apply wp_ret. split_and!; [done|by rewrite Hp, El|done]. }
  apply wp_elim in Hwp as (r & w' & E & -> & Hp & Hs). by exists w'.
Qed.

(** A card with directories, as a device: what it holds and what the open
    descriptor has still to deliver. *)
Definition sim_card : Type := list (list Z * list (list Z)) * option (list (list Z)).
Fixpoint sim_find (p : list Z) (dirs : list (list Z * list (list Z))) : option (list (list Z)) :=
  match dirs with
  | [] => None
  | (q, es) :: dirs => if bool_decide (p = q) then Some es else sim_find p dirs
  end.
#[export] Instance sim_dirs : DirDevice sim_card := {
  dir_open p := fun w => match sim_find p w.1 with
                         | Some es => Some (0, (w.1, Some es))
                         | None => Some (1, w)
                         end;
  dir_status := ret (Some (replicate file_status_size 0));
  dir_readdir e fd := fun w => match w.2 with
                               | None => Some ((1, e), w)
                               | Some [] => Some ((0, []), w)
                               | Some (e :: es) => Some ((0, e), (w.1, Some es))
                               end;
  dir_close fd := modify (fun w => (w.1, None))
}.
#[export] Instance sim_dir_reads : DirReads sim_card.
Proof.
  refine {| dir_holds p w := sim_find p w.1; dir_left fd w := w.2 |}.
  - intros p es w E. unfold wp. cbn. rewrite E. split; [done|]. by eexists.
  - intros e fd es w E. unfold wp. cbn. rewrite E. by destruct es.
  - done.
Defined.

(** A directory entry of the given name and type. *)
Definition sim_entry (name : string) (type : Z) : list Z :=
  splice 0 (str name) (<[256%nat := type]> (replicate 288 0)).

Lemma game_list_shows_directory_witness :
  let es := [sim_entry "zelda.ISO" 0; sim_entry ".trash" 0; sim_entry "Apps" FILE_ENTRY_TYPE_DIR;
             sim_entry "notes.txt" 0; sim_entry "boot.dol" 0] in
  let w := mk_lists (replicate 2000 (mk_path (replicate 128 0) FILE_UNKNOWN)) (replicate 2000 0%nat) []
             ([(str "/", es)], None) in
  exists w', list_and_sort 6 (str "/") w = Some (Some 3%nat, w') /\
    listing 3 w' ≡ₚ [(str "/zelda.ISO", FILE_GAME); (str "/Apps", FILE_DIRECTORY); (str "/boot.dol", FILE_PROGRAM)] /\
    StronglySorted before (listing 3 w').
Proof.
  intros es w.
  assert (E : take MAX_LISTED (entries_shown (str "/") es) =
    [(str "/zelda.ISO", FILE_GAME); (str "/Apps", FILE_DIRECTORY); (str "/boot.dol", FILE_PROGRAM)])
    by (vm_compute; reflexivity).
  destruct (game_list_shows_directory 6 (str "/") es w) as (w' & Hw & Hp & Hs).
  - cstr_lit.
  - vm_compute. reflexivity.
  - apply (bool_decide_unpack _). vm_compute. exact I.
  - apply Nat.ltb_lt. vm_compute. reflexivity.
  - split_and!; [apply Nat.leb_le; vm_compute; reflexivity..|].
    by apply Forall_replicate.
  - rewrite E in Hw, Hp, Hs. exists w'. split_and!; [exact Hw|exact Hp|exact Hs].
Defined.
