(* ===== verification/Menu.v ===== *)
(** The list of games on the screen (src/patches/source/menu.c): what the pad
    does to it, the way between the list and the screen of one game, and what is
    started.

    The grid's lines are those of Grid.v.  What the menu reads of other parts is
    an argument: the entries as they are listed in this frame, whether the path
    shown is the root, and what the drive says when it is asked for a disc.
    Sounds, the matrices of the animation and drawing are left out.  What the
    menu asks of other parts is collected in order in [asked]: [Line_changed] is
    the call of GmEnum's [gm_line_changed], [Start_thread] that of
    [gm_start_thread].  That call empties the list before it comes back: from then
    on, in the same frame too, there are no lines and no entries ([listed]).  The
    thread it starts has a lower priority than the menu's and sets up the new
    list after the frame. *)

From S2P Require Import Prelude CStr Float Grid GmPaths.
#[local] Open Scope prog_scope.

Definition MENU_GAMESELECT_ID : Z := 1.
Definition MENU_GAMESELECT_TRANSITION_ID : Z := 2.
Definition ANALOG_UP : Z := 0x1000.
Definition ANALOG_DOWN : Z := 0x2000.
Definition ANALOG_LEFT : Z := 0x4000.
Definition ANALOG_RIGHT : Z := 0x8000.
(** The buttons, as the pad's library numbers them. *)
Definition PAD_TRIGGER_Z : Z := 0x0010.
Definition PAD_BUTTON_A : Z := 0x0100.
Definition PAD_BUTTON_B : Z := 0x0200.
Definition PAD_BUTTON_START : Z := 0x1000.

Inductive gameselect := SUBMENU_GAMESELECT_LOADER | SUBMENU_GAMESELECT_START.
#[export] Instance gameselect_eq_dec : EqDecision gameselect.
Proof. solve_decision. Defined.

(** ** What the menu sees *)

Record entry := mk_entry { entry_type : gm_file_type_t; entry_path : list Z }.
Record listing := mk_listing {
  entries : list entry; game_backing_count : Z; at_root : bool
}.
Record drive := mk_drive { native : bool; force_swiss_boot : bool; found_swiss : bool; has_dvd : bool }.
Record frame := mk_frame { buttons_down : Z; analog_down : Z; fr_list : listing; fr_drive : drive }.

Inductive request :=
  | Line_changed (top_line_num delta : Z)
  | Start_thread (target : list Z)
  | Set_gameid (slot : Z).
Record menu := mk_menu {
  selected_slot : Z; top_line_num : Z;
  browser_lines : list line_backing; grid_setup_done : bool; number_of_lines : Z;
  current_gameselect_state : gameselect; in_submenu_transition : bool;
  custom_alpha : Z; original_alpha : Z;
  start_passthrough_game : bool; bs2start_ready : bool; boot_entry : option entry;
  asked : list request
}.
Notation P := (M menu).

Definition set_slot (slot top : Z) (s : menu) : menu :=
  mk_menu slot top (browser_lines s) (grid_setup_done s) (number_of_lines s) (current_gameselect_state s) (in_submenu_transition s)
    (custom_alpha s) (original_alpha s) (start_passthrough_game s) (bs2start_ready s) (boot_entry s) (asked s).
Definition set_lines (ls : list line_backing) (s : menu) : menu :=
  mk_menu (selected_slot s) (top_line_num s) ls (grid_setup_done s) (number_of_lines s) (current_gameselect_state s) (in_submenu_transition s)
    (custom_alpha s) (original_alpha s) (start_passthrough_game s) (bs2start_ready s) (boot_entry s) (asked s).
Definition set_setup_done (s : menu) : menu :=
  mk_menu (selected_slot s) (top_line_num s) (browser_lines s) true (number_of_lines s) (current_gameselect_state s) (in_submenu_transition s)
    (custom_alpha s) (original_alpha s) (start_passthrough_game s) (bs2start_ready s) (boot_entry s) (asked s).
Definition set_number (n : Z) (s : menu) : menu :=
  mk_menu (selected_slot s) (top_line_num s) (browser_lines s) (grid_setup_done s) n (current_gameselect_state s) (in_submenu_transition s)
    (custom_alpha s) (original_alpha s) (start_passthrough_game s) (bs2start_ready s) (boot_entry s) (asked s).
Definition set_submenu (g : gameselect) (moving : bool) (s : menu) : menu :=
  mk_menu (selected_slot s) (top_line_num s) (browser_lines s) (grid_setup_done s) (number_of_lines s) g moving
    (custom_alpha s) (original_alpha s) (start_passthrough_game s) (bs2start_ready s) (boot_entry s) (asked s).
Definition set_alphas (custom original : Z) (s : menu) : menu :=
  mk_menu (selected_slot s) (top_line_num s) (browser_lines s) (grid_setup_done s) (number_of_lines s) (current_gameselect_state s) (in_submenu_transition s)
    custom original (start_passthrough_game s) (bs2start_ready s) (boot_entry s) (asked s).
Definition set_start (passthrough : bool) (e : option entry) (s : menu) : menu :=
  mk_menu (selected_slot s) (top_line_num s) (browser_lines s) (grid_setup_done s) (number_of_lines s) (current_gameselect_state s) (in_submenu_transition s)
    (custom_alpha s) (original_alpha s) passthrough true e (asked s).
Definition ask (r : request) (s : menu) : menu :=
  mk_menu (selected_slot s) (top_line_num s) (browser_lines s) (grid_setup_done s) (number_of_lines s) (current_gameselect_state s) (in_submenu_transition s)
    (custom_alpha s) (original_alpha s) (start_passthrough_game s) (bs2start_ready s) (boot_entry s) (asked s ++ [r]).

Definition bit (word mask : Z) : bool := negb (Z.land word mask =? 0).
Definition gm_get_game_entry (v : listing) (slot : Z) : option entry :=
  if slot <? 0 then None else entries v !! Z.to_nat slot.

(** ** A new list *)

Definition lines_of (line_count : Z) : Z := Z.max 4 (Z.shiftr (line_count + 7) 3).
Definition gm_setup_grid (line_count : Z) (initial : bool) : P unit :=
  modify (set_number (lines_of line_count)) ;;
  if initial then
    s <- get ;;
    ls <- of_option (grid_setup_func (number_of_lines s)) ;;
    modify (fun s => set_setup_done (set_slot (START_LINE * 8) START_LINE (set_lines ls s)))
  else ret tt.
(** Of the list, [gm_start_thread] leaves nothing: both counts are zero. *)
Definition listed (fr : frame) (s : menu) : listing :=
  if number_of_lines s =? 0 then mk_listing [] 0 (at_root (fr_list fr)) else fr_list fr.
Definition begin_list (target : list Z) : P unit := modify (fun s => set_number 0 (ask (Start_thread target) s)).

(** ** Between the list and the screen of a game *)

Definition transition_step (ntsc : bool) : Z := if ntsc then 14 else 16.
Definition end_transition (step : Z) (s : menu) : menu :=
  if in_submenu_transition s then
    if negb (custom_alpha s =? 0) && negb (original_alpha s =? 0) then
      if (255 - custom_alpha s <? step) || (255 - original_alpha s <? step) then
        set_alphas (if custom_alpha s <? 127 then 0 else 255) (if original_alpha s <? 127 then 0 else 255)
          (set_submenu (current_gameselect_state s) false s)
      else s
    else s
  else s.
Definition step_transition (step : Z) (s : menu) : menu :=
  if in_submenu_transition s then
    match current_gameselect_state s with
    | SUBMENU_GAMESELECT_LOADER => set_alphas (u8 (custom_alpha s + step)) (u8 (original_alpha s - step)) s
    | SUBMENU_GAMESELECT_START => set_alphas (u8 (custom_alpha s - step)) (u8 (original_alpha s + step)) s
    end
  else s.

(** ** What may be started *)

Definition emu_can_boot (d : drive) (type : gm_file_type_t) : bool :=
  match type with
  | FILE_GAME => if native d && negb (force_swiss_boot d) then true else found_swiss d
  | FILE_PROGRAM => found_swiss d
  | _ => true
  end.

(** ** The pad *)

Definition press_z (fr : frame) : P unit :=
  if bit (buttons_down fr) PAD_TRIGGER_Z && has_dvd (fr_drive fr) then modify (fun s => set_start true (boot_entry s) s) else ret tt.
(** [true]: the IPL's own menu is gone back to. *)
Definition press_b (fr : frame) : P bool :=
  if bit (buttons_down fr) PAD_BUTTON_B then
    s <- get ;;
    if bool_decide (current_gameselect_state s = SUBMENU_GAMESELECT_START) && negb (in_submenu_transition s) then
      modify (set_submenu SUBMENU_GAMESELECT_LOADER true) ;; ret false
    else if negb (in_submenu_transition s) then
      if at_root (fr_list fr) then ret true else begin_list [46; 46] ;; ret false
    else ret false
  else ret false.
Definition press_a (fr : frame) : P unit :=
  s <- get ;;
  if bit (buttons_down fr) PAD_BUTTON_A && bool_decide (current_gameselect_state s = SUBMENU_GAMESELECT_LOADER)
     && (selected_slot s <? game_backing_count (listed fr s)) && negb (in_submenu_transition s)
  then
    e <- of_option (gm_get_game_entry (listed fr s) (selected_slot s)) ;;
    if bool_decide (entry_type e = FILE_DIRECTORY) then begin_list (entry_path e ++ [chr_slash])
    else
      modify (set_submenu SUBMENU_GAMESELECT_START true) ;;
      if bool_decide (entry_type e = FILE_GAME) then modify (ask (Set_gameid (selected_slot s))) else ret tt
  else ret tt.
(** [false]: the entry cannot be started, and the call is over. *)
Definition press_start (fr : frame) : P bool :=
  s <- get ;;
  if bit (buttons_down fr) PAD_BUTTON_START && bool_decide (current_gameselect_state s = SUBMENU_GAMESELECT_START) then
    e <- of_option (gm_get_game_entry (listed fr s) (selected_slot s)) ;;
    if emu_can_boot (fr_drive fr) (entry_type e) then modify (set_start (start_passthrough_game s) (Some e)) ;; ret true
    else ret false
  else ret true.

Definition move_right : P unit :=
  modify (fun s => if selected_slot s mod 8 =? 8 - 1 then s else set_slot (selected_slot s + 1) (top_line_num s) s).
Definition move_left : P unit :=
  modify (fun s => if selected_slot s mod 8 =? 0 then s else set_slot (selected_slot s - 1) (top_line_num s) s).
(** Where the line of the selected slot is going to be. *)
Definition selected_position : P Z :=
  s <- get ;; l <- of_option (browser_lines s !! Z.to_nat (selected_slot s / 8)) ;; ret (get_position_after l).
Definition scroll_list (dispatch : Z -> list line_backing -> Z * list line_backing) (delta : Z) : P unit :=
  s <- get ;;
  let '(result, ls) := dispatch (number_of_lines s) (browser_lines s) in
  modify (set_lines ls) ;;
  if result =? GRID_MOVE_SUCCESS then
    modify (ask (Line_changed (top_line_num s) delta)) ;;
    modify (set_slot (selected_slot s + 8 * delta) (top_line_num s + delta))
  else ret tt.
Definition move_down : P unit :=
  s <- get ;;
  if (number_of_lines s - top_line_num s =? 4) && (number_of_lines s * 8 - 1 <? selected_slot s + 8) then ret tt
  else
    y <- selected_position ;;
    if f (DRAW_BOUND_BOTTOM - DRAW_OFFSET_Y - 10) <=? y then scroll_list grid_dispatch_navigate_down 1
    else modify (set_slot (selected_slot s + 8) (top_line_num s)).
Definition move_up : P unit :=
  s <- get ;;
  if (top_line_num s =? 0) && (selected_slot s - 8 <? 0) then ret tt
  else if negb (top_line_num s =? 0) then
    y <- selected_position ;;
    if y <=? f (DRAW_BOUND_TOP + DRAW_OFFSET_Y - 10) then scroll_list grid_dispatch_navigate_up (-1)
    else modify (set_slot (selected_slot s - 8) (top_line_num s))
  else modify (set_slot (selected_slot s - 8) (top_line_num s)).

Definition when (b : bool) (m : P unit) : P unit := if b then m else ret tt.
Definition navigate (fr : frame) : P unit :=
  s <- get ;;
  if bool_decide (current_gameselect_state s = SUBMENU_GAMESELECT_LOADER) then
    when (bit (analog_down fr) ANALOG_RIGHT) move_right ;;
    when (bit (analog_down fr) ANALOG_LEFT) move_left ;;
    when (bit (analog_down fr) ANALOG_DOWN) move_down ;;
    when (bit (analog_down fr) ANALOG_UP) move_up
  else ret tt.

Definition handle_gameselect_inputs (ntsc : bool) (fr : frame) : P Z :=
  modify (fun s => set_lines (grid_update_icon_positions (grid_setup_done s) (number_of_lines s) (browser_lines s)) s) ;;
  modify (fun s => step_transition (transition_step ntsc) (end_transition (transition_step ntsc) s)) ;;
  press_z fr ;;
  back <- press_b fr ;;
  if back then ret MENU_GAMESELECT_ID
  else
    press_a fr ;;
    go_on <- press_start fr ;;
    (if go_on then navigate fr else ret tt) ;;
    ret MENU_GAMESELECT_TRANSITION_ID.

(** [pre_menu_alpha_setup]: the menu is entered from the IPL's. *)
Definition pre_menu_alpha_setup (cur_menu_id prev_menu_id : Z) (s : menu) : menu :=
  if (cur_menu_id =? MENU_GAMESELECT_ID) && (prev_menu_id =? MENU_GAMESELECT_TRANSITION_ID)
  then set_submenu SUBMENU_GAMESELECT_LOADER (in_submenu_transition s) s else s.

(** The menu before a list has been set up, and a history of frames: it ends
    where a new list is begun. *)
Definition menu_init : menu :=
  mk_menu 0 0 [] false 0 SUBMENU_GAMESELECT_LOADER false 255 0 false false None [].
Fixpoint frames (ntsc : bool) (frs : list frame) : P unit :=
  match frs with
  | [] => ret tt
  | fr :: frs =>
      s <- get ;;
      if number_of_lines s =? 0 then ret tt else handle_gameselect_inputs ntsc fr ;; frames ntsc frs
  end.
