(* ===== verification/MenuThms.v ===== *)
(** The list on the screen: whatever is pressed, the selected slot stays in the
    four lines that are shown, and the way to a game's screen and back comes to
    an end. *)

From S2P Require Import Prelude CStr Float Grid GridThms GmPaths Menu.
#[local] Open Scope prog_scope.
#[local] Opaque F32_UNIT w.

(** ** What holds between frames *)

(** [N] scrolls so far; [count] entries can have been chosen from. *)
Record menu_ok (N n count : Z) (s : menu) : Prop := {
  mo_lines : number_of_lines s = n;
  mo_setup : grid_setup_done s = true;
  mo_len : length (browser_lines s) = Z.to_nat MAX_LINES;
  mo_grid : grid_ok N n (top_line_num s) (browser_lines s);
  mo_top : 0 <= top_line_num s <= n - 4;
  mo_slot : 8 * top_line_num s <= selected_slot s < 8 * top_line_num s + 32;
  mo_game : current_gameselect_state s = SUBMENU_GAMESELECT_START -> selected_slot s < count
}.
(** Once a new list is begun, the rest of the frame still runs: on the list's
    screen, and on an empty list. *)
Record menu_between (s : menu) : Prop := {
  mb_lines : number_of_lines s = 0;
  mb_len : length (browser_lines s) = Z.to_nat MAX_LINES;
  mb_slot : 0 <= selected_slot s < 8 * MAX_LINES;
  mb_game : current_gameselect_state s = SUBMENU_GAMESELECT_LOADER;
  mb_asked : exists target, Start_thread target ∈ asked s
}.
Definition inv (N n count : Z) (s : menu) : Prop := menu_ok N n count s \/ menu_between s.
Definition vertical (fr : frame) : bool := bit (analog_down fr) ANALOG_DOWN || bit (analog_down fr) ANALOG_UP.
Definition presses (frs : list frame) : Z := Z.of_nat (length (filter (fun fr => vertical fr = true) frs)).

Section Frame.
Context (n : Z).
Hypothesis Hn : 4 <= n <= 240.

Lemma inv_slot N count s : inv N n count s -> 0 <= selected_slot s < 8 * MAX_LINES.
Proof using Hn. intros [[_ _ _ _ Ht Hs _]|[_ _ Hs _ _]]; unfold MAX_LINES in *; lia. Qed.
Lemma inv_len N count s : inv N n count s -> length (browser_lines s) = Z.to_nat MAX_LINES.
Proof. by intros [[]|[]]. Qed.
Lemma inv_game N count s : inv N n count s -> current_gameselect_state s = SUBMENU_GAMESELECT_START -> selected_slot s < count.
Proof. intros [[]|[? ? ? E ?]]; [done|]. by rewrite E. Qed.
Lemma inv_count N count count' s : inv N n count s -> count <= count' -> inv N n count' s.
Proof.
  intros [[? ? ? ? ? ? H]|Hb] Hc; [left|by right]. constructor; try done; intros E; specialize (H E); lia.
Qed.

(** What a change of the other fields leaves. *)
Lemma ok_same N count s s' : selected_slot s' = selected_slot s -> top_line_num s' = top_line_num s -> browser_lines s' = browser_lines s ->
  grid_setup_done s' = grid_setup_done s -> number_of_lines s' = number_of_lines s ->
  current_gameselect_state s' = current_gameselect_state s -> menu_ok N n count s -> menu_ok N n count s'.
Proof. intros E1 E2 E3 E4 E5 E6 []. constructor; rewrite ?E1, ?E2, ?E3, ?E4, ?E5, ?E6; done. Qed.
Lemma inv_same N count s s' : selected_slot s' = selected_slot s -> top_line_num s' = top_line_num s -> browser_lines s' = browser_lines s ->
  grid_setup_done s' = grid_setup_done s -> number_of_lines s' = number_of_lines s -> asked s' = asked s ->
  (current_gameselect_state s' = SUBMENU_GAMESELECT_START -> current_gameselect_state s = SUBMENU_GAMESELECT_START) ->
  inv N n count s -> inv N n count s'.
Proof.
  intros E1 E2 E3 E4 E5 E6 Hg [[]|[? ? ? Hl ?]]; [left|right]; constructor; rewrite ?E1, ?E2, ?E3, ?E4, ?E5, ?E6; auto.
  destruct (current_gameselect_state s'); [done|]. specialize (Hg eq_refl). congruence.
Qed.
Lemma inv_ask N count s r : inv N n count s -> inv N n count (ask r s).
Proof. intros [[]|[? ? ? ? (t & Ht)]]; [left|right]; constructor; try done. exists t. cbn. apply elem_of_app. by left. Qed.

Lemma wp_begin_list N count t s : inv N n count s -> current_gameselect_state s = SUBMENU_GAMESELECT_LOADER -> wp (begin_list t) (fun _ s' => inv N n count s' /\ number_of_lines s' = 0) s.
Proof using Hn.
  intros Hi Hl. apply wp_modify. split; [|done]. right. pose proof (inv_slot _ _ _ Hi). pose proof (inv_len _ _ _ Hi).
  constructor; try done. exists t. cbn. apply elem_of_app. right. apply list_elem_of_here.
Qed.

Lemma update_step N count ntsc s : inv N n count s -> N <= SCROLLS -> number_of_lines s <> 0 ->
  menu_ok N n count (step_transition (transition_step ntsc) (end_transition (transition_step ntsc)
    (set_lines (grid_update_icon_positions (grid_setup_done s) (number_of_lines s) (browser_lines s)) s))).
Proof using Hn.
  intros Hi HN Hlines. destruct Hi as [Hs|[]]; [|done].
  assert (Hs' : menu_ok N n count (set_lines (grid_update_icon_positions (grid_setup_done s) (number_of_lines s) (browser_lines s)) s)).
  { destruct Hs as [El Es Hlen Hg Ht Hsl Hgame]. rewrite El, Es. destruct (update_ok N n (top_line_num s) (browser_lines s)); [done|done|lia|lia|done|]. by constructor. }
  set (s1 := set_lines _ s) in *. clearbody s1. unfold step_transition, end_transition.
  repeat case_match; by apply (ok_same N count s1).
Qed.

Section Step.
Context (fr : frame) (N count : Z).
Hypothesis Hcount : count <= Z.of_nat (length (entries (fr_list fr))).
Hypothesis Hbacking : game_backing_count (fr_list fr) <= count.

(** An entry the count covers is there. *)
Lemma entry_there s : number_of_lines s <> 0 -> 0 <= selected_slot s -> selected_slot s < count ->
  exists e, gm_get_game_entry (listed fr s) (selected_slot s) = Some e.
Proof using Hcount.
  intros Hl H0 H1. unfold listed, gm_get_game_entry. rewrite (proj2 (Z.eqb_neq _ 0) Hl). rewrite (proj2 (Z.ltb_ge _ 0)) by lia. apply lookup_lt_is_Some. lia.
Qed.

Lemma press_z_ok s : inv N n count s -> wp (press_z fr) (fun _ => inv N n count) s.
Proof. intros Hi. unfold press_z. destruct (_ && _); [apply wp_modify|by apply wp_ret]. apply (inv_same N count s); try done. Qed.
Lemma press_b_ok s : inv N n count s -> wp (press_b fr) (fun _ => inv N n count) s.
Proof using Hn.
  intros Hi. unfold press_b. destruct (bit _ _); [|by apply wp_ret]. apply wp_bind, wp_get.
  destruct (bool_decide _ && _) eqn:Eb.
  - apply wp_bind, wp_modify, wp_ret. by apply (inv_same N count s).
  - case_match; [|by apply wp_ret]. case_match; [by apply wp_ret|]. apply wp_bind.
    assert (Hl : current_gameselect_state s = SUBMENU_GAMESELECT_LOADER).
    { rewrite andb_true_r in Eb. apply bool_decide_eq_false in Eb. by destruct (current_gameselect_state s). }
    eapply wp_mono; [by eapply wp_begin_list|]. intros u0 s' [H' _]. by apply wp_ret.
Qed.
Lemma press_a_ok s : inv N n count s -> wp (press_a fr) (fun _ => inv N n count) s.
Proof using Hn Hcount Hbacking.
  intros Hi. unfold press_a. apply wp_bind, wp_get. destruct (_ && _ && _ && _) eqn:E; [|by apply wp_ret].
  apply andb_prop in E as [[[_ Hg]%andb_prop Hsel]%andb_prop _]. apply bool_decide_eq_true in Hg. apply Z.ltb_lt in Hsel. pose proof (inv_slot _ _ _ Hi) as H0.
  destruct Hi as [Hs|[Hl _ _ _ _]]; [|unfold listed in Hsel; rewrite Hl in Hsel; cbn in Hsel; lia].
  assert (Hl : number_of_lines s <> 0) by (rewrite (mo_lines _ _ _ _ Hs); lia).
  assert (Hlt : selected_slot s < count) by (unfold listed in Hsel; rewrite (proj2 (Z.eqb_neq _ 0) Hl) in Hsel; lia).
  assert (Hi : inv N n count s) by (by left). destruct (entry_there s) as [e He]; [done|lia|done|]. rewrite He. apply wp_bind. cbn [wp of_option]. case_match.
  - eapply wp_mono; [by eapply wp_begin_list|]. by intros u0 s' [H' _].
  - apply wp_bind, wp_modify. assert (Hi' : inv N n count (set_submenu SUBMENU_GAMESELECT_START true s)).
    { left. destruct Hs. by constructor. }
    case_match; [apply wp_modify; by apply inv_ask|by apply wp_ret].
Qed.
Lemma press_start_ok s : inv N n count s -> wp (press_start fr) (fun _ => inv N n count) s.
Proof using Hn Hcount.
  intros Hi. unfold press_start. apply wp_bind, wp_get. destruct (_ && _) eqn:E; [|by apply wp_ret].
  apply andb_prop in E as [_ Hg]. apply bool_decide_eq_true in Hg. pose proof (inv_slot _ _ _ Hi) as H0.
  destruct Hi as [Hs|[_ _ _ E _]]; [|congruence]. assert (Hi : inv N n count s) by (by left).
  destruct (entry_there s) as [e He]; [rewrite (mo_lines _ _ _ _ Hs); lia|lia|by apply (inv_game N)|]. rewrite He. apply wp_bind. cbn [wp of_option]. case_match; [|by apply wp_ret].
  apply wp_bind, wp_modify, wp_ret. by apply (inv_same N count s).
Qed.
End Step.

(** ** Moving the selection *)

Lemma sideways_ok N count s slot : inv N n count s -> current_gameselect_state s = SUBMENU_GAMESELECT_LOADER -> slot / 8 = selected_slot s / 8 ->
  inv N n count (set_slot slot (top_line_num s) s) /\ current_gameselect_state (set_slot slot (top_line_num s) s) = SUBMENU_GAMESELECT_LOADER.
Proof.
  intros Hi Hg Hs. split; [|done]. destruct Hi as [[]|[]]; [left|right]; constructor; cbn [number_of_lines grid_setup_done browser_lines top_line_num selected_slot current_gameselect_state asked set_slot];
    try done; rewrite ?Hg; try done; unfold MAX_LINES in *; zdm.
Qed.
Lemma move_sideways_ok N count s m : m = move_right \/ m = move_left -> inv N n count s -> current_gameselect_state s = SUBMENU_GAMESELECT_LOADER ->
  wp m (fun _ s => inv N n count s /\ current_gameselect_state s = SUBMENU_GAMESELECT_LOADER) s.
Proof.
  intros [-> | ->] Hi Hg; unfold move_right, move_left; apply wp_modify; case_match; try done; apply Z.eqb_neq in H; apply sideways_ok; try done; zdm.
Qed.

(** Where the selected line is, and which of the four rows it is in. *)
Lemma selected_row N count s : menu_ok N n count s -> N <= SCROLLS -> exists l, browser_lines s !! Z.to_nat (selected_slot s / 8) = Some l /\
  near (selected_slot s / 8 - top_line_num s) (get_position_after l).
Proof using Hn.
  intros [Hl _ Hlen Hg Ht Hs _] HN. set (i := selected_slot s / 8). assert (Hi : top_line_num s <= i < top_line_num s + 4) by (unfold i; zdm).
  change (Z.to_nat MAX_LINES) with 240%nat in Hlen.
  destruct (browser_lines s !! Z.to_nat i) as [l|] eqn:El; [|apply lookup_ge_None in El; lia]. exists l. split; [done|].
  apply (position_near N); [|done|lia]. replace (i - top_line_num s) with (- top_line_num s + Z.of_nat (Z.to_nat i)) by lia.
  apply Hg. rewrite lookup_take_lt by lia. exact El.
Qed.
Lemma wp_selected_position s l (Q : Z -> menu -> Prop) : browser_lines s !! Z.to_nat (selected_slot s / 8) = Some l -> Q (get_position_after l) s ->
  wp selected_position Q s.
Proof. intros E HQ. unfold selected_position. apply wp_bind, wp_get, wp_bind. rewrite E. cbn [wp of_option]. by apply wp_ret. Qed.
Lemma last_row r y : near r y -> 0 <= r <= 3 -> (f (DRAW_BOUND_BOTTOM - DRAW_OFFSET_Y - 10) <=? y) = (r =? 3).
Proof.
  intros Hy Hr. rewrite f_exact by done. change (DRAW_BOUND_BOTTOM - DRAW_OFFSET_Y - 10) with 262. unfold near in Hy. rewrite place_eq in Hy.
  pose proof w_pos as Hw. pose proof U_w as HU. pose proof (rows_le r 2) as Hrow. destruct (Z.eqb_spec r 3) as [->|]; [|specialize (Hrow ltac:(lia))]; compare_places.
Qed.
Lemma first_row r y : near r y -> 0 <= r <= 3 -> (y <=? f (DRAW_BOUND_TOP + DRAW_OFFSET_Y - 10)) = (r =? 0).
Proof.
  intros Hy Hr. rewrite f_exact by done. change (DRAW_BOUND_TOP + DRAW_OFFSET_Y - 10) with 150. unfold near in Hy. rewrite place_eq in Hy.
  pose proof w_pos as Hw. pose proof U_w as HU. pose proof (rows_le 1 r) as Hrow. destruct (Z.eqb_spec r 0) as [->|]; [|specialize (Hrow ltac:(lia))]; compare_places.
Qed.

Definition after_move (N count : Z) (s : menu) : Prop := number_of_lines s = 0 /\ (exists t, Start_thread t ∈ asked s) \/ (exists N', N' <= N + 1 /\ menu_ok N' n count s).
Lemma between_stays N count s : menu_between s -> after_move N count s.
Proof. intros [H0 _ _ _ Ht]. left. exact (conj H0 Ht). Qed.
Lemma between_moved N count s slot top : menu_between s -> after_move N count (set_slot slot top s).
Proof. intros [H0 _ _ _ Ht]. left. exact (conj H0 Ht). Qed.
Lemma wp_scroll_between dispatch delta N count s : menu_between s -> wp (scroll_list dispatch delta) (fun _ => after_move N count) s.
Proof.
  intros [H0 _ _ _ (t & Ht)]. unfold scroll_list. apply wp_bind, wp_get. destruct (dispatch _ _) as [r ls]. apply wp_bind, wp_modify.
  case_match; [|apply wp_ret; left; split; [done|by exists t]]. apply wp_bind, wp_modify, wp_modify. left. split; [done|].
  exists t. cbn. apply elem_of_app. by left.
Qed.

Lemma move_down_ok N count s : inv N n count s -> N < SCROLLS -> current_gameselect_state s = SUBMENU_GAMESELECT_LOADER ->
  wp move_down (fun _ => after_move N count) s.
Proof using Hn.
  intros Hi HN Hg. unfold move_down. apply wp_bind, wp_get. destruct Hi as [Hs|Hb].
  - pose proof (selected_row _ _ _ Hs ltac:(lia)) as (l & El & Hnear). pose proof Hs as [Hl Hsd Hlen Hgrid Ht Hsl _]. rewrite Hl.
    destruct ((n - top_line_num s =? 4) && (n * 8 - 1 <? selected_slot s + 8)) eqn:E; [apply wp_ret; right; exists N; split; [lia|done]|].
    apply wp_bind. apply (wp_selected_position s l); [done|]. rewrite (last_row (selected_slot s / 8 - top_line_num s)) by (done || zdm).
    destruct (Z.eqb_spec (selected_slot s / 8 - top_line_num s) 3) as [E3|E3].
    + assert (top_line_num s < n - 4).
      { apply andb_false_iff in E as [E|E]; [apply Z.eqb_neq in E; lia|apply Z.ltb_ge in E; zdm]. }
      unfold scroll_list. apply wp_bind, wp_get. rewrite Hl. pose proof (navigate_down_ok N n (top_line_num s) (browser_lines s) Hgrid HN ltac:(lia) ltac:(lia) Hlen) as Hnav.
      destruct (grid_dispatch_navigate_down n (browser_lines s)) as [r ls]. destruct Hnav as [Hlen' Hgrid']. apply wp_bind, wp_modify.
      destruct (r =? GRID_MOVE_SUCCESS); [apply wp_bind, wp_modify, wp_modify|apply wp_ret].
      * right. exists (N + 1). split; [lia|]. constructor; cbn; try done; try lia. by rewrite Hg.
      * right. exists N. split; [lia|]. constructor; cbn; try done; try lia. by rewrite Hg.
    + apply wp_modify. right. exists N. split; [lia|]. constructor; cbn; try done; [zdm|by rewrite Hg].
  - pose proof Hb as [H0 Hlen Hsl _ Has]. destruct (_ && _); [apply wp_ret; by apply between_stays|]. apply wp_bind.
    change (Z.to_nat MAX_LINES) with 240%nat in Hlen. unfold MAX_LINES in Hsl.
    destruct (browser_lines s !! Z.to_nat (selected_slot s / 8)) as [l|] eqn:El; [|apply lookup_ge_None in El; zdm].
    apply (wp_selected_position s l); [done|].
    destruct (_ <=? _); [by apply wp_scroll_between|apply wp_modify; by apply between_moved].
Qed.
Lemma move_up_ok N count s : inv N n count s -> N < SCROLLS -> current_gameselect_state s = SUBMENU_GAMESELECT_LOADER ->
  wp move_up (fun _ => after_move N count) s.
Proof using Hn.
  intros Hi HN Hg. unfold move_up. apply wp_bind, wp_get. destruct Hi as [Hs|Hb].
  - pose proof (selected_row _ _ _ Hs ltac:(lia)) as (l & El & Hnear). pose proof Hs as [Hl Hsd Hlen Hgrid Ht Hsl _].
    destruct ((top_line_num s =? 0) && (selected_slot s - 8 <? 0)) eqn:E; [apply wp_ret; right; exists N; split; [lia|done]|].
    destruct (Z.eqb_spec (top_line_num s) 0) as [E0|E0]; cbn [negb andb] in *.
    { apply Z.ltb_ge in E. apply wp_modify. right. exists N. split; [lia|]. constructor; cbn; try done; [lia|by rewrite Hg]. }
    apply wp_bind. apply (wp_selected_position s l); [done|]. rewrite (first_row (selected_slot s / 8 - top_line_num s)) by (done || zdm).
    destruct (Z.eqb_spec (selected_slot s / 8 - top_line_num s) 0) as [E3|E3].
    + unfold scroll_list. apply wp_bind, wp_get. rewrite Hl. pose proof (navigate_up_ok N n (top_line_num s) (browser_lines s) Hgrid HN ltac:(lia) ltac:(lia) Hlen) as Hnav.
      destruct (grid_dispatch_navigate_up n (browser_lines s)) as [r ls]. destruct Hnav as [Hlen' Hgrid']. apply wp_bind, wp_modify.
      destruct (r =? GRID_MOVE_SUCCESS); [apply wp_bind, wp_modify, wp_modify|apply wp_ret].
      * right. exists (N + 1). split; [lia|]. constructor; cbn; try done; try lia. by rewrite Hg.
      * right. exists N. split; [lia|]. constructor; cbn; try done; try lia. by rewrite Hg.
    + apply wp_modify. right. exists N. split; [lia|]. constructor; cbn; try done; [zdm|by rewrite Hg].
  - pose proof Hb as [H0 Hlen Hsl _ Has]. destruct (_ && _); [apply wp_ret; by apply between_stays|].
    destruct (negb _); [|apply wp_modify; by apply between_moved]. apply wp_bind.
    change (Z.to_nat MAX_LINES) with 240%nat in Hlen. unfold MAX_LINES in Hsl.
    destruct (browser_lines s !! Z.to_nat (selected_slot s / 8)) as [l|] eqn:El; [|apply lookup_ge_None in El; zdm].
    apply (wp_selected_position s l); [done|].
    destruct (_ <=? _); [by apply wp_scroll_between|apply wp_modify; by apply between_moved].
Qed.

(** ** A frame, and histories of them *)

(** The stick points up or down, not both. *)
Definition one_way (fr : frame) : Prop := bit (analog_down fr) ANALOG_DOWN && bit (analog_down fr) ANALOG_UP = false.
Definition moved (N count : Z) (s : menu) : Prop :=
  number_of_lines s = 0 /\ (exists t, Start_thread t ∈ asked s) \/ (exists N', N' <= N /\ menu_ok N' n count s).
Lemma inv_moved N count s : inv N n count s -> moved N count s.
Proof. intros [Hs|[H0 _ _ _ Ht]]; [right; by exists N|by left]. Qed.

Lemma navigate_ok fr N count s : one_way fr -> inv N n count s -> N + (if vertical fr then 1 else 0) <= SCROLLS ->
  wp (navigate fr) (fun _ => moved (N + if vertical fr then 1 else 0) count) s.
Proof using Hn.
  intros Hone Hi HN. unfold navigate. apply wp_bind, wp_get. destruct (bool_decide _) eqn:Eg.
  2:{ apply wp_ret. destruct (inv_moved _ _ _ Hi) as [?|(N' & ? & ?)]; [by left|]. right. exists N'. split; [destruct (vertical fr); lia|done]. }
  apply bool_decide_eq_true in Eg.
  assert (Hside : forall b m s, m = move_right \/ m = move_left -> inv N n count s -> current_gameselect_state s = SUBMENU_GAMESELECT_LOADER ->
    wp (when b m) (fun _ s => inv N n count s /\ current_gameselect_state s = SUBMENU_GAMESELECT_LOADER) s).
  { intros b m s0 Hm Hi0 Hg0. destruct b; [by apply move_sideways_ok|by apply wp_ret]. }
  apply wp_bind. eapply wp_mono; [apply Hside; [by left|done|done]|]. intros [] s1 [Hi1 Hg1].
  apply wp_bind. eapply wp_mono; [apply Hside; [by right|done|done]|]. intros [] s2 [Hi2 Hg2].
  unfold one_way, vertical in *. destruct (bit (analog_down fr) ANALOG_DOWN), (bit (analog_down fr) ANALOG_UP); try done; cbn [orb when] in *; apply wp_bind.
  - eapply wp_mono; [apply move_down_ok; [done|lia|done]|]. intros u0 s3 H3. by apply wp_ret.
  - apply wp_ret. eapply wp_mono; [apply move_up_ok; [done|lia|done]|]. by intros u0 s3 H3.
  - apply wp_ret, wp_ret. rewrite Z.add_0_r. by apply inv_moved.
Qed.

Lemma handle_ok ntsc fr N count s : one_way fr -> menu_ok N n count s -> N + (if vertical fr then 1 else 0) <= SCROLLS ->
  count <= Z.of_nat (length (entries (fr_list fr))) -> game_backing_count (fr_list fr) <= count ->
  wp (handle_gameselect_inputs ntsc fr) (fun _ => moved (N + if vertical fr then 1 else 0) count) s.
Proof using Hn.
  intros Hone Hs HN Hc Hb. assert (HN' : N <= SCROLLS) by (destruct (vertical fr); lia).
  assert (Hmono : forall s, inv N n count s -> moved (N + if vertical fr then 1 else 0) count s).
  { intros s0 [H0|[H0 _ _ _ Ht]]; [right; exists N|by left]. split; [destruct (vertical fr); lia|done]. }
  unfold handle_gameselect_inputs. apply wp_bind, wp_modify, wp_bind, wp_modify, wp_bind.
  assert (Hi : inv N n count s) by (by left). assert (H0 : number_of_lines s <> 0) by (rewrite (mo_lines _ _ _ _ Hs); lia).
  pose proof (or_introl (update_step N count ntsc s Hi HN' H0) : inv N n count _) as Hi1.
  eapply wp_mono; [by apply press_z_ok|]. intros [] s2 Hi2.
  apply wp_bind. eapply wp_mono; [by apply press_b_ok|]. intros back s3 Hi3. destruct back; [apply wp_ret; by apply Hmono|].
  apply wp_bind. eapply wp_mono; [by apply press_a_ok|]. intros [] s4 Hi4.
  apply wp_bind. eapply wp_mono; [by eapply press_start_ok|]. intros go s5 Hi5. apply wp_bind.
  destruct go; [|apply wp_ret, wp_ret; by apply Hmono].
  eapply wp_mono; [by apply navigate_ok|]. intros u0 s6 Hs6. by apply wp_ret.
Qed.

(** The list of entries only grows while it is shown, and counts what is in it. *)
Fixpoint growing (count : Z) (frs : list frame) : Prop :=
  match frs with
  | [] => True
  | fr :: frs =>
      let count := Z.max count (game_backing_count (fr_list fr)) in
      one_way fr /\ count <= Z.of_nat (length (entries (fr_list fr))) /\ growing count frs
  end.

Lemma presses_cons fr frs : presses (fr :: frs) = (if vertical fr then 1 else 0) + presses frs.
Proof. unfold presses. rewrite filter_cons. destruct (vertical fr); [rewrite decide_True by done|rewrite decide_False by done]; cbn [length]; lia. Qed.
Lemma frames_ok ntsc frs : forall N count s, moved N count s -> growing count frs -> N + presses frs <= SCROLLS ->
  wp (frames ntsc frs) (fun _ s => exists count, moved (N + presses frs) count s) s.
Proof using Hn.
  induction frs as [|fr frs IH]; intros N count s Hs Hg HN; cbn [frames growing] in *.
  - apply wp_ret. exists count. unfold presses. cbn. by rewrite Z.add_0_r.
  - destruct Hg as (Hone & Hc & Hg). rewrite presses_cons in *. assert (0 <= presses frs) by (unfold presses; lia). apply wp_bind, wp_get.
    destruct Hs as [[H0 Ht]|(N' & HN' & Hs)]; [rewrite H0; apply wp_ret; exists count; by left|].
    rewrite (mo_lines _ _ _ _ Hs). rewrite (proj2 (Z.eqb_neq n 0)) by lia. apply wp_bind.
    assert (Hs' : inv N' n (Z.max count (game_backing_count (fr_list fr))) s) by (apply (inv_count N' count); [by left|lia]).
    destruct Hs' as [Hs'|[H0 _ _ _ _]]; [|rewrite (mo_lines _ _ _ _ Hs) in H0; lia].
    eapply wp_mono; [apply (handle_ok ntsc fr N'); [done|exact Hs'|lia|lia|lia]|]. intros r s1 Hs1.
    eapply wp_mono; [apply (IH _ _ s1 Hs1 Hg); lia|]. intros u0 s2 (c & Hs2). exists c.
    destruct Hs2 as [?|(N2 & ? & ?)]; [by left|]. right. exists N2. split; [lia|done].
Qed.
End Frame.

(** ** What is on the screen *)

(** Rounding and what is left over move a line by less than this. *)
Definition TEN_PIXELS : Z := 10 * F32_UNIT.
(** The [r]th row of the screen is at its place, or on its way there. *)
Definition row_shown (s : menu) (r : Z) : Prop := exists l, browser_lines s !! Z.to_nat (top_line_num s + r) = Some l /\
  Z.abs (get_position_after l - (DRAW_BOUND_TOP + DRAW_OFFSET_Y * r) * F32_UNIT) < TEN_PIXELS.
Lemma menu_ok_rows n N count s r : 4 <= n <= 240 -> menu_ok N n count s -> N <= SCROLLS -> 0 <= r < 4 -> row_shown s r.
Proof.
  intros Hn [Hl _ Hlen Hg Ht Hs _] HN Hr. change (Z.to_nat MAX_LINES) with 240%nat in Hlen. unfold row_shown, TEN_PIXELS.
  destruct (browser_lines s !! Z.to_nat (top_line_num s + r)) as [l|] eqn:El; [|apply lookup_ge_None in El; lia]. exists l. split; [done|].
  assert (Hok : line_ok N r l).
  { replace r with (- top_line_num s + Z.of_nat (Z.to_nat (top_line_num s + r))) by lia. apply Hg. rewrite lookup_take_lt by lia. exact El. }
  pose proof (position_near N r l Hok HN ltac:(lia)) as Hnear. pose proof w_pos. pose proof U_w. unfold near, place in Hnear. lia.
Qed.

Lemma setup_list_ok line_count s : 0 <= line_count <= 1920 -> current_gameselect_state s = SUBMENU_GAMESELECT_LOADER ->
  wp (gm_setup_grid line_count true) (fun _ => menu_ok 0 (lines_of line_count) 0) s.
Proof.
  intros Hc Hg. assert (Hn : 4 <= lines_of line_count <= 240).
  { unfold lines_of. rewrite Z.shiftr_div_pow2 by lia. change (2 ^ 3) with 8. zdm. }
  unfold gm_setup_grid. apply wp_bind, wp_modify, wp_bind, wp_get. cbn [number_of_lines set_number].
  destruct (grid_setup_ok (lines_of line_count)) as (ls & El & Hlen & Hok); [lia|]. rewrite El. apply wp_bind. cbn [wp of_option]. apply wp_modify.
  constructor; try done; cbn; [unfold START_LINE; lia|by rewrite Hg].
Qed.

(** C40. The selection stays on the screen.  A list of up to 1920 entries is set
    up, then whatever is pressed in however many frames, up to 600 of them with
    the stick up or down and none with both at once, while the entries counted as
    choosable are there and their list does not get shorter: every frame returns, and unless a new list has been
    begun: the list's window begins at a line from which four can be shown, the
    selected slot is one of the 32 of these lines, and each of the four is, once its
    animation has run out, less than ten pixels from its row of the screen - with
    all sums of the animation rounded as the machine rounds them. *)
Theorem selection_stays_on_screen ntsc line_count frs s :
  0 <= line_count <= 1920 -> current_gameselect_state s = SUBMENU_GAMESELECT_LOADER -> growing 0 frs -> presses frs <= 600 ->
  wp (gm_setup_grid line_count true ;; frames ntsc frs)
    (fun _ s =>
      number_of_lines s = 0 /\ (exists t, Start_thread t ∈ asked s) \/
      number_of_lines s = lines_of line_count /\ 0 <= top_line_num s <= number_of_lines s - 4 /\
      8 * top_line_num s <= selected_slot s < 8 * (top_line_num s + 4) /\ (forall r, 0 <= r < 4 -> row_shown s r)) s.
Proof.
  intros Hc Hg Hgrow Hp. assert (Hn : 4 <= lines_of line_count <= 240).
  { unfold lines_of. rewrite Z.shiftr_div_pow2 by lia. change (2 ^ 3) with 8. zdm. }
  apply wp_bind. eapply wp_mono; [by apply setup_list_ok|]. intros [] s1 Hs1.
  eapply wp_mono; [apply (frames_ok _ Hn ntsc frs 0 0); [right; by exists 0|done|done]|].
  intros [] s2 (count & [H0|(N & HN & Hs2)]); [by left|right]. assert (N <= SCROLLS) by (unfold SCROLLS; lia).
  assert (Hrows : forall r, 0 <= r < 4 -> row_shown s2 r) by (intros r Hr; by eapply menu_ok_rows). destruct Hs2 as [-> _ _ _ Ht Hs _]. split_and!; try done; lia.
Qed.

(** A list of forty entries; the stick is pointed down four times, up once and
    to the right once. *)
Definition some_frame (stick : Z) : frame :=
  mk_frame 0 stick (mk_listing (replicate 40 (mk_entry FILE_GAME [])) 40 true) (mk_drive false false true false).
Definition some_frames : list frame := some_frame <$> [ANALOG_DOWN; ANALOG_DOWN; ANALOG_DOWN; ANALOG_DOWN; ANALOG_UP; ANALOG_RIGHT].
Lemma some_run : exists s, (gm_setup_grid 40 true ;; frames true some_frames) menu_init = Some (tt, s) /\
  (number_of_lines s, top_line_num s, selected_slot s) = (5, 1, 25).
Proof.
  set (run := (gm_setup_grid 40 true ;; frames true some_frames) menu_init).
  assert (E : (fun '(_, s) => (number_of_lines s, top_line_num s, selected_slot s)) <$> run = Some (5, 1, 25)) by (vm_compute; reflexivity).
  destruct run as [[[] s]|]; [|done]. exists s. split; [done|]. by injection E as -> -> ->.
Qed.
Lemma selection_stays_on_screen_witness :
  exists s, (gm_setup_grid 40 true ;; frames true some_frames) menu_init = Some (tt, s) /\ top_line_num s = 1 /\ selected_slot s = 25 /\
    (forall r, 0 <= r < 4 -> row_shown s r).
Proof.
  destruct some_run as (s & E & Es). exists s. split; [exact E|]. injection Es as En Et Esel.
  assert (Hg : growing 0 some_frames) by (repeat split; vm_compute; discriminate).
  pose proof (wp_run _ _ _ _ _ (selection_stays_on_screen true 40 some_frames menu_init ltac:(split; discriminate) eq_refl Hg ltac:(vm_compute; discriminate)) E) as H.
  destruct H as [[H _]|(_ & _ & _ & H)]; [rewrite En in H; discriminate|]. exact (conj Et (conj Esel H)).
Defined.

(** When the list gets shorter after it has been scrolled to its end - files
    that are no games are taken out of it once it is on the screen - the test for
    the last line no longer applies, and the selection leaves the list. *)
Lemma shrunk_list_is_left :
  exists s, (gm_setup_grid 40 true ;; frames true (take 4 some_frames) ;; gm_setup_grid 30 false ;; frames true (take 3 some_frames)) menu_init = Some (tt, s) /\
    (number_of_lines s, top_line_num s, selected_slot s) = (4, 2, 56).
Proof.
  match goal with |- exists s, ?r = _ /\ _ => set (run := r) end.
  assert (E : (fun '(_, s) => (number_of_lines s, top_line_num s, selected_slot s)) <$> run = Some (4, 2, 56)) by (vm_compute; reflexivity).
  destruct run as [[[] s]|]; [|done]. exists s. split; [done|]. by injection E as -> -> ->.
Qed.

(** B and A in one frame: the way back is begun, and A then finds an empty list. *)
Lemma back_before_choice :
  let fr := mk_frame (PAD_BUTTON_A + PAD_BUTTON_B) 0 (mk_listing [mk_entry FILE_DIRECTORY [47; 97]] 1 false) (mk_drive false false true false) in
  (fun '(_, s) => asked s) <$> (gm_setup_grid 1 true ;; frames true [fr; fr]) menu_init = Some [Start_thread [46; 46]].
Proof. by vm_compute. Qed.

(** ** Between the list and a game's screen *)

Definition tick (ntsc : bool) (s : menu) : menu := step_transition (transition_step ntsc) (end_transition (transition_step ntsc) s).
(** What is not on its way shows one of the two screens whole. *)
Definition settled (s : menu) : Prop := in_submenu_transition s = false /\
  (custom_alpha s, original_alpha s) = match current_gameselect_state s with SUBMENU_GAMESELECT_LOADER => (255, 0) | SUBMENU_GAMESELECT_START => (0, 255) end.
Definition other (g : gameselect) : gameselect :=
  match g with SUBMENU_GAMESELECT_LOADER => SUBMENU_GAMESELECT_START | SUBMENU_GAMESELECT_START => SUBMENU_GAMESELECT_LOADER end.

(** A change of screens is over after nineteen frames, sixteen in PAL modes, and
    not before; meanwhile the two are blended to full strength, and afterwards
    nothing changes any more. *)
Lemma submenu_transition_ends (ntsc : bool) s k : settled s ->
  let s0 := set_submenu (other (current_gameselect_state s)) true s in
  let last := if ntsc then 19%nat else 16%nat in
  settled (Nat.iter last (tick ntsc) s0) /\ tick ntsc (Nat.iter last (tick ntsc) s0) = Nat.iter last (tick ntsc) s0 /\
  ((k < last)%nat -> let sk := Nat.iter k (tick ntsc) s0 in in_submenu_transition sk = true /\ custom_alpha sk + original_alpha sk = 255).
Proof.
  intros [Ht Ha]. destruct s as [slot top ls done_ num g moving ca oa pass ready be rs]. cbn in Ht, Ha.
  destruct ntsc, g; injection Ha as -> ->; cbv zeta; (split; [by vm_compute|]); (split; [by vm_compute|]); intros Hk;
    do 19 (destruct k as [|k]; [first [by vm_compute|exfalso; lia]|]); lia.
Qed.
