(* ===== verification/BnrOffsets.v ===== *)
(** The table of src/patches/source/bnr_offsets.c: where the banner is on the discs
    whose header has a known checksum.  The table is split into blocks of 128
    rows. *)

From S2P Require Import Prelude.

Definition bnr_offsets_count : Z := 3815.
Definition bnr_offsets_0 : list (Z * Z) :=
  [(0xf898f583, 0x56058ed4); (0xc48bc35e, 0x4ea40000); (0xde311e04, 0x44e8d0e4); (0x54632c3a, 0x4ad03634);
   (0xaf5cc6bc, 0x56fd4860); (0xde54d035, 0x06e073c0); (0x060bd7bb, 0x00270000); (0x09c804c0, 0x25c5e6a0);
   (0x30e55272, 0x00c498c4); (0x3c12e21f, 0x40e80000); (0x28c0bfb5, 0x4ffafc04); (0x77f999d0, 0x171c1420);
   (0x81144c3d, 0x56ec35b8); (0x93a7f73c, 0x50a700f0); (0x966dba7d, 0x57056060); (0xe51578ff, 0x4246e030);
   (0x0950bb53, 0x570566a0); (0x77759b4a, 0x3f51f68c); (0x5b5bd2c6, 0x54910c04); (0x86655e80, 0x00230000);
   (0x411b8f39, 0x49ea0f74); (0x8df3f120, 0x2a0d7ea0); (0x0f222ea3, 0x2c0874c8); (0xf9685069, 0x00c32f74);
   (0x96168baa, 0x0bda1988); (0xf1dbc4b2, 0x3db00000); (0x17f71142, 0x55d81478); (0x548930fd, 0x477dd880);
   (0x20f462c1, 0x570566a0); (0xc4aee11e, 0x321fe6a0); (0x432327d5, 0x05c9df80); (0x9c699bb4, 0x570566a0);
   (0xbe9c9c7c, 0x002d8010); (0x8235eeb1, 0x2e1c8a20); (0x908cc5e6, 0x557ec778); (0x1ea0bb35, 0x01b1f668);
   (0x669eb62f, 0x3af48500); (0xdadd5f69, 0x45fd501c); (0x4305ebca, 0x00060440); (0x466cfad6, 0x1100518c);
   (0x634eb2e7, 0x00418000); (0x18a448ea, 0x302266a0); (0x4c43b999, 0x003d263c); (0xba710df6, 0x56069c08);
   (0x17d0d0e2, 0x2943ac68); (0x9036e02d, 0x1c8e77dc); (0xb31b135f, 0x399cc288); (0xeb1d7f5e, 0x00c24a4c);
   (0xb5f18afb, 0x31a690e8); (0x8c0b7f28, 0x00e086cc); (0x1153f682, 0x001c0000); (0x180f26ad, 0x3865ab38);
   (0xfc961e21, 0x07a90ae0); (0xfb1d8fba, 0x001c0000); (0x8660218a, 0x0cdb811c); (0xd5c32ded, 0x52ad703c);
   (0x9b4c6b09, 0x2b7aad60); (0x2a517931, 0x426774b0); (0x9b836ef4, 0x266bc8a0); (0x33d350be, 0x00bb0960);
   (0x2be6dd21, 0x002c8384); (0x95a11510, 0x57055d60); (0x81b26584, 0x001c0000); (0xd879f0d0, 0x0b48cd20);
   (0xa68819b7, 0x4711ce04); (0xf1054cd5, 0x257bcdfc); (0x89a1345b, 0x0350cec0); (0xf18b2a1f, 0x470eafa0);
   (0x06e3687e, 0x2c4831f8); (0xfe8f4645, 0x570566a0); (0xf9740ed1, 0x17302d5c); (0x3f56dda7, 0x4927aaa4);
   (0x7a250455, 0x19ad17e0); (0x74a641cf, 0x5603bd44); (0xcbac90a0, 0x2b44d9a8); (0x7b58aecc, 0x0e444fb4);
   (0x61a0e84d, 0x570566a0); (0x0b1b6a06, 0x470299fc); (0x81dccbd3, 0x4f15f904); (0x2d60c645, 0x004b8000);
   (0x5686e6eb, 0x2c35a8e0); (0x47a0cc8c, 0x522603cc); (0xafa16da4, 0x000b8000); (0xaa41b1b9, 0x57016e40);
   (0xd13d0c63, 0x53570ba0); (0xdaa0eddf, 0x1100515c); (0xa79d48e9, 0x569a65b0); (0x361c31e1, 0x00170000);
   (0x0494136c, 0x0c55b200); (0xca74bd1c, 0x0089a700); (0x6ea00b37, 0x0d5ebbb8); (0xad9ba20c, 0x487ff334);
   (0xdad6a740, 0x22c4149c); (0x7a6a6361, 0x102c0618); (0x81fe3135, 0x29a57450); (0x7c6412c4, 0x46ba3000);
   (0xc9c98582, 0x570566a0); (0x2550b371, 0x003c0000); (0x753632ab, 0x00300000); (0x4dfefc51, 0x524640cc);
   (0xd8dcfaa6, 0x26b85000); (0x55554fba, 0x1f42d4fc); (0x1c5b050e, 0x00220000); (0xe3ed0432, 0x55f91094);
   (0xec9e7b82, 0x33d0c944); (0xb58e89b6, 0x543e93ec); (0x34c9ccc1, 0x5192a608); (0x6dd1c4ec, 0x57056060);
   (0xc55316b8, 0x10ab2320); (0x300d5d1c, 0x2785218c); (0xc5594ad7, 0x00471280); (0xdcfb427b, 0x4873b08c);
   (0xce1632c7, 0x57055fe0); (0x1879964a, 0x0034de20); (0x10a84acd, 0x52d29d88); (0x6438c768, 0x442b8240);
   (0xf101714d, 0x33d40660); (0x6592ba6d, 0x00fd5b2c); (0xbc2d6dfe, 0x1068a6c0); (0xe0f1b5e3, 0x385b4a1c);
   (0xaa7cb403, 0x57016e40); (0x84660a2f, 0x19f84980); (0xd92b9723, 0x001c0000); (0x51f1fa36, 0x2de281b0);
   (0x0d321f67, 0x1dbd0ea4); (0xfcf7c017, 0x1552ac80); (0x8f70a2a2, 0x1e28afa8); (0x9b3b1162, 0x04d4a6dc)].
Definition bnr_offsets_1 : list (Z * Z) :=
  [(0x2c208aa5, 0x3738a08c); (0x8426ff92, 0x56c38544); (0x39231e85, 0x2b40ac90); (0x2ca00ded, 0x2f2fa5fc);
   (0x9caf5279, 0x4e098894); (0x678c258d, 0x25a6ae24); (0x8dcea407, 0x00391a14); (0x4dffe2fb, 0x4873ba3c);
   (0x057c0f50, 0x4c50b124); (0x7753875e, 0x2df34728); (0x4dfa7cb7, 0x570566a0); (0x423d285e, 0x158d5000);
   (0x9dd80f22, 0x56985390); (0xa3080a11, 0x00150020); (0x79cb26da, 0x273d8b34); (0xf09df0a3, 0x246c2de0);
   (0x423ee298, 0x570566a0); (0x85e21bec, 0x21e66ba0); (0x6ebc16f3, 0x3e78dc74); (0x86347911, 0x1d22c9d4);
   (0xb9091a38, 0x4ac3e004); (0xadfc30f9, 0x56f3fad4); (0xa14d498f, 0x00cc2010); (0x9147ed66, 0x1a2f9660);
   (0xefb5832b, 0x278c31e0); (0x1c6f2e8c, 0x05ac76f4); (0xd27ec3be, 0x482a6120); (0xd81e452b, 0x30c3ae1c);
   (0x16639485, 0x05640000); (0x755a8f49, 0x527b84f0); (0x77d3e304, 0x4ae59354); (0xdd52cdac, 0x5652f504);
   (0x40ca2fd4, 0x4d3350fc); (0x34fc0cac, 0x2a753de0); (0xf6903439, 0x225a1054); (0xc16b7d39, 0x09670ccc);
   (0x873fe2d9, 0x001e8000); (0x94c8c806, 0x43a523ac); (0xc40fd132, 0x528d5a44); (0x504a936d, 0x557af338);
   (0xb8e942dc, 0x27d0621c); (0xc69f55d5, 0x1f517be4); (0xa7dc6f07, 0x570566a0); (0x87baf1cc, 0x4e9eb258);
   (0xfab8bfa7, 0x08b5b420); (0x99a3339a, 0x56d0343c); (0x3a13cf4f, 0x001f0000); (0x71295648, 0x5225aa90);
   (0x8026be4e, 0x097ecefc); (0x1580c200, 0x4112c974); (0x28d535ce, 0x44338240); (0x3aa1dd8c, 0x4cc2e790);
   (0x2f482992, 0x449f684c); (0x6e172593, 0x570566a0); (0x1c85ce97, 0x3af38000); (0x7b08477d, 0x56ec5d0c);
   (0xcbcefd0b, 0x4277a800); (0x031097b2, 0x28b68894); (0x17aea596, 0x47c24a7c); (0xdd22cdb4, 0x570566a0);
   (0xa35f3b88, 0x00218000); (0x5d7950e4, 0x5642cc34); (0x1d998975, 0x1e5c5fa8); (0x471d63e0, 0x013dd854);
   (0xcfb3426e, 0x447c8240); (0x20fb9cf3, 0x07c26c70); (0x77463395, 0x002d8010); (0x2d95e61f, 0x4daa8000);
   (0xbd824c0f, 0x0fcb66a0); (0xa90949b4, 0x25b06f80); (0xa202f31e, 0x19663f8c); (0x9eacbf9a, 0x19df68e0);
   (0x85b2ece4, 0x50922334); (0x09ee3b26, 0x2a2f9708); (0x4223c30e, 0x564e7af8); (0xa0e9b4ca, 0x1458c2e8);
   (0xc23e6015, 0x0126b474); (0x20ec05af, 0x1eee3840); (0xec860e00, 0x00729d1c); (0x505a77ba, 0x2c14a64c);
   (0x9ded759b, 0x57014e40); (0x45c87ccf, 0x164322a0); (0xfa5bcbd4, 0x00300000); (0x3d413244, 0x2212ac6c);
   (0x8041f4cf, 0x45390000); (0x09302a9a, 0x28f8c030); (0x486536f2, 0x56a024c8); (0x7e8e4a90, 0x29f4a074);
   (0x7d945ef8, 0x291f1b20); (0x1a9f26c9, 0x55bb28e0); (0xf3d239b1, 0x420be850); (0x4142d4da, 0x56069a48);
   (0xf1df685f, 0x01bb3654); (0x30f0616f, 0x2bc266a0); (0xa71e374c, 0x5536c240); (0x84770757, 0x428a9400);
   (0x66fd9c4f, 0x427f8e60); (0x6f417310, 0x07bcc580); (0x7bd9b3f1, 0x53d33840); (0x7d2c4e67, 0x00edc8e0);
   (0x8d20e2d5, 0x1dd4c868); (0x929a09a6, 0x17616060); (0x783334b9, 0x37468b6c); (0x00714bbd, 0x27a3d6ac);
   (0xd0481db5, 0x0131f770); (0x1167e42c, 0x29338000); (0xeb384dab, 0x00e406cc); (0x5a2d340e, 0x271cade4);
   (0x4d189091, 0x570566a0); (0x635c944e, 0x271b3c9c); (0x03ae8c57, 0x56d3c7c0); (0xa0681bf4, 0x46cedbb4);
   (0xbff8f434, 0x2eec859c); (0xfee46957, 0x0059dfe0); (0x38b1a4db, 0x513703cc); (0x81cb9acf, 0x32c3b0fc);
   (0x171308c3, 0x35cf915c); (0xea3f1e54, 0x34f0028c); (0xe5553cd5, 0x529c14a4); (0x56077f95, 0x37ce5d70);
   (0x4500260a, 0x0fe7252c); (0x7b9cd6ac, 0x4927aaa4); (0xed55e7d5, 0x1f30bc3c); (0xe7d13c52, 0x0379d668);
   (0x3ae02b73, 0x198ad76c); (0xdf8a947c, 0x24d9c660); (0x3ace8b51, 0x07bd19c4); (0x0a8f5516, 0x476a32e8)].
Definition bnr_offsets_2 : list (Z * Z) :=
  [(0x536e33ba, 0x4da98000); (0xa0e8eaac, 0x1dfa3ac8); (0xe2d9fa5f, 0x43b066e8); (0x8e3777dc, 0x001ec610);
   (0x269a35a0, 0x174ea564); (0x0f51a329, 0x3e4c45d0); (0x73b62776, 0x4e4002b8); (0x5ce255c7, 0x570566a0);
   (0xe3c61a4e, 0x21097180); (0xcffb6e7a, 0x57056060); (0xe456c52e, 0x4646e31c); (0xde270eab, 0x3a1220b4);
   (0xca9cd414, 0x3f6dd1e0); (0x450b2f81, 0x00270000); (0xdbf77431, 0x017fe6a0); (0xd10ec50b, 0x4d01edac);
   (0x8b5775f9, 0x0128b474); (0x4f9ece06, 0x570566a0); (0x1e8c41ef, 0x432a2a00); (0x951fafcd, 0x55a27b08);
   (0xff48a58c, 0x24ea66a0); (0x04626c8c, 0x31b62dc8); (0x602cb27f, 0x07a67480); (0xf18dcde5, 0x56486b40);
   (0x52a33f5a, 0x1e6d2808); (0x55629cee, 0x1d84f1dc); (0x7ae8d3c3, 0x07401f80); (0x548b0d99, 0x113ea514);
   (0x4392d545, 0x570566a0); (0x463ee6b4, 0x24bbf32c); (0x6848bbc0, 0x00263800); (0x7374193f, 0x2b8e038c);
   (0xbb7d022b, 0x42a79404); (0xdd43c3af, 0x3c7a8894); (0x566e93aa, 0x2bacd778); (0x29d89836, 0x2b222434);
   (0x0d822941, 0x3542abe8); (0x57181227, 0x00249960); (0x832f32dc, 0x060fe6a0); (0x53977a60, 0x295d66a0);
   (0x87f99d1c, 0x4c3d4e20); (0xa4d93c6e, 0x474fc240); (0x8f711953, 0x04596eac); (0x922f6570, 0x00278000);
   (0x9a71f3e2, 0x00278000); (0xb4eae4d8, 0x004b8000); (0x9b90f106, 0x2509e6a0); (0x3e5233ab, 0x14ce71d0);
   (0xe8b247df, 0x4873b6cc); (0x4172727e, 0x57016e40); (0x93f39118, 0x51927040); (0x302f9136, 0x0030b20c);
   (0xcf3372a6, 0x0540bcb0); (0x01e2f1a3, 0x0208addc); (0x05c4d39b, 0x3e702dbc); (0x9d97bbb0, 0x39629640);
   (0x32708b1e, 0x170dcba0); (0x953b42b8, 0x570566a0); (0x45920605, 0x00533000); (0x412e8dd9, 0x1b5fa3e0);
   (0x186643b7, 0x57056060); (0xf11e2b11, 0x3eff56a0); (0x9e3a21ac, 0x568bda48); (0xac982fa6, 0x57016e40);
   (0xccd8d825, 0x0107cf80); (0x25136e9e, 0x57016e40); (0xdb8c199b, 0x059a80c0); (0x26025090, 0x00c498c4);
   (0x4e461ebe, 0x55e7836c); (0x8a194ba6, 0x00278000); (0x0590fe53, 0x46a10000); (0x5b2e0ad2, 0x07f549f0);
   (0x8f790505, 0x48374934); (0x18247194, 0x21574ce4); (0xca187941, 0x4ebe00cc); (0xe8d040f3, 0x20d1c5c8);
   (0xe25d2081, 0x570563a0); (0xb6abc3b2, 0x231d56cc); (0xdeda1015, 0x0c92b484); (0xbd1c511a, 0x072f9a80);
   (0x0a29ed4e, 0x1beddc98); (0x3cad3f89, 0x51d1dea0); (0xdd00b227, 0x4faeb43c); (0xf3f452d0, 0x00410000);
   (0xfee0138d, 0x1ddce9c8); (0xd04bb64a, 0x4cbc8fc8); (0x6d3128fc, 0x018704e8); (0x247ad4a3, 0x1c1a6d6c);
   (0x1f732697, 0x104878e8); (0x38005e68, 0x52aebb60); (0x058a093a, 0x05a0220c); (0x23ed5420, 0x278f4000);
   (0xc1ecc9c6, 0x38f18800); (0xb8f72a21, 0x01bb3654); (0xb15ce719, 0x56cfff1c); (0x9498271c, 0x00066680);
   (0x828401b2, 0x2f93adc8); (0xe4d05ccc, 0x25a49b40); (0x830dd5b8, 0x46862000); (0x363375d0, 0x40fa6854);
   (0x6e4d2d44, 0x0e3e47a8); (0xc9f376ff, 0x059680c0); (0x014c7801, 0x4927aaa4); (0x8e244220, 0x2990e714);
   (0xc50f41bb, 0x4839f1a0); (0x90b77198, 0x38edc000); (0x37c166f2, 0x00220000); (0x62e92950, 0x2d273f0c);
   (0x7e480a3e, 0x132e2a20); (0x31077874, 0x458d0000); (0x9af1ffb2, 0x0f5f2a0c); (0x9399c10c, 0x54207574);
   (0x031693ad, 0x2131254c); (0xc24a4ef2, 0x4d5784a0); (0xa49d6b92, 0x1b5e1a80); (0xb09c29aa, 0x4d716640);
   (0x2fc53568, 0x13016f40); (0x4d57e7d9, 0x57056060); (0x218dc173, 0x0126b474); (0x67cfa349, 0x190498a0);
   (0x571e7577, 0x2767a854); (0x62e1af2d, 0x45968894); (0x423b61d5, 0x00b2d634); (0x4ec69dad, 0x3a121a74);
   (0xfd38c4a1, 0x00220000); (0x0127c192, 0x0292e6a0); (0x3ff0c747, 0x001f8000); (0x3d5d0205, 0x33336740)].
Definition bnr_offsets_3 : list (Z * Z) :=
  [(0x3e9247b5, 0x4d6f5d40); (0x8a2584b3, 0x555b651c); (0x5f7721b6, 0x06cfb730); (0x1a977e63, 0x001f8000);
   (0x0ce067d2, 0x4f199bac); (0x8cb08b1d, 0x27a1e1c8); (0xb27ac5bf, 0x55d84740); (0x6306ef00, 0x48af1600);
   (0xa2e8ad2f, 0x524d66a0); (0xbe4a939b, 0x00278000); (0x81265c81, 0x0184f734); (0xbac942ea, 0x3164d7f8);
   (0x62b6451d, 0x00568000); (0xec8b44e8, 0x57050000); (0xac0c8ff3, 0x4b8834a8); (0xf5574289, 0x570566a0);
   (0x4954c8ce, 0x0f97db0c); (0xec6b12ea, 0x01518668); (0x7f539132, 0x56f2fee0); (0x8c05d69d, 0x55408654);
   (0x7ce1bafe, 0x0abab64c); (0x1734738d, 0x570566a0); (0x6186c57a, 0x56c3a94c); (0xe120a241, 0x03e7c254);
   (0x7426158c, 0x52ec28f0); (0xacf0bfef, 0x57054fc0); (0xa81c6fdf, 0x379bf368); (0x931b1555, 0x00270000);
   (0x764e82ce, 0x03ac4720); (0xe41e10e8, 0x52dc40b4); (0x8ae758d1, 0x0dc8b658); (0x860032d8, 0x457266a0);
   (0x4599ee8a, 0x1e6d2808); (0x3c5f7366, 0x29bf37e0); (0x97c8abfa, 0x4bf6624c); (0x80c7f0c7, 0x51a28000);
   (0x917320df, 0x1ccb296c); (0x07cc5896, 0x256d6020); (0x0a6821d9, 0x30100d90); (0x69661e9c, 0x54243320);
   (0x230bf081, 0x2300e6a0); (0xc9cd0de9, 0x1e580a20); (0x24286eda, 0x0c32a548); (0xbb04cda1, 0x262c0000);
   (0x141082ed, 0x1458c8c0); (0x714f331b, 0x0341e6a0); (0xc04715ac, 0x570566a0); (0x280e009d, 0x5239d604);
   (0x2f7f4cb2, 0x0c499b50); (0xfd14b66b, 0x3aaf380c); (0xa6e78f02, 0x3a8ac0a0); (0xd3734643, 0x570566a0);
   (0x217774d4, 0x564d20d8); (0xb12c32ba, 0x26d139fc); (0x90f90559, 0x4203e154); (0xf287e8de, 0x570087c4);
   (0xc99c730d, 0x1075afac); (0xe32b87d3, 0x475c4854); (0x1ed02fa7, 0x00338000); (0x57da175d, 0x00366b88);
   (0xd57a6c89, 0x2157cce4); (0x53bb4bcc, 0x3c54aac0); (0x2e44b54a, 0x2b1c4660); (0x3743eaf6, 0x4fa446b4);
   (0x9abc489e, 0x003c0000); (0xab5a9326, 0x00b2d634); (0xf0727bb1, 0x0a4a2718); (0x625ac375, 0x45f9ade0);
   (0xfb7bb857, 0x01eee6a0); (0xa6408b97, 0x23b82800); (0xaf01aa98, 0x006f5ca0); (0xd26b48ef, 0x13b6139c);
   (0xf8e4d123, 0x537dd9fc); (0x9a5626f3, 0x274c5c68); (0x5b963523, 0x0966ac20); (0x2d28df01, 0x35250574);
   (0x6181fa99, 0x19011e04); (0xe2a9c3fc, 0x34be61bc); (0xcb788d95, 0x46008e7c); (0xf866e2ed, 0x0fb398a4);
   (0x8b7a0b84, 0x4984ea14); (0x146ae578, 0x2af18000); (0x35beb4d7, 0x14479884); (0xda730c91, 0x0cf17238);
   (0xed55cfea, 0x1fb1f168); (0x3dbd7423, 0x2dec4e18); (0x57aa5bef, 0x0bcd8990); (0xa795f753, 0x30c67b3c);
   (0x1503766a, 0x56ec35b8); (0x5fb7b75d, 0x57014e40); (0x1210c340, 0x17715bc0); (0x8fb964da, 0x20ccc89c);
   (0x6615ac9a, 0x00278000); (0xa2061ed1, 0x45964bac); (0xe41aab06, 0x55eda000); (0x3dc79b0e, 0x3f722180);
   (0x3da3ccd5, 0x28723000); (0x09f7f36f, 0x004b0000); (0x2cea75c1, 0x0b933c60); (0x3537f1c3, 0x4d716640);
   (0x49ea204a, 0x499a6938); (0x65b6d18f, 0x570566a0); (0xc2a12af6, 0x2c13bd5c); (0xba85b816, 0x55a59f44);
   (0xad2e38eb, 0x1f105e94); (0x10f8e52a, 0x03264918); (0x774a94d6, 0x5191d6a8); (0x91e3b6e1, 0x1c8f0d74);
   (0x3c0298b9, 0x560ce0dc); (0xc9e3dce3, 0x0b835140); (0x82fe7658, 0x570566a0); (0xf20120b0, 0x44b31e1c);
   (0x2406c14e, 0x37e68414); (0xb0e959e0, 0x56839ec8); (0xcacaecc7, 0x570566a0); (0x51bc14ce, 0x2d7fe6a0);
   (0xb86eeb79, 0x57014800); (0xc50cd9e5, 0x2080b6d4); (0x5fe17913, 0x28d5e6a0); (0x11a897e5, 0x1d94ca3c);
   (0x6c63e4ef, 0x226de820); (0x20aa3152, 0x14aff478); (0x1d055081, 0x0019e920); (0x9985a40d, 0x48559888);
   (0x53be454a, 0x161c6f40); (0xdc23276f, 0x41a053a4); (0xa5aa9525, 0x274bec38); (0x8a51c211, 0x039a6280)].
Definition bnr_offsets_4 : list (Z * Z) :=
  [(0xe19c4586, 0x57014e40); (0x1c58fd35, 0x52a53498); (0x4766391d, 0x06e2b5b8); (0xb239b8a5, 0x4e72fd60);
   (0x7f4b1d31, 0x53959c9c); (0x03f733df, 0x1ffbd85c); (0xefdb7619, 0x14dc2cbc); (0x6dddbf67, 0x325f7728);
   (0x7176a486, 0x151ca7f0); (0xc33552ba, 0x495fa4ec); (0xed3214f6, 0x002c0000); (0xbf3874c5, 0x06cfb730);
   (0x8c5f8108, 0x2c3d8018); (0x977db0ed, 0x2f93ac04); (0x7ed9c444, 0x001f0000); (0xd1df7966, 0x50afcd60);
   (0x2dd86171, 0x1b01b0b8); (0x1eb1723f, 0x3070982c); (0xbe308c9e, 0x1c0bbc60); (0x6b2a52d7, 0x4e8ae768);
   (0xba1134de, 0x52fe0000); (0x88186eee, 0x003d8000); (0x45a0dce7, 0x3a7f72ec); (0x0c3ed046, 0x2225c3ec);
   (0xd32f5197, 0x324c9e20); (0x94bbb22b, 0x19d27b20); (0xbb9d617d, 0x206c28e0); (0xf136c3d5, 0x36e6aae0);
   (0xf562ff31, 0x00b2d634); (0x1a879c2e, 0x1194eb04); (0xe603d2ed, 0x1ffbd85c); (0x5128116a, 0x56c380ac);
   (0x65a136ed, 0x4f827728); (0x8000c275, 0x164322a0); (0x3c8504f6, 0x57056660); (0x8aa535a3, 0x43600740);
   (0xf3e6bb70, 0x2d4aa940); (0x8212001f, 0x14f7fa5c); (0xf59e07ee, 0x570566a0); (0x8a830e37, 0x1fac66a0);
   (0xf4deaa17, 0x071cfd74); (0xdc55389e, 0x1770fbec); (0x76d2770b, 0x3521eb10); (0xa81b947a, 0x46040ef0);
   (0x518c083e, 0x32e9d8e8); (0x04fdcef3, 0x191c0190); (0x175d0d27, 0x00062f00); (0xdc96f705, 0x473b8b8c);
   (0x1480700f, 0x1dd436d8); (0xc35fd64c, 0x1441ef40); (0x356b0762, 0x41efd338); (0xf677a622, 0x001e8000);
   (0xc21e61cd, 0x08598040); (0x078e8453, 0x0e1c471c); (0x9e0ffafb, 0x53b02760); (0xddc7725d, 0x00f87740);
   (0xdcf27fb7, 0x40c7b974); (0x22d770e8, 0x570566a0); (0xb55757ca, 0x541b6ee0); (0x119ad443, 0x47581720);
   (0xe0fc25df, 0x0029a930); (0x8145d71f, 0x08be8fd8); (0xccac4379, 0x4519f320); (0x2025fed3, 0x565c6be0);
   (0xd50b106f, 0x004c8000); (0x403a0292, 0x49a0c010); (0x2fb51538, 0x20b21000); (0xc5ba1832, 0x06627cc0);
   (0x7c73e348, 0x0bfb8304); (0xa92e2493, 0x01d55c00); (0xb53c6f17, 0x5436ed40); (0x7141d32f, 0x00b18a04);
   (0xa918b5e7, 0x560593b8); (0xd80cdaad, 0x011ce6a0); (0xe1b83e65, 0x52f7e6a0); (0xa3c34e95, 0x00411a14);
   (0x98469d43, 0x4dcd0000); (0x28136103, 0x4e6ae560); (0xdf4c0771, 0x45f06778); (0xb6b1791b, 0x36e6aae0);
   (0x48eda6fa, 0x176157f0); (0xa04fa4b7, 0x1f77c6a4); (0x1c8bd74c, 0x47766414); (0x8fdefe3b, 0x09886370);
   (0x15b71a3d, 0x245266a0); (0x003318f0, 0x26cf6434); (0x763a5d65, 0x57030000); (0x2f7d4ea7, 0x1af06a38);
   (0x13046c89, 0x3d338d04); (0x52abde6b, 0x00408000); (0xf2735491, 0x57014e40); (0xa7047dae, 0x56bd2a44);
   (0x5a2d99cd, 0x00150000); (0xc4d20dab, 0x156df454); (0xc7bcc8d7, 0x3f00c314); (0x6682df03, 0x1ca4db40);
   (0x10067e5e, 0x00110000); (0x56e14a77, 0x184801d0); (0xc2ab899e, 0x4b846fa4); (0x66265841, 0x1af32060);
   (0xe08c2f62, 0x00188000); (0x9a21e0e9, 0x004b8000); (0x93aacc32, 0x57056660); (0x93cd48ed, 0x56fe4600);
   (0x6b7c46db, 0x55a59f44); (0x853ab8e5, 0x256e66b8); (0x8d7d9694, 0x1444603c); (0xcaac5b47, 0x003c8000);
   (0x07c3ebf7, 0x2a3fe83c); (0xf5c7b48c, 0x108d2d40); (0x6661500d, 0x5692ede0); (0x93226f17, 0x548889c0);
   (0xa80ebd3b, 0x2ed278c0); (0x7bf10f40, 0x1f741414); (0xf9581531, 0x203b76e0); (0x354c849b, 0x15a93d44);
   (0xf0952886, 0x40a3a8ec); (0xa7de6567, 0x00218000); (0xf55b751a, 0x00411a14); (0x8cc2d423, 0x2e146400);
   (0x9e8f4950, 0x4c6b76e8); (0xefdbc9ac, 0x523b8000); (0x74401401, 0x3175e6a0); (0xaf79e6ac, 0x3d9daa78);
   (0xba585801, 0x072a0f40); (0xcf5e297d, 0x551f1374); (0x75c1dfbf, 0x569d8808); (0xb9ae2d3c, 0x56358c20)].
Definition bnr_offsets_5 : list (Z * Z) :=
  [(0x90d4f94c, 0x2c81cb20); (0x1889f161, 0x55baa630); (0x0ac83e8f, 0x4c6b76e8); (0x3b311872, 0x3dab7a78);
   (0x855963b2, 0x13e52100); (0xd8ad34fa, 0x44293d8c); (0xf059b0ca, 0x195f18a0); (0xbf827cbd, 0x4a325668);
   (0x416aae42, 0x4f99e6a0); (0x933dce32, 0x3c692198); (0xb387d959, 0x001f0000); (0x2ed188d7, 0x2f74656c);
   (0x69daddef, 0x00e086cc); (0x7a600639, 0x00300000); (0x954996fc, 0x1c19db5c); (0x6ae7e3d5, 0x2130dfa0);
   (0x98004bc7, 0x5692ed74); (0xc61e8b93, 0x51e64154); (0x7e909d03, 0x496ad678); (0xe48008d2, 0x35878894);
   (0xc5483b2d, 0x2b3ca434); (0x2307f1a9, 0x00200000); (0x08337331, 0x07646b7c); (0x52fa3510, 0x4c513124);
   (0x0ab12ce7, 0x0981aa64); (0xdfe236a4, 0x00338000); (0x0cc9729c, 0x57008140); (0x296f5c52, 0x302e9e48);
   (0x85689059, 0x1c1a6b08); (0x521ae7c2, 0x2600adcc); (0xeb095f4c, 0x523384f0); (0xac889554, 0x0cba7fc0);
   (0x829922dc, 0x4c525bf8); (0xf3d1e49a, 0x4a1bbf50); (0xca2b5b60, 0x00420000); (0x42690fd2, 0x180a66a0);
   (0x80f8a1c5, 0x570566a0); (0xef0c9048, 0x2fc272c8); (0x8fb4a250, 0x045d1840); (0x7deeee40, 0x56ce9f90);
   (0xa2677e2b, 0x42104c1c); (0xadebab61, 0x1e9c73dc); (0x071942b6, 0x1d84f21c); (0x32abe554, 0x286c5bec);
   (0x20d62e66, 0x570566a0); (0x28e598f8, 0x565c6be0); (0x667cae29, 0x3ce436d0); (0x2d375099, 0x57055fe0);
   (0x2dc290e6, 0x45e5b6c4); (0xf3bd641d, 0x525a5320); (0xf3b17801, 0x09883ef0); (0x87c9c767, 0x2aa1e6a0);
   (0x838b4bb9, 0x0ba64a00); (0x203458d8, 0x00278000); (0x2df1302c, 0x19c11054); (0x7e553df6, 0x570566a0);
   (0x606c43f4, 0x346fbf78); (0xdcc05753, 0x3e9cb840); (0x15645c6a, 0x4c3d4e20); (0xc8cce293, 0x41b7da50);
   (0x60e1cf90, 0x0f897934); (0x9fc2d7c6, 0x44091b98); (0x13b3d39f, 0x57055e60); (0x48ce7491, 0x27777f5c);
   (0xf489aec1, 0x2c98a8b0); (0xd37300bf, 0x1827a78c); (0xa05689bb, 0x1e426520); (0xeb2829d1, 0x2d32f1a0);
   (0x318df0bc, 0x4a056a74); (0xe4f03924, 0x27dfea28); (0x4de12121, 0x4ff66c10); (0xfb9dd5dd, 0x55a59f44);
   (0xb71d3e2f, 0x0fbb494c); (0x6a208790, 0x57053380); (0x940025c9, 0x0169f88c); (0x4536c844, 0x00368000);
   (0x1d2cc0c1, 0x4e7a9220); (0x35216f64, 0x48d66b74); (0xa0965fc6, 0x00b8d950); (0xc4753be3, 0x565c6be0);
   (0x4645cc81, 0x06f9abf4); (0xc9e04e0f, 0x2f97bfc4); (0xba6bcca8, 0x13e52740); (0x1e0dc78c, 0x4265c528);
   (0x4580af01, 0x0341e6a0); (0xe86db1e7, 0x570566a0); (0x938b5890, 0x417066a0); (0xbabf536e, 0x225cc224);
   (0x027207ac, 0x4150f3d4); (0xd06564a8, 0x0ae666a0); (0x3a30073e, 0x474c039c); (0x94c04bc7, 0x0691e6a0);
   (0x11432695, 0x1b448dec); (0xa9ab10d0, 0x334975f4); (0xd0e0c154, 0x4d7d5918); (0xa6b289f3, 0x233666a0);
   (0x3f574fab, 0x001f8000); (0x38e8be24, 0x1fd6d580); (0x07965ece, 0x502d0210); (0xe868bd6c, 0x0b47d190);
   (0x1820529e, 0x0029aad4); (0x05b67835, 0x570566a0); (0x5496fbb4, 0x56da32a0); (0xc0ec6893, 0x00afd188);
   (0x591321fc, 0x342aac90); (0x6804fee0, 0x570087c8); (0xf6f1bf63, 0x57014e40); (0x1cb17179, 0x0eec0460);
   (0x6af776b3, 0x57056620); (0x5252e7ca, 0x2ac481e8); (0x6a847482, 0x19bd9ee0); (0x2a244a24, 0x4610bfd0);
   (0x1c0424b3, 0x00332b3c); (0xb68dc502, 0x00060440); (0x0799fc57, 0x520a04f0); (0xa3b6c46e, 0x16d21b80);
   (0xf8a4c79e, 0x23d366a0); (0x7b60a2ba, 0x315a1ecc); (0xde5efe67, 0x1b440690); (0x8c087d19, 0x1f57d160);
   (0x42479e41, 0x003c0000); (0xc6a50cca, 0x0030b22c); (0x319c75b9, 0x56b40894); (0xdaf7bf4d, 0x001d75e0);
   (0xa99e97aa, 0x20682ca0); (0x86bcc234, 0x0807b840); (0xf27e0dd9, 0x57056620); (0x7f43fbc2, 0x1cf0482c)].
Definition bnr_offsets_6 : list (Z * Z) :=
  [(0x67ba64db, 0x1ec566a0); (0x071c02cd, 0x39e92840); (0x8c8a4a27, 0x004b8000); (0xc81fac7d, 0x1127909c);
   (0x26dcecae, 0x570566a0); (0x462c4d70, 0x00368000); (0x3644edec, 0x511914b0); (0x7f5c0b9d, 0x295e8fa0);
   (0xebb12a3f, 0x4141b320); (0xdea78db8, 0x55e78374); (0xfb89f440, 0x14b80f98); (0xef831513, 0x03fcec90);
   (0xba7e7907, 0x55e38ec4); (0xbd6438bd, 0x570566a0); (0x3e0fd37c, 0x00300000); (0xc8d7493a, 0x16c0d4a8);
   (0xce6dea59, 0x00318000); (0x94b11cf8, 0x31a37f2c); (0x2a626958, 0x00131bbc); (0x40449314, 0x4884abe4);
   (0xf39d966e, 0x1fb12800); (0x50d7f8c2, 0x395e0920); (0x3de13780, 0x5262c020); (0xa0b2895f, 0x56abeb20);
   (0x9de13a7c, 0x09eefb20); (0xad72b538, 0x56c18000); (0x741408fc, 0x06290e10); (0x8f972fb7, 0x0273e6a0);
   (0x43910983, 0x006f5ca0); (0xa785faf3, 0x2cbbcf60); (0xa88986ca, 0x20ccc89c); (0x01936bda, 0x570466a0);
   (0x93f335e0, 0x38c7e6a0); (0x8caaf1db, 0x079cec70); (0x6ab68328, 0x352a4278); (0x2f476a69, 0x001f0000);
   (0xec8e25c1, 0x34cd4884); (0x9c028bc0, 0x000f8000); (0x0f2bcc31, 0x1ed3fa78); (0x240ca6af, 0x00150020);
   (0x04f00999, 0x49a0bfd8); (0xd2c96ed2, 0x19de5b40); (0x1a2a881e, 0x00338000); (0xa3e9bd44, 0x475aeaf0);
   (0x876891b1, 0x57014800); (0x3b79cbed, 0x01535d40); (0x2301aa26, 0x00d8b294); (0xef445200, 0x56da4840);
   (0x2a6f1f25, 0x1127909c); (0x33779df8, 0x510ff1c4); (0x205794c3, 0x088ce6a0); (0x916c94f0, 0x0029a930);
   (0xb86ed89e, 0x55b05320); (0x59496f39, 0x0e1ac998); (0xf9b48d93, 0x4c486ae0); (0xe3a9103f, 0x26f19abc);
   (0xdf378034, 0x0c346188); (0x30c26f63, 0x297966a0); (0xccfde5e7, 0x3f56e42c); (0x25e06412, 0x00278000);
   (0x8dd8cfc0, 0x0426c220); (0xea37aff4, 0x570566a0); (0xc5e6e466, 0x373c66a0); (0x08001e1c, 0x093eafa0);
   (0xdafff286, 0x489466c0); (0x28b29016, 0x011b960c); (0x8d66dd7e, 0x5692b2f4); (0x3afd52dc, 0x56a9f7fc);
   (0x1608487e, 0x003e0000); (0xdfb737b8, 0x001ec610); (0x2faa9ed3, 0x1785e3a0); (0xb32e383a, 0x156df454);
   (0x0840ffd7, 0x36922f48); (0x0e733850, 0x57056060); (0xd0c5b3df, 0x1682d540); (0x23a06112, 0x570566a0);
   (0x310fe94a, 0x060cbf20); (0x38dc9e88, 0x00918080); (0x399042f5, 0x001ec610); (0x30660f44, 0x4628d6ac);
   (0xafa5072b, 0x44064854); (0x975a09e2, 0x25a72e24); (0x5d984707, 0x4dadd25c); (0x1a600813, 0x54adfbbc);
   (0x608fbd2b, 0x57056060); (0x0451b54d, 0x57055fe0); (0xc70c12b9, 0x57056060); (0xa9700304, 0x10fde5dc);
   (0xa72bc7fc, 0x4fb7d7c8); (0xddd70213, 0x1e61e6a0); (0x706ccd80, 0x2b714dfc); (0x7109ecda, 0x10e22e24);
   (0xaf02765e, 0x570566a0); (0x535f5432, 0x24d476e0); (0xed33875f, 0x0e5a0d68); (0x2723daa4, 0x441fe10c);
   (0x2e96e037, 0x24031408); (0xeb4c3734, 0x032666a0); (0xd3516779, 0x14139718); (0x25064120, 0x0cf1ffa8);
   (0x121fe55e, 0x570566a0); (0x3251a9a4, 0x24d386a0); (0x07b88aca, 0x2d3f77dc); (0xd7a6fec8, 0x36a900b0);
   (0x3fd73ee3, 0x4a27f00c); (0x07e98c00, 0x23fc1a84); (0x1c6fa8dd, 0x008e7950); (0xcb85b450, 0x32c97ef8);
   (0x444a0861, 0x2f8dfdb4); (0x50ef47af, 0x1b0bb7e0); (0x904bbd7f, 0x0d98e6a0); (0xd6cdde76, 0x00368000);
   (0x9eecefb0, 0x00218000); (0xd5d07a2c, 0x4a15c934); (0x1a0b4708, 0x1d247f80); (0x5d90a186, 0x3401f6a0);
   (0x6273edee, 0x39c10000); (0x083f791b, 0x00496080); (0xe6c49477, 0x049912d8); (0x1584fbd1, 0x001581f4);
   (0x179cc70d, 0x3b95afac); (0x69c058d7, 0x44d0d624); (0x763fc939, 0x1db566a0); (0x79785c80, 0x2dfeedc8);
   (0x5ddbb93e, 0x00320000); (0x9de1e489, 0x00300000); (0x1f9d0bd3, 0x12d1db90); (0x02132912, 0x4c6a3948)].
Definition bnr_offsets_7 : list (Z * Z) :=
  [(0x290f2a35, 0x089f5fa0); (0x3b7d7783, 0x1ec54a84); (0xa88827b8, 0x494db600); (0xaa1aa714, 0x2f97bfc4);
   (0xb6f9f83b, 0x18dab2d4); (0x95137c11, 0x2b44d9a8); (0xe2cb9834, 0x494b8ef8); (0x0afdafc8, 0x448f2fa0);
   (0xa87c5254, 0x00960080); (0xe3a90b0e, 0x0556553c); (0x31e3c254, 0x19288078); (0x5b9d534b, 0x1dcbe6a0);
   (0x606d57fe, 0x102ca824); (0x57bd6ec9, 0x502d1848); (0x59f55e89, 0x0030b22c); (0xe1a90b8b, 0x101c8020);
   (0x1e79670a, 0x3db68e6c); (0xd478847f, 0x428fdf60); (0x709c50b6, 0x08b63a24); (0xe85e1451, 0x1722e920);
   (0xe6962770, 0x2e440f50); (0x3c5570f5, 0x5647b000); (0xbd5ca0a3, 0x11c4e6a0); (0x8ce4b0fa, 0x13d266a0);
   (0x5eca92a5, 0x57056060); (0x0a86b98d, 0x18cca5f0); (0x32d0cab4, 0x00c27c8c); (0x58dd4c68, 0x01bb3654);
   (0x1d8248e7, 0x1c9051b8); (0x0d0ce69d, 0x57014e40); (0xc93a6fe7, 0x2ea7ee2c); (0x0cf6c476, 0x455e4da8);
   (0xee4d7b6c, 0x1048e160); (0x7fb2cc0c, 0x541ebc84); (0xa54c04f5, 0x2785233c); (0x42f01c84, 0x31a37fc4);
   (0x3d9135dc, 0x3d2ed1e0); (0x176c5e2b, 0x4f4a0a00); (0xf673266e, 0x570566a0); (0x0ffc42e1, 0x0c417fa0);
   (0xc75c13ec, 0x00190000); (0x808bb2d0, 0x50aa3520); (0x1910c8df, 0x4e279778); (0xab99eec0, 0x31a6910c);
   (0x5ad9791f, 0x003d2640); (0xb53faafb, 0x5360f788); (0x6042318a, 0x45bd6bdc); (0x23cff0fd, 0x3e172da0);
   (0x627cf791, 0x4994d750); (0xd2926fba, 0x529f5b44); (0xf01e7a69, 0x3dff985c); (0x5dde0b87, 0x18028d98);
   (0x8f7dec7a, 0x28a74600); (0x60d8a080, 0x570566a0); (0x516ab5e9, 0x22ffec9c); (0xb6b4e4ae, 0x2c6d8000);
   (0xbafd4b11, 0x2acd3de0); (0xdaf450db, 0x06e07a00); (0xbeee1f31, 0x35ee7668); (0xe8ea9ffa, 0x55a3ee3c);
   (0x2d83fd6c, 0x16b7ba9c); (0x8ed4fc25, 0x4c352bd8); (0x8a02aa99, 0x3950d800); (0x58475d58, 0x21ec846c);
   (0xe9fdff82, 0x488fc854); (0xafbfee1a, 0x07679680); (0xfbe11258, 0x4295649c); (0x90fd3a51, 0x4e2b51dc);
   (0xddd5c310, 0x07a6e42c); (0x62779f3d, 0x05df5cf4); (0xecc47238, 0x15530000); (0x4753a05c, 0x194b5540);
   (0xfd642637, 0x56358c20); (0xea980626, 0x0673e6a0); (0xe5c5f7e6, 0x0052b000); (0x444fb3f3, 0x11818ea0);
   (0xb928f90e, 0x4e82bd60); (0x6aa135d2, 0x00910080); (0x53d50db9, 0x56379000); (0xd7d03ab8, 0x23b82800);
   (0x21f1176e, 0x56d901e4); (0x8980623b, 0x1e07d048); (0xad3a3ff5, 0x465b7b40); (0x1d0c4497, 0x570566a0);
   (0xfe5d85f5, 0x3e78dc60); (0x8a50e30b, 0x212a65a0); (0xd8c99ddc, 0x0a53e060); (0x0a2026a0, 0x0bc6febc);
   (0xd164d541, 0x51a40000); (0x845b9b89, 0x039ae080); (0xc0ca0817, 0x570566a0); (0xfd7d87b3, 0x5394f600);
   (0x1bebdd57, 0x3dd6c9e8); (0x7547fbb7, 0x4a056a74); (0xc4aba70c, 0x005a0fe8); (0xaa36f465, 0x01f3c75c);
   (0xc7694abe, 0x276c013c); (0x6d1407d0, 0x26303840); (0xfbaa9dde, 0x1ecefe60); (0x181c6f22, 0x33bcd860);
   (0x10420861, 0x2cedfe18); (0x6a652c24, 0x570566a0); (0x94722229, 0x192a66a0); (0xdbbb292c, 0x54207df4);
   (0xca037d8b, 0x00b95700); (0xc7ce7578, 0x0020b460); (0xfc741c0b, 0x57003860); (0x7c8a81ec, 0x023ebe68);
   (0x1850e9f8, 0x494325c8); (0xd4226270, 0x570566a0); (0xdf364afa, 0x521a3514); (0x1270b096, 0x1dc64128);
   (0x2271f45f, 0x2bfd8540); (0x43c5af95, 0x022ee000); (0x1d46ce0f, 0x0a7b3e0c); (0x8d9d546d, 0x37fca0d8);
   (0x2ccacf2d, 0x1e7d04e0); (0x3416568b, 0x56069408); (0xb2fda289, 0x00239fa0); (0xe59c3052, 0x5032ab94);
   (0x63cfc1d9, 0x0d84cea0); (0x96f0a522, 0x00300000); (0x524a4284, 0x57053380); (0x4586730a, 0x4927aaa4);
   (0xc6e906b9, 0x570566a0); (0x8affbccd, 0x25f75e00); (0x93338dbb, 0x19f8c3e0); (0x505be8f7, 0x4be6bae8)].
Definition bnr_offsets_8 : list (Z * Z) :=
  [(0xff65f9a6, 0x0630c8a0); (0x6d969fb1, 0x30df930c); (0xfc869310, 0x388344a4); (0x8cc948c7, 0x45f02de0);
   (0x8480df61, 0x20ee0a68); (0xe7bb498d, 0x00300000); (0x49394e1a, 0x22c3778c); (0x6cdfc57a, 0x54e98a20);
   (0xcaeca6c8, 0x464d5ab4); (0x793da36d, 0x2776e878); (0x1783ce47, 0x56069408); (0xa4aec286, 0x013dd854);
   (0x6e24e5c3, 0x363469d4); (0x1c031802, 0x3994e6a0); (0xf5b423cc, 0x502d2868); (0xcf632c87, 0x3cb20000);
   (0xb44afffa, 0x3128f854); (0x947004fd, 0x26c784c4); (0x107ad1f4, 0x4caec998); (0x14f90749, 0x485ede20);
   (0xbf50357e, 0x489bd110); (0xba41e1fc, 0x474fc240); (0x2e299e36, 0x570566a0); (0xec438dc1, 0x20ccc89c);
   (0xbfa70d93, 0x557161c8); (0xfd094e8e, 0x1a236028); (0x02645c12, 0x1a9566a0); (0x5172c46b, 0x553275c0);
   (0x154c5c4e, 0x57056060); (0xf69826d6, 0x002f8010); (0xeae39181, 0x565c6be0); (0x6d2ea321, 0x2cad9f04);
   (0xd0d5fcd0, 0x570566a0); (0x2e99d0ea, 0x00200a64); (0x73d7bbe6, 0x31c2bd9c); (0xefa03dab, 0x00170000);
   (0x117d05a4, 0x000b8000); (0xb554cc0e, 0x2fb02dc8); (0x2c3ba370, 0x558a3b00); (0x44431f9e, 0x2aeec660);
   (0x3e4d268f, 0x570566a0); (0x48437c9d, 0x14915f10); (0xa58e7ba7, 0x0b30d880); (0x0ced528e, 0x224fa2f4);
   (0x5f74e71e, 0x570566a0); (0xd4915d3a, 0x16a9ba9c); (0x14b9fb70, 0x4970f8e4); (0xdcd1bbb7, 0x004b0000);
   (0x41d4d271, 0x44856cc4); (0x09108455, 0x003b8000); (0xaad66f82, 0x4052152c); (0x2c02061a, 0x01a7e6a0);
   (0xf8c09a46, 0x570566a0); (0x5fdfb7b4, 0x48d242a0); (0x8c85efe8, 0x1b5e3660); (0xed9e4cdb, 0x00b18560);
   (0x4d314f19, 0x4b225508); (0xa50ab629, 0x3f00c954); (0x0d131903, 0x070b66a0); (0xa69f9d58, 0x48d22fa4);
   (0x0fe4f9e5, 0x4647cc5c); (0x35cc8681, 0x00370000); (0x2824ae64, 0x00238000); (0xd6f0212b, 0x3a8ac0a0);
   (0x8fd6fa1d, 0x20c70160); (0xd49a3611, 0x36c0b6c8); (0x0b8d422a, 0x1d847bc4); (0x4e260c07, 0x07f46ac0);
   (0x4b32ed23, 0x2c8cb404); (0xfd45f505, 0x5583e51c); (0x2e89b36d, 0x00583ee0); (0xc2a1d2da, 0x2e2c45d4);
   (0x21d43c24, 0x00196920); (0x15b1fa9e, 0x01dda668); (0xf0ffb5a8, 0x0b835140); (0x0558d033, 0x0303e6a0);
   (0x2f865281, 0x132ff620); (0xd562e268, 0x01fc4cc8); (0x639d9618, 0x176366a0); (0xf61bde0c, 0x52ba4c1c);
   (0x63ded8b1, 0x5692cec4); (0xb477878f, 0x570566a0); (0x51d62708, 0x3211a800); (0xc6c27e42, 0x00de51e4);
   (0xa5e32aed, 0x333d03d0); (0x6b0bdd58, 0x2989ada0); (0x1f9926bd, 0x1e34b8c0); (0x058e0b6f, 0x3f954fa8);
   (0x2ee1b9ab, 0x1a571c38); (0x84126176, 0x2828c1d8); (0xff083527, 0x4b239210); (0xef727615, 0x27657f00);
   (0xd1c0ac3f, 0x3dab20c8); (0xd98c21bf, 0x08522ee0); (0xccf287ca, 0x29bef800); (0xcdf7d85f, 0x002e91c4);
   (0x6a4f006f, 0x3749624c); (0x3848ed48, 0x436666a0); (0x4f3ae226, 0x1ec54984); (0xf67174d5, 0x56c0d800);
   (0x67a78f42, 0x1bf9efbc); (0x9f8c17cb, 0x56047ef0); (0x9606bf2d, 0x07813d40); (0x5cee7a9f, 0x21574ce4);
   (0x21fb9cc8, 0x333ac39c); (0x0a4d13b1, 0x243d9820); (0x6afa700b, 0x4d710258); (0x59fc5c3d, 0x0bbbb254);
   (0xd99a164e, 0x462767dc); (0x405e1867, 0x0c55b200); (0x754c5068, 0x3ea8d9f0); (0xcdb39cfc, 0x1aedd6a0);
   (0xb1f38b90, 0x0130d4ec); (0x7a21a2f7, 0x0e9de6a0); (0xbce81317, 0x0ffbe52c); (0x872d82c2, 0x0b22340c);
   (0x26eda6f5, 0x5545fdf8); (0x3fa77cbf, 0x4d55e840); (0xf2062035, 0x57056060); (0xa5a9ed01, 0x22c3ab0c);
   (0x33586719, 0x0af9c534); (0x57a2f662, 0x57000000); (0xa5cab954, 0x570566a0); (0x290c0faf, 0x492e8be8);
   (0x559a0f60, 0x1fce5ca8); (0x37c1c0ea, 0x00f014a0); (0x59655918, 0x447c0a80); (0x43d349bd, 0x1d94ca3c)].
Definition bnr_offsets_9 : list (Z * Z) :=
  [(0x88b97485, 0x43261504); (0xdc5f2d2c, 0x049d66a0); (0x49dde91b, 0x2266cdfc); (0xbdb23392, 0x508e1908);
   (0x47926cf8, 0x570566a0); (0xdfcdd26b, 0x4ac8a760); (0x295f8de6, 0x12c728fc); (0x2081224b, 0x55440098);
   (0x36250d3b, 0x0f718a2c); (0xf119f38c, 0x55cac9fc); (0xcb8f7d3f, 0x02fe66a0); (0xc3a500ce, 0x00250000);
   (0x6ea3f145, 0x005e8d50); (0xc3a29826, 0x4d5784a0); (0x0d73f45e, 0x0a1e9060); (0x3f5e7d1c, 0x07679680);
   (0x8fb324da, 0x4a481d8c); (0x647d879d, 0x10b7d900); (0x011c3efb, 0x570566a0); (0x708b763c, 0x0d965f20);
   (0xe8541e7c, 0x1e45fe68); (0x3d7e227f, 0x56b03728); (0xbafd980d, 0x3dac0a78); (0xf2e031a3, 0x4246e030);
   (0xc4c6af77, 0x48a48134); (0xfdc35599, 0x001c0000); (0x65e47b57, 0x2c6e8000); (0x90a9b503, 0x570566a0);
   (0x5fdc3a18, 0x57055820); (0xaba80a2b, 0x14b566a0); (0xdf78886a, 0x47b30000); (0x5734483c, 0x570566a0);
   (0x80ba5d55, 0x57056640); (0x54de0cdd, 0x570566a0); (0x5eb1af63, 0x30456900); (0xc9ab79e4, 0x24457d94);
   (0xd8f5c88d, 0x4fbb4848); (0x77f6596c, 0x2dcde9d4); (0x1ac07995, 0x2a44a434); (0x4c6027e9, 0x1c6394f8);
   (0x39af7e07, 0x00240478); (0xfbea7a39, 0x0033a420); (0x708212c0, 0x46428c84); (0xb44def73, 0x01bb3654);
   (0x5fbb2488, 0x560ce0dc); (0x930d4f60, 0x00385840); (0x5777db5d, 0x521a3514); (0x7dbb99cd, 0x03f03ecc);
   (0xb986fb13, 0x055e4c38); (0xaea6032f, 0x493f16e4); (0x7add69e2, 0x1ee517f0); (0x1541b082, 0x000f8000);
   (0x0f9cc047, 0x3f2b5614); (0xe41a8901, 0x013fd854); (0xc78ed469, 0x13e52740); (0xfdbe2761, 0x00270000);
   (0x6cd89257, 0x23062320); (0x99cf1972, 0x3d5b0000); (0x08b91443, 0x0c2618c0); (0x8fd1c400, 0x55920fe0);
   (0x33fa6f55, 0x2c4bac90); (0x63bd0927, 0x273d8b18); (0x4fd399ec, 0x0421bc60); (0xb4fbea51, 0x37b28460);
   (0xf6d21432, 0x001c0000); (0x18aa2892, 0x4e318000); (0xdb008960, 0x004807f0); (0xa8c5220d, 0x511cdd38);
   (0x644c2971, 0x4170d57c); (0xdc88a029, 0x00328000); (0xfb6dcbb7, 0x03697f98); (0x55b9b6a5, 0x570566a0);
   (0xe7288993, 0x23c3f1c4); (0x75150716, 0x4868d274); (0x087dd04e, 0x569ce060); (0xb7d22cf1, 0x3d9b2a78);
   (0xdce5d5db, 0x0130e128); (0xcb3f58cb, 0x3da24a78); (0x6737e919, 0x46e929a0); (0xb5cd024a, 0x3c5fb774);
   (0x43d1bbd7, 0x00360000); (0xb78850c9, 0x14f87a5c); (0x13ca5d21, 0x11235908); (0x5746a75a, 0x102c5f58);
   (0xf6b55b01, 0x324d66a0); (0xbb47c291, 0x002a0374); (0xf5f96716, 0x1e433670); (0x215bc6fb, 0x570566a0);
   (0x014cac06, 0x00568000); (0x5dbf2615, 0x18beab60); (0xb0ef2675, 0x55ad9d8c); (0x352011cd, 0x11be7d00);
   (0x9f49741b, 0x203b7b20); (0x990ae8da, 0x176366a0); (0x846f53f9, 0x57055fe0); (0x9bbab898, 0x00560000);
   (0x2dcb17d1, 0x52adf320); (0xe751bf0d, 0x45cb0760); (0x76ed7640, 0x0029a930); (0xc13173c4, 0x4595971c);
   (0x64683dc7, 0x2c98a8b4); (0x1448652e, 0x2d7c6c38); (0x2e0e125b, 0x14915f10); (0xe08dff98, 0x2ed27e40);
   (0xcff9aa42, 0x5702711c); (0x57b32309, 0x1d790ecc); (0x05fe3ccb, 0x55a27b08); (0xc7f7cf2a, 0x3e2920a0);
   (0xe1c32153, 0x00198208); (0x65fc9230, 0x22e8d800); (0x44d39c02, 0x56d41d40); (0xef69c00e, 0x57016e40);
   (0xad00a486, 0x5262c020); (0x2ad526d3, 0x57003860); (0xff13fb43, 0x0145a24c); (0xf9494831, 0x0b3966a0);
   (0x6df8381a, 0x4d3f9d40); (0xb57313f0, 0x25afdb60); (0x7c048fee, 0x4158bbd4); (0x30d64c09, 0x40aa0894);
   (0xd45d55d3, 0x001c8000); (0x4e6b9019, 0x48dbf4d8); (0x96ec128e, 0x3b52ddbc); (0x24d474c3, 0x134fef40);
   (0x831e41ce, 0x25cc0cb4); (0xd2650dd9, 0x0eff9c30); (0xecefce04, 0x001c8000); (0x08ef3247, 0x39362ea0)].
Definition bnr_offsets_10 : list (Z * Z) :=
  [(0x49a9585b, 0x567831d0); (0x7e530e55, 0x40c78000); (0x241812c2, 0x570566a0); (0x1c11d1b0, 0x446e26f8);
   (0x3ec26e91, 0x01969fbc); (0x398a97bb, 0x01e9b770); (0xa7b0fa2b, 0x009766a0); (0xeef8fb22, 0x00263800);
   (0x60e6bc2a, 0x3c49c6c4); (0xfec4aba8, 0x2bca2e30); (0xa70b3d98, 0x29e04544); (0x2d295ac1, 0x0031aa0c);
   (0x30de03f7, 0x06290e10); (0x609ee299, 0x0ca68ea0); (0x4123dc5f, 0x29328000); (0xa305e206, 0x097acefc);
   (0xfdb97b13, 0x2d3f780c); (0xcd99d08a, 0x00418000); (0x1e521e01, 0x2e9838d8); (0x83c729ca, 0x116ed3b4);
   (0xcd4a8159, 0x559ff214); (0xa20ea5be, 0x3b5f0894); (0xfb500455, 0x0b735484); (0xaa500d7e, 0x0a7b3e0c);
   (0x0ef1a5e9, 0x041b2e50); (0x8b807006, 0x4d5784a0); (0x8c8eb831, 0x032e00bc); (0xab170a90, 0x570566a0);
   (0x2399cd2c, 0x2ece0894); (0x58766f14, 0x287066a0); (0x53f6b8cd, 0x51643ca0); (0x4780691e, 0x1f3ff800);
   (0xf8294e3e, 0x137a6060); (0x46eaa291, 0x235ae6a0); (0x7614a376, 0x04605818); (0xaa1b4a07, 0x57055fe0);
   (0x12b62b95, 0x379a6060); (0x22dd080e, 0x03fc519c); (0x99dec22a, 0x29367b50); (0x17948bb1, 0x19437e60);
   (0xc3275592, 0x08bcd200); (0x17315ae7, 0x43a13080); (0xa6a568d7, 0x4be6bae8); (0x2ecdfe99, 0x4c2cf818);
   (0x6f858505, 0x15fe436c); (0x3e806fd4, 0x50357e60); (0xaacd3bfd, 0x09892570); (0xeef4ff09, 0x1a72e6a0);
   (0x7c16579f, 0x494ad048); (0x13fb8556, 0x50e78000); (0x019dd1a3, 0x288de6a0); (0x187674c3, 0x00278000);
   (0xbab14e18, 0x1b511db8); (0x170e98b7, 0x001e0000); (0x2bee3505, 0x56b40894); (0x242cb721, 0x3c49c6c4);
   (0xf99d4daa, 0x0a94c1c0); (0xefff3f86, 0x55408654); (0x1bbeec15, 0x570566a0); (0x1f40d009, 0x56d3c7c0);
   (0x622c3fef, 0x2d2d8130); (0x9e4e25f8, 0x4a069dc8); (0xeaa219cf, 0x2e17cdfc); (0x6ee870d9, 0x48e7aac8);
   (0x0e1a526d, 0x029fc918); (0x479bb577, 0x25a49b40); (0x2dac1597, 0x54db3320); (0x6b78533b, 0x323266a0);
   (0x786f3e05, 0x243e17e0); (0x984d20ab, 0x56069a48); (0x29bf0441, 0x0b2f80d8); (0x48e0c727, 0x57003860);
   (0x5abf0094, 0x002a3b90); (0x4381f75a, 0x001f8000); (0x5846d271, 0x184d66a0); (0x9c3c8a3b, 0x256d6038);
   (0xa0ff4bb9, 0x3668a1f0); (0xe3c8d0ad, 0x00268000); (0x94ab295a, 0x1fd6d580); (0x34bced09, 0x2a49cca0);
   (0x979b6c72, 0x2c4416e4); (0x17599ef7, 0x51ba004c); (0x5c4fab74, 0x3adc9194); (0x96e83a16, 0x570566a0);
   (0x94f0ca49, 0x00158208); (0x41bd4f1b, 0x474b6a60); (0x71360355, 0x07734cec); (0xdddc9fdd, 0x00368000);
   (0xf9e520ca, 0x116720ac); (0x92de3a17, 0x57056060); (0x3dc7da6d, 0x012fd420); (0xf7762ed2, 0x01d55c00);
   (0xd3ee1513, 0x3f9413e8); (0x82ab01aa, 0x2cf3f1f4); (0x603b137c, 0x4f3ffb58); (0xd3131fc5, 0x453d0940);
   (0x9d0a3c46, 0x56f59b10); (0x7593124d, 0x3e44b5d4); (0x6f409e88, 0x00338000); (0x259408b8, 0x001f0000);
   (0x46413723, 0x472600fc); (0x9b9d6bd9, 0x20f636e8); (0x3449d204, 0x1f45825c); (0x3cb0f6c6, 0x006f5a20);
   (0x2c0d2ee8, 0x2097b840); (0x4251a7da, 0x3d192a28); (0x90cc24cd, 0x57056060); (0xcb2d0119, 0x49809220);
   (0x6777c191, 0x0233f61c); (0xd50a2245, 0x06f4e7e0); (0x9aea0d17, 0x4339315c); (0x4526caa9, 0x262784c0);
   (0x1d980d0d, 0x47e79d1c); (0x9eab2ccf, 0x40a5a8ec); (0xf302f6f8, 0x553e8ae8); (0xa2fb3302, 0x45f88644);
   (0xd955e3a0, 0x26eadbe4); (0xbd9c7dbb, 0x525793e8); (0xcd5dea4f, 0x482e43a0); (0xc15f5604, 0x3da9f8d4);
   (0xf40b859b, 0x1ec3e6a0); (0xa154a1d7, 0x512a4c34); (0x903ddcbc, 0x4b3a80f8); (0x9fc5e64a, 0x57056060);
   (0x55095cfe, 0x00360000); (0xd636db52, 0x55ca651c); (0xafc03190, 0x4606952c); (0x9aa43be6, 0x022f6000)].
Definition bnr_offsets_11 : list (Z * Z) :=
  [(0x4faef3f2, 0x30081450); (0x8e0a63cb, 0x248e6f78); (0xfb5fef38, 0x268f0800); (0x14614c67, 0x20ee0a68);
   (0x07845582, 0x45446000); (0x17adc52a, 0x568b2f10); (0x375f3e05, 0x4246d9f0); (0xc75e1631, 0x40c63e20);
   (0x1d38dd6c, 0x26cf6434); (0xaf49c2f6, 0x1d7f2c68); (0x56921c93, 0x046d8d60); (0x3fff0c71, 0x002a0000);
   (0xc3f5e9d2, 0x001e8000); (0xddccf3f8, 0x4ae50d78); (0x5e352674, 0x570566a0); (0x0feb8c8e, 0x1720d4fc);
   (0x50a0eeb7, 0x10ec2900); (0x53eed038, 0x3687d398); (0x2f6710ee, 0x57055fe0); (0x7f375427, 0x5147d8f0);
   (0x14afb70d, 0x112be5fc); (0x6356f5c3, 0x53a12d60); (0x87bc9e21, 0x00062f00); (0xd0d4445c, 0x1aa0d784);
   (0x40088cbd, 0x57016e40); (0x85d4e9d8, 0x040f51e8); (0x8982ce6b, 0x1d6d3310); (0x0a445d20, 0x0c96eb68);
   (0x8f457634, 0x02fe66a0); (0x789849ea, 0x427eaaf8); (0xaa5136e3, 0x36e9dd70); (0xeb35a9f7, 0x4ae83494);
   (0x2778454d, 0x423a9dd0); (0x5cbb1a44, 0x0bcc0988); (0x3e177121, 0x14dae01c); (0x5a049813, 0x55638140);
   (0x730c9734, 0x552ff27c); (0x513def91, 0x3981a57c); (0x06c98434, 0x278528fc); (0x8778e798, 0x16e7e6a0);
   (0x7dfc37eb, 0x0029a930); (0x6299a86b, 0x4ae59354); (0xb1eda6ba, 0x56d44c00); (0x5d2fb481, 0x27ae6850);
   (0x468be91c, 0x57055fe0); (0x8ddd4255, 0x57003860); (0xbb58b3ad, 0x0273e6a0); (0xb6cd98e0, 0x0560a1dc);
   (0x224d49a9, 0x0be31254); (0x60c347ad, 0x001c0000); (0xdf1d9b36, 0x2d538530); (0x9aa6359a, 0x48842f70);
   (0x27444df3, 0x3223c6ac); (0x6e49d307, 0x14479884); (0x64e2b164, 0x45dc74a4); (0xad2a1a9f, 0x4ac902a0);
   (0x778a2aab, 0x2abfb950); (0x149674b8, 0x56d37858); (0xb9d7f966, 0x158dd000); (0x83445c79, 0x52274c34);
   (0xe74c2391, 0x1d513c98); (0xb352d48f, 0x3a2c1f38); (0x06a10d54, 0x57056060); (0xa03a4ebf, 0x26a04930);
   (0x33f7cbb3, 0x1d6d0540); (0xfba204dc, 0x570566a0); (0x67971235, 0x5692c884); (0x09029433, 0x509801cc);
   (0xdbedd454, 0x47ec5834); (0x2c66f008, 0x24cb3c9c); (0x81a483f8, 0x001f0000); (0x86140924, 0x0cdb811c);
   (0x0708c6e8, 0x54e3cb34); (0xbb9a38a0, 0x09aa66a0); (0xd3dbb51c, 0x2bef9800); (0xe2e39b4b, 0x57056060);
   (0xa8eec3f8, 0x1cdac82c); (0xd0231638, 0x04a73ccc); (0x37bb9a1f, 0x55421480); (0x75f9ebc3, 0x0291d288);
   (0x5d55de67, 0x0030b22c); (0x40207216, 0x006f3248); (0xc2447958, 0x39edba98); (0x3495a916, 0x5107cc34);
   (0x1a218af6, 0x325ff728); (0xc39cf4b0, 0x01e9b770); (0x4ececc33, 0x07679680); (0xef1fa9e3, 0x3c49c6c4);
   (0x58ee6279, 0x26e98ba0); (0x4a8c2199, 0x002c0000); (0xc855c6e2, 0x161a3088); (0x2ef164c5, 0x076345d0);
   (0x567b0a4d, 0x1b5f2980); (0xb5cce330, 0x51ec9d94); (0x9d0fd284, 0x0ac80698); (0x30e5c23d, 0x14479884);
   (0xbd3ff8af, 0x3b6e55f8); (0x036cd878, 0x256e607c); (0xc6dd8e75, 0x45d2e3d4); (0x8c897dc2, 0x475c4854);
   (0x5d63288b, 0x0130d560); (0x675e856c, 0x00258080); (0x4d29effe, 0x184d66a0); (0x90d5e979, 0x4ea37b0c);
   (0x86e68aa4, 0x570566a0); (0x2f894a17, 0x0b518d40); (0xd7975429, 0x18cf9c70); (0x599f927d, 0x286c5bec);
   (0x330e5b14, 0x0b45ab30); (0x758f62d1, 0x3f66dbb8); (0xbe0c96b5, 0x41141c28); (0xfad206d9, 0x111d73dc);
   (0x183d93e2, 0x4ba2dedc); (0xbc5f4277, 0x25d662ac); (0xf02c7758, 0x176266a0); (0x4a15c3dd, 0x06e07a00);
   (0x8c203c9b, 0x1a2f66a0); (0x81162fd4, 0x48178240); (0x4554211b, 0x2130dfa0); (0xf7238e80, 0x44882fa0);
   (0xd77114b9, 0x569e19a0); (0xceb4fe11, 0x367bd408); (0xfeec2d1a, 0x534ee6e8); (0x77a22e28, 0x50d463d0);
   (0x81e7d3a8, 0x27cbac40); (0x7c445a57, 0x2c43bac4); (0x07b105ef, 0x3da444f0); (0x5ea91bbe, 0x4e52e560)].
Definition bnr_offsets_12 : list (Z * Z) :=
  [(0x07bd28dd, 0x1fb27168); (0xffa10d8e, 0x00338000); (0x0301f834, 0x17e2d4e8); (0x429eea3b, 0x0b45ab30);
   (0x93d9f8f3, 0x0a1db420); (0xe6103325, 0x4f6b9aa0); (0x1a6e0c4d, 0x274be5f8); (0x9ef69253, 0x224ce6a0);
   (0xbc385636, 0x57056060); (0x0420e8a7, 0x54bee6a0); (0x6456b401, 0x000b8000); (0x7a27dabc, 0x003d8000);
   (0x757ee052, 0x570566a0); (0x22753b2a, 0x05a886a8); (0xdadd8c8d, 0x447dea20); (0xae368d89, 0x169a5720);
   (0x7b3344c4, 0x22c9409c); (0xe74c3dad, 0x0c1ac9d0); (0xf1030369, 0x44752f90); (0xfd0094b6, 0x2a561370);
   (0xd774ad20, 0x30707d18); (0x67e7d1ea, 0x370b0000); (0xd1c341ea, 0x19bff424); (0x89fe3383, 0x5200696c);
   (0x3c930a64, 0x002f0000); (0x2f6e3d6a, 0x0b835140); (0xcd4a2cd5, 0x1127c9dc); (0xa2801fdf, 0x2a7ee6a0);
   (0xd8162039, 0x00b05188); (0x1be655c6, 0x57016e40); (0x7fdf7d91, 0x4848e974); (0xa7501993, 0x48802000);
   (0x41e3c8d5, 0x49366ea0); (0xfbb93ac0, 0x225a1044); (0x949ea89d, 0x32cb7ef8); (0x09a6abf5, 0x05a866a0);
   (0xb1e7db72, 0x2463fc90); (0x60c66d9d, 0x55a6acf0); (0xf78322e9, 0x055f21bc); (0x14c0e516, 0x57015640);
   (0xa3874017, 0x09c63660); (0xe57ab379, 0x00238000); (0x811eb327, 0x50541aa0); (0xdd3110d5, 0x00533000);
   (0x4b95246e, 0x568c3928); (0x6b9aee98, 0x010ff200); (0xbcda3076, 0x5591b660); (0x2e3cd936, 0x40a528ec);
   (0x3947a241, 0x275f66a0); (0x28111e17, 0x02d266a0); (0x270adc34, 0x071166a0); (0x381a05e1, 0x57028620);
   (0xb5d44d38, 0x4752a500); (0x7f3a5aaa, 0x502a0000); (0x536432bc, 0x002a0000); (0x808733c2, 0x4e2366a0);
   (0x6ef46a28, 0x11b6f7c0); (0xe7137e0e, 0x34364f98); (0x4dcea361, 0x31d3ae00); (0xb95ead28, 0x498ad508);
   (0xc7030bd3, 0x00cade0c); (0x0c8c973c, 0x3b7196a0); (0x5087bc9f, 0x48a48544); (0x1275e819, 0x21ff903c);
   (0xe4796127, 0x2cef5418); (0xbc021e3e, 0x002cfc60); (0x59c47913, 0x322396ac); (0x60031de3, 0x002f8000);
   (0x911999ef, 0x127266a0); (0x7ee5aad4, 0x0b4385d0); (0xac4404aa, 0x5692ede0); (0x83d03d93, 0x00338000);
   (0xb7776f16, 0x53115320); (0x946498f0, 0x57056060); (0xc84a37f6, 0x470a1404); (0xab38b47d, 0x3e335d28);
   (0x8db79277, 0x1048e160); (0x31d737b9, 0x013a66a0); (0xafc21fe5, 0x244e66a0); (0x2ab8916b, 0x4e2b51dc);
   (0x0653d8e4, 0x0089a700); (0x312517c4, 0x55328540); (0xd15a39ae, 0x00328d68); (0xe39b9d5f, 0x051dcc38);
   (0x240b63ca, 0x2730340c); (0x643b1570, 0x3aae0b6c); (0xa9fc56ca, 0x19f7e5c0); (0x1a611c78, 0x57014e40);
   (0x59029245, 0x03219d14); (0xf286a467, 0x4090a3d4); (0x50d6de71, 0x41e804f0); (0x12bf1bab, 0x570566a0);
   (0xbc6c6eeb, 0x0c92b484); (0x717b22ca, 0x102bc880); (0xb1e9f3ff, 0x51ffccb4); (0xf249438f, 0x4bd31800);
   (0xbfbee103, 0x24609000); (0xd71b9d13, 0x39600af4); (0x1961f13d, 0x1e0de968); (0xce7e0017, 0x145b8000);
   (0xf1081c44, 0x004e0000); (0x617accfd, 0x508dcc34); (0x1bce4b25, 0x041ebfc8); (0x70f041b7, 0x38c9b8c8);
   (0x006d4a21, 0x138d15ac); (0xc16d6371, 0x002a0374); (0x60f3d1ec, 0x1a587cb4); (0xfe5022f7, 0x43d0c520);
   (0x321beb25, 0x5545fe50); (0x89307576, 0x2e63c7e0); (0xfb136d5c, 0x56069c08); (0x820edf3e, 0x00188000);
   (0x3757937c, 0x52c9e0b4); (0xd0a2331f, 0x36313498); (0x14718b6f, 0x570566a0); (0xb1e07a62, 0x00220000);
   (0x8ecc327a, 0x2dcc8000); (0xe3f2e003, 0x514985c0); (0x908cd002, 0x332a6cdc); (0x0e4a93a5, 0x28dfccc0);
   (0x3d973cd2, 0x3a3453b0); (0xe53c810d, 0x2445547c); (0x37ca54fa, 0x4f7467c8); (0x78084e8a, 0x0426e6a0);
   (0x110e53b6, 0x0e165ea0); (0x0fd6f8da, 0x00c19200); (0xb878eb25, 0x34e7cc0c); (0x4a7fd68c, 0x317dd398)].
Definition bnr_offsets_13 : list (Z * Z) :=
  [(0xffb67a45, 0x14f7fa5c); (0x534f10f1, 0x188aa920); (0xcd133980, 0x14c39a40); (0x307795f7, 0x4e8301a4);
   (0x97f5eff8, 0x22f1c1c0); (0x7bbba8b3, 0x53b9626c); (0x0d41d6d9, 0x3250e6a0); (0xb3ba523c, 0x46290494);
   (0x432281d0, 0x35f6fd4c); (0x86943086, 0x57056680); (0x1ac417b5, 0x555b651c); (0x8cc9f391, 0x19f75660);
   (0x6ad0842a, 0x37cd66a0); (0x381d1418, 0x27d2cdfc); (0xc9ceb32a, 0x2a4ee6a0); (0x1a11f465, 0x570566a0);
   (0x9a0f3b63, 0x458d0000); (0xdc68c812, 0x2f194700); (0xbaa0b32c, 0x0dc56000); (0xf9dd80fc, 0x548a0694);
   (0x49a39dda, 0x57056060); (0x7c805b02, 0x56bd33e4); (0x236ca1d5, 0x4b882e68); (0xa54814c3, 0x4e526060);
   (0x1ae6763b, 0x45f6ae20); (0xdb81bca9, 0x1986f640); (0x94379f36, 0x08b6b49c); (0xe169381f, 0x570566a0);
   (0x460897a4, 0x49ed3f50); (0xf8eac4bb, 0x08d20a2c); (0x075bf516, 0x1462fb90); (0x8e00e7cc, 0x570566a0);
   (0xf01fff9c, 0x097f16c0); (0xc384180a, 0x269ee060); (0x856da50a, 0x10928000); (0x7a183f72, 0x00380000);
   (0xd85f799f, 0x3c329140); (0xeb469b18, 0x56896ea4); (0x52cb73e1, 0x3f56e42c); (0xe9358c55, 0x213125ec);
   (0xc30732af, 0x3f531cd8); (0x1ab533fa, 0x41a58150); (0x06a82c24, 0x4d7466a0); (0x83e6c769, 0x002a0000);
   (0xd60e8f99, 0x44220100); (0x9ec7bdff, 0x10f0df9c); (0x97a7b62f, 0x52af17f0); (0x4f426ecf, 0x00220000);
   (0x294d5d48, 0x2083dad0); (0xe1e04d0b, 0x01889eb4); (0x08dd7e05, 0x40e80000); (0x91cab8be, 0x003d2640);
   (0x5296db6b, 0x25cc0cb4); (0x67bfdbbf, 0x417ba80c); (0x63b1068f, 0x002abb90); (0x482aea51, 0x2e91a288);
   (0x6f57dbb9, 0x54841560); (0x33544f5f, 0x0a116040); (0x40734f18, 0x00150020); (0xfc8a623d, 0x196d0b9c);
   (0x827fdd1e, 0x3a7baf20); (0xe96b2469, 0x01dea000); (0x25a05612, 0x55cac9fc); (0x4c337dfa, 0x28723000);
   (0x37f5a807, 0x01bad7d0); (0x30205727, 0x088e97e0); (0x6e753ab6, 0x1416e66c); (0xb89d2161, 0x00420000);
   (0x1bb67623, 0x56d10000); (0x5a1c060d, 0x08cda000); (0x2b07a875, 0x1502ef20); (0x5b9649ed, 0x0f32e6a0);
   (0xd1fa1c3f, 0x49ff0f74); (0x0e9cfb59, 0x1ec3e6a0); (0x76875002, 0x557161c8); (0x1f9255e3, 0x55238078);
   (0x8eb618be, 0x3f9413e8); (0xe60ce546, 0x0029a930); (0xb33a9ae6, 0x48a48134); (0x5c49909c, 0x5088cb34);
   (0xdcb37471, 0x5073750c); (0x33b762a0, 0x010335a0); (0x41a9fb08, 0x149d8e40); (0x8225b120, 0x4018b840);
   (0x0161bd89, 0x3c49c6c4); (0xfd126701, 0x190f9ee0); (0x8f3489a5, 0x2d1eaa20); (0x3777e8c6, 0x51204854);
   (0x9e80a20d, 0x051dcc38); (0xfb3dff57, 0x061f2bc0); (0xeb2350e5, 0x473b8b4c); (0x4b23681e, 0x00188000);
   (0x02e03671, 0x182d66a0); (0x1f5ec2d2, 0x1a980000); (0x9e05bb09, 0x159b66a0); (0x2688503e, 0x15699a1c);
   (0x60c612b6, 0x3b956400); (0x536bc0a1, 0x321fe6a0); (0x050c1a25, 0x1ec2e060); (0xd4a6983d, 0x20a0afa0);
   (0xb12282c7, 0x19f73a80); (0x08a402bc, 0x00badc88); (0x9b72e0c1, 0x00196920); (0x3e003c3d, 0x2f705a64);
   (0x5dc1b89d, 0x55956810); (0x17bb99ba, 0x558255c0); (0xce7ca5f1, 0x5652e20c); (0x0de48719, 0x52a5c24c);
   (0xa73fc5bb, 0x37e000b0); (0x6e01808b, 0x1e8486e8); (0x6628b7b0, 0x502d1e88); (0x222ef465, 0x14346f40);
   (0xc72cecbe, 0x36e74884); (0xf35ba005, 0x00533000); (0x86226ac3, 0x30a166a0); (0x34b1e8d9, 0x451bd360);
   (0xc4516a97, 0x51660000); (0x872f9f06, 0x050fdbe0); (0xcb8fcf7d, 0x06f58d78); (0x703aed60, 0x018704e8);
   (0x3a921a7e, 0x07da4548); (0x858b9162, 0x1eb666a0); (0x9c5b328e, 0x183dd718); (0x986a4b43, 0x225cc24c);
   (0xe16395ab, 0x003a0000); (0x03b3c71a, 0x57056680); (0x455b0158, 0x4e43adb0); (0xfc56b3e9, 0x2c2d9964)].
Definition bnr_offsets_14 : list (Z * Z) :=
  [(0x69e877ae, 0x00366b88); (0x5ae2684a, 0x0517e6a0); (0xb85f78dc, 0x56fe4600); (0x8c0e4182, 0x0d9eaea0);
   (0xcae12f52, 0x21b916c0); (0x1d209789, 0x3626dc70); (0xc92154ae, 0x57056060); (0xfc56f4c9, 0x00319d40);
   (0x3ae7e74c, 0x4b13be88); (0x3dd905a7, 0x549e2940); (0xfc12a3db, 0x570566a0); (0xcff0694a, 0x15f2f1bc);
   (0xbd723548, 0x2bff9da0); (0xdbd963ff, 0x2a1066a0); (0x147b2c5e, 0x2e5118f0); (0x7430beaf, 0x487d4854);
   (0xfa712834, 0x19011e04); (0x643e69ca, 0x570566a0); (0xc33002df, 0x17e49b80); (0x44d6780a, 0x226c04f4);
   (0xa5a0e590, 0x5020e690); (0xc42b426b, 0x527b8000); (0xbc5a5fbe, 0x110a342c); (0x36b04297, 0x5704b560);
   (0x1ce1e6d3, 0x158508e8); (0xef632c9a, 0x570566a0); (0x287c8b02, 0x3ed00000); (0x72c5e9ee, 0x570566a0);
   (0x29c96a08, 0x4e81bd60); (0xbeef815d, 0x14915f0c); (0x35266f2c, 0x528a75d8); (0xa2f0d573, 0x001f8000);
   (0xeeeea2cf, 0x333b53b4); (0xcb5c8646, 0x4c6b76e8); (0xb1535e9b, 0x001337ec); (0x0fdc1bcc, 0x1092d43c);
   (0x0c939637, 0x570566a0); (0x4eccd0c3, 0x3f1b1b84); (0xb3c49c58, 0x57054fc0); (0x161a30e6, 0x40e80000);
   (0x0563a26c, 0x003a0000); (0xfa7461da, 0x570566a0); (0x0539b97e, 0x3e3aa0a0); (0xf1a32dc2, 0x0966ac18);
   (0x1afa219a, 0x55408a14); (0xefe8ede3, 0x37cd66a0); (0x9c0e4edf, 0x4d04c0e0); (0x38ff3244, 0x570566a0);
   (0xa9cdb6ed, 0x2d8e5a34); (0xb6c9cdb1, 0x0a605f00); (0xdfed7f4c, 0x1faa8bfc); (0x66102c65, 0x57014e40);
   (0xab082095, 0x03dd6af0); (0x871f0029, 0x0d84cea0); (0x9d02f01a, 0x52e9a194); (0x1b9e72e2, 0x57056060);
   (0xa0d31a82, 0x003d263c); (0xb8fcb237, 0x2fb1e6a0); (0x6fb04ec4, 0x570566a0); (0xc51d6619, 0x3a8ac0a0);
   (0x57b8bc43, 0x561e4320); (0x422e3dc7, 0x090566a0); (0xdbaf6a64, 0x25c26480); (0x086d6d64, 0x25168484);
   (0x9d74f1e7, 0x2f91b7f4); (0x88c8bd12, 0x0200e6a0); (0xc25d5d82, 0x4c506204); (0x210247d0, 0x351066a0);
   (0x61526e32, 0x32c3b0f0); (0x5c42b291, 0x30f566a0); (0xbdd0ad43, 0x1c895620); (0x0a641245, 0x18a9e6a0);
   (0xd02264b6, 0x4a7cc050); (0x8e63c7b1, 0x002c0000); (0x61398af4, 0x0128b474); (0xb8f356d4, 0x5477d320);
   (0x34bbb8b6, 0x570566a0); (0xe35c7ca9, 0x56fb5de0); (0xfc68674c, 0x438d1e08); (0x91b3fcff, 0x2b44d9a8);
   (0x1eecd72e, 0x56da0dc0); (0x2c89e50a, 0x295e97a0); (0x5d3c08ad, 0x00380000); (0x0dd58eb5, 0x1db46efc);
   (0x7e613ccf, 0x0966d2d8); (0x266e3bff, 0x127566a0); (0x38af67d2, 0x1b5ec5c0); (0xefcc5239, 0x0e91e6a0);
   (0xeae88382, 0x0fe66100); (0x11d5561e, 0x5505651c); (0x94fe6847, 0x00218000); (0x66bbff54, 0x2bfd7bb0);
   (0x0470d853, 0x570566a0); (0x96fac07a, 0x102c3b04); (0x14b811fc, 0x273d348c); (0x8ce72a84, 0x570566a0);
   (0x3cdb1551, 0x4d524fc8); (0x76e711e4, 0x3ebf7d58); (0xc630504f, 0x570566a0); (0x5e5eba5c, 0x00332a0c);
   (0x150691cb, 0x1c3797b8); (0xb7902d09, 0x54b5e6a0); (0x8cf26a00, 0x396e1000); (0x861e49ff, 0x0043e7a0);
   (0x4f9655df, 0x10110070); (0x689e1483, 0x008c2f00); (0x8120f72f, 0x0aee66a0); (0xef32bd6c, 0x1a841164);
   (0x075a2f9e, 0x00320000); (0x9878e3a4, 0x2a46804c); (0x6206512d, 0x00188000); (0xbcfd6890, 0x29ab1650);
   (0x11fb5af9, 0x42fe8000); (0x39f6176f, 0x11f38a3c); (0x2b91adbd, 0x07cd0354); (0x778352ce, 0x4ea38000);
   (0xf39ae366, 0x095b9cf4); (0x214634b4, 0x4acfe1d8); (0x046b7ceb, 0x4c42ec28); (0xc6e6a01f, 0x0034fc4c);
   (0x0d366a62, 0x0026f61c); (0x081e03ee, 0x005cb418); (0x31a1f668, 0x00883e88); (0x5da805c0, 0x40e78000);
   (0x65f960dd, 0x4ff37c04); (0xcf90dccb, 0x144b8acc); (0x409c91ad, 0x40a460c4); (0xcc35fc9f, 0x50a6a9cc)].
Definition bnr_offsets_15 : list (Z * Z) :=
  [(0xb02691e4, 0x50a68e88); (0x2352f394, 0x3659ca20); (0xcecf5250, 0x481c80fc); (0x99850253, 0x3f51785c);
   (0xab892963, 0x5490b8a4); (0x512c7625, 0x0022c328); (0x5fd2099d, 0x1235f38c); (0xa3b43053, 0x04b57b44);
   (0x7319b185, 0x2bb7b2d0); (0x45b3cedf, 0x002b1fcc); (0x9a672fd8, 0x0bda1150); (0x4e99a8b3, 0x3c1b3c5c);
   (0x1cbfe799, 0x00a3d0a4); (0x1b3ba85b, 0x001680f4); (0xedad1f1a, 0x4adabb24); (0x36565967, 0x2d73d14c);
   (0xf32068a5, 0x0037eb24); (0xa524a6cc, 0x46c17978); (0xabe54fcd, 0x002d7134); (0x314fe9b8, 0x106f5bd4);
   (0x91d63c41, 0x357b98a4); (0x49397ce1, 0x00444b20); (0x724a5014, 0x0021f064); (0xe628eee6, 0x41da45b4);
   (0xa03c8107, 0x00026f84); (0x2e725de5, 0x10fff930); (0x997f0bcb, 0x0041067c); (0xc607b1f4, 0x2d63817c);
   (0x469c28b0, 0x003cca98); (0xae66ddcb, 0x53e309cc); (0xfc484764, 0x293a35a0); (0x8f4e0488, 0x1c8e37dc);
   (0xe1b5e187, 0x399ca590); (0x423099f7, 0x0083a454); (0x588ce8cb, 0x003239a4); (0x6840bfaa, 0x00dfbddc);
   (0x3d75d9eb, 0x001bddf0); (0x831cf076, 0x38659430); (0x799c5c97, 0x07a8d998); (0xc5d5d3df, 0x001bfc64);
   (0x4cb1c06a, 0x0cdb3258); (0x1cc9b97b, 0x4fba8004); (0x07edfaf2, 0x037facbc); (0x2422b10f, 0x4266f4b0);
   (0x13bc6526, 0x1c0fcb0c); (0x53d88d33, 0x00bb07bc); (0xfa93b095, 0x002c4b30); (0x6c3c090e, 0x10ed8004);
   (0x8d959ec0, 0x001bddf0); (0x60cbaa34, 0x0b485e7c); (0xbf1903c0, 0x10163ddc); (0x5825d152, 0x255d2508);
   (0x1913980e, 0x00027d84); (0x15078a8d, 0x0010bc04); (0xc3b25f9a, 0x2c47d490); (0x77362f77, 0x54fb7418);
   (0xbe33526d, 0x112639a8); (0x38a7c072, 0x4922dab8); (0xf2dc36aa, 0x14d0e058); (0xcbadfacd, 0x09ab10ec);
   (0x7476796a, 0x2b44cc50); (0x4d65799d, 0x002dff48); (0xc5c489d1, 0x101d7404); (0x6c4f19e3, 0x4702757c);
   (0x46f405a5, 0x4f15dfc0); (0x0150d56f, 0x004b18b4); (0x4fdf88a9, 0x135385d8); (0xca8ab769, 0x52255794);
   (0x550237f6, 0x000b3660); (0xd8671631, 0x4ae8de1c); (0xf1727f7d, 0x53570ba0); (0xedbf1b26, 0x11004b00);
   (0x776391c3, 0x124cae0c); (0x9d47099e, 0x0016d520); (0x64fa0320, 0x0c5389ec); (0x52479375, 0x008963d0);
   (0xa808ca71, 0x0d5e48d4); (0x9e813032, 0x3a84f85c); (0x9304a4b2, 0x22c39bfc); (0x6d891497, 0x102bd90c);
   (0x85392a67, 0x06aef598); (0x1bb92652, 0x46b88454); (0x4a3d9805, 0x4d300e44); (0xea5c3993, 0x003bb2b8);
   (0xe3450f53, 0x002fb13c); (0x7b1e743a, 0x524610f0); (0xff2a3111, 0x26b527ec); (0xba6370be, 0x1f426df0);
   (0xbd1e8b49, 0x00219a7c); (0x6d7c130b, 0x55f8edfc); (0x65167e7d, 0x33d04144); (0xfab8a1d2, 0x543e13ec);
   (0x3efbf144, 0x50f275d8); (0xba4ef696, 0x2c79d6e8); (0x3575b1b3, 0x00187ea4); (0x3a2eba32, 0x2784f36c);
   (0x3e314569, 0x00021d84); (0x30d7e2ed, 0x46f20e04); (0xe3a53d82, 0x4d542024); (0xcbcf5ad3, 0x00314984);
   (0xe33bd26b, 0x080515a8); (0xea0fb749, 0x442b8240); (0xed10389e, 0x01044bb4); (0x63170ab1, 0x00fd58bc);
   (0x45d665f3, 0x002dffd8); (0x996fc11b, 0x3548ab3c); (0xb10ce271, 0x42818e24); (0x0034d387, 0x125e90c8);
   (0xdbd24c66, 0x001bcff0); (0x9a82ea3a, 0x2de12084); (0xdf083039, 0x1dba8ea4); (0x679f4fed, 0x0f814f04);
   (0x07ea227b, 0x112af584); (0x1f72de09, 0x04d442fc); (0xe598a3d2, 0x07d975d0); (0xe136abe9, 0x53a8a74c);
   (0x68cce2dd, 0x01f3d094); (0x46823914, 0x0037e864); (0x30243e21, 0x4394c0f4); (0xc3ef2387, 0x25a19968);
   (0x24da1450, 0x0039070c); (0xb007e34b, 0x38f43ad0); (0x9401c898, 0x4c40e24c); (0x8925f99b, 0x2df2f298);
   (0x4e2a5554, 0x5388dc2c); (0x6eec2164, 0x158d454c); (0xd65a15e7, 0x569765b0); (0x636d19df, 0x0014b2e4)].
Definition bnr_offsets_16 : list (Z * Z) :=
  [(0xe58234dc, 0x273d2a84); (0x6e03ebac, 0x246bade0); (0xe8f4e116, 0x3e638210); (0x58917985, 0x21e609dc);
   (0xe6f42031, 0x3e78dc74); (0x6c611e8c, 0x1d22b920); (0xe31cdf70, 0x4ab2ed18); (0x63ac3318, 0x4a52b034);
   (0x31e0e46a, 0x00cbdb54); (0x2463c5fc, 0x171d4ba4); (0x0726475c, 0x25c9661c); (0x4fa516c2, 0x05618cdc);
   (0x0caf37a4, 0x47b0eff0); (0xe48008a1, 0x26f4ae20); (0x03b3d25e, 0x05640000); (0x103895a6, 0x527b04f0);
   (0x520d7481, 0x4ae53ac0); (0x32b82cdd, 0x0af78c7c); (0x70f0f50c, 0x4d328cd8); (0x28ceb383, 0x2a71888c);
   (0x786797e2, 0x2248eef4); (0xb68a22db, 0x0966fb24); (0x398c1b43, 0x001e4d44); (0x60b126b3, 0x43a4cc00);
   (0x9edf6e84, 0x50de0004); (0xa663369d, 0x557a9fd8); (0xbfbd95c7, 0x27cffbfc); (0x3eb10ccc, 0x1f465774);
   (0x04d95810, 0x4814af70); (0x9f0c4fd5, 0x4e9e3bf4); (0x3fda10ed, 0x08b57d44); (0xb925d108, 0x35a920e4);
   (0x1b31721f, 0x001e9244); (0xc8bb33a3, 0x52212790); (0xa86dc60e, 0x097cb910); (0x41abed8d, 0x4111f888);
   (0x0cfee487, 0x44338240); (0xc8526832, 0x149aa8d4); (0x21278393, 0x40ae0c40); (0x015c0765, 0x550f3e84);
   (0x57e01320, 0x3651cac8); (0x536c7303, 0x3d3394a8); (0x47348f01, 0x4275bd3c); (0x7f5c428d, 0x220fff38);
   (0xf34925d2, 0x0010e488); (0x587c8afc, 0x41cd4c54); (0x0edfe1e3, 0x002115ac); (0x4837c939, 0x56423c00);
   (0x7b559da7, 0x1e5b5fa8); (0x2808de7b, 0x0045a91c); (0x53e6af54, 0x447c8240); (0x36de8b75, 0x0024bc24);
   (0xe7b9aef9, 0x002d5750); (0x7fb13857, 0x4daa8000); (0xf3fbd2c7, 0x00cd8348); (0xefbf9f36, 0x25b06f80);
   (0x58e69397, 0x09e13540); (0xd6318949, 0x10f17b88); (0x1c93b923, 0x50913e80); (0xf89e3cc0, 0x2a2f2760);
   (0xf0ae4ac1, 0x55e02fec); (0x4e9805b2, 0x1458965c); (0x6bf03f55, 0x00460004); (0xc080c3b7, 0x11ee2570);
   (0x05d84608, 0x00722560); (0x958d91fa, 0x2a174054); (0x5e842e81, 0x48396dcc); (0xea7041a1, 0x164222a0);
   (0x7a7480c1, 0x002ff60c); (0xec482d1c, 0x22092474); (0x8cd8c40d, 0x45390000); (0x6aaca8aa, 0x28abfac0);
   (0x97b00c40, 0x410c5880); (0x8f74c326, 0x29f430cc); (0x06c46292, 0x004107d8); (0xeab86cb8, 0x005ab500);
   (0xcf6e94b5, 0x420b9dc4); (0xfd878510, 0x518a9d78); (0xd33d8788, 0x01bb307c); (0x66dc3bee, 0x22dbb808);
   (0x03c9e7b9, 0x1547eae8); (0x24dc39e9, 0x428a6f6c); (0xb8b03bc2, 0x427f7a64); (0x6d858339, 0x07bc9a54);
   (0x7f32a5f5, 0x2fdd89b0); (0x54e9bc10, 0x00eb5c04); (0xa24c8f3a, 0x112af584); (0x0f164a07, 0x1423a5c4);
   (0x0840005d, 0x37462ed0); (0x19eb4151, 0x27a3a64c); (0xe6e6a761, 0x013184c0); (0xd905bffc, 0x29330000);
   (0x636575e8, 0x00e36310); (0x764ce540, 0x271caad4); (0x15fe6c62, 0x3f170954); (0x7e0bf0e3, 0x1a560748);
   (0xaed663a0, 0x3669536c); (0xfc2af00f, 0x46ceaadc); (0xe214eb21, 0x2eec859c); (0xbaab4153, 0x00598fdc);
   (0xbed0ab79, 0x5136744c); (0x6774b628, 0x32c3b0fc); (0x5cf9bb00, 0x35c2fa34); (0xe019fa00, 0x34efcf88);
   (0x257b68b1, 0x3967ee6c); (0x6aeab19a, 0x37ce3be4); (0x19af728f, 0x0fe6b6f4); (0x1402213a, 0x4922dab8);
   (0x33940fb8, 0x060df024); (0xeeff925a, 0x00441718); (0x55bae5dc, 0x0a56c480); (0xfba08ab2, 0x0f4e0004);
   (0x8faf6904, 0x0060d8bc); (0x66b8d90e, 0x001168a8); (0xb3421ac8, 0x4da98000); (0x6e19f746, 0x1df9eef4);
   (0xc0fa13dc, 0x43afbc54); (0x7ca815bb, 0x001e8e3c); (0x4e9c713e, 0x174e1840); (0x31987006, 0x0d149de8);
   (0x541c2fb0, 0x1791c934); (0x4f8f4e4a, 0x2147f7c4); (0x6ae8b069, 0x002b6d04); (0x41582f9e, 0x1027e5f4);
   (0x937e0255, 0x13562438); (0x57e12b92, 0x3347d2d4); (0xe9f45b23, 0x07fed538); (0xfc76c8f3, 0x0026c3ec)].
Definition bnr_offsets_17 : list (Z * Z) :=
  [(0x583baad5, 0x006ba4f8); (0x4601f774, 0x4cf9edac); (0xdac26757, 0x00460004); (0xca4d762b, 0x279cf5b8);
   (0xbbce0da2, 0x001f0784); (0x67c66391, 0x538222b8); (0xf20bfef5, 0x21777c38); (0x8bc4fffb, 0x31adf390);
   (0x1122815d, 0x07a62f38); (0x87c7bea5, 0x5648161c); (0xc9de2282, 0x1e6c89c0); (0x9a26311d, 0x13d06cf0);
   (0x31d0d1ec, 0x074017e8); (0xf689b604, 0x113e5b88); (0xcbc5decc, 0x4d14ef44); (0x11861004, 0x24bbdd00);
   (0xa9c73916, 0x00261fb4); (0x4c742d34, 0x27039ea8); (0x1995b5ef, 0x42a76d2c); (0x0b070e24, 0x2f2704fc);
   (0xd382b4f4, 0x2abcf434); (0xbf9cb00c, 0x2b181f6c); (0x1ec48f77, 0x35429324); (0x0ce695af, 0x0024217c);
   (0xeecf257d, 0x002993ac); (0x40abe9c6, 0x125db988); (0xf1efcdc6, 0x1f561bf4); (0xa77ce2fc, 0x21ed52b8);
   (0x701ffb55, 0x002b2068); (0x1694fa7e, 0x0027771c); (0xea5b953d, 0x00271b00); (0xbf8b1b67, 0x004b2928);
   (0x976ab5b5, 0x23beb274); (0x74459602, 0x14b86c48); (0x904dac7e, 0x38f40eac); (0x43beb30d, 0x43977748);
   (0x1ea6196d, 0x50f2353c); (0x7a108718, 0x00307724); (0x477066bd, 0x00520c0c); (0x7928a439, 0x02088544);
   (0x10cad3aa, 0x3e700d40); (0x8b8f0a0a, 0x3040e2a8); (0x9f8ac86d, 0x144b8b0c); (0x22f5a730, 0x54dc2560);
   (0x9d2d9142, 0x0052e2fc); (0xb91936c6, 0x171c5d68); (0xe71bff10, 0x49daa38c); (0xa9abc0cf, 0x0011ee44);
   (0x809b2b90, 0x27b7bdbc); (0x96378787, 0x40ab3610); (0x4e949077, 0x00025cc4); (0xe1c2f0c6, 0x4bb04c08);
   (0x913ab188, 0x053d0e48); (0xc43324be, 0x008841e0); (0xb9a77a8d, 0x3a35f41c); (0x85aef911, 0x00270e9c);
   (0x0f5a6faa, 0x46a10000); (0xda2baedc, 0x068ea6f4); (0x2bbcd32f, 0x48329050); (0x7597d1f6, 0x2153c128);
   (0x37f1c835, 0x4ebd5ac0); (0x58c4a78d, 0x20d0b1e8); (0xb1db7a01, 0x10ed8004); (0x884cc9ac, 0x231cfd0c);
   (0xb295fcc8, 0x0c926940); (0x86be80f4, 0x000218e4); (0x095ef84f, 0x1beda8bc); (0x655f93c6, 0x02599568);
   (0x4394da2c, 0x4fae85dc); (0xb2082c03, 0x0040f244); (0x2678b715, 0x112af584); (0xe8bfe9b0, 0x4cbc61a4);
   (0x8ecbb592, 0x0186aa78); (0xaa23ef1c, 0x1c1a088c); (0xb0b8a610, 0x01f39db8); (0xde7aea09, 0x52aebb60);
   (0x3b02886c, 0x0336b090); (0x9085f490, 0x278d7720); (0xe0b80ed2, 0x38efd790); (0xb72dd5d7, 0x01bb308c);
   (0xb618c936, 0x3bf6af44); (0x8930817e, 0x00029220); (0x13903353, 0x2f8bd3b4); (0x6c4ecc87, 0x25a47bb8);
   (0xe065f116, 0x46857f58); (0xb0ba67cd, 0x40fa0324); (0x8fea3871, 0x0e3dd6b4); (0x97e8c1fc, 0x053a7c7c);
   (0x85fa70bb, 0x4922dab8); (0x6794fb42, 0x14a7bc80); (0x88a8c183, 0x18c53c3c); (0xd324051f, 0x38edc000);
   (0x5faa1856, 0x00219228); (0xed09d711, 0x22620ff0); (0x58ecf4f4, 0x001e8df0); (0x27167a11, 0x458d0000);
   (0xb90d5d5a, 0x0f5f2114); (0x3115d67e, 0x4eff524c); (0xc50f689d, 0x2130fb24); (0x8c6d6ba7, 0x07ee23bc);
   (0xfc7b3db7, 0x171ce6a4); (0xd94ea101, 0x4d716640); (0x661b8759, 0x10d40f18); (0xf02cede1, 0x3fddddf8);
   (0x93bc2273, 0x00460004); (0xda12930f, 0x0039cfb0); (0x3d1033a3, 0x2767a854); (0xe6b2c201, 0x44e26550);
   (0x1260ef68, 0x00b2923c); (0x45762c0b, 0x3347d2d4); (0xc5fe0ec7, 0x002182b0); (0x37a37015, 0x00b90348);
   (0xc31380a8, 0x001f3838); (0x9a3c7ebe, 0x33336210); (0x1d4960f9, 0x01cac464); (0x06fc8cf6, 0x555b263c);
   (0xdaf6caca, 0x06cf70a4); (0x6effaeed, 0x001f3820); (0x28c8906c, 0x4f196ca4); (0xf097f6b1, 0x27a18dcc);
   (0x4ae7bb25, 0x00a3aa2c); (0x5a3300ee, 0x1484618c); (0xc577de1e, 0x016bf3d0); (0x3ec74d63, 0x00270d9c);
   (0x7854571f, 0x0184804c); (0x71f170d2, 0x27e2d110); (0x59f1f07e, 0x0056347c); (0x7c2e1581, 0x3216a37c)].
Definition bnr_offsets_18 : list (Z * Z) :=
  [(0x6ff934b2, 0x46cdacbc); (0xc812085d, 0x3fbde670); (0x3ab6fb8b, 0x0f978260); (0xca34a186, 0x00444920);
   (0xb35ab720, 0x558aa01c); (0x19c80cbd, 0x55403138); (0x05d325c7, 0x0aba519c); (0x8c888839, 0x38df9588);
   (0x562e6ef8, 0x53a8817c); (0x95551fda, 0x03e74fec); (0xe6ded62d, 0x52ebd1cc); (0x1acf3f3f, 0x29dad350);
   (0x18ed2c6d, 0x379be89c); (0xe77ba679, 0x0026ff1c); (0x3b6cedf0, 0x00021d44); (0xb71d6d18, 0x52d916b0);
   (0x7438e25d, 0x0dc88d2c); (0xc8dce92c, 0x2b399888); (0x16c3e643, 0x1e6c89c0); (0x0c354bf8, 0x29bf0e10);
   (0xef5e5362, 0x4bf49bd4); (0x3b9afc93, 0x516b8d78); (0xeda5e665, 0x1cc957d8); (0x8fbbdbd5, 0x00411344);
   (0x87625d0a, 0x0acc132c); (0x73c725b8, 0x54243320); (0x2d2af5bd, 0x00d08004); (0xb2463239, 0x1e3e9ddc);
   (0x5314b05d, 0x006095c4); (0xaceea80d, 0x1c35ab98); (0x9835528a, 0x1458ac2c); (0x67e8e1ca, 0x0023d520);
   (0x9da47449, 0x53bde1b4); (0x977d6055, 0x52393620); (0x5481b798, 0x002db918); (0x2d208383, 0x0b646370);
   (0xd64ca50f, 0x00c94dbc); (0x4382dee4, 0x4d166384); (0xf480cecc, 0x1fbadbf4); (0x4d7d98be, 0x1a93f40c);
   (0xafb91508, 0x42038994); (0x438b59d1, 0x26a4ed44); (0x28efc58a, 0x107559fc); (0x908c40d7, 0x34c28718);
   (0x4ee00981, 0x0033251c); (0x7e1610b7, 0x003632bc); (0x6b77c668, 0x2153c2a8); (0xf6ffcdc8, 0x002b69c4);
   (0x5c8840a3, 0x222f88dc); (0xd3c6cf54, 0x4fa1d3cc); (0x22b91542, 0x003b82a8); (0xb774c9c9, 0x00b2833c);
   (0xeb6902bd, 0x0a4a2718); (0x632b71f7, 0x45f92de0); (0x533114dd, 0x00b90348); (0x3ba8b16c, 0x23b79c04);
   (0xa20291da, 0x006f36a0); (0x3a15333e, 0x10e355fc); (0x9313f5a9, 0x537d8db8); (0x0c6cb82f, 0x274c2c08);
   (0x26dad615, 0x09663f7c); (0x824733f2, 0x352486e0); (0xcfe6deb3, 0x1900be60); (0x73aa6ef6, 0x34be41a8);
   (0x969cae55, 0x13e0fe3c); (0x1095b6e3, 0x01f393e8); (0x30c72b8c, 0x4980511c); (0x6d2e7977, 0x2af18000);
   (0xeffec5e2, 0x1447685c); (0x4195eb44, 0x025419cc); (0xe7fd3ea1, 0x1faf3cb0); (0xa2b5aa8e, 0x2debec88);
   (0xbb041844, 0x0bcd8158); (0xd0ba1e83, 0x0032e600); (0x3b57b0aa, 0x40a460c4); (0x96df900a, 0x499d7c28);
   (0xf5c79af9, 0x17710214); (0xc4e75b88, 0x20caf65c); (0x913ab36f, 0x00270f9c); (0xcff261cc, 0x459559b0);
   (0x3da0a9f6, 0x0502a728); (0xf8e402e9, 0x12435c78); (0x1f7581a8, 0x287184d8); (0xd9fd8f89, 0x004aefe0);
   (0x2e3e943a, 0x001e7ec8); (0x1d95aa33, 0x4d716640); (0xc6b677ee, 0x19e008e8); (0x7eca09fb, 0x0dc88d2c);
   (0x5fb3620c, 0x407e6dc4); (0x3a3102df, 0x294eefe0); (0x12d0f60f, 0x4a9296c0); (0x737978f8, 0x002dff64);
   (0x881266ac, 0x031eb1e0); (0x7d6267de, 0x51918484); (0x5a1f6286, 0x1c83b4c8); (0xbff3e6ca, 0x55e4bc64);
   (0x7cfb0ac8, 0x0b82d3b8); (0xf5c4e369, 0x54fb8638); (0xa31928d6, 0x44b290e8); (0x692c31db, 0x36d62900);
   (0x1d42481e, 0x10ed35bc); (0x9070fb40, 0x3ba82288); (0x62255977, 0x2d5eda0c); (0x2693ef87, 0x526df2f8);
   (0xdc415f97, 0x208067e8); (0x7e1b48db, 0x25140004); (0xfe302853, 0x13d06cf0); (0x35eef35a, 0x001db0f4);
   (0x4c407005, 0x0f8134a8); (0x94210346, 0x00197d18); (0x465212a8, 0x48552774); (0x2079888f, 0x10d777ec);
   (0x7a727692, 0x41a01bb0); (0xde5e8c66, 0x22871190); (0x348104b0, 0x0038d504); (0x2fadcf7c, 0x47e72954);
   (0x80fe7fef, 0x50cf0004); (0xdbe541ac, 0x06d8fc50); (0xfeb59b22, 0x4e72d554); (0x7df362b8, 0x00150f48);
   (0xfb658a29, 0x1ffb9530); (0x6589c18e, 0x14dc26bc); (0x45248f06, 0x290ec488); (0x30d700c7, 0x151c8a24);
   (0xa7ac73e8, 0x2db12468); (0xa266d85a, 0x002bc1e4); (0x6ed38b87, 0x06cf78a4); (0x5b8e0251, 0x2b520be8)].
Definition bnr_offsets_19 : list (Z * Z) :=
  [(0x9a00ebb2, 0x2e4bea78); (0x829b6c84, 0x001e9244); (0x4ef25ea7, 0x50af7854); (0x45df96ff, 0x1afe397c);
   (0x88b35a1a, 0x30705c78); (0x1fadbaf9, 0x001e8168); (0x106a0597, 0x4e8a7104); (0x64dea591, 0x09178000);
   (0x02944878, 0x003d405c); (0xe624261d, 0x0df120b4); (0xecb8848c, 0x12cd606c); (0x88d4f2be, 0x1af47ee0);
   (0x96d567f5, 0x119ebfa8); (0x1e1eb462, 0x13560d54); (0xe7235493, 0x338987a0); (0xa959f846, 0x00b28b3c);
   (0x17da131e, 0x1194d240); (0x42bce807, 0x1ffb9f30); (0xcac6c375, 0x53a8a430); (0xd7594331, 0x4f81f728);
   (0xebde2912, 0x1642a2a0); (0xfb20c616, 0x095a7adc); (0xe94b3295, 0x0055ecb8); (0x6fbf0e26, 0x13697c4c);
   (0xe9d18be5, 0x14f7d05c); (0xcdb97870, 0x55027418); (0xc8612f03, 0x0007ba88); (0xff6aa7e7, 0x071cd10c);
   (0x8310edae, 0x1770a428); (0xf639f9e4, 0x3515ea54); (0x63b8b406, 0x4603dcf4); (0x7ba88a7e, 0x32e9d8e8);
   (0x729acd8a, 0x0ddfaeb8); (0x912bf9fc, 0x00024658); (0x5addf5ec, 0x44a58018); (0x81e3386c, 0x112af584);
   (0x2d9f695a, 0x10d8329c); (0x914d2f3f, 0x41ef6d98); (0x8d134959, 0x001e5774); (0x46c960a3, 0x08583914);
   (0x4e5d1ee4, 0x0e1c2d24); (0x71a52361, 0x1eb9e73c); (0xf9ff79d7, 0x00f865d0); (0x042d7caa, 0x40c77800);
   (0xd4839eb4, 0x237869dc); (0xda860e15, 0x09f89a90); (0x25f74e26, 0x17e45170); (0x9102468e, 0x00299218);
   (0xe58519df, 0x08be85c4); (0xe28470b7, 0x35bdba14); (0xa26c17cd, 0x50e7b85c); (0xdf0c5ca2, 0x004c5290);
   (0x1dc267bb, 0x2601a6c8); (0x4fb94090, 0x05ac7624); (0x860ebd64, 0x001e75a8); (0xcf9dffd3, 0x0bfb60c0);
   (0x8cad44e3, 0x01d51838); (0x4903eeca, 0x54366f78); (0xac6c2a2e, 0x00b12778); (0x9127fbe2, 0x07cfc60c);
   (0x122fdb8e, 0x00d0c6d8); (0xac8673f3, 0x0d028be0); (0x0d3ee70e, 0x0040ed44); (0xb984a3fc, 0x4dcc8000);
   (0x479990ea, 0x4e6abe54); (0xfdf84465, 0x45efe778); (0x8f2560e4, 0x338984a0); (0x704b3d05, 0x00231c70);
   (0xf54e01a0, 0x1f776984); (0x238ca52f, 0x003951c0); (0x7c82e7eb, 0x09884ae0); (0x5fe86f71, 0x05e15580);
   (0xff77ab78, 0x26cf6434); (0x1a7e3d98, 0x50a9e904); (0x247ac9d0, 0x1aed5618); (0xc6a45e71, 0x3d330d04);
   (0xfda842b0, 0x00402680); (0xea7d7a3f, 0x47bff10c); (0xda54728d, 0x3e9e19d8); (0xe02813c7, 0x0014c7d4);
   (0x96225f59, 0x156d85f0); (0xb54652e7, 0x3bb884a8); (0xbf9f5a31, 0x1ad56ad4); (0xbf2f027c, 0x0010b504);
   (0xd4205256, 0x124c893c); (0x667cacae, 0x4b838a3c); (0x0bf3073e, 0x10e8c930); (0xe1ec7f40, 0x00187e5c);
   (0x672ab779, 0x004b1ec0); (0xc42efa94, 0x3def32c0); (0x09b45a30, 0x42a7191c); (0x5c2aa1c8, 0x4a92c6c0);
   (0x076d7397, 0x00411344); (0xa6143d55, 0x0945a7b4); (0x39e069e4, 0x003c2f18); (0x0f9b9bed, 0x2a3fd550);
   (0xf4d62835, 0x108b33d8); (0x22e96580, 0x521e3f1c); (0x44b714bf, 0x54881380); (0x65577509, 0x236dfa30);
   (0xcd759037, 0x100a7700); (0xfd626545, 0x203b0500); (0x8deebd1d, 0x15a93d44); (0x080b729c, 0x40a33a48);
   (0x3f7d7c1a, 0x0021121c); (0xa7e94b4a, 0x0040f7cc); (0x1a4d8970, 0x2e143ae0); (0xc484eb1e, 0x0e515d24);
   (0xae9b9067, 0x5203f004); (0x1d53eb8d, 0x0e52ac00); (0xdb634dd1, 0x0d0359b0); (0x7e0a81d0, 0x000218e4);
   (0x51413ef2, 0x00992ff8); (0x8485820a, 0x3e294c24); (0x516e4f66, 0x10390490); (0x06ce076b, 0x2b9f6eb8);
   (0x6e2c0d04, 0x0059e400); (0x0d92d5d4, 0x0e515e18); (0x8688a4ab, 0x0d0ce400); (0xce1f1c1d, 0x00599950);
   (0x2b58f80e, 0x262818dc); (0x541bda97, 0x0039cfb0); (0x3c959922, 0x4a31eea4); (0x0d4096ba, 0x3c3933a0);
   (0xa35c7256, 0x3c68fd64); (0x1795e396, 0x001e9244); (0xf0d88dbe, 0x2e268ef4); (0x1be0cbb0, 0x00dfbddc)].
Definition bnr_offsets_20 : list (Z * Z) :=
  [(0xa86efad9, 0x002ffc3c); (0x3f070e7b, 0x1c19705c); (0x3ca5373a, 0x001c1554); (0xffb41653, 0x51bc9b48);
   (0xd843ebdc, 0x51c35374); (0x4b255c4a, 0x496a60d0); (0x20683d1d, 0x2c5c2874); (0x993e0b56, 0x2b32a308);
   (0x5c1b4764, 0x001f8c4c); (0xc60f93b1, 0x002db98c); (0x906222c5, 0x4c4187ac); (0xd80d409f, 0x098194ac);
   (0x560240f6, 0x00332d20); (0x717a50ac, 0x26a269b0); (0xde12ad27, 0x29716710); (0xa4be2041, 0x1c1a1028);
   (0xfd5d5937, 0x0e2b65f0); (0xf587a989, 0x523304f0); (0x9a2f56ce, 0x00020ee4); (0x0cd369b8, 0x0bcd9760);
   (0xeec1d54a, 0x4a1ade6c); (0x6537de6c, 0x00419ddc); (0xc01d31c2, 0x00d0c6d8); (0x499655ce, 0x335c3aec);
   (0x480249fb, 0x20853910); (0x5b493a1c, 0x001e79c8); (0x69920e05, 0x2ddf6368); (0xf2e2b34e, 0x420da594);
   (0x8e63c558, 0x1120a03c); (0x3b6d47f3, 0x13d05df0); (0xa8ec975c, 0x2267966c); (0xa1d7bac0, 0x55f3de6c);
   (0x2e2fbb5c, 0x50af195c); (0x1a9a026e, 0x3ce3dda8); (0x16bb6e6d, 0x4e1adae4); (0x9d2da87b, 0x45e536c4);
   (0x19502d89, 0x525a5320); (0x4d3f86f8, 0x09882c10); (0x439db5ae, 0x2832aa68); (0x65f88d11, 0x0ba5f340);
   (0xa25df839, 0x00271b00); (0xc5664738, 0x19c0a228); (0x1074ec68, 0x522159f4); (0xbb09236a, 0x0030bedc);
   (0x9a2fae21, 0x30bb9fe4); (0x5219f5b7, 0x1f561bf4); (0x39f59473, 0x41b78f84); (0x5b7f66c8, 0x0f897934);
   (0x0fa94ad9, 0x44081b98); (0x91285797, 0x359e8354); (0x797b6af2, 0x27772ae4); (0x963d5f91, 0x2bab30e0);
   (0xd10d56e2, 0x182748d4); (0x338c86c2, 0x154ec040); (0x515eddbd, 0x226eb6b4); (0x159fe9c5, 0x4a004714);
   (0x85b5115c, 0x27de206c); (0x215d3ce4, 0x4ff63db0); (0xe0037237, 0x4a92c6c0); (0x34b7b496, 0x0fbadb90);
   (0xc0c3306e, 0x10d438ac); (0xcbc0c474, 0x00460560); (0xc4194b57, 0x00361ed4); (0x5d0b72e8, 0x4e7a6f88);
   (0xa2405e0a, 0x26d0eb74); (0xc806dc7f, 0x00b85bac); (0x2a980bae, 0x5109c95c); (0xbc7c3c2b, 0x06f99c00);
   (0x8f62c502, 0x2e260f80); (0xe89bf814, 0x00598d98); (0x57c99049, 0x426526e4); (0xb89409d7, 0x0023d720);
   (0x33616c30, 0x35c8caac); (0xdd544d65, 0x3daafb8c); (0x56e5c7da, 0x1792a9ec); (0xb146fc5f, 0x41509fd4);
   (0x9d66f35d, 0x0096889c); (0xda2e4aa1, 0x44889704); (0xa3934ff8, 0x00775e30); (0x165b7d9f, 0x1b448dec);
   (0xb7745829, 0x33368138); (0x6800889a, 0x4cf62134); (0xb5f5e878, 0x0c6959b0); (0xc51a6c5b, 0x001f3774);
   (0xf1465deb, 0x04b7c2dc); (0x033e5fcc, 0x3ece2af4); (0x8f76b0eb, 0x0b476e38); (0xb684556c, 0x002993bc);
   (0x9f1ad325, 0x5532a0b4); (0xa85bbddd, 0x4cc441f8); (0xb92b9936, 0x00afc0c4); (0x0c9b9ac4, 0x01f393e8);
   (0xe4716f71, 0x26a3e658); (0x43607f76, 0x479cc508); (0xed0154df, 0x0d0ba0dc); (0x1fa5c433, 0x505eecb0);
   (0x8b3b7b41, 0x2ac408ec); (0x94e6613f, 0x00399c58); (0x0658d5f8, 0x461027d0); (0x6acc91bf, 0x002aa848);
   (0x6607a96e, 0x000204e4); (0x6f4bb5a5, 0x520984f0); (0x8e53b39c, 0x16cf67d4); (0x18318cc3, 0x1d779d74);
   (0x7ef04481, 0x30b592dc); (0xc7acb67b, 0x1b404acc); (0xe7e8e03a, 0x1f575aac); (0x88b32e03, 0x003bacb4);
   (0xf14d8163, 0x00309044); (0x5a5cc3c6, 0x50b36e68); (0xef027c71, 0x00021de4); (0x4b3fbe23, 0x16d546e0);
   (0xdd3ced7c, 0x0030fc44); (0xf1e09c1a, 0x4e471020); (0x97ffb802, 0x1cf0482c); (0xe017bd10, 0x1423a6c4);
   (0xec77205d, 0x0c49b178); (0x10f7f672, 0x004b16e4); (0xf32e18f1, 0x11234484); (0x69e9cb5b, 0x2fb5f388);
   (0x44ba3fff, 0x00366afc); (0xcd021748, 0x5118d86c); (0xf73a675c, 0x279261a4); (0xcd025df9, 0x00020884);
   (0xf165172b, 0x3a35f41c); (0x9f0a0af1, 0x14b7fdb4); (0xfe28614e, 0x002aa8e4); (0x566f6fdd, 0x3a366bc8)].
Definition bnr_offsets_21 : list (Z * Z) :=
  [(0xc8b77995, 0x279a7c2c); (0x71791931, 0x002fb13c); (0xd5ab0412, 0x16c0d4a8); (0x2ac6d198, 0x00313f44);
   (0x6fc767e9, 0x00320964); (0x22f7e3ab, 0x00129c34); (0x2fd47087, 0x48842be4); (0x15becc28, 0x1fb097fc);
   (0x1bde2cab, 0x395d59e8); (0x288dde06, 0x512f8004); (0x1ab84e42, 0x56ab83b0); (0x39df1a0d, 0x001c1a44);
   (0x3a1046e0, 0x3df42014); (0x27dab4bc, 0x055f2d14); (0x21bfd6d3, 0x0023db90); (0x450803f9, 0x006f36a0);
   (0xa7c2fd06, 0x258ea618); (0x2d6a9ca9, 0x20cb05c0); (0x1c2a5a1e, 0x1fffe85c); (0xbb8e750a, 0x1b972d04);
   (0x9e59c56a, 0x079ba5bc); (0xef9ff490, 0x0d969518); (0xc3a8c9a8, 0x001eb68c); (0x4dda5d95, 0x33fdcfe4);
   (0xbc4b6a98, 0x000f7e3c); (0x4d443394, 0x1ed3df0c); (0x35d30971, 0x0014b3ec); (0x2abd1a86, 0x2601b698);
   (0xf9ea2c2e, 0x10f19d70); (0x7a1d118e, 0x00332520); (0x8789b2f8, 0x44866674); (0xea29d4ae, 0x4d6201f0);
   (0x22ad352b, 0x000250c4); (0x767d5cff, 0x00236414); (0xfff1b06f, 0x37a97740); (0xc86eabb3, 0x1122c484);
   (0xc6f78c92, 0x510ff1c4); (0xe283002b, 0x0093b418); (0x4267857c, 0x00299218); (0x4ce724d3, 0x55afe9ec);
   (0xbc61b482, 0x0e1aafa0); (0x713466f6, 0x4c43e7e0); (0x640bcec4, 0x26f11abc); (0xca4f0c24, 0x0c345954);
   (0x4b145108, 0x14e83514); (0x9298b957, 0x3f56d75c); (0x5278f6a4, 0x0027051c); (0x20e844ac, 0x00021944);
   (0xa6dea64f, 0x54e63e84); (0x34a7b330, 0x3031329c); (0x911fa3b8, 0x0007a5e0); (0x849450af, 0x0bc96328);
   (0x08b171d7, 0x00520c0c); (0x47440ba4, 0x4ce91a0c); (0xeda7610e, 0x56a9836c); (0xe69dda1c, 0x003dcbb0);
   (0x8b711657, 0x001e8c3c); (0x860cf73e, 0x144b896c); (0x3996c4ad, 0x156d84f0); (0x050cf8b4, 0x36920fc0);
   (0x315d6d39, 0x51e24c44); (0xc16677e5, 0x0058f2a0); (0x9c9219d6, 0x4632ae10); (0x17c3fae4, 0x0002bfa4);
   (0xf8329262, 0x0090f9f0); (0x78341533, 0x001e8e58); (0x829a91f8, 0x4628d088); (0x9933e303, 0x25d304e4);
   (0xc6ab1abc, 0x25a21968); (0xf8194bf5, 0x4da6525c); (0x7cdd4160, 0x388999c8); (0xa180b35e, 0x524b7af4);
   (0x230cc79c, 0x50593064); (0x2518b5b1, 0x51fe7b60); (0x492bc688, 0x07d770a0); (0x47073eba, 0x4fb7a9a4);
   (0x20458148, 0x19a60a68); (0x1611961b, 0x2b4d9118); (0x972f98b5, 0x10e1d358); (0x465d509f, 0x4d153924);
   (0x89b2e3cb, 0x1e9c703c); (0x39254e0d, 0x002c3848); (0xb6648b83, 0x441f6fc4); (0x313287c3, 0x1128cbec);
   (0x3f795670, 0x00b90348); (0xbab1e96b, 0x10f04914); (0x276d0633, 0x0cf1c240); (0x812e5f5a, 0x54f8e838);
   (0x93242948, 0x001f1e64); (0x0fcd44df, 0x225a9934); (0x4bb83cb8, 0x369d00b0); (0xfe4d0431, 0x4a27876c);
   (0x53692ecd, 0x23fbb18c); (0x1eccd892, 0x008e0ca0); (0x2f992cad, 0x32b18f48); (0xd94edd7d, 0x270d6e28);
   (0xa4959505, 0x171ec130); (0x7548fc58, 0x00d08004); (0xc0478578, 0x00366afc); (0x69969b56, 0x00211c00);
   (0x872d66cb, 0x4a1111b4); (0xc995a2cb, 0x1cfe7b5c); (0xed227d0a, 0x1ac4f868); (0xcd565e01, 0x39bf7ee0);
   (0x2e2be7ee, 0x00492f70); (0xf3a53917, 0x0498c8e4); (0x4b9d6c89, 0x001510bc); (0xe624cc79, 0x3b952fac);
   (0x20772e58, 0x44d0a560); (0x7f2e672e, 0x199e8b24); (0xcc491b99, 0x2dfea208); (0xe6ce663b, 0x0031b054);
   (0x73e19bf0, 0x002ffc3c); (0x5c75ee41, 0x12d1db90); (0x6b7f7ee3, 0x0e53b1f8); (0xbabda23b, 0x0007a8e0);
   (0x824b340c, 0x0287050c); (0xb8d7fb4f, 0x2e1c6f24); (0x3096016a, 0x2e260f80); (0xd836903d, 0x10f26628);
   (0xc068ed58, 0x2b44cc68); (0x26c80fd0, 0x48d1f314); (0x1284342d, 0x43d571a4); (0x9d896b92, 0x0095baf0);
   (0x6eebceb2, 0x05560a5c); (0xbabcadf3, 0x19288078); (0x7564222b, 0x084c1acc); (0xc2658137, 0x102c2f64)].
Definition bnr_offsets_22 : list (Z * Z) :=
  [(0x86c29d77, 0x442fa0f8); (0xf3b1480f, 0x00309044); (0x044adf09, 0x02ef3084); (0xe8ddee4d, 0x3db5bf84);
   (0x36ac09a5, 0x428f6df8); (0x936b1990, 0x08b60700); (0x4bf690be, 0x17229150); (0xfaa2f69e, 0x00909b74);
   (0x23d98f4f, 0x5647b000); (0x0e2db6ad, 0x10831774); (0x56298e11, 0x0af7dc20); (0xc2855e57, 0x54f3c064);
   (0xe1ffcd04, 0x10d1a010); (0x4d704c44, 0x00840860); (0x4c37b888, 0x01bb3088); (0x9ce8c073, 0x076388fc);
   (0xc4c9d44b, 0x47f71cfc); (0xc519e15f, 0x1fffbdc8); (0xa460b5cf, 0x292033b0); (0x2b5dc804, 0x001856c4);
   (0xbbb250c3, 0x541e4644); (0xed2cd346, 0x2784f534); (0x92cfb57e, 0x00320964); (0xc5ea1fbe, 0x1d411a70);
   (0x0fd55893, 0x09479ae8); (0x1b1297dd, 0x56b5b708); (0x658a85e3, 0x0038c284); (0x6d30f592, 0x0018c15c);
   (0x2fa72b00, 0x4a209e6c); (0x7f71b366, 0x165aafe0); (0x9900018a, 0x003239a4); (0xfd0665ea, 0x003ccb8c);
   (0xcfa4eb4d, 0x0026b054); (0x03ffcfff, 0x45bba578); (0xb21e1b8d, 0x010b8ff0); (0xef0f6dab, 0x4993f454);
   (0xe57e5d9e, 0x39089a08); (0xa73935fd, 0x3df14f2c); (0x5dc4b403, 0x0548bffc); (0x93322954, 0x28a6f118);
   (0x7f44b777, 0x3b2b2d78); (0x4cb5a6bd, 0x22ff6f34); (0x137d1efe, 0x2c6d0000); (0x61fc9aac, 0x1369b56c);
   (0x425fb46f, 0x0034fc4c); (0x720690c4, 0x35ee55d0); (0x2e567029, 0x2c309700); (0x5fd0f836, 0x16b74c7c);
   (0x36000ee1, 0x4c30a8d8); (0x2266dc79, 0x394f2ba8); (0x950d2e05, 0x15a21b9c); (0x000bad51, 0x459fc4cc);
   (0x462e32bb, 0x07549680); (0x0dba6fb7, 0x42953fcc); (0x2ca283f6, 0x4e29a364); (0x722a602a, 0x07a6c9d0);
   (0x37a57955, 0x00256e10); (0x87b33980, 0x14f7db64); (0xda17a3bd, 0x0058f2a0); (0xb99304a7, 0x103932d0);
   (0x8d7500a6, 0x009ccfb8); (0x481bfefc, 0x00523490); (0xe8337cb5, 0x0efe89c8); (0x3ed5f34c, 0x4e829554);
   (0xbae1f3b3, 0x0090e310); (0xd8de19ba, 0x56379000); (0xdb74363e, 0x23b79c04); (0x2dc64233, 0x56d8820c);
   (0xa759c8ba, 0x112af584); (0x70905857, 0x45a1c5b0); (0xfde88718, 0x54e32218); (0xcbd63cc7, 0x3e78dc60);
   (0xc43e76c5, 0x00022644); (0x983aafb4, 0x01f9eba0); (0x9b5931a5, 0x0bc681f8); (0x8b64c1e7, 0x506f0000);
   (0x79d86032, 0x00025084); (0x8cd15318, 0x56e84ae0); (0xe341854d, 0x42997ec4); (0xc0ea04c2, 0x004fcf50);
   (0xb7b44c9b, 0x4a004714); (0x2f126d0e, 0x005a0fe8); (0x44976ec2, 0x01f36730); (0x310687d4, 0x275cf66c);
   (0xa9e8cb47, 0x0ec69dc4); (0xd871f3ba, 0x1eceef04); (0x9fb7af45, 0x1ac63868); (0x181566bd, 0x2ced4e44);
   (0xeb2e54e2, 0x5205a9dc); (0x4457f61e, 0x10803d6c); (0xd686341e, 0x4f002318); (0xdb6b00ba, 0x00b9441c);
   (0x1fd5e1a4, 0x00204de8); (0x944e9d97, 0x4aa1af38); (0x2ab15d31, 0x00444920); (0x07dfe964, 0x4942f504);
   (0x4cbe58f7, 0x144da824); (0xde5f8b1a, 0x51f7419c); (0x76a78280, 0x112af584); (0x33cbe8b2, 0x2988e34c);
   (0x53be4d1d, 0x022ea93c); (0x96f1c89c, 0x0a7acc40); (0x46cef13d, 0x37fc9124); (0x130741af, 0x002f185c);
   (0x9101cf16, 0x53a1d3a4); (0xbbd3b3a5, 0x002360b8); (0x002de4aa, 0x5032995c); (0x0990e9ca, 0x09ba31d4);
   (0xbdc1da91, 0x002ffc3c); (0xe80c78dd, 0x09c43b84); (0x13f89e70, 0x4922dab8); (0x443f899e, 0x464d7060);
   (0x5b172ef2, 0x25f73130); (0x5e7b4cbf, 0x125d88bc); (0x21c4d582, 0x4be62994); (0x7b13a603, 0x0567343c);
   (0x64ae8c62, 0x30df300c); (0xbd0b828f, 0x1b20d638); (0x6fb75457, 0x45f02de0); (0x6db84166, 0x20eb5ff4);
   (0xab4d3100, 0x002ff268); (0x95ebf514, 0x22c2ff08); (0x33aab8e3, 0x54e913e4); (0xd63149a9, 0x464cd044);
   (0x54d6eb9c, 0x27769a00); (0x0b6d68c6, 0x53524fb0); (0x3881b775, 0x0045d61c); (0x3dd96c30, 0x338d5a8c)].
Definition bnr_offsets_23 : list (Z * Z) :=
  [(0x81a82a8b, 0x1c3a1074); (0xdeae53a3, 0x442f9cf8); (0xbf4d21a5, 0x380a6694); (0xd935afaa, 0x270d5360);
   (0xfcf62b9c, 0x26c76e34); (0x0cc579e0, 0x35868050); (0x1c37e610, 0x47e553b0); (0xcaccc3f0, 0x216d4c80);
   (0xd849e149, 0x2292d134); (0xcbae0cf4, 0x2ab84684); (0xe94303ce, 0x20cb03c0); (0xab670d02, 0x260b33cc);
   (0x60da2b9a, 0x184381bc); (0x47b2a6c2, 0x0af7db40); (0x4b533240, 0x36dc3b18); (0x37b18e3b, 0x4ad42880);
   (0xa476e5d5, 0x002f5f38); (0x193df1ec, 0x50e7f15c); (0xc77a6e07, 0x2bc7a554); (0x122560aa, 0x1ca6a14c);
   (0xb1a1cdc9, 0x001fc3e0); (0x32d95c48, 0x31c2b728); (0xef00cd28, 0x00168cf4); (0x4333a4ab, 0x000b3060);
   (0xd0c2d5f3, 0x2fa8b5a4); (0xedcc877f, 0x5589e7a0); (0xbe122bc6, 0x2313650c); (0x4d5483f6, 0x00066628);
   (0x528244c0, 0x149144c4); (0x1b91f72c, 0x0b2f400c); (0xa9d68329, 0x1d0a5380); (0x4b6f1c7b, 0x27688dd4);
   (0x89c05fcd, 0x16a9a6dc); (0x3ade4798, 0x32f8df10); (0x848d6256, 0x004afa30); (0x872d252c, 0x14e31cc4);
   (0x323070ff, 0x003b79a8); (0x8b6ed70b, 0x4051f2e0); (0x9f99c8c9, 0x002375c4); (0x3a757773, 0x3377b4fc);
   (0xa5f57eef, 0x234c8c40); (0x2b722907, 0x171cca6c); (0xaffec17c, 0x00b125fc); (0x4b2e3adc, 0x15aef76c);
   (0x28353549, 0x3baf03a8); (0xd9f8ad97, 0x00b90348); (0x5ceaa0de, 0x48d1421c); (0xf40e7d3e, 0x13283c60);
   (0x3171d15d, 0x0036ae88); (0x3e93db00, 0x00235dc4); (0x2a856833, 0x01455cec); (0x2aeb35ad, 0x001e8048);
   (0xbc5fa330, 0x36bfb6c8); (0x63ce0476, 0x13d0a4b8); (0x83b36272, 0x02a9f9a4); (0x2214ad37, 0x1f7ee324);
   (0xc7a2fa6f, 0x55834a14); (0x6492130f, 0x0057f1a4); (0xc1d779fc, 0x2e2bc2f0); (0x7345487e, 0x00194c18);
   (0x9ebeb8e4, 0x00444b20); (0x8e001d9d, 0x0b82d918); (0x00ba8f22, 0x00b90348); (0x36e95540, 0x1243d6f0);
   (0x3452daf1, 0x01fbb854); (0xb56d5cbb, 0x142560a0); (0x068cb7e8, 0x52ba0740); (0xea33335c, 0x4cc4704c);
   (0x9a9f3203, 0x25bed780); (0xa46e350f, 0x320f85e4); (0xe8354a2b, 0x00de0220); (0x20719af3, 0x333c9524);
   (0x068371c6, 0x010b81f0); (0x79c8c07d, 0x1e2f2f90); (0x4b02ffb4, 0x0025e010); (0x263c4006, 0x1a571c38);
   (0xea749494, 0x2828b798); (0xc3ddb838, 0x4b236160); (0x3060b40c, 0x01d9d374); (0x3e2fb0e2, 0x2a26215c);
   (0x6ded61cf, 0x00315504); (0xb6f0edda, 0x29bd6554); (0x3516de66, 0x002562e4); (0xaf5fd348, 0x10180548);
   (0x9501c434, 0x290c1818); (0xfdce5c2b, 0x028713ac); (0xcf29c208, 0x28d23c04); (0x5a80d5a3, 0x1bf97788);
   (0x4d6da1a3, 0x09884ba4); (0xa808981b, 0x001fcb44); (0xd8da4fac, 0x2153c0b0); (0x47f4c9a3, 0x268163f8);
   (0x3986d25b, 0x243d5f08); (0x4fdd8d1b, 0x4d708258); (0x687ae045, 0x0bbb68b0); (0x3c7760eb, 0x00162108);
   (0xa7b0a4d1, 0x0c538a7c); (0x1ec40d87, 0x3ea8159c); (0x0cdbe978, 0x171c5d80); (0x5384481c, 0x01306888);
   (0x58df1ffb, 0x07b3eb24); (0xc0c84fd5, 0x0ffb7e04); (0x38784366, 0x05513718); (0x1960c144, 0x54d7cd80);
   (0xef8333c0, 0x4d55c73c); (0x0d22c066, 0x49c9c380); (0x90101d82, 0x22c33288); (0x3b6d9ef7, 0x2a174054);
   (0x52988885, 0x0af9a7a8); (0x873cdbb7, 0x51905bdc); (0x1a9cade1, 0x10126a64); (0x5091ff26, 0x274fb078);
   (0x43e0e2a5, 0x1fcdf570); (0x6abd608a, 0x000511a4); (0xa24b76d2, 0x35bdc8b4); (0xae78d28e, 0x13d05df0);
   (0xd5c08341, 0x43259504); (0xddc90a13, 0x00b90348); (0xa63760d2, 0x22475dd8); (0x463b2680, 0x508e0f64);
   (0x3d0792d5, 0x553ca158); (0x8beb4c01, 0x4ac880f0); (0xcfad3ca1, 0x12c71240); (0x7e8095d1, 0x54d5b448);
   (0x7c159c13, 0x0f714180); (0x5e9a55ef, 0x2e417a34); (0xeb4fa03f, 0x00b90348); (0x1a7fd5c5, 0x0024a828)].
Definition bnr_offsets_24 : list (Z * Z) :=
  [(0x48e2baa8, 0x005e5e4c); (0x71b3eefe, 0x07e68b30); (0xb1d4e6fe, 0x079b02c0); (0x219c7f68, 0x07549680);
   (0xadd74572, 0x4a473b98); (0xab0ef5ae, 0x10b77034); (0xd33180ac, 0x47d8974c); (0xf794bc94, 0x02ef81e4);
   (0x32fe5583, 0x1acef638); (0xcff753d2, 0x5641a40c); (0x7da561ac, 0x0d0a83d0); (0x4d379f47, 0x3659ca20);
   (0xd8d0b93a, 0x285daf7c); (0x8b56ce36, 0x001bddf0); (0x19eafe8e, 0x2c6e0000); (0xe6d7b1db, 0x49c96230);
   (0x249eddf4, 0x48117ed8); (0x7d8242d9, 0x00d10004); (0x27628f02, 0x47b150a4); (0xd4341f5b, 0x094a799c);
   (0x397f46d5, 0x1ae58004); (0xfd19e9d6, 0x0f44205c); (0xb2c5ead1, 0x2c2a1650); (0x4cd289d6, 0x2387f888);
   (0xa88937bc, 0x0c39fd50); (0xe33bb58e, 0x2d39bbcc); (0xf9b77e73, 0x2a3a9304); (0xb9754a89, 0x1a1ad514);
   (0xb108e617, 0x0023db38); (0xb93766df, 0x00300d44); (0x2653d6a2, 0x46369a24); (0x091872c4, 0x01bb3088);
   (0xeaabfd2c, 0x55992f4c); (0x55804096, 0x00380f70); (0xf5f1031b, 0x51f73b9c); (0xfe6403b5, 0x03f029e4);
   (0xcb1cbd83, 0x055d2944); (0x9c6f83ca, 0x493c8d68); (0xd132ee4e, 0x110c2fa0); (0x2eb95f5b, 0x000f793c);
   (0xe7103f2c, 0x3e553488); (0xfd462462, 0x0045e31c); (0x222f12eb, 0x005a76e0); (0x096617b8, 0x0026a99c);
   (0xda85053a, 0x23061bf4); (0x88c36d2f, 0x38b39384); (0xdadb93e1, 0x0c258e7c); (0xe2c1393c, 0x55880904);
   (0x7b1754cd, 0x01f3baac); (0xc5376f36, 0x273d2a64); (0x011e3b53, 0x001e9270); (0x11ab6140, 0x15f66520);
   (0xcd54dd80, 0x001bddf0); (0x7a6af5d1, 0x4e310000); (0x60644b7d, 0x00480008); (0x4122224d, 0x511c8b1c);
   (0x0c41bd64, 0x04f32ce0); (0x6baff970, 0x00327eb4); (0x23907d5e, 0x008e357c); (0xa19aa7c0, 0x2f4f5644);
   (0x76396c5d, 0x23c3c060); (0x1b9df220, 0x48686160); (0xce00813d, 0x27f4a108); (0x5e6e22ce, 0x0d05eec8);
   (0xe90a650f, 0x013074c4); (0xcddd0e5c, 0x0d06151c); (0x541bc6ab, 0x054657ec); (0x79c75767, 0x3c5f8870);
   (0xeb995681, 0x0035eb14); (0xc3ff4ede, 0x14f8175c); (0xbc536b69, 0x11233010); (0xb2105ccb, 0x102bf04c);
   (0x23564558, 0x00eef808); (0xbc31e7f5, 0x0029fc74); (0xba219657, 0x1e42ef30); (0x61e78fb2, 0x4d151a64);
   (0xd8a132b6, 0x0056347c); (0x0d148864, 0x001e7c08); (0xd6f56eee, 0x55acde8c); (0xe04ad28d, 0x0035d974);
   (0x8e1018ca, 0x203b0c28); (0x23b7ef37, 0x142560a0); (0x5828924c, 0x4de18d00); (0xf6119bcc, 0x0055de40);
   (0x6ef621be, 0x52adf320); (0x68d9d7d6, 0x103e378c); (0xc82bde60, 0x00299218); (0x8664bfb7, 0x4030ea40);
   (0x259e234d, 0x2bab30e4); (0x9639d9bb, 0x2d7c58e4); (0xc31d5fb6, 0x14914350); (0x2ff7159f, 0x1c60ad78);
   (0x7b6d16ef, 0x4a4da880); (0x95746e79, 0x1d770ecc); (0x999784e1, 0x538222b8); (0x7f41ac46, 0x057283dc);
   (0x7683ef94, 0x0019662c); (0x07637b7c, 0x22e6d544); (0x5882a5ee, 0x4eecae14); (0x989b18dd, 0x48675374);
   (0xb77ffa7d, 0x512f8004); (0x9b87fd81, 0x48fa7f14); (0xfb23cd1a, 0x0145272c); (0x65d2aef8, 0x012e0808);
   (0x79a569ce, 0x4d3f8b70); (0xdcad25a1, 0x25af5b60); (0x0462cf34, 0x41586dd4); (0xf759f02d, 0x306ca384);
   (0x02029269, 0x001c2ee8); (0xcb04f0f1, 0x48da2e60); (0xb8263ff1, 0x3b503df0); (0xa3738eee, 0x10dd90e8);
   (0x1d221f9d, 0x25cc0cb4); (0xc49dfa0c, 0x0eff9c30); (0x1b904111, 0x001c2458); (0xa9866fdb, 0x27ee3234);
   (0xd184e162, 0x1265c688); (0x8ff78657, 0x40c70000); (0x383850a8, 0x248112cc); (0xe64aaaf2, 0x446d5180);
   (0x838e749f, 0x00d29aec); (0x06bc1ac1, 0x01e9a45c); (0x591a2799, 0x0023b140); (0x374c96a0, 0x0025f3a8);
   (0xfe494153, 0x1cc2cacc); (0x0925a011, 0x0c48537c); (0x0992b8ec, 0x29dff520); (0x7ccd42cc, 0x00318028)].
Definition bnr_offsets_25 : list (Z * Z) :=
  [(0x6eaebf23, 0x055f2d14); (0x91d73641, 0x0a0d676c); (0xf939fa9c, 0x29320000); (0x2d53b140, 0x0978a230);
   (0x572745df, 0x226f7890); (0xd4450774, 0x0041077c); (0x7130289a, 0x2e9819c4); (0xc75a7b29, 0x10e6852c);
   (0x144ca372, 0x559f9eb4); (0xfceae3a6, 0x3a6f9808); (0x75a92de7, 0x0b72e480); (0x26839e53, 0x0a7acc40);
   (0x43d9159e, 0x041b2b9c); (0x921f573e, 0x07ee72b8); (0xf522f688, 0x032da054); (0x8ac7a617, 0x4e83a280);
   (0xc4941c0c, 0x2e98f1ac); (0x3dac16eb, 0x1b550004); (0x3b0b192f, 0x51643ca0); (0x6c016885, 0x1f3d53f0);
   (0x0cc7a054, 0x00e18004); (0xf9315bd4, 0x225a3404); (0x434eba3f, 0x002cf450); (0x2c72d8e4, 0x4da72960);
   (0x82145612, 0x25140004); (0x92a8d696, 0x002aa8e4); (0x6073562a, 0x2931caa8); (0x4f85b7c1, 0x14cf6acc);
   (0x1f87438c, 0x0232c7b0); (0x70a0d46b, 0x00226010); (0x314df47e, 0x4be63294); (0xa6bcf5b9, 0x4c287514);
   (0x58e80cbf, 0x15ce0584); (0x39d30992, 0x3ec5f884); (0xd74686f8, 0x09890f0c); (0x066592ca, 0x0af7db40);
   (0xe0d9a8f1, 0x494a9e84); (0xb859f295, 0x4b600000); (0x6f7cbf74, 0x26d9b1a0); (0xd44b5b7d, 0x0027341c);
   (0x4ddf2c90, 0x0f813320); (0x8a838ccd, 0x001dbfac); (0x639f3c57, 0x1183a808); (0xcaa72aa0, 0x1cc2cacc);
   (0xb1dccced, 0x002f4b1c); (0xa671918d, 0x55403138); (0xd4d5ba94, 0x27688bc4); (0xeeea2a8a, 0x38cb0390);
   (0x73fceb81, 0x2d2c0ac4); (0x988b69a4, 0x4a066a30); (0x7286319b, 0x2df68d94); (0x2d3dd0b3, 0x48e76e80);
   (0x2b13ef63, 0x02957a18); (0x56c7e273, 0x25a47bb8); (0x42eb568b, 0x54db3320); (0x0bb38d42, 0x00ef3808);
   (0x2120934a, 0x243da9c8); (0x2fe23f64, 0x516d21c8); (0x4d9bff7a, 0x0b2f3c2c); (0x22e1dbeb, 0x49019238);
   (0xc6ac88ab, 0x002a3a48); (0x88325a8f, 0x001f3838); (0x289422e3, 0x0ce3314c); (0x8043395a, 0x00411344);
   (0x48b59509, 0x002f14f0); (0x3ce4dac4, 0x00263ac4); (0x493f250f, 0x0438d968); (0x0ec8b7a7, 0x2a495bf8);
   (0x3bcb3c69, 0x29211234); (0x369b1dda, 0x51b98ce0); (0x6f82b3b5, 0x3adc8344); (0x51321673, 0x4d171dac);
   (0x23578cb2, 0x00153eec); (0x72423bb4, 0x44ba9238); (0x765559df, 0x07731aa8); (0x74a0fd87, 0x00366afc);
   (0x5a4d373b, 0x1045d6d0); (0x9261c004, 0x4998e530); (0x7ad8792f, 0x012fc3c8); (0x07a81217, 0x01d51ef8);
   (0xf09c0a3d, 0x3f9284c0); (0x94ceb464, 0x2cf3f1f4); (0xcec345c9, 0x4f3f84f4); (0x1d35aa58, 0x45012bc0);
   (0x63aa48f3, 0x12f3b5e4); (0xd2546544, 0x3e4496dc); (0xe2ef6e64, 0x0033251c); (0xf4965ba6, 0x001e9d8c);
   (0x25f5c413, 0x448e2ce0); (0x505d41a9, 0x20f6279c); (0xc867c61f, 0x1f451b80); (0x259892e3, 0x006f2f20);
   (0xbb24335b, 0x00309034); (0x7ff047ea, 0x0a8d0fb4); (0x87244ff6, 0x5068f288); (0xcd5c63bf, 0x0093a4e4);
   (0xe25fcf87, 0x0233d248); (0x653a68ba, 0x002dffbc); (0xddd63c14, 0x4338b15c); (0x85ce944f, 0x262784c0);
   (0xa7a35f47, 0x47e70a38); (0xe8e5cd00, 0x40a52c48); (0x53506d8a, 0x54d09084); (0x383bcdb5, 0x45f6bfcc);
   (0xd4f37e87, 0x26eacf88); (0x597d273d, 0x52578784); (0x1104b668, 0x1aaf5070); (0xe8863134, 0x3da98038);
   (0x74d553fd, 0x142560a0); (0x58e21da7, 0x5129d938); (0xa0c61cb6, 0x4b3a019c); (0xc5b4a3c5, 0x24f43b20);
   (0x28b88b20, 0x0035a9f8); (0x805efdcb, 0x55c9f3c4); (0x8c84788b, 0x4605d44c); (0xcb884129, 0x022f4174);
   (0xcc372a82, 0x2ff896e4); (0x88e25751, 0x248e17f4); (0xb1133ced, 0x268ed4e8); (0x44240fbd, 0x20eb5ff4);
   (0x89cef362, 0x45424394); (0xdd106592, 0x3e293ca4); (0x8a7e9f23, 0x3659d120); (0x57181a2a, 0x40c5e494);
   (0x70b95236, 0x26cf6434); (0x248763d1, 0x112b22a0); (0xe67c1419, 0x00318a24); (0xe5936951, 0x0029b8e8)].
Definition bnr_offsets_26 : list (Z * Z) :=
  [(0x8f63fe4e, 0x001e4d44); (0xa3fd321b, 0x1235c998); (0x7df46610, 0x5231b7a0); (0xeccdff4c, 0x1530fa8c);
   (0x22a8051e, 0x005cb7dc); (0xd5501336, 0x368424a0); (0xa58b4040, 0x4e2dd144); (0x0fb38e71, 0x514781cc);
   (0x63674617, 0x112799e4); (0xbd427125, 0x13e13924); (0x8b484acd, 0x00024658); (0x87f70b5e, 0x1aa072f0);
   (0x165220ff, 0x40a513dc); (0x562275a2, 0x040f4614); (0x6a03f1a8, 0x1d6d1580); (0x61ec7201, 0x0c96a024);
   (0x55b2c4be, 0x00b90348); (0xebf52517, 0x427e8604); (0x878f4880, 0x36e9bae4); (0xd11e8219, 0x4ae7b8e4);
   (0x57f1b4ef, 0x3659c6e0); (0x948dbd68, 0x0bcc0150); (0x369064db, 0x14dad304); (0xe9ca06a5, 0x55638140);
   (0x28a0be04, 0x552fcfe4); (0x39ea3a77, 0x39814ff8); (0x920bc677, 0x2784f8dc); (0x66065bd8, 0x08539bd0);
   (0x40973d09, 0x00299218); (0x1ea9150e, 0x4ae538c0); (0x45d85c25, 0x23adff84); (0x7ced9737, 0x0655187c);
   (0x3af022c5, 0x4d6aa500); (0xd2284156, 0x552dcd08); (0x3f462bf3, 0x0023d990); (0xf0a1e187, 0x053871c0);
   (0x52a29b32, 0x0be2ed28); (0xe3c0fcbb, 0x001bddf0); (0x624a968b, 0x2181cf5c); (0x51afeed1, 0x48842150);
   (0xd6a0b63b, 0x32237910); (0x21861c21, 0x1447715c); (0x2baa506f, 0x45daae40); (0x59ac4653, 0x4ac8d4fc);
   (0x34b20f0b, 0x2abf349c); (0xb624dc02, 0x4ddb6360); (0x43388f73, 0x158d514c); (0x2897a4a0, 0x5226e164);
   (0x97d5806e, 0x1945b154); (0x5dca0c7c, 0x362aebe8); (0x05e94b15, 0x4a1ced0c); (0x6f33ab67, 0x002f1738);
   (0xa7328955, 0x1d6ce3b0); (0x05b14c4e, 0x19bcdd00); (0xf5316cf0, 0x515b3164); (0x52f3d546, 0x509744c8);
   (0x4b297b39, 0x47ebdc90); (0xb2c646a7, 0x1a536ff4); (0x999fede9, 0x001ea58c); (0xb416ea22, 0x0cdb2f58);
   (0xe38857b9, 0x54e3330c); (0xb0c56a11, 0x00237008); (0x013b3636, 0x2bede004); (0x31067dbe, 0x51a24218);
   (0x2f3a2c8d, 0x1cdac82c); (0xc5e07eef, 0x04a71b3c); (0x52495dfe, 0x04526c6c); (0xc2584cf2, 0x0058aea8);
   (0xe99c5bad, 0x00309044); (0xabe9abcb, 0x006ef248); (0x56d90ec9, 0x36da9bb8); (0xeef01697, 0x51072a34);
   (0x4b51a12f, 0x290ec388); (0x0ffdd14a, 0x01e9a65c); (0xe36efd3d, 0x07549680); (0xb47d512a, 0x1cd4cd24);
   (0x181df89c, 0x20e8e51c); (0x977233f5, 0x002bc3dc); (0x28d50cbc, 0x1603f810); (0x0f0a98f9, 0x00236b98);
   (0x5e5699e9, 0x171d6574); (0x255927cc, 0x51ec565c); (0x9f36e5e1, 0x0ac795d4); (0x666b9aa8, 0x1447695c);
   (0x57db2bf0, 0x3b6de2c0); (0x1bf02e5e, 0x00411344); (0x2d2f7ad7, 0x1ed89d70); (0x8b6825d9, 0x40382f8c);
   (0x23fbccf7, 0x013068fc); (0xff516c81, 0x00254dc4); (0xd8a0ea5d, 0x0af7dd84); (0x0c849768, 0x1c6af3fc);
   (0x08df9a22, 0x279d9458); (0xc2256986, 0x0b499f64); (0x362ee87a, 0x18cf4b00); (0x5e411023, 0x248a964c);
   (0xe8521a37, 0x0b459c4c); (0xdaa99008, 0x3f66bca8); (0xd47c4d3a, 0x4113df68); (0xefb5e8be, 0x0f0862c4);
   (0xd630ab5e, 0x4ba14a28); (0xdff9685a, 0x10fc6c80); (0x96d1cc33, 0x1423a6c4); (0x23d7d50d, 0x0034fc4c);
   (0x24bbb165, 0x0af7db60); (0x1daa84b3, 0x48178240); (0x26268f5b, 0x001c13d4); (0x537649ed, 0x43d072a4);
   (0x33fe92a3, 0x3e1acaac); (0xcace410e, 0x367bb2b0); (0x0e8f707b, 0x534e94f8); (0x6e043ccf, 0x50d463d0);
   (0xbe9b8121, 0x0051f8f0); (0xc6cb9a60, 0x2b4d3d04); (0xc157c7c3, 0x3d950c20); (0x000ad233, 0x4e52bd54);
   (0x9d3be9f3, 0x1faf894c); (0x3aa8f46e, 0x0033251c); (0x5719c135, 0x17e2a53c); (0x052174e1, 0x0b459c4c);
   (0x20e30bbf, 0x00315584); (0x9d28bcca, 0x4f641aa0); (0x114d82e2, 0x228710ac); (0xad922d8e, 0x1f47515c);
   (0x34da3d79, 0x43f0d528); (0xcb5af39a, 0x0322075c); (0xb48278d2, 0x000b3060); (0xfa40a4f9, 0x003d4f60)].
Definition bnr_offsets_27 : list (Z * Z) :=
  [(0xaac87053, 0x4f8e86e4); (0x6b5c7ab8, 0x05a83780); (0x29dda2e4, 0x15c396c8); (0xe1407236, 0x00c08868);
   (0x36ff0f94, 0x22c8c09c); (0xe3fe1e5e, 0x0c1ac6e0); (0x774c020d, 0x44749a48); (0x83b9f6b5, 0x2a0aa760);
   (0x878e587c, 0x30704bb0); (0xb159abc0, 0x133def9c); (0xc08fa34d, 0x19bfeff8); (0x51270898, 0x52001424);
   (0x9d2e1c11, 0x002ef740); (0xac9a3f57, 0x0b82d718); (0xc234bb60, 0x1122fdc4); (0x66762dca, 0x0f7ad9b0);
   (0xc413f1c8, 0x00afd8c4); (0xb17788fe, 0x48aff374); (0xfd96eacf, 0x4848b394); (0xaf294d3e, 0x487e5be0);
   (0xdbc33d43, 0x49366ea0); (0x4b926c88, 0x22486ef8); (0xbb9737df, 0x32b3bcc4); (0xfe089e4b, 0x006ba4f8);
   (0xaa089c3d, 0x09dd6038); (0xa6965788, 0x26a9b4b0); (0x5e7cea44, 0x05348300); (0x3175524e, 0x489bd1c0);
   (0x1060b177, 0x00020724); (0xaf9f926d, 0x00235dc4); (0x6a4f142f, 0x504d1aa0); (0x10d2658e, 0x0052dc54);
   (0xa8f804ee, 0x26af1480); (0x2d6a4cde, 0x0002bfc4); (0xa0732394, 0x55916300); (0x1a10ae1e, 0x40a52548);
   (0xd34da488, 0x01b51fa8); (0xd410824d, 0x00992e24); (0xd81e5405, 0x00bd21f4); (0x67c3ff6a, 0x1dc5cf84);
   (0x5770ef84, 0x1d958cd8); (0x4768b734, 0x4ff18b60); (0x82099d4d, 0x0029805c); (0x70ca59f8, 0x4ce46790);
   (0x20f37663, 0x0009ee84); (0x55eb966c, 0x3435a0fc); (0x718d5459, 0x31d38ff8); (0x51590a05, 0x0f51c9c8);
   (0x656c180c, 0x00ca982c); (0xa615b449, 0x1af54f68); (0xf99cb349, 0x26e7ed5c); (0x93f73747, 0x21ff1984);
   (0x145698fb, 0x2ceea444); (0x28b98cd7, 0x002ce67c); (0x2764aba8, 0x322345d4); (0x28ef9452, 0x002f7d24);
   (0x4081c798, 0x11a3a770); (0x4f83baf3, 0x0b432178); (0x610b3a75, 0x51c51178); (0xd4fded85, 0x0033251c);
   (0xb562f248, 0x53115320); (0x6d4bbd29, 0x55fa9dfc); (0x98a9f4c1, 0x4709fd6c); (0xe8808683, 0x3e32ec74);
   (0xf1d8148d, 0x001856c4); (0x7672a83b, 0x00b90348); (0x0aca3cbd, 0x05e15980); (0x7e9cef27, 0x4e29a364);
   (0xc380d2f9, 0x00895fbc); (0x9250abf1, 0x5532093c); (0xbc51c24a, 0x002aa848); (0x214bd504, 0x051c7f30);
   (0x275c6a78, 0x273029cc); (0x4202f59c, 0x0b0b7720); (0x9d196598, 0x125e49f4); (0xb6ff1bed, 0x47798b58);
   (0x1e6db208, 0x0060b7b0); (0xe23436e9, 0x40907f40); (0xec38610d, 0x41e684f0); (0xe0ed9c55, 0x4d2eb4dc);
   (0x0e64059c, 0x0c926840); (0x40d880bb, 0x102b9b74); (0x4a7efa88, 0x51ff7104); (0x4b4756fa, 0x4b4df2f8);
   (0x457da167, 0x245fe0d0); (0xda962651, 0x396001cc); (0xfb4ca76a, 0x112af584); (0x4765d767, 0x0a89f270);
   (0x001ac7c3, 0x004dc158); (0x3451c17e, 0x508d6b0c); (0x0e48388f, 0x0051e004); (0x4443afe4, 0x38c9a844);
   (0xf0e6a7f2, 0x11190ca0); (0xf7554676, 0x0029ee74); (0xb805f54b, 0x1a587cb4); (0x731075ec, 0x43d04520);
   (0xd0f171ab, 0x5545fe50); (0x5a007f02, 0x003ccb78); (0xf6a84aa9, 0x53e2b8d0); (0x686062ae, 0x00180a18);
   (0x4169e2c5, 0x52c721f0); (0x258b2935, 0x36311200); (0xc1fef49a, 0x2d363b64); (0xbdc03421, 0x0021ad00);
   (0xda8be17b, 0x2dcc8000); (0x5cf60125, 0x0b67eaa4); (0xa3fd10d1, 0x0ddcd61c); (0x82173c8d, 0x28dfae00);
   (0xc8720242, 0x06c8a4bc); (0xedd4b2af, 0x2444f020); (0xd3be643d, 0x4f7439a4); (0x6dd4c152, 0x005d3418);
   (0x0d3ae664, 0x0a0d676c); (0xc9467647, 0x0031fc14); (0x78eeed1d, 0x0096c0d8); (0xe9ce6552, 0x27593bc4);
   (0x576461f3, 0x14f7ce5c); (0x95f588d4, 0x006129a4); (0x3b2d17b7, 0x001e9490); (0xdf3d78be, 0x22a1c180);
   (0xe6a20869, 0x002ef6d0); (0x961452a4, 0x0014f2e0); (0x90a8a7a3, 0x00eee808); (0x6e0ab47f, 0x4628ff88);
   (0x4f3c61fc, 0x35f6fd4c); (0xe4b1394a, 0x27987aa4); (0x0be51fb6, 0x555b263c); (0xf4f2dcba, 0x125df5c0)].
Definition bnr_offsets_28 : list (Z * Z) :=
  [(0x925adfe2, 0x2f697658); (0x18538f93, 0x27b191e8); (0x57e40f8c, 0x29f865e8); (0xbc2b911f, 0x1f1995a4);
   (0xfdbd1794, 0x458d0000); (0x3b7b1bd8, 0x001ae4ec); (0xf72bbc56, 0x0dc546e8); (0xb9ebf1d7, 0x5489a9d0);
   (0xe5034619, 0x1cedb05c); (0xf9e22a29, 0x3e9e15bc); (0xec4aec11, 0x46cdaee4); (0x383f654d, 0x00055fa4);
   (0x91d616be, 0x43cd4b30); (0x760648fd, 0x14d04c48); (0x60817815, 0x08b668c0); (0xb72f800a, 0x3fd9c9d0);
   (0x858028f9, 0x49ec8514); (0x9b87f78e, 0x08d1b394); (0x4a25ce63, 0x00450908); (0x68fc4e6b, 0x3ba82258);
   (0xfdd18362, 0x002fa3b0); (0xa3b93885, 0x00e18004); (0x3dddb5a5, 0x10920000); (0x9ec72957, 0x0037d424);
   (0x5201fb12, 0x07fecf38); (0x9592eb48, 0x5404b078); (0x97cf33a4, 0x3f56d75c); (0x794b5131, 0x2130fbc4);
   (0x58b2a1a2, 0x3f52fdc8); (0x919b3b4c, 0x41a50150); (0x7b83717c, 0x1923f404); (0x7db07ecb, 0x0029865c);
   (0x925097df, 0x43698304); (0x32d89ca1, 0x0622a3c8); (0xa3bb010e, 0x52aec760); (0x53aa0a2b, 0x00218fa4);
   (0xcabe43d3, 0x002f1768); (0xc1fb696a, 0x0024b0f8); (0x7bac5cf2, 0x40e78000); (0xb8612989, 0x003ccb8c);
   (0x40707cb2, 0x25cc0cb4); (0x678c350c, 0x417b40c8); (0xc9d95b70, 0x002a9c48); (0xc6edaaed, 0x2e913f84);
   (0x5b66fa5a, 0x0a78a2ec); (0x461ec489, 0x001c2664); (0x78b7ac24, 0x0014b2d8); (0x1dd3fe2b, 0x0f8120b8);
   (0x340ac369, 0x00d5b8b4); (0x82c19266, 0x004d1408); (0xf0cd6f93, 0x2e4515b8); (0x8365023d, 0x287184d8);
   (0x485bf663, 0x01bacf14); (0x48cbb161, 0x0007a8e0); (0xb997ae66, 0x13e00fa0); (0xa7725e37, 0x0041a7f0);
   (0xc502ab59, 0x516f0ddc); (0x1726b14f, 0x08cd2854); (0xd9be9889, 0x00c43704); (0x36695078, 0x0effd50c);
   (0x2a331cec, 0x1291c16c); (0xe7b67440, 0x142560a0); (0x19df9104, 0x260a0df4); (0xdd342646, 0x54b5a870);
   (0x751ffb34, 0x3f9283b0); (0x908e7332, 0x00299218); (0xded502a9, 0x26e7ec5c); (0x7c76e87c, 0x50884d68);
   (0x48998e1f, 0x4fd6e798); (0xc710e25e, 0x00318884); (0x32e2a3f3, 0x0a2de6a4); (0xf2b33b5c, 0x204515a0);
   (0x29cb865c, 0x1ce997c4); (0x155df66f, 0x00399c58); (0xcd2942ff, 0x16fa4738); (0x0e9d96a2, 0x4a6e29e0);
   (0x1af32373, 0x051c7f30); (0x9e70bbce, 0x061d9710); (0x65709edd, 0x44bbdaf0); (0xe3c7e340, 0x00183448);
   (0x342149d8, 0x0559ad14); (0xba0afa14, 0x0558192c); (0x0a10c6d1, 0x001e7b68); (0xd9b97ff4, 0x1569233c);
   (0x67cf1d73, 0x3b91ab48); (0x1ca4c833, 0x2d741c64); (0x846e282c, 0x1423a5c4); (0xfc9f9dd2, 0x209c2a40);
   (0x6ace9612, 0x125e11f8); (0x5984c0c8, 0x00ba96e4); (0x83083e3a, 0x00191ba0); (0x6cbb24e7, 0x009059e0);
   (0x20fae97a, 0x32e03a90); (0x0c1c4ee4, 0x082c3518); (0x4b0bb690, 0x06aec868); (0x2ce276b6, 0x50698004);
   (0xa33de50e, 0x37d400b0); (0x332b579f, 0x112af584); (0x5d828770, 0x44639268); (0xe375eb43, 0x10d58df0);
   (0xe3aa4029, 0x36160b90); (0xa5805b7e, 0x0052d994); (0x9dd377d8, 0x2c2e5574); (0xef3e150e, 0x1710b038);
   (0xd18a8192, 0x512eeef8); (0xb8483c0a, 0x00024fe4); (0x8b5f2873, 0x06f58004); (0x3fbc3577, 0x0186ad78);
   (0x4ef86f31, 0x07d9edc4); (0x94dd3798, 0x146c82f8); (0x87bda17f, 0x183d89a0); (0x76f109fe, 0x1792b2ec);
   (0x0c0fe055, 0x0039ad2c); (0x163f5ffd, 0x27d2d664); (0x89b109b4, 0x1636a5a0); (0x110126a5, 0x295b18e0);
   (0xd36df803, 0x00362ce0); (0xe543c676, 0x00c11f64); (0xcbe7d476, 0x4b52e9ec); (0xc0dd4a82, 0x0a0d676c);
   (0x4066a768, 0x002f5254); (0xa97f1cf2, 0x339a648c); (0x784814c8, 0x133bd8c4); (0x87fc1ec1, 0x00312998);
   (0xb859bb50, 0x4b07afd4); (0xf18885dd, 0x0b4cd260); (0x8df8d276, 0x3044e6a0); (0x2c76b60f, 0x10c22cb8)].
Definition bnr_offsets_29 : list (Z * Z) :=
  [(0x05cf50c6, 0x177bf3cc); (0x1eab8065, 0x0e5b52a4); (0xe48915aa, 0x009085cc); (0x0b4339fb, 0x3c5ba5a4);
   (0x99f0bd56, 0x1900be60); (0x38e73775, 0x4adabb44); (0x0a59fcb7, 0x17e2393c); (0x3feea8a7, 0x226b8d40);
   (0x67e59ce4, 0x4d6a891c); (0x224803ee, 0x527b8000); (0xdb584ba2, 0x0d5f6a34); (0x5f2080fc, 0x2233872c);
   (0x2d99db71, 0x100d007c); (0xbb3eb204, 0x50116f28); (0xe1c4bcc6, 0x3a2ca3ec); (0x3b08fba2, 0x4c72f78c);
   (0x3bd1afd4, 0x4e819554); (0x4ac7b431, 0x1491434c); (0x2034cfec, 0x50cb8004); (0x5e0143f8, 0x001f3838);
   (0x2a8e5992, 0x0dba7d94); (0x5fa2cf6c, 0x0e517a98); (0x10045b0b, 0x0012b998); (0x51b9e5ff, 0x10925c44);
   (0xb59fbb36, 0x56d21078); (0x5abfaadc, 0x3f1b1068); (0x52e99eb0, 0x2a15138c); (0x7c72d8af, 0x40e78000);
   (0x11d0645b, 0x0039cb2c); (0x3a60fa3a, 0x4c07e8a4); (0x624dbb43, 0x028bde64); (0x4bac8da9, 0x09663f74);
   (0x8d0e7c3e, 0x55403ef8); (0x9150b816, 0x2f6973f8); (0xd40aff9c, 0x4d0485b8); (0x25e02772, 0x50ce4ccc);
   (0xa06d4da6, 0x0acc429c); (0xf269d308, 0x0a5e3540); (0xf7485ac4, 0x1faa47ac); (0x24d4b29e, 0x48110d9c);
   (0x3a8326c1, 0x03dd14a0); (0xa286f1aa, 0x0a0d676c); (0x4b5662c9, 0x11004b00); (0xef15a131, 0x0a24ca90);
   (0x54b0d3fe, 0x50f61c4c); (0x8be68ae4, 0x003cca98); (0x89573c1d, 0x001a5970); (0x20a6ebc3, 0x56c36338);
   (0xc4bc7cbe, 0x00c94dbc); (0x2b87550c, 0x1ecce044); (0x58005c82, 0x0023ab20); (0x1d90ad0a, 0x25c1e760);
   (0x2fa13874, 0x25161940); (0x0dd453e2, 0x0e96e824); (0x50184a97, 0x00d0c6d8); (0x5a5f63c1, 0x4c4bdf00);
   (0xc62dbe7a, 0x013a405c); (0x084858b0, 0x32c3b0f0); (0xd9b7f28f, 0x160aefb4); (0x2d1080f4, 0x1c88d620);
   (0x336d97e0, 0x172dd464); (0x38ce852b, 0x4a7bd6b4); (0x961984a2, 0x002baedc); (0x843d8315, 0x00460004);
   (0xa7f7448d, 0x5477d320); (0xd6e78fc5, 0x487c30d4); (0x4c5cf7ee, 0x4a582710); (0x1fb5b9cd, 0x438cecc4);
   (0x9b3148a1, 0x2b44cc68); (0xbea88667, 0x3defa9b0); (0x17b0056e, 0x279271a4); (0x85af6695, 0x0037ccf4);
   (0xd05e9836, 0x1db1eefc); (0x35fbacdb, 0x09665478); (0xc316e1e5, 0x1199a4dc); (0x4cdb9aa2, 0x171d1ea0);
   (0xffd4bfe3, 0x0e5f09bc); (0xb53a64a0, 0x0fe65318); (0x7e6a6abb, 0x55051768); (0x25f024ff, 0x00211b00);
   (0xd9bfe7e1, 0x2988e354); (0x205d785c, 0x51ef5648); (0x9400c7cb, 0x102c0df8); (0xbee291aa, 0x273d042c);
   (0x1ee20c80, 0x339c6c08); (0x4083769b, 0x4d5221a4); (0x676f47a4, 0x3ebf7180); (0xbe0d3301, 0x10126a64);
   (0xdd808ffc, 0x0032d598); (0x516f27a7, 0x1c318b10); (0x045f0b17, 0x039051c0); (0xb0b9f034, 0x396c65f0);
   (0x1be24a19, 0x0002c024); (0xa0cde1c8, 0x01f7eea8); (0x8ff2a169, 0x008bcf50); (0x2e17a564, 0x00b90348);
   (0x2d1cda4e, 0x1a839164); (0x322451fd, 0x00319084); (0x728f20d6, 0x2a3ad318); (0xbfb049c5, 0x00181740);
   (0x1a79da46, 0x06aef584); (0x68ea8ecf, 0x42d90000); (0xebbff6c5, 0x0060a9c4)].
Definition bnr_offsets : list (Z * Z) :=
  concat [bnr_offsets_0; bnr_offsets_1; bnr_offsets_2; bnr_offsets_3; bnr_offsets_4; bnr_offsets_5; 
    bnr_offsets_6; bnr_offsets_7; bnr_offsets_8; bnr_offsets_9; bnr_offsets_10; bnr_offsets_11; 
    bnr_offsets_12; bnr_offsets_13; bnr_offsets_14; bnr_offsets_15; bnr_offsets_16; bnr_offsets_17; 
    bnr_offsets_18; bnr_offsets_19; bnr_offsets_20; bnr_offsets_21; bnr_offsets_22; bnr_offsets_23; 
    bnr_offsets_24; bnr_offsets_25; bnr_offsets_26; bnr_offsets_27; bnr_offsets_28; bnr_offsets_29].

(** The loop over the table, from row [i] on. *)
Fixpoint offsets_rounds (rounds : nat) (rows : list (Z * Z)) (hash : Z) : Z :=
  match rounds, rows with
  | S rounds, (h, o) :: rows => if h =? hash then o else offsets_rounds rounds rows hash
  | _, _ => 0
  end.
