(* ===== verification/DiscInfo.v ===== *)
(** What a game file says of itself (src/patches/source/dolphin_dvd.c, iso9660.c,
    dol.c, paths.c and the search of bnr_offsets.c): the disc header, the banner's
    place by checksum or by the file system table, the boot program of an ISO
    9660 disc.

    The scratch buffers are static and keep their contents from call to call.
    Memory from 0x81700000 on, where the file system table is loaded, is the list
    [fst]; a load outside it is [None]. *)

From Stdlib Require Import String.
From S2P Require Import Prelude CStr Di Fdrv FlippyEmu FileLoad Crc BnrOffsets GmPaths.
#[local] Open Scope prog_scope.

(** The file calls of the IPL build: open, status, threaded read, close. *)
Class GameFiles (W : Type) := {
  game_open : list Z -> Z -> Z -> M W Z;
  game_status : M W (option (list Z));
  game_read : list Z -> Z -> Z -> Z -> M W (Z * list Z);
  game_close : Z -> M W unit
}.
#[export] Instance emu_games {B F} `{DiBus B, DiscDrive B, FatFs F B} : GameFiles (emu_state B F) := {
  game_open := dvd_custom_open (flippy_emu_mount true MOUNT_DEPTH);
  game_status := dvd_custom_status_ipl (replicate file_status_size 0);
  game_read := dvd_threaded_read true;
  game_close := dvd_custom_close
}.

(** ** The disc header *)

Definition HEADER_SIZE : nat := 0x440.
Definition DiscID (h : list Z) : Z := nth 6 h 0.
Definition Version (h : list Z) : Z := nth 7 h 0.
Definition DOLOffset (h : list Z) : Z := be32 h 0x420.
Definition FSTOffset (h : list Z) : Z := be32 h 0x424.
Definition FSTSize (h : list Z) : Z := be32 h 0x428.
Definition MaxFSTSize (h : list Z) : Z := be32 h 0x42c.

Definition BANNER_MAGIC_1 : Z := 0x424E5231.
Definition BANNER_MAGIC_2 : Z := 0x424E5232.
Definition is_banner (magic : Z) : bool := (magic =? BANNER_MAGIC_1) || (magic =? BANNER_MAGIC_2).

Record dolphin_game_into_t := mk_info {
  valid : bool; game_id : list Z; disc_num : Z; disc_ver : Z; bnr_type : Z; bnr_offset : Z;
  dol_offset : Z; fst_offset : Z; fst_size : Z; max_fst_size : Z
}.
Definition no_info : dolphin_game_into_t := mk_info false (replicate 6 0) 0 0 0 0 0 0 0 0.
Definition info_of (h : list Z) (magic offset : Z) : dolphin_game_into_t :=
  mk_info true (take 6 h) (DiscID h) (Version h) (if magic =? BANNER_MAGIC_2 then 1 else 0) offset
    (DOLOffset h) (FSTOffset h) (FSTSize h) (MaxFSTSize h).

Definition get_banner_offset_fast (h : list Z) : Z :=
  if DOLOffset h =? 0 then 0
  else offsets_rounds (Z.to_nat bnr_offsets_count) bnr_offsets (tinf_crc32 h).

(** ** The file system table *)

Definition FST_BASE : Z := 0x81700000.
Definition FST_END : Z := 0x81800000.
Definition FST_ENTRY : Z := 12.
Definition T_FILE : Z := 0.

(** A byte of memory by its address. *)
Definition byte_at (fst : list Z) (addr : Z) : option Z :=
  if addr <? FST_BASE then None else fst !! Z.to_nat (addr - FST_BASE).
Definition word_at (fst : list Z) (addr : Z) : option Z :=
  a ← byte_at fst addr; b ← byte_at fst (addr + 1); c ← byte_at fst (addr + 2); d ← byte_at fst (addr + 3);
  Some (be32 [a; b; c; d] 0).

(** An entry: the one-bit field [filetype] is the top bit of its byte on this
    processor. *)
Definition entry_addr (i : Z) : Z := u32 (FST_BASE + i * FST_ENTRY).
Definition entry_filetype (fst : list Z) (i : Z) : option Z :=
  b ← byte_at fst (entry_addr i); Some (Z.shiftr b 7).
Definition entry_offset (fst : list Z) (i : Z) : option Z :=
  a ← byte_at fst (entry_addr i + 1); b ← byte_at fst (entry_addr i + 2); c ← byte_at fst (entry_addr i + 3);
  Some (Z.lor (Z.lor (Z.shiftl a 16) (Z.shiftl b 8)) c).
Definition FILE_POSITION (fst : list Z) (i : Z) : option Z := word_at fst (entry_addr i + 4).
Definition FILE_LENGTH (fst : list Z) (i : Z) : option Z := word_at fst (entry_addr i + 8).

(** [strcasecmp] of the string in memory at [addr] and a literal. *)
Fixpoint strcasecmp_at (fst : list Z) (addr : Z) (lit : list Z) : option Z :=
  c ← byte_at fst addr;
  match lit with
  | [] => Some (my_tolower c)
  | l :: lit =>
      let d := my_tolower c - my_tolower l in
      if negb (d =? 0) then Some d else strcasecmp_at fst (addr + 1) lit
  end.

Definition opening_bnr : list Z := str "opening.bnr".

(** The loop over the entries, from entry [i] on: offset and length. *)
Fixpoint scan_rounds (rounds : nat) (fst : list Z) (string_table i : Z) : option (Z * Z) :=
  match rounds with
  | O => Some (0, 0)
  | S rounds =>
      o ← entry_offset fst i;
      t ← entry_filetype fst i;
      d ← (if t =? T_FILE then strcasecmp_at fst (u32 (string_table + o)) opening_bnr else Some 1);
      if (t =? T_FILE) && (d =? 0) then
        p ← FILE_POSITION fst i; l ← FILE_LENGTH fst i; Some (p, l)
      else scan_rounds rounds fst string_table (i + 1)
  end.
Definition scan_fst (fst : list Z) : option (Z * Z) :=
  total ← FILE_LENGTH fst 0;
  let string_table := entry_addr total in
  if (string_table <? FST_BASE) || (string_table >? FST_END) then Some (0, 0)
  else scan_rounds (Z.to_nat (total - 1)) fst string_table 1.

Definition round_up_32B (n : Z) : Z := Z.land (u32 (n + 31)) (Z.lnot 31).

(** ** Reading a game file *)

Section GameInfo.
Context {W : Type} `{GameFiles W}.

Record info_state := mk_info_state {
  small_buf : list Z;
  header : list Z;
  fst_mem : list Z;
  game_dev : W
}.
Notation P := (M info_state).
Definition set_small (b : list Z) (w : info_state) := mk_info_state b (header w) (fst_mem w) (game_dev w).
Definition set_header (b : list Z) (w : info_state) := mk_info_state (small_buf w) b (fst_mem w) (game_dev w).
Definition set_fst_mem (b : list Z) (w : info_state) := mk_info_state (small_buf w) (header w) b (game_dev w).
Definition set_game_dev (d : W) (w : info_state) := mk_info_state (small_buf w) (header w) (fst_mem w) d.
Definition on_game {A} (m : M W A) : P A := zoom game_dev set_game_dev m.

(** [dvd_threaded_read] into one of the buffers, the result ignored. *)
Definition read_into (buffer : info_state -> list Z) (store : list Z -> info_state -> info_state)
    (len offset fd : Z) : P unit :=
  w <- get ;;
  '(_, b) <- on_game (game_read (buffer w) len offset fd) ;;
  modify (store b).

Definition get_banner_offset_slow (fd : Z) : P (Z * Z) :=
  w <- get ;;
  let size := round_up_32B (FSTSize (header w)) in
  let offset := FSTOffset (header w) in
  read_into fst_mem set_fst_mem size offset fd ;;
  w <- get ;;
  of_option (scan_fst (fst_mem w)).

(** The first word at [offset]: is it a banner's? *)
Definition read_magic (offset fd : Z) : P Z :=
  read_into small_buf set_small 32 offset fd ;;
  w <- get ;; ret (be32 (small_buf w) 0).

Definition flags : Z := Z.lor IPC_FILE_FLAG_DISABLECACHE 0x04.

(** [get_game_info]: the info, and [ *out_fd ] afterwards when the caller wants
    the file left open. *)
Definition finish (want_fd : bool) (fd magic offset : Z) : P (dolphin_game_into_t * Z) :=
  w <- get ;;
  let info := info_of (header w) magic offset in
  if want_fd then ret (info, fd) else on_game (game_close fd) ;; ret (info, -1).

Definition get_game_info (game_path : list Z) (want_fd : bool) : P (dolphin_game_into_t * Z) :=
  r <- on_game (game_open game_path FILE_ENTRY_TYPE_FILE flags) ;;
  if negb (r =? 0) then ret (no_info, -1)
  else
    status <- on_game game_status ;;
    match status with
    | None => ret (no_info, -1)
    | Some blob =>
        let fd := blob_fd blob in
        if negb (blob_result blob =? 0) then on_game (game_close fd) ;; ret (no_info, -1)
        else
          read_into header set_header (Z.of_nat HEADER_SIZE) 0 fd ;;
          w <- get ;;
          let fast := get_banner_offset_fast (header w) in
          magic <- (if negb (fast =? 0) then read_magic fast fd else ret 0) ;;
          if negb (fast =? 0) && is_banner magic then finish want_fd fd magic fast
          else
            w <- get ;;
            if FSTSize (header w) >? 0x100000 then on_game (game_close fd) ;; ret (no_info, -1)
            else
              '(offset, _) <- get_banner_offset_slow fd ;;
              magic <- (if negb (offset =? 0) then read_magic offset fd else ret 0) ;;
              if negb (offset =? 0) && is_banner magic then finish want_fd fd magic offset
              else on_game (game_close fd) ;; ret (no_info, -1)
    end.
End GameInfo.

Arguments info_state W : clear implicits.

(** ** ISO 9660 boot discs *)

Definition ISO_SECTOR_SIZE : Z := 2048.
Definition le32 (bs : list Z) (o : nat) : Z :=
  nth o bs 0 + nth (o + 1) bs 0 * 2 ^ 8 + nth (o + 2) bs 0 * 2 ^ 16 + nth (o + 3) bs 0 * 2 ^ 24.

(** [strncmp(buffer + o, lit, n) != 0] for a literal of at least [n] bytes,
    terminator included. *)
Definition differs (buf : list Z) (o : nat) (lit : list Z) : bool :=
  negb (bool_decide (slice o (length lit) buf = lit)).

Section Iso.
Context {W : Type} `{FileDevice W}.
(** The address the static sector buffer was given. *)
Context (sector_addr : Z).

Record iso_state := mk_iso { iso9660Buf : list Z; iso_sector_buf : list Z; iso_files : load_state W }.
Notation P := (M iso_state).
Definition set_iso9660Buf (b : list Z) (w : iso_state) := mk_iso b (iso_sector_buf w) (iso_files w).
Definition set_sector (b : list Z) (w : iso_state) := mk_iso (iso9660Buf w) b (iso_files w).
Definition set_iso_files (f : load_state W) (w : iso_state) := mk_iso (iso9660Buf w) (iso_sector_buf w) f.
Definition on_files {A} (m : M (load_state W) A) : P A := zoom iso_files set_iso_files m.

(** A sector into the sector buffer. *)
Definition read_sector (offset fd : Z) : P Z :=
  w <- get ;;
  '(r, b) <- on_files (dvd_read_data sector_addr (iso_sector_buf w) ISO_SECTOR_SIZE offset fd) ;;
  modify (set_sector b) ;; ret r.

(** The search for the boot record from sector [i] on: [None] on a read error,
    otherwise whether it was found. *)
Fixpoint boot_record_rounds (rounds : nat) (i fd : Z) : P (option bool) :=
  match rounds with
  | O => ret (Some false)
  | S rounds =>
      r <- read_sector (i * ISO_SECTOR_SIZE) fd ;;
      if negb (r =? 0) then ret None
      else
        w <- get ;;
        let b := iso_sector_buf w in
        if (nth 0 b 0 =? 0) && negb (differs b 1 (str "CD001")) then ret (Some true)
        else if nth 0 b 0 =? 255 then ret (Some false)
        else boot_record_rounds rounds (i + 1) fd
  end.

Definition get_dol_iso9660 (fd : Z) : P Z :=
  w <- get ;;
  '(r, b) <- on_files (on_dev (dev_read (iso9660Buf w) 32 0x8000 fd)) ;;
  modify (set_iso9660Buf b) ;;
  if negb (r =? 0) then ret 0
  else if differs b 1 (str "CD001") then ret 0
  else
    found <- boot_record_rounds (256 - 16) 16 fd ;;
    match found with
    | None | Some false => ret 0
    | Some true =>
        w <- get ;;
        if differs (iso_sector_buf w) 7 (str "EL TORITO SPECIFICATION" ++ [0]) then ret 0
        else
          let catalog_lba := le32 (iso_sector_buf w) 71 in
          r <- read_sector (u32 (catalog_lba * ISO_SECTOR_SIZE)) fd ;;
          if negb (r =? 0) then ret 0
          else
            w <- get ;;
            ret (u32 (le32 (iso_sector_buf w) (32 + 8) * ISO_SECTOR_SIZE))
    end.
End Iso.

(** ** Executables *)

Definition MAXTEXTSECTION : nat := 7.
Definition MAXDATASECTION : nat := 11.
(** The header's arrays. *)
Definition textOffset (d : list Z) (i : nat) : Z := be32 d (4 * i).
Definition dataOffset (d : list Z) (i : nat) : Z := be32 d (0x1c + 4 * i).
Definition textAddress (d : list Z) (i : nat) : Z := be32 d (0x48 + 4 * i).
Definition dataAddress (d : list Z) (i : nat) : Z := be32 d (0x64 + 4 * i).
Definition textLength (d : list Z) (i : nat) : Z := be32 d (0x90 + 4 * i).
Definition dataLength (d : list Z) (i : nat) : Z := be32 d (0xac + 4 * i).
Definition bssAddress (d : list Z) : Z := be32 d 0xd8.
Definition bssLength (d : list Z) : Z := be32 d 0xdc.
Definition entryPoint (d : list Z) : Z := be32 d 0xe0.

Definition max_section (maxaddress address len : Z) : Z :=
  if negb (address =? 0) && negb (len =? 0) then
    if u32 (address + len) >? maxaddress then u32 (address + len) else maxaddress
  else maxaddress.
Definition DOLMax (d : list Z) : Z :=
  let m := fold_left (fun m i => max_section m (textAddress d i) (textLength d i)) (seq 0 MAXTEXTSECTION) 0 in
  let m := fold_left (fun m i => max_section m (dataAddress d i) (dataLength d i)) (seq 0 MAXDATASECTION) m in
  if negb (bssAddress d =? 0) then
    if u32 (bssAddress d + bssLength d) >? m then u32 (bssAddress d + bssLength d) else m
  else m.

(** ** [FileSuffix]: the offset of the suffix in the path *)

Definition is_sep (c : Z) : bool := (c =? 47) || (c =? 92).
Fixpoint suffix_rounds (path : list Z) (i : nat) : nat :=
  match i with
  | O => O
  | S j =>
      let c := nth i path 0 in
      if negb (c =? chr_dot) && negb (is_sep c) then suffix_rounds path j else i
  end.
Definition FileSuffix (path : list Z) : nat :=
  let n := length path in
  let i := suffix_rounds path (n - 1) in
  if (0 <? i)%nat && (i <? n - 1)%nat && (nth i path 0 =? chr_dot) && negb (is_sep (nth (i - 1) path 0))
  then i else n.
