(* ===== verification/DiscInfoThms.v ===== *)
(** [get_game_info] finds what is on the disc, and keeps its hands on the file
    exactly when it says so. *)

From Stdlib Require Import String.
From S2P Require Import Prelude Bits CStr Di Fdrv FlippyEmu FileLoad Crc BnrOffsets GmPaths GmPathsThms DiscInfo.
#[local] Open Scope prog_scope.

(** What a file device promises: the files there are, the descriptors that are
    open and what each reads from.  Reads are of whole cache lines, at words. *)
Class GameReads (W : Type) `{GameFiles W} := {
  game_file : list Z -> W -> option (list Z);
  opened : W -> list Z;
  game_content : Z -> W -> list Z;
  game_open_ok p t f c w : game_file p w = Some c ->
    wp (game_open p t f) (fun r w1 => r = 0 /\
      wp game_status (fun s w2 => exists b, s = Some b /\ blob_result b = 0 /\
        opened w2 = blob_fd b :: opened w /\ game_content (blob_fd b) w2 = c) w1) w;
  game_read_ok dst len off fd w : fd ∈ opened w -> 0 <= off -> off mod 4 = 0 -> 0 <= len -> len mod 32 = 0 ->
    wp (game_read dst len off fd) (fun r w' => opened w' = opened w /\
      (forall fd, game_content fd w' = game_content fd w) /\
      r.2 = splice 0 (slice (Z.to_nat off) (Z.to_nat len) (game_content fd w)) dst) w;
  game_close_ok fd l w : opened w = fd :: l -> wp (game_close fd) (fun _ w' => opened w' = l) w
}.

(** ** The table of banner offsets *)

Lemma table_rows : forallb (fun r => (r.2 mod 4 =? 0) && (0 <? r.2) && (r.2 + 32 <=? 1459978240)) bnr_offsets = true.
Proof. vm_compute. reflexivity. Qed.

Lemma offsets_rounds_row n rows hash :
  forallb (fun r => (r.2 mod 4 =? 0) && (0 <? r.2) && (r.2 + 32 <=? 1459978240)) rows = true ->
  let o := offsets_rounds n rows hash in o = 0 \/ o mod 4 = 0 /\ 0 < o /\ o + 32 <= 1459978240.
Proof.
  revert n. induction rows as [|[h o] rows IH]; intros [|n] Hr; cbn in *; auto.
  apply andb_prop in Hr as [[[?%Z.eqb_eq ?%Z.ltb_lt]%andb_prop ?%Z.leb_le]%andb_prop Hr].
  destruct (h =? hash); auto.
Qed.

(** A known disc's banner is at a word offset of the disc. *)
Lemma fast_offset h : get_banner_offset_fast h <> 0 ->
  get_banner_offset_fast h mod 4 = 0 /\ 0 < get_banner_offset_fast h.
Proof.
  unfold get_banner_offset_fast. destruct (DOLOffset h =? 0); [done|]. intros Hnz.
  destruct (offsets_rounds_row (Z.to_nat bnr_offsets_count) bnr_offsets (tinf_crc32 h) table_rows)
    as [|(? & ? & _)]; [contradiction|split; assumption].
Qed.
Opaque get_banner_offset_fast.

(** ** The file system table of an image *)

Definition fst_image (c : list Z) : list Z :=
  slice (Z.to_nat (FSTOffset c)) (Z.to_nat (FSTSize c)) c.

Section Table.
(** The table [F], loaded at the start of [mem]. *)
Context (F mem : list Z).
Hypothesis Hmem : exists rest, mem = F ++ rest.
Hypothesis Hbytes : Forall (fun b => 0 <= b < 256) F.
Hypothesis Hsize : Z.of_nat (length F) <= 0x100000.

Definition entries : Z := be32 F 8.
Definition entry_is_file (i : nat) : Prop := nth (12 * i) F 0 < 128.
Definition entry_name (i : nat) : list Z :=
  let o := nth (12 * i + 1) F 0 * 2 ^ 16 + nth (12 * i + 2) F 0 * 2 ^ 8 + nth (12 * i + 3) F 0 in
  cstr (drop (12 * Z.to_nat entries + Z.to_nat o) F).
Definition entry_position (i : nat) : Z := be32 F (12 * i + 4).
Definition entry_length (i : nat) : Z := be32 F (12 * i + 8).

(** Its entries and their names lie in it. *)
Definition name_start (i : nat) : nat :=
  12 * Z.to_nat entries +
  Z.to_nat (nth (12 * i + 1) F 0 * 2 ^ 16 + nth (12 * i + 2) F 0 * 2 ^ 8 + nth (12 * i + 3) F 0).
Definition table_ok : Prop :=
  1 <= entries /\ (12 * Z.to_nat entries <= length F)%nat /\
  forall i, (1 <= i < Z.to_nat entries)%nat -> (name_start i + length (entry_name i) < length F)%nat.

(** The first file called opening.bnr, upper and lower case alike. *)
Definition is_banner_entry (i : nat) : Prop := entry_is_file i /\ lower (entry_name i) = opening_bnr.
#[export] Instance is_banner_entry_dec i : Decision (is_banner_entry i).
Proof. unfold is_banner_entry, entry_is_file. apply _. Defined.
Definition banner_entry : option nat :=
  head (filter is_banner_entry (seq 1 (Z.to_nat entries - 1))).

Lemma F_byte k : 0 <= nth k F 0 < 256.
Proof.
  destruct (nth_in_or_default k F 0) as [Hin| ->]; [|lia].
  rewrite Forall_forall in Hbytes. by apply Hbytes, list_elem_of_In.
Qed.

Lemma byte_at_F k : (k < length F)%nat -> byte_at mem (FST_BASE + Z.of_nat k) = Some (nth k F 0).
Proof.
  intros Hk. unfold byte_at. destruct (Z.ltb_spec (FST_BASE + Z.of_nat k) FST_BASE); [lia|].
  replace (Z.to_nat (FST_BASE + Z.of_nat k - FST_BASE)) with k by lia.
  destruct Hmem as [rest ->]. rewrite lookup_app_l by done.
  destruct (lookup_lt_is_Some_2 F k Hk) as [x Hx]. rewrite Hx. by rewrite (nth_lookup_Some _ _ _ _ Hx).
Qed.

Lemma entry_addr_F i : (12 * i <= length F)%nat -> entry_addr (Z.of_nat i) = FST_BASE + Z.of_nat (12 * i).
Proof. intros. unfold entry_addr, FST_ENTRY, FST_BASE. rewrite u32_small; lia. Qed.

Lemma word_at_F k : (k + 4 <= length F)%nat -> word_at mem (FST_BASE + Z.of_nat k) = Some (be32 F k).
Proof.
  intros Hk. unfold word_at. rewrite byte_at_F by lia. cbn [mbind option_bind].
  replace (FST_BASE + Z.of_nat k + 1) with (FST_BASE + Z.of_nat (k + 1)) by lia.
  replace (FST_BASE + Z.of_nat k + 2) with (FST_BASE + Z.of_nat (k + 2)) by lia.
  replace (FST_BASE + Z.of_nat k + 3) with (FST_BASE + Z.of_nat (k + 3)) by lia.
  rewrite !byte_at_F by lia. done.
Qed.

Section Entry.
Context (i : nat).
Hypothesis Hi : (12 * i + 12 <= length F)%nat.

Lemma entry_filetype_F : exists t, entry_filetype mem (Z.of_nat i) = Some t /\ (t = T_FILE <-> entry_is_file i).
Proof.
  unfold entry_filetype. rewrite entry_addr_F, byte_at_F by lia. cbn [mbind option_bind].
  eexists. split; [done|]. rewrite Z.shiftr_div_pow2 by lia. unfold entry_is_file, T_FILE.
  pose proof (F_byte (12 * i)). cbn [Z.pow Z.pow_pos Pos.iter Z.mul]. zdm.
Qed.

Lemma entry_offset_F : exists o, entry_offset mem (Z.of_nat i) = Some o /\ 0 <= o < 2 ^ 24 /\
  name_start i = (12 * Z.to_nat entries + Z.to_nat o)%nat.
Proof.
  unfold entry_offset. rewrite entry_addr_F by lia.
  replace (FST_BASE + Z.of_nat (12 * i) + 1) with (FST_BASE + Z.of_nat (12 * i + 1)) by lia.
  replace (FST_BASE + Z.of_nat (12 * i) + 2) with (FST_BASE + Z.of_nat (12 * i + 2)) by lia.
  replace (FST_BASE + Z.of_nat (12 * i) + 3) with (FST_BASE + Z.of_nat (12 * i + 3)) by lia.
  rewrite !byte_at_F by lia. cbn [mbind option_bind]. eexists. split; [done|].
  pose proof (F_byte (12 * i + 1)). pose proof (F_byte (12 * i + 2)). pose proof (F_byte (12 * i + 3)).
  unfold name_start. rewrite !Z.shiftl_mul_pow2 by lia.
  rewrite (lor_fields (nth (12 * i + 2) F 0 * 2 ^ 8) _ 16) by lia.
  replace (nth (12 * i + 1) F 0 * 2 ^ 16 + nth (12 * i + 2) F 0 * 2 ^ 8)
    with ((nth (12 * i + 1) F 0 * 2 ^ 8 + nth (12 * i + 2) F 0) * 2 ^ 8) by lia.
  rewrite lor_fields by lia. split; lia.
Qed.

Lemma entry_words_F :
  FILE_POSITION mem (Z.of_nat i) = Some (entry_position i) /\
  FILE_LENGTH mem (Z.of_nat i) = Some (entry_length i).
Proof.
  unfold FILE_POSITION, FILE_LENGTH. rewrite entry_addr_F by lia.
  replace (FST_BASE + Z.of_nat (12 * i) + 4) with (FST_BASE + Z.of_nat (12 * i + 4)) by lia.
  replace (FST_BASE + Z.of_nat (12 * i) + 8) with (FST_BASE + Z.of_nat (12 * i + 8)) by lia.
  by rewrite !word_at_F by lia.
Qed.
End Entry.

(** Comparing a terminated string of the table with a literal in lower case. *)
Lemma strcasecmp_at_F lit k :
  no_nul lit -> lower lit = lit -> (k + length (cstr (drop k F)) < length F)%nat ->
  exists d, strcasecmp_at mem (FST_BASE + Z.of_nat k) lit = Some d /\
    (d = 0 <-> lower (cstr (drop k F)) = lit).
Proof.
  revert k. induction lit as [|l lit IH]; intros k Hn Hlow Hk; cbn [strcasecmp_at];
    rewrite byte_at_F by lia; cbn [mbind option_bind];
    destruct (lookup_lt_is_Some_2 F k ltac:(lia)) as [c Hc];
    rewrite (nth_lookup_Some _ _ _ _ Hc); rewrite (drop_S _ _ _ Hc) in Hk |- *; cbn [cstr] in Hk |- *.
  - exists (my_tolower c). split; [done|]. destruct (Z.eqb_spec c 0) as [Ec|Hc0]; [by rewrite Ec|].
    split; [intros E; by apply my_tolower_nz in Hc0|done].
  - apply Forall_cons in Hn as [Hl Hn]. injection Hlow as El Hlow. rewrite El.
    destruct (Z.eqb_spec (my_tolower c - l) 0) as [E0|E0]; cbn [negb].
    + destruct (Z.eqb_spec c 0) as [Ec|Hc0]; [rewrite Ec in E0; change (my_tolower 0) with 0 in E0; lia|].
      cbn [length] in Hk.
      destruct (IH (S k) Hn Hlow) as (d & Ed & Hd); [lia|].
      exists d. replace (FST_BASE + Z.of_nat k + 1) with (FST_BASE + Z.of_nat (S k)) by lia.
      split; [done|]. rewrite Hd. unfold lower. cbn. split; [intros ->; f_equal; lia|by intros [=]].
    + eexists. split; [done|]. split; [done|].
      destruct (Z.eqb_spec c 0) as [Ec|Hc0]; [done|]. unfold lower. cbn. intros [=]. lia.
Qed.

Lemma opening_ok : no_nul opening_bnr /\ lower opening_bnr = opening_bnr.
Proof. split; [repeat constructor; done|reflexivity]. Qed.

Lemma scan_rounds_F n i :
  table_ok -> (1 <= i)%nat -> (i + n = Z.to_nat entries)%nat ->
  scan_rounds n mem (entry_addr entries) (Z.of_nat i) =
  Some match head (filter is_banner_entry (seq i n)) with
       | Some j => (entry_position j, entry_length j)
       | None => (0, 0)
       end.
Proof.
  intros (He & Hn & Hnames). revert i. induction n as [|n IH]; intros i Hi Hin; [done|].
  cbn [scan_rounds seq]. rewrite filter_cons.
  assert (Hfit : (12 * i + 12 <= length F)%nat) by lia.
  destruct (entry_offset_F i Hfit) as (o & -> & Ho & Hst). cbn [mbind option_bind].
  destruct (entry_filetype_F i Hfit) as (t & -> & Ht). cbn [mbind option_bind].
  assert (Hname : exists d, strcasecmp_at mem (u32 (entry_addr entries + o)) opening_bnr = Some d /\
    (d = 0 <-> lower (entry_name i) = opening_bnr)).
  { specialize (Hnames i ltac:(lia)). unfold entry_name in *. fold (name_start i) in *.
    rewrite <- (Z2Nat.id entries), entry_addr_F by lia.
    replace (FST_BASE + Z.of_nat (12 * Z.to_nat entries) + o) with (FST_BASE + Z.of_nat (name_start i)) by lia.
    rewrite u32_small by (unfold FST_BASE; lia).
    destruct opening_ok. by apply strcasecmp_at_F. }
  destruct Hname as (d & Ed & Hd).
  destruct (Z.eqb_spec t T_FILE) as [Et|Et].
  - rewrite Ed. cbn [mbind option_bind andb]. destruct (Z.eqb_spec d 0) as [E0|E0].
    + rewrite decide_True by (split; tauto). cbn [head].
      destruct (entry_words_F i Hfit) as [-> ->]. done.
    + rewrite decide_False by (intros [? ?]; tauto).
      replace (Z.of_nat i + 1) with (Z.of_nat (S i)) by lia. apply IH; lia.
  - cbn [mbind option_bind andb]. rewrite decide_False by (intros [? ?]; tauto).
    replace (Z.of_nat i + 1) with (Z.of_nat (S i)) by lia. apply IH; lia.
Qed.

Lemma scan_fst_F :
  table_ok -> scan_fst mem = Some match banner_entry with
                                  | Some j => (entry_position j, entry_length j)
                                  | None => (0, 0)
                                  end.
Proof.
  intros Hok. pose proof Hok as (He & Hn & _). unfold scan_fst.
  assert (Hfit : (12 * 0 + 12 <= length F)%nat) by lia.
  destruct (entry_words_F 0 Hfit) as [_ E]. change (Z.of_nat 0) with 0 in E. rewrite E.
  change (entry_length 0) with entries. cbn [mbind option_bind].
  assert (Ea : entry_addr entries = FST_BASE + Z.of_nat (12 * Z.to_nat entries))
    by (rewrite <- (Z2Nat.id entries), entry_addr_F; lia).
  rewrite Ea at 1 2. rewrite Z.gtb_ltb.
  destruct (Z.ltb_spec (FST_BASE + Z.of_nat (12 * Z.to_nat entries)) FST_BASE); [lia|].
  destruct (Z.ltb_spec FST_END (FST_BASE + Z.of_nat (12 * Z.to_nat entries))); [unfold FST_END, FST_BASE in *; lia|].
  cbn [orb]. replace (Z.to_nat (entries - 1)) with (Z.to_nat entries - 1)%nat by lia.
  apply (scan_rounds_F (Z.to_nat entries - 1) 1); [done|lia|lia].
Qed.
End Table.

(** ** Reading a game file *)

(** Where the banner of the disc image [c] is: at the known place of a known disc
    if there is a banner there, otherwise where the first entry for opening.bnr
    in the file system table says, if there is one. *)
Definition banner_place (c : list Z) : option Z :=
  let fast := get_banner_offset_fast (take HEADER_SIZE c) in
  if negb (fast =? 0) && is_banner (be32 c (Z.to_nat fast)) then Some fast
  else if FSTSize c >? 0x100000 then None
  else
    j ← banner_entry (fst_image c);
    let o := entry_position (fst_image c) j in
    if negb (o =? 0) && is_banner (be32 c (Z.to_nat o)) then Some o else None.

(** A disc image that holds the structures its header names. *)
Record image_ok (c : list Z) : Prop := {
  im_header : (HEADER_SIZE <= length c)%nat;
  im_bytes : Forall (fun b => 0 <= b < 256) c;
  im_fast : let fast := get_banner_offset_fast (take HEADER_SIZE c) in
    fast <> 0 -> fast + 4 <= Z.of_nat (length c);
  im_fst : FSTSize c <= 0x100000 ->
    FSTOffset c mod 4 = 0 /\ FSTOffset c + FSTSize c <= Z.of_nat (length c) /\ table_ok (fst_image c) /\
    forall j, banner_entry (fst_image c) = Some j ->
      entry_position (fst_image c) j mod 4 = 0 /\ entry_position (fst_image c) j + 4 <= Z.of_nat (length c)
}.

Lemma be32_splice o n (c b : list Z) :
  (4 <= n)%nat -> (o + 4 <= length c)%nat -> be32 (splice 0 (slice o n c) b) 0 = be32 c o.
Proof.
  intros Hn Ho. assert (Hnth : forall i, (i < 4)%nat -> nth i (splice 0 (slice o n c) b) 0 = nth (o + i) c 0).
  { intros i Hi. unfold splice. rewrite take_0. cbn [app]. rewrite app_nth1; [apply nth_slice; lia|].
    unfold slice. len. }
  unfold be32. rewrite !Nat.add_0_l, !Hnth by lia. by rewrite Nat.add_0_r.
Qed.

Lemma be32_take n o (c : list Z) : (o + 4 <= n)%nat -> be32 (take n c) o = be32 c o.
Proof.
  intros Hn. unfold be32. assert (Hnth : forall i, (i < n)%nat -> nth i (take n c) 0 = nth i c 0).
  { intros i Hi. rewrite !nth_lookup. by rewrite lookup_take_lt. }
  by rewrite !Hnth by lia.
Qed.

Lemma be32_nonneg (c : list Z) o : Forall (fun b => 0 <= b < 256) c -> 0 <= be32 c o.
Proof. intros Hc. pose proof (be32_range c o Hc). lia. Qed.

Section GameInfo.
Context {W : Type} `{GameReads W}.
Notation state := (info_state W).

(** [fd] is the last descriptor opened, and reads [c]. *)
Definition holds (fd : Z) (c : list Z) (l : list Z) (w : state) : Prop :=
  opened (game_dev w) = fd :: l /\ game_content fd (game_dev w) = c.

(** A size rounded up is one of whole cache lines. *)
Lemma round_up_32B_lines n : 0 <= round_up_32B n /\ round_up_32B n mod 32 = 0.
Proof.
  unfold round_up_32B. pose proof (u32_range (n + 31)). change (Z.lnot 31) with (Z.lnot (Z.ones 5)).
  rewrite <- Z.ldiff_land, Z.ldiff_ones_r, Z.shiftl_mul_pow2, Z.shiftr_div_pow2 by lia. change (2 ^ 5) with 32.
  split; [zdm|]. apply Z.mod_mul. lia.
Qed.

Lemma read_into_ok buffer store len off fd c l (w : state) (Q : unit -> state -> Prop) :
  holds fd c l w -> 0 <= off -> off mod 4 = 0 -> 0 <= len -> len mod 32 = 0 ->
  (forall d b (v := set_game_dev d w), opened d = fd :: l -> game_content fd d = c ->
     b = splice 0 (slice (Z.to_nat off) (Z.to_nat len) c) (buffer w) -> Q tt (store b v)) ->
  wp (read_into buffer store len off fd) Q w.
Proof.
  intros [Ho Hc] Hnn Hal Hlen H32 HQ. apply wp_bind, wp_get, wp_bind. unfold wp at 1, on_game, zoom.
  assert (Hin : fd ∈ opened (game_dev w)) by (rewrite Ho; left).
  pose proof (game_read_ok (buffer w) len off fd (game_dev w) Hin Hnn Hal Hlen H32) as Hr.
  apply wp_elim in Hr as ([r b] & d & -> & Eo & Ec & Eb). cbn in Eb.
  apply wp_modify, HQ; [congruence|rewrite Ec; done|]. by rewrite Eb, Hc.
Qed.

Lemma close_ok fd c l (w : state) (Q : unit -> state -> Prop) :
  holds fd c l w -> (forall d, opened d = l -> Q tt (set_game_dev d w)) -> wp (on_game (game_close fd)) Q w.
Proof.
  intros [Ho _] HQ. unfold wp, on_game, zoom.
  pose proof (game_close_ok fd l (game_dev w) Ho) as Hr.
  apply wp_elim in Hr as ([] & d & -> & Eo). by apply HQ.
Qed.

(** What the caller gets. *)
Definition outcome (want_fd : bool) (c : list Z) (l : list Z) (r : dolphin_game_into_t * Z) (w : state) : Prop :=
  match banner_place c with
  | Some o =>
      r.1 = info_of (take HEADER_SIZE c) (be32 c (Z.to_nat o)) o /\
      if want_fd then holds r.2 c l w else r.2 = -1 /\ opened (game_dev w) = l
  | None => r = (no_info, -1) /\ opened (game_dev w) = l
  end.

Lemma read_magic_ok off fd c l (w : state) (Q : Z -> state -> Prop) :
  holds fd c l w -> 0 <= off -> off mod 4 = 0 -> off + 4 <= Z.of_nat (length c) ->
  (forall d b (v := set_small b (set_game_dev d w)), holds fd c l v -> Q (be32 c (Z.to_nat off)) v) ->
  wp (read_magic off fd) Q w.
Proof.
  intros Hh Hnn Hal Hl HQ. apply wp_bind. eapply read_into_ok; [exact Hh|done..|].
  intros d b v Ho Hc Eb. apply wp_bind, wp_get, wp_ret. cbn [small_buf set_small].
  rewrite Eb, be32_splice by lia. apply HQ. by split.
Qed.

Lemma finish_ok want_fd fd c l off (w : state) :
  holds fd c l w -> header w = take HEADER_SIZE c -> banner_place c = Some off ->
  wp (finish want_fd fd (be32 c (Z.to_nat off)) off) (outcome want_fd c l) w.
Proof.
  intros Hh Eh Hb. apply wp_bind, wp_get. unfold outcome. rewrite Hb, Eh. destruct want_fd.
  - by apply wp_ret.
  - apply wp_bind. eapply close_ok; [exact Hh|]. intros d Hd. apply wp_ret. by repeat split.
Qed.

Lemma give_up_ok want_fd fd c l (w : state) :
  holds fd c l w -> banner_place c = None ->
  wp (on_game (game_close fd) ;; ret (no_info, -1)) (outcome want_fd c l) w.
Proof.
  intros Hh Hb. apply wp_bind. eapply close_ok; [exact Hh|]. intros d Hd. apply wp_ret.
  unfold outcome. by rewrite Hb.
Qed.

Lemma fst_loaded c m size :
  image_ok c -> FSTSize c <= 0x100000 -> (Z.to_nat (FSTSize c) <= size)%nat ->
  exists rest, splice 0 (slice (Z.to_nat (FSTOffset c)) size c) m = fst_image c ++ rest.
Proof.
  intros Hc Hs Hsz. unfold splice, fst_image. rewrite take_0. cbn [app].
  assert (E : slice (Z.to_nat (FSTOffset c)) size c =
    slice (Z.to_nat (FSTOffset c)) (Z.to_nat (FSTSize c)) c ++
    slice (Z.to_nat (FSTOffset c) + Z.to_nat (FSTSize c)) (size - Z.to_nat (FSTSize c)) c)
    by (rewrite <- slice_app; f_equal; lia).
  eexists. rewrite E at 1. rewrite <- app_assoc. reflexivity.
Qed.

Lemma slow_ok fd c l (w : state) (Q : Z * Z -> state -> Prop) :
  image_ok c -> FSTSize c <= 0x100000 -> holds fd c l w -> header w = take HEADER_SIZE c ->
  (forall d b (v := set_fst_mem b (set_game_dev d w)), holds fd c l v ->
     Q (match banner_entry (fst_image c) with
        | Some j => (entry_position (fst_image c) j, entry_length (fst_image c) j)
        | None => (0, 0)
        end) v) ->
  wp (get_banner_offset_slow fd) Q w.
Proof.
  intros Hc Hs Hh Eh HQ. destruct (im_fst _ Hc Hs) as (H4 & Hfit & Htab & _).
  pose proof (be32_nonneg c 0x424 (im_bytes _ Hc)) as Hoff. pose proof (be32_nonneg c 0x428 (im_bytes _ Hc)) as Hsz.
  fold (FSTOffset c) in Hoff. fold (FSTSize c) in Hsz.
  apply wp_bind, wp_get, wp_bind. rewrite Eh.
  assert (E1 : FSTOffset (take HEADER_SIZE c) = FSTOffset c) by (apply be32_take; unfold HEADER_SIZE; lia).
  assert (E2 : FSTSize (take HEADER_SIZE c) = FSTSize c) by (apply be32_take; unfold HEADER_SIZE; lia).
  destruct (round_up_32B_lines (FSTSize c)) as [Hr0 Hr32].
  rewrite E1, E2. eapply read_into_ok; [exact Hh|done..|]. intros d b v Ho Hcc Eb.
  apply wp_bind, wp_get. cbn [fst_mem set_fst_mem].
  assert (Hlen : length (fst_image c) = Z.to_nat (FSTSize c)).
  { apply length_slice. lia. }
  assert (Hround : FSTSize c <= round_up_32B (FSTSize c)).
  { unfold round_up_32B. rewrite u32_small by lia. change 31 with (Z.ones 5) at 2.
    rewrite <- Z.ldiff_land, Z.ldiff_ones_r, Z.shiftl_mul_pow2, Z.shiftr_div_pow2 by lia.
    cbn [Z.pow Z.pow_pos Pos.iter Z.mul]. zdm. }
  destruct (fst_loaded c (fst_mem w) (Z.to_nat (round_up_32B (FSTSize c))) Hc Hs) as [rest Er]; [lia|].
  rewrite Eb, Er. rewrite (scan_fst_F (fst_image c)); [|by eexists| |lia|done].
  - unfold of_option, wp. destruct (banner_entry (fst_image c)); by apply HQ.
  - unfold fst_image, slice. apply Forall_take, Forall_drop. apply Hc.
Qed.
(** The second attempt, from a state that holds the file. *)
Lemma slow_attempt_ok want_fd fd c l (w : state) :
  image_ok c -> holds fd c l w -> header w = take HEADER_SIZE c ->
  negb (get_banner_offset_fast (take HEADER_SIZE c) =? 0) &&
    is_banner (be32 c (Z.to_nat (get_banner_offset_fast (take HEADER_SIZE c)))) = false ->
  wp (w <- get ;;
      if FSTSize (header w) >? 0x100000 then on_game (game_close fd) ;; ret (no_info, -1)
      else
        '(offset, _) <- get_banner_offset_slow fd ;;
        magic <- (if negb (offset =? 0) then read_magic offset fd else ret 0) ;;
        if negb (offset =? 0) && is_banner magic then finish want_fd fd magic offset
        else on_game (game_close fd) ;; ret (no_info, -1)) (outcome want_fd c l) w.
Proof.
  intros Hc Hh4 Eh4 Enf.
  assert (Es : FSTSize (take HEADER_SIZE c) = FSTSize c)
    by (pose proof (im_header _ Hc); apply be32_take; unfold HEADER_SIZE; lia).
  set (fast := get_banner_offset_fast (take HEADER_SIZE c)) in *.
  apply wp_bind, wp_get. rewrite Eh4, Es.
  assert (Ep : banner_place c = if FSTSize c >? 0x100000 then None else
    j ← banner_entry (fst_image c); let o := entry_position (fst_image c) j in
    if negb (o =? 0) && is_banner (be32 c (Z.to_nat o)) then Some o else None).
  { unfold banner_place. fold fast. by rewrite Enf. }
  rewrite Z.gtb_ltb in *. destruct (Z.ltb_spec 0x100000 (FSTSize c)) as [|Hsz]; [by eapply give_up_ok|].
  apply wp_bind. apply (slow_ok fd c l); [done|done|done|done|]. intros d5 b5 v5 Hh5.
  destruct (im_fst _ Hc Hsz) as (_ & _ & _ & Hj).
  destruct (banner_entry (fst_image c)) as [j|]; cbv beta iota; cbn [mbind option_bind] in Ep.
  2: { cbn [negb Z.eqb andb]. apply wp_bind, wp_ret. by eapply give_up_ok. }
  destruct (Hj j eq_refl) as [Hal Hin]. set (o := entry_position (fst_image c) j) in *.
  assert (0 <= o).
  { apply be32_nonneg. unfold fst_image, slice. apply Forall_take, Forall_drop, Hc. }
  apply wp_bind. destruct (Z.eqb_spec o 0) as [E0|E0]; cbn [negb andb] in *.
  { apply wp_ret. by eapply give_up_ok. }
  eapply read_magic_ok; [exact Hh5|done|done|done|]. intros d6 b6 v6 Hh6.
  destruct (is_banner (be32 c (Z.to_nat o))); [by apply finish_ok|by eapply give_up_ok].
Qed.

Lemma get_game_info_ok path c want_fd (w : state) :
  game_file path (game_dev w) = Some c -> image_ok c -> length (header w) = HEADER_SIZE ->
  wp (get_game_info path want_fd) (outcome want_fd c (opened (game_dev w))) w.
Proof.
  intros Hf Hc Hh. set (l := opened (game_dev w)).
  apply wp_bind. unfold wp at 1, on_game, zoom.
  pose proof (game_open_ok path FILE_ENTRY_TYPE_FILE flags c (game_dev w) Hf) as Ho.
  apply wp_elim in Ho as (r & d1 & -> & -> & Hst). cbn [negb Z.eqb].
  apply wp_bind. unfold wp at 1. cbn [game_dev set_game_dev].
  apply wp_elim in Hst as (s & d2 & -> & b & -> & Hb & Ho & Hcc). rewrite Hb. cbn [negb Z.eqb].
  set (fd := blob_fd b) in *. apply wp_bind. eapply read_into_ok; [split; [exact Ho|exact Hcc]|done..|].
  intros d3 hd v3 Ho3 Hc3 Ehd. cbn [header set_game_dev] in Ehd. apply wp_bind, wp_get. cbn [header set_header v3].
  assert (Eh : hd = take HEADER_SIZE c).
  { rewrite Ehd. unfold splice. rewrite take_0. cbn [app]. change (Z.to_nat 0) with 0%nat. rewrite Nat2Z.id.
    unfold slice. rewrite drop_0. pose proof (im_header _ Hc).
    rewrite drop_ge; [apply app_nil_r|]. rewrite length_take. lia. }
  rewrite Eh. set (w3 := set_header (take HEADER_SIZE c) v3) in *.
  assert (Hh3 : holds fd c l w3) by (by split).
  set (fast := get_banner_offset_fast (take HEADER_SIZE c)) in *.
  apply wp_bind. destruct (Z.eqb_spec fast 0) as [E0|E0]; cbn [negb andb] in *.
  { apply wp_ret. apply slow_attempt_ok; [done..|]. fold fast. by rewrite E0. }
  destruct (fast_offset _ E0) as [Hal Hpos].
  eapply read_magic_ok; [exact Hh3| |exact Hal|by apply Hc|]; [fold fast; lia|].
  intros d4 b4 v4 Hh4. fold fast. destruct (is_banner (be32 c (Z.to_nat fast))) eqn:Em.
  2: { apply slow_attempt_ok; [done..|]. fold fast. by rewrite Em, andb_false_r. }
  apply finish_ok; [done|done|]. unfold banner_place. fold fast.
  by rewrite Em, (proj2 (Z.eqb_neq _ _) E0).
Qed.

End GameInfo.

(** C29. A game file is read for what it is: on a storage device that keeps its
    promises and a disc image that holds the structures its header names, the
    call returns, and it reports exactly the banner that is there - at the place
    known for the disc's checksum if there is a banner, otherwise where the first
    file system entry named opening.bnr (upper or lower case) points - with the
    header's identification, boot program and table of files.  The file stays
    open, under the descriptor handed out, exactly when a banner was found and
    the caller asked for it; on every other path it has been closed, and no other
    descriptor is touched. *)
Theorem game_info_reads_disc {W} `{GameReads W} path c want_fd (w : info_state W) :
  game_file path (game_dev w) = Some c -> image_ok c -> length (header w) = HEADER_SIZE ->
  exists r w', get_game_info path want_fd w = Some (r, w') /\ outcome want_fd c (opened (game_dev w)) r w'.
Proof.
  intros Hf Hc Hh. by apply wp_elim, get_game_info_ok.
Qed.

(** A card with game files, as a device; the newest descriptor first. *)
Record sim_games := mk_sim { sim_files : list (list Z * list Z); sim_open : list (nat * list Z) }.
Fixpoint sim_content (fd : Z) (o : list (nat * list Z)) : list Z :=
  match o with
  | [] => []
  | (k, c) :: o => if Z.of_nat k =? fd then c else sim_content fd o
  end.
Fixpoint sim_file (p : list Z) (fs : list (list Z * list Z)) : option (list Z) :=
  match fs with
  | [] => None
  | (q, c) :: fs => if bool_decide (p = q) then Some c else sim_file p fs
  end.
#[export] Instance sim_game_files : GameFiles sim_games := {
  game_open p t f := fun w =>
    match sim_file p (sim_files w) with
    | Some c => Some (0, mk_sim (sim_files w) ((length (sim_open w), c) :: sim_open w))
    | None => Some (1, w)
    end;
  game_status := fun w => Some (Some (<[12%nat := Z.of_nat (hd (0%nat, []) (sim_open w)).1]> (replicate file_status_size 0)), w);
  game_read dst len off fd := fun w =>
    Some ((0, splice 0 (slice (Z.to_nat off) (Z.to_nat len) (sim_content fd (sim_open w))) dst), w);
  game_close fd := fun w => Some (tt, mk_sim (sim_files w) (tail (sim_open w)))
}.
#[export] Instance sim_game_reads : GameReads sim_games.
Proof.
  refine {| game_file p w := sim_file p (sim_files w); opened w := (fun o => Z.of_nat o.1) <$> sim_open w;
            game_content fd w := sim_content fd (sim_open w) |}.
  - intros p t f c w E. unfold wp. cbn. rewrite E. split; [done|]. eexists. split; [done|].
    cbn. by rewrite Z.eqb_refl.
  - intros dst len off fd w _ _ _. unfold wp. cbn. done.
  - intros fd l w E. unfold wp. cbn. destruct (sim_open w); [done|]. by injection E.
Defined.

(** A disc with one file: header, table of files, banner. *)
Definition small_disc : list Z :=
  splice 0x420 (be32_bytes 0 ++ be32_bytes 0x440 ++ be32_bytes 36 ++ be32_bytes 36)
    (splice 0 (str "GTSE01") (replicate 0x440 0)) ++
  [1; 0; 0; 0; 0; 0; 0; 0; 0; 0; 0; 2] ++ [0; 0; 0; 0; 0; 0; 4; 0x64; 0; 0; 0x19; 0x60] ++ str "Opening.BNR" ++ [0] ++
  str "BNR1" ++ replicate 28 7.

Lemma game_info_reads_disc_witness :
  exists w', get_game_info (str "/a.iso") true
    (mk_info_state (replicate 32 0) (replicate HEADER_SIZE 0) (replicate 64 0) (mk_sim [(str "/a.iso", small_disc)] [])) =
    Some (mk_info true (str "GTSE01") 0 0 0 0x464 0 0x440 36 36, 0, w') /\
  sim_open (game_dev w') = [(0%nat, small_disc)].
Proof.
  assert (Ep : banner_place small_disc = Some 0x464) by (vm_compute; reflexivity).
  destruct (game_info_reads_disc (str "/a.iso") small_disc true
    (mk_info_state (replicate 32 0) (replicate HEADER_SIZE 0) (replicate 64 0) (mk_sim [(str "/a.iso", small_disc)] [])))
    as ([info fd] & w' & E & Ho).
  - reflexivity.
  - split.
    + apply Nat.leb_le. vm_compute. reflexivity.
    + apply (bool_decide_unpack _). vm_compute. exact I.
    + intros fast Hne. exfalso. apply Hne. vm_compute. reflexivity.
    + intros _. split; [vm_compute; reflexivity|]. split; [apply Z.leb_le; vm_compute; reflexivity|]. split.
      * split; [apply Z.leb_le; vm_compute; reflexivity|]. split; [apply Nat.leb_le; vm_compute; reflexivity|].
        intros i Hi. assert (i = 1%nat) as -> by (revert Hi; vm_compute; lia).
        apply Nat.ltb_lt. vm_compute. reflexivity.
      * intros j Hj. vm_compute in Hj. injection Hj as <-.
        split; [vm_compute; reflexivity|apply Z.leb_le; vm_compute; reflexivity].
  - reflexivity.
  - assert (Hrun : (fun r => (r.1, (sim_open (game_dev r.2)).*1)) <$>
      get_game_info (str "/a.iso") true (mk_info_state (replicate 32 0) (replicate HEADER_SIZE 0) (replicate 64 0)
        (mk_sim [(str "/a.iso", small_disc)] [])) =
      Some (mk_info true (str "GTSE01") 0 0 0 0x464 0 0x440 36 36, 0, [0%nat])) by (vm_compute; reflexivity).
    rewrite E in Hrun. cbn in Hrun. injection Hrun as Ei Ef Eo.
    exists w'. split; [by rewrite E, Ei, Ef|].
    unfold outcome in Ho. rewrite Ep in Ho. destruct Ho as [_ [_ Hc]]. cbn in Hc. rewrite Ef in Hc.
    destruct (sim_open (game_dev w')) as [|[k c] [|]]; cbn in Eo; try discriminate Eo.
    injection Eo as ->. change (c = small_disc) in Hc. rewrite Hc. reflexivity.
Defined.
