(* ===== verification/GmEnum.v ===== *)
(** The game list itself (src/patches/source/games.c, lines 614 to 1251): every
    listed path is looked into, valid games get a banner in ARAM, the discs of a
    game find each other, lines of pictures come and go with the cursor, and the
    card's other directories are read ahead.

    One file per allocation: an entry's icon and banner are named by the number of
    the allocation, which is never used twice; the heap does not run out.  ARAM is
    one memory: the assets' places and the banner cache lie in it side by side.
    Other threads appear as two arguments of the loops: whether the list's mutex
    is taken when the thread asks ([locked]) and how many transfers are still
    pending when a buffer is wanted ([lag]). *)

From Stdlib Require Import String.
From S2P Require Import Prelude CStr Di Fdrv FlippyEmu Qsort GmPaths GmAssets Crc BnrOffsets DiscInfo.
From S2P Require BnrCache.
#[local] Open Scope prog_scope.

Definition PRELOAD_LINE_COUNT : Z := 2.
Definition ASSETS_PER_LINE : Z := 8.
Definition DRAW_TOTAL_ROWS : Z := 4.
Definition ASSETS_PER_PAGE : Z := ASSETS_PER_LINE * DRAW_TOTAL_ROWS.
Definition ASSETS_INITIAL_COUNT : Z := ASSETS_PER_PAGE + PRELOAD_LINE_COUNT * ASSETS_PER_LINE.

(** ** Entries *)

Record gm_extra_t := mk_extra {
  game_id : list Z; disc_num : Z; disc_ver : Z; dvd_bnr_type : Z; dvd_bnr_offset : Z;
  dvd_dol_offset : Z; dvd_fst_offset : Z; dvd_fst_size : Z; dvd_max_fst_size : Z
}.
Definition no_extra : gm_extra_t := mk_extra (replicate 6 0) 0 0 0 0 0 0 0 0.
Definition extra_of (i : dolphin_game_into_t) : gm_extra_t :=
  mk_extra (DiscInfo.game_id i) (DiscInfo.disc_num i) (DiscInfo.disc_ver i) (bnr_type i) (bnr_offset i)
    (dol_offset i) (fst_offset i) (fst_size i) (max_fst_size i).

(** [gm_file_entry_t]; [second] points to another entry, here its index. *)
Record gm_file_entry_t := mk_file {
  f_path : list Z; desc : list Z; extra : gm_extra_t; use_banner : bool;
  f_asset : nat; f_type : gm_file_type_t; second : option nat
}.
Definition DESC_SIZE : nat := 0x140.
Definition no_entry : gm_file_entry_t := mk_file [] (replicate DESC_SIZE 0) no_extra false 0 FILE_UNKNOWN None.
Definition set_desc (d : list Z) (e : gm_file_entry_t) :=
  mk_file (f_path e) d (extra e) (use_banner e) (f_asset e) (f_type e) (second e).
Definition set_second (s : option nat) (e : gm_file_entry_t) :=
  mk_file (f_path e) (desc e) (extra e) (use_banner e) (f_asset e) (f_type e) s.

(** The banner file: magic, picture, texts. *)
Definition BNR_PIXELS : nat := 4 + 0x1C.
Definition BNR_DESC : nat := BNR_PIXELS + BNR_PIXELDATA_LEN.
Definition pixelData (b : list Z) : list Z := slice BNR_PIXELS BNR_PIXELDATA_LEN b.
Definition bnr_desc (b : list Z) : list Z := slice BNR_DESC DESC_SIZE b.

(** [strcpy] into a field of the texts; what is too long for the field runs on
    into the next one. *)
Definition FULL_NAME : nat := 0x40.
Definition DESCRIPTION : nat := 0xC0.
Definition strcpy_field (o : nat) (s d : list Z) : option (list Z) :=
  if decide (o + length s < length d)%nat then Some (splice o (s ++ [0]) d) else None.

(** ** The statics *)

Record enum_state (W : Type) := mk_enum {
  e_early : list gm_path_entry_t;
  e_sorted : list nat;
  e_ent : list Z;
  e_small_buf : list Z;
  e_header : list Z;
  e_fst_mem : list Z;
  e_dev : W;
  gm : gm_world;
  bnr_table : list BnrCache.bnr_cache_entry;
  bnr_next : nat;
  banner_buffer : list Z;
  next_id : nat;
  gm_entry_backing : list gm_file_entry_t;
  game_backing_count : Z;
  number_of_lines : Z
}.
Arguments mk_enum {W}. Arguments e_early {W}. Arguments e_sorted {W}. Arguments e_ent {W}.
Arguments e_small_buf {W}. Arguments e_header {W}. Arguments e_fst_mem {W}. Arguments e_dev {W}.
Arguments gm {W}. Arguments bnr_table {W}. Arguments bnr_next {W}. Arguments banner_buffer {W}.
Arguments next_id {W}. Arguments gm_entry_backing {W}. Arguments game_backing_count {W}.
Arguments number_of_lines {W}.

Section Enum.
Context {W : Type} `{DirDevice W, GameFiles W}.
Notation P := (M (enum_state W)).
Implicit Types w : enum_state W.

Definition lists_of w : gm_lists W := mk_lists (e_early w) (e_sorted w) (e_ent w) (e_dev w).
Definition set_lists (l : gm_lists W) w : enum_state W :=
  mk_enum (early l) (sorted l) (ent l) (e_small_buf w) (e_header w) (e_fst_mem w) (lists_dev l) (gm w)
    (bnr_table w) (bnr_next w) (banner_buffer w) (next_id w) (gm_entry_backing w) (game_backing_count w)
    (number_of_lines w).
Definition info_state_of w : info_state W := mk_info_state (e_small_buf w) (e_header w) (e_fst_mem w) (e_dev w).
Definition set_info (s : info_state W) w : enum_state W :=
  mk_enum (e_early w) (e_sorted w) (e_ent w) (small_buf s) (header s) (fst_mem s) (game_dev s) (gm w)
    (bnr_table w) (bnr_next w) (banner_buffer w) (next_id w) (gm_entry_backing w) (game_backing_count w)
    (number_of_lines w).
Definition set_gm (g : gm_world) w : enum_state W :=
  mk_enum (e_early w) (e_sorted w) (e_ent w) (e_small_buf w) (e_header w) (e_fst_mem w) (e_dev w) g
    (bnr_table w) (bnr_next w) (banner_buffer w) (next_id w) (gm_entry_backing w) (game_backing_count w)
    (number_of_lines w).
Definition set_e_dev (d : W) w : enum_state W := set_info (set_game_dev d (info_state_of w)) w.
Definition set_bnr (t : list BnrCache.bnr_cache_entry) (n : nat) (m : Z -> Z) w : enum_state W :=
  mk_enum (e_early w) (e_sorted w) (e_ent w) (e_small_buf w) (e_header w) (e_fst_mem w) (e_dev w)
    (set_aram_mem m (gm w)) t n (banner_buffer w) (next_id w) (gm_entry_backing w) (game_backing_count w)
    (number_of_lines w).
Definition set_banner_buffer (b : list Z) w : enum_state W :=
  mk_enum (e_early w) (e_sorted w) (e_ent w) (e_small_buf w) (e_header w) (e_fst_mem w) (e_dev w) (gm w)
    (bnr_table w) (bnr_next w) b (next_id w) (gm_entry_backing w) (game_backing_count w) (number_of_lines w).
Definition set_backing (es : list gm_file_entry_t) w : enum_state W :=
  mk_enum (e_early w) (e_sorted w) (e_ent w) (e_small_buf w) (e_header w) (e_fst_mem w) (e_dev w) (gm w)
    (bnr_table w) (bnr_next w) (banner_buffer w) (next_id w) es (game_backing_count w) (number_of_lines w).
Definition set_counts (n lines : Z) w : enum_state W :=
  mk_enum (e_early w) (e_sorted w) (e_ent w) (e_small_buf w) (e_header w) (e_fst_mem w) (e_dev w) (gm w)
    (bnr_table w) (bnr_next w) (banner_buffer w) (next_id w) (gm_entry_backing w) n lines.
Definition set_next_id (n : nat) w : enum_state W :=
  mk_enum (e_early w) (e_sorted w) (e_ent w) (e_small_buf w) (e_header w) (e_fst_mem w) (e_dev w) (gm w)
    (bnr_table w) (bnr_next w) (banner_buffer w) n (gm_entry_backing w) (game_backing_count w)
    (number_of_lines w).

Definition on_lists {A} (m : M (gm_lists W) A) : P A := zoom lists_of set_lists m.
Definition on_info {A} (m : M (info_state W) A) : P A := zoom info_state_of set_info m.
Definition on_gm {A} (m : M gm_world A) : P A := zoom gm set_gm m.
Definition on_card {A} (m : M W A) : P A := zoom e_dev set_e_dev m.

(** The banner cache over the shared ARAM. *)
Definition bnr_view w : BnrCache.bnr_state := BnrCache.mk_bnr (bnr_table w) (bnr_next w) (aram (gm w)).
Definition cache_get (key : Z) : P bool := fun w =>
  match BnrCache.bnr_cache_get key (bnr_view w) with
  | Some b => Some (true, set_banner_buffer b w)
  | None => Some (false, w)
  end.
Definition cache_put (key : Z) : P unit := modify (fun w =>
  let c := BnrCache.bnr_cache_put key (banner_buffer w) (bnr_view w) in
  set_bnr (BnrCache.bnr_cache c) (BnrCache.bnr_cache_next_index c) (BnrCache.aram c) w).
Definition gm_bnr_cache_key (path : list Z) : Z := tinf_crc32 (cstr path).

(** [dvd_threaded_read(&banner_buffer, sizeof(BNR), ...)], the result ignored,
    and the close that follows it. *)
Definition read_banner (offset fd : Z) : P unit :=
  w <- get ;;
  '(_, b) <- on_card (game_read (banner_buffer w) (Z.of_nat BnrCache.BNR_SIZE) offset fd) ;;
  modify (set_banner_buffer b) ;;
  on_card (game_close fd).

(** The queue works until at most [lag] requests are left. *)
Fixpoint arq_rounds (n : nat) : M gm_world unit :=
  match n with O => ret tt | S n => arq_complete ;; arq_rounds n end.
Definition arq_progress (lag : nat) : M gm_world unit :=
  g <- get ;; arq_rounds (length (queue g) - lag).

(** [gm_load_banner]: success and the entry with its texts. *)
Definition gm_load_banner (lag : nat) (entry : gm_file_entry_t) (aram_offset : Z) (force_unload : bool) (open_fd : Z) :
    P (bool * gm_file_entry_t) :=
  let close_open := if open_fd >=? 0 then on_card (game_close open_fd) else ret tt in
  let off := dvd_bnr_offset (extra entry) in
  let finish :=
    on_gm (arq_progress lag) ;;
    w <- get ;;
    ok <- on_gm (gm_stage_banner (f_asset entry) (pixelData (banner_buffer w)) aram_offset force_unload) ;;
    if ok : bool then ret (true, set_desc (bnr_desc (banner_buffer w)) entry) else ret (false, entry) in
  if off =? 0 then close_open ;; ret (false, entry)
  else
    let bnr_key := gm_bnr_cache_key (f_path entry) in
    hit <- cache_get bnr_key ;;
    if hit : bool then close_open ;; finish
    else
      fd <- (if open_fd <? 0 then
               on_card (game_open (cstr (f_path entry)) FILE_ENTRY_TYPE_FILE flags) ;;
               status <- on_card game_status ;;
               match status with
               | None => ret None
               | Some blob => ret (if blob_result blob =? 0 then Some (blob_fd blob) else None)
               end
             else ret (Some open_fd)) ;;
      match fd with
      | None => ret (false, entry)
      | Some fd => read_banner off fd ;; cache_put bnr_key ;; finish
      end.

(** ** Looking into the listed files *)

(** [gm_malloc] and [memset] of an entry, its path copied. *)
Definition gm_new_entry (p : gm_path_entry_t) (t : gm_file_type_t) : P gm_file_entry_t :=
  w <- get ;;
  let n := next_id w in
  on_gm (change (Icon, n) (fun _ => no_asset)) ;;
  on_gm (change (Banner, n) (fun _ => no_asset)) ;;
  modify (set_next_id (S n)) ;;
  ret (mk_file (path p) (replicate DESC_SIZE 0) no_extra false n t None).
Definition gm_add_entry (e : gm_file_entry_t) : P unit :=
  modify (fun w => set_backing (gm_entry_backing w ++ [e]) w).
Definition set_extra (x : gm_extra_t) (e : gm_file_entry_t) :=
  mk_file (f_path e) (desc e) x (use_banner e) (f_asset e) (f_type e) (second e).
Definition set_use_banner (b : bool) (e : gm_file_entry_t) :=
  mk_file (f_path e) (desc e) (extra e) b (f_asset e) (f_type e) (second e).

Definition gm_entry_count w : Z := Z.of_nat (length (gm_entry_backing w)).

(** Is the entry below the lines loaded at first?  The count is unsigned. *)
Definition forced_out (count top_line_num : Z) : bool :=
  u32 (count - top_line_num * ASSETS_PER_LINE) >? ASSETS_INITIAL_COUNT.

(** A game: the space it takes in ARAM, [None] when it is passed over. *)
Definition check_game (lag : nat) (p : gm_path_entry_t) (aram_offset : Z) (force_unload : bool) : P (option Z) :=
  '(info, game_fd) <- on_info (get_game_info (cstr (path p)) true) ;;
  if negb (valid info) then ret None
  else
    backing <- gm_new_entry p FILE_GAME ;;
    '(_, backing) <- gm_load_banner lag (set_extra (extra_of info) backing) aram_offset force_unload game_fd ;;
    gm_add_entry (set_use_banner true backing) ;;
    ret (Some (Z.of_nat BNR_PIXELDATA_LEN + Z.of_nat ICON_PIXELDATA_LEN)).

(** A program or a directory. *)
Definition check_other (p : gm_path_entry_t) : P (option Z) :=
  backing <- gm_new_entry p (path_type p) ;;
  base <- of_option (strrchr (cstr (path p)) chr_slash) ;;
  d <- of_option (strcpy_field FULL_NAME (tail base) (desc backing)) ;;
  d <- of_option (strcpy_field DESCRIPTION
         (if bool_decide (path_type p = FILE_PROGRAM) then str "Homebrew Program" else str "Directory") d) ;;
  gm_add_entry (set_desc d backing) ;;
  ret (Some (Z.of_nat ICON_PIXELDATA_LEN)).

Definition check_entry (lag : nat) (p : gm_path_entry_t) (aram_offset : Z) (force_unload : bool) : P (option Z) :=
  match path_type p with
  | FILE_GAME => check_game lag p aram_offset force_unload
  | FILE_PROGRAM | FILE_DIRECTORY => check_other p
  | FILE_UNKNOWN => ret (Some 0)
  end.

Fixpoint check_rounds (locked : nat -> bool) (lag : nat -> nat) (top_line_num : Z)
    (rounds i : nat) (aram_offset : Z) : P unit :=
  match rounds with
  | O => ret tt
  | S rounds =>
      w <- get ;;
      p <- of_option (listed (lists_of w) i) ;;
      let force_unload := forced_out (gm_entry_count w) top_line_num in
      if locked i then ret tt
      else
        used <- check_entry (lag i) p aram_offset force_unload ;;
        match used with
        | None => check_rounds locked lag top_line_num rounds (S i) aram_offset
        | Some used =>
            modify (fun w => set_counts (gm_entry_count w) (number_of_lines w) w) ;;
            check_rounds locked lag top_line_num rounds (S i) (aram_offset + used)
        end
  end.

(** ** The discs of a game *)

Definition same_game (e e2 : gm_file_entry_t) : bool :=
  bool_decide (game_id (extra e) = game_id (extra e2)).
Definition is_game (e : gm_file_entry_t) : bool := bool_decide (f_type e = FILE_GAME).
Definition pair_with (i : nat) (es : list gm_file_entry_t) (j : nat) : list gm_file_entry_t :=
  match es !! i, es !! j with
  | Some e, Some e2 =>
      if is_game e2 && negb (j =? i)%nat && same_game e e2 && negb (disc_num (extra e) =? disc_num (extra e2))
      then alter (set_second (Some i)) j (alter (set_second (Some j)) i es)
      else es
  | _, _ => es
  end.
Definition pair_entry (es : list gm_file_entry_t) (i : nat) : list gm_file_entry_t :=
  match es !! i with
  | Some e =>
      if is_game e && negb (disc_num (extra e) =? 0)
      then fold_left (pair_with i) (seq 0 (length es)) es
      else es
  | None => es
  end.
Definition pair_discs (es : list gm_file_entry_t) : list gm_file_entry_t :=
  fold_left pair_entry (seq 0 (length es)) es.

Definition ARAM_START : Z := 1 * 1024 * 1024.
Definition gm_check_files (locked : nat -> bool) (lag : nat -> nat) (top_line_num : Z) (path_count : nat) : P unit :=
  check_rounds locked lag top_line_num path_count 0 ARAM_START ;;
  modify (fun w => set_backing (pair_discs (gm_entry_backing w)) w).

(** ** Moving through the list *)

(** The entries of a line, as far as there are any; the index is compared as an
    unsigned number. *)
Definition line_entries (line_num : Z) w : list gm_file_entry_t :=
  if line_num <? 0 then [] else
  slice (Z.to_nat (line_num * ASSETS_PER_LINE)) (Z.to_nat ASSETS_PER_LINE) (gm_entry_backing w).
Fixpoint for_each {A} (f : A -> P unit) (l : list A) : P unit :=
  match l with [] => ret tt | a :: l => f a ;; for_each f l end.
Definition load_entry (e : gm_file_entry_t) : P unit :=
  if is_game e then on_gm (gm_icon_load (f_asset e)) ;; on_gm (gm_banner_load (f_asset e))
  else on_gm (gm_icon_load (f_asset e)).
Definition free_entry (e : gm_file_entry_t) : P unit :=
  if is_game e then on_gm (gm_icon_free (f_asset e)) ;; on_gm (gm_banner_free (f_asset e))
  else on_gm (gm_icon_free (f_asset e)).
Definition gm_line_load (line_num : Z) : P unit := w <- get ;; for_each load_entry (line_entries line_num w).
Definition gm_line_free (line_num : Z) : P unit := w <- get ;; for_each free_entry (line_entries line_num w).

Definition gm_line_changed (top_line_num delta : Z) : P unit :=
  w <- get ;;
  let new_line_num := top_line_num + delta in
  if delta <? 0 then
    (let load_line := new_line_num - PRELOAD_LINE_COUNT + 1 in
     if load_line >=? 0 then gm_line_load load_line else ret tt) ;;
    (let unload_line := new_line_num + DRAW_TOTAL_ROWS + PRELOAD_LINE_COUNT in
     if unload_line <? number_of_lines w then gm_line_free unload_line else ret tt)
  else if delta >? 0 then
    (let load_line := new_line_num + DRAW_TOTAL_ROWS + PRELOAD_LINE_COUNT - 1 in
     if load_line <? number_of_lines w then gm_line_load load_line else ret tt) ;;
    (let unload_line := new_line_num - PRELOAD_LINE_COUNT in
     if unload_line >=? 0 then gm_line_free unload_line else ret tt)
  else ret tt.

(** ** Reading ahead *)

(** [gm_warm_files]: [false] when it was told to stop. *)
Fixpoint warm_rounds (locked : nat -> bool) (rounds i : nat) : P bool :=
  match rounds with
  | O => ret true
  | S rounds =>
      w <- get ;;
      p <- of_option (listed (lists_of w) i) ;;
      if negb (bool_decide (path_type p = FILE_GAME)) then warm_rounds locked rounds (S i)
      else if locked i then ret false
      else
        '(info, fd) <- on_info (get_game_info (cstr (path p)) true) ;;
        if negb (valid info) then warm_rounds locked rounds (S i)
        else
          let bnr_key := gm_bnr_cache_key (path p) in
          hit <- (if bnr_offset info =? 0 then ret true else cache_get bnr_key) ;;
          (if hit : bool then (if fd >=? 0 then on_card (game_close fd) else ret tt)
           else read_banner (bnr_offset info) fd ;; cache_put bnr_key) ;;
          warm_rounds locked rounds (S i)
  end.
Definition gm_warm_files (locked : nat -> bool) (path_count : nat) : P bool := warm_rounds locked path_count 0.

Definition PATH_STACK : nat := 100.
(** The subdirectories of the directory just listed, pushed in its order. *)
Fixpoint push_rounds (rounds i : nat) (stack : list (list Z)) : P (list (list Z)) :=
  match rounds with
  | O => ret stack
  | S rounds =>
      w <- get ;;
      p <- of_option (listed (lists_of w) i) ;;
      if bool_decide (path_type p = FILE_DIRECTORY) then
        b <- of_option (strcpy (replicate PATH_SIZE 0) (cstr (path p))) ;;
        b <- of_option (strcat b [chr_slash]) ;;
        push_rounds rounds (S i) (if (length stack <? PATH_STACK)%nat then cstr b :: stack else stack)
      else push_rounds rounds (S i) stack
  end.

(** [gm_warm_card]: the directories not yet visited, the last one first;
    [locked k] is what the thread finds in the [k]-th directory. *)
Fixpoint warm_dirs (dir_fuel : nat) (skip_dir : list Z) (locked : nat -> nat -> bool)
    (fuel k : nat) (stack : list (list Z)) : P bool :=
  match fuel, stack with
  | O, _ => spin
  | S fuel, [] => ret true
  | S fuel, cur :: stack =>
      if locked k 0%nat then ret false
      else
        r <- on_lists (gm_list_files dir_fuel cur) ;;
        match r with
        | None => warm_dirs dir_fuel skip_dir locked fuel (S k) stack
        | Some n =>
            go <- (if bool_decide (cur = skip_dir) then ret true
                   else gm_warm_files (fun i => locked k (S i)) n) ;;
            if negb go then ret false
            else
              stack <- push_rounds n 0 stack ;;
              warm_dirs dir_fuel skip_dir locked fuel (S k) stack
        end
  end.
Definition gm_warm_card (dir_fuel fuel : nat) (skip_dir : list Z) (locked : nat -> nat -> bool) : P bool :=
  warm_dirs dir_fuel skip_dir locked fuel 0 [[chr_slash]].

(** ** The thread *)

(** The worker on the directory [target]: [warm_pending] afterwards. *)
Definition gm_thread_worker (dir_fuel fuel : nat) (target : list Z) (top_line_num : Z) (warm_pending : bool)
    (locked : nat -> bool) (lag : nat -> nat) (warm_locked : nat -> nat -> bool) : P bool :=
  if (length target =? 0)%nat then ret warm_pending
  else
    r <- on_lists (gm_list_files dir_fuel target) ;;
    match r with
    | None => spin
    | Some n =>
        modify (fun w => set_counts (game_backing_count w) (gm_setup_grid (Z.of_nat n)) w) ;;
        on_lists (gm_sort_files n) ;;
        gm_check_files locked lag top_line_num n ;;
        modify (fun w => set_counts (game_backing_count w) (gm_setup_grid (gm_entry_count w)) w) ;;
        if warm_pending then
          finished <- gm_warm_card dir_fuel fuel target warm_locked ;; ret (negb finished)
        else ret false
    end.

(** The part of [gm_start_thread] that empties the list: the memory of the
    entries is given back, and is no icon or banner from then on. *)
Definition gm_free_entry (e : gm_file_entry_t) : P unit :=
  free_entry e ;;
  on_gm (change (Icon, f_asset e) (fun _ => no_asset)) ;;
  on_gm (change (Banner, f_asset e) (fun _ => no_asset)).
Definition gm_clear_list : P unit :=
  w <- get ;;
  for_each gm_free_entry (gm_entry_backing w) ;;
  modify (set_backing []) ;;
  modify (set_counts 0 0).
End Enum.
