(* ===== verification/GmEnumAssets.v ===== *)
(** The asset buffers while the list is being filled: the queue keeps going, and
    as long as it does not fall behind there is a buffer for every picture. *)

From S2P Require Import Prelude GmAssets GmAssetsThms GmEnum.
#[local] Open Scope prog_scope.

(** ** Counting the banner buffers in use *)

Definition in_use (b : gm_buf) : Prop := used b <> 0.
#[export] Instance in_use_dec b : Decision (in_use b).
Proof. unfold in_use. apply _. Defined.
Definition use_count (bs : list gm_buf) : nat := length (filter in_use bs).

Lemma use_count_none bs : first_free bs = None -> use_count bs = length bs.
Proof.
  unfold use_count. induction bs as [|b bs IH]; [done|]. cbn [first_free length]. destruct (Z.eqb_spec (used b) 0); [done|].
  destruct (first_free bs); [done|]. intros _. rewrite filter_cons_True by done. cbn [length]. by rewrite IH.
Qed.

Lemma use_count_insert bs i b b' :
  bs !! i = Some b ->
  (use_count (<[i := b']> bs) + (if decide (in_use b) then 1 else 0) =
   use_count bs + (if decide (in_use b') then 1 else 0))%nat.
Proof.
  unfold use_count. revert i. induction bs as [|x bs IH]; intros [|i] E; try done.
  - injection E as ->. change (<[0%nat:=b']> (b :: bs)) with (b' :: bs). rewrite !filter_cons.
    repeat case_decide; cbn [length]; lia.
  - specialize (IH i E). change (<[S i:=b']> (x :: bs)) with (x :: <[i:=b']> bs). rewrite !filter_cons.
    destruct (decide (in_use x)); cbn [length]; lia.
Qed.

Lemma mark_insert u i bs b : bs !! i = Some b -> mark u i bs = <[i := mk_buf u (data b)]> bs.
Proof.
  intros E. apply list_eq. intros j. destruct (decide (i = j)) as [->|Hne].
  - rewrite (mark_eq _ _ _ _ E), list_lookup_insert_eq; [done|by eapply lookup_lt_Some].
  - by rewrite mark_ne, list_lookup_insert_ne.
Qed.

#[export] Instance arq_callback_eq_dec : EqDecision arq_callback.
Proof. solve_decision. Defined.

(** What the counting needs of a world: 128 banner buffers, no more of them in
    use than [k] and one for each transfer that will give its buffer back. *)
Definition unloads (q : list arq_request) : nat :=
  length (filter (fun r => (rq_asset r).1 = Banner /\ rq_callback r = CallUnload) q).
Record counted (k : nat) (w : gm_world) : Prop := {
  cnt_len : length (pool w Banner) = ASSET_BUFFER_COUNT;
  cnt_use : (use_count (pool w Banner) <= k + unloads (queue w))%nat
}.

Lemma unloads_le q : (unloads q <= length q)%nat.
Proof. apply length_filter. Qed.

Lemma buffer_left k w :
  counted k w -> (k + length (queue w) < ASSET_BUFFER_COUNT)%nat ->
  exists b, first_free (pool w Banner) = Some b.
Proof.
  intros [Hl Hu] Hlt. destruct (first_free (pool w Banner)) as [b|] eqn:E; [by eexists|].
  apply use_count_none in E. pose proof (unloads_le (queue w)). lia.
Qed.

(** ** The queue at work *)

(** What finished transfers leave as it was. *)
Record progressed (w w' : gm_world) : Prop := {
  pr_counted : forall k, counted k w -> counted k w';
  pr_none : forall id, state (assets w' id) = NONE <-> state (assets w id) = NONE;
  pr_queue : exists n, queue w' = drop n (queue w);
  pr_aram : forall lo hi a,
    (forall r, r ∈ queue w -> rq_aram r + Z.of_nat BNR_PIXELDATA_LEN <= lo \/ hi <= rq_aram r) ->
    lo <= a < hi -> aram w' a = aram w a
}.

#[export] Instance progressed_preorder : PreOrder progressed.
Proof.
  split.
  - intros w. split; try done. by exists 0%nat.
  - intros w1 w2 w3 [C1 N1 [n1 Q1] A1] [C2 N2 [n2 Q2] A2]. split.
    + auto.
    + intros id. by rewrite N2, N1.
    + exists (n1 + n2)%nat. by rewrite Q2, Q1, drop_drop.
    + intros lo hi a Hr Ha. rewrite (A2 lo hi), (A1 lo hi); try done.
      intros r Hin. apply Hr. rewrite Q1 in Hin. by apply (subseteq_drop n1) in Hin.
Qed.

Section Queue.
Variable art : asset_id -> list Z.
Variable place : asset_id -> Z.
Hypothesis art_len : forall id, length (art id) = plen id.
Hypothesis places : forall id id', id <> id' ->
  place id + Z.of_nat (plen id) <= place id' \/ place id' + Z.of_nat (plen id') <= place id.
Notation inv := (inv art place).

Lemma pixeldata_len_le k : (pixeldata_len k <= BNR_PIXELDATA_LEN)%nat.
Proof. apply Nat.leb_le. by destruct k. Qed.

Lemma unloads_cons r q :
  unloads (r :: q) = ((if decide ((rq_asset r).1 = Banner /\ rq_callback r = CallUnload) then 1 else 0) + unloads q)%nat.
Proof. unfold unloads. rewrite filter_cons. by case_decide. Qed.

(** Counting with one transfer less. *)
Lemma counted_done w w' r q k :
  inv w -> queue w = r :: q -> queue w' = q -> counted k w ->
  pool w' = (match rq_callback r with
             | CallSetup => pool w
             | CallUnload => upd (pool w) (rq_asset r).1 (mark 0 (rq_buf r) (pool w (rq_asset r).1))
             | CallLoad => upd (pool w) (rq_asset r).1 (<[rq_buf r :=
                 mk_buf 1 (aram_load (rq_aram r) (pixeldata_len (rq_asset r).1) (aram w))]> (pool w (rq_asset r).1))
             end) -> counted k w'.
Proof.
  intros Hi Hq Hq' [Hl Hu] Ep. rewrite Hq, unloads_cons in Hu.
  destruct (inv_requests _ _ _ Hi r ltac:(rewrite Hq; set_solver)) as [_ [_ (x & Hx & Hux)] _].
  destruct (rq_asset r) as [kd i] eqn:Ea. cbn [fst] in *.
  destruct (rq_callback r) eqn:Ec.
  - split; rewrite Ep, ?Hq'; [done|]. case_decide as Hd; [by destruct Hd|]. lia.
  - destruct kd.
    + split; rewrite Ep, ?Hq'; rewrite upd_ne by done; [done|]. case_decide as Hd; [by destruct Hd|]. lia.
    + assert (Hp : pool w' Banner = <[rq_buf r := mk_buf 0 (data x)]> (pool w Banner))
        by (rewrite Ep, upd_eq; by apply mark_insert).
      pose proof (use_count_insert _ _ _ (mk_buf 0 (data x)) Hx) as Hc.
      rewrite (decide_True (P := in_use x)) in Hc by (unfold in_use; lia).
      rewrite (decide_False (P := in_use (mk_buf 0 (data x)))) in Hc by (unfold in_use; cbn; lia).
      rewrite decide_True in Hu by done. split; rewrite Hp, ?Hq', ?length_insert; [done|lia].
  - destruct kd.
    + split; rewrite Ep, ?Hq'; rewrite upd_ne by done; [done|]. case_decide as Hd; [by destruct Hd|]. lia.
    + set (y := mk_buf 1 (aram_load (rq_aram r) (pixeldata_len Banner) (aram w))) in *.
      assert (Hp : pool w' Banner = <[rq_buf r := y]> (pool w Banner)) by (by rewrite Ep, upd_eq).
      pose proof (use_count_insert _ _ _ y Hx) as Hc.
      rewrite (decide_True (P := in_use x)), (decide_True (P := in_use y)) in Hc by (unfold in_use; cbn; lia).
      case_decide as Hd; [by destruct Hd|]. split; rewrite Hp, ?Hq', ?length_insert; [done|lia].
Qed.

Lemma state_none_upd (f : asset_id -> gm_asset) id a i :
  state a <> NONE -> state (f id) <> NONE -> state (upd f id a i) = NONE <-> state (f i) = NONE.
Proof. intros Ha Hf. unfold upd. case_decide as E; [subst i|]; split; intros; congruence. Qed.

Lemma queued_not_none w r : inv w -> r ∈ queue w -> state (assets w (rq_asset r)) <> NONE.
Proof.
  intros Hi Hr E. destruct (inv_requests _ _ _ Hi r Hr) as [_ _ Hk].
  clear art_len places.
  destruct (rq_callback r); destruct Hk as (_ & _ & Hk); rewrite E in Hk; [set_solver|set_solver|done].
Qed.

(** One transfer. *)
Lemma arq_complete_progress w :
  inv w -> exists w', arq_complete w = Some (tt, w') /\ inv w' /\ progressed w w' /\ queue w' = tail (queue w).
Proof.
  intros Hi. destruct (queue w) as [|r q] eqn:Eq.
  { exists w. unfold arq_complete, bind, get. rewrite Eq. done. }
  assert (Hin : r ∈ queue w) by (rewrite Eq; set_solver).
  pose proof (queued_not_none w r Hi Hin) as Hn.
  destruct (inv_requests _ _ _ Hi r Hin) as [_ [Hb (x & Hx & Hux)] Hk].
  pose proof (inv_pool _ _ _ Hi _ _ _ Hx) as Hlx.
  assert (Hrun : exists w', arq_complete w = Some (tt, w') /\ queue w' = q /\
    (forall id, state (assets w' id) = NONE <-> state (assets w id) = NONE) /\
    (aram w' = aram w \/ aram w' = aram_store (rq_aram r) (data x) (aram w)) /\
    pool w' = (match rq_callback r with
             | CallSetup => pool w
             | CallUnload => upd (pool w) (rq_asset r).1 (mark 0 (rq_buf r) (pool w (rq_asset r).1))
             | CallLoad => upd (pool w) (rq_asset r).1 (<[rq_buf r :=
                 mk_buf 1 (aram_load (rq_aram r) (pixeldata_len (rq_asset r).1) (aram w))]> (pool w (rq_asset r).1))
             end)).
  { unfold arq_complete, bind at 1, get. rewrite Eq. unfold bind at 1, put. unfold bind at 1.
    destruct (rq_callback r) eqn:Ec; destruct Hk as (Hd & _).
    - rewrite (transfer_store (set_queue q w) r x Hd Hx). eexists. split; [done|]. split_and!; try done; [|by right].
      intros id. by apply state_none_upd.
    - rewrite (transfer_store (set_queue q w) r x Hd Hx). unfold arq_callback_unload, change, asset, bind.
      cbn [assets set_asset set_aram_mem set_queue]. rewrite upd_eq. cbn [buf set_state]. rewrite Hb.
      eexists. split; [done|]. split_and!; try done; [|by right]. intros id. by apply state_none_upd.
    - rewrite (transfer_load (set_queue q w) r x Hd Hx), Hux. eexists. split; [done|]. split_and!; try done; [|by left].
      intros id. by apply state_none_upd. }
  destruct Hrun as (w' & Hrun & Hq & Hnone & Har & Hp). exists w'. split; [done|].
  split; [by eapply arq_complete_inv|]. split; [|done]. split.
  - intros k Hc. exact (counted_done w w' r q k Hi Eq Hq Hc Hp).
  - done.
  - exists 1%nat. by rewrite Hq, Eq.
  - intros lo hi a Hr Ha. destruct Har as [->| ->]; [done|]. unfold aram_store.
    pose proof (pixeldata_len_le (rq_asset r).1). specialize (Hr r Hin).
    destruct (_ && _) eqn:E; [|done]. apply andb_prop in E as [E1%Z.leb_le E2%Z.ltb_lt]. lia.
Qed.

(** The queue works until at most [lag] requests are left. *)
Lemma arq_progress_ok lag w :
  inv w -> exists w', arq_progress lag w = Some (tt, w') /\ inv w' /\ progressed w w' /\ (length (queue w') <= lag)%nat.
Proof.
  unfold arq_progress, bind, get. remember (length (queue w) - lag)%nat as n eqn:En. revert w En.
  induction n as [|n IH]; intros w En Hi.
  - exists w. split_and!; [done|done|done|lia].
  - cbn [arq_rounds]. destruct (arq_complete_progress w Hi) as (w1 & E1 & Hi1 & Hp1 & Hq1).
    destruct (IH w1) as (w2 & E2 & Hi2 & Hp2 & Hl2); [|done|].
    { rewrite Hq1. destruct (queue w); cbn in *; lia. }
    exists w2. unfold bind. rewrite E1. split; [done|]. split; [done|]. split; [by etransitivity|done].
Qed.

(** ** Staging *)

Lemma unloads_snoc q r :
  unloads (q ++ [r]) = (unloads q + (if decide ((rq_asset r).1 = Banner /\ rq_callback r = CallUnload) then 1 else 0))%nat.
Proof. unfold unloads. rewrite filter_app, length_app, filter_cons. by case_decide. Qed.

(** What staging the picture of the banner [i] leaves. *)
Record staged (i k : nat) (force : bool) (w w' : gm_world) : Prop := {
  st_inv : inv w';
  st_counted : counted (if force then k else S k) w';
  st_others : forall id, id <> (Banner, i) -> assets w' id = assets w id;
  st_own : state (assets w' (Banner, i)) <> NONE;
  st_queue : exists r, queue w' = queue w ++ [r] /\ rq_asset r = (Banner, i);
  st_aram : aram w' = aram w
}.

Lemma stage_ok i k force w :
  inv w -> state (assets w (Banner, i)) = NONE -> queued (Banner, i) w = false ->
  counted k w -> (k + length (queue w) < ASSET_BUFFER_COUNT)%nat ->
  exists w', stage (Banner, i) (art (Banner, i)) (place (Banner, i)) force w = Some (true, w') /\
    staged i k force w w'.
Proof.
  set (id := (Banner, i)). intros Hi Hn Hq Hc Hlt. destruct (buffer_left _ _ Hc Hlt) as [b Hf].
  destruct (first_free_spec _ _ Hf) as (x & Hx & Hux).
  pose (c := if force then CallUnload else CallSetup).
  pose (y := mk_buf 1 (splice 0 (art id) (data x))).
  assert (Hrun : exists w', stage id (art id) (place id) force w = Some (true, w') /\
    pool w' = upd (upd (pool w) Banner (mark 1 b (pool w Banner))) Banner
      (alter (fun x => mk_buf (used x) (splice 0 (art id) (data x))) b (mark 1 b (pool w Banner))) /\
    queue w' = queue w ++ [mk_req id true b (place id) c] /\ aram w' = aram w /\
    (forall id', id' <> id -> assets w' id' = assets w id') /\ state (assets w' id) <> NONE).
  { unfold stage, bind at 1, change at 1, bind at 1, gm_get_buf at 1. cbn [pool set_asset fst id]. rewrite Hf.
    unfold bind at 1, modify at 1, bind at 1, change at 1, bind at 1.
    unfold asset_setup_unload, asset_setup, asset_setup_with, bind, change, asset, of_option.
    assert (Hpost : forall a1 a2 a3 p, queued id (set_asset id a1 (set_asset id a2 (set_asset id a3 (set_pool Banner p
        (set_pool Banner (mark 1 b (pool w Banner)) (set_asset id (set_state LOADING (assets w id)) w)))))) = queued id w)
      by done.
    cbn [fst id pool set_pool set_asset] in *. fold id.
    destruct force; cbv beta iota; cbn [assets set_asset set_pool pool]; rewrite !upd_eq;
      cbn [buf set_aram set_buf set_state]; cbv beta iota; unfold post; cbn [rq_asset];
      rewrite Hpost, Hq; eexists; (split; [done|]); cbn; rewrite ?upd_eq; split_and!; try done;
      intros id' Hne; by rewrite !upd_ne. }
  destruct Hrun as (w' & Hrun & Hp & Hqu & Har & Has & Hst). exists w'. split; [done|]. split; try done.
  - by eapply stage_inv.
  - assert (Hpb : pool w' Banner = <[b := y]> (pool w Banner)).
    { rewrite Hp, upd_eq. rewrite (mark_insert _ _ _ _ Hx). apply list_eq. intros j.
      destruct (decide (b = j)) as [->|Hne].
      - pose proof (lookup_lt_Some _ _ _ Hx). rewrite list_lookup_alter_eq, !list_lookup_insert_eq by done. done.
      - by rewrite list_lookup_alter_ne, !list_lookup_insert_ne. }
    pose proof (use_count_insert _ _ _ y Hx) as Hcnt.
    rewrite (decide_False (P := in_use x)) in Hcnt by (unfold in_use; lia).
    rewrite (decide_True (P := in_use y)) in Hcnt by (unfold in_use; cbn; lia).
    destruct Hc as [Hl Hu]. split; rewrite Hpb; [by rewrite length_insert|].
    rewrite Hqu, unloads_snoc. cbn [rq_asset rq_callback]. unfold c.
    destruct force; [rewrite decide_True by done|rewrite decide_False by (by intros [_ ?])]; lia.
  - by eexists.
Qed.

(** ** What else happens to the buffers' world *)

(** ARAM changes away from the pictures. *)
Lemma inv_aram_outside lo hi m w :
  inv w -> (forall id, state (assets w id) <> NONE -> place id + Z.of_nat (plen id) <= lo \/ hi <= place id) ->
  (forall a, a < lo \/ hi <= a -> m a = aram w a) -> inv (set_aram_mem m w).
Proof.
  intros Hi Hp Hm.
  assert (Hs : forall id, state (assets w id) <> NONE -> saved art place w id -> saved art place (set_aram_mem m w) id).
  { intros id Hn Hs. unfold saved in *. rewrite <- Hs. unfold aram_load. apply list_fmap_ext.
    intros j x Hj. apply lookup_seq in Hj as [-> Hj]. cbn [aram set_aram_mem]. apply Hm.
    destruct (Hp id Hn); lia. }
  split; try apply Hi.
  - intros r Hr. pose proof (queued_not_none w r Hi Hr) as Hn.
    destruct (inv_requests _ _ _ Hi r Hr) as [H1 H2 H3]. split; [done|done|].
    destruct (rq_callback r); [exact H3|exact H3|]. destruct H3 as (? & ? & ?). split_and!; auto.
  - intros id Hq. pose proof (inv_idle _ _ _ Hi id Hq) as Hid. unfold idle_ok in *. cbn [assets set_aram_mem].
    specialize (Hs id). destruct (state (assets w id)); try done; try (by apply Hs).
    destruct Hid as [Hsv Hb]. split; [by apply Hs|exact Hb].
Qed.

(** An entry's memory is cleared. *)
Lemma inv_new w id : inv w -> state (assets w id) = NONE -> queued id w = false -> inv (set_asset id no_asset w).
Proof.
  intros Hi Hn Hq. apply (change_frame art place w); try done.
  - intros r Hr E. rewrite queued_false in Hq. by destruct (Hq r Hr).
  - intros _. unfold idle_ok. cbn. by rewrite upd_eq.
  - intros b [Hb _]. cbn in Hb. by rewrite upd_eq in Hb.
Qed.

Lemma none_not_queued w id : inv w -> state (assets w id) = NONE -> queued id w = false.
Proof.
  intros Hi Hn. apply queued_false. intros r Hr <-. by apply (queued_not_none w r Hi Hr).
Qed.
End Queue.
