(* ===== verification/GmEnumCard.v ===== *)
(** What filling the game list needs of the storage device, beyond reading: a
    file that is not there does not open, and the calls leave the card's files
    as they are; descriptors are numbers from 0 on. *)

From S2P Require Import Prelude CStr Di Fdrv FlippyEmu FileLoad Crc BnrOffsets GmPaths DiscInfo DiscInfoThms.
#[local] Open Scope prog_scope.

Class GameCard (W : Type) `{GameReads W} := {
  card_fd w fd : fd ∈ opened w -> 0 <= fd;
  card_missing p t f w : game_file p w = None ->
    wp (game_open p t f) (fun r w' => r <> 0 /\ opened w' = opened w) w;
  card_open p t f w r w' q : game_open p t f w = Some (r, w') -> game_file q w' = game_file q w;
  card_status w s w' q : game_status w = Some (s, w') -> game_file q w' = game_file q w;
  card_read dst len off fd w r b w' q : game_read dst len off fd w = Some ((r, b), w') ->
    ((Z.to_nat len <= length dst)%nat -> length b = length dst) /\ game_file q w' = game_file q w;
  card_close fd w x w' q : game_close fd w = Some (x, w') -> game_file q w' = game_file q w
}.

Section Card.
Context {W : Type} `{GameCard W}.

Definition same_card (w w' : W) : Prop := forall q, game_file q w' = game_file q w.
#[export] Instance same_card_preorder : PreOrder same_card.
Proof. split; [done|]. intros a b c H1' H2' q. by rewrite H2', H1'. Qed.

Lemma keeps_open p t f : keeps same_card (game_open p t f).
Proof. intros w r w' E q. by eapply card_open. Qed.
Lemma keeps_status : keeps same_card game_status.
Proof. intros w r w' E q. by eapply card_status. Qed.
Lemma keeps_close fd : keeps same_card (game_close fd).
Proof. intros w r w' E q. by eapply card_close. Qed.

(** [get_game_info] leaves the card's files and the size of the header's buffer. *)
Definition same_info (w w' : info_state W) : Prop :=
  same_card (game_dev w) (game_dev w') /\
  (length (header w) = HEADER_SIZE -> length (header w') = HEADER_SIZE).
#[export] Instance same_info_preorder : PreOrder same_info.
Proof.
  split; [by split|]. intros a b c [H1' L1] [H2' L2]. split; [by etransitivity|auto].
Qed.

Lemma keeps_on_game {A} (m : M W A) : keeps same_card m -> keeps same_info (on_game m).
Proof. intros Hm. eapply keeps_zoom; [exact Hm|]. by intros w v Hv. Qed.

Lemma keeps_read_into buffer store len off fd :
  (forall b w, same_card (game_dev w) (game_dev (store b w))) ->
  (forall b (w : info_state W) d, ((Z.to_nat len <= length (buffer w))%nat -> length b = length (buffer w)) ->
     length (header w) = HEADER_SIZE -> length (header (store b (set_game_dev d w))) = HEADER_SIZE) ->
  keeps same_info (read_into buffer store len off fd).
Proof.
  intros Hs Hl w a w' E. unfold read_into in E. apply bind_Some in E as (w0 & w1 & [= <- <-] & E).
  apply bind_Some in E as ([r b] & w2 & E1 & E2). unfold on_game, zoom in E1.
  destruct (game_read (buffer w) len off fd (game_dev w)) as [[[r' b'] d]|] eqn:Er; [|done].
  injection E1 as <- <- <-. injection E2 as _ <-. split.
  - intros q. rewrite (Hs b' _ q). cbn. by eapply card_read.
  - apply Hl. by apply (card_read _ _ _ _ _ _ _ _ [] Er).
Qed.
Lemma keeps_read_header off fd : keeps same_info (read_into header set_header (Z.of_nat HEADER_SIZE) off fd).
Proof. apply keeps_read_into; [done|]. intros b w d Hb Hh. cbn. rewrite Hb; lia. Qed.
Lemma keeps_read_small len off fd : keeps same_info (read_into small_buf set_small len off fd).
Proof. by apply keeps_read_into. Qed.
Lemma keeps_read_fst len off fd : keeps same_info (read_into fst_mem set_fst_mem len off fd).
Proof. by apply keeps_read_into. Qed.
#[local] Hint Resolve keeps_open keeps_status keeps_close keeps_on_game
  keeps_read_header keeps_read_small keeps_read_fst : keeps.

(** [keeps_tac] follows a program's structure. *)
Ltac keeps_tac := repeat first
  [ solve [eauto with keeps typeclass_instances]
  | apply keeps_bind; [apply _| |intros]
  | match goal with |- keeps _ (match ?x with _ => _ end) => destruct x end ].

Lemma keeps_get_game_info p want_fd : keeps same_info (get_game_info p want_fd).
Proof. unfold get_game_info, get_banner_offset_slow, read_magic, finish. keeps_tac. Qed.

(** A file that is not there. *)
Lemma get_game_info_missing p want_fd (w : info_state W) :
  game_file p (game_dev w) = None ->
  wp (get_game_info p want_fd) (fun r s => r = (no_info, -1) /\ opened (game_dev s) = opened (game_dev w)) w.
Proof.
  intros Hf. unfold get_game_info. apply wp_bind, wp_zoom.
  eapply wp_mono; [by apply card_missing|]. intros r d [Hr Ho]. rewrite (proj2 (Z.eqb_neq r 0) Hr).
  by apply wp_ret.
Qed.
End Card.
