(* ===== verification/GmEnumSpec.v ===== *)
(** What the game list is to show: the abstract account of a filled list, in
    terms of the files on the card, and the places of the pictures in ARAM. *)

From Stdlib Require Import String.
From S2P Require Import Prelude CStr GmPaths GmAssets GmAssetsThms Crc BnrOffsets DiscInfo DiscInfoThms GmEnum.
From S2P Require BnrCache.

(** ** Entries *)

(** What follows the last slash. *)
Fixpoint base_name (s : list Z) : list Z :=
  match s with
  | [] => []
  | c :: s => if decide (chr_slash ∈ s) then base_name s else if c =? chr_slash then s else c :: s
  end.

(** The texts of a program or directory. *)
Definition type_name (t : gm_file_type_t) : list Z :=
  if decide (t = FILE_PROGRAM) then str "Homebrew Program" else str "Directory".
Definition other_texts (name : list Z) (t : gm_file_type_t) : list Z :=
  splice DESCRIPTION (type_name t ++ [0]) (splice FULL_NAME (name ++ [0]) (replicate DESC_SIZE 0)).

(** The banner file in a disc image. *)
Definition banner_at (c : list Z) (o : Z) : list Z := slice (Z.to_nat o) BnrCache.BNR_SIZE c.

Section Spec.
(** The files of the card. *)
Variable files : list Z -> option (list Z).

(** The game at a path: its image and the place of the banner in it. *)
Definition game_at (path : list Z) : option (list Z * Z) :=
  match files path with
  | Some c => match banner_place c with Some o => Some (c, o) | None => None end
  | None => None
  end.

Definition game_entry (n : nat) (p : gm_path_entry_t) (c : list Z) (o : Z) : gm_file_entry_t :=
  mk_file (path p) (bnr_desc (banner_at c o))
    (extra_of (info_of (take HEADER_SIZE c) (be32 c (Z.to_nat o)) o)) true n FILE_GAME None.
Definition other_entry (n : nat) (p : gm_path_entry_t) : gm_file_entry_t :=
  mk_file (path p) (other_texts (base_name (cstr (path p))) (path_type p)) no_extra false n (path_type p) None.

(** The entry a listed path gets, allocation [n]. *)
Definition entry_of (n : nat) (p : gm_path_entry_t) : option gm_file_entry_t :=
  match path_type p with
  | FILE_GAME =>
      match game_at (cstr (path p)) with Some (c, o) => Some (game_entry n p c o) | None => None end
  | FILE_UNKNOWN => None
  | _ => Some (other_entry n p)
  end.
Fixpoint entries_of (n : nat) (ps : list gm_path_entry_t) : list gm_file_entry_t :=
  match ps with
  | [] => []
  | p :: ps =>
      match entry_of n p with
      | Some e => e :: entries_of (S n) ps
      | None => entries_of n ps
      end
  end.

(** The picture of an entry. *)
Definition picture (e : gm_file_entry_t) : list Z :=
  match game_at (cstr (f_path e)) with Some (c, o) => pixelData (banner_at c o) | None => [] end.

Lemma game_at_Some path c o : game_at path = Some (c, o) <-> files path = Some c /\ banner_place c = Some o.
Proof.
  unfold game_at. split; [|by intros [-> ->]].
  destruct (files path) as [d|]; [|done]. destruct (banner_place d) as [r|] eqn:E; [|done].
  intros [= <- <-]. done.
Qed.
Lemma game_at_None path : game_at path = None <-> match files path with Some c => banner_place c = None | None => True end.
Proof. unfold game_at. destruct (files path) as [d|]; [|done]. by destruct (banner_place d). Qed.

Lemma entry_of_asset n p e : entry_of n p = Some e -> f_asset e = n.
Proof.
  unfold entry_of. destruct (path_type p); try done; try (by intros [= <-]).
  destruct (game_at _) as [[c o]|]; [|done]. by intros [= <-].
Qed.
End Spec.

(** The paths looked into before the mutex is found taken. *)
Fixpoint until (locked : nat -> bool) (i : nat) (ps : list gm_path_entry_t) : list gm_path_entry_t :=
  match ps with
  | [] => []
  | p :: ps => if locked i then [] else p :: until locked (S i) ps
  end.

(** ** Places in ARAM *)

Definition space (e : gm_file_entry_t) : Z := if is_game e then 8192 else 2048.
Fixpoint space_all (es : list gm_file_entry_t) : Z :=
  match es with [] => 0 | e :: es => space e + space_all es end.
Definition place_of (es : list gm_file_entry_t) (i : nat) : Z := ARAM_START + space_all (take i es).

(** Below the ring of the banner cache. *)
Definition RING_BOTTOM : Z := BnrCache.ARAM_SIZE - Z.of_nat BnrCache.BNR_SIZE * Z.of_nat BnrCache.BNR_CACHE_SIZE.

Lemma space_bounds e : 2048 <= space e <= 8192.
Proof. unfold space. destruct (is_game e); lia. Qed.
Lemma space_all_app es es' : space_all (es ++ es') = space_all es + space_all es'.
Proof. induction es as [|e es IH]; cbn; lia. Qed.
Lemma space_all_nonneg es : 0 <= space_all es.
Proof. induction es as [|e es IH]; cbn; [lia|]. pose proof (space_bounds e). lia. Qed.
Lemma place_of_S es i e : es !! i = Some e -> place_of es (S i) = place_of es i + space e.
Proof.
  intros E. unfold place_of. rewrite (take_S_r _ _ _ E), space_all_app. cbn. lia.
Qed.
Lemma place_of_mono es i j : (i <= j)%nat -> place_of es i <= place_of es j.
Proof.
  intros Hij. unfold place_of. rewrite <- (take_drop i (take j es)), take_take, Nat.min_l by done.
  rewrite space_all_app. pose proof (space_all_nonneg (drop i (take j es))). lia.
Qed.
Lemma place_of_le es i e : es !! i = Some e -> place_of es i + space e <= ARAM_START + space_all es.
Proof.
  intros E. rewrite <- (place_of_S _ _ _ E). unfold place_of.
  rewrite <- (take_drop (S i) es) at 2. rewrite space_all_app.
  pose proof (space_all_nonneg (drop (S i) es)). lia.
Qed.
Lemma place_of_disjoint es i j e : es !! i = Some e -> (i < j)%nat -> place_of es i + space e <= place_of es j.
Proof. intros E Hij. rewrite <- (place_of_S _ _ _ E). by apply place_of_mono. Qed.

Lemma entries_shape files n ps i e :
  entries_of files n ps !! i = Some e -> f_asset e = (n + i)%nat /\ exists p, p ∈ ps /\ entry_of files (n + i) p = Some e.
Proof.
  revert n i. induction ps as [|p ps IH]; intros n i; [done|]. cbn [entries_of].
  destruct (entry_of files n p) as [e'|] eqn:E.
  - destruct i as [|i].
    + intros [= ->]. rewrite Nat.add_0_r. split; [by eapply entry_of_asset|]. exists p. split; [left|done].
    + intros Ei. destruct (IH (S n) i Ei) as (Ha & q & Hq & Eq). rewrite <- Nat.add_succ_comm.
      split; [done|]. exists q. split; [by right|done].
  - intros Ei. destruct (IH n i Ei) as (Ha & q & Hq & Eq). split; [done|]. exists q. split; [by right|done].
Qed.
