(* ===== verification/GmEnumThms.v ===== *)
(** Filling the game list: every valid game of the directory is listed with its
    own title, disc data and picture, and the pictures keep out of each other's
    and the banner cache's way. *)

From Stdlib Require Import String.
From S2P Require Import Prelude CStr Di FlippyEmu GmPaths GmPathsThms GmAssets GmAssetsThms Crc BnrOffsets DiscInfo DiscInfoThms GmEnum GmEnumAssets GmEnumCard GmEnumSpec.
From S2P Require BnrCache.
#[local] Open Scope prog_scope.

(** ** Pictures and places *)

Section Places.
Variable files : list Z -> option (list Z).
Variable es : list gm_file_entry_t.
Variable n0 : nat.

Definition nth_entry (k : nat) : option gm_file_entry_t := if decide (n0 <= k)%nat then es !! (k - n0)%nat else None.

Definition art (id : asset_id) : list Z :=
  resize (plen id) 0 (default [] (picture files <$> nth_entry id.2)).
(** Somewhere out of ARAM, for assets that are never sent there. *)
Definition away (id : asset_id) : Z :=
  - (8192 * (2 * Z.of_nat id.2 + match id.1 with Icon => 1 | Banner => 2 end)).
Definition place (id : asset_id) : Z :=
  match nth_entry id.2 with
  | Some e =>
      if is_game e then place_of es (id.2 - n0) + match id.1 with Banner => 0 | Icon => 6144 end
      else match id.1 with Icon => place_of es (id.2 - n0) | Banner => away id end
  | None => away id
  end.

Lemma art_len id : length (art id) = plen id.
Proof. apply length_resize. Qed.

Lemma plen_Z id : Z.of_nat (plen id) = match id.1 with Icon => 2048 | Banner => 6144 end.
Proof. by destruct id as [[] i]. Qed.

Lemma place_cases id :
  place id = away id \/
  exists i e, id.2 = (n0 + i)%nat /\ es !! i = Some e /\ (is_game e = true \/ id.1 = Icon) /\
    place id = place_of es i + (if is_game e then match id.1 with Banner => 0 | Icon => 6144 end else 0).
Proof.
  unfold place, nth_entry. case_decide as Hn; [|by left].
  destruct (es !! (id.2 - n0)%nat) as [e|] eqn:E; [|by left].
  destruct (is_game e) eqn:Eg; [|destruct id.1 eqn:Ek; [|by left]];
    right; exists (id.2 - n0)%nat, e; rewrite ?Eg; (split; [lia|]); (split; [done|]);
    (split; [by auto|lia]).
Qed.

Lemma place_bounds i e (k : kind) :
  es !! i = Some e -> is_game e = true \/ k = Icon ->
  let o := place_of es i + (if is_game e then match k with Banner => 0 | Icon => 6144 end else 0) in
  place_of es i <= o /\ o + Z.of_nat (pixeldata_len k) <= place_of es i + space e.
Proof.
  intros E Hk. unfold space. destruct (is_game e), k; try (destruct Hk; done); cbn; lia.
Qed.

Lemma place_of_pos i : ARAM_START <= place_of es i.
Proof. unfold place_of. pose proof (space_all_nonneg (take i es)). lia. Qed.

Lemma places id id' : id <> id' ->
  place id + Z.of_nat (plen id) <= place id' \/ place id' + Z.of_nat (plen id') <= place id.
Proof.
  intros Hne.
  assert (Haway : forall d, away d + Z.of_nat (plen d) <= 0)
    by (intros d; rewrite plen_Z; unfold away; destruct d.1; lia).
  assert (Hpos : 0 <= ARAM_START) by done.
  destruct (place_cases id) as [E1|(i & e & Ei & Hi & Hk & E1)], (place_cases id') as [E2|(j & e' & Ej & Hj & Hk' & E2)];
    rewrite E1, E2.
  - rewrite !plen_Z. unfold away. destruct id as [k a], id' as [k' b]. cbn [fst snd].
    destruct (decide (a = b)) as [->|]; [destruct k, k'; try done; lia|destruct k, k'; lia].
  - left. specialize (Haway id). pose proof (place_of_pos j). destruct (place_bounds j e' id'.1 Hj Hk'). lia.
  - right. specialize (Haway id'). pose proof (place_of_pos i). destruct (place_bounds i e id.1 Hi Hk). lia.
  - destruct (place_bounds i e id.1 Hi Hk) as [B1 B2], (place_bounds j e' id'.1 Hj Hk') as [B3 B4].
    fold (plen id) in B2. fold (plen id') in B4.
    destruct (Nat.lt_total i j) as [Hij|[<-|Hij]].
    + left. pose proof (place_of_disjoint es i j e Hi Hij). lia.
    + rewrite Hi in Hj. injection Hj as <-. rewrite !plen_Z.
      destruct id as [k a], id' as [k' b]. cbn [fst snd] in *. subst a b.
      destruct (is_game e), k, k'; try done; try lia; destruct Hk, Hk'; done.
    + right. pose proof (place_of_disjoint es j i e' Hj Hij). lia.
Qed.

Lemma place_game i e : es !! i = Some e -> is_game e = true -> place (Banner, (n0 + i)%nat) = place_of es i.
Proof.
  intros E Eg. unfold place, nth_entry. cbn [fst snd]. rewrite decide_True by lia.
  replace (n0 + i - n0)%nat with i by lia. rewrite E, Eg. lia.
Qed.
Lemma art_game i e :
  es !! i = Some e -> length (picture files e) = BNR_PIXELDATA_LEN -> art (Banner, (n0 + i)%nat) = picture files e.
Proof.
  intros E Hl. unfold art, nth_entry. cbn [fst snd]. rewrite decide_True by lia.
  replace (n0 + i - n0)%nat with i by lia. rewrite E. cbn [fmap option_fmap option_map default].
  apply resize_all_alt. by rewrite Hl.
Qed.
End Places.

(** ** The entries that stay in memory *)

Definition unforced (top : Z) (n : nat) : nat :=
  length (filter (fun i => forced_out (Z.of_nat i) top = false) (seq 0 n)).

Lemma unforced_S top n : unforced top (S n) = (unforced top n + (if forced_out (Z.of_nat n) top then 0 else 1))%nat.
Proof.
  unfold unforced. rewrite seq_S, filter_app, length_app. cbn [plus]. rewrite filter_cons.
  destruct (forced_out _ _); [rewrite decide_False by done|rewrite decide_True by done]; done.
Qed.

(** Never more than the screen and the lines next to it. *)
Lemma unforced_le top n : Z.of_nat n <= 2 ^ 32 -> (unforced top n <= 49)%nat.
Proof.
  intros Hn. unfold unforced. set (l := filter _ _).
  rewrite <- (length_fmap (fun i => Z.to_nat (u32 (Z.of_nat i - top * ASSETS_PER_LINE))) l).
  change 49%nat with (length (seq 0 49)). apply submseteq_length, NoDup_submseteq.
  - apply NoDup_fmap_2_strong; [|apply NoDup_filter, NoDup_seq].
    intros i j Hi Hj E. apply list_elem_of_filter in Hi as [_ Hi], Hj as [_ Hj]. apply elem_of_seq in Hi, Hj.
    apply Z2Nat.inj in E; [|apply u32_range..]. unfold u32 in E. zdm.
  - intros k Hk. apply list_elem_of_fmap in Hk as (i & -> & Hi). apply list_elem_of_filter in Hi as [Hf _].
    unfold forced_out in Hf. apply elem_of_seq. pose proof (u32_range (Z.of_nat i - top * ASSETS_PER_LINE)).
    rewrite Z.gtb_ltb in Hf. apply Z.ltb_ge in Hf. change ASSETS_INITIAL_COUNT with 48 in Hf. lia.
Qed.

(** ** The banner cache beside the pictures *)

Lemma ring_slot i : (i < BnrCache.BNR_CACHE_SIZE)%nat ->
  RING_BOTTOM <= BnrCache.slot_offset i /\
  BnrCache.slot_offset i + Z.of_nat BnrCache.BNR_SIZE <= BnrCache.ARAM_SIZE.
Proof.
  intros Hi. unfold RING_BOTTOM, BnrCache.slot_offset. apply Nat2Z.inj_lt in Hi. revert Hi.
  pose proof (Nat2Z.is_nonneg BnrCache.BNR_SIZE). pose proof (Nat2Z.is_nonneg i).
  generalize dependent (Z.of_nat BnrCache.BNR_CACHE_SIZE). generalize dependent (Z.of_nat BnrCache.BNR_SIZE).
  generalize dependent (Z.of_nat i). clear. intros. split; nia.
Qed.

(** Its banners are in the ring: nothing outside matters. *)
Lemma cache_repr_aram t n m m' q :
  (forall a, RING_BOTTOM <= a < BnrCache.ARAM_SIZE -> m' a = m a) ->
  BnrCache.cache_repr (BnrCache.mk_bnr t n m) q -> BnrCache.cache_repr (BnrCache.mk_bnr t n m') q.
Proof.
  intros Hm [H1 H2 H3 H4 H5 H6]. split; try done. intros j e He. destruct (H5 j e He) as [Hs Hb]. split; [done|].
  rewrite <- Hb. unfold BnrCache.bnr_cache_load. apply list_fmap_ext. intros k x Hx.
  apply lookup_seq in Hx as [-> Hk]. apply Hm. cbn in Hs. apply lookup_lt_Some in Hs. cbn in H1. rewrite H1 in Hs.
  destruct (ring_slot _ Hs). cbn [BnrCache.bnr_cache_next_index] in *. lia.
Qed.

(** A put writes into the ring. *)
Lemma cache_put_outside t n m key b q a :
  BnrCache.cache_repr (BnrCache.mk_bnr t n m) q -> a < RING_BOTTOM \/ BnrCache.ARAM_SIZE <= a ->
  BnrCache.aram (BnrCache.bnr_cache_put key b (BnrCache.mk_bnr t n m)) a = m a.
Proof.
  intros R Ha. unfold BnrCache.bnr_cache_put. cbn [BnrCache.bnr_cache BnrCache.bnr_cache_next_index BnrCache.aram].
  destruct (BnrCache.bnr_find key t); [done|]. cbn [BnrCache.aram]. unfold BnrCache.bnr_cache_store.
  destruct (BnrCache.c_next _ _ R) as [Hn _]. cbn in Hn. destruct (ring_slot n Hn).
  destruct (_ && _) eqn:E; [|done]. apply andb_prop in E as [E1%Z.leb_le E2%Z.ltb_lt]. lia.
Qed.

Lemma elem_queue_put key b q e : e ∈ BnrCache.queue_put key b q -> e ∈ q \/ e = (key, b).
Proof.
  unfold BnrCache.queue_put. destruct (BnrCache.queue_find key q); [by left|].
  intros [He|He%list_elem_of_singleton]%elem_of_app; [|by right]. left. case_decide; [done|].
  by apply (subseteq_drop 1) in He.
Qed.

(** ** Where a banner can be *)

Lemma banner_place_ok c o : image_ok c -> banner_place c = Some o -> 0 < o /\ o mod 4 = 0.
Proof.
  intros Hc. unfold banner_place. set (fast := get_banner_offset_fast (take HEADER_SIZE c)).
  destruct (_ && _) eqn:E.
  - intros [= <-]. apply andb_prop in E as [E _]. destruct (Z.eqb_spec fast 0); [done|].
    destruct (fast_offset (take HEADER_SIZE c)); [done|]. by fold fast.
  - rewrite Z.gtb_ltb. destruct (Z.ltb_spec 0x100000 (FSTSize c)) as [|Hs]; [done|].
    destruct (im_fst _ Hc Hs) as (_ & _ & _ & Hj). destruct (banner_entry (fst_image c)) as [j|]; [|done].
    cbn [mbind option_bind]. destruct (Hj j eq_refl) as [Hal _].
    set (p := entry_position (fst_image c) j) in *. clear E. destruct (_ && _) eqn:E2; [|done]. intros [= <-].
    apply andb_prop in E2 as [E2 _]. destruct (Z.eqb_spec p 0); [done|].
    assert (0 <= p) by (apply be32_nonneg; unfold fst_image, slice; apply Forall_take, Forall_drop, Hc). lia.
Qed.

Lemma banner_at_length c o :
  0 <= o -> o + Z.of_nat BnrCache.BNR_SIZE <= Z.of_nat (length c) -> length (banner_at c o) = BnrCache.BNR_SIZE.
Proof. intros. apply length_slice. lia. Qed.

Lemma outcome_Some {W} `{GameReads W} c l o r (w : info_state W) :
  banner_place c = Some o -> outcome true c l r w ->
  exists fd, r = (info_of (take HEADER_SIZE c) (be32 c (Z.to_nat o)) o, fd) /\
    opened (game_dev w) = fd :: l /\ game_content fd (game_dev w) = c.
Proof. unfold outcome. intros ->. destruct r as [i fd]. intros [Ei [Ho Hc]]. cbn [fst] in Ei. subst i. by exists fd. Qed.
Lemma outcome_None {W} `{GameReads W} c l b r (w : info_state W) :
  banner_place c = None -> outcome b c l r w -> r = (no_info, -1) /\ opened (game_dev w) = l.
Proof. unfold outcome. by intros ->. Qed.

(** ** The list being filled *)

Section Fill.
Context {W : Type} `{GameCard W} `{!DirDevice W}.
Notation state := (enum_state W).
Variable files : list Z -> option (list Z).
Variable ps : list gm_path_entry_t.
Variable es : list gm_file_entry_t.
Variable n0 : nat.
Variable top : Z.
Variable open0 : list Z.
Notation art := (art files es n0).
Notation place := (place es n0).

(** The games of the directory: sound images with a whole banner. *)
Hypothesis images : forall p c, p ∈ ps -> path_type p = FILE_GAME -> files (cstr (path p)) = Some c -> image_ok c.
Hypothesis whole : forall p c o, p ∈ ps -> path_type p = FILE_GAME -> game_at files (cstr (path p)) = Some (c, o) ->
  o + Z.of_nat BnrCache.BNR_SIZE <= Z.of_nat (length c).
Hypothesis keys : forall p p', p ∈ ps -> p' ∈ ps ->
  gm_bnr_cache_key (path p) = gm_bnr_cache_key (path p') -> cstr (path p) = cstr (path p').
Hypothesis room : ARAM_START + space_all es <= RING_BOTTOM.
Hypothesis few : Z.of_nat (length es) < 2 ^ 32.

(** Cached banners of the directory's games are their own. *)
Definition own_banners (q : list (Z * list Z)) : Prop :=
  forall p c o b, p ∈ ps -> path_type p = FILE_GAME -> game_at files (cstr (path p)) = Some (c, o) ->
    (gm_bnr_cache_key (path p), b) ∈ q -> b = banner_at c o.
Definition cache_ok (t : list BnrCache.bnr_cache_entry) (n : nat) (m : Z -> Z) : Prop :=
  exists q, BnrCache.cache_repr (BnrCache.mk_bnr t n m) q /\ own_banners q /\
    Forall (fun e => length e.2 = BnrCache.BNR_SIZE) q.

(** The buffers with the first [m] entries done. *)
Record assets_ok (m : nat) (g : gm_world) : Prop := {
  a_inv : inv art place g;
  a_only : forall id, GmAssets.state (assets g id) <> NONE ->
    exists i e, (i < m)%nat /\ id = (Banner, (n0 + i)%nat) /\ es !! i = Some e /\ is_game e = true;
  a_all : forall i e, (i < m)%nat -> es !! i = Some e -> is_game e = true ->
    GmAssets.state (assets g (Banner, (n0 + i)%nat)) <> NONE;
  a_count : counted (unforced top m) g
}.

(** [fds] are the open descriptors. *)
Record settled (fds : list Z) (m : nat) (w : state) : Prop := {
  s_assets : assets_ok m (gm w);
  s_card : forall q, game_file q (e_dev w) = files q;
  s_open : opened (e_dev w) = fds;
  s_header : length (e_header w) = HEADER_SIZE;
  s_buffer : length (banner_buffer w) = BnrCache.BNR_SIZE;
  s_cache : cache_ok (bnr_table w) (bnr_next w) (GmAssets.aram (gm w));
  s_lists : forall i, (i < length ps)%nat -> listed (lists_of w) i = ps !! i
}.

Lemma requests_low m g r : assets_ok m g -> r ∈ queue g ->
  rq_aram r + Z.of_nat BNR_PIXELDATA_LEN <= RING_BOTTOM.
Proof.
  intros Ha Hr. pose proof (queued_not_none art place g r (a_inv _ _ Ha) Hr) as Hn.
  rewrite (req_place _ _ _ _ (inv_requests _ _ _ (a_inv _ _ Ha) r Hr)).
  destruct (a_only _ _ Ha _ Hn) as (i & e & _ & -> & He & Hg). rewrite (place_game es n0 i e He Hg).
  pose proof (place_of_le es i e He). unfold space in *. rewrite Hg in *.
  change (Z.of_nat BNR_PIXELDATA_LEN) with 6144. lia.
Qed.

Lemma asset_low m g id : assets_ok m g -> GmAssets.state (assets g id) <> NONE ->
  place id + Z.of_nat (plen id) <= RING_BOTTOM.
Proof.
  intros Ha Hn. destruct (a_only _ _ Ha _ Hn) as (i & e & _ & -> & He & Hg). rewrite (place_game es n0 i e He Hg).
  pose proof (place_of_le es i e He). unfold space in *. rewrite Hg in *. rewrite plen_Z. cbn [fst]. lia.
Qed.

(** The queue working leaves everything in order. *)
Lemma progress_ok lag fds m (w : state) Q :
  settled fds m w ->
  (forall g, settled fds m (set_gm g w) -> (length (queue g) <= lag)%nat -> progressed (gm w) g -> Q tt (set_gm g w)) ->
  wp (on_gm (arq_progress lag)) Q w.
Proof.
  intros Hs HQ. apply wp_zoom.
  destruct (arq_progress_ok art place (art_len files es n0) (places es n0) lag (gm w)) as (g & E & Hi & Hp & Hl);
    [apply Hs|].
  unfold wp. rewrite E. apply HQ; [|done|done]. destruct Hs as [Ha ? ? ? ? Hc ?]. split; try done.
  - destruct Ha as [H1' H2' H3' H4']. split; [done| | |by apply (pr_counted _ _ Hp)].
    + intros id Hn. apply H2'. by rewrite <- (pr_none _ _ Hp).
    + intros i e Hi' He Hg. rewrite (pr_none _ _ Hp). by eapply H3'.
  - destruct Hc as (q & R & Ho & Hf). exists q. split; [|done]. cbn.
    eapply cache_repr_aram; [|exact R]. intros a Hr. apply (pr_aram _ _ Hp RING_BOTTOM BnrCache.ARAM_SIZE); [|done].
    intros r Hr'. left. by eapply requests_low.
Qed.

(** A cache hit is the game's own banner. *)
Lemma cache_get_ok fds m p c o (w : state) Q :
  settled fds m w -> p ∈ ps -> path_type p = FILE_GAME -> game_at files (cstr (path p)) = Some (c, o) ->
  (settled fds m (set_banner_buffer (banner_at c o) w) -> Q true (set_banner_buffer (banner_at c o) w)) -> Q false w ->
  wp (cache_get (gm_bnr_cache_key (path p))) Q w.
Proof.
  intros Hs Hp Ht Hc HQt HQf. unfold wp, cache_get. destruct (s_cache _ _ _ Hs) as (q & R & Hown & Hf).
  unfold bnr_view. rewrite (BnrCache.find_agrees _ _ _ R).
  destruct (BnrCache.queue_find _ q) as [b|] eqn:E; [|exact HQf].
  apply BnrCache.queue_find_Some in E; [|by apply R].
  assert (length b = BnrCache.BNR_SIZE) by (rewrite Forall_forall in Hf; by apply (Hf _ E)).
  rewrite (Hown p c o b Hp Ht Hc E) in *. apply HQt. destruct Hs. split; done.
Qed.

(** What is put in the cache is the game's own banner. *)
Lemma cache_put_ok fds m p c o (w : state) Q :
  settled fds m w -> p ∈ ps -> path_type p = FILE_GAME -> game_at files (cstr (path p)) = Some (c, o) ->
  banner_buffer w = banner_at c o ->
  (forall t n a, settled fds m (set_bnr t n a w) -> Q tt (set_bnr t n a w)) ->
  wp (cache_put (gm_bnr_cache_key (path p))) Q w.
Proof.
  intros Hs Hp Ht Hc Eb HQ. apply wp_modify, HQ. destruct Hs as [Ha ? ? ? Hb (q & R & Hown & Hf) ?].
  set (v := BnrCache.bnr_cache_put _ _ _). split; try done.
  - destruct Ha as [Hi H2' H3' [H4' H5']]. split; [|done|done|by split].
    apply (inv_aram_outside art place RING_BOTTOM BnrCache.ARAM_SIZE); [done| |].
    + intros id Hn. left. eapply asset_low; [by split|done].
    + intros a Hout. unfold v, bnr_view. by eapply cache_put_outside.
  - exists (BnrCache.queue_put (gm_bnr_cache_key (path p)) (banner_buffer w) q). cbn [bnr_table bnr_next gm set_bnr set_aram_mem].
    split; [|split].
    + pose proof (BnrCache.put_agrees _ _ (gm_bnr_cache_key (path p)) _ R Hb) as R'. change (BnrCache.cache_repr v (BnrCache.queue_put (gm_bnr_cache_key (path p)) (banner_buffer w) q)) in R'.
      clearbody v. by destruct v.
    + intros p' c' o' b Hp' Ht' Hc' [Hin|[= Ek Ebb]]%elem_queue_put; [by eapply Hown|].
      rewrite (keys p' p Hp' Hp Ek) in Hc'. rewrite Hc in Hc'. injection Hc' as <- <-. by rewrite Ebb, Eb.
    + apply Forall_forall. intros e [Hin | ->]%elem_queue_put; [|done]. rewrite Forall_forall in Hf. by apply Hf.
Qed.

(** Closing the descriptor opened last. *)
Lemma close_game_ok fd fds m (w : state) Q :
  settled (fd :: fds) m w -> (forall d, settled fds m (set_e_dev d w) -> Q tt (set_e_dev d w)) ->
  wp (on_card (game_close fd)) Q w.
Proof.
  intros Hs HQ. apply wp_zoom.
  pose proof (wp_keeps same_card _ _ _ (keeps_close fd) (game_close_ok fd fds (e_dev w) (s_open _ _ _ Hs))) as Hc.
  eapply wp_mono; [exact Hc|]. intros [] d [Eo Ec]. apply HQ. destruct Hs. split; try done.
  intros q. cbn. by rewrite Ec.
Qed.

(** Reading a banner and closing the file. *)
Lemma read_banner_ok fd fds m c o (w : state) Q :
  settled (fd :: fds) m w -> game_content fd (e_dev w) = c -> 0 <= o -> o mod 4 = 0 ->
  o + Z.of_nat BnrCache.BNR_SIZE <= Z.of_nat (length c) ->
  (forall d (v := set_e_dev d (set_banner_buffer (banner_at c o) w)), settled fds m v -> Q tt v) ->
  wp (read_banner o fd) Q w.
Proof.
  intros Hs Ec Hnn Hal Hl HQ. apply wp_bind, wp_get, wp_bind, wp_zoom.
  assert (Hin : fd ∈ opened (e_dev w)) by (rewrite (s_open _ _ _ Hs); left).
  pose proof (game_read_ok (banner_buffer w) (Z.of_nat BnrCache.BNR_SIZE) o fd (e_dev w) Hin Hnn Hal (Zle_0_nat _) eq_refl) as Hr.
  apply wp_elim in Hr as ([r b] & d & Er & Eo & _ & Eb). unfold wp at 1. rewrite Er. cbv beta iota.
  apply wp_bind, wp_modify. cbn [snd] in Eb. rewrite Ec, Nat2Z.id in Eb. fold (banner_at c o) in Eb.
  pose proof (banner_at_length c o Hnn Hl) as Hbl.
  assert (b = banner_at c o) as ->.
  { rewrite Eb. unfold splice. rewrite take_0, app_nil_l, drop_ge; [by rewrite app_nil_r|].
    rewrite (s_buffer _ _ _ Hs). lia. }
  apply (close_game_ok fd fds m); [|intros d' Hs'; by apply (HQ d')].
  destruct Hs. split; try done; [|cbn; by rewrite Eo].
  intros q. cbn. destruct (card_read _ _ _ _ _ _ _ _ q Er) as [_ ->]. done.
Qed.

(** Staging the picture of entry [m]. *)
Lemma stage_banner_ok fds m e (w : state) Q :
  settled fds m w -> es !! m = Some e -> is_game e = true ->
  length (picture files e) = BNR_PIXELDATA_LEN -> (length (queue (gm w)) <= 78)%nat ->
  (forall g, settled fds (S m) (set_gm g w) -> Q true (set_gm g w)) ->
  wp (on_gm (gm_stage_banner (n0 + m) (picture files e) (place_of es m) (forced_out (Z.of_nat m) top))) Q w.
Proof.
  intros Hs He Hg Hpic Hq HQ. apply wp_zoom. destruct (s_assets _ _ _ Hs) as [Hi Honly Hall Hc].
  rewrite <- (place_game es n0 m e He Hg), <- (art_game files es n0 m e He Hpic).
  assert (Hn : GmAssets.state (assets (gm w) (Banner, (n0 + m)%nat)) = NONE).
  { destruct (decide (GmAssets.state (assets (gm w) (Banner, (n0 + m)%nat)) = NONE)) as [|Hn]; [done|].
    destruct (Honly _ Hn) as (i & e' & Hlt & [= Heq] & _). lia. }
  pose proof (lookup_lt_Some _ _ _ He) as Hm. pose proof (unforced_le top m ltac:(lia)).
  destruct (stage_ok art place (art_len files es n0) (places es n0) (n0 + m) (unforced top m)
              (forced_out (Z.of_nat m) top) (gm w)) as (g & Hrun & [Si Sc Soth Sown (r & Sq & Sr) Sa]); try done.
  { by eapply none_not_queued. }
  { change ASSET_BUFFER_COUNT with 128%nat. lia. }
  unfold wp. unfold gm_stage_banner. rewrite Hrun. apply HQ. destruct Hs. split; try done.
  - split; [done| | |].
    + intros id Hne. destruct (decide (id = (Banner, (n0 + m)%nat))) as [->|Hd].
      * exists m, e. split_and!; [lia|done..].
      * cbn in Hne. rewrite Soth in Hne by done. destruct (Honly _ Hne) as (i & e' & ? & ?). exists i, e'. split; [lia|done].
    + intros i e' Hlt He' Hg'. destruct (decide (i = m)) as [->|Hd]; [done|]. cbn. rewrite Soth by (intros [=]; lia).
      apply (Hall i e'); [lia|done..].
    + rewrite unforced_S. cbn [gm set_gm]. destruct (forced_out (Z.of_nat m) top).
      * by rewrite Nat.add_0_r.
      * by rewrite Nat.add_1_r.
  - cbn. by rewrite Sa.
Qed.

(** Where the banner of a listed game is, and its picture. *)
Lemma game_at_ok p c o :
  p ∈ ps -> path_type p = FILE_GAME -> game_at files (cstr (path p)) = Some (c, o) ->
  0 < o /\ o mod 4 = 0 /\ o + Z.of_nat BnrCache.BNR_SIZE <= Z.of_nat (length c) /\
  length (pixelData (banner_at c o)) = BNR_PIXELDATA_LEN.
Proof.
  intros Hp Ht Hg. pose proof (whole p c o Hp Ht Hg) as Hl. apply game_at_Some in Hg as [Hc Ho].
  destruct (banner_place_ok c o (images p c Hp Ht Hc) Ho) as [Hpos Hal]. split_and!; [done|done|done|].
  apply length_slice. rewrite banner_at_length by lia. apply Nat.leb_le. vm_compute. reflexivity.
Qed.

(** The banner of a game whose file is open. *)
Lemma gm_load_banner_ok lag fd fds m p c o e e' (w : state) Q :
  settled (fd :: fds) m w -> p ∈ ps -> path_type p = FILE_GAME -> game_at files (cstr (path p)) = Some (c, o) -> game_content fd (e_dev w) = c ->
  f_path e = path p -> f_asset e = (n0 + m)%nat -> dvd_bnr_offset (extra e) = o ->
  es !! m = Some e' -> is_game e' = true -> picture files e' = pixelData (banner_at c o) -> (lag <= 78)%nat ->
  (forall w', settled fds (S m) w' -> gm_entry_backing w' = gm_entry_backing w -> next_id w' = next_id w ->
     Q (true, set_desc (bnr_desc (banner_at c o)) e) w') ->
  wp (gm_load_banner lag e (place_of es m) (forced_out (Z.of_nat m) top) fd) Q w.
Proof.
  intros Hs Hp Ht Hc Hcont Epath Easset Eoff He' Hg' Epic Hlag HQ. unfold gm_load_banner. rewrite Eoff, Epath, Easset.
  destruct (game_at_ok p c o Hp Ht Hc) as (Hpos & Hal & Hl & Hpix).
  assert (Hfd : 0 <= fd) by (apply (card_fd (e_dev w)); rewrite (s_open _ _ _ Hs); left).
  rewrite (proj2 (Z.eqb_neq o 0)) by lia.
  assert (Hfinish : forall v : state, settled fds m v -> banner_buffer v = banner_at c o ->
    gm_entry_backing v = gm_entry_backing w -> next_id v = next_id w ->
    wp (on_gm (arq_progress lag) ;; w <- get ;;
        ok <- on_gm (gm_stage_banner (n0 + m) (pixelData (banner_buffer w)) (place_of es m) (forced_out (Z.of_nat m) top)) ;;
        if ok : bool then ret (true, set_desc (bnr_desc (banner_buffer w)) e) else ret (false, e)) Q v).
  { intros v Hv Eb E1 E2. apply wp_bind, (progress_ok lag fds m); [done|]. intros g Hsg Hlen _.
    apply wp_bind, wp_get, wp_bind. cbn [banner_buffer set_gm]. rewrite Eb, <- Epic.
    apply (stage_banner_ok fds m e'); [done|done|done|by rewrite Epic|cbn; lia|].
    intros g' Hs'. apply wp_ret. by apply HQ. }
  rewrite Z.geb_leb, (proj2 (Z.leb_le _ _)), (proj2 (Z.ltb_ge _ _)) by done.
  apply wp_bind, (cache_get_ok (fd :: fds) m p c o); try done.
  - intros Hs1. apply wp_bind, (close_game_ok fd fds m); [done|]. intros d Hs2. by apply Hfinish.
  - apply wp_bind, wp_ret, wp_bind, (read_banner_ok fd fds m c o); [done|done|lia|done|done|].
    intros d v Hv. apply wp_bind, (cache_put_ok fds m p c o); try done. intros t n a Hs3. by apply Hfinish.
Qed.

(** ** One path *)

(** A program's or directory's path has a slash and fits its buffer. *)
Hypothesis others : forall p, p ∈ ps -> path_type p = FILE_PROGRAM \/ path_type p = FILE_DIRECTORY ->
  chr_slash ∈ cstr (path p) /\ (length (path p) <= PATH_SIZE)%nat.

Record filling (m : nat) (w : state) : Prop := {
  fl_settled : settled open0 m w;
  fl_backing : gm_entry_backing w = take m es;
  fl_next : next_id w = (n0 + m)%nat
}.

Lemma new_entry_ok fds m p t (w : state) Q :
  settled fds m w -> next_id w = (n0 + m)%nat ->
  (forall g (v := set_next_id (n0 + S m) (set_gm g w)), settled fds m v ->
     Q (mk_file (path p) (replicate DESC_SIZE 0) no_extra false (n0 + m) t None) v) ->
  wp (gm_new_entry p t) Q w.
Proof.
  intros Hs En HQ. apply wp_bind, wp_get. rewrite En.
  assert (Hchange : forall k (v : state) Q', settled fds m v -> (forall g, settled fds m (set_gm g v) -> Q' tt (set_gm g v)) ->
    wp (on_gm (change (k, (n0 + m)%nat) (fun _ => no_asset))) Q' v).
  { intros k v Q' Hv HQ'. apply HQ'. destruct Hv as [[Hi Honly Hall Hc] ? ? ? ? ? ?]. split; try done.
    assert (Hn : GmAssets.state (assets (gm v) (k, (n0 + m)%nat)) = NONE).
    { destruct (decide (GmAssets.state (assets (gm v) (k, (n0 + m)%nat)) = NONE)) as [|Hn]; [done|].
      destruct (Honly _ Hn) as (i & e' & Hlt & [= _ Heq] & _). lia. }
    split.
    - apply inv_new; [done|done|by eapply none_not_queued].
    - intros id. cbn. destruct (decide (id = (k, (n0 + m)%nat))) as [->|Hd]; [by rewrite upd_eq|].
      rewrite upd_ne by done. apply Honly.
    - intros i e Hlt He Hg. cbn. rewrite upd_ne; [by eapply Hall|]. intros [=]. lia.
    - destruct Hc. by split. }
  apply wp_bind, (Hchange Icon); [done|]. intros g Hs1. apply wp_bind, (Hchange Banner); [done|]. intros g' Hs2.
  apply wp_bind, wp_modify, wp_ret. rewrite <- Nat.add_succ_r. apply (HQ g').
  destruct Hs2. by split.
Qed.

#[local] Opaque get_game_info gm_load_banner gm_new_entry.
(** Reading what a path's file says of itself. *)
Lemma on_info_ok m p (w : state) Q :
  filling m w -> p ∈ ps -> path_type p = FILE_GAME ->
  (forall s (v := set_info s w), settled open0 m v ->
     game_at files (cstr (path p)) = None -> Q (no_info, -1) v) ->
  (forall s (v := set_info s w) c o fd, settled (fd :: open0) m v -> game_at files (cstr (path p)) = Some (c, o) ->
     game_content fd (e_dev v) = c -> Q (info_of (take HEADER_SIZE c) (be32 c (Z.to_nat o)) o, fd) v) ->
  wp (on_info (get_game_info (cstr (path p)) true)) Q w.
Proof.
  intros [Hs _ _] Hp Ht HQno HQyes. apply wp_zoom.
  assert (Hkeep : forall fds (s : info_state W), same_info (info_state_of w) s -> opened (game_dev s) = fds ->
    settled fds m (set_info s w)).
  { intros fds s [Hc Hh] Ho. destruct Hs. split; try done.
    - intros q. rewrite <- s_card0. apply Hc.
    - by apply Hh. }
  destruct (files (cstr (path p))) as [c|] eqn:Ef.
  - pose proof (images p c Hp Ht Ef) as Him.
    assert (Hf : game_file (cstr (path p)) (game_dev (info_state_of w)) = Some c) by (rewrite (s_card _ _ _ Hs); done).
    eapply wp_mono; [apply (wp_keeps same_info _ _ _ (keeps_get_game_info _ _)
      (get_game_info_ok (cstr (path p)) c true (info_state_of w) Hf Him (s_header _ _ _ Hs)))|].
    intros r s [Hout Hsame]. destruct (banner_place c) as [o|] eqn:Eo.
    + destruct (outcome_Some _ _ _ _ _ Eo Hout) as (fd & -> & Hopen & Hcont).
      apply (HQyes s c o fd); [|by apply game_at_Some|done]. apply Hkeep; [done|]. rewrite Hopen. f_equal. apply Hs.
    + destruct (outcome_None _ _ _ _ _ Eo Hout) as [-> Hopen].
      apply HQno; [|by apply game_at_None; rewrite Ef]. apply Hkeep; [done|]. rewrite Hopen. apply Hs.
  - assert (Hf : game_file (cstr (path p)) (game_dev (info_state_of w)) = None) by (rewrite (s_card _ _ _ Hs); done).
    eapply wp_mono; [apply (wp_keeps same_info _ _ _ (keeps_get_game_info _ _) (get_game_info_missing _ true _ Hf))|].
    intros r s [[-> Ho] Hsame]. apply HQno; [|by apply game_at_None; rewrite Ef].
    apply Hkeep; [done|]. rewrite Ho. apply Hs.
Qed.

Lemma game_space : Z.of_nat BNR_PIXELDATA_LEN + Z.of_nat ICON_PIXELDATA_LEN = 8192.
Proof. vm_compute. reflexivity. Qed.

Lemma add_entry_ok m e (w : state) :
  settled open0 (S m) w -> gm_entry_backing w = take m es -> next_id w = (n0 + S m)%nat -> es !! m = Some e ->
  filling (S m) (set_backing (gm_entry_backing w ++ [e]) w).
Proof.
  intros Hs Hb Hn He. split; cbn [gm_entry_backing set_backing next_id].
  - destruct Hs. by split.
  - rewrite Hb. symmetry. by apply take_S_r.
  - done.
Qed.

Lemma game_entry_ok lag m p c o fd (w : state) Q :
  settled (fd :: open0) m w -> gm_entry_backing w = take m es -> next_id w = (n0 + m)%nat ->
  p ∈ ps -> path_type p = FILE_GAME -> (lag <= 78)%nat ->
  game_at files (cstr (path p)) = Some (c, o) -> game_content fd (e_dev w) = c ->
  es !! m = Some (game_entry (n0 + m) p c o) ->
  (forall v, filling (S m) v -> Q (Some 8192) v) ->
  wp (backing <- gm_new_entry p FILE_GAME ;;
      '(_, backing) <- gm_load_banner lag
        (set_extra (extra_of (info_of (take HEADER_SIZE c) (be32 c (Z.to_nat o)) o)) backing)
        (place_of es m) (forced_out (Z.of_nat m) top) fd ;;
      gm_add_entry (set_use_banner true backing) ;;
      ret (Some (Z.of_nat BNR_PIXELDATA_LEN + Z.of_nat ICON_PIXELDATA_LEN))) Q w.
Proof.
  intros Hs Hb Hn Hp Ht Hlag Hc Hcont He HQ.
  apply wp_bind, (new_entry_ok (fd :: open0) m); [done|done|]. intros g v2 Hv2.
  assert (Hpic : picture files (game_entry (n0 + m) p c o) = pixelData (banner_at c o)).
  { unfold picture. cbn [f_path game_entry]. by rewrite Hc. }
  apply wp_bind, (gm_load_banner_ok lag fd open0 m p c o _ (game_entry (n0 + m) p c o)); try done.
  intros v3 Hv3 Eb En. apply wp_bind, wp_modify, wp_ret. rewrite game_space. apply HQ.
  apply (add_entry_ok m (game_entry (n0 + m) p c o)); [done| |by rewrite En|done]. by rewrite Eb.
Qed.

Lemma check_game_ok lag m p (w : state) Q :
  filling m w -> p ∈ ps -> path_type p = FILE_GAME -> (lag <= 78)%nat ->
  (forall v, filling m v -> entry_of files (n0 + m) p = None -> Q None v) ->
  (entry_of files (n0 + m) p <> None -> es !! m = entry_of files (n0 + m) p) ->
  (forall v e, filling (S m) v -> entry_of files (n0 + m) p = Some e -> es !! m = Some e -> Q (Some (space e)) v) ->
  wp (check_game lag p (place_of es m) (forced_out (Z.of_nat m) top)) Q w.
Proof.
  intros Hf Hp Ht Hlag HQno Hes HQyes.
  assert (Ee : entry_of files (n0 + m) p = match game_at files (cstr (path p)) with
    Some (c, o) => Some (game_entry (n0 + m) p c o) | None => None end) by (unfold entry_of; by rewrite Ht).
  unfold check_game. apply wp_bind, (on_info_ok m); try done.
  - intros s v Hv Hfile. rewrite Hfile in Ee. apply wp_ret, HQno; [|done]. destruct Hf. by split.
  - intros s v c o fd Hv Hc Hcont. rewrite Hc in Ee. rewrite Ee in *.
    apply (game_entry_ok lag m p c o fd); try done; [apply Hf|apply Hf|by apply Hes|]. intros v' Hv'.
    by apply (HQyes v' (game_entry (n0 + m) p c o)); [|done|apply Hes].
Qed.

Lemma base_name_spec s : chr_slash ∈ s -> exists a, s = a ++ chr_slash :: base_name s /\ chr_slash ∉ base_name s.
Proof.
  induction s as [|c s IH]; [by intros ?%elem_of_nil|]. intros Hin. cbn [base_name]. case_decide as Hd.
  - destruct (IH Hd) as (a & E & Hn). exists (c :: a). split; [|done]. by rewrite E at 1.
  - apply elem_of_cons in Hin as [<-|]; [|done]. rewrite Z.eqb_refl. by exists [].
Qed.

Lemma check_other_ok m p (w : state) Q :
  filling m w -> p ∈ ps -> path_type p = FILE_PROGRAM \/ path_type p = FILE_DIRECTORY ->
  es !! m = entry_of files (n0 + m) p ->
  (forall v e, filling (S m) v -> entry_of files (n0 + m) p = Some e -> es !! m = Some e -> Q (Some (space e)) v) ->
  wp (check_other p) Q w.
Proof.
  intros Hf Hp Ht Hes HQ. destruct (others p Hp Ht) as [Hslash Hlen].
  destruct (base_name_spec _ Hslash) as (a & Epath & Hno).
  assert (Hbase : (length (base_name (cstr (path p))) < 128)%nat).
  { pose proof (length_cstr (path p)) as Hl. rewrite Epath, length_app in Hl at 1. cbn [length] in Hl.
    unfold PATH_SIZE in Hlen. lia. }
  set (e := other_entry (n0 + m) p).
  assert (Ee : entry_of files (n0 + m) p = Some e) by (unfold entry_of; by destruct Ht as [E|E]; rewrite E).
  assert (Hng : is_game e = false) by (unfold is_game; cbn; by destruct Ht as [E|E]; rewrite E).
  set (base := base_name (cstr (path p))) in *.
  apply wp_bind, (new_entry_ok open0 m); [apply Hf|apply (fl_next _ _ Hf)|]. intros g v Hv.
  apply wp_bind. rewrite Epath, strrchr_last by done. cbn [of_option]. unfold wp at 1. cbn [desc]. change (tail (chr_slash :: base)) with base.
  assert (Hfit : (FULL_NAME + length base < DESC_SIZE)%nat) by (unfold FULL_NAME, DESC_SIZE; lia).
  apply wp_bind. unfold strcpy_field at 1. rewrite length_replicate, decide_True by exact Hfit.
  unfold of_option at 1, wp at 1.
  assert (Hl1 : length (splice FULL_NAME (base ++ [0]) (replicate DESC_SIZE 0)) = DESC_SIZE).
  { rewrite length_splice; [apply length_replicate|]. rewrite length_app, length_replicate. unfold FULL_NAME, DESC_SIZE. cbn. lia. }
  assert (Et : (if bool_decide (path_type p = FILE_PROGRAM) then str "Homebrew Program" else str "Directory") = type_name (path_type p)).
  { unfold type_name. by destruct Ht as [E|E]; rewrite E. }
  assert (Hl2 : (length (type_name (path_type p)) <= 16)%nat) by (apply Nat.leb_le; by destruct Ht as [E|E]; rewrite E).
  apply wp_bind. rewrite Et. unfold strcpy_field at 1. cbv beta. change (tail (chr_slash :: base)) with base. rewrite Hl1, decide_True
    by (unfold DESCRIPTION, DESC_SIZE; lia). unfold of_option at 1, wp at 1.
  apply wp_bind, wp_modify, wp_ret.
  replace (Z.of_nat ICON_PIXELDATA_LEN) with (space e) by (unfold space; by rewrite Hng).
  apply HQ; [|done|by rewrite Hes]. rewrite Ee in Hes.
  split; cbn [gm_entry_backing set_backing next_id]; [|unfold v; cbn; rewrite (fl_backing _ _ Hf); symmetry; by apply take_S_r|done].
  destruct Hv as [[Hi Honly Hall Hc] ? ? ? ? ? ?]. split; try done. split; [done| | |].
  - intros id Hn. destruct (Honly id Hn) as (i & e' & ? & ?). exists i, e'. split; [lia|done].
  - intros i e' Hlt He Hg. destruct (decide (i = m)) as [->|]; [|apply (Hall i e'); [lia|done..]].
    rewrite Hes in He. injection He as <-. congruence.
  - rewrite unforced_S. destruct Hc as [? Hu]. split; [done|]. cbn in *. lia.
Qed.

(** ** The loop *)

Lemma set_counts_ok m a b (w : state) : filling m w -> filling m (set_counts a b w).
Proof. intros [[] ? ?]. by split. Qed.

(** One path: either it has no entry, or its entry is the next one. *)
Lemma check_entry_ok lag m p (w : state) Q :
  filling m w -> p ∈ ps -> (lag <= 78)%nat ->
  (entry_of files (n0 + m) p <> None -> es !! m = entry_of files (n0 + m) p) ->
  (forall v, filling m v -> entry_of files (n0 + m) p = None -> Q None v /\ Q (Some 0) v) ->
  (forall v e, filling (S m) v -> entry_of files (n0 + m) p = Some e -> es !! m = Some e -> Q (Some (space e)) v) ->
  wp (check_entry lag p (place_of es m) (forced_out (Z.of_nat m) top)) Q w.
Proof.
  intros Hf Hp Hlag Hes HQno HQyes. unfold check_entry. destruct (path_type p) eqn:Et.
  - apply wp_ret, HQno; [done|]. unfold entry_of. by rewrite Et.
  - apply (check_other_ok m); [done|done|by right| |done]. apply Hes. unfold entry_of. by rewrite Et.
  - apply (check_other_ok m); [done|done|by left| |done]. apply Hes. unfold entry_of. by rewrite Et.
  - apply (check_game_ok lag m); try done. intros v Hv En. by apply HQno.
Qed.

Lemma check_rounds_ok locked lag rounds i m (w : state) :
  (forall i, lag i <= 78)%nat -> (i + rounds = length ps)%nat -> (m <= length es)%nat -> filling m w ->
  drop m es = entries_of files (n0 + m) (until locked i (drop i ps)) ->
  wp (check_rounds locked lag top rounds i (place_of es m)) (fun _ w' => filling (length es) w') w.
Proof.
  intros Hlag. revert i m w. induction rounds as [|rounds IH]; intros i m w Hi Hm Hf Hes; cbn [check_rounds].
  - rewrite (drop_ge ps) in Hes by lia. cbn in Hes. apply wp_ret.
    assert (length (drop m es) = 0%nat) as Hl by (by rewrite Hes). rewrite length_drop in Hl.
    by replace (length es) with m by lia.
  - destruct (lookup_lt_is_Some_2 ps i) as [p Hp]; [lia|].
    apply wp_bind, wp_get, wp_bind. rewrite (s_lists _ _ _ (fl_settled _ _ Hf)), Hp by lia. unfold of_option, wp at 1.
    assert (Hcount : gm_entry_count w = Z.of_nat m).
    { unfold gm_entry_count. rewrite (fl_backing _ _ Hf), length_take. lia. }
    rewrite Hcount. rewrite (drop_S _ _ _ Hp) in Hes. cbn [until] in Hes.
    destruct (locked i).
    { cbn in Hes. apply wp_ret. assert (length (drop m es) = 0%nat) as Hl by (by rewrite Hes).
      rewrite length_drop in Hl. by replace (length es) with m by lia. }
    cbn [entries_of] in Hes. apply wp_bind, (check_entry_ok (lag i) m); try done.
    + by eapply list_elem_of_lookup_2.
    + destruct (entry_of files (n0 + m) p) as [e|]; [|done]. intros _.
      rewrite <- (Nat.add_0_r m), <- lookup_drop, Hes. done.
    + intros v Hv En. rewrite En in Hes. split; [by apply IH; [lia|..]|].
      apply wp_bind, wp_modify. rewrite Z.add_0_r. apply IH; [lia|done|by apply set_counts_ok|done].
    + intros v e Hv En He. rewrite En in Hes. apply wp_bind, wp_modify. rewrite <- (place_of_S _ _ _ He).
      apply IH; [lia|by eapply lookup_lt_Some|by apply set_counts_ok|].
      rewrite (drop_S _ _ _ He) in Hes. injection Hes as ->. by rewrite Nat.add_succ_r.
Qed.
End Fill.
