(* ===== verification/GmEnumClaims.v ===== *)
(** The game list: what the user finds in it, and how the discs of a game find
    each other. *)

From Stdlib Require Import String.
From S2P Require Import Prelude CStr Di FlippyEmu GmPaths GmAssets GmAssetsThms Crc BnrOffsets DiscInfo DiscInfoThms GmEnum GmEnumAssets GmEnumCard GmEnumSpec GmEnumThms.
From S2P Require BnrCache.
#[local] Open Scope prog_scope.

(** ** Filling *)

(** The directory's files: sound images with whole banners, paths that the
    banner cache's keys tell apart, other paths with a slash. *)
Record directory_ok (files : list Z -> option (list Z)) (ps : list gm_path_entry_t) : Prop := {
  d_images : forall p c, p ∈ ps -> path_type p = FILE_GAME -> files (cstr (path p)) = Some c -> image_ok c;
  d_whole : forall p c o, p ∈ ps -> path_type p = FILE_GAME -> game_at files (cstr (path p)) = Some (c, o) ->
    o + Z.of_nat BnrCache.BNR_SIZE <= Z.of_nat (length c);
  d_keys : forall p p', p ∈ ps -> p' ∈ ps ->
    gm_bnr_cache_key (path p) = gm_bnr_cache_key (path p') -> cstr (path p) = cstr (path p');
  d_others : forall p, p ∈ ps -> path_type p = FILE_PROGRAM \/ path_type p = FILE_DIRECTORY ->
    chr_slash ∈ cstr (path p) /\ (length (path p) <= PATH_SIZE)%nat
}.

(** The thread's statics before the list is filled: no entry, no transfer, all
    buffers free, a cache whose banners are the right ones. *)
Record list_ready {W} `{DirDevice W} (files : list Z -> option (list Z)) (ps : list gm_path_entry_t) (w : enum_state W) : Prop := {
  r_paths : forall i, (i < length ps)%nat -> listed (lists_of w) i = ps !! i;
  r_empty : gm_entry_backing w = [];
  r_queue : queue (gm w) = [];
  r_none : forall id, GmAssets.state (assets (gm w) id) = NONE;
  r_pools : forall k i x, pool (gm w) k !! i = Some x -> length (data x) = pixeldata_len k;
  r_free : length (pool (gm w) Banner) = ASSET_BUFFER_COUNT /\ use_count (pool (gm w) Banner) = 0%nat;
  r_header : length (e_header w) = HEADER_SIZE;
  r_buffer : length (banner_buffer w) = BnrCache.BNR_SIZE;
  r_cache : cache_ok files ps (bnr_table w) (bnr_next w) (GmAssets.aram (gm w))
}.

Lemma ready_filling {W} `{GameCard W} `{!DirDevice W} files ps es top (w : enum_state W) :
  list_ready files ps w -> files = (fun q => game_file q (e_dev w)) ->
  filling files ps es (next_id w) top (opened (e_dev w)) 0 w.
Proof.
  intros [Hp He Hq Hn Hpl [Hl Hu] Hh Hb Hc] Ef. split; [|by rewrite He|by rewrite Nat.add_0_r].
  split; try done; [|by rewrite Ef]. split; [| |by intros ? ? ?%Nat.nlt_0_r|].
  - split; rewrite ?Hq; [done|constructor|by intros r ?%elem_of_nil| | |].
    + intros id _. unfold idle_ok. by rewrite Hn.
    + intros id Hne. by rewrite Hn in Hne.
    + intros id id' b _ [_ Hh']. rewrite Hn in Hh'. unfold queued in Hh'. rewrite Hq in Hh'. by destruct Hh'.
  - intros id Hne. by rewrite Hn in Hne.
  - split; [done|]. rewrite Hu. lia.
Qed.

Lemma space_all_ge es : 2048 * Z.of_nat (length es) <= space_all es.
Proof. induction es as [|e es IH]; cbn [space_all length]; [lia|]. pose proof (space_bounds e). lia. Qed.

Lemma until_subset locked i ps p : p ∈ until locked i ps -> p ∈ ps.
Proof.
  revert i. induction ps as [|x ps IH]; intros i; [done|]. cbn [until]. destruct (locked i); [by intros ?%elem_of_nil|].
  intros [->|Hp]%elem_of_cons; [left|right; by eapply IH].
Qed.

(** The picture of a listed game. *)
Lemma listed_picture files n ps i e :
  (forall p c o, p ∈ ps -> path_type p = FILE_GAME -> game_at files (cstr (path p)) = Some (c, o) ->
    length (pixelData (banner_at c o)) = BNR_PIXELDATA_LEN) ->
  entries_of files n ps !! i = Some e -> is_game e = true -> length (picture files e) = BNR_PIXELDATA_LEN.
Proof.
  intros Hlen He Hg. destruct (entries_shape _ _ _ _ _ He) as (_ & p & Hp & Ee). unfold entry_of in Ee.
  destruct (path_type p) eqn:Et; [done| | |].
  - injection Ee as <-. unfold is_game, other_entry in Hg. cbn in Hg. by rewrite Et in Hg.
  - injection Ee as <-. unfold is_game, other_entry in Hg. cbn in Hg. by rewrite Et in Hg.
  - destruct (game_at _ _) as [[c o]|] eqn:Eg; [|done]. injection Ee as <-.
    unfold picture. cbn [f_path game_entry]. rewrite Eg. by eapply Hlen.
Qed.

(** What the invariant says of an asset that is in use. *)
Lemma asset_whereabouts art place g id :
  inv art place g -> GmAssets.state (assets g id) <> NONE ->
  let a := assets g id in
  let arrived := aram_load (place id) (plen id) (GmAssets.aram g) = art id in
  aram_offset a = place id /\
  match GmAssets.state a with
  | NONE => False
  | LOADED => arrived /\ exists b x, buf a = Some b /\ pool g id.1 !! b = Some x /\ data x = art id
  | UNLOADED => queued id g = true \/ arrived
  | _ => queued id g = true \/ GmAssets.state a = LOADING /\ arrived
  end.
Proof.
  intros Hi Hn. split; [by apply (inv_place _ _ _ Hi)|]. destruct (queued id g) eqn:Eq.
  - apply queued_true in Eq as (r & Hr & <-). destruct (inv_requests _ _ _ Hi r Hr) as [_ _ Hk].
    destruct (GmAssets.state (assets g (rq_asset r))) eqn:Es; try done; try (by left); [].
    destruct (rq_callback r); destruct Hk as (_ & _ & Hk); [set_solver|set_solver|done].
  - pose proof (inv_idle _ _ _ Hi id Eq) as Hid. unfold idle_ok in Hid.
    destruct (GmAssets.state (assets g id)); try done; try (by right).
    destruct Hid as [Hs (b & [Hb _] & (x & Hx & Hd))]. split; [exact Hs|]. by exists b, x.
Qed.

(** C30. The game list shows the games.  The list starts empty, with no transfer
    queued and no buffer in use, and a banner cache that holds nothing wrong.  The
    disc images of the directory are well formed, with their banners wholly inside
    them; its other paths hold a slash and fit their buffers; no two of its paths
    have the same cache key; and its pictures fit into ARAM below the banner cache,
    which they do not beyond 908 games.  Whatever the transfers' progress - as
    long as no more than 78 are pending when a banner is wanted - and wherever the
    thread is told to stop, filling the list over a card whose reads succeed
    returns, with every file closed again, and the list holds, in the order of the
    sorted paths, exactly the disc images in which a banner is found, each with
    its own title texts and header data, and the programs and directories under
    their names; every picture has its own place in ARAM, and is either in its
    buffer, at its place, or on the way there. *)
Theorem game_list_shows_games {W} `{GameCard W} `{!DirDevice W} (w : enum_state W) (ps : list gm_path_entry_t)
    (locked : nat -> bool) (lag : nat -> nat) (top : Z) :
  let files := fun q => game_file q (e_dev w) in
  let es := entries_of files (next_id w) (until locked 0 ps) in
  list_ready files ps w -> directory_ok files ps ->
  ARAM_START + space_all es <= RING_BOTTOM -> (forall i, lag i <= 78)%nat ->
  exists w', gm_check_files locked lag top (length ps) w = Some (tt, w') /\
    gm_entry_backing w' = pair_discs es /\
    opened (e_dev w') = opened (e_dev w) /\
    forall i e, es !! i = Some e -> is_game e = true ->
      let id := (Banner, f_asset e) in
      let a := assets (gm w') id in
      let arrived := aram_load (place_of es i) BNR_PIXELDATA_LEN (GmAssets.aram (gm w')) = picture files e in
      aram_offset a = place_of es i /\ place_of es i + space e <= RING_BOTTOM /\
      match GmAssets.state a with
      | NONE => False
      | LOADED => arrived /\ exists b x, buf a = Some b /\ pool (gm w') Banner !! b = Some x /\ data x = picture files e
      | UNLOADED => queued id (gm w') = true \/ arrived
      | _ => queued id (gm w') = true \/ GmAssets.state a = LOADING /\ arrived
      end.
Proof.
  intros files es Hr Hd Hroom Hlag. pose proof (ready_filling files ps es top w Hr eq_refl) as Hf.
  assert (Hfew : Z.of_nat (length es) < 2 ^ 32).
  { pose proof (space_all_ge es). change RING_BOTTOM with 8486912 in Hroom. change ARAM_START with 1048576 in Hroom. lia. }
  destruct Hd as [D1 D2 D3 D4].
  pose proof (check_rounds_ok files ps es (next_id w) top (opened (e_dev w)) D1 D2 D3 Hroom Hfew D4
    locked lag (length ps) 0 0 w Hlag eq_refl ltac:(lia) Hf) as Hrun.
  rewrite drop_0, Nat.add_0_r in Hrun. specialize (Hrun eq_refl).
  apply wp_elim in Hrun as ([] & w1 & E & Hw1). change (place_of es 0) with ARAM_START in E.
  eexists. split; [|split; [|split; [|]]].
  - unfold gm_check_files, bind. rewrite E. reflexivity.
  - cbn. rewrite (fl_backing _ _ _ _ _ _ _ _ Hw1). by rewrite take_ge by done.
  - apply (s_open _ _ _ _ _ _ _ _ (fl_settled _ _ _ _ _ _ _ _ Hw1)).
  - intros i e He Hg. cbn [gm set_backing].
    destruct (s_assets _ _ _ _ _ _ _ _ (fl_settled _ _ _ _ _ _ _ _ Hw1)) as [Hi _ Hall _].
    destruct (entries_shape _ _ _ _ _ He) as [Ea _]. rewrite Ea.
    assert (Hpic : length (picture files e) = BNR_PIXELDATA_LEN).
    { eapply listed_picture; [|exact He|done]. intros p c o Hp Ht Hat.
      by apply (game_at_ok files ps es D1 D2 p c o (until_subset _ _ _ _ Hp) Ht Hat). }
    destruct (asset_whereabouts _ _ _ _ Hi (Hall i e (lookup_lt_Some _ _ _ He) He Hg)) as [Hoff Hst].
    rewrite (place_game es _ i e He Hg), (art_game files es _ i e He Hpic) in *.
    split; [done|]. split; [|exact Hst]. pose proof (place_of_le es i e He). lia.
Qed.

(** ** The discs of a game *)

(** An entry apart from its link. *)
Definition core (e : gm_file_entry_t) : gm_file_entry_t := set_second None e.

Section Discs.
Variable es0 : list gm_file_entry_t.
Notation same_cores es := (core <$> es = core <$> es0).

(** [a] and [b] are discs of one game. *)
Definition discs (a b : nat) : Prop :=
  exists e e2, es0 !! a = Some e /\ es0 !! b = Some e2 /\ is_game e = true /\ is_game e2 = true /\
    same_game e e2 = true /\ disc_num (extra e) <> disc_num (extra e2).

Lemma same_cores_lookup (es : list gm_file_entry_t) k e :
  same_cores es -> es !! k = Some e -> exists e0, es0 !! k = Some e0 /\ core e0 = core e.
Proof.
  intros Hc He. assert ((core <$> es) !! k = Some (core e)) as Hk by (by rewrite list_lookup_fmap, He).
  rewrite Hc, list_lookup_fmap in Hk. destruct (es0 !! k) as [e0|]; cbn [fmap option_fmap option_map] in Hk; [|discriminate Hk].
  apply (inj Some) in Hk. by exists e0.
Qed.
Lemma core_fields e e0 : core e0 = core e -> f_type e0 = f_type e /\ extra e0 = extra e.
Proof. intros E. split; [exact (f_equal f_type E)|exact (f_equal extra E)]. Qed.

(** What one comparison of [pair_discs] does, for a first entry that is a game:
    nothing, or it links two discs of a game both ways. *)
Lemma pair_with_spec es a b :
  same_cores es -> (exists e, es0 !! a = Some e /\ is_game e = true) ->
  pair_with a es b = es \/
  discs a b /\ pair_with a es b = alter (set_second (Some a)) b (alter (set_second (Some b)) a es).
Proof.
  intros Hc (e0 & He0 & Hg0). unfold pair_with. destruct (es !! a) as [e|] eqn:Ea; [|by left].
  destruct (es !! b) as [e2|] eqn:Eb; [|by left].
  destruct (is_game e2 && _ && _ && _) eqn:E; [|by left]. right. split; [|done].
  destruct (same_cores_lookup es a e Hc Ea) as (e' & He' & Hce). rewrite He0 in He'. injection He' as <-.
  destruct (same_cores_lookup es b e2 Hc Eb) as (e2' & He2' & Hce2).
  destruct (core_fields _ _ Hce) as [Ht Hx], (core_fields _ _ Hce2) as [Ht2 Hx2].
  rewrite !andb_true_iff, !negb_true_iff in E. destruct E as [[[Eg En] Es] Ed].
  exists e0, e2'. split_and!; try done.
  - unfold is_game in *. by rewrite Ht2.
  - unfold same_game in *. by rewrite Hx, Hx2.
  - rewrite Hx, Hx2. by apply Z.eqb_neq.
Qed.

Lemma core_alter s (k : nat) (es : list gm_file_entry_t) : core <$> alter (set_second s) k es = core <$> es.
Proof.
  apply list_eq. intros i. rewrite !list_lookup_fmap. destruct (decide (k = i)) as [->|].
  - rewrite list_lookup_alter_eq. by destruct (es !! i).
  - by rewrite list_lookup_alter_ne.
Qed.

Lemma discs_sym a b : discs a b -> discs b a.
Proof.
  intros (e & e2 & ? & ? & ? & ? & Hs & ?). exists e2, e. split_and!; try done.
  unfold same_game in *. apply bool_decide_eq_true in Hs. by apply bool_decide_eq_true.
Qed.

Section Pair.
(** Two discs, and no third. *)
Variables i j : nat.
Hypothesis two : discs i j.
Hypothesis no_third : forall k, discs i k -> k = j.
Hypothesis no_third' : forall k, discs j k -> k = i.

Definition second_at (es : list gm_file_entry_t) (k : nat) : option nat := e ← es !! k; second e.
Definition linked (es : list gm_file_entry_t) : Prop := second_at es i = Some j /\ second_at es j = Some i.

Lemma two_ne : i <> j.
Proof. intros E. destruct two as (e & e2 & He & He2 & _ & _ & _ & Hd). rewrite E in He. congruence. Qed.

Lemma second_alter s (k : nat) (es : list gm_file_entry_t) x : second_at (alter (set_second s) k es) x =
  if decide (k = x) then match es !! x with Some _ => s | None => None end else second_at es x.
Proof.
  unfold second_at. case_decide as E.
  - subst x. rewrite list_lookup_alter_eq. by destruct (es !! k).
  - by rewrite list_lookup_alter_ne.
Qed.

Lemma in_range (es : list gm_file_entry_t) k e : same_cores es -> es0 !! k = Some e -> is_Some (es !! k).
Proof.
  intros Hc He. apply lookup_lt_is_Some. assert (length (core <$> es) = length (core <$> es0)) as Hl by (by rewrite Hc).
  rewrite !length_fmap in Hl. rewrite Hl. by eapply lookup_lt_Some.
Qed.

(** A link of the two discs is only ever to each other. *)
Lemma second_linked (es : list gm_file_entry_t) a b x e :
  same_cores es -> es0 !! x = Some e ->
  second_at (alter (set_second (Some a)) b (alter (set_second (Some b)) a es)) x =
  if decide (b = x) then Some a else if decide (a = x) then Some b else second_at es x.
Proof.
  intros Hc He. destruct (in_range es x e Hc He) as [y Hy]. rewrite !second_alter, list_lookup_alter, Hy.
  repeat case_decide; subst; rewrite ?Hy; done.
Qed.

Lemma link_kept es a b :
  same_cores es -> linked es -> discs a b ->
  linked (alter (set_second (Some a)) b (alter (set_second (Some b)) a es)).
Proof.
  intros Hc [Li Lj] Hd. pose proof (discs_sym _ _ Hd) as Hd'. destruct two as (e & e2 & He & He2 & _).
  split; [rewrite (second_linked es a b i e Hc He)|rewrite (second_linked es a b j e2 Hc He2)].
  - case_decide as E; [subst b; by rewrite (no_third _ Hd')|].
    case_decide as E'; [subst a; by rewrite (no_third _ Hd)|done].
  - case_decide as E; [subst b; by rewrite (no_third' _ Hd')|].
    case_decide as E'; [subst a; by rewrite (no_third' _ Hd)|done].
Qed.

Lemma linking es a b : same_cores es -> (a = i /\ b = j \/ a = j /\ b = i) ->
  linked (alter (set_second (Some a)) b (alter (set_second (Some b)) a es)).
Proof.
  intros Hc Hab. pose proof two_ne. destruct two as (e & e2 & He & He2 & _).
  split; [rewrite (second_linked es a b i e Hc He)|rewrite (second_linked es a b j e2 Hc He2)];
    destruct Hab as [[-> ->]|[-> ->]]; by repeat case_decide.
Qed.

(** One round of comparisons, for the disc [a]. *)
Definition game_disc (a : nat) : Prop := exists e, es0 !! a = Some e /\ is_game e = true.

Lemma pair_with_keeps a es b :
  game_disc a -> same_cores es -> same_cores (pair_with a es b) /\ (linked es -> linked (pair_with a es b)).
Proof.
  intros Ha Hc. destruct (pair_with_spec es a b Hc Ha) as [->|[Hd ->]]; [done|].
  split; [by rewrite !core_alter|]. intros Hl. by apply link_kept.
Qed.

Lemma pair_with_links a b es :
  same_cores es -> (a = i /\ b = j \/ a = j /\ b = i) -> linked (pair_with a es b).
Proof.
  intros Hc Hab. assert (Hd : discs a b) by (destruct Hab as [[-> ->]|[-> ->]]; [done|by apply discs_sym]).
  assert (Hne : b <> a) by (pose proof two_ne; destruct Hab as [[-> ->]|[-> ->]]; done).
  replace (pair_with a es b) with (alter (set_second (Some a)) b (alter (set_second (Some b)) a es));
    [by apply linking|].
  destruct Hd as (e & e2 & He & He2 & Hg & Hg2 & Hs & Hn). unfold pair_with.
  destruct (in_range es a e Hc He) as [x Hx], (in_range es b e2 Hc He2) as [y Hy]. rewrite Hx, Hy.
  destruct (same_cores_lookup es a x Hc Hx) as (x' & Hx' & Hcx), (same_cores_lookup es b y Hc Hy) as (y' & Hy' & Hcy).
  rewrite He in Hx'. rewrite He2 in Hy'. injection Hx' as <-. injection Hy' as <-.
  destruct (core_fields _ _ Hcx) as [Tx Xx], (core_fields _ _ Hcy) as [Ty Xy].
  unfold is_game, same_game in *. rewrite <- Ty, Hg2, <- Xx, <- Xy, Hs, (proj2 (Z.eqb_neq _ _) Hn).
  by rewrite (proj2 (Nat.eqb_neq b a) Hne).
Qed.

(** A whole round keeps a link, and makes it when the partner is among those compared. *)
Lemma round_keeps a bs es :
  game_disc a -> same_cores es ->
  let es' := fold_left (pair_with a) bs es in
  same_cores es' /\ (linked es \/ (exists b, b ∈ bs /\ (a = i /\ b = j \/ a = j /\ b = i)) -> linked es').
Proof.
  intros Ha. revert es. induction bs as [|b bs IH]; intros es Hc; cbn [fold_left].
  - split; [done|]. intros [?|(b & ?%elem_of_nil & _)]; done.
  - destruct (pair_with_keeps a es b Ha Hc) as [Hc' Hk]. destruct (IH _ Hc') as [Hc'' Hl]. split; [done|].
    intros [Hlk|(b' & [->|Hb]%elem_of_cons & Hab)]; apply Hl.
    + left. by apply Hk.
    + left. by apply pair_with_links.
    + right. by exists b'.
Qed.

Lemma pair_entry_keeps es a :
  same_cores es -> same_cores (pair_entry es a) /\ (linked es -> linked (pair_entry es a)).
Proof.
  intros Hc. unfold pair_entry. destruct (es !! a) as [e|] eqn:Ea; [|done]. destruct (_ && _) eqn:E; [|done].
  apply andb_prop in E as [Eg _]. destruct (same_cores_lookup es a e Hc Ea) as (e0 & He0 & Hce).
  assert (Ha : game_disc a) by (exists e0; split; [done|]; unfold is_game in *; by rewrite (proj1 (core_fields _ _ Hce))).
  destruct (round_keeps a (seq 0 (length es)) es Ha Hc) as [Hc' Hl]. auto.
Qed.

(** The round of a disc whose number is not 0. *)
Lemma pair_entry_links es a b e :
  same_cores es -> (a = i /\ b = j \/ a = j /\ b = i) -> es0 !! a = Some e -> disc_num (extra e) <> 0 ->
  linked (pair_entry es a).
Proof.
  intros Hc Hab He Hn. assert (Hd : discs a b) by (destruct Hab as [[-> ->]|[-> ->]]; [done|by apply discs_sym]).
  destruct Hd as (e' & e2 & He' & He2 & Hg & _). rewrite He in He'. injection He' as <-.
  destruct (in_range es a e Hc He) as [x Hx], (in_range es b e2 Hc He2) as [y Hy].
  destruct (same_cores_lookup es a x Hc Hx) as (x' & Hx' & Hcx). rewrite He in Hx'. injection Hx' as <-.
  destruct (core_fields _ _ Hcx) as [Tx Xx]. unfold pair_entry. rewrite Hx. unfold is_game in *.
  rewrite <- Tx, Hg, <- Xx, (proj2 (Z.eqb_neq _ _) Hn). cbn [negb andb].
  apply round_keeps; [by exists e|done|]. right. exists b. split; [|done]. apply elem_of_seq.
  apply lookup_lt_Some in Hy. lia.
Qed.

Lemma rounds_keep as_ es :
  same_cores es -> let es' := fold_left pair_entry as_ es in
  same_cores es' /\ (linked es \/ (exists a b e, a ∈ as_ /\ (a = i /\ b = j \/ a = j /\ b = i) /\
                       es0 !! a = Some e /\ disc_num (extra e) <> 0) -> linked es').
Proof.
  revert es. induction as_ as [|a as_ IH]; intros es Hc; cbn [fold_left].
  - split; [done|]. intros [?|(a & b & e & ?%elem_of_nil & _)]; done.
  - destruct (pair_entry_keeps es a Hc) as [Hc' Hk]. destruct (IH _ Hc') as [Hc'' Hl]. split; [done|].
    intros [Hlk|(a' & b & e & [->|Ha]%elem_of_cons & Hab & He & Hn)]; apply Hl.
    + left. by apply Hk.
    + left. by eapply pair_entry_links.
    + right. by exists a', b, e.
Qed.
End Pair.
End Discs.

(** C31. The two discs of a game find each other.  If two listed games have the
    same identification and different disc numbers, and no third disc of the game
    is listed, then afterwards each is the other's second disc; and linking
    changes nothing else of any entry. *)
Theorem two_discs_meet (es : list gm_file_entry_t) (i j : nat)
    (Htwo : discs es i j) (Hi : forall k, discs es i k -> k = j) (Hj : forall k, discs es j k -> k = i) :
  second_at (pair_discs es) i = Some j /\ second_at (pair_discs es) j = Some i /\
  core <$> pair_discs es = core <$> es.
Proof.
  destruct (rounds_keep es i j Htwo Hi Hj (seq 0 (length es)) es eq_refl) as [Hc Hl].
  fold (pair_discs es) in Hc, Hl. destruct Hl as [Li Lj]; [|done].
  right. destruct Htwo as (e & e2 & He & He2 & _ & _ & _ & Hd).
  pose proof (lookup_lt_Some _ _ _ He). pose proof (lookup_lt_Some _ _ _ He2).
  destruct (decide (disc_num (extra e) = 0)) as [E0|E0].
  - exists j, i, e2. split_and!; [apply elem_of_seq; lia|by right|done|congruence].
  - exists i, j, e. split_and!; [apply elem_of_seq; lia|by left|done|done].
Qed.

(** ** The theorems at work *)

#[export] Instance sim_game_card : GameCard sim_games.
Proof.
  split.
  - intros w fd Hfd. cbn in Hfd. apply list_elem_of_fmap in Hfd as (o & -> & _). lia.
  - intros p t f w E. unfold wp. cbn in *. by rewrite E.
  - intros p t f w r w' q. cbn. destruct (sim_file p (sim_files w)); by intros [= _ <-].
  - intros w s w' q. cbn. by intros [= _ <-].
  - intros dst len off fd w r b w' q. cbn. intros [= _ <- <-]. split; [|done]. intros Hlen. apply length_splice.
    unfold slice. rewrite length_take. lia.
  - intros fd w x w' q. cbn. by intros [= _ <-].
Qed.
(** No directories on this card. *)
#[export] Instance sim_dirs : DirDevice sim_games := {
  dir_open _ := ret 1; dir_status := ret None; dir_readdir e _ := ret (1, e); dir_close _ := ret tt
}.

(** A card with one game, and a directory. *)
Definition whole_disc : list Z := take 0x464 small_disc ++ str "BNR1" ++ replicate (8096 - 4) 7.
Definition path_buf (s : string) : list Z := splice 0 (str s) (replicate PATH_SIZE 0).
Arguments path_buf _%_string.
Definition two_paths : list gm_path_entry_t := [mk_path (path_buf "/a.iso") FILE_GAME; mk_path (path_buf "/d") FILE_DIRECTORY].
Definition blank_world : gm_world := gm_init_pools (mk_gm (fun _ => []) (fun _ => no_asset) [] (fun _ => 0)).
Definition two_state : enum_state sim_games :=
  mk_enum two_paths [0%nat; 1%nat] [] (replicate 32 0) (replicate HEADER_SIZE 0) (replicate 64 0)
    (mk_sim [(str "/a.iso", whole_disc)] []) blank_world (replicate BnrCache.BNR_CACHE_SIZE (BnrCache.mk_entry 0 0 false)) 0
    (replicate BnrCache.BNR_SIZE 0) 0 [] 0 0.

Lemma whole_disc_ok : image_ok whole_disc.
Proof.
  split.
  - apply Nat.leb_le. vm_compute. reflexivity.
  - apply (bool_decide_unpack _). vm_compute. exact I.
  - intros fast Hne. exfalso. apply Hne. vm_compute. reflexivity.
  - intros _. split; [vm_compute; reflexivity|]. split; [apply Z.leb_le; vm_compute; reflexivity|]. split.
    + split; [apply Z.leb_le; vm_compute; reflexivity|]. split; [apply Nat.leb_le; vm_compute; reflexivity|].
      intros i Hi. assert (i = 1%nat) as -> by (revert Hi; vm_compute; lia).
      apply Nat.ltb_lt. vm_compute. reflexivity.
    + intros j Hj. vm_compute in Hj. injection Hj as <-.
      split; [vm_compute; reflexivity|apply Z.leb_le; vm_compute; reflexivity].
Qed.

Lemma two_paths_ok : directory_ok (fun q => game_file q (e_dev two_state)) two_paths.
Proof.
  assert (Hin : forall p, p ∈ two_paths -> p = mk_path (path_buf "/a.iso") FILE_GAME \/ p = mk_path (path_buf "/d") FILE_DIRECTORY).
  { unfold two_paths. intros p [->|[->|?%elem_of_nil]%elem_of_cons]%elem_of_cons; auto. done. }
  assert (Hfile : game_file (cstr (path_buf "/a.iso")) (e_dev two_state) = Some whole_disc) by (vm_compute; reflexivity).
  split.
  - intros p c [->| ->]%Hin Ht; [|discriminate Ht]. cbn [path]. rewrite Hfile. intros [= <-]. apply whole_disc_ok.
  - intros p c o [->| ->]%Hin Ht; [|discriminate Ht]. cbn [path]. intros [Hc Ho]%game_at_Some.
    rewrite Hfile in Hc. injection Hc as <-.
    assert (Hp : banner_place whole_disc = Some 0x464) by (vm_compute; reflexivity).
    rewrite Hp in Ho. injection Ho as <-. apply Z.leb_le. vm_compute. reflexivity.
  - intros p p' [->| ->]%Hin [->| ->]%Hin E; try reflexivity; vm_compute in E; discriminate E.
  - intros p [->| ->]%Hin Ht; [by destruct Ht|]. split; [|apply Nat.leb_le; vm_compute; reflexivity].
    apply (bool_decide_unpack _). vm_compute. exact I.
Qed.

Lemma two_state_ready : list_ready (fun q => game_file q (e_dev two_state)) two_paths two_state.
Proof.
  split; try reflexivity.
  - intros [|[|i]] Hi; [reflexivity|reflexivity|]. cbn in Hi. lia.
  - intros k i x Hx. apply lookup_replicate in Hx as [-> _]. apply length_replicate.
  - split; vm_compute; reflexivity.
  - exists []. split; [apply BnrCache.start_agrees|]. split; [by intros p c o b _ _ _ ?%elem_of_nil|constructor].
Qed.

Lemma game_list_shows_games_witness :
  exists w', gm_check_files (fun _ => false) (fun _ => 0%nat) 0 2 two_state = Some (tt, w') /\
    f_type <$> gm_entry_backing w' = [FILE_GAME; FILE_DIRECTORY] /\ opened (e_dev w') = [].
Proof.
  destruct (game_list_shows_games two_state two_paths (fun _ => false) (fun _ => 0%nat) 0
    two_state_ready two_paths_ok) as (w' & E & Hb & Ho & _).
  - apply Z.leb_le. vm_compute. reflexivity.
  - intros i. apply Nat.le_0_l.
  - exists w'. split; [exact E|]. split; [rewrite Hb; vm_compute; reflexivity|rewrite Ho; reflexivity].
Defined.

(** Two discs of one game and a third game. *)
Definition sample_disc (id : list Z) (n : Z) : gm_file_entry_t :=
  mk_file [] [] (mk_extra id n 0 0 0 0 0 0 0) true 0 FILE_GAME None.
Definition sample_discs : list gm_file_entry_t :=
  [sample_disc (str "GMSE01") 0; sample_disc (str "GTSE01") 0; sample_disc (str "GMSE01") 1].

Lemma two_discs_meet_witness : second_at (pair_discs sample_discs) 0 = Some 2%nat.
Proof.
  assert (Hk : forall a k, discs sample_discs a k -> (a = 0 /\ k = 2 \/ a = 2 /\ k = 0)%nat).
  { intros a k (e & e2 & He & He2 & _ & _ & Hs & Hn). apply bool_decide_eq_true in Hs.
    destruct a as [|[|[|]]]; try discriminate He; injection He as <-;
      destruct k as [|[|[|]]]; try discriminate He2; injection He2 as <-; auto; exfalso;
      try (apply Hn; reflexivity); vm_compute in Hs; discriminate Hs. }
  apply (two_discs_meet sample_discs 0 2).
  - eexists _, _. repeat split; try reflexivity. discriminate.
  - intros k Hd. destruct (Hk _ _ Hd) as [[_ ->]|[? _]]; [reflexivity|discriminate].
  - intros k Hd. destruct (Hk _ _ Hd) as [[? _]|[_ ->]]; [discriminate|reflexivity].
Defined.
