(* ===== verification/Boot.v ===== *)
(** Starting programs and games (src/patches/source/boot.c and, in
    src/cubeboot/source/emu/loader.c, the arguments handed to Swiss): executables
    into memory, command lines, the state a game finds.

    [mem] is main memory, byte by byte; the loader's own statics and the memory
    of the storage stack are outside it.  Cache maintenance has no effect on it.
    [run] does not come back: a program that gets there answers [Run]. *)

From Stdlib Require Import String.
From S2P Require Import Prelude Mem CStr Di Fdrv FlippyEmu FileLoad GmPaths Crc BnrOffsets DiscInfo.
#[local] Open Scope prog_scope.

(** ** Storage, as the IPL build sees it *)

Class BootFiles (W : Type) := {
  #[global] boot_device :: FileDevice W;
  boot_open_flash : list Z -> Z -> Z -> M W Z;
  boot_status : M W (option (list Z));
  boot_set_default_fd : Z -> Z -> M W unit;
  boot_is_native : W -> bool;
  boot_device_name : W -> option (list Z)
}.
Definition emu_boot {B F} `{DiBus B, DiscDrive B, FatFs F B} : BootFiles (emu_state B F) :=
  let mount := flippy_emu_mount true MOUNT_DEPTH in {|
  boot_device := {| dev_open := dvd_custom_open mount; dev_status := dvd_custom_status;
                    dev_close := dvd_custom_close; dev_read := dvd_read |};
  boot_open_flash := dvd_custom_open_flash mount;
  boot_status := dvd_custom_status_ipl (replicate file_status_size 0);
  boot_set_default_fd := dvd_set_default_fd;
  boot_is_native := emu_is_native;
  boot_device_name := emu_get_device
|}.

(** ** Constants *)

Definition IPC_FILE_FLAG_DISABLESPEEDEMU : Z := 0x04.
Definition STUB_ADDR : Z := 0x80001800.
Definition SYS_VIDEO_NTSC : Z := 0.
Definition TB_BUS_CLOCK : Z := 162000000.
Definition TB_CORE_CLOCK : Z := 486000000.
Definition DOL_HEADER_SIZE : nat := 256.

Record dol_info_t := mk_dol { max_addr : Z; entrypoint : Z }.

(** Where a loader ends: in the program it started, back in its caller, or in an
    endless loop of its own. *)
Inductive outcome := Run (entry : Z) | Back | Stuck.

Section Boot.
Context {W : Type} `{BootFiles W}.
(** libogc's marks of an argument and an environment block; the display's
    viTVMode; the address of the ISO 9660 sector buffer. *)
Context (ARGV_MAGIC ENVP_MAGIC tv_mode sector_addr : Z).

Record boot_state := mk_boot {
  bt_files : load_state W;
  dol_hdr : list Z;
  bt_iso9660Buf : list Z;
  bt_iso_sector_buf : list Z;
  bt_header : list Z;
  mem : Z -> Z;
  cache_on : bool
}.
Notation P := (M boot_state).
Implicit Types w : boot_state.

Definition set_bt_files (f : load_state W) w :=
  mk_boot f (dol_hdr w) (bt_iso9660Buf w) (bt_iso_sector_buf w) (bt_header w) (mem w) (cache_on w).
Definition set_dol_hdr (h : list Z) w :=
  mk_boot (bt_files w) h (bt_iso9660Buf w) (bt_iso_sector_buf w) (bt_header w) (mem w) (cache_on w).
Definition set_bt_header (h : list Z) w :=
  mk_boot (bt_files w) (dol_hdr w) (bt_iso9660Buf w) (bt_iso_sector_buf w) h (mem w) (cache_on w).
Definition set_mem (m : Z -> Z) w :=
  mk_boot (bt_files w) (dol_hdr w) (bt_iso9660Buf w) (bt_iso_sector_buf w) (bt_header w) m (cache_on w).
Definition change_mem (f : (Z -> Z) -> Z -> Z) w := set_mem (f (mem w)) w.
Definition dvm_cache_disable : P unit := modify (fun w =>
  mk_boot (bt_files w) (dol_hdr w) (bt_iso9660Buf w) (bt_iso_sector_buf w) (bt_header w) (mem w) false).
Definition set_iso (s : @iso_state W) w :=
  mk_boot (DiscInfo.iso_files s) (dol_hdr w) (DiscInfo.iso9660Buf s) (DiscInfo.iso_sector_buf s) (bt_header w) (mem w) (cache_on w).
Definition iso_of w : @iso_state W := mk_iso (bt_iso9660Buf w) (bt_iso_sector_buf w) (bt_files w).

Definition on_loads {A} (m : M (load_state W) A) : P A := zoom bt_files set_bt_files m.
Definition on_drive {A} (m : M W A) : P A := on_loads (on_dev m).

(** [dvd_read] and [dvd_read_data] with a target in memory. *)
Definition read_mem (addr len offset fd : Z) : P Z :=
  w <- get ;;
  '(r, b) <- on_drive (dev_read (load_mem addr (Z.to_nat len) (mem w)) len offset fd) ;;
  modify (change_mem (store_mem addr b)) ;; ret r.
Definition read_data_mem (addr len offset fd : Z) : P Z :=
  w <- get ;;
  '(r, b) <- on_loads (dvd_read_data addr (load_mem addr (Z.to_nat len) (mem w)) len offset fd) ;;
  modify (change_mem (store_mem addr b)) ;; ret r.

(** ** Executables *)

Definition load_stub : P unit :=
  dvm_cache_disable ;;
  on_drive (boot_open_flash (str "/stub.bin") FILE_ENTRY_TYPE_FILE 0) ;;
  status <- on_drive boot_status ;;
  match status with
  | None => ret tt
  | Some blob =>
      if negb (blob_result blob =? 0) then ret tt
      else
        let file_size := Z.land (u32 (status_size blob + 31)) 0xffffffe0 in
        read_mem STUB_ADDR file_size 0 (blob_fd blob) ;;
        on_drive (dev_close (blob_fd blob))
  end.

(** One section: skipped when its address or its length is 0. *)
Definition load_section (offset fd address len section_offset : Z) : P unit :=
  if negb (address =? 0) && negb (len =? 0)
  then read_data_mem address len (u64 (offset + section_offset)) fd ;; ret tt
  else ret tt.
Fixpoint load_texts (offset fd : Z) (hdr : list Z) (rounds i : nat) : P unit :=
  match rounds with
  | O => ret tt
  | S rounds =>
      load_section offset fd (textAddress hdr i) (textLength hdr i) (textOffset hdr i) ;;
      load_texts offset fd hdr rounds (S i)
  end.
Fixpoint load_datas (offset fd : Z) (hdr : list Z) (rounds i : nat) : P unit :=
  match rounds with
  | O => ret tt
  | S rounds =>
      load_section offset fd (dataAddress hdr i) (dataLength hdr i) (dataOffset hdr i) ;;
      load_datas offset fd hdr rounds (S i)
  end.

Definition load_dol (offset fd : Z) : P dol_info_t :=
  dvm_cache_disable ;;
  w <- get ;;
  '(_, hdr) <- on_drive (dev_read (dol_hdr w) (Z.of_nat DOL_HEADER_SIZE) offset fd) ;;
  modify (set_dol_hdr hdr) ;;
  (if negb (bssAddress hdr =? 0) && negb (bssLength hdr =? 0)
   then modify (change_mem (zero_mem (bssAddress hdr) (bssLength hdr))) else ret tt) ;;
  load_texts offset fd hdr MAXTEXTSECTION 0 ;;
  load_datas offset fd hdr MAXDATASECTION 0 ;;
  ret (mk_dol (DOLMax hdr) (entryPoint hdr)).

Definition load_flags : Z :=
  Z.lor (Z.lor IPC_FILE_FLAG_DISABLECACHE IPC_FILE_FLAG_DISABLEFASTSEEK) IPC_FILE_FLAG_DISABLESPEEDEMU.
Definition load_dol_file (path : list Z) (flash : bool) : P dol_info_t :=
  (if flash then on_drive (boot_open_flash path FILE_ENTRY_TYPE_FILE load_flags)
   else on_drive (dev_open path FILE_ENTRY_TYPE_FILE load_flags)) ;;
  status <- on_drive boot_status ;;
  match status with
  | None => ret (mk_dol 0 0)
  | Some blob =>
      if negb (blob_result blob =? 0) then ret (mk_dol 0 0)
      else
        info <- load_dol 0 (blob_fd blob) ;;
        on_drive (dev_close (blob_fd blob)) ;;
        ret info
  end.

(** ** Swiss *)

(** [setup_argv]: the strings one after the other, and the block that points to
    them; the size of the strings. *)
Fixpoint strings_at (strings : list (list Z)) (buffer : Z) (m : Z -> Z) : Z * (Z -> Z) :=
  match strings with
  | [] => (buffer, m)
  | s :: strings => strings_at strings (u32 (buffer + Z.of_nat (length s) + 1)) (store_mem buffer (s ++ [0]) m)
  end.
Definition setup_argv (strings : list (list Z)) (buffer argv_struct magic : Z) : P Z :=
  w <- get ;;
  let '(e, m) := strings_at strings buffer (mem w) in
  let buffer_len := u32 (e - buffer) in
  put (set_mem (store_word (argv_struct + 8) buffer_len
         (store_word (argv_struct + 4) buffer (store_word argv_struct magic m))) w) ;;
  ret buffer_len.

(** From the character after the last slash or backslash. *)
Fixpoint file_name (p name : list Z) : list Z :=
  match p with
  | [] => name
  | c :: p => file_name p (if (c =? chr_slash) || (c =? 92) then p else name)
  end.
Definition is_swiss (game_path : option (list Z)) : bool :=
  match game_path with
  | None => false
  | Some p =>
      if (length p <? 10)%nat then false
      else
        let filename := file_name p p in
        if (length filename <? 10)%nat then false
        else if negb (strcasecmp (drop (length filename - 4) filename) (str ".dol") =? 0) then false
        else strcasecmp (take 5 filename) (str "swiss") =? 0
  end.

Definition autoload_arg (passthrough : bool) (game_path : option (list Z)) w : option (list Z) :=
  let buf := replicate 256 0 in
  if passthrough then strcpy buf (str "Autoload=dvd:/*.gcm")
  else
    dev ← boot_device_name (dev (bt_files w));
    p ← game_path;
    b ← strcpy buf (str "Autoload=");
    b ← strcat b dev;
    b ← strcat b (str ":");
    strcat b p.

Definition chainload_swiss_game (game_path : option (list Z)) (passthrough : bool) : P outcome :=
  if is_swiss game_path then
    info <- load_dol_file (default [] game_path) false ;; ret (Run (entrypoint info))
  else
    info <- load_dol_file (str "/swiss-gc.dol") true ;;
    w <- get ;;
    autoload <- of_option (autoload_arg passthrough game_path w) ;;
    on_drive (boot_open_flash (str "/swiss/patches/apploader.img") FILE_ENTRY_TYPE_FILE 0) ;;
    status <- on_drive boot_status ;;
    let igr := match status with
               | Some blob => if blob_result blob =? 0 then [str "IGRType=Apploader"] else []
               | None => []
               end in
    let args := [str "swiss-gc.dol"; cstr autoload; str "AutoBoot=Yes"; str "BS2Boot=No"; str "Prefer Clean Boot=No"] ++ igr in
    let argz := u32 (max_addr info + 32) in
    argz_len <- setup_argv args argz (u32 (entrypoint info + 8)) ARGV_MAGIC ;;
    setup_argv [str "CUBEBOOT=1"] (u32 (argz + argz_len + 32)) (u32 (entrypoint info + 40)) ENVP_MAGIC ;;
    ret (Run (entrypoint info)).
(** ** Games *)

(** What booting needs of a list entry. *)
Record boot_entry_t := mk_boot_entry {
  be_path : list Z; be_dol_offset : Z; be_fst_offset : Z; be_fst_size : Z; be_max_fst_size : Z;
  be_second : option (list Z)
}.

Definition store_words (ws : list (Z * Z)) (m : Z -> Z) : Z -> Z :=
  fold_left (fun m x => store_word x.1 x.2 m) ws m.
Definition TOP_ADDR : Z := 0x81800000 - 0x200.
Definition lowmem_words : list (Z * Z) :=
  [(0x80000028, 0x01800000); (0x8000002C, 1); (0x800000CC, SYS_VIDEO_NTSC); (0x800000D0, 0x01000000);
   (0x800000E8, 0x81800000 - TOP_ADDR); (0x800000EC, TOP_ADDR); (0x800000F0, 0x01800000);
   (0x800000F8, TB_BUS_CLOCK); (0x800000FC, TB_CORE_CLOCK)].
Definition iso_words : list (Z * Z) :=
  [(0x8000001c, 0); (0x80000020, 0x0d15ea5e); (0x80000028, 0x01800000); (0x80000024, 1); (0x8000002c, 3);
   (0x800000d0, 0x01000000); (0x800000ec, 0x81800000); (0x800000f0, 0x01800000); (0x800000f4, 0)].

(** Opening the game, and its other disc: the first descriptor and the second. *)
Definition open_game (path : list Z) : P (option Z) :=
  on_drive (dev_open path FILE_ENTRY_TYPE_FILE 0) ;;
  status <- on_drive boot_status ;;
  ret (match status with
       | Some blob => if blob_result blob =? 0 then Some (blob_fd blob) else None
       | None => None
       end).

(** Header into low memory; where the disc's parts are: program, table of
    files, its size and its greatest size. *)
Definition read_disc_layout (passthrough : bool) (entry : boot_entry_t) : P (option (Z * Z * Z * Z)) :=
  if passthrough then
    w <- get ;;
    '(_, h) <- on_drive (dev_read (bt_header w) (Z.of_nat HEADER_SIZE) 0 0) ;;
    modify (set_bt_header h) ;;
    modify (change_mem (store_mem 0x80000000 (take 0x20 h))) ;;
    ret (Some (DOLOffset h, FSTOffset h, FSTSize h, MaxFSTSize h))
  else
    fd <- open_game (be_path entry) ;;
    match fd with
    | None => ret None
    | Some first_fd =>
        second <- match be_second entry with
                  | None => ret (Some 0)
                  | Some p => open_game p
                  end ;;
        match second with
        | None => ret None
        | Some second_fd =>
            on_drive (boot_set_default_fd first_fd second_fd) ;;
            read_mem 0x80000000 0x20 0 0 ;;
            ret (Some (be_dol_offset entry, be_fst_offset entry, be_fst_size entry, be_max_fst_size entry))
        end
    end.

Definition COUNTRY_EUR : Z := 2.
Definition game_tv_mode (region : Z) : Z :=
  if region =? COUNTRY_EUR then (if Z.shiftr tv_mode 2 =? 2 then 5 else 1) else 0.

(** The machine code that replaces two calls in one game. *)
Definition GXPeekARGBPatch_bin : list Z :=
  [0x3c; 0xc0; 0xc8; 0x00; 0x50; 0x66; 0x15; 0x3a; 0x50; 0x86; 0x62; 0xa6; 0x7c; 0x00; 0x04; 0xac;
   0x80; 0x06; 0x00; 0x00; 0x90; 0x05; 0x00; 0x00; 0x4e; 0x80; 0x00; 0x20].
Definition GXPokeARGBPatch_bin : list Z :=
  [0x3c; 0xc0; 0xc8; 0x00; 0x50; 0x66; 0x15; 0x3a; 0x50; 0x86; 0x62; 0xa6; 0x7c; 0x00; 0x04; 0xac;
   0x90; 0xa6; 0x00; 0x00; 0x4e; 0x80; 0x00; 0x20].
Definition patch_places (region : Z) : option (Z * Z) :=
  if region =? 80 then Some (0x8018fce0, 0x8018fd04)
  else if (region =? 70) || (region =? 68) then Some (0x8019024c, 0x80190270)
  else if region =? 69 then Some (0x8019013c, 0x80190160)
  else None.

(** The program is in memory: patch it if it is that game, and start it. *)
Definition start_game (info : dol_info_t) : P outcome :=
  w <- get ;;
  let code := load_mem 0x80000000 4 (mem w) in
  if bool_decide (take 3 code = str "GT4") then
    match patch_places (nth 3 code 0) with
    | None => ret Stuck
    | Some (peek, poke) =>
        modify (change_mem (store_mem peek GXPeekARGBPatch_bin)) ;;
        modify (change_mem (store_mem poke GXPokeARGBPatch_bin)) ;;
        ret (Run (entrypoint info))
    end
  else ret (Run (entrypoint info)).

Definition chainload_boot_game (force_swiss_boot : bool) (boot_entry : option boot_entry_t) (passthrough : bool) : P outcome :=
  w <- get ;;
  if force_swiss_boot || (negb passthrough && negb (boot_is_native (dev (bt_files w))))
  then chainload_swiss_game (be_path <$> boot_entry) passthrough
  else
    modify (change_mem (fun m => store_words lowmem_words (zero_mem 0x80000000 0x100 m))) ;;
    entry <- (if passthrough then ret (mk_boot_entry [] 0 0 0 0 None) else of_option boot_entry) ;;
    layout <- read_disc_layout passthrough entry ;;
    match layout with
    | None => ret Back
    | Some (dol_offset, fst_offset, fst_size, max_fst_size) =>
        let fstAddr := Z.land (u32 (TOP_ADDR - max_fst_size)) (Z.lnot 31) in
        let fstSize := Z.land (u32 (fst_size + 31)) (Z.lnot 31) in
        r <- read_mem fstAddr fstSize fst_offset 0 ;;
        if negb (r =? 0) then ret Back
        else
          let bi2Addr := Z.land (u32 (fstAddr - 0x2000)) (Z.lnot 31) in
          r <- read_mem bi2Addr 0x2000 0x440 0 ;;
          if negb (r =? 0) then ret Back
          else
            modify (change_mem (store_words [(bi2Addr + 4, 0x1800000); (0x80000034, fstAddr); (0x80000038, fstAddr);
                                             (0x8000003C, max_fst_size); (0x800000F4, bi2Addr)])) ;;
            w <- get ;;
            modify (change_mem (store_word 0x800000CC (game_tv_mode (be32 (load_mem (bi2Addr + 24) 4 (mem w)) 0)))) ;;
            dol_offset <- (if dol_offset =? 0 then
                             o <- zoom iso_of set_iso (get_dol_iso9660 sector_addr 0) ;;
                             (if o =? 0 then ret tt else modify (change_mem (store_words iso_words))) ;; ret o
                           else ret dol_offset) ;;
            info <- load_dol dol_offset 0 ;;
            start_game info
    end.
End Boot.
Arguments boot_state W : clear implicits.
