(* ===== verification/BootThms.v ===== *)
(** Starting Swiss: what is in memory when it is entered. *)

From Stdlib Require Import String.
From S2P Require Import Prelude Mem CStr Di Fdrv FlippyEmu FileLoad FileLoadThms GmPaths Crc BnrOffsets DiscInfo Boot.
#[local] Open Scope prog_scope.

(** ** Programs *)

Definition text_sections (hdr : list Z) i n : list section :=
  (fun i => (textAddress hdr i, textLength hdr i, textOffset hdr i)) <$> seq i n.
Definition data_sections (hdr : list Z) i n : list section :=
  (fun i => (dataAddress hdr i, dataLength hdr i, dataOffset hdr i)) <$> seq i n.
Definition sections (hdr : list Z) : list section :=
  text_sections hdr 0 MAXTEXTSECTION ++ data_sections hdr 0 MAXDATASECTION.

Definition program_header (dol : list Z) : list Z := slice 0 DOL_HEADER_SIZE dol.
Definition in_bss (hdr : list Z) (a : Z) : Prop :=
  bssAddress hdr <> 0 /\ bssAddress hdr <= a < bssAddress hdr + bssLength hdr.
#[export] Instance in_bss_dec hdr a : Decision (in_bss hdr a).
Proof. unfold in_bss. apply _. Defined.
(** The byte of the program at [a], if it has one there. *)
Definition byte_with (hdr dol : list Z) (a : Z) : option Z :=
  match section_byte dol (sections hdr) a with
  | Some b => Some b
  | None => if decide (in_bss hdr a) then Some 0 else None
  end.
Definition program_byte (dol : list Z) (a : Z) : option Z := byte_with (program_header dol) dol a.

(** A program file: its sections are in it, on word offsets, and in memory. *)
Definition section_ok (dol : list Z) (s : section) : Prop :=
  0 <= s.1.1 /\ 0 <= s.1.2 /\ 0 <= s.2 /\
  (live s = true -> s.2 mod 4 = 0 /\ s.2 + s.1.2 <= Z.of_nat (length dol) /\ s.1.1 + s.1.2 < 2 ^ 32).
#[export] Instance section_ok_dec dol s : Decision (section_ok dol s).
Proof. unfold section_ok. apply _. Defined.
Lemma section_ok_inside dol s : section_ok dol s -> inside dol s.
Proof. intros (? & ? & ? & Hs) Hl. destruct (Hs Hl) as (_ & ? & _). split; [done|]. by split. Qed.
Record program_ok (dol : list Z) : Prop := {
  po_length : Z.of_nat (length dol) < 2 ^ 32;
  po_sections : Forall (section_ok dol) (sections (program_header dol));
  po_bss : let hdr := program_header dol in
    0 <= bssAddress hdr /\ 0 <= bssLength hdr /\ bssAddress hdr + bssLength hdr < 2 ^ 32
}.

(** [DOLMax] is past the end of everything. *)
Lemma max_section_ge m a l : m <= max_section m a l.
Proof. unfold max_section. destruct (_ && _); [|lia]. bcase; lia. Qed.
Lemma max_fold_ge f g n : forall i m, m <= fold_left (fun m i => max_section m (f i) (g i)) (seq i n) m.
Proof.
  induction n as [|n IH]; intros i m; cbn [seq fold_left]; [lia|].
  etransitivity; [apply max_section_ge|apply IH].
Qed.
Lemma max_fold_covers f g n : forall i m k, (i <= k < i + n)%nat -> f k <> 0 -> g k <> 0 ->
  0 <= f k + g k < 2 ^ 32 ->
  f k + g k <= fold_left (fun m i => max_section m (f i) (g i)) (seq i n) m.
Proof.
  induction n as [|n IH]; intros i m k Hk Hf Hg Hr; [lia|]. cbn [seq fold_left].
  destruct (decide (k = i)) as [->|]; [|apply IH; [lia|done..]].
  etransitivity; [|apply max_fold_ge]. unfold max_section.
  rewrite (proj2 (Z.eqb_neq _ _) Hf), (proj2 (Z.eqb_neq _ _) Hg). cbn [negb andb].
  rewrite u32_small by done. bcase; lia.
Qed.

(** The greatest end of the sections, then of the BSS. *)
Definition sections_max (hdr : list Z) : Z :=
  fold_left (fun m i => max_section m (dataAddress hdr i) (dataLength hdr i)) (seq 0 MAXDATASECTION)
    (fold_left (fun m i => max_section m (textAddress hdr i) (textLength hdr i)) (seq 0 MAXTEXTSECTION) 0).
Lemma DOLMax_eq hdr : 0 <= bssAddress hdr -> 0 <= bssLength hdr -> bssAddress hdr + bssLength hdr < 2 ^ 32 ->
  DOLMax hdr = if decide (bssAddress hdr = 0) then sections_max hdr
               else Z.max (sections_max hdr) (bssAddress hdr + bssLength hdr).
Proof.
  intros. unfold DOLMax. fold (sections_max hdr). generalize (sections_max hdr). intros m.
  rewrite u32_small by lia. case_decide as E.
  - by rewrite E.
  - rewrite (proj2 (Z.eqb_neq _ _) E). cbn [negb]. bcase; lia.
Qed.
Lemma sections_max_nonneg hdr : 0 <= sections_max hdr.
Proof. unfold sections_max. etransitivity; [|apply max_fold_ge]. apply max_fold_ge. Qed.

Lemma sections_below hdr s : s ∈ sections hdr -> live s = true -> 0 <= s.1.1 + s.1.2 < 2 ^ 32 ->
  s.1.1 + s.1.2 <= sections_max hdr.
Proof.
  intros Hin [Hn1 Hn2]%live_spec Hr. unfold sections_max.
  apply elem_of_app in Hin as [Hin|Hin]; apply list_elem_of_fmap in Hin as (k & -> & Hk);
    apply elem_of_seq in Hk; cbn [fst snd] in *.
  - revert Hn1 Hn2 Hr. generalize (textAddress hdr), (textLength hdr). intros f g Hn1 Hn2 Hr.
    etransitivity; [|apply max_fold_ge]. by apply max_fold_covers.
  - revert Hn1 Hn2 Hr. generalize (dataAddress hdr), (dataLength hdr). intros f g Hn1 Hn2 Hr.
    by apply max_fold_covers.
Qed.

Lemma byte_below hdr dol a b : Forall (section_ok dol) (sections hdr) ->
  0 <= bssAddress hdr -> 0 <= bssLength hdr -> bssAddress hdr + bssLength hdr < 2 ^ 32 ->
  byte_with hdr dol a = Some b -> 0 <= a < DOLMax hdr.
Proof.
  intros Hs Hb1 Hb2 Hb3. unfold byte_with. rewrite DOLMax_eq by done. pose proof (sections_max_nonneg hdr).
  destruct (section_byte dol (sections hdr) a) as [b'|] eqn:Eb.
  - intros _. apply section_byte_covered in Eb as (s & Hin & Hl & Hc).
    pose proof (proj1 (Forall_forall _ _) Hs s Hin) as (Hs1 & Hs2 & Hs3 & Hs4).
    destruct (Hs4 Hl) as (_ & _ & Hend).
    pose proof (sections_below _ _ Hin Hl ltac:(lia)). case_decide; lia.
  - case_decide as Hb; [|done]. intros _. destruct Hb as [Hb0 Hb]. rewrite decide_False by done. lia.
Qed.
Lemma program_below dol a b : program_ok dol -> program_byte dol a = Some b ->
  0 <= a < DOLMax (program_header dol).
Proof. intros [_ Hs (Hb1 & Hb2 & Hb3)]. by apply byte_below. Qed.

(** ** Storage that works

    Every read returns; one of whole cache lines at a word inside an open file
    succeeds. *)

Class BootCard (W : Type) `{BootFiles W} := {
  #[global] boot_reads :: FileReads W;
  flash_file : list Z -> W -> option (list Z);
  boot_read_returns dst len off fd (d : W) : is_Some (dev_read dst len off fd d);
  boot_read_keeps dst len off fd (d : W) r b (d' : W) : dev_read dst len off fd d = Some (r, b, d') ->
    (forall p, flash_file p d' = flash_file p d) /\ boot_device_name d' = boot_device_name d;
  boot_read_ok dst len off fd (d : W) r b (d' : W) : readable d -> 0 <= off < Z.of_nat (length (content d fd)) -> off mod 4 = 0 ->
    0 <= len <= Z.of_nat (length dst) -> len mod 32 = 0 -> dev_read dst len off fd d = Some (r, b, d') -> r = 0;
  boot_open_ok p t f d : readable d ->
    wp (boot_open_flash p t f) (fun _ d1 => wp boot_status (fun st d2 => readable d2 /\
      (forall q, flash_file q d2 = flash_file q d) /\ boot_device_name d2 = boot_device_name d /\
      match flash_file p d with
      | Some c => exists b, st = Some b /\ blob_result b = 0 /\ content d2 (blob_fd b) = c
      | None => forall b, st = Some b -> blob_result b <> 0
      end) d1) d;
  boot_close_ok fd d : readable d ->
    wp (dev_close fd) (fun _ d' => readable d' /\
      (forall p, flash_file p d' = flash_file p d) /\ boot_device_name d' = boot_device_name d) d
}.

Section Load.
Context {W : Type} `{BootCard W}.
Implicit Types w : boot_state W.

Definition same_flash (d d' : W) : Prop :=
  (forall p, flash_file p d' = flash_file p d) /\ boot_device_name d' = boot_device_name d.
#[export] Instance same_flash_preorder : PreOrder same_flash.
Proof.
  split; [done|]. intros a b c [H1 H2] [H3 H4]. split; [intros p; by rewrite H3|congruence].
Qed.
Definition same_card (l l' : load_state W) : Prop := same_flash (dev l) (dev l').
#[export] Instance same_card_preorder' : PreOrder same_card.
Proof. split; [by intros l|]. intros a b c H1 H2. unfold same_card. by etransitivity. Qed.

Lemma keeps_dev_read dst len off fd : keeps same_flash (dev_read dst len off fd).
Proof. intros d [r b] d' E. exact (boot_read_keeps _ _ _ _ _ _ _ _ E). Qed.
Lemma keeps_on_dev {A} (m : M W A) : keeps same_flash m -> keeps same_card (on_dev m).
Proof. intros Hm. by apply (keeps_zoom _ same_flash). Qed.
#[local] Hint Resolve keeps_dev_read keeps_on_dev : keeps.
#[local] Hint Extern 1 (keeps same_card (modify _)) => apply keeps_modify; done : keeps.

Lemma keeps_bounce fuel : forall dst t o n fd, keeps same_card (bounce_rounds fuel dst t o n fd).
Proof.
  induction fuel as [|fuel IH]; intros dst t o n fd; cbn [bounce_rounds];
    (destruct (n <=? 0); [eauto with keeps typeclass_instances|]); [eauto with keeps|].
  apply keeps_bind; [typeclasses eauto|eauto with keeps typeclass_instances|intros l].
  apply keeps_bind; [typeclasses eauto|eauto with keeps|intros [r b]].
  apply keeps_bind; [typeclasses eauto|eauto with keeps|intros _].
  destruct (negb _); [eauto with keeps typeclass_instances|].
  apply keeps_bind; [typeclasses eauto|eauto with keeps typeclass_instances|intros b']. apply IH.
Qed.
Lemma keeps_read_data a dst n o fd : keeps same_card (dvd_read_data a dst n o fd).
Proof.
  unfold dvd_read_data. destruct (_ || _); [apply keeps_bounce|].
  apply keeps_bind; [typeclasses eauto|eauto with keeps|intros [r b]]. eauto with keeps typeclass_instances.
Qed.

(** Nothing fails. *)
Lemma bounce_result fuel : forall dst t o n fd (l : load_state W) r b l',
  readable (dev l) -> 0 <= o -> o mod 4 = 0 -> 0 <= n < 2 ^ 32 -> o + n < 2 ^ 64 ->
  o + n <= Z.of_nat (length (content (dev l) fd)) -> length (aligned_buffer l) = Z.to_nat FD_IPC_MAXRESP ->
  bounce_rounds fuel dst t o n fd l = Some (r, b, l') -> r = 0.
Proof.
  induction fuel as [|fuel IH]; intros dst t o n fd l r b l' Hr Ho Ha Hn H64 Hc Hb; cbn [bounce_rounds];
    (destruct (Z.leb_spec n 0); [by intros [= <-]|]); [done|].
  rewrite land_not_3 by done. rewrite Z.sub_diag. change (u32 0) with 0.
  unfold bind, get, on_dev, zoom, modify, of_option.
  destruct (dev_read _ _ _ _ _) as [[[r1 b1] d]|] eqn:Er; [|done].
  destruct (bounce_request_spec n ltac:(lia)) as ([Hq1 Hq2] & Hq3).
  assert (Hq0 : 0 <= bounce_request n 0 <= Z.of_nat (length (aligned_buffer l))).
  { pose proof (bounce_fits _ Hb). unfold FD_IPC_MAXRESP in Hq1. lia. }
  assert (Hin : 0 <= o < Z.of_nat (length (content (dev l) fd))) by lia.
  rewrite (boot_read_ok _ _ _ _ _ _ _ _ Hr Hin Ha Hq0 Hq3 Er). change (negb (0 =? 0)) with false. cbv iota.
  destruct (dev_read_law _ _ o _ _ _ _ _ Hr Ho Ha Hq0 Hq3 Er) as (Hr' & Hc' & Hl & _).
  assert (Hm : (if n >? FD_IPC_MAXRESP then FD_IPC_MAXRESP else n) = Z.min n FD_IPC_MAXRESP) by (bcase; lia).
  rewrite Hm. set (k := Z.min n FD_IPC_MAXRESP) in *.
  assert (Hk : 0 < k <= n) by (unfold FD_IPC_MAXRESP in *; lia).
  destruct (memcpy _ _ _ _ _); [|done]. rewrite (u64_small (o + k)), (u32_small (n - k)) by lia.
  destruct (Z.eq_dec n k) as [Enk|Enk].
  - replace (n - k) with 0 by lia. destruct fuel; cbn; by intros [= <-].
  - apply IH; cbn; rewrite ?Hc'; [done|lia|unfold FD_IPC_MAXRESP in *; zdm|lia|lia|lia|congruence].
Qed.
Lemma read_data_result a dst n o fd (l : load_state W) r b l' :
  readable (dev l) -> 0 <= o -> o mod 4 = 0 -> 0 < n < 2 ^ 32 -> o + n < 2 ^ 64 -> n <= Z.of_nat (length dst) ->
  o + n <= Z.of_nat (length (content (dev l) fd)) -> length (aligned_buffer l) = Z.to_nat FD_IPC_MAXRESP ->
  dvd_read_data a dst n o fd l = Some (r, b, l') -> r = 0.
Proof.
  intros Hr Ho Ha Hn H64 Hd Hc Hb. unfold dvd_read_data. destruct (_ || _) eqn:Ebr; [apply bounce_result; done || lia|].
  unfold bind, on_dev, zoom, ret. destruct (dev_read _ _ _ _ _) as [[[r1 b1] d]|] eqn:Er; [|done].
  assert (Hin : 0 <= o < Z.of_nat (length (content (dev l) fd))) by lia.
  assert (Hfit : 0 <= n <= Z.of_nat (length dst)) by lia.
  rewrite (boot_read_ok _ _ _ _ _ _ _ _ Hr Hin Ha Hfit (direct_length _ _ _ Ebr) Er). by intros [= <-].
Qed.

(** The loader's statics and the storage are usable. *)
Definition ready w : Prop :=
  readable (dev (bt_files w)) /\ length (aligned_buffer (bt_files w)) = Z.to_nat FD_IPC_MAXRESP.
Definition same_device w w' : Prop :=
  same_flash (dev (bt_files w)) (dev (bt_files w')) /\
  forall fd, content (dev (bt_files w')) fd = content (dev (bt_files w)) fd.
Lemma same_device_trans w1 w2 w3 : same_device w1 w2 -> same_device w2 w3 -> same_device w1 w3.
Proof. intros [H1 H2] [H3 H4]. split; [by etransitivity|]. intros fd. by rewrite H4. Qed.

(** Reading a part of the open file into memory. *)
Lemma read_data_mem_ok addr n o fd c w :
  ready w -> content (dev (bt_files w)) fd = c -> 0 < n < 2 ^ 32 -> 0 <= o < 2 ^ 32 -> o mod 4 = 0 ->
  o + n <= Z.of_nat (length c) ->
  wp (read_data_mem addr n o fd) (fun _ w' => ready w' /\ same_device w w' /\ dol_hdr w' = dol_hdr w /\
    mem w' = store_mem addr (slice (Z.to_nat o) (Z.to_nat n) c) (mem w)) w.
Proof.
  intros [Hr Hb] Hc Hn Ho Ha Hf. unfold read_data_mem. apply wp_bind, wp_get, wp_bind, wp_zoom.
  unfold wp at 1.
  destruct (dvd_read_data_spec boot_read_returns (bt_files w) addr (load_mem addr (Z.to_nat n) (mem w)) n o fd)
    as (r & b & l & E & (K1 & K2 & _ & _ & _ & K6) & _ & Hv); try done; try lia.
  { rewrite length_load_mem. lia. }
  { rewrite Hc. lia. }
  rewrite E. pose proof (keeps_read_data _ _ _ _ _ _ _ _ E) as Hk.
  assert (r = 0) as ->.
  { eapply read_data_result; [exact Hr| | | | | | |exact Hb|exact E]; rewrite ?Hc, ?length_load_mem; lia. }
  rewrite (Hv eq_refl). rewrite Hb in K6.
  apply wp_bind, wp_modify, wp_ret. unfold ready, same_device. cbn [bt_files set_bt_files set_mem change_mem dol_hdr mem].
  split; [done|]. split; [done|]. split; [done|]. f_equal. unfold file_bytes. rewrite Hc.
  unfold splice. rewrite take_0, drop_ge; [by rewrite app_nil_r|].
  rewrite length_load_mem, length_slice by lia. lia.
Qed.

(** The two loops are one, over the list of sections. *)
Fixpoint load_all (offset fd : Z) (ss : list section) : M (boot_state W) unit :=
  match ss with
  | [] => ret tt
  | s :: ss => load_section offset fd s.1.1 s.1.2 s.2 ;; load_all offset fd ss
  end.
Lemma load_texts_all offset fd hdr n : forall i,
  load_texts offset fd hdr n i = load_all offset fd (text_sections hdr i n).
Proof.
  induction n as [|n IH]; intros i; [done|]. cbn. exact (f_equal (fun k => bind _ (fun _ => k)) (IH (S i))).
Qed.
Lemma load_datas_all offset fd hdr n : forall i,
  load_datas offset fd hdr n i = load_all offset fd (data_sections hdr i n).
Proof.
  induction n as [|n IH]; intros i; [done|]. cbn. exact (f_equal (fun k => bind _ (fun _ => k)) (IH (S i))).
Qed.

Lemma load_all_ok dol fd ss : Z.of_nat (length dol) < 2 ^ 32 -> Forall (section_ok dol) ss -> forall w,
  ready w -> content (dev (bt_files w)) fd = dol ->
  wp (load_all 0 fd ss) (fun _ w' => ready w' /\ same_device w w' /\ dol_hdr w' = dol_hdr w /\
    mem w' = place dol ss (mem w)) w.
Proof.
  intros Hlen. induction 1 as [|s ss (Ha & Hl & Ho & Hs) _ IH]; intros w Hr Hc; cbn [load_all place].
  { apply wp_ret. split_all; by split. }
  apply wp_bind. unfold load_section. fold (live s). destruct (live s) eqn:El.
  2:{ apply wp_ret. auto. }
  destruct (Hs eq_refl) as (H4 & Hend & Hmax).
  assert (0 < s.1.2) by (unfold live in El; apply andb_prop in El as [_ El%negb_true_iff%Z.eqb_neq]; lia).
  rewrite Z.add_0_l, u64_small by lia.
  apply wp_bind. eapply wp_mono; [apply (read_data_mem_ok _ _ _ _ dol); (done || lia)|].
  intros _ w1 (Hr1 & Hd1 & Hh1 & Hm1). apply wp_ret.
  eapply wp_mono; [apply IH; [done|destruct Hd1 as [_ ->]; done]|].
  intros _ w2 (Hr2 & Hd2 & Hh2 & Hm2). split; [done|]. split; [by eapply same_device_trans|].
  split; [congruence|]. by rewrite Hm2, Hm1.
Qed.

(** The image of a program: what is in memory when it has been loaded. *)
Definition clear_bss (hdr : list Z) (m : Z -> Z) : Z -> Z :=
  if negb (bssAddress hdr =? 0) && negb (bssLength hdr =? 0)
  then zero_mem (bssAddress hdr) (bssLength hdr) m else m.
Definition image (dol : list Z) (m : Z -> Z) : Z -> Z :=
  let hdr := program_header dol in place dol (sections hdr) (clear_bss hdr m).

Lemma image_byte dol m a : program_ok dol ->
  image dol m a = match program_byte dol a with Some b => b | None => m a end.
Proof.
  intros [_ Hs _]. unfold image, program_byte, byte_with. rewrite place_byte by (eapply Forall_impl; [exact Hs|apply section_ok_inside]).
  destruct (section_byte _ _ _); [done|]. unfold clear_bss. set (hdr := program_header dol).
  destruct (Z.eqb_spec (bssAddress hdr) 0) as [E|E]; cbn [negb andb].
  { rewrite decide_False; [done|]. by intros [? _]. }
  destruct (Z.eqb_spec (bssLength hdr) 0) as [E0|E0]; cbn [negb].
  { rewrite decide_False; [done|]. intros [_ ?]. lia. }
  rewrite zero_mem_spec. repeat case_decide; try done; unfold in_bss in *; tauto.
Qed.

Lemma load_dol_ok dol fd w : program_ok dol -> (DOL_HEADER_SIZE <= length dol)%nat ->
  ready w -> length (dol_hdr w) = DOL_HEADER_SIZE -> content (dev (bt_files w)) fd = dol ->
  let hdr := program_header dol in
  wp (load_dol 0 fd) (fun i w' => i = mk_dol (DOLMax hdr) (entryPoint hdr) /\ ready w' /\
    same_flash (dev (bt_files w)) (dev (bt_files w')) /\ length (dol_hdr w') = DOL_HEADER_SIZE /\
    mem w' = image dol (mem w)) w.
Proof.
  intros [Hlen Hs Hb] Hl [Hr Hbl] Hh Hc hdr. unfold load_dol, dvm_cache_disable.
  apply wp_bind, wp_modify, wp_bind, wp_get, wp_bind. cbn [dol_hdr]. unfold on_drive, on_loads, on_dev.
  apply wp_zoom, wp_zoom. cbn [bt_files].
  unfold wp at 1.
  destruct (boot_read_returns (dol_hdr w) (Z.of_nat DOL_HEADER_SIZE) 0 fd (dev (bt_files w))) as [[[r b] d] E].
  rewrite E. pose proof (boot_read_keeps _ _ _ _ _ _ _ _ E : same_flash _ _) as Hf.
  assert (Hfit : 0 <= Z.of_nat DOL_HEADER_SIZE <= Z.of_nat (length (dol_hdr w))) by (rewrite Hh; lia).
  assert (Hin : 0 <= 0 < Z.of_nat (length (content (dev (bt_files w)) fd))) by (rewrite Hc; unfold DOL_HEADER_SIZE in *; lia).
  assert (r = 0) as -> by exact (boot_read_ok _ _ _ _ _ _ _ _ Hr Hin eq_refl Hfit eq_refl E).
  destruct (dev_read_law _ _ 0 _ _ _ _ _ Hr ltac:(lia) eq_refl Hfit eq_refl E)
    as (Hr1 & Hc1 & _ & Hb1).
  rewrite Hc in Hb1. assert (b = hdr) as ->.
  { rewrite Hb1 by done. rewrite Nat2Z.id. unfold splice. rewrite take_0, drop_ge; [by rewrite app_nil_r|].
    rewrite Hh, length_slice by (cbn; lia). lia. }
  assert (Hhdr : length hdr = DOL_HEADER_SIZE) by (apply length_slice; lia).
  apply wp_bind, wp_modify, wp_bind.
  set (w1 := set_dol_hdr hdr _).
  enough (wp (load_texts 0 fd hdr MAXTEXTSECTION 0 ;; load_datas 0 fd hdr MAXDATASECTION 0 ;;
      ret (mk_dol (DOLMax hdr) (entryPoint hdr)))
    (fun i w' => i = mk_dol (DOLMax hdr) (entryPoint hdr) /\ ready w' /\
      same_flash (dev (bt_files w)) (dev (bt_files w')) /\ length (dol_hdr w') = DOL_HEADER_SIZE /\
      mem w' = image dol (mem w)) (set_mem (clear_bss hdr (mem w)) w1)) as Hk.
  { unfold clear_bss in Hk. destruct (_ && _); [by apply wp_modify|by apply wp_ret]. }
  set (w2 := set_mem _ w1).
  rewrite load_texts_all, load_datas_all. apply wp_bind.
  apply Forall_app in Hs as [Ht Hd]. fold hdr in Ht, Hd.
  eapply wp_mono; [apply (load_all_ok dol fd); [done|exact Ht|by split|by cbn; rewrite Hc1]|].
  intros _ w3 (Hr3 & [Hf3 Hc3] & Hh3 & Hm3). apply wp_bind.
  eapply wp_mono; [apply (load_all_ok dol fd); [done|exact Hd|done|by rewrite Hc3; cbn; rewrite Hc1]|].
  intros _ w4 (Hr4 & [Hf4 Hc4] & Hh4 & Hm4). apply wp_ret.
  split; [done|]. split; [done|]. split.
  { transitivity (dev (bt_files w3)); [|done]. by transitivity d. }
  split; [by rewrite Hh4, Hh3|]. rewrite Hm4, Hm3. unfold image. fold hdr.
  unfold sections. by rewrite place_app.
Qed.

Lemma load_flash_ok path dol w : program_ok dol -> (DOL_HEADER_SIZE <= length dol)%nat ->
  ready w -> length (dol_hdr w) = DOL_HEADER_SIZE -> flash_file path (dev (bt_files w)) = Some dol ->
  let hdr := program_header dol in
  wp (load_dol_file path true) (fun i w' => i = mk_dol (DOLMax hdr) (entryPoint hdr) /\ ready w' /\
    same_flash (dev (bt_files w)) (dev (bt_files w')) /\ mem w' = image dol (mem w)) w.
Proof.
  intros Hok Hl [Hr Hb] Hh Hf hdr. unfold load_dol_file. apply wp_bind. unfold on_drive at 1, on_loads, on_dev.
  apply wp_zoom, wp_zoom. eapply wp_mono; [by apply boot_open_ok|]. intros r d1 Hs.
  apply wp_bind. unfold on_drive at 1, on_loads, on_dev. apply wp_zoom, wp_zoom.
  eapply wp_mono; [exact Hs|]. intros st d2 (Hr2 & Hf2 & Hn2 & Hst). rewrite Hf in Hst.
  destruct Hst as (blob & -> & Eb & Hc). rewrite Eb. change (negb (0 =? 0)) with false. cbv iota.
  apply wp_bind. eapply wp_mono; [apply (load_dol_ok dol); try done|].
  intros i w3 (-> & [Hr3 Hb3] & Hs3 & _ & Hm3). apply wp_bind. unfold on_drive at 1, on_loads, on_dev.
  apply wp_zoom, wp_zoom. eapply wp_mono; [by apply boot_close_ok|].
  intros _ d4 (Hr4 & Hf4 & Hn4). apply wp_ret. split; [done|]. split; [done|]. split; [|done].
  transitivity d2; [done|]. by transitivity (dev (bt_files w3)).
Qed.

(** ** Command lines *)

Definition string_block (ss : list (list Z)) : list Z := concat ((fun s => s ++ [0]) <$> ss).
Definition argv_block (magic buffer : Z) (ss : list (list Z)) : list Z :=
  be32_bytes magic ++ be32_bytes buffer ++ be32_bytes (Z.of_nat (length (string_block ss))).

Lemma strings_at_spec ss : forall buffer m,
  0 <= buffer -> buffer + Z.of_nat (length (string_block ss)) < 2 ^ 32 ->
  (strings_at ss buffer m).1 = buffer + Z.of_nat (length (string_block ss)) /\
  forall x, (strings_at ss buffer m).2 x = store_mem buffer (string_block ss) m x.
Proof.
  induction ss as [|s ss IH]; intros buffer m Hb Hl.
  { cbn. split; [lia|]. intros x. by rewrite store_mem_out by (cbn; lia). }
  change (string_block (s :: ss)) with ((s ++ [0]) ++ string_block ss) in *.
  rewrite length_app in *. assert (E1 : length (s ++ [0]) = S (length s)) by (rewrite length_app; cbn; lia).
  cbn [strings_at]. rewrite u32_small by lia.
  destruct (IH (buffer + Z.of_nat (length s) + 1) (store_mem buffer (s ++ [0]) m)) as [I1 I2]; [lia..|].
  split; [rewrite I1; lia|]. intros x. rewrite I2, <- store_mem_app. by rewrite E1, Nat2Z.inj_succ, Z.add_succ_r, <- Z.add_1_r.
Qed.

Lemma setup_argv_ok ss buffer argv magic w :
  0 <= buffer -> buffer + Z.of_nat (length (string_block ss)) < 2 ^ 32 ->
  wp (setup_argv ss buffer argv magic) (fun n w' =>
    n = Z.of_nat (length (string_block ss)) /\ bt_files w' = bt_files w /\
    forall x, mem w' x = store_mem argv (argv_block magic buffer ss)
                           (store_mem buffer (string_block ss) (mem w)) x) w.
Proof.
  intros Hb Hl. unfold setup_argv. apply wp_bind, wp_get.
  destruct (strings_at_spec ss buffer (mem w) Hb Hl) as [E1 E2].
  destruct (strings_at ss buffer (mem w)) as [e m]. cbn [fst snd] in *. subst e.
  replace (u32 (buffer + Z.of_nat (length (string_block ss)) - buffer))
    with (Z.of_nat (length (string_block ss))) by (rewrite u32_small; lia).
  apply wp_bind, wp_put, wp_ret. split; [done|]. split; [done|]. intros x. cbn [mem set_mem].
  unfold argv_block, store_word. set (k := be32_bytes (Z.of_nat _)).
  transitivity (store_mem (argv + 8) k (store_mem argv (be32_bytes magic ++ be32_bytes buffer) m) x).
  { apply store_mem_ext. exact (store_mem_app argv (be32_bytes magic) (be32_bytes buffer) m x). }
  transitivity (store_mem argv ((be32_bytes magic ++ be32_bytes buffer) ++ k) m x).
  { exact (store_mem_app argv (be32_bytes magic ++ be32_bytes buffer) k m x). }
  rewrite <- app_assoc. by apply store_mem_ext.
Qed.

(** What Swiss is told: the game to load, and whether it may return to it. *)
Definition autoload (device path : list Z) : list Z := str "Autoload=" ++ device ++ str ":" ++ path.
Definition swiss_arguments (igr : bool) (device path : list Z) : list (list Z) :=
  [str "swiss-gc.dol"; autoload device path; str "AutoBoot=Yes"; str "BS2Boot=No"; str "Prefer Clean Boot=No"] ++
  (if igr then [str "IGRType=Apploader"] else []).
Definition swiss_environment : list (list Z) := [str "CUBEBOOT=1"].
Definition apploader : list Z := str "/swiss/patches/apploader.img".

Lemma autoload_arg_ok device path w : is_cstr device -> is_cstr path ->
  boot_device_name (dev (bt_files w)) = Some device -> (length device + length path < 246)%nat ->
  exists b, autoload_arg false (Some path) w = Some b /\ cstr b = autoload device path.
Proof.
  intros Hd Hp Ed Hl. unfold autoload_arg. rewrite Ed. cbn [mbind option_bind].
  assert (L9 : length (str "Autoload=") = 9%nat) by reflexivity.
  assert (L1 : length (str ":") = 1%nat) by reflexivity.
  assert (H9 : is_cstr (str "Autoload=")) by cstr_lit. assert (H1 : is_cstr (str ":")) by cstr_lit.
  destruct (strcpy (replicate 256 0) (str "Autoload=")) as [b1|] eqn:E1; [|done].
  destruct (strcpy_spec _ _ _ H9 E1) as [C1 N1]. rewrite length_replicate in N1. cbn [mbind option_bind].
  destruct (strcat_Some b1 device) as [b2 E2]; [rewrite C1, L9; lia|]. rewrite E2. cbn [mbind option_bind].
  destruct (strcat_spec b1 device b2) as [C2 N2]; [by rewrite C1|done|done|]. rewrite C1 in C2.
  assert (is_cstr (cstr b2)) by (rewrite C2; by apply is_cstr_app).
  destruct (strcat_Some b2 (str ":")) as [b3 E3]; [rewrite C2, length_app; lia|]. rewrite E3. cbn [mbind option_bind].
  destruct (strcat_spec b2 (str ":") b3) as [C3 N3]; [done..|]. rewrite C2 in C3.
  assert (is_cstr (cstr b3)) by (rewrite C3; repeat (apply is_cstr_app; split; try done)).
  destruct (strcat_Some b3 path) as [b4 E4]; [rewrite C3, !length_app; lia|]. rewrite E4.
  destruct (strcat_spec b3 path b4) as [C4 N4]; [done..|].
  exists b4. split; [done|]. rewrite C4, C3. unfold autoload. by rewrite <- !app_assoc.
Qed.

(** Swiss has been entered: its program is in memory, the addresses of its two
    blocks are at the places its start code looks at, nothing else changed. *)
Record entered (amagic emagic : Z) (dol : list Z) (args env : list (list Z)) (m m' : Z -> Z) : Prop := {
  en_program a b : let e := entryPoint (program_header dol) in
    program_byte dol a = Some b -> ~ (e + 8 <= a < e + 20) -> ~ (e + 40 <= a < e + 52) -> m' a = b;
  en_args : let e := entryPoint (program_header dol) in
    let argz := DOLMax (program_header dol) + 32 in
    load_mem (e + 8) 12 m' = argv_block amagic argz args /\
    load_mem argz (length (string_block args)) m' = string_block args;
  en_env : let e := entryPoint (program_header dol) in
    let envz := DOLMax (program_header dol) + 32 + Z.of_nat (length (string_block args)) + 32 in
    load_mem (e + 40) 12 m' = argv_block emagic envz env /\
    load_mem envz (length (string_block env)) m' = string_block env;
  en_rest a : let e := entryPoint (program_header dol) in
    let argz := DOLMax (program_header dol) + 32 in
    let envz := argz + Z.of_nat (length (string_block args)) + 32 in
    program_byte dol a = None -> ~ (e + 8 <= a < e + 20) -> ~ (e + 40 <= a < e + 52) ->
    ~ (argz <= a < argz + Z.of_nat (length (string_block args))) ->
    ~ (envz <= a < envz + Z.of_nat (length (string_block env))) -> m' a = m a
}.

Lemma length_argv_block magic b ss : length (argv_block magic b ss) = 12%nat.
Proof. reflexivity. Qed.

(** Two blocks written one after the other below a program's end. *)
Lemma entered_blocks amagic emagic dol args env m m1 m2 m3 :
  let e := entryPoint (program_header dol) in
  let argz := DOLMax (program_header dol) + 32 in
  let envz := argz + Z.of_nat (length (string_block args)) + 32 in
  program_ok dol -> e + 52 <= argz ->
  m1 = image dol m ->
  (forall x, m2 x = store_mem (e + 8) (argv_block amagic argz args)
                      (store_mem argz (string_block args) m1) x) ->
  (forall x, m3 x = store_mem (e + 40) (argv_block emagic envz env)
                      (store_mem envz (string_block env) m2) x) ->
  entered amagic emagic dol args env m m3.
Proof.
  intros e argz envz Hok He -> H2 H3.
  assert (Hout : forall x, ~ (e + 8 <= x < e + 20) -> ~ (e + 40 <= x < e + 52) ->
    ~ (argz <= x < argz + Z.of_nat (length (string_block args))) ->
    ~ (envz <= x < envz + Z.of_nat (length (string_block env))) -> m3 x = image dol m x).
  { intros x ? ? ? ?. rewrite H3, !store_mem_out by (rewrite ?length_argv_block; lia).
    by rewrite H2, !store_mem_out by (rewrite ?length_argv_block; lia). }
  assert (Hl2 : forall a n, a + Z.of_nat n <= envz -> (a + Z.of_nat n <= e + 40 \/ e + 52 <= a) ->
    load_mem a n m3 = load_mem a n m2).
  { intros a n Ha Hb. apply load_mem_ext. intros x Hx. rewrite H3, !store_mem_out; rewrite ?length_argv_block; lia || done. }
  split; cbv zeta; fold e argz envz.
  - intros a b Hb Ha1 Ha2. pose proof (program_below _ _ _ Hok Hb). fold argz in H.
    rewrite Hout by (unfold envz, argz in *; lia). rewrite image_byte by done. by rewrite Hb.
  - rewrite !Hl2 by (unfold envz, argz in *; lia). rewrite (load_mem_ext _ _ _ _ (fun x _ => H2 x)).
    split; [apply (load_mem_eq _ (argv_block amagic argz args))|].
    rewrite (load_mem_ext _ _ m2 _ (fun x _ => H2 x)), load_mem_out by (rewrite length_argv_block; lia).
    apply load_mem_eq.
  - split; rewrite (load_mem_ext _ _ m3 _ (fun x _ => H3 x)).
    + apply (load_mem_eq _ (argv_block emagic envz env)).
    + rewrite load_mem_out by (rewrite length_argv_block; unfold envz, argz in *; lia). apply load_mem_eq.
  - intros a Hn ? ? ? ?. rewrite Hout by done. rewrite image_byte by done. by rewrite Hn.
Qed.

Ltac lit_len :=
  repeat match goal with
  | |- context [length (str ?s)] =>
      let n := eval vm_compute in (length (str s)) in change (length (str s)) with n
  end.
Lemma length_swiss_block igr device path : (length device + length path < 246)%nat ->
  (length (string_block (swiss_arguments igr device path)) < 400)%nat.
Proof.
  intros Hl. unfold string_block, swiss_arguments, autoload. destruct igr; cbn [app fmap list_fmap concat];
    rewrite !length_app; lit_len; cbn; lia.
Qed.

Lemma swiss_ok amagic emagic path device dol (w : boot_state W) :
  let hdr := program_header dol in
  let igr := bool_decide (is_Some (flash_file apploader (dev (bt_files w)))) in
  let args := swiss_arguments igr device path in
  ready w -> length (dol_hdr w) = DOL_HEADER_SIZE ->
  is_swiss (Some path) = false -> is_cstr path -> is_cstr device ->
  boot_device_name (dev (bt_files w)) = Some device -> (length device + length path < 246)%nat ->
  flash_file (str "/swiss-gc.dol") (dev (bt_files w)) = Some dol ->
  program_ok dol -> (DOL_HEADER_SIZE <= length dol)%nat ->
  0 <= entryPoint hdr -> entryPoint hdr + 52 <= DOLMax hdr + 32 -> DOLMax hdr + 512 < 2 ^ 32 ->
  wp (chainload_swiss_game amagic emagic (Some path) false)
    (fun o w' => o = Run (entryPoint hdr) /\ entered amagic emagic dol args swiss_environment (mem w) (mem w')) w.
Proof.
  intros hdr igr args Hr Hh Hsw Hp Hd Ed Hl Hf Hok Hlen He0 He Hmax. unfold chainload_swiss_game. rewrite Hsw.
  apply wp_bind. eapply wp_mono; [apply (load_flash_ok (str "/swiss-gc.dol") dol); done|].
  fold hdr. intros i w1 (-> & [Hr1 Hb1] & [Hf1 Hn1] & Hm1). cbn [max_addr entrypoint].
  apply wp_bind, wp_get, wp_bind.
  destruct (autoload_arg_ok device path w1) as (b & Eb & Cb); [done|done|by rewrite Hn1|done|].
  unfold of_option at 1. unfold wp at 1. rewrite Eb.
  apply wp_bind. unfold on_drive at 1, on_loads, on_dev. apply wp_zoom, wp_zoom.
  eapply wp_mono; [apply (boot_open_ok apploader); done|]. intros r d2 Hs.
  apply wp_bind. unfold on_drive at 1, on_loads, on_dev. apply wp_zoom, wp_zoom.
  eapply wp_mono; [exact Hs|]. intros st d3 (_ & _ & _ & Hst). rewrite Hf1 in Hst.
  cbv zeta. rewrite Cb.
  match goal with |- context [?l ++ match st with Some _ => _ | None => _ end] =>
    set (args1 := l ++ match st with Some b => if blob_result b =? 0 then [str "IGRType=Apploader"] else [] | None => [] end) end.
  assert (args1 = args) as ->.
  { unfold args1, args, swiss_arguments, igr. f_equal.
    destruct (flash_file apploader (dev (bt_files w))) as [c|].
    - destruct Hst as (bl & -> & -> & _). rewrite bool_decide_true; [done|eauto].
    - rewrite bool_decide_false by (intros [? ?]; done). destruct st as [bl|]; [|done].
      by rewrite (proj2 (Z.eqb_neq _ _) (Hst bl eq_refl)). }
  pose proof (length_swiss_block igr device path Hl) as Hal. fold args in Hal.
  assert (Hd0 : 0 <= DOLMax hdr).
  { pose proof (sections_max_nonneg hdr). destruct (po_bss _ Hok) as (? & ? & ?).
    unfold hdr. rewrite DOLMax_eq by done. fold hdr. case_decide; lia. }
  rewrite !(u32_small (DOLMax hdr + 32)), (u32_small (entryPoint hdr + 8)), (u32_small (entryPoint hdr + 40)) by lia.
  apply wp_bind. eapply wp_mono; [apply setup_argv_ok; unfold args in *; lia|].
  intros n w5 (-> & _ & Hm5). rewrite u32_small by lia.
  apply wp_bind. eapply wp_mono; [apply setup_argv_ok; [lia|]|].
  { change (length (string_block [str "CUBEBOOT=1"])) with 11%nat. lia. }
  intros n w6 (_ & _ & Hm6). apply wp_ret. split; [done|].
  by apply (entered_blocks _ _ _ _ _ _ (mem w1) (mem w5)).
Qed.
End Load.

(** C32. Swiss is started properly: when the storage works and holds a
    swiss-gc.dol whose sections lie in the file, with room in memory for itself
    and its arguments and with its start code's blocks inside it, then for a
    game whose path and device have fewer than 246 characters together the call
    gets to Swiss's entry point with every section's bytes at its address, the BSS clear, and, after
    the end of the program, the NUL-terminated arguments (the game to load among
    them, and the in-game-reset type exactly when the apploader is on the flash)
    and environment, whose places and lengths are in the two blocks that Swiss's
    start code looks at; no other byte of memory has changed. *)
Theorem swiss_is_started {W} `{BootCard W} amagic emagic path device dol (w : boot_state W) :
  let hdr := program_header dol in
  let igr := bool_decide (is_Some (flash_file apploader (dev (bt_files w)))) in
  ready w -> length (dol_hdr w) = DOL_HEADER_SIZE ->
  is_swiss (Some path) = false -> is_cstr path -> is_cstr device ->
  boot_device_name (dev (bt_files w)) = Some device -> (length device + length path < 246)%nat ->
  flash_file (str "/swiss-gc.dol") (dev (bt_files w)) = Some dol ->
  program_ok dol -> (DOL_HEADER_SIZE <= length dol)%nat ->
  0 <= entryPoint hdr -> entryPoint hdr + 52 <= DOLMax hdr + 32 -> DOLMax hdr + 512 < 2 ^ 32 ->
  exists w', chainload_swiss_game amagic emagic (Some path) false w = Some (Run (entryPoint hdr), w') /\
    entered amagic emagic dol (swiss_arguments igr device path) swiss_environment (mem w) (mem w').
Proof.
  intros hdr igr Hr Hh Hsw Hp Hd Ed Hl Hf Hok Hlen He0 He Hmax.
  destruct (wp_elim _ _ _ (swiss_ok amagic emagic path device dol w Hr Hh Hsw Hp Hd Ed Hl Hf Hok Hlen He0 He Hmax))
    as (o & w' & E & -> & Hent).
  exists w'. by split.
Qed.

(** ** A flash with files *)

Record sim_flash := mk_flash { fl_files : list (list Z * list Z); fl_open : option (list Z) }.
Definition fl_lookup (p : list Z) (d : sim_flash) : option (list Z) :=
  snd <$> List.find (fun e => bool_decide (e.1 = p)) (fl_files d).
#[export] Instance sim_boot_files : BootFiles sim_flash := {
  boot_device := {|
    dev_open p _ _ := fun d => Some (0, d);
    dev_status b := fun d => Some (0, b, d);
    dev_close _ := fun d => Some (tt, d);
    dev_read dst len offset _ := fun d =>
      Some (0, splice 0 (slice (Z.to_nat offset) (Z.to_nat len) (default [] (fl_open d))) dst, d) |};
  boot_open_flash p _ _ := fun d => Some (0, mk_flash (fl_files d) (fl_lookup p d));
  boot_status := fun d =>
    Some (Some (be32_bytes (if fl_open d then 0 else 1) ++ replicate 28 0), d);
  boot_set_default_fd _ _ := fun d => Some (tt, d);
  boot_is_native _ := false;
  boot_device_name _ := Some (str "sdb")
}.
#[export] Instance sim_boot_reads : FileReads sim_flash.
Proof.
  refine {| readable _ := True; content d _ := default [] (fl_open d) |}.
  intros dst len off fd d r dst' d' _ _ _ Hl _ [= <- <- <-]. split_all. apply length_splice. unfold slice. len.
Defined.
#[export] Instance sim_boot_card : BootCard sim_flash.
Proof.
  refine {| flash_file := fl_lookup |}; try done.
  { by intros dst len off fd d r b d' [= <- <- <-]. }
  { by intros dst len off fd d r b d' _ _ _ _ _ [= <- <- <-]. }
  intros p t f d _. unfold wp. cbn. repeat split; try done.
  destruct (fl_lookup p d) as [c|]; [by eexists|]. by intros b [= <-].
Defined.

(** A program of one 32-byte section at 0x80003100, and the loading of it. *)
Definition small_dol : list Z :=
  splice 0xe0 (be32_bytes 0x80003100)
    (splice 0x90 (be32_bytes 64)
      (splice 0x48 (be32_bytes 0x80003100)
        (splice 0 (be32_bytes 256) (replicate 256 0)))) ++ replicate 64 7.
Definition flash_before : boot_state sim_flash :=
  mk_boot (mk_load (replicate (Z.to_nat FD_IPC_MAXRESP) 0) 0 0 [] (mk_flash [(str "/swiss-gc.dol", small_dol)] None))
    (replicate 256 0) [] [] [] (fun _ => 0) true.

Lemma swiss_is_started_witness : exists w',
  chainload_swiss_game 0x5f617267 0x5f656e76 (Some (str "/games/a.iso")) false flash_before = Some (Run 0x80003100, w') /\
  load_mem (0x80003140 + 32) 13 (mem w') = str "swiss-gc.dol" ++ [0].
Proof.
  destruct (swiss_is_started 0x5f617267 0x5f656e76 (str "/games/a.iso") (str "sdb") small_dol flash_before)
    as (w' & E & He).
  - split; [exact I|]. apply length_replicate.
  - reflexivity.
  - reflexivity.
  - cstr_lit.
  - cstr_lit.
  - reflexivity.
  - apply Nat.ltb_lt. vm_compute. reflexivity.
  - reflexivity.
  - split.
    + apply Z.ltb_lt. vm_compute. reflexivity.
    + apply (bool_decide_unpack _). vm_compute. exact I.
    + cbv zeta. apply (bool_decide_unpack _). vm_compute. exact I.
  - apply Nat.leb_le. vm_compute. reflexivity.
  - apply Z.leb_le. vm_compute. reflexivity.
  - apply Z.leb_le. vm_compute. reflexivity.
  - apply Z.ltb_lt. vm_compute. reflexivity.
  - exists w'. split; [exact E|].
    destruct (en_args _ _ _ _ _ _ _ He) as [_ Ha].
    transitivity (take 13 (load_mem (0x80003140 + 32) (length (string_block
      (swiss_arguments false (str "sdb") (str "/games/a.iso")))) (mem w'))); [reflexivity|].
    transitivity (take 13 (string_block (swiss_arguments false (str "sdb") (str "/games/a.iso")))); [|vm_compute; reflexivity].
    f_equal. exact Ha.
Defined.
