(* ===== verification/Bs2start.v ===== *)
(** The end of the IPL (src/patches/source/main.c, the second half of [bs2start]):
    the memory the IPL ran in is wiped, and what was chosen in the menu is
    started.  The first half - stopping the list's thread or reading the header
    of the disc in the drive, and switching the drivers to their own bus access -
    is in the models of those parts. *)

From Stdlib Require Import String.
From S2P Require Import Prelude Mem CStr Di Fdrv FlippyEmu FileLoad FileLoadThms GmPaths DiscInfo Boot BootThms.
#[local] Open Scope prog_scope.

Definition WIPE_START : Z := 0x80100000.
Definition WIPE_END : Z := 0x81600000.

Section Bs2start.
Context {W : Type} `{BootFiles W}.
Context (ARGV_MAGIC ENVP_MAGIC tv_mode sector_addr : Z).
Let P := M (boot_state W).

(** The block cache is turned off before its pages are wiped. *)
Definition wipe_ipl : P unit :=
  dvm_cache_disable ;; modify (change_mem (zero_mem WIPE_START (WIPE_END - WIPE_START))).

(** A loader that comes back from the passthrough falls through to the entry; one
    that comes back from there gets to [__builtin_unreachable]. *)
Definition start_entry (force_swiss_boot : bool) (type : gm_file_type_t) (entry : boot_entry_t) : P outcome :=
  o <- (if bool_decide (type = FILE_PROGRAM) then
          load_stub ;; chainload_swiss_game ARGV_MAGIC ENVP_MAGIC (Some (be_path entry)) false
        else if negb force_swiss_boot then chainload_boot_game ARGV_MAGIC ENVP_MAGIC tv_mode sector_addr force_swiss_boot (Some entry) false
        else chainload_swiss_game ARGV_MAGIC ENVP_MAGIC (Some (be_path entry)) false) ;;
  match o with Back => spin | _ => ret o end.
Definition start_chosen (passthrough force_swiss_boot : bool) (type : gm_file_type_t) (entry : boot_entry_t) : P outcome :=
  wipe_ipl ;;
  o <- (if passthrough then chainload_boot_game ARGV_MAGIC ENVP_MAGIC tv_mode sector_addr force_swiss_boot None true else ret Back) ;;
  match o with Back => start_entry force_swiss_boot type entry | _ => ret o end.
End Bs2start.

(** A game on a device that cannot be the disc drive goes to Swiss, in memory that
    holds nothing of the IPL but what Swiss and its arguments have been put over. *)
Theorem game_goes_to_swiss {W} `{BootCard W} amagic emagic tv_mode sector_addr entry device dol force_swiss (w : boot_state W) :
  let hdr := program_header dol in
  let path := be_path entry in
  let igr := bool_decide (is_Some (flash_file apploader (dev (bt_files w)))) in
  force_swiss = true \/ boot_is_native (dev (bt_files w)) = false ->
  ready w -> length (dol_hdr w) = DOL_HEADER_SIZE ->
  is_swiss (Some path) = false -> is_cstr path -> is_cstr device ->
  boot_device_name (dev (bt_files w)) = Some device -> (length device + length path < 246)%nat ->
  flash_file (str "/swiss-gc.dol") (dev (bt_files w)) = Some dol ->
  program_ok dol -> (DOL_HEADER_SIZE <= length dol)%nat ->
  0 <= entryPoint hdr -> entryPoint hdr + 52 <= DOLMax hdr + 32 -> DOLMax hdr + 512 < 2 ^ 32 ->
  exists w', start_chosen amagic emagic tv_mode sector_addr false force_swiss FILE_GAME entry w = Some (Run (entryPoint hdr), w') /\
    entered amagic emagic dol (swiss_arguments igr device path) swiss_environment
      (zero_mem WIPE_START (WIPE_END - WIPE_START) (mem w)) (mem w').
Proof.
  intros hdr path igr Hnat Hr Hh Hsw Hp Hd Ed Hl Hf Hok Hlen He0 He Hmax. 
  set (w1 := set_mem (zero_mem WIPE_START (WIPE_END - WIPE_START) (mem w)) (mk_boot (bt_files w) (dol_hdr w) (bt_iso9660Buf w)
    (bt_iso_sector_buf w) (bt_header w) (mem w) false)).
  assert (E : start_chosen amagic emagic tv_mode sector_addr false force_swiss FILE_GAME entry w =
              start_entry amagic emagic tv_mode sector_addr force_swiss FILE_GAME entry w1) by reflexivity.
  pose proof (swiss_ok amagic emagic path device dol w1 Hr Hh Hsw Hp Hd Ed Hl Hf Hok Hlen He0 He Hmax) as Hwp.
  apply wp_elim in Hwp as (o & w' & Erun & -> & Hent). exists w'. split; [|exact Hent].
  rewrite E. unfold start_entry. rewrite bool_decide_eq_false_2 by done. unfold bind at 1.
  enough (forall m : M _ outcome, m w1 = Some (Run (entryPoint hdr), w') ->
    match m w1 with Some (a, w0) => (match a with Back => spin | _ => ret a end) w0 | None => None end =
    Some (Run (entryPoint hdr), w')) as Hm.
  { apply Hm. destruct force_swiss; cbn [negb]; [exact Erun|]. destruct Hnat as [Hnat|Hnat]; [done|].
    unfold chainload_boot_game, bind at 1, get. cbn [orb negb andb].
    change (boot_is_native (dev (bt_files w1))) with (boot_is_native (dev (bt_files w))). rewrite Hnat. exact Erun. }
  intros m' ->. reflexivity.
Qed.
